(* ===== verification/_CoqProject ===== *)
-Q . S2P
Prelude.v
GoStd.v
Sha256.v
Reconcile.v
Hsm.v
MockClient.v
Api.v
Kube.v
Base64.v
EnvConfig.v
Pki.v
PkiTrust.v
Mirror.v
Parallel.v
Oids.v
Pkcs11.v
PinProvider.v
Provision.v
Proto.v
Validation.v
Grpc.v
GrpcClient.v
Pool.v
PoolController.v
Agents.v
AgentsSpec.v
Pkcs11Laws.v
PoolAgents.v
PoolAgentsSpec.v
Usb.v
Discovery.v
DiscoverySpec.v
UsbStub.v
Trigger.v
DiscoveryController.v
SecretController.v
Watches.v
SecretControllerSpec.v
Auth.v
Proxy.v
ProxySpec.v
Server.v
KubectlClient.v
KubectlCommands.v
KubectlShow.v
KubectlShowSpec.v
KubectlSpec.v
Flags.v
KubectlMain.v
KubectlMainSpec.v
TestProgram.v
PkcsStub.v
CommandLine.v
AgentTls.v
Manager.v
GoHeap.v
DeepCopy.v
DeepCopySpec.v
