(* ===== verification/Prelude.v ===== *)
(** * Verification development for hsm-secrets-operator

    The program keeps secrets on hardware security modules (HSMs) attached to the nodes of
    a Kubernetes cluster, copies them between the devices, serves them through a REST API
    and a command line, and delivers them as Kubernetes Secrets.  One binary runs in three
    modes: the manager (controllers, mirroring, REST API), an agent per device (gRPC over
    the PKCS#11 library) and a discovery pod per node.  A second binary is the kubectl
    plugin.

    ** How the parts interact

    - The discovery pods ([Discovery], over [Usb]) scan USB devices for every HSMDevice and
      report in an annotation of their pod.  The DaemonSet they run in is kept by
      [DiscoveryController]; [PoolController] aggregates the reports into an HSMPool;
      [PoolAgents] deploys an agent for each device of a ready pool.
    - An agent ([Provision] for its start, [AgentTls] for listening and mutual TLS, [Grpc]
      for its service, [Validation] at its door) calls an [hsm.Client] ([Hsm]): the PKCS#11 client ([Pkcs11], with [Oids] and
      [PinProvider]) or the in-memory one ([MockClient]).
    - The manager finds agents and shares connections to them ([Agents], [Pool]); a
      connection is again an [hsm.Client] ([GrpcClient], with the messages of [Proto]),
      secured with the certificates of [Pki] ([PkiTrust]: who trusts whom).
    - Three clients work against the agent manager's contract: the mirror ([Mirror], started
      by the event loop of [Trigger]), the REST proxy ([Proxy] behind [Server] and [Auth])
      and the HSMSecret controller ([SecretController]).  All of them ask [Reconcile] which
      copy of a secret wins.
    - The kubectl plugin ([KubectlMain] over [KubectlClient], [KubectlCommands],
      [KubectlShow]) talks to the REST server.
    - [Watches] says which events wake the controllers.  The objects they handle are values
      in the model; that copies of them share no memory is what [DeepCopySpec] shows of the
      generated code of [DeepCopy], on the memory of [GoHeap].
    - [Flags] and [CommandLine] say what the arguments of the three modes mean, those the
      controllers give to agents among them; [Manager] puts the manager mode together.

    The contracts are type classes: [Hsm.ClientLaws] (what an [hsm.Client] promises),
    [Mirror.AgentLaws] (what the agent manager promises), [Kube.ApiLaws] (the Kubernetes
    API), [Pkcs11.TokenLaws] (the PKCS#11 library), [GrpcClient.ConnLaws] (a network that
    may lose requests and answers), [Server.RouterLaws], [Auth.JWTLaws], [KubectlSpec.Wire],
    [KubectlMainSpec.CobraLaws], [Watches.RuntimeLaws], [TestProgram.ToolLaws].
    [MockClient.mock_implements_client], [GrpcClient.grpc_implements_client] and
    [AgentsSpec.agent_manager_implements] discharge the first two for the program's own
    implementations, so what is proved of the mirror and the REST API against the contract
    holds of them over the network.

    ** Conventions

    A Go function on a world [W] is a state transformer [ST W A := W → A * W]; an error is
    a value of [result] ([Ok], [Err]); early returns are [st_try].  A pointer or a field
    that may be nil is an [option], and dereferencing nil is the error [nil_dereference].
    A Go map is a [gmap]; where the program ranges over one, the order is an argument (the
    class [MapOrder]) and theorems hold for every order.  Goroutines that are joined run
    under an arbitrary [Parallel.Scheduler]; the others are step relations ([Trigger],
    [DiscoverySpec]).  Integers are [Z]; where the width matters (versions, durations,
    flags) the wrap-around or the range is written out.  Strings and byte slices are byte
    sequences.  Definitions keep the names of the source, and a bracketed comment in front
    of each gives its file and lines.  Everything is executable: the witnesses evaluate the
    model on concrete devices, clusters and requests.

    ** Files

    - [Prelude]: errors, results, the state monad, [preserves] (a relation every run of an
      operation keeps), map orders, shared lemmas and tactics.  [GoStd], [Sha256],
      [Base64]: strings, fmt, time, crypto/sha256 and encoding/base64 of Go.
    - [Reconcile]: internal/reconcile/resolve.go.
    - [Hsm], [MockClient], [Oids], [Pkcs11], [PinProvider]: internal/hsm (client.go,
      mock_client.go, oids.go, pkcs11_client.go with pkcs11_cgo.go, pin_provider.go).
      [PkcsStub]: pkcs11_stub.go, the build without cgo.
    - [Api], [Kube]: api/v1alpha1 and the part of the Kubernetes API that is used.
    - [EnvConfig]: internal/config.  [Pki], [PkiTrust]: internal/pki, internal/agent/tls.go
      and the rotation of internal/modes/manager/pki_runnable.go, with what they keep.
    - [Mirror]: internal/mirror/manager.go.  [Trigger]: internal/trigger and
      internal/modes/manager/runnable.go.
    - [Parallel]: fan-out over goroutines, with its proof rule.
    - [Provision]: internal/agent/provisioner.go, pcscd_manager.go, internal/modes/agent.
    - [Proto], [Validation], [Grpc], [GrpcClient]: api/proto/hsm/v1,
      internal/security/validation.go, internal/agent/grpc_server.go, grpc_client.go.
    - [AgentTls]: the start of the server and the TLS configurations of both ends, from
      grpc_server.go, tls.go and grpc_client.go of internal/agent.
    - [Pool], [Agents], [AgentsSpec]: internal/agent/connection_pool.go, manager.go,
      naming.go, and their theorems.
    - [PoolController], [PoolAgents], [PoolAgentsSpec], [DiscoveryController],
      [SecretController], [SecretControllerSpec], [Watches]: internal/controller.
    - [Usb], [Discovery], [DiscoverySpec], [UsbStub]: internal/discovery,
      internal/modes/discovery; the last is the build without udev.
    - [Auth], [Proxy], [ProxySpec], [Server]: internal/security/api_auth.go, internal/api.
    - [KubectlClient], [KubectlCommands], [KubectlShow], [KubectlShowSpec], [KubectlSpec]:
      kubectl-hsm/pkg; the commands that write, those that show, and their theorems.
    - [KubectlMain], [KubectlMainSpec]: kubectl-hsm/cmd/main.go and the constructors of the
      commands: the tree of commands and flags, and what command lines mean.
    - [GoHeap], [DeepCopy], [DeepCopySpec]: Go's pointers, slices and maps in a heap, and
      api/v1alpha1/zz_generated.deepcopy.go.
    - [Flags], [CommandLine]: the flag package of Go as it is used, cmd/hsm-operator/main.go
      and the flags of internal/modes.  [Manager]: internal/modes/manager/manager.go.
    - [TestProgram]: cmd/test/main.go, the tool for trying a token.

    ** Theorems

    - Conflict resolution: [Resolve] implements the documented policy, independently of the
      order of the observations; a strict majority is not overturned.
    - Mirroring: a plan that succeeds leaves the winning data on its targets, the next
      inventory finds the devices converged, and a sweep neither fabricates nor loses.
    - Devices: the PKCS#11 round trip and its isolation, a blank token is only initialized
      when that was asked for and is certain, PINs are current or from an unexpired cache.
    - Network: the gRPC client over an unreliable network, the pool and the agent manager
      keep the contracts; the log is independent of PINs and secret contents.
    - REST API: reads change nothing, writes are confined to their path, a write is what a
      later read answers and a deletion what it does not find when enough devices took
      part, statuses are truthful, versions increase up to the greatest int64, and only
      exempt routes are handled without a valid token.
    - Controllers: what a reconciliation establishes, what it may touch, that recreation of
      drifted agents comes to rest, that agents are not removed without a gate; that
      drift wakes the controller that restores it, and which status writes wake their own
      controller.
    - Copies: a deep copy of an API object is equal to it and isolated from it, which is what
      lets the model treat API objects as values.
    - Discovery: the index of the cache under every interleaving, the report, and the
      panic of a restarted monitor, which a build without udev always meets.
    - Certificates: what ensuring the PKI writes and that it is stable until renewal; that
      the agents' Secret and the manager's material fit through every run of rotations; that
      a deployed agent serves the manager, and nobody without a certificate of its CA.
    - kubectl plugin: the data it collects is text; reading, renaming and merging through
      the REST server down to the devices; every command with every choice of options can
      be given as words, and the documented command lines are understood but for those with
      --from-json-file.
    - Command lines: an agent understands the arguments it is deployed with and never falls
      back to the mock client; every configuration of the manager can be given as flags;
      the manager starts the components of its configuration.
    - The test tool: it changes at most the secret it is given, ends with status 0 only if
      the operation was done, and prints what was created; its failures leave the daemon
      running.  Without cgo no client connects, so an agent that requires hardware does not
      start and the tool always fails.

    ** Fuel and bounds

    Loops that are not structural get the length of what they consume: [skip_space],
    [trim_space] and [Sha256.chunks] the length of their input, [Oids.base128_loop] and
    [parse_arcs] the number of digits or bytes ([base128_length_spec], [parse_arcs_spec]),
    [Parallel.run_procs] the number of actions of its goroutines ([run_procs_spec]: all of
    them finish), [KubectlCommands.prompt_loop] one more than the lines of input
    ([KubectlSpec.prompt_loop_enough]), [KubectlShow.fields_fuel] the length of the text.
    The other counters are the code's own: retries of the mirror's discovery and of the
    pool, three attempts of a status update, fifty of pcscd; the waiting loops of the agent
    manager and of the mirror get the number of ticks before their timeout.  Channel
    capacities (10 and 100) are the code's.

    ** Not modelled

    Locks (methods under a mutex are atomic), logging except where a theorem is about it,
    contexts and time-outs (a call may fail at any moment instead), the serving loops of the
    HTTP and gRPC servers, the code generated from the protocol buffers (its messages are
    modelled, its marshalling and stubs are not) and the registration of types, the utilities of
    the end-to-end tests, help texts, and what commands print beyond what is stated.  Code of libraries (PKCS#11, crypto/x509, JWT,
    gin, gRPC, Kubernetes and its controller runtime, JSON, libudev, cobra) is an argument with
    its documented behaviour as a class of laws. *)

From stdpp Require Export gmap strings list sorting fin_maps.
From Stdlib Require Export ZArith Lia.
From Stdlib Require Ascii.

#[global] Open Scope Z_scope.

(** ** Go errors

    [errorf m] is [errors.New(m)] or [fmt.Errorf] without [%w]; [wrapf m e] is
    [fmt.Errorf("m: %w", e)] and [wrap_after e m] is [fmt.Errorf("%wm", e)]; [pkcs11_error] is an error code of the PKCS#11
    library with its text.  The other constructors are the sentinel or typed
    errors the program inspects. *)
Inductive error :=
  | errorf (msg : string)
  | wrapf (msg : string) (inner : error)
  | wrap_after (inner : error) (msg : string)
  | ErrTokenNotPresent
  | pkcs11_error (code : Z) (msg : string)
  | api_NotFound (msg : string)
  | api_Conflict (msg : string)
  | api_AlreadyExists (msg : string)
  | status_error (code : string) (msg : string).

#[global] Instance error_eq_dec : EqDecision error.
Proof. solve_decision. Defined.

(** [err.Error()], also what the [%v] and [%w] verbs print. *)
Fixpoint error_string (e : error) : string :=
  match e with
  | errorf m | api_NotFound m | api_Conflict m | api_AlreadyExists m | pkcs11_error _ m => m
  | wrapf m e' => m +:+ ": " +:+ error_string e'
  | wrap_after e' m => error_string e' +:+ m
  | ErrTokenNotPresent => "hsm token not present or device removed"
  | status_error code m => "rpc error: code = " +:+ code +:+ " desc = " +:+ m
  end.

(** [apierrors.IsNotFound], [apierrors.IsConflict] and [apierrors.IsAlreadyExists]. *)
Fixpoint IsNotFound (e : error) : bool :=
  match e with api_NotFound _ => true | wrapf _ e' | wrap_after e' _ => IsNotFound e' | _ => false end.
Fixpoint IsConflict (e : error) : bool :=
  match e with api_Conflict _ => true | wrapf _ e' | wrap_after e' _ => IsConflict e' | _ => false end.

Fixpoint IsAlreadyExists (e : error) : bool :=
  match e with api_AlreadyExists _ => true | wrapf _ e' | wrap_after e' _ => IsAlreadyExists e' | _ => false end.

(** [errors.Is(err, target)] for a sentinel: walk the chain of wrapped errors. *)
Fixpoint errors_Is (err target : error) : bool :=
  bool_decide (err = target) ||
  match err with
  | wrapf _ inner | wrap_after inner _ => errors_Is inner target
  | _ => false
  end.

(** Dereferencing a nil pointer panics, and the panic unwinds the goroutine; where a
    modelled function can do so its result is this error. *)
Definition nil_dereference : error :=
  errorf "runtime error: invalid memory address or nil pointer dereference".

Definition index_out_of_range : error :=
  errorf "runtime error: index out of range [0] with length 0".

(** Closing or sending on a closed channel panics. *)
Definition close_of_closed_channel : error := errorf "panic: close of closed channel".
Definition send_on_closed_channel : error := errorf "panic: send on closed channel".

(** A Go function returning [(T, error)]. *)
Inductive result (A : Type) :=
  | Ok (a : A)
  | Err (e : error).
Arguments Ok {A} a.
Arguments Err {A} e.

#[global] Instance result_eq_dec `{EqDecision A} : EqDecision (result A).
Proof. solve_decision. Defined.

Definition is_Ok {A} (r : result A) : bool :=
  match r with Ok _ => true | Err _ => false end.

Definition result_map {A B} (f : A → B) (r : result A) : result B :=
  match r with Ok a => Ok (f a) | Err e => Err e end.

(** ** Stateful code: a state monad over a world [W] *)
Definition ST (W A : Type) : Type := W → A * W.

Definition st_ret {W A} (a : A) : ST W A := λ w, (a, w).
Definition st_bind {W A B} (m : ST W A) (k : A → ST W B) : ST W B :=
  λ w, let (a, w') := m w in k a w'.

Declare Scope go_scope.
Delimit Scope go_scope with go.
Bind Scope go_scope with ST.

Notation "'let*' x ':=' m 'in' k" := (st_bind m (λ x, k))
  (at level 10, x binder, m at level 100, k at level 200) : go_scope.
Notation "'do!' m 'in' k" := (st_bind m (λ _, k))
  (at level 10, m at level 100, k at level 200) : go_scope.

(** [if err != nil { return err' }] with [err' = onerr err], else go on. *)
Definition st_try {W A B} (m : ST W (result A)) (onerr : error → error)
    (k : A → ST W (result B)) : ST W (result B) :=
  st_bind m (λ r, match r with Ok a => k a | Err e => st_ret (Err (onerr e)) end).

(** A [for _, x := range l] loop that threads the world and an accumulator. *)
Fixpoint st_fold {W A S} (f : S → A → ST W S) (l : list A) (s : S) : ST W S :=
  match l with
  | [] => st_ret s
  | x :: l' => st_bind (f s x) (λ s', st_fold f l' s')
  end.

(** Run [m] on the component [get w] of the world and put the result back. *)
Definition lift_st {V W A} (get : W → V) (put : V → W → W) (m : ST V A) : ST W A :=
  λ w, let (a, v) := m (get w) in (a, put v w).

(** ** Maps: Go iterates over a map in an unspecified order.  Code that ranges over
    a map uses [range], about which only [range_perm] is known. *)
Class MapOrder := {
  range : ∀ {A : Type}, gmap string A → list (string * A);
  range_perm : ∀ {A : Type} (m : gmap string A), range m ≡ₚ map_to_list m;
}.
(** One such order, for evaluation on concrete inputs. *)
Definition listed_order : MapOrder :=
  {| range := λ A m, map_to_list m; range_perm := λ A m, reflexivity _ |}.

(** ** Strings: Go compares strings bytewise, as [String.compare] does *)
Definition str_lt (s1 s2 : string) : bool := String.ltb s1 s2.

(** [sort.Strings]. *)
Definition sort_Strings (l : list string) : list string := merge_sort String.le l.

(** ** int64 *)
Definition int64_max : Z := 9223372036854775807.
Definition int64_min : Z := -9223372036854775808.
Definition in_int64 (z : Z) : Prop := int64_min ≤ z ≤ int64_max.
(** Go's wrap-around of a mathematical integer to int64. *)
Definition to_int64 (z : Z) : Z := (z + 2 ^ 63) mod 2 ^ 64 - 2 ^ 63.

(** ** Lemmas: the state monad *)
Lemma st_bind_ret {W A B} (a : A) (k : A → ST W B) w :
  st_bind (st_ret a) k w = k a w.
Proof. done. Qed.

Lemma st_bind_eq {W A B} (m : ST W A) (k : A → ST W B) w a w' :
  m w = (a, w') → st_bind m k w = k a w'.
Proof. unfold st_bind. by intros ->. Qed.

Lemma st_fold_app {W A S} (f : S → A → ST W S) l1 l2 s w :
  st_fold f (l1 ++ l2) s w =
  (let (s', w') := st_fold f l1 s w in st_fold f l2 s' w').
Proof.
  revert s w; induction l1 as [|x l1 IH]; intros s w; simpl; [done|].
  unfold st_bind. destruct (f s x w) as [s' w']. apply IH.
Qed.

(** An invariant of a loop is preserved by the whole loop. *)
Lemma st_fold_inv {W A S} (f : S → A → ST W S) (I : S → W → Prop) l s w :
  I s w →
  (∀ s w x, x ∈ l → I s w → I (fst (f s x w)) (snd (f s x w))) →
  I (fst (st_fold f l s w)) (snd (st_fold f l s w)).
Proof.
  revert s w; induction l as [|x l IH]; intros s w HI Hstep; simpl; [done|].
  unfold st_bind. pose proof (Hstep s w x (list_elem_of_here _ _) HI) as H1.
  destruct (f s x w) as [s' w']. apply IH; [done|].
  intros s0 w0 y Hy. apply Hstep. by apply list_elem_of_further.
Qed.

(** [m] relates every world to the one it leaves. *)
Definition preserves {W A} (R : relation W) (m : ST W A) : Prop := ∀ w, R w (m w).2.

Section Preserves.
Context {W : Type} (R : relation W) `{!PreOrder R}.

Lemma preserves_ret {A} (a : A) : preserves R (st_ret a).
Proof. intros w. simpl. reflexivity. Qed.

Lemma preserves_bind {A B} (m : ST W A) (k : A → ST W B) :
  preserves R m → (∀ a, preserves R (k a)) → preserves R (st_bind m k).
Proof.
  intros Hm Hk w. unfold st_bind. specialize (Hm w). destruct (m w) as [a w'].
  etrans; [exact Hm|]. apply Hk.
Qed.

Lemma preserves_try {A B} (m : ST W (result A)) f (k : A → ST W (result B)) :
  preserves R m → (∀ a, preserves R (k a)) → preserves R (st_try m f k).
Proof. intros Hm Hk. apply preserves_bind; [done|]. intros [a|e]; [done|apply preserves_ret]. Qed.

Lemma preserves_fold {A S} (f : S → A → ST W S) l s :
  (∀ s x, x ∈ l → preserves R (f s x)) → preserves R (st_fold f l s).
Proof.
  revert s. induction l as [|x l IH]; intros s Hf; simpl; [apply preserves_ret|].
  apply preserves_bind; [apply Hf; by left|]. intros s'. apply IH. intros. apply Hf. by right.
Qed.

(** A client of [m]'s result continues from a world related to the first. *)
Lemma preserves_at {A} (m : ST W A) w a w' : preserves R m → m w = (a, w') → R w w'.
Proof. intros Hm E. specialize (Hm w). by rewrite E in Hm. Qed.
End Preserves.

(** ** Lemmas: maps *)
Lemma elem_of_range `{MapOrder} {A} (m : gmap string A) k x :
  (k, x) ∈ range m ↔ m !! k = Some x.
Proof. by rewrite range_perm, elem_of_map_to_list. Qed.

Lemma range_keys_NoDup `{MapOrder} {A} (m : gmap string A) : NoDup (range m).*1.
Proof. rewrite range_perm. apply NoDup_fst_map_to_list. Qed.

Lemma elem_of_range_keys `{MapOrder} {A} (m : gmap string A) k :
  k ∈ (range m).*1 ↔ is_Some (m !! k).
Proof.
  rewrite list_elem_of_fmap. split.
  - intros ([k' x] & -> & Hx%elem_of_range). by exists x.
  - intros [x Hx]. exists (k, x). by rewrite elem_of_range.
Qed.

(** ** Lemmas: strings *)
Lemma str_lt_le (a b : string) : str_lt a b = false ↔ String.le b a.
Proof.
  unfold str_lt, String.ltb, String.le, String.leb.
  rewrite (String.compare_antisym a b).
  destruct (String.compare b a); simpl; naive_solver.
Qed.

Lemma str_lt_irrefl (a : string) : str_lt a a = false.
Proof. apply str_lt_le. reflexivity. Qed.

Lemma str_lt_true_le (a b : string) : str_lt a b = true → String.le a b ∧ a ≠ b.
Proof.
  intros H. split.
  - destruct (total String.le a b) as [|Hba]; [done|].
    apply str_lt_le in Hba. congruence.
  - intros ->. by rewrite str_lt_irrefl in H.
Qed.

Lemma str_lt_spec (a b : string) : str_lt a b = true ↔ String.le a b ∧ a ≠ b.
Proof.
  split; [apply str_lt_true_le|]. intros [Hle Hne].
  destruct (str_lt a b) eqn:E; [done|].
  apply str_lt_le in E. by destruct Hne; apply (anti_symm String.le).
Qed.

Lemma sort_Strings_perm l : sort_Strings l ≡ₚ l.
Proof. apply merge_sort_Permutation. Qed.

Lemma sort_Strings_sorted l : Sorted String.le (sort_Strings l).
Proof. apply Sorted_merge_sort, _. Qed.

Lemma elem_of_sort_Strings x l : x ∈ sort_Strings l ↔ x ∈ l.
Proof. by rewrite sort_Strings_perm. Qed.

(** A sorted list is determined by its elements: the iteration order of a Go
    map does not matter once its keys are sorted. *)
Lemma sort_Strings_unique l l' :
  Sorted String.le l' → l' ≡ₚ l → l' = sort_Strings l.
Proof.
  intros Hs Hp. apply (Sorted_unique String.le); [done|apply sort_Strings_sorted|].
  by rewrite sort_Strings_perm.
Qed.

Lemma sort_Strings_proper l l' : l ≡ₚ l' → sort_Strings l = sort_Strings l'.
Proof.
  intros Hp. apply sort_Strings_unique; [apply sort_Strings_sorted|].
  by rewrite sort_Strings_perm.
Qed.

#[global] Instance sort_Strings_Proper : Proper ((≡ₚ) ==> (=)) sort_Strings.
Proof. intros l l'. apply sort_Strings_proper. Qed.

(** ** Lemmas: lists *)
Lemma NoDup_fmap_inj_on {A B} (f : A → B) l x y : NoDup (f <$> l) → x ∈ l → y ∈ l → f x = f y → x = y.
Proof.
  intros Hnd [i Hi]%list_elem_of_lookup [j Hj]%list_elem_of_lookup Hf.
  assert (i = j) as ->; [|congruence].
  eapply (NoDup_lookup (f <$> l)); [done|by rewrite list_lookup_fmap, Hi|rewrite list_lookup_fmap, Hj; simpl; congruence].
Qed.

(** ** Lemmas: int64 *)
Lemma to_int64_id z : in_int64 z → to_int64 z = z.
Proof. unfold in_int64, to_int64, int64_min, int64_max. intros. rewrite Z.mod_small; lia. Qed.

Lemma to_int64_range z : in_int64 (to_int64 z).
Proof.
  unfold in_int64, to_int64, int64_min, int64_max.
  pose proof (Z.mod_pos_bound (z + 2 ^ 63) (2 ^ 64)). lia.
Qed.

(** ** Automation *)
Create HintDb go discriminated.
#[export] Hint Resolve sort_Strings_perm sort_Strings_sorted to_int64_range : go.
#[export] Hint Resolve preserves_ret preserves_bind preserves_try preserves_fold : go.

(** Case analysis on the first [match]/[if] of the goal, keeping equations. *)
Ltac go_case :=
  match goal with
  | |- context [match ?x with _ => _ end] => destruct x eqn:?
  end.
(** [lia] with division and modulo by constants. *)
Ltac dlia := Z.to_euclidean_division_equations; lia.
(** Close a decidable closed goal by evaluation. *)
Ltac decide_goal := refine (bool_decide_unpack _ _); vm_compute; exact I.
(** Unfold one monadic bind step whose action is already evaluated. *)
Ltac st_step := unfold st_try, st_bind, st_ret; simpl.
