(* ===== verification/GoStd.v ===== *)
(** * The parts of Go's standard library the program uses

    [strings] (prefixes, suffixes, [Split], [Join], [ReplaceAll] of one byte,
    [Map], [Trim]), [fmt.Sprintf("%d")] and [fmt.Sscanf("%d")] on int64,
    [time.Time.Format] and [time.Parse] for RFC3339, [crypto/sha256] and ["%x"].
    Strings and byte slices are both byte sequences ([string]). *)

From S2P Require Import Prelude.
From Stdlib Require Import Ascii DecimalString DecimalZ DecimalN DecimalFacts.

Local Open Scope Z_scope.

(** ** Bytes *)
Definition byte_val (c : ascii) : Z := Z.of_N (N_of_ascii c).
Definition byte_of (z : Z) : ascii := ascii_of_N (Z.to_N z).
Definition is_digit (c : ascii) : bool := (48 <=? byte_val c) && (byte_val c <=? 57).
Definition is_lower (c : ascii) : bool := (97 <=? byte_val c) && (byte_val c <=? 122).
Definition is_upper (c : ascii) : bool := (65 <=? byte_val c) && (byte_val c <=? 90).
Definition is_alnum (c : ascii) : bool := is_lower c || is_upper c || is_digit c.

(** [len(s)] *)
Definition str_len (s : string) : Z := Z.of_nat (String.length s).

(** ** Package strings *)
Fixpoint str_drop (n : nat) (s : string) : string :=
  match n, s with
  | O, _ => s
  | S n', String _ s' => str_drop n' s'
  | S _, EmptyString => ""
  end.

Fixpoint str_take (n : nat) (s : string) : string :=
  match n, s with
  | S n', String c s' => String c (str_take n' s')
  | _, _ => ""
  end.

(** [strings.HasPrefix(s, p)] *)
Fixpoint has_prefix (s p : string) : bool :=
  match p, s with
  | EmptyString, _ => true
  | String a p', String b s' => bool_decide (a = b) && has_prefix s' p'
  | String _ _, EmptyString => false
  end.

(** [strings.HasSuffix(s, x)]: [len(s) >= len(x) && s[len(s)-len(x):] == x] *)
Definition has_suffix (s x : string) : bool :=
  (String.length x <=? String.length s)%nat &&
  bool_decide (str_drop (String.length s - String.length x) s = x).

Definition trim_prefix (s p : string) : string :=
  if has_prefix s p then str_drop (String.length p) s else s.

Definition trim_suffix (s x : string) : string :=
  if has_suffix s x then str_take (String.length s - String.length x) s else s.

Fixpoint str_forallb (f : ascii → bool) (s : string) : bool :=
  match s with
  | EmptyString => true
  | String c s' => f c && str_forallb f s'
  end.

Fixpoint str_existsb (f : ascii → bool) (s : string) : bool :=
  match s with
  | EmptyString => false
  | String c s' => f c || str_existsb f s'
  end.

Fixpoint str_map (f : ascii → ascii) (s : string) : string :=
  match s with
  | EmptyString => EmptyString
  | String c s' => String (f c) (str_map f s')
  end.

(** The number of bytes of the first rune of a string that starts with the bytes
    [c], [c1], [c2], [c3] (as many of them as there are); a byte that starts no valid
    encoding is a rune by itself, as in [utf8.DecodeRuneInString]. *)
Definition is_continuation (lo hi : Z) (c : option ascii) : bool :=
  match c with Some c => (lo <=? byte_val c) && (byte_val c <=? hi) | None => false end.
Definition rune_width (c : ascii) (s : string) : nat :=
  let b := byte_val c in
  let c1 := String.get 0 s in let c2 := String.get 1 s in let c3 := String.get 2 s in
  let cont := is_continuation 128 191 in
  if b <? 128 then 1
  else if (194 <=? b) && (b <=? 223) && cont c1 then 2
  else if (b =? 224) && is_continuation 160 191 c1 && cont c2 then 3
  else if (b =? 237) && is_continuation 128 159 c1 && cont c2 then 3
  else if (225 <=? b) && (b <=? 239) && negb (b =? 237) && cont c1 && cont c2 then 3
  else if (b =? 240) && is_continuation 144 191 c1 && cont c2 && cont c3 then 4
  else if (241 <=? b) && (b <=? 243) && cont c1 && cont c2 && cont c3 then 4
  else if (b =? 244) && is_continuation 128 143 c1 && cont c2 && cont c3 then 4
  else 1%nat.

(** [strings.Map] of a function that is [f] on ASCII and [other] on any other rune;
    [skip] bytes belong to the rune before. *)
Fixpoint map_runes (f : ascii → ascii) (other : ascii) (skip : nat) (s : string) : string :=
  match s, skip with
  | EmptyString, _ => EmptyString
  | String _ s', S skip' => map_runes f other skip' s'
  | String c s', O =>
      if byte_val c <? 128 then String (f c) (map_runes f other 0 s')
      else String other (map_runes f other (rune_width c s' - 1)%nat s')
  end.

(** [strings.Contains(s, x)] *)
Fixpoint str_contains (s x : string) : bool :=
  has_prefix s x ||
  match s with
  | EmptyString => false
  | String _ s' => str_contains s' x
  end.

(** [strings.Split(s, sep)] for a one-byte separator. *)
Fixpoint str_split (sep : ascii) (s : string) : list string :=
  match s with
  | EmptyString => [""]
  | String c s' =>
      if bool_decide (c = sep) then "" :: str_split sep s'
      else match str_split sep s' with
           | [] => [String c ""]
           | w :: ws => String c w :: ws
           end
  end.

(** [strings.Join(l, sep)] *)
Fixpoint str_join (sep : string) (l : list string) : string :=
  match l with
  | [] => ""
  | [w] => w
  | w :: ws => w +:+ sep +:+ str_join sep ws
  end.

(** [strings.ReplaceAll(s, old, new)] for one-byte [old] and [new]. *)
Definition str_replace1 (old new : ascii) : string → string :=
  str_map (λ c, if bool_decide (c = old) then new else c).

(** [strings.TrimLeft(s, c)] and [strings.TrimRight(s, c)] for a one-byte cutset. *)
Fixpoint trim_left1 (x : ascii) (s : string) : string :=
  match s with
  | EmptyString => ""
  | String c s' => if bool_decide (c = x) then trim_left1 x s' else s
  end.

Fixpoint trim_right1 (x : ascii) (s : string) : string :=
  match s with
  | EmptyString => ""
  | String c s' =>
      match trim_right1 x s' with
      | EmptyString => if bool_decide (c = x) then "" else String c ""
      | r => String c r
      end
  end.

(** [strings.ToLower] of an ASCII string. *)
Definition to_lower : string → string :=
  str_map (λ c, if is_upper c then byte_of (byte_val c + 32) else c).

Definition to_upper : string → string :=
  str_map (λ c, if is_lower c then byte_of (byte_val c - 32) else c).
(** [strings.EqualFold], of ASCII strings. *)
Definition EqualFold (s t : string) : bool := bool_decide (to_lower s = to_lower t).

(** [%q] quotes its operand; the keys, paths and names of the program have
    nothing to escape. *)
Definition quoted (s : string) : string :=
  String (byte_of 34) s +:+ String (byte_of 34) "".

(** ** fmt.Sprintf("%d", n) *)
Definition go_itoa (n : Z) : string := NilZero.string_of_int (Z.to_int n).

(** [%v] of a slice of errors. *)
Definition print_errors (errs : list error) : string := "[" +:+ str_join " " (error_string <$> errs) +:+ "]".

(** [int32(x)]. *)
Definition to_int32 (z : Z) : Z := (z + 2 ^ 31) mod 2 ^ 32 - 2 ^ 31.

(** ** time.Duration, a number of nanoseconds *)
Definition Millisecond : Z := 1000000.
Definition Second : Z := 1000000000.
Definition Minute : Z := 60 * Second.
Definition Hour : Z := 60 * Minute.

(** [Duration.String] *)

(** The decimals of [v / 10^prec] after a dot, without trailing zeros ([fmtFrac]). *)
Fixpoint fmt_frac (prec : nat) (v : Z) (printed : string) : string :=
  match prec with
  | O => if bool_decide (printed = "") then "" else "." +:+ printed
  | S prec' =>
      let digit := v mod 10 in
      fmt_frac prec' (v / 10)
        (if bool_decide (printed = "") && (digit =? 0) then "" else go_itoa digit +:+ printed)
  end.

Definition duration_magnitude (u : Z) : string :=
  if u =? 0 then "0s"
  else if u <? 1000 then go_itoa u +:+ "ns"
  else if u <? 1000000 then go_itoa (u / 1000) +:+ fmt_frac 3 u "" +:+ String "194" (String "181" "s")
  else if u <? 1000000000 then go_itoa (u / 1000000) +:+ fmt_frac 6 u "" +:+ "ms"
  else
    let s := u / 1000000000 in
    (if 3600 <=? s then go_itoa (s / 3600) +:+ "h" else "") +:+
    (if 60 <=? s then go_itoa (s / 60 mod 60) +:+ "m" else "") +:+
    go_itoa (s mod 60) +:+ fmt_frac 9 u "" +:+ "s".

Definition duration_string (d : Z) : string :=
  if d <? 0 then "-" +:+ duration_magnitude (- d) else duration_magnitude d.

Example duration_examples :
  map duration_string [0; 1500; 2500000; 5000000000; 60000000000; 3661500000000; -100000000] =
  ["0s"; "1.5" +:+ String "194" (String "181" "s"); "2.5ms"; "5s"; "1m0s"; "1h1m1.5s"; "-100ms"].
Proof. reflexivity. Qed.

(** ** fmt.Sscanf(s, "%d", &n) for an int64 [n]

    [SkipSpace] skips Unicode space runes (their UTF-8 encodings are listed) but
    a newline is an error; then an optional sign, at least one decimal digit,
    the longest digit run, and [strconv.ParseInt] with its int64 range check.
    Input after the digits is ignored. *)
Definition go_spaces : list string :=
  [ String "009" ""; String "011" ""; String "012" ""; String "013" ""; " ";
    String "194" (String "133" ""); String "194" (String "160" "");
    String "225" (String "154" (String "128" ""));
    String "226" (String "128" (String "128" ""));
    String "226" (String "128" (String "129" ""));
    String "226" (String "128" (String "130" ""));
    String "226" (String "128" (String "131" ""));
    String "226" (String "128" (String "132" ""));
    String "226" (String "128" (String "133" ""));
    String "226" (String "128" (String "134" ""));
    String "226" (String "128" (String "135" ""));
    String "226" (String "128" (String "136" ""));
    String "226" (String "128" (String "137" ""));
    String "226" (String "128" (String "138" ""));
    String "226" (String "128" (String "168" ""));
    String "226" (String "128" (String "169" ""));
    String "226" (String "128" (String "175" ""));
    String "226" (String "129" (String "159" ""));
    String "227" (String "128" (String "128" "")) ].

Fixpoint skip_space_fuel (fuel : nat) (s : string) : string :=
  match fuel with
  | O => s
  | S fuel' =>
      match List.find (has_prefix s) go_spaces with
      | Some p => skip_space_fuel fuel' (str_drop (String.length p) s)
      | None => s
      end
  end.
(** Every skipped rune has at least one byte, so [length s] rounds suffice. *)
Definition skip_space (s : string) : string := skip_space_fuel (String.length s) s.

(** [strings.TrimSpace] *)
Definition unicode_spaces : list string := String "010" "" :: go_spaces.
Fixpoint trim_space_left (fuel : nat) (s : string) : string :=
  match fuel with
  | O => s
  | S fuel' => match List.find (has_prefix s) unicode_spaces with
               | Some p => trim_space_left fuel' (str_drop (String.length p) s)
               | None => s
               end
  end.
Fixpoint trim_space_right (fuel : nat) (s : string) : string :=
  match fuel with
  | O => s
  | S fuel' => match List.find (has_suffix s) unicode_spaces with
               | Some p => trim_space_right fuel' (trim_suffix s p)
               | None => s
               end
  end.
Definition TrimSpace (s : string) : string :=
  let s := trim_space_left (String.length s) s in trim_space_right (String.length s) s.

Fixpoint digit_run (s : string) : string :=
  match s with
  | String c s' => if is_digit c then String c (digit_run s') else ""
  | EmptyString => ""
  end.

(** [strconv.ParseInt(sign + digits, 10, 64)] *)
Definition parse_int64 (neg : bool) (digits : string) : option Z :=
  match NilZero.uint_of_string digits with
  | None => None
  | Some u =>
      let n := Z.of_N (N.of_uint u) in
      let z := if neg then - n else n in
      if (int64_min <=? z) && (z <=? int64_max) then Some z else None
  end.

Definition scan_int64 (s : string) : option Z :=
  match skip_space s with
  | EmptyString => None
  | String c r =>
      if bool_decide (c = "-"%char) then parse_int64 true (digit_run r)
      else if bool_decide (c = "+"%char) then parse_int64 false (digit_run r)
      else parse_int64 false (digit_run (String c r))
  end.

(** ** Package time: instants at second precision with a zone offset in minutes *)
Record Time := mkTime { t_unix : Z; t_offset : Z }.

#[global] Instance Time_eq_dec : EqDecision Time.
Proof. solve_decision. Defined.

Definition is_leap (y : Z) : bool :=
  (y mod 4 =? 0) && (negb (y mod 100 =? 0) || (y mod 400 =? 0)).

Definition days_in (m y : Z) : Z :=
  if m =? 2 then (if is_leap y then 29 else 28)
  else if (m =? 4) || (m =? 6) || (m =? 9) || (m =? 11) then 30 else 31.

(** Days since 1970-01-01 of a proleptic Gregorian date, and back. *)
Definition days_from_civil (y m d : Z) : Z :=
  let y' := if m <=? 2 then y - 1 else y in
  let era := y' / 400 in
  let yoe := y' mod 400 in
  let mp := if m <=? 2 then m + 9 else m - 3 in
  let doy := (153 * mp + 2) / 5 + d - 1 in
  let doe := yoe * 365 + yoe / 4 - yoe / 100 + doy in
  era * 146097 + doe - 719468.

Definition civil_from_days (z : Z) : Z * Z * Z :=
  let z := z + 719468 in
  let era := z / 146097 in
  let doe := z mod 146097 in
  let yoe := (doe - doe / 1460 + doe / 36524 - doe / 146096) / 365 in
  let doy := doe - (365 * yoe + yoe / 4 - yoe / 100) in
  let mp := (5 * doy + 2) / 153 in
  let d := doy - (153 * mp + 2) / 5 + 1 in
  let m := if mp <? 10 then mp + 3 else mp - 9 in
  (yoe + era * 400 + (if m <=? 2 then 1 else 0), m, d).

Definition digit_char (n : Z) : ascii := byte_of (48 + n).
Definition pad2 (n : Z) : string :=
  String (digit_char (n / 10)) (String (digit_char (n mod 10)) "").
Definition pad4 (n : Z) : string := pad2 (n / 100) +:+ pad2 (n mod 100).

(** [t.Format(time.RFC3339)] for years 0 to 9999. *)
Definition format_RFC3339 (t : Time) : string :=
  let local := t_unix t + 60 * t_offset t in
  let days := local / 86400 in
  let sod := local mod 86400 in
  let '(y, m, d) := civil_from_days days in
  pad4 y +:+ "-" +:+ pad2 m +:+ "-" +:+ pad2 d +:+ "T" +:+
  pad2 (sod / 3600) +:+ ":" +:+ pad2 (sod / 60 mod 60) +:+ ":" +:+ pad2 (sod mod 60) +:+
  (if t_offset t =? 0 then "Z"
   else (if t_offset t <? 0 then "-" else "+") +:+
        pad2 (Z.abs (t_offset t) / 60) +:+ ":" +:+ pad2 (Z.abs (t_offset t) mod 60)).

(** [getnum(s, fixed)]: a two-digit number, or one digit when not [fixed]. *)
Definition getnum (fixed : bool) (s : string) : option (Z * string) :=
  match s with
  | String a s1 =>
      if is_digit a then
        match s1 with
        | String b s2 =>
            if is_digit b
            then Some ((byte_val a - 48) * 10 + (byte_val b - 48), s2)
            else if fixed then None else Some (byte_val a - 48, s1)
        | EmptyString => if fixed then None else Some (byte_val a - 48, s1)
        end
      else None
  | EmptyString => None
  end.

Definition expect (c : ascii) (s : string) : option string :=
  match s with
  | String a s' => if bool_decide (a = c) then Some s' else None
  | EmptyString => None
  end.

Definition in_range (lo hi : Z) (r : option (Z * string)) : option (Z * string) :=
  match r with
  | Some (n, s) => if (lo <=? n) && (n <=? hi) then Some (n, s) else None
  | None => None
  end.

(** A fraction ([.] or [,] and at least one digit) is accepted and, at second
    precision, dropped. *)
Definition skip_fraction (s : string) : string :=
  match s with
  | String p (String a s') =>
      if (bool_decide (p = "."%char) || bool_decide (p = ","%char)) && is_digit a
      then str_drop (String.length (digit_run (String a s'))) (String a s')
      else s
  | _ => s
  end.

(** The zone: ["Z"] or [(+|-)hh:mm] with [hh <= 24] and [mm <= 60], then the end
    of the input.  The result is the offset in seconds. *)
Definition parse_zone (s : string) : option Z :=
  match s with
  | String "Z" EmptyString => Some 0
  | String c s1 =>
      if bool_decide (c = "+"%char) || bool_decide (c = "-"%char) then
        '(h, s2) ← in_range 0 24 (getnum true s1);
        s3 ← expect ":" s2;
        '(m, s4) ← in_range 0 60 (getnum true s3);
        if bool_decide (s4 = "")
        then Some (if bool_decide (c = "-"%char) then - ((h * 60 + m) * 60) else (h * 60 + m) * 60)
        else None
      else None
  | EmptyString => None
  end.

(** [time.Parse(time.RFC3339, s)] followed by [Unix()].  Like Go's generic
    parser it also accepts a one-digit hour and a comma before the fraction. *)
Definition parse_RFC3339 (s : string) : option Z :=
  '(yh, s) ← getnum true s;
  '(yl, s) ← getnum true s;
  let y := yh * 100 + yl in
  s ← expect "-" s;
  '(m, s) ← in_range 1 12 (getnum true s);
  s ← expect "-" s;
  '(d, s) ← getnum true s;
  s ← expect "T" s;
  '(hh, s) ← in_range 0 23 (getnum false s);
  s ← expect ":" s;
  '(mi, s) ← in_range 0 59 (getnum true s);
  s ← expect ":" s;
  '(ss, s) ← in_range 0 59 (getnum true s);
  off ← parse_zone (skip_fraction s);
  if (1 <=? d) && (d <=? days_in m y)
  then Some (days_from_civil y m d * 86400 + hh * 3600 + mi * 60 + ss - off)
  else None.

(** ** Lemmas: bytes and strings *)
Lemma byte_val_range c : 0 ≤ byte_val c < 256.
Proof. unfold byte_val. pose proof (N_ascii_bounded c). lia. Qed.

Lemma byte_val_of z : 0 ≤ z < 256 → byte_val (byte_of z) = z.
Proof. intros. unfold byte_val, byte_of. rewrite N_ascii_embedding; lia. Qed.

Lemma has_prefix_app p s : has_prefix (p +:+ s) p = true.
Proof. induction p as [|c p IH]; simpl; [by destruct s|]. by rewrite bool_decide_true. Qed.

Lemma str_drop_app p s : str_drop (String.length p) (p +:+ s) = s.
Proof. induction p as [|c p IH]; simpl; [by destruct s|done]. Qed.

Lemma has_prefix_spec s p : has_prefix s p = true ↔ ∃ r, s = p +:+ r.
Proof.
  split; [|intros [r ->]; apply has_prefix_app].
  revert p. induction s as [|c s IH]; intros [|d p] H; simpl in *; try done; [by exists ""|by exists (String c s)|].
  apply andb_true_iff in H as [->%bool_decide_eq_true H].
  destruct (IH _ H) as [r ->]. by exists r.
Qed.

Lemma str_take_drop n s : str_take n s +:+ str_drop n s = s.
Proof.
  revert s. induction n as [|n IH]; intros [|c s]; try reflexivity.
  change (String c (str_take n s +:+ str_drop n s) = String c s). by rewrite IH.
Qed.
Lemma str_drop_le n s : (String.length (str_drop n s) ≤ String.length s)%nat.
Proof. revert s. induction n as [|n IH]; intros [|c s]; simpl; [lia..|]. specialize (IH s). lia. Qed.
Lemma trim_prefix_app p s : trim_prefix (p +:+ s) p = s.
Proof. unfold trim_prefix. by rewrite has_prefix_app, str_drop_app. Qed.

Lemma str_app_assoc (a b c : string) : (a +:+ b) +:+ c = a +:+ (b +:+ c).
Proof. induction a as [|x a IH]; [done|]. change (String x ((a +:+ b) +:+ c) = String x (a +:+ (b +:+ c))). by rewrite IH. Qed.

Lemma str_app_nil_r (a : string) : a +:+ "" = a.
Proof. induction a as [|x a IH]; [done|]. change (String x (a +:+ "") = String x a). by rewrite IH. Qed.

Lemma str_length_app a b : String.length (a +:+ b) = (String.length a + String.length b)%nat.
Proof. induction a as [|x a IH]; [done|]. change (S (String.length (a +:+ b)) = S (String.length a + String.length b)%nat). by rewrite IH. Qed.

Lemma str_forallb_app f a b : str_forallb f (a +:+ b) = str_forallb f a && str_forallb f b.
Proof.
  induction a as [|x a IH]; [done|].
  change (f x && str_forallb f (a +:+ b) = (f x && str_forallb f a) && str_forallb f b).
  rewrite IH. apply andb_assoc.
Qed.

Lemma has_suffix_app a x : has_suffix (a +:+ x) x = true.
Proof.
  unfold has_suffix. rewrite str_length_app. replace (_ + _ - _)%nat with (String.length a) by lia.
  rewrite str_drop_app. apply andb_true_intro. split; [apply Nat.leb_le; lia|by apply bool_decide_eq_true].
Qed.

Lemma has_suffix_spec s x : has_suffix s x = true ↔ ∃ a, s = a +:+ x.
Proof.
  split; [|intros [a ->]; apply has_suffix_app].
  unfold has_suffix. intros [Hl%Nat.leb_le Hd%bool_decide_eq_true]%andb_true_iff.
  exists (str_take (String.length s - String.length x) s).
  rewrite <-Hd at 2. symmetry. apply str_take_drop.
Qed.

Lemma str_app_eq_cases (a b c d : string) :
  a +:+ b = c +:+ d → (∃ e, c = a +:+ e ∧ b = e +:+ d) ∨ (∃ e, a = c +:+ e ∧ d = e +:+ b).
Proof.
  revert c. induction a as [|x a IH]; intros [|y c] H.
  - left. by exists "".
  - left. by exists (String y c).
  - right. by exists (String x a).
  - injection H as -> H. destruct (IH c H) as [(e & -> & ->)|(e & -> & ->)]; [left|right]; by exists e.
Qed.

Lemma str_snoc_cases s : s = "" ∨ ∃ s' c, s = s' +:+ String c "".
Proof.
  induction s as [|c s [->|(s' & d & ->)]]; [by left|right; by exists "", c|right; by exists (String c s'), d].
Qed.

Lemma str_snoc_inj a b c d : a +:+ String c "" = b +:+ String d "" → a = b ∧ c = d.
Proof.
  revert b. induction a as [|x a IH]; intros [|y b] H.
  - by injection H as ->.
  - injection H as -> H. by destruct b.
  - injection H as -> H. by destruct a.
  - injection H as -> H. by destruct (IH b H) as [-> ->].
Qed.

(** ** Lemmas: printing and scanning an int64 *)
Lemma digit_run_all s : str_forallb is_digit s = true → digit_run s = s.
Proof. induction s as [|c s IH]; simpl; [done|]. intros [-> H]%andb_true_iff. by rewrite IH. Qed.

Lemma string_of_uint_digits u : str_forallb is_digit (NilEmpty.string_of_uint u) = true.
Proof. induction u; simpl; done. Qed.

Lemma string_of_uint0_digits u :
  str_forallb is_digit (NilZero.string_of_uint u) = true ∧ NilZero.string_of_uint u ≠ "".
Proof. destruct u; simpl; rewrite ?string_of_uint_digits; done. Qed.

Lemma skip_space_stop c s :
  byte_val c ∉ [9; 11; 12; 13; 32; 194; 225; 226; 227] →
  skip_space (String c s) = String c s.
Proof.
  intros Hc. unfold skip_space. cbn [String.length skip_space_fuel].
  destruct (List.find (has_prefix (String c s)) go_spaces) eqn:E; [|done].
  apply List.find_some in E as [Hin Hp]. exfalso. apply Hc.
  unfold go_spaces in Hin. simpl in Hin.
  repeat (destruct Hin as [<-|Hin];
    [ simpl in Hp; apply andb_true_iff in Hp as [<-%bool_decide_eq_true _];
      decide_goal |]).
  done.
Qed.

Lemma parse_int64_uint (neg : bool) (u : Decimal.uint) z :
  z = (if neg then - Z.of_N (N.of_uint u) else Z.of_N (N.of_uint u)) →
  in_int64 z → parse_int64 neg (NilZero.string_of_uint u) = Some z.
Proof.
  intros Hz Hr. unfold parse_int64.
  assert (u = Decimal.Nil ∨ u ≠ Decimal.Nil) as [->|Hu] by (destruct u; auto).
  { simpl. subst z. by destruct neg. }
  rewrite NilZero.usu by done. rewrite <-Hz.
  unfold in_int64 in Hr.
  rewrite (proj2 (Z.leb_le _ _)), (proj2 (Z.leb_le _ _)) by lia. done.
Qed.

Lemma scan_unsigned s :
  str_forallb is_digit s = true → s ≠ "" → scan_int64 s = parse_int64 false s.
Proof.
  intros Hd Hne. destruct s as [|c s]; [done|]. unfold scan_int64.
  assert (48 ≤ byte_val c ≤ 57) as Hc.
  { simpl in Hd. apply andb_true_iff in Hd as [Hd _]. unfold is_digit in Hd.
    apply andb_true_iff in Hd as [?%Z.leb_le ?%Z.leb_le]. lia. }
  rewrite skip_space_stop by (rewrite !not_elem_of_cons, elem_of_nil; naive_solver lia).
  rewrite !bool_decide_false by (intros ->; vm_compute in Hc; naive_solver).
  by rewrite digit_run_all.
Qed.

Lemma scan_itoa n : in_int64 n → scan_int64 (go_itoa n) = Some n.
Proof.
  intros Hn. unfold go_itoa, NilZero.string_of_int.
  pose proof (DecimalZ.of_to n) as Hof.
  destruct (Z.to_int n) as [u|u]; destruct (string_of_uint0_digits u) as [Hd Hne].
  - rewrite scan_unsigned by done. by apply parse_int64_uint.
  - unfold scan_int64.
    rewrite skip_space_stop by (decide_goal).
    rewrite digit_run_all by done. by apply parse_int64_uint.
Qed.

Lemma go_itoa_nonempty n : go_itoa n ≠ "".
Proof.
  unfold go_itoa, NilZero.string_of_int. destruct (Z.to_int n) as [u|u]; [apply string_of_uint0_digits|done].
Qed.

Lemma scan_int64_range s z : scan_int64 s = Some z → in_int64 z.
Proof.
  assert (∀ neg d z, parse_int64 neg d = Some z → in_int64 z) as Hp.
  { intros neg d z'. unfold parse_int64. destruct (NilZero.uint_of_string d); [|done].
    destruct (_ && _) eqn:E; [|done]. intros [= <-].
    apply andb_true_iff in E as [?%Z.leb_le ?%Z.leb_le]. done. }
  unfold scan_int64. intros H.
  destruct (skip_space s) as [|c r]; [done|].
  repeat case_bool_decide; eapply Hp; exact H.
Qed.
(** ** Lemmas: RFC3339 *)
Lemma yoe_bounds doe : 0 ≤ doe < 146097 →
  let yoe := (doe - doe / 1460 + doe / 36524 - doe / 146096) / 365 in
  let doy := doe - (365 * yoe + yoe / 4 - yoe / 100) in
  0 ≤ yoe < 400 ∧ 0 ≤ doy ≤ 365 ∧
  (doy = 365 → (yoe + 1) mod 4 = 0 ∧ ((yoe + 1) mod 100 ≠ 0 ∨ yoe + 1 = 400)).
Proof. intros H yoe doy. subst doy yoe. split_and!; [dlia|dlia|dlia|dlia|]. intros. split; dlia. Qed.

(** From the month counted from March and the day of the year to the date. *)
Lemma civil_of_parts era yoe doy :
  0 ≤ yoe < 400 → 0 ≤ doy ≤ 365 →
  (doy = 365 → (yoe + 1) mod 4 = 0 ∧ ((yoe + 1) mod 100 ≠ 0 ∨ yoe + 1 = 400)) →
  let mp := (5 * doy + 2) / 153 in
  let d := doy - (153 * mp + 2) / 5 + 1 in
  let m := if mp <? 10 then mp + 3 else mp - 9 in
  let y := yoe + era * 400 + (if m <=? 2 then 1 else 0) in
  days_from_civil y m d = era * 146097 + (365 * yoe + yoe / 4 - yoe / 100 + doy) - 719468 ∧
  1 ≤ m ≤ 12 ∧ 1 ≤ d ≤ days_in m y.
Proof.
  intros Hyoe Hdoy Hleap mp d m y.
  assert (0 ≤ mp ≤ 11 ∧ 1 ≤ d ≤ 31) as [Hmp Hd] by (subst d mp; dlia).
  assert (1 ≤ m ≤ 12) as Hm by (subst m; case_match; lia).
  split_and!; try lia.
  - unfold days_from_civil. subst y m.
    destruct (Z.ltb_spec mp 10).
    + rewrite (proj2 (Z.leb_gt _ _)) by lia.
      replace ((yoe + era * 400 + 0) / 400) with era by dlia.
      replace ((yoe + era * 400 + 0) mod 400) with yoe by dlia.
      replace (mp + 3 - 3) with mp by lia. subst d. lia.
    + rewrite (proj2 (Z.leb_le _ _)) by lia.
      replace ((yoe + era * 400 + 1 - 1) / 400) with era by dlia.
      replace ((yoe + era * 400 + 1 - 1) mod 400) with yoe by dlia.
      replace (mp - 9 + 9) with mp by lia. subst d. lia.
  - unfold days_in, is_leap. subst y m d.
    destruct (Z.ltb_spec mp 10); 
    repeat match goal with |- context [?a <=? ?b] => destruct (Z.leb_spec a b) end;
    repeat match goal with |- context [?a =? ?b] => destruct (Z.eqb_spec a b) end; simpl; subst mp; try dlia.
Qed.

Lemma civil_from_days_spec z :
  let '(y, m, d) := civil_from_days z in
  days_from_civil y m d = z ∧ 1 ≤ m ≤ 12 ∧ 1 ≤ d ≤ days_in m y.
Proof.
  unfold civil_from_days.
  set (era := (z + 719468) / 146097). set (doe := (z + 719468) mod 146097).
  assert (0 ≤ doe < 146097) as Hdoe by (subst doe; dlia).
  destruct (yoe_bounds doe Hdoe) as (Hyoe & Hdoy & Hleap).
  destruct (civil_of_parts era _ _ Hyoe Hdoy Hleap) as (Hdays & Hm & Hd).
  split_and!; [|exact (proj1 Hm)|exact (proj2 Hm)|exact (proj1 Hd)|exact (proj2 Hd)].
  etrans; [exact Hdays|]. subst era doe. dlia.
Qed.

Lemma year_bounds y m d z :
  days_from_civil y m d = z → 1 ≤ m ≤ 12 → 1 ≤ d ≤ 31 →
  -719528 ≤ z ≤ 2932896 → 0 ≤ y ≤ 9999.
Proof.
  unfold days_from_civil. intros H Hm Hd Hz.
  destruct (Z.leb_spec m 2); split; dlia.
Qed.

Lemma days_in_le m y : days_in m y ≤ 31.
Proof. unfold days_in. repeat case_match; lia. Qed.

Lemma digit_char_val n : 0 ≤ n ≤ 9 → byte_val (digit_char n) = 48 + n.
Proof. intros. unfold digit_char. apply byte_val_of. lia. Qed.

Lemma digit_char_is_digit n : 0 ≤ n ≤ 9 → is_digit (digit_char n) = true.
Proof. intros. unfold is_digit. rewrite digit_char_val by done. apply andb_true_iff. lia. Qed.

Lemma getnum_pad2 fixed n s : 0 ≤ n ≤ 99 → getnum fixed (pad2 n +:+ s) = Some (n, s).
Proof.
  intros Hn. unfold pad2.
  change (getnum fixed (String (digit_char (n / 10)) (String (digit_char (n mod 10)) s)) = Some (n, s)).
  unfold getnum. rewrite !digit_char_is_digit by dlia. rewrite !digit_char_val by dlia.
  f_equal. f_equal. dlia.
Qed.

Lemma str_app_nil_l (s : string) : "" +:+ s = s.
Proof. done. Qed.

Lemma expect_app c s : expect c (String c "" +:+ s) = Some s.
Proof. change (expect c (String c s) = Some s). unfold expect. by rewrite bool_decide_true. Qed.

#[local] Arguments pad2 : simpl never.
#[local] Arguments getnum : simpl never.
#[local] Arguments expect : simpl never.
#[local] Arguments in_range : simpl never.
#[local] Arguments String.append : simpl never.

Lemma in_range_Some lo hi n s : lo ≤ n ≤ hi → in_range lo hi (Some (n, s)) = Some (n, s).
Proof. intros. unfold in_range. rewrite !(proj2 (Z.leb_le _ _)) by lia. done. Qed.

Definition zone_string (off : Z) : string :=
  if off =? 0 then "Z"
  else (if off <? 0 then "-" else "+") +:+ pad2 (Z.abs off / 60) +:+ ":" +:+ pad2 (Z.abs off mod 60).

Lemma parse_zone_string off :
  Z.abs off < 1500 → parse_zone (skip_fraction (zone_string off)) = Some (60 * off).
Proof.
  intros Hoff. unfold zone_string. destruct (Z.eqb_spec off 0) as [->|Hne]; [done|].
  assert (∀ c, c = "+"%char ∨ c = "-"%char →
    parse_zone (skip_fraction (String c (pad2 (Z.abs off / 60) +:+ ":" +:+ pad2 (Z.abs off mod 60))))
    = Some (if bool_decide (c = "-"%char) then - ((Z.abs off / 60 * 60 + Z.abs off mod 60) * 60)
            else (Z.abs off / 60 * 60 + Z.abs off mod 60) * 60)) as Hgen.
  { intros c Hc. 
    replace (skip_fraction _) with (String c (pad2 (Z.abs off / 60) +:+ ":" +:+ pad2 (Z.abs off mod 60)))
      by (by destruct Hc as [->| ->]).
    rewrite <-(str_app_nil_r (pad2 (Z.abs off mod 60))).
    assert (getnum true (pad2 (Z.abs off / 60) +:+ ":" +:+ pad2 (Z.abs off mod 60) +:+ "") = 
      Some (Z.abs off / 60, ":" +:+ pad2 (Z.abs off mod 60) +:+ "")) as H1 by (apply getnum_pad2; dlia).
    assert (getnum true (pad2 (Z.abs off mod 60) +:+ "") = Some (Z.abs off mod 60, "")) as H2
      by (apply getnum_pad2; dlia).
    unfold parse_zone. destruct Hc as [->| ->]; simpl;
      rewrite H1, in_range_Some by dlia; simpl; rewrite ?expect_app, ?str_app_nil_l; simpl;
      rewrite H2, in_range_Some by dlia; done. }
  destruct (Z.ltb_spec off 0).
  - etrans; [exact (Hgen "-"%char (or_intror eq_refl))|]. f_equal. simpl. dlia.
  - etrans; [exact (Hgen "+"%char (or_introl eq_refl))|]. f_equal. simpl. dlia.
Qed.

Lemma parse_format_RFC3339 t :
  -62167219200 ≤ t_unix t + 60 * t_offset t < 253402300800 → Z.abs (t_offset t) < 1500 →
  parse_RFC3339 (format_RFC3339 t) = Some (t_unix t).
Proof.
  intros Hr Hoff. unfold format_RFC3339. set (local := t_unix t + 60 * t_offset t) in *.
  pose proof (civil_from_days_spec (local / 86400)) as Hc.
  destruct (civil_from_days (local / 86400)) as [[y m] d]. destruct Hc as (Hz & Hm & Hd).
  pose proof (days_in_le m y).
  assert (0 ≤ y ≤ 9999) as Hy by (eapply (year_bounds y m d); [done|done|lia|dlia]).
  fold (zone_string (t_offset t)).
  unfold parse_RFC3339, pad4. rewrite !str_app_assoc.
  rewrite getnum_pad2 by dlia. simpl. rewrite getnum_pad2 by dlia. simpl.
  rewrite ?expect_app, ?str_app_nil_l. simpl. rewrite getnum_pad2, in_range_Some by dlia. simpl.
  rewrite ?expect_app, ?str_app_nil_l. simpl. rewrite getnum_pad2 by dlia. simpl.
  rewrite ?expect_app, ?str_app_nil_l. simpl. rewrite getnum_pad2, in_range_Some by dlia. simpl.
  rewrite ?expect_app, ?str_app_nil_l. simpl. rewrite getnum_pad2, in_range_Some by dlia. simpl.
  rewrite ?expect_app, ?str_app_nil_l. simpl. rewrite getnum_pad2, in_range_Some by dlia. simpl.
  rewrite parse_zone_string by done. simpl.
  replace (y / 100 * 100 + y mod 100) with y by dlia.
  rewrite !(proj2 (Z.leb_le _ _)) by lia. simpl. f_equal. rewrite Hz. subst local. dlia.
Qed.

#[export] Hint Resolve scan_int64_range : go.
Create Rewrite HintDb go_str.
#[export] Hint Rewrite trim_prefix_app str_drop_app has_prefix_app : go_str.
