(* ===== verification/Sha256.v ===== *)
(** * crypto/sha256 and the "%x" verb

    The program hashes secret data with Go's [crypto/sha256] and prints the
    digest in lower-case hexadecimal.  Both are executable here (FIPS 180-4);
    the test vectors at the end of the file are checked by evaluation. *)

From S2P Require Import Prelude GoStd.
From Stdlib Require Import Ascii.

Definition w32 (z : Z) : Z := z mod 2 ^ 32.
Definition rotr (n x : Z) : Z := Z.lor (Z.shiftr x n) (w32 (Z.shiftl x (32 - n))).
Definition big_sigma0 (x : Z) : Z := Z.lxor (rotr 2 x) (Z.lxor (rotr 13 x) (rotr 22 x)).
Definition big_sigma1 (x : Z) : Z := Z.lxor (rotr 6 x) (Z.lxor (rotr 11 x) (rotr 25 x)).
Definition small_sigma0 (x : Z) : Z := Z.lxor (rotr 7 x) (Z.lxor (rotr 18 x) (Z.shiftr x 3)).
Definition small_sigma1 (x : Z) : Z := Z.lxor (rotr 17 x) (Z.lxor (rotr 19 x) (Z.shiftr x 10)).
Definition sha_ch (x y z : Z) : Z := Z.lxor (Z.land x y) (Z.land (Z.lxor x 4294967295) z).
Definition sha_maj (x y z : Z) : Z := Z.lxor (Z.land x y) (Z.lxor (Z.land x z) (Z.land y z)).

(** The constants are computed from their definition: the first 32 bits of the
    fractional parts of the cube (square) roots of the first primes. *)
Definition first_primes : list Z :=
  let cands := map Z.of_nat (seq 2 310) in
  filter (λ p, List.forallb (λ d, (d =? p) || negb (p mod d =? 0)) (List.firstn 16 cands)) cands.

(** The integer cube root, one bit at a time from bit [n]. *)
Fixpoint icbrt (n : nat) (z r : Z) : Z :=
  let r' := r + 2 ^ Z.of_nat n in
  let r'' := if r' * r' * r' <=? z then r' else r in
  match n with O => r'' | S n' => icbrt n' z r'' end.

Definition sha_K : list Z := Eval vm_compute in
  map (λ p, w32 (icbrt 36 (p * 2 ^ 96) 0)) first_primes.

Definition sha_H0 : list Z := Eval vm_compute in
  map (λ p, w32 (Z.sqrt (p * 2 ^ 64))) (List.firstn 8 first_primes).

(** The message schedule, kept newest first: 16 words extended to 64. *)
Fixpoint sha_extend (n : nat) (w : list Z) : list Z :=
  match n with
  | O => w
  | S n' =>
      let at_ i := List.nth i w 0 in
      sha_extend n'
        (w32 (small_sigma1 (at_ 1%nat) + at_ 6%nat + small_sigma0 (at_ 14%nat) + at_ 15%nat) :: w)
  end.

Definition sha_round (st : list Z) (kw : Z * Z) : list Z :=
  match st with
  | [a; b; c; d; e; f; g; h] =>
      let t1 := h + big_sigma1 e + sha_ch e f g + fst kw + snd kw in
      let t2 := big_sigma0 a + sha_maj a b c in
      [w32 (t1 + t2); a; b; c; w32 (d + t1); e; f; g]
  | _ => st
  end.

Definition sha_block (H block : list Z) : list Z :=
  let w := rev (sha_extend 48 (rev block)) in
  zip_with (λ x y, w32 (x + y)) H (fold_left sha_round (combine sha_K w) H).

Fixpoint be_words (l : list Z) : list Z :=
  match l with
  | a :: b :: c :: d :: l' => (a * 2 ^ 24 + b * 2 ^ 16 + c * 2 ^ 8 + d) :: be_words l'
  | _ => []
  end.

Fixpoint chunks (fuel n : nat) (l : list Z) : list (list Z) :=
  match fuel with
  | O => []
  | S fuel' => match l with [] => [] | _ => take n l :: chunks fuel' n (drop n l) end
  end.

Fixpoint be_bytes (n : nat) (z : Z) : list Z :=
  match n with
  | O => []
  | S n' => be_bytes n' (z / 256) ++ [z mod 256]
  end.

Definition sha_pad (msg : list Z) : list Z :=
  let len := length msg in
  msg ++ [128] ++ replicate (Z.to_nat ((55 - Z.of_nat len) mod 64)) 0
      ++ be_bytes 8 (8 * Z.of_nat len).

Definition string_bytes (s : string) : list Z := map byte_val (String.list_ascii_of_string s).

(** [sha256.New(); h.Write(msg); h.Sum(nil)], the digest as bytes. *)
Definition sha256 (msg : string) : list Z :=
  let words := be_words (sha_pad (string_bytes msg)) in
  List.concat (map (be_bytes 4)
    (fold_left sha_block (chunks (length words) 16 words) sha_H0)).

Definition hex_digit (n : Z) : ascii := byte_of (if n <? 10 then 48 + n else 87 + n).

(** [fmt.Sprintf("%x", bytes)] *)
Fixpoint hex (l : list Z) : string :=
  match l with
  | [] => ""
  | b :: l' => String (hex_digit (b / 16)) (String (hex_digit (b mod 16)) (hex l'))
  end.

Example sha256_empty : hex (sha256 "") =
  "e3b0c44298fc1c149afbf4c8996fb92427ae41e4649b934ca495991b7852b855".
Proof. vm_compute. reflexivity. Qed.

Example sha256_abc : hex (sha256 "abc") =
  "ba7816bf8f01cfea414140de5dae2223b00361a396177a9cb410ff61f20015ad".
Proof. vm_compute. reflexivity. Qed.

Example sha256_two_blocks :
  hex (sha256 "abcdbcdecdefdefgefghfghighijhijkijkljklmklmnlmnomnopnopq") =
  "248d6a61d20638b8e5c026930c3e6039a33ce45964ff2167f6ecedd419db06c1".
Proof. vm_compute. reflexivity. Qed.
