(* ===== verification/Reconcile.v ===== *)
(** * internal/reconcile/resolve.go: which copy of a secret wins

    [Resolve] is translated statement by statement.  The abstract policy
    ([authoritative]: strict majority of the expected devices when there are at
    least three, newest copy otherwise) is stated independently of the code, and
    the refinement theorem says [Resolve] implements it. *)

From S2P Require Import Prelude.

(* [internal/reconcile/resolve.go:37-37] *)
Definition TombstoneChecksum : string := "__deleted__".
(* [internal/reconcile/resolve.go:41-41] *)
Definition StrategyNone : string := "none".
(* [internal/reconcile/resolve.go:42-42] *)
Definition StrategyLWW : string := "lww".
(* [internal/reconcile/resolve.go:43-43] *)
Definition StrategyMajority : string := "majority".
(* [internal/reconcile/resolve.go:44-44] *)
Definition StrategyMajorityLWW : string := "majority-fallback-lww".

(* [internal/reconcile/resolve.go:48-55] *)
Record DeviceObservation := mkObs {
  o_DeviceID : string;
  o_Present : bool;
  o_Tombstone : bool;
  o_Checksum : string;
  o_Version : Z;
  o_Timestamp : Z;
}.

#[global] Instance DeviceObservation_eq_dec : EqDecision DeviceObservation.
Proof. solve_decision. Defined.

(* [internal/reconcile/resolve.go:59-61] *)
Definition hasOpinion (o : DeviceObservation) : bool := o_Present o || o_Tombstone o.

(* [internal/reconcile/resolve.go:65-70] *)
Definition effectiveChecksum (o : DeviceObservation) : string :=
  if o_Tombstone o then TombstoneChecksum else o_Checksum o.

(* [internal/reconcile/resolve.go:73-81] *)
Record Decision := mkDecision {
  d_WinningChecksum : string;
  d_WinningDeviceID : string;
  d_Deleted : bool;
  d_Diverged : bool;
  d_Strategy : string;
  d_Outliers : list string;
  d_Found : bool;
}.

(** [counts[v.effectiveChecksum()]++] over the voters. *)
(* [internal/reconcile/resolve.go:102-106 Resolve] *)
Definition count_votes (voters : list DeviceObservation) : gmap string Z :=
  fold_left (λ counts v,
    <[effectiveChecksum v := default 0 (counts !! effectiveChecksum v) + 1]> counts) voters ∅.

(** The first key, in sorted order, whose count exceeds [deviceCount / 2]. *)
(* [internal/reconcile/resolve.go:154-169] *)
Definition strictMajority (counts : gmap string Z) (deviceCount : Z) : option string :=
  let threshold := Z.quot deviceCount 2 in
  let keys := sort_Strings (map_to_list counts).*1 in
  List.find (λ k, threshold <? default 0 (counts !! k)) keys.

(** The test that replaces [best] by [v]. *)
(* [internal/reconcile/resolve.go:176-179 lastWriteWins] *)
Definition newer (v best : DeviceObservation) : bool :=
  (o_Version best <? o_Version v) ||
  ((o_Version v =? o_Version best) && (o_Timestamp best <? o_Timestamp v)) ||
  ((o_Version v =? o_Version best) && (o_Timestamp v =? o_Timestamp best) &&
   str_lt (o_DeviceID v) (o_DeviceID best)).

(** [lastWriteWins(voters)] with [v0 = voters[0]] and [vs = voters[1:]]. *)
(* [internal/reconcile/resolve.go:173-183] *)
Definition lastWriteWins (v0 : DeviceObservation) (vs : list DeviceObservation) : DeviceObservation :=
  fold_left (λ best v, if newer v best then v else best) vs v0.

(* [internal/reconcile/resolve.go:187-198] *)
Definition lowestDeviceWithChecksum (voters : list DeviceObservation) (checksum : string) : string :=
  fold_left (λ winner v,
    if bool_decide (effectiveChecksum v ≠ checksum) then winner
    else if bool_decide (winner = "") || str_lt (o_DeviceID v) winner then o_DeviceID v
    else winner) voters "".

(* [internal/reconcile/resolve.go:89-149] *)
Definition Resolve (obs : list DeviceObservation) (deviceCount : Z) : Decision :=
  let voters := filter hasOpinion obs in
  match voters with
  | [] => mkDecision "" "" false false StrategyNone [] false
  | v0 :: vs =>
      let counts := count_votes voters in
      let '(winningChecksum, strategy) :=
        if 3 <=? deviceCount then
          match strictMajority counts deviceCount with
          | Some cs => (cs, StrategyMajority)
          | None => (effectiveChecksum (lastWriteWins v0 vs), StrategyMajorityLWW)
          end
        else (effectiveChecksum (lastWriteWins v0 vs), StrategyLWW) in
      let winningDevice := lowestDeviceWithChecksum voters winningChecksum in
      let outliers := sort_Strings
        (map o_DeviceID (filter (λ v, effectiveChecksum v ≠ winningChecksum) voters)) in
      mkDecision winningChecksum winningDevice
        (bool_decide (winningChecksum = TombstoneChecksum))
        (negb (bool_decide (outliers = []))) strategy outliers true
  end.

(** ** The abstract policy

    Nothing here refers to the functions above: what a device votes for, which of
    two copies is the newer one and what a majority is are spelled out on the
    fields of an observation. *)

(** What a device votes for: that the secret is deleted if it holds a tombstone, the
    checksum of its copy if it holds one, nothing otherwise. *)
Definition ballot (o : DeviceObservation) : option string :=
  match o_Tombstone o, o_Present o with
  | true, _ => Some "__deleted__"
  | false, true => Some (o_Checksum o)
  | false, false => None
  end.

(** [v] is no newer a copy than [best]: a lower version; or the same version and
    written earlier; or the same of both and not on a device of smaller name. *)
Definition outranked (v best : DeviceObservation) : Prop :=
  o_Version v < o_Version best ∨
  (o_Version v = o_Version best ∧
    (o_Timestamp v < o_Timestamp best ∨
     (o_Timestamp v = o_Timestamp best ∧ String.le (o_DeviceID best) (o_DeviceID v)))).

(** [best] is a newest copy among [voters]. *)
Definition newest (best : DeviceObservation) (voters : list DeviceObservation) : Prop :=
  best ∈ voters ∧ ∀ v, v ∈ voters → outranked v best.

(** The devices that vote. *)
Definition electorate (obs : list DeviceObservation) : list DeviceObservation :=
  filter (λ o, is_Some (ballot o)) obs.

(** More than half of the [n] expected devices vote for [c]. *)
Definition majority_for (c : string) (obs : list DeviceObservation) (n : Z) : Prop :=
  n < 2 * Z.of_nat (length (filter (λ o, ballot o = Some c) obs)).

(** The policy: with three expected devices or more, what a strict majority of them
    votes for; if there is no such value, or with fewer devices, what the newest copy
    says. *)
Definition authoritative (obs : list DeviceObservation) (n : Z) (c : string) : Prop :=
  (3 ≤ n ∧ majority_for c obs n) ∨
  ((n < 3 ∨ ∀ c', ¬ majority_for c' obs n) ∧
   ∃ best, newest best (electorate obs) ∧ ballot best = Some c).

(** Devices are told apart by non-empty, distinct serial numbers. *)
Definition distinct_devices (obs : list DeviceObservation) : Prop :=
  NoDup (map o_DeviceID obs) ∧ Forall (λ o, o_DeviceID o ≠ "") obs.

(** ** Lemmas: the code's tests against the policy's terms *)
Lemma ballot_opinion o : is_Some (ballot o) ↔ hasOpinion o = true.
Proof.
  unfold ballot, hasOpinion. destruct (o_Tombstone o), (o_Present o); simpl; split; try done; by eauto.
Qed.

Lemma ballot_checksum o c : ballot o = Some c ↔ hasOpinion o = true ∧ effectiveChecksum o = c.
Proof.
  unfold ballot, hasOpinion, effectiveChecksum, TombstoneChecksum.
  destruct (o_Tombstone o), (o_Present o); simpl; naive_solver.
Qed.

Lemma electorate_voters obs : electorate obs = filter hasOpinion obs.
Proof.
  unfold electorate. apply list_filter_iff. intros o. by rewrite ballot_opinion, Is_true_true.
Qed.

(** The number of voters for a value. *)
Definition votes (c : string) (voters : list DeviceObservation) : Z :=
  Z.of_nat (length (filter (λ v, effectiveChecksum v = c) voters)).

Definition has_majority (c : string) (voters : list DeviceObservation) (n : Z) : Prop :=
  n < 2 * votes c voters.

Lemma majority_voters c obs n : majority_for c obs n ↔ has_majority c (filter hasOpinion obs) n.
Proof.
  unfold majority_for, has_majority, votes. rewrite list_filter_filter.
  rewrite (list_filter_iff (λ o, ballot o = Some c) (λ x, effectiveChecksum x = c ∧ hasOpinion x) obs); [done|].
  intros o. rewrite ballot_checksum. destruct (hasOpinion o); naive_solver.
Qed.

(** ** Lemmas: last write wins *)
Lemma newer_false v b : newer v b = false ↔ outranked v b.
Proof.
  unfold newer, outranked. rewrite <-str_lt_le.
  destruct (str_lt (o_DeviceID v) (o_DeviceID b));
    rewrite !orb_false_iff, !andb_false_iff, !Z.ltb_ge, !Z.eqb_neq; naive_solver lia.
Qed.

Lemma newer_irrefl v : newer v v = false.
Proof. apply newer_false. right. split; [done|]. right. split; [done|]. reflexivity. Qed.

Lemma outranked_trans a b c : outranked a b → outranked b c → outranked a c.
Proof.
  intros [|[? [|[??]]]] [|[? [|[??]]]];
    first [left; lia | right; split; [lia|]; first [left; lia | right; split; [lia|by etrans]]].
Qed.

Lemma newer_true_false a b : newer a b = true → newer b a = false.
Proof.
  intros H. destruct (newer b a) eqn:E; [|done].
  apply not_false_iff_true in H, E. rewrite newer_false in H, E. unfold outranked in H, E.
  destruct (total String.le (o_DeviceID a) (o_DeviceID b)); exfalso; 
    destruct (Z.lt_trichotomy (o_Version a) (o_Version b)) as [|[|]];
    destruct (Z.lt_trichotomy (o_Timestamp a) (o_Timestamp b)) as [|[|]]; naive_solver lia.
Qed.

Lemma lastWriteWins_newest v0 vs : newest (lastWriteWins v0 vs) (v0 :: vs).
Proof.
  unfold newest, lastWriteWins. revert v0.
  induction vs as [|v vs IH]; intros v0; simpl.
  - split; [by left|]. intros v Hv%list_elem_of_singleton. subst. apply newer_false, newer_irrefl.
  - destruct (newer v v0) eqn:E.
    + destruct (IH v) as [Hin Hmax]. split; [set_solver|].
      intros x [->|Hx]%elem_of_cons; [|by apply Hmax].
      apply (outranked_trans _ v); [by apply newer_false, newer_true_false|]. apply Hmax. by left.
    + destruct (IH v0) as [Hin Hmax]. split; [set_solver|].
      intros x [->|[->|Hx]%elem_of_cons]%elem_of_cons.
      * apply Hmax. by left.
      * apply (outranked_trans _ v0); [by apply newer_false|]. apply Hmax. by left.
      * apply Hmax. by right.
Qed.

Lemma newest_unique a b voters :
  NoDup (map o_DeviceID voters) → newest a voters → newest b voters → a = b.
Proof.
  intros Hnd [Ha Hmaxa] [Hb Hmaxb].
  pose proof (Hmaxa b Hb) as H1. pose proof (Hmaxb a Ha) as H2.
  unfold outranked in H1, H2.
  assert (o_DeviceID a = o_DeviceID b) as Hid.
  { apply (anti_symm String.le); naive_solver lia. }
  by eapply (NoDup_fmap_inj_on o_DeviceID).
Qed.

(** ** Lemmas: counting votes *)
Lemma count_votes_fold voters (m : gmap string Z) c :
  default 0 (fold_left (λ counts v,
    <[effectiveChecksum v := default 0 (counts !! effectiveChecksum v) + 1]> counts) voters m !! c)
  = default 0 (m !! c) + votes c voters.
Proof.
  unfold votes. revert m. induction voters as [|v voters IH]; intros m; simpl; [lia|].
  rewrite IH, filter_cons. destruct (decide (effectiveChecksum v = c)) as [->|Hne].
  - rewrite lookup_insert_eq. simpl. lia.
  - rewrite lookup_insert_ne by done. lia.
Qed.

Lemma count_votes_spec voters c : default 0 (count_votes voters !! c) = votes c voters.
Proof. unfold count_votes. rewrite count_votes_fold, lookup_empty. simpl. lia. Qed.

Lemma votes_nonneg c voters : 0 ≤ votes c voters.
Proof. unfold votes. lia. Qed.

Lemma votes_pos_elem c voters : 0 < votes c voters → ∃ v, v ∈ voters ∧ effectiveChecksum v = c.
Proof.
  unfold votes. destruct (filter _ voters) as [|v l] eqn:E; simpl; [lia|]. intros _.
  exists v. assert (v ∈ filter (λ v, effectiveChecksum v = c) voters) as Hv by (rewrite E; left).
  apply list_elem_of_filter in Hv. naive_solver.
Qed.

Lemma votes_two c1 c2 voters :
  c1 ≠ c2 → votes c1 voters + votes c2 voters ≤ Z.of_nat (length voters).
Proof.
  intros Hne. unfold votes. induction voters as [|v voters IH]; simpl; [lia|].
  rewrite !filter_cons.
  destruct (decide (effectiveChecksum v = c1)), (decide (effectiveChecksum v = c2)); simpl; first [congruence|lia].
Qed.

Lemma majority_unique c1 c2 voters n :
  Z.of_nat (length voters) ≤ n → has_majority c1 voters n → has_majority c2 voters n → c1 = c2.
Proof.
  unfold has_majority. intros Hn H1 H2. destruct (decide (c1 = c2)) as [|Hne]; [done|].
  pose proof (votes_two c1 c2 voters Hne). lia.
Qed.

Lemma threshold_majority c voters n :
  0 ≤ n → Z.quot n 2 < votes c voters ↔ has_majority c voters n.
Proof. intros. unfold has_majority. rewrite Z.quot_div_nonneg by lia. split; intros; dlia. Qed.

Lemma strictMajority_Some voters n c :
  0 ≤ n → strictMajority (count_votes voters) n = Some c → has_majority c voters n.
Proof.
  intros Hn H. apply List.find_some in H as [_ H%Z.ltb_lt].
  rewrite count_votes_spec in H. by apply threshold_majority.
Qed.

Lemma strictMajority_None voters n c :
  0 ≤ n → strictMajority (count_votes voters) n = None → ¬ has_majority c voters n.
Proof.
  intros Hn H Hm. apply threshold_majority in Hm; [|done].
  pose proof (votes_pos_elem c voters) as Hpos.
  assert (c ∈ sort_Strings (map_to_list (count_votes voters)).*1) as Hin.
  { apply elem_of_sort_Strings, list_elem_of_fmap.
    destruct (count_votes voters !! c) as [k|] eqn:E.
    - exists (c, k). by rewrite elem_of_map_to_list.
    - pose proof (count_votes_spec voters c) as Hc. rewrite E in Hc. simpl in Hc.
      assert (0 ≤ n ÷ 2) by (apply Z.quot_pos; lia). lia. }
  apply list_elem_of_In in Hin.
  pose proof (List.find_none _ _ H c Hin) as Hf. simpl in Hf.
  rewrite count_votes_spec in Hf. apply Z.ltb_ge in Hf. lia.
Qed.

Lemma votes_cons c v voters :
  votes c (v :: voters) = (if decide (effectiveChecksum v = c) then 1 else 0) + votes c voters.
Proof. unfold votes. rewrite filter_cons. case_decide; simpl; lia. Qed.

Lemma count_votes_fold_lookup voters (m : gmap string Z) c :
  fold_left (λ counts v,
    <[effectiveChecksum v := default 0 (counts !! effectiveChecksum v) + 1]> counts) voters m !! c
  = if decide (votes c voters = 0) then m !! c else Some (default 0 (m !! c) + votes c voters).
Proof.
  revert m. induction voters as [|v voters IH]; intros m; simpl; [done|].
  rewrite IH, votes_cons. pose proof (votes_nonneg c voters).
  destruct (decide (effectiveChecksum v = c)) as [<-|Hne].
  - rewrite lookup_insert_eq. simpl. repeat case_decide; try lia; f_equal; lia.
  - rewrite lookup_insert_ne by done. repeat case_decide; try lia; done.
Qed.

Lemma votes_perm c voters voters' : voters ≡ₚ voters' → votes c voters = votes c voters'.
Proof. unfold votes. by intros ->. Qed.

(** The vote table does not depend on the order the devices are looked at. *)
Lemma count_votes_perm voters voters' :
  voters ≡ₚ voters' → count_votes voters = count_votes voters'.
Proof.
  intros Hp. apply map_eq. intros c. unfold count_votes.
  by rewrite !count_votes_fold_lookup, (votes_perm c _ _ Hp).
Qed.

Lemma newest_perm b voters voters' : voters ≡ₚ voters' → newest b voters → newest b voters'.
Proof. intros Hp [Hin Hmax]. split; [by rewrite <-Hp|]. intros v. rewrite <-Hp. apply Hmax. Qed.

Lemma lastWriteWins_perm v0 vs v0' vs' :
  NoDup (map o_DeviceID (v0 :: vs)) → v0 :: vs ≡ₚ v0' :: vs' →
  lastWriteWins v0 vs = lastWriteWins v0' vs'.
Proof.
  intros Hnd Hp. eapply newest_unique; [exact Hnd|apply lastWriteWins_newest|].
  eapply newest_perm; [by symmetry|]. apply lastWriteWins_newest.
Qed.

(** ** Lemmas: the winning device *)
Lemma lowest_fold voters c acc :
  Forall (λ o, o_DeviceID o ≠ "") voters →
  let r := fold_left (λ winner v,
    if bool_decide (effectiveChecksum v ≠ c) then winner
    else if bool_decide (winner = "") || str_lt (o_DeviceID v) winner then o_DeviceID v
    else winner) voters acc in
  (r = acc ∨ ∃ v, v ∈ voters ∧ effectiveChecksum v = c ∧ o_DeviceID v = r) ∧
  (acc ≠ "" → String.le r acc) ∧
  (∀ v, v ∈ voters → effectiveChecksum v = c → r ≠ "" ∧ String.le r (o_DeviceID v)) ∧
  (acc ≠ "" → r ≠ "").
Proof.
  revert acc. induction voters as [|v voters IH]; intros acc Hne; simpl.
  { split_and!; [by left|done|set_solver|done]. }
  apply Forall_cons in Hne as [Hv Hne].
  case_bool_decide as Hc.
  - destruct (IH acc Hne) as (H1 & H2 & H3 & H4). split_and!; [|done| |done].
    + destruct H1 as [H1|(x&?&?&?)]; [by left|]. right. exists x. set_solver.
    + intros x [->|Hx]%elem_of_cons Hx2; [by destruct Hc|by apply H3].
  - destruct (bool_decide (acc = "") || str_lt (o_DeviceID v) acc) eqn:E.
    + destruct (IH (o_DeviceID v) Hne) as (H1 & H2 & H3 & H4). split_and!.
      * right. destruct H1 as [H1|(x&?&?&?)]; [exists v|exists x]; set_solver.
      * intros Hacc. rewrite bool_decide_false in E by done. simpl in E.
        apply str_lt_true_le in E as [E _]. etrans; [by apply H2|done].
      * intros x [->|Hx]%elem_of_cons Hx2; [split; [by apply H4|by apply H2]|by apply H3].
      * intros _. by apply H4.
    + apply orb_false_iff in E as [E1%bool_decide_eq_false E2%str_lt_le].
      destruct (IH acc Hne) as (H1 & H2 & H3 & H4). split_and!; [|done| |done].
      * destruct H1 as [H1|(x&?&?&?)]; [by left|]. right. exists x. set_solver.
      * intros x [->|Hx]%elem_of_cons Hx2; [|by apply H3].
        split; [by apply H4|]. etrans; [by apply H2|done].
Qed.

(** The winning device holds the winning value and has the least serial number. *)
Definition least_holder (id c : string) (voters : list DeviceObservation) : Prop :=
  (∃ v, v ∈ voters ∧ effectiveChecksum v = c ∧ o_DeviceID v = id) ∧
  ∀ v, v ∈ voters → effectiveChecksum v = c → String.le id (o_DeviceID v).

Lemma lowest_spec voters c :
  Forall (λ o, o_DeviceID o ≠ "") voters → (∃ v, v ∈ voters ∧ effectiveChecksum v = c) →
  least_holder (lowestDeviceWithChecksum voters c) c voters.
Proof.
  intros Hne (v & Hv & Hc). unfold lowestDeviceWithChecksum.
  destruct (lowest_fold voters c "" Hne) as (H1 & _ & H3 & _).
  destruct (H3 v Hv Hc) as [Hr _]. split; [|naive_solver].
  destruct H1 as [H1|H1]; [congruence|]. exact H1.
Qed.

Lemma least_holder_unique a b c voters :
  least_holder a c voters → least_holder b c voters → a = b.
Proof.
  intros [(v&?&?&<-) Ha] [(w&?&?&<-) Hb]. apply (anti_symm String.le); [by apply Ha|by apply Hb].
Qed.

Lemma least_holder_perm a c voters voters' :
  voters ≡ₚ voters' → least_holder a c voters → least_holder a c voters'.
Proof. intros Hp [(v&Hv&?) H2]. split; [exists v; by rewrite <-Hp|]. intros w. rewrite <-Hp. apply H2. Qed.

(** ** Lemmas: what [Resolve] computes *)

(** The decision [Resolve] builds once the winning value is chosen. *)
Definition decision_for (c s : string) (voters : list DeviceObservation) : Decision :=
  let outliers := sort_Strings (map o_DeviceID (filter (λ v, effectiveChecksum v ≠ c) voters)) in
  mkDecision c (lowestDeviceWithChecksum voters c) (bool_decide (c = TombstoneChecksum))
    (negb (bool_decide (outliers = []))) s outliers true.

(** How the winning value and the strategy label are chosen. *)
Definition chosen (c s : string) (v0 : DeviceObservation) (vs : list DeviceObservation) (n : Z) : Prop :=
  (3 ≤ n ∧ has_majority c (v0 :: vs) n ∧ s = StrategyMajority) ∨
  (3 ≤ n ∧ (∀ c', ¬ has_majority c' (v0 :: vs) n) ∧
    c = effectiveChecksum (lastWriteWins v0 vs) ∧ s = StrategyMajorityLWW) ∨
  (n < 3 ∧ c = effectiveChecksum (lastWriteWins v0 vs) ∧ s = StrategyLWW).

Lemma Resolve_none obs n :
  filter hasOpinion obs = [] → Resolve obs n = mkDecision "" "" false false StrategyNone [] false.
Proof. intros H. unfold Resolve. by rewrite H. Qed.

Lemma Resolve_some obs n v0 vs :
  filter hasOpinion obs = v0 :: vs →
  ∃ c s, chosen c s v0 vs n ∧ Resolve obs n = decision_for c s (v0 :: vs).
Proof.
  intros Hv. unfold Resolve. rewrite Hv. unfold chosen.
  destruct (3 <=? n) eqn:En.
  - apply Z.leb_le in En.
    destruct (strictMajority (count_votes (v0 :: vs)) n) as [c|] eqn:Em.
    + exists c, StrategyMajority. split; [|done]. left.
      split_and!; [done| |done]. apply strictMajority_Some in Em; [done|lia].
    + exists (effectiveChecksum (lastWriteWins v0 vs)), StrategyMajorityLWW. split; [|done].
      right; left. split_and!; [done| |done|done].
      intros c'. by apply strictMajority_None; [lia|].
  - apply Z.leb_gt in En.
    exists (effectiveChecksum (lastWriteWins v0 vs)), StrategyLWW. split; [|done].
    right; right. done.
Qed.

Lemma voters_cases obs :
  filter hasOpinion obs = [] ∨ ∃ v0 vs, filter hasOpinion obs = v0 :: vs.
Proof. destruct (filter hasOpinion obs); eauto. Qed.

Lemma chosen_held c s v0 vs n :
  0 ≤ n → chosen c s v0 vs n → ∃ v, v ∈ v0 :: vs ∧ effectiveChecksum v = c.
Proof.
  intros Hn [(?&Hm&_)|[(_&_&->&_)|(_&->&_)]].
  - apply votes_pos_elem. unfold has_majority in Hm. lia.
  - exists (lastWriteWins v0 vs). split; [apply lastWriteWins_newest|done].
  - exists (lastWriteWins v0 vs). split; [apply lastWriteWins_newest|done].
Qed.

Lemma chosen_held' c s v0 vs n :
  chosen c s v0 vs n → ∃ v, v ∈ v0 :: vs ∧ effectiveChecksum v = c.
Proof.
  intros H. destruct (decide (0 ≤ n)) as [Hn|Hn]; [by eapply chosen_held|].
  destruct H as [(?&_)|[(?&_)|(_&->&_)]]; [lia|lia|].
  exists (lastWriteWins v0 vs). split; [apply lastWriteWins_newest|done].
Qed.

Lemma chosen_unique c s c' s' v0 vs n :
  Z.of_nat (length (v0 :: vs)) ≤ n ∨ n < 3 →
  chosen c s v0 vs n → chosen c' s' v0 vs n → c = c' ∧ s = s'.
Proof.
  intros Hn [(?&H1&->)|[(?&H1&->&->)|(?&->&->)]] [(?&H2&->)|[(?&H2&->&->)|(?&->&->)]];
    try lia; try done; try (by exfalso; eapply H1); try (by exfalso; eapply H2).
  split; [|done]. eapply majority_unique; [|done..]. lia.
Qed.

Lemma distinct_voters obs :
  distinct_devices obs →
  NoDup (map o_DeviceID (filter hasOpinion obs)) ∧
  Forall (λ o, o_DeviceID o ≠ "") (filter hasOpinion obs).
Proof.
  intros [Hnd Hne]. split.
  - eapply (sublist_NoDup _ (map o_DeviceID obs)); [done|].
    apply fmap_sublist, sublist_filter.
  - apply Forall_forall. intros x [_ Hx]%list_elem_of_filter.
    by eapply Forall_forall in Hne.
Qed.

Lemma outliers_perm c voters voters' :
  voters ≡ₚ voters' →
  sort_Strings (map o_DeviceID (filter (λ v, effectiveChecksum v ≠ c) voters)) =
  sort_Strings (map o_DeviceID (filter (λ v, effectiveChecksum v ≠ c) voters')).
Proof. intros Hp. apply sort_Strings_proper, Permutation_map. by rewrite Hp. Qed.

Lemma Resolve_perm obs1 obs2 n :
  distinct_devices obs1 → obs1 ≡ₚ obs2 → Resolve obs1 n = Resolve obs2 n.
Proof.
  intros Hd Hp. destruct (distinct_voters _ Hd) as [Hnd Hne].
  assert (filter hasOpinion obs1 ≡ₚ filter hasOpinion obs2) as Hpf by by rewrite Hp.
  destruct (voters_cases obs2) as [E2|(v0' & vs' & E2)].
  { rewrite E2 in Hpf. apply Permutation_nil_r in Hpf. by rewrite !Resolve_none. }
  assert (∃ v, v ∈ v0' :: vs' ∧ effectiveChecksum v = d_WinningChecksum (Resolve obs2 n)) as Hheld.
  { destruct (Resolve_some obs2 n v0' vs') as (c & s & Hc & ->); [done|].
    by eapply chosen_held'. }
  revert Hheld. unfold Resolve. rewrite E2 in Hpf |- *.
  destruct (filter hasOpinion obs1) as [|v0 vs] eqn:E1; [by apply Permutation_nil in Hpf|].
  rewrite (lastWriteWins_perm v0 vs v0' vs') by done.
  rewrite (count_votes_perm _ _ Hpf).
  set (cs := if 3 <=? n then _ else _). clearbody cs. intros Hheld.
  destruct cs as [c s]. simpl in Hheld. f_equal.
  - assert (least_holder (lowestDeviceWithChecksum (v0 :: vs) c) c (v0' :: vs')).
    { eapply least_holder_perm; [done|]. apply lowest_spec; [done|].
      destruct Hheld as (v & Hv & ?). exists v. by rewrite Hpf. }
    assert (least_holder (lowestDeviceWithChecksum (v0' :: vs') c) c (v0' :: vs')).
    { apply lowest_spec; [|done]. by rewrite Hpf in Hne. }
    by eapply least_holder_unique.
  - by rewrite (outliers_perm c _ _ Hpf).
  - by rewrite (outliers_perm c _ _ Hpf).
Qed.

Lemma chosen_authoritative obs n v0 vs c s :
  filter hasOpinion obs = v0 :: vs → chosen c s v0 vs n → authoritative obs n c.
Proof.
  intros Hv Hc. unfold authoritative. rewrite electorate_voters, Hv. setoid_rewrite majority_voters. rewrite Hv.
  pose proof (lastWriteWins_newest v0 vs) as Hn.
  assert (ballot (lastWriteWins v0 vs) = Some (effectiveChecksum (lastWriteWins v0 vs))) as Hb.
  { apply ballot_checksum. split; [|done]. destruct Hn as [Hn _]. rewrite <-Hv in Hn.
    apply list_elem_of_filter in Hn as [Hn _]. by apply Is_true_true. }
  destruct Hc as [(?&?&_)|[(?&?&->&_)|(?&->&_)]]; [by left|right..]; (split; [by auto|]); eauto.
Qed.

Lemma authoritative_unique obs n c c' :
  distinct_devices obs → Z.of_nat (length (filter hasOpinion obs)) ≤ n ∨ n < 3 →
  authoritative obs n c → authoritative obs n c' → c = c'.
Proof.
  intros Hd Hn. unfold authoritative. rewrite electorate_voters. setoid_rewrite majority_voters.
  destruct (distinct_voters _ Hd) as [Hnd _].
  intros [[? H1]|[Hor1 (b1&Hb1&Hc1)]] [[? H2]|[Hor2 (b2&Hb2&Hc2)]].
  - eapply majority_unique; [|done..]. lia.
  - exfalso. destruct Hor2 as [|Hno]; [lia|]. by eapply Hno.
  - exfalso. destruct Hor1 as [|Hno]; [lia|]. by eapply Hno.
  - assert (b1 = b2) as -> by by eapply newest_unique. congruence.
Qed.

Lemma votes_app c l1 l2 : votes c (l1 ++ l2) = votes c l1 + votes c l2.
Proof. unfold votes. rewrite filter_app, length_app. lia. Qed.

Lemma Resolve_facts (obs : list DeviceObservation) (n : Z) :
  Forall (λ o, o_DeviceID o ≠ "") obs →
  let d := Resolve obs n in
  let voters := filter hasOpinion obs in
  (d_Found d = true ↔ voters ≠ []) ∧
  (d_Found d = true →
    least_holder (d_WinningDeviceID d) (d_WinningChecksum d) voters ∧
    Sorted String.le (d_Outliers d) ∧
    (∀ id, id ∈ d_Outliers d ↔
       ∃ v, v ∈ voters ∧ o_DeviceID v = id ∧ effectiveChecksum v ≠ d_WinningChecksum d) ∧
    (d_Diverged d = true ↔ d_Outliers d ≠ []) ∧
    (d_Deleted d = true ↔ d_WinningChecksum d = TombstoneChecksum)).
Proof.
  intros Hne d voters. unfold d, voters. destruct (voters_cases obs) as [Hv|(v0 & vs & Hv)].
  { rewrite (Resolve_none _ _ Hv), Hv. simpl. done. }
  destruct (Resolve_some obs n v0 vs Hv) as (c & s & Hc & ->). rewrite Hv. simpl.
  split; [done|]. intros _. split_and!.
  - apply lowest_spec; [|by eapply chosen_held'].
    rewrite <-Hv. apply Forall_forall. intros x [_ Hx]%list_elem_of_filter.
    by eapply Forall_forall in Hne.
  - apply sort_Strings_sorted.
  - intros id. rewrite elem_of_sort_Strings.
    change (map ?f ?l) with (f <$> l). rewrite list_elem_of_fmap.
    setoid_rewrite list_elem_of_filter. naive_solver.
  - by case_bool_decide.
  - by rewrite bool_decide_eq_true.
Qed.

(** ** Properties *)

(** C1. [Resolve] implements the documented policy: among devices with distinct
    non-empty serial numbers, and with no more voters than expected devices,
    the winning value is the one a strict majority of the expected devices
    votes for (three devices or more), and what the newest copy says otherwise: the
    highest version, of these the latest timestamp, of these the smallest serial
    number; a tombstone votes for the deletion.  It is the only value the policy
    allows. *)
Theorem Resolve_refines_policy (obs : list DeviceObservation) (n : Z) (c : string) :
  distinct_devices obs →
  Z.of_nat (length (electorate obs)) ≤ n ∨ n < 3 →
  electorate obs ≠ [] →
  d_WinningChecksum (Resolve obs n) = c ↔ authoritative obs n c.
Proof.
  rewrite electorate_voters. intros Hd Hn Hne. destruct (voters_cases obs) as [|(v0 & vs & Hv)]; [done|].
  destruct (Resolve_some obs n v0 vs Hv) as (c' & s & Hc & ->). simpl.
  apply (chosen_authoritative obs) in Hc; [|done].
  split; [by intros <-|]. by apply authoritative_unique.
Qed.

(** C8. The verdict does not depend on the order in which the devices answer:
    permuting the observations leaves every field of the decision unchanged. *)
Theorem Resolve_order_independent (obs1 obs2 : list DeviceObservation) (n : Z) :
  distinct_devices obs1 → obs1 ≡ₚ obs2 → Resolve obs1 n = Resolve obs2 n.
Proof. apply Resolve_perm. Qed.

(** The winning device and the outliers: [Found] tells whether some device
    votes; if so the winning device is the one of least serial number among the
    holders of the winning value, [Outliers] lists in order exactly the voters
    that disagree, [Diverged] says there are some, and [Deleted] says the
    winning value is the tombstone. *)
Theorem Resolve_winner_and_outliers (obs : list DeviceObservation) (n : Z) :
  Forall (λ o, o_DeviceID o ≠ "") obs →
  let d := Resolve obs n in
  let voters := filter hasOpinion obs in
  (d_Found d = true ↔ voters ≠ []) ∧
  (d_Found d = true →
    least_holder (d_WinningDeviceID d) (d_WinningChecksum d) voters ∧
    Sorted String.le (d_Outliers d) ∧
    (∀ id, id ∈ d_Outliers d ↔
       ∃ v, v ∈ voters ∧ o_DeviceID v = id ∧ effectiveChecksum v ≠ d_WinningChecksum d) ∧
    (d_Diverged d = true ↔ d_Outliers d ≠ []) ∧
    (d_Deleted d = true ↔ d_WinningChecksum d = TombstoneChecksum)).
Proof. exact (Resolve_facts obs n). Qed.

(** A majority is stable: once a strict majority of the expected devices
    votes for a value, observations that arrive later, whatever version,
    timestamp or tombstone they carry, cannot change the winning value. *)
Theorem Resolve_majority_stable (obs extra : list DeviceObservation) (n : Z) (c : string) :
  3 ≤ n → has_majority c (filter hasOpinion obs) n →
  Z.of_nat (length (filter hasOpinion (obs ++ extra))) ≤ n →
  d_WinningChecksum (Resolve (obs ++ extra) n) = c ∧
  d_Strategy (Resolve (obs ++ extra) n) = StrategyMajority.
Proof.
  intros Hn Hm Hlen.
  assert (has_majority c (filter hasOpinion (obs ++ extra)) n) as Hm'.
  { unfold has_majority in *. rewrite filter_app, votes_app.
    pose proof (votes_nonneg c (filter hasOpinion extra)). lia. }
  destruct (voters_cases (obs ++ extra)) as [Hv|(v0 & vs & Hv)].
  { rewrite Hv in Hm'. unfold has_majority, votes in Hm'. simpl in Hm'. lia. }
  rewrite Hv in Hm', Hlen.
  destruct (Resolve_some (obs ++ extra) n v0 vs Hv) as (c' & s & Hc & ->). simpl.
  eapply (chosen_unique c' s c); [by left|done|]. left. done.
Qed.

(** ** Witnesses *)
Definition obs_a : DeviceObservation := mkObs "A" true false "sha256:x" 3 100.
Definition obs_b : DeviceObservation := mkObs "B" true false "sha256:y" 4 50.
Definition obs_c : DeviceObservation := mkObs "C" true false "sha256:x" 3 100.

Example obs_distinct : distinct_devices [obs_a; obs_b; obs_c].
Proof. unfold distinct_devices. decide_goal. Defined.

Example Resolve_refines_policy_witness :
  d_WinningChecksum (Resolve [obs_a; obs_b; obs_c] 3) = "sha256:x" ∧
  authoritative [obs_a; obs_b; obs_c] 3 "sha256:x".
Proof.
  assert (d_WinningChecksum (Resolve [obs_a; obs_b; obs_c] 3) = "sha256:x") as H
    by (vm_compute; reflexivity).
  split; [exact H|].
  apply (Resolve_refines_policy [obs_a; obs_b; obs_c] 3 "sha256:x"); [|left; vm_compute; discriminate|vm_compute; discriminate|exact H].
  exact obs_distinct.
Defined.

Example Resolve_order_independent_witness :
  Resolve [obs_a; obs_b; obs_c] 3 = Resolve [obs_c; obs_b; obs_a] 3.
Proof. apply Resolve_order_independent; [exact obs_distinct|]. decide_goal. Defined.

Example Resolve_winner_and_outliers_witness :
  least_holder (d_WinningDeviceID (Resolve [obs_a; obs_b; obs_c] 3)) "sha256:x" [obs_a; obs_b; obs_c].
Proof.
  refine (proj1 (proj2 (Resolve_winner_and_outliers [obs_a; obs_b; obs_c] 3 _) _));
    [decide_goal|vm_compute; reflexivity].
Defined.

Example Resolve_majority_stable_witness :
  d_WinningChecksum (Resolve ([obs_a; obs_c] ++ [obs_b]) 3) = "sha256:x" ∧
  d_Strategy (Resolve ([obs_a; obs_c] ++ [obs_b]) 3) = StrategyMajority.
Proof.
  apply Resolve_majority_stable; [lia|vm_compute; reflexivity|vm_compute; discriminate].
Defined.
