(* ===== verification/Hsm.v ===== *)
(** * internal/hsm/client.go: secrets, metadata, checksums and the client interface

    [SecretData] is a map from keys to byte strings.  A Go interface value of type
    [hsm.Client] is a record of its methods over a world [W]; [ClientLaws] states
    what the callers of the interface (mirror, proxy, controller) rely on, and the
    implementations discharge it. *)

From S2P Require Import Prelude GoStd Sha256.

(* [internal/hsm/client.go:27-27] *)
Definition SecretData : Type := gmap string string.

(* [internal/hsm/client.go:30-36] *)
Record HSMInfo := mkHSMInfo {
  i_Label : string;
  i_Manufacturer : string;
  i_Model : string;
  i_SerialNumber : string;
  i_FirmwareVersion : string;
}.

(** [Labels] is [None] when the Go map is nil. *)
(* [internal/hsm/client.go:39-46] *)
Record SecretMetadata := mkMetadata {
  m_Description : string;
  m_Labels : option (gmap string string);
  m_Format : string;
  m_DataType : string;
  m_CreatedAt : string;
  m_Source : string;
}.

#[global] Instance SecretMetadata_eq_dec : EqDecision SecretMetadata.
Proof. solve_decision. Defined.

(** [&hsm.SecretMetadata{Labels: labels}] *)
Definition labelled (labels : gmap string string) : SecretMetadata :=
  mkMetadata "" (Some labels) "" "" "" "".

(* [internal/hsm/client.go:50-50] *)
Definition LabelSyncVersion : string := "sync.version".
(* [internal/hsm/client.go:51-51] *)
Definition LabelSyncTimestamp : string := "sync.timestamp".
(* [internal/hsm/client.go:52-52] *)
Definition LabelSyncDeleted : string := "sync.deleted".

(** A label of a metadata pointer that may be nil, with a label map that may be nil. *)
Definition md_label (m : option SecretMetadata) (k : string) : option string :=
  match m with
  | Some md => match m_Labels md with Some ls => ls !! k | None => None end
  | None => None
  end.

(* [internal/hsm/client.go:56-67] *)
Definition MetadataVersion (m : option SecretMetadata) : Z :=
  match md_label m LabelSyncVersion with
  | Some v => default 0 (scan_int64 v)
  | None => 0
  end.

(* [internal/hsm/client.go:71-81] *)
Definition MetadataTimestamp (m : option SecretMetadata) : Z :=
  match md_label m LabelSyncTimestamp with
  | Some ts =>
      match parse_RFC3339 ts with
      | Some parsed => parsed
      | None => MetadataVersion m
      end
  | None => MetadataVersion m
  end.

(* [internal/hsm/client.go:84-89] *)
Definition MetadataDeleted (m : option SecretMetadata) : bool :=
  bool_decide (default "" (md_label m LabelSyncDeleted) = "true").

(** ** Client configuration *)

(** [PINProvider]; the second method is there for the Kubernetes provider only,
    which [ChangePIN] finds by a type assertion. *)
(* [internal/hsm/pin_provider.go:18-20] *)
Record PINProvider (W : Type) := mkPINProvider {
  GetPIN : ST W (result string);
  InvalidateCacheAfterPINChange : option (ST W unit);
}.
Arguments GetPIN {W}.
Arguments InvalidateCacheAfterPINChange {W}.

(** Durations are nanoseconds. *)
(* [internal/hsm/client.go:131-155] *)
Record Config (W : Type) := mkConfig {
  PKCS11LibraryPath : string;
  SlotID : Z;
  UseSlotID : bool;
  TokenLabel : string;
  ConnectionTimeout : Z;
  RetryAttempts : Z;
  RetryDelay : Z;
  cfg_PINProvider : option (PINProvider W);
}.
Arguments mkConfig {W}.
Arguments PKCS11LibraryPath {W}.
Arguments SlotID {W}.
Arguments UseSlotID {W}.
Arguments TokenLabel {W}.
Arguments ConnectionTimeout {W}.
Arguments RetryAttempts {W}.
Arguments RetryDelay {W}.
Arguments cfg_PINProvider {W}.

(* [internal/hsm/client.go:159-167] *)
Definition DefaultConfig {W} : Config W :=
  mkConfig "" 0 false "" (30 * Second) 3 (2 * Second) None.

(* [internal/hsm/client.go:189-193] *)
Record PKCS11Config := mkPKCS11Config {
  LibraryPath : string;
  SlotId : Z;
  cfg_TokenLabel : string;
}.

(** [uint(x)] of an int32 on a 64-bit platform. *)
Definition uint_of_int (x : Z) : Z := x mod 2 ^ 64.

(** [hsmDevice.PKCS11] is the pointer of [HSMDeviceSpec]. *)
(* [internal/hsm/client.go:170-181] *)
Definition ConfigFromHSMDevice {W} (pkcs11 : option PKCS11Config) (pinProvider : option (PINProvider W)) : Config W :=
  let config := DefaultConfig in
  match pkcs11 with
  | Some p =>
      mkConfig (LibraryPath p) (uint_of_int (SlotId p)) (UseSlotID (W := W) config) (cfg_TokenLabel p)
        (ConnectionTimeout (W := W) config) (RetryAttempts (W := W) config)
        (RetryDelay (W := W) config) pinProvider
  | None =>
      mkConfig (PKCS11LibraryPath (W := W) config) (SlotID (W := W) config) (UseSlotID (W := W) config)
        (TokenLabel (W := W) config) (ConnectionTimeout (W := W) config)
        (RetryAttempts (W := W) config) (RetryDelay (W := W) config) pinProvider
  end.

(** ** Checksums *)

(** [if keys[i] > keys[j] { keys[i], keys[j] = keys[j], keys[i] }] *)
(* [internal/hsm/client.go:208-210 CalculateChecksum] *)
Definition exchange (i : nat) (keys : list string) (j : nat) : list string :=
  match keys !! i, keys !! j with
  | Some a, Some b => if str_lt b a then <[j := a]> (<[i := b]> keys) else keys
  | _, _ => keys
  end.

(** The two nested loops: [i] from 0 to [len(keys)-2], [j] from [i+1] to [len(keys)-1]. *)
(* [internal/hsm/client.go:205-212 CalculateChecksum] *)
Definition exchange_sort (keys : list string) : list string :=
  let n := length keys in
  fold_left (λ keys i, fold_left (exchange i) (seq (S i) (n - S i)) keys) (seq 0 (n - 1)) keys.

(** What is written to the hash: for each key its bytes and the value's bytes. *)
(* [internal/hsm/client.go:214-217 CalculateChecksum] *)
Definition hash_input (data : SecretData) (keys : list string) : string :=
  fold_left (λ h key, h +:+ key +:+ default "" (data !! key)) keys "".

(* [internal/hsm/client.go:196-220] *)
Definition CalculateChecksum `{MapOrder} (data : SecretData) : string :=
  let keys := exchange_sort (range data).*1 in
  "sha256:" +:+ hex (sha256 (hash_input data keys)).

(** ** The client interface *)
(* [internal/hsm/client.go:92-128] *)
Record Client (W : Type) := mkClient {
  c_Initialize : Config W → ST W (result unit);
  c_Close : ST W (result unit);
  c_GetInfo : ST W (result HSMInfo);
  c_ReadSecret : string → ST W (result SecretData);
  c_WriteSecret : string → SecretData → option SecretMetadata → ST W (result unit);
  c_ReadMetadata : string → ST W (result (option SecretMetadata));
  c_DeleteSecret : string → ST W (result unit);
  c_DeleteSecretKey : string → string → ST W (result unit);
  c_ListSecrets : string → ST W (result (list string));
  c_GetChecksum : string → ST W (result string);
  c_IsConnected : ST W bool;
  c_ChangePIN : string → string → ST W (result unit);
}.
Arguments mkClient {W}.
Arguments c_Initialize {W}.
Arguments c_Close {W}.
Arguments c_GetInfo {W}.
Arguments c_ReadSecret {W}.
Arguments c_WriteSecret {W}.
Arguments c_ReadMetadata {W}.
Arguments c_DeleteSecret {W}.
Arguments c_DeleteSecretKey {W}.
Arguments c_ListSecrets {W}.
Arguments c_GetChecksum {W}.
Arguments c_IsConnected {W}.
Arguments c_ChangePIN {W}.

(** ** What a client promises

    The state of the devices is seen through two observations of the world: the
    secret data and the metadata a device (by serial number) holds at a path.  How a
    device lays its secrets out is part of the view: [overlaps p q] if an operation on
    the secret [p] may change the secret [q] as well, [storable p d] if data [d] written
    to [p] and [keepable m] if metadata [m] can be told apart again.  The mock client keeps its secrets in a
    map: an operation changes its own path only, and everything comes back as written.  The
    PKCS#11 client finds the objects of a secret by a prefix of their labels: an
    operation may change every secret whose path extends its own or is extended by it,
    keys such as [_metadata] are not storable, and metadata has to survive its encoding
    as JSON. *)
Class StoreView (W : Type) := {
  sec_at : W → string → string → option SecretData;
  md_at : W → string → string → option SecretMetadata;
  overlaps : string → string → Prop;
  storable : string → SecretData → Prop;
  keepable : SecretMetadata → Prop;
}.

Section ClientLaws.
Context {W : Type} `{!StoreView W}.

(** Metadata whose label map is not allocated but empty: such a map becomes nil on
    its way through a gRPC connection. *)
Definition stable_labels (m : SecretMetadata) : Prop := m_Labels m ≠ Some ∅.

(** No secret of any device changed. *)
Definition unchanged (w w' : W) : Prop :=
  ∀ s p, sec_at w' s p = sec_at w s p ∧ md_at w' s p = md_at w s p.

(** Nothing changed but, maybe, what device [s] holds at the paths that [p] overlaps. *)
Definition only_changed (s p : string) (w w' : W) : Prop :=
  ∀ s' p', s' ≠ s ∨ ¬ overlaps p p' → sec_at w' s' p' = sec_at w s' p' ∧ md_at w' s' p' = md_at w s' p'.

(** [c] is a client of device [s]: reads return what the device holds and change
    nothing, what is listed is held, a successful write of storable data is seen by
    later reads, and neither a successful nor a failed operation changes other
    devices or paths that its own path does not overlap. *)
Class ClientLaws (s : string) (c : Client W) : Prop := {
  IsConnected_unchanged w : unchanged w (c_IsConnected c w).2;
  GetInfo_unchanged w : unchanged w (c_GetInfo c w).2;
  Close_unchanged w : unchanged w (c_Close c w).2;
  ReadSecret_unchanged p w : unchanged w (c_ReadSecret c p w).2;
  ReadSecret_Ok p w d : (c_ReadSecret c p w).1 = Ok d → sec_at w s p = Some d;
  ReadMetadata_unchanged p w : unchanged w (c_ReadMetadata c p w).2;
  ReadMetadata_Ok p w md : (c_ReadMetadata c p w).1 = Ok md → md_at w s p = md;
  ListSecrets_unchanged pre w : unchanged w (c_ListSecrets c pre w).2;
  ListSecrets_Ok w l : (c_ListSecrets c "" w).1 = Ok l → ∀ p, p ∈ l → is_Some (sec_at w s p);
  GetChecksum_unchanged p w : unchanged w (c_GetChecksum c p w).2;
  WriteSecret_only p d md w : only_changed s p w (c_WriteSecret c p d md w).2;
  WriteSecret_Ok p d md w :
    storable p d → d ≠ ∅ ∨ is_Some md →
    (c_WriteSecret c p d md w).1 = Ok () →
    sec_at (c_WriteSecret c p d md w).2 s p = Some d ∧
    (∀ m, md = Some m → keepable m → md_at (c_WriteSecret c p d md w).2 s p = md);
  DeleteSecret_only p w : only_changed s p w (c_DeleteSecret c p w).2;
  DeleteSecret_Ok p w :
    (c_DeleteSecret c p w).1 = Ok () → sec_at (c_DeleteSecret c p w).2 s p = None;
  DeleteSecretKey_only p k w : only_changed s p w (c_DeleteSecretKey c p k w).2;
}.

#[global] Instance unchanged_PreOrder : PreOrder unchanged.
Proof.
  split; [by intros w s p|]. intros w1 w2 w3 H1 H2 s p.
  destruct (H1 s p), (H2 s p). split; congruence.
Qed.

#[global] Instance only_changed_PreOrder s p : PreOrder (only_changed s p).
Proof.
  split; [by intros w s' p'|]. intros w1 w2 w3 H1 H2 s' p' Hne.
  destruct (H1 s' p' Hne), (H2 s' p' Hne). split; congruence.
Qed.

Lemma unchanged_only s p w w' : unchanged w w' → only_changed s p w w'.
Proof. intros H s' p' _. apply H. Qed.

(** Nothing changed but, maybe, what the devices of [devs] hold at the paths that [p]
    overlaps. *)
Definition only_on (devs : list string) (p : string) (w w' : W) : Prop :=
  ∀ s' p', s' ∉ devs ∨ ¬ overlaps p p' → sec_at w' s' p' = sec_at w s' p' ∧ md_at w' s' p' = md_at w s' p'.

#[global] Instance only_on_PreOrder devs p : PreOrder (only_on devs p).
Proof.
  split; [by intros w s' p'|]. intros w1 w2 w3 H1 H2 s' p' Hne.
  destruct (H1 s' p' Hne), (H2 s' p' Hne). split; congruence.
Qed.

Lemma only_changed_on devs s p w w' : s ∈ devs → only_changed s p w w' → only_on devs p w w'.
Proof. intros Hs H s' p' [Hne|Hne]; apply H; [left; congruence|by right]. Qed.

Lemma unchanged_on devs p w w' : unchanged w w' → only_on devs p w w'.
Proof. intros H s' p' _. apply H. Qed.

Lemma only_on_mono devs devs' p w w' : devs ⊆ devs' → only_on devs p w w' → only_on devs' p w w'.
Proof. intros Hs H s' p' [Hne|Hne]; apply H; [left; set_solver|by right]. Qed.

(** The laws for a run with a named result and final world. *)
Lemma ReadSecret_run s c p w r w' :
  ClientLaws s c → c_ReadSecret c p w = (r, w') →
  unchanged w w' ∧ ∀ d, r = Ok d → sec_at w s p = Some d.
Proof.
  intros Hc E. pose proof (ReadSecret_unchanged p w) as H1. pose proof (ReadSecret_Ok p w) as H2.
  rewrite E in H1, H2. done.
Qed.

Lemma ReadMetadata_run s c p w r w' :
  ClientLaws s c → c_ReadMetadata c p w = (r, w') →
  unchanged w w' ∧ ∀ md, r = Ok md → md_at w s p = md.
Proof.
  intros Hc E. pose proof (ReadMetadata_unchanged p w) as H1. pose proof (ReadMetadata_Ok p w) as H2.
  rewrite E in H1, H2. done.
Qed.

Lemma WriteSecret_run s c p d md w r w' :
  ClientLaws s c → c_WriteSecret c p d (Some md) w = (r, w') →
  only_changed s p w w' ∧
  (storable p d → r = Ok () → sec_at w' s p = Some d ∧ (keepable md → md_at w' s p = Some md)).
Proof.
  intros Hc E. pose proof (WriteSecret_only p d (Some md) w) as H1.
  pose proof (WriteSecret_Ok p d (Some md) w) as H2. rewrite E in H1, H2. split; [done|].
  intros Hd ->. destruct H2 as [? H2]; [done|by eauto|done|]. split; [done|]. intros. by apply (H2 md).
Qed.

Lemma DeleteSecret_run s c p w r w' :
  ClientLaws s c → c_DeleteSecret c p w = (r, w') →
  only_changed s p w w' ∧ (r = Ok () → sec_at w' s p = None).
Proof.
  intros Hc E. pose proof (DeleteSecret_only p w) as H1. pose proof (DeleteSecret_Ok p w) as H2.
  by rewrite E in H1, H2.
Qed.

Lemma DeleteSecretKey_run s c p k w r w' :
  ClientLaws s c → c_DeleteSecretKey c p k w = (r, w') → only_changed s p w w'.
Proof. intros Hc E. pose proof (DeleteSecretKey_only p k w) as H1. by rewrite E in H1. Qed.

Lemma preserves_unchanged_only {A} (m : ST W A) s p :
  preserves unchanged m → preserves (only_changed s p) m.
Proof. intros H w. apply unchanged_only, H. Qed.
End ClientLaws.
#[export] Hint Resolve IsConnected_unchanged GetInfo_unchanged Close_unchanged ReadSecret_unchanged
  ReadMetadata_unchanged ListSecrets_unchanged GetChecksum_unchanged WriteSecret_only
  DeleteSecret_only DeleteSecretKey_only : go.

(** ** Lemmas: the exchange sort *)
Lemma exchange_perm i keys j : exchange i keys j ≡ₚ keys.
Proof.
  unfold exchange. destruct (keys !! i) as [a|] eqn:Ha, (keys !! j) as [b|] eqn:Hb; try done.
  destruct (str_lt b a) eqn:E; [|done].
  assert (i ≠ j) as Hij by (intros ->; rewrite Ha in Hb; injection Hb as ->; by rewrite str_lt_irrefl in E).
  apply Permutation_inj. split; [by rewrite !length_insert|].
  exists (λ k, if decide (k = i) then j else if decide (k = j) then i else k). split.
  - intros x y. repeat case_decide; congruence.
  - intros k. apply lookup_lt_Some in Ha as Hi. apply lookup_lt_Some in Hb as Hj.
    destruct (decide (k = i)) as [->|Hki]; [|destruct (decide (k = j)) as [->|Hkj]].
    + rewrite list_lookup_insert_ne, list_lookup_insert_eq by done. done.
    + rewrite list_lookup_insert_eq by (by rewrite length_insert). done.
    + by rewrite !list_lookup_insert_ne.
Qed.

Lemma exchange_lookup_ne i keys j k : k ≠ i → k ≠ j → exchange i keys j !! k = keys !! k.
Proof.
  intros Hi Hj. unfold exchange. destruct (keys !! i), (keys !! j); try done.
  destruct (str_lt _ _); [|done]. by rewrite !list_lookup_insert_ne.
Qed.

(** Positions [a < b] with [a] in front of position [i] are in order. *)
Definition ordered_below (i : nat) (keys : list string) : Prop :=
  ∀ a b x y, (a < i)%nat → (a < b)%nat → keys !! a = Some x → keys !! b = Some y → String.le x y.

(** Position [i] is no greater than the positions from [S i] to [j - 1]. *)
Definition least_upto (i j : nat) (keys : list string) : Prop :=
  ∀ b x y, (i < b < j)%nat → keys !! i = Some x → keys !! b = Some y → String.le x y.

Lemma exchange_lookup_from i keys j b y :
  (i < j)%nat → (i ≤ b)%nat → exchange i keys j !! b = Some y →
  ∃ c, (i ≤ c)%nat ∧ keys !! c = Some y.
Proof.
  intros Hij Hb. unfold exchange.
  destruct (keys !! i) as [u|] eqn:Hu, (keys !! j) as [v|] eqn:Hv; try by (intros; exists b).
  destruct (str_lt v u); [|by intros; exists b].
  intros [(->&<-&_)|(?&Hy)]%list_lookup_insert_Some; [by exists i|].
  apply list_lookup_insert_Some in Hy as [(->&<-&_)|(?&?)]; [|by exists b]. exists j. split; [lia|done].
Qed.

Lemma exchange_ordered i keys j :
  (i < j)%nat → ordered_below i keys → ordered_below i (exchange i keys j).
Proof.
  intros Hij Ho a b x y Ha Hab Hx Hy.
  rewrite exchange_lookup_ne in Hx by lia.
  destruct (decide (b < i)%nat) as [Hb|Hb].
  - rewrite exchange_lookup_ne in Hy by lia. by apply (Ho a b).
  - destruct (exchange_lookup_from i keys j b y) as (c & Hc & Hyc); [lia|lia|done|].
    apply (Ho a c); [done|lia|done|done].
Qed.

Lemma exchange_least i keys j :
  (i < j)%nat → least_upto i j keys → least_upto i (S j) (exchange i keys j).
Proof.
  intros Hij Hl b x y Hb. unfold exchange.
  destruct (keys !! i) as [u|] eqn:Hu; [|congruence].
  destruct (keys !! j) as [v|] eqn:Hv.
  2:{ intros Hx Hy. destruct (decide (b = j)) as [->|]; [congruence|]. apply (Hl b); [lia|congruence|done]. }
  destruct (str_lt v u) eqn:E.
  - assert (i < length keys)%nat by by eapply lookup_lt_Some.
    assert (j < length keys)%nat by by eapply lookup_lt_Some.
    rewrite list_lookup_insert_ne, list_lookup_insert_eq by lia.
    intros [= <-]. destruct (decide (b = j)) as [->|Hne].
    + rewrite list_lookup_insert_eq by (rewrite length_insert; lia). intros [= <-].
      by apply str_lt_true_le.
    + rewrite !list_lookup_insert_ne by lia. intros Hy.
      apply str_lt_true_le in E as [E _]. etrans; [exact E|]. apply (Hl b); [lia|done|done].
  - intros Hx Hy. destruct (decide (b = j)) as [->|Hne]; [|apply (Hl b); [lia|congruence|done]].
    apply str_lt_le in E. congruence.
Qed.

Lemma inner_loop i keys m k :
  (i < k)%nat → ordered_below i keys → least_upto i k keys →
  let keys' := fold_left (exchange i) (seq k m) keys in
  keys' ≡ₚ keys ∧ ordered_below i keys' ∧ least_upto i (k + m) keys'.
Proof.
  revert keys k. induction m as [|m IH]; intros keys k Hk Ho Hl; simpl.
  { rewrite Nat.add_0_r. done. }
  destruct (IH (exchange i keys k) (S k)) as (Hp & Ho' & Hl'); [lia| | |].
  - apply exchange_ordered; [lia|done].
  - apply exchange_least; [lia|done].
  - rewrite Nat.add_succ_r. split_and!; [|done|done]. by rewrite Hp, exchange_perm.
Qed.

Lemma outer_loop keys n m i :
  n = length keys → (i + m = n - 1)%nat → ordered_below i keys →
  let keys' := fold_left (λ keys i, fold_left (exchange i) (seq (S i) (n - S i)) keys) (seq i m) keys in
  keys' ≡ₚ keys ∧ ordered_below (i + m) keys'.
Proof.
  revert keys i. induction m as [|m IH]; intros keys i Hn Him Ho; simpl.
  { rewrite Nat.add_0_r. done. }
  destruct (inner_loop i keys (n - S i) (S i)) as (Hp & Ho' & Hl'); [lia|done|intros b x y; lia|].
  set (keys1 := fold_left (exchange i) (seq (S i) (n - S i)) keys) in *.
  assert (length keys1 = n) as Hlen by by rewrite Hp.
  destruct (IH keys1 (S i)) as (Hp2 & Ho2); [by rewrite Hlen|lia| |].
  - intros a b x y Ha Hab Hx Hy. destruct (decide (a = i)) as [->|]; [|apply (Ho' a b); [lia|done..]].
    apply (Hl' b); [|done|done]. apply lookup_lt_Some in Hy. lia.
  - rewrite Nat.add_succ_r. split; [by rewrite Hp2|done].
Qed.

Lemma ordered_below_Sorted keys : ordered_below (length keys - 1) keys → Sorted String.le keys.
Proof.
  induction keys as [|x keys IH]; intros Ho; [constructor|]. constructor.
  - apply IH. intros a b u v Ha Hab Hu Hv. apply (Ho (S a) (S b)); simpl; [lia|lia|done|done].
  - destruct keys as [|y keys]; constructor. apply (Ho 0%nat 1%nat); simpl; [lia|lia|done|done].
Qed.

Lemma exchange_sort_sorts keys : exchange_sort keys = sort_Strings keys.
Proof.
  unfold exchange_sort. destruct (outer_loop keys (length keys) (length keys - 1) 0) as [Hp Ho];
    [done|lia|intros a b x y; lia|].
  apply sort_Strings_unique; [|done]. apply ordered_below_Sorted.
  by rewrite (Permutation_length Hp).
Qed.

(** ** Lemmas: checksums *)

(** The keys of a map, sorted: what every checksum and listing of the program uses. *)
Definition sorted_keys (data : SecretData) : list string := sort_Strings (map_to_list data).*1.

Lemma range_keys_sorted `{MapOrder} (data : SecretData) :
  sort_Strings (range data).*1 = sorted_keys data.
Proof. apply sort_Strings_proper. by rewrite range_perm. Qed.

(** The digest all the checksums are built from. *)
Definition content_digest (data : SecretData) : string :=
  hex (sha256 (hash_input data (sorted_keys data))).

Lemma CalculateChecksum_eq `{MapOrder} data : CalculateChecksum data = "sha256:" +:+ content_digest data.
Proof. unfold CalculateChecksum, content_digest. by rewrite exchange_sort_sorts, range_keys_sorted. Qed.

(** ** Lemmas: metadata *)
Lemma md_label_labelled (ls : gmap string string) k : md_label (Some (labelled ls)) k = ls !! k.
Proof. done. Qed.

Lemma MetadataVersion_stamped (ls : gmap string string) n :
  in_int64 n → ls !! LabelSyncVersion = Some (go_itoa n) → MetadataVersion (Some (labelled ls)) = n.
Proof. intros Hn Hl. unfold MetadataVersion. by rewrite md_label_labelled, Hl, scan_itoa. Qed.

Lemma MetadataVersion_range m : in_int64 (MetadataVersion m).
Proof.
  unfold MetadataVersion. destruct (md_label m _) as [v|]; [|done].
  destruct (scan_int64 v) as [z|] eqn:E; [|done]. by eapply scan_int64_range.
Qed.

(** ** Properties *)

(** The hand-written exchange sort of [CalculateChecksum] is [sort.Strings]
    for every slice: nested loops and in-place swaps included. *)
Theorem exchange_sort_correct (keys : list string) :
  exchange_sort keys = sort_Strings keys.
Proof. apply exchange_sort_sorts. Qed.

(** The checksum depends on the secret data only, not on the order in which
    Go ranges over the map, and it never collides with the tombstone vote. *)
Theorem CalculateChecksum_deterministic (o1 o2 : MapOrder) (data : SecretData) :
  @CalculateChecksum o1 data = @CalculateChecksum o2 data ∧
  @CalculateChecksum o1 data ≠ "__deleted__".
Proof.
  rewrite !CalculateChecksum_eq. split; [done|]. intros [=].
Qed.

(** Sync labels round-trip: metadata stamped with a version and a time
    (years 0 to 9999) reads back exactly that version and that instant, whatever
    the other labels are. *)
Theorem metadata_roundtrip (ls : gmap string string) (n : Z) (t : Time) :
  in_int64 n →
  -62167219200 ≤ t_unix t + 60 * t_offset t < 253402300800 → Z.abs (t_offset t) < 1500 →
  let md := Some (labelled (<[LabelSyncTimestamp := format_RFC3339 t]>
                             (<[LabelSyncVersion := go_itoa n]> ls))) in
  MetadataVersion md = n ∧ MetadataTimestamp md = t_unix t.
Proof.
  intros Hn Hr Ho md. split.
  - apply (MetadataVersion_stamped _ n Hn).
    rewrite lookup_insert_ne by done. by rewrite lookup_insert_eq.
  - unfold MetadataTimestamp, md. rewrite md_label_labelled, lookup_insert_eq.
    by rewrite parse_format_RFC3339.
Qed.

(** ** Witnesses *)
Example metadata_roundtrip_witness :
  MetadataVersion (Some (labelled (<[LabelSyncTimestamp := format_RFC3339 (mkTime 1767225600 (-300))]>
                             (<[LabelSyncVersion := go_itoa 42]> ∅)))) = 42.
Proof. refine (proj1 (metadata_roundtrip ∅ 42 (mkTime 1767225600 (-300)) _ _ _)); simpl; unfold in_int64, int64_min, int64_max; lia. Defined.

(** A counterexample to injectivity: keys and values are written without
    delimiters, so different secrets can have the same checksum. *)
Example CalculateChecksum_collision :
  @CalculateChecksum listed_order {["a" := "b"]} = @CalculateChecksum listed_order {["ab" := ""]}.
Proof.
  rewrite !CalculateChecksum_eq. unfold content_digest.
  assert (hash_input {["a" := "b"]} (sorted_keys {["a" := "b"]}) =
          hash_input {["ab" := ""]} (sorted_keys {["ab" := ""]})) as Heq by (vm_compute; reflexivity).
  by rewrite Heq.
Qed.
