(* ===== verification/MockClient.v ===== *)
(** * internal/hsm/mock_client.go: the in-memory client

    The methods are state transformers of the record [MockClient] (the mutex makes
    each of them atomic).  [lift_client] embeds a client of one device in a world
    that holds several; the fleet of mock devices satisfies [ClientLaws], so what is
    proved of the callers against the interface holds of it. *)

From S2P Require Import Prelude GoStd Sha256 Hsm.

(** The configuration is stored and never read; the PIN provider it refers to is
    left out of the stored value. *)
(* [internal/hsm/mock_client.go:35-45] *)
Record MockClient := mkMock {
  mc_connected : bool;
  mc_tokenLost : bool;
  mc_secrets : gmap string SecretData;
  mc_metadata : gmap string SecretMetadata;
  mc_config : Config unit;
}.

Definition erase_provider {W} (c : Config W) : Config unit :=
  mkConfig (PKCS11LibraryPath c) (SlotID c) (UseSlotID c) (TokenLabel c)
    (ConnectionTimeout c) (RetryAttempts c) (RetryDelay c) None.

Module Mock.
(* [internal/hsm/mock_client.go:30-30] *)
Definition keyUsername : string := "username".
(* [internal/hsm/mock_client.go:31-31] *)
Definition keyPassword : string := "password".

(* [internal/hsm/mock_client.go:50-54] *)
Definition SetTokenPresent (present : bool) (m : MockClient) : MockClient :=
  mkMock (mc_connected m) (negb present) (mc_secrets m) (mc_metadata m) (mc_config m).

(* [internal/hsm/mock_client.go:57-63] *)
Definition NewMockClient : MockClient :=
  mkMock false false ∅ ∅ (mkConfig "" 0 false "" 0 0 0 None).

(* [internal/hsm/mock_client.go:66-88] *)
Definition Initialize {W} (config : Config W) : ST MockClient (result unit) := λ m,
  (Ok (),
   mkMock true (mc_tokenLost m)
     (<["secrets/production/database-credentials" :=
          <["host" := "db.example.com"]> (<[keyUsername := "produser"]>
          (<[keyPassword := "prod-secret-password"]> (<["database" := "application"]> ∅)))]>
      (<["secrets/default/test-secret" :=
          <[keyUsername := "testuser"]> (<[keyPassword := "testpass123"]> ∅)]>
       (mc_secrets m)))
     (mc_metadata m) (erase_provider config)).

(* [internal/hsm/mock_client.go:91-98] *)
Definition Close : ST MockClient (result unit) := λ m,
  (Ok (), mkMock false (mc_tokenLost m) (mc_secrets m) (mc_metadata m) (mc_config m)).

(* [internal/hsm/mock_client.go:101-119] *)
Definition GetInfo : ST MockClient (result HSMInfo) := λ m,
  if negb (mc_connected m) then (Err (errorf "HSM not connected"), m)
  else if mc_tokenLost m then (Err (wrapf "mock token gone" ErrTokenNotPresent), m)
  else (Ok (mkHSMInfo "Mock HSM Token" "Test Manufacturer" "Mock HSM v1.0" "MOCK123456" "1.0.0"), m).

(* [internal/hsm/mock_client.go:122-144] *)
Definition ReadSecret (path : string) : ST MockClient (result SecretData) := λ m,
  if negb (mc_connected m) then (Err (errorf "HSM not connected"), m)
  else match mc_secrets m !! path with
       | None => (Err (errorf ("secret not found at path: " +:+ path)), m)
       | Some data => (Ok data, m)
       end.

(* [internal/hsm/mock_client.go:147-171] *)
Definition WriteSecret (path : string) (data : SecretData) (metadata : option SecretMetadata)
    : ST MockClient (result unit) := λ m,
  if negb (mc_connected m) then (Err (errorf "HSM not connected"), m)
  else
    let secrets := <[path := data]> (mc_secrets m) in
    let md := match metadata with
              | Some x => <[path := x]> (mc_metadata m)
              | None => mc_metadata m
              end in
    (Ok (), mkMock (mc_connected m) (mc_tokenLost m) secrets md (mc_config m)).

(* [internal/hsm/mock_client.go:174-188] *)
Definition ReadMetadata (path : string) : ST MockClient (result (option SecretMetadata)) := λ m,
  if negb (mc_connected m) then (Err (errorf "HSM not connected"), m)
  else match mc_metadata m !! path with
       | None => (Err (errorf ("metadata not found for path: " +:+ path)), m)
       | Some md => (Ok (Some md), m)
       end.

(* [internal/hsm/mock_client.go:191-207] *)
Definition DeleteSecret (path : string) : ST MockClient (result unit) := λ m,
  if negb (mc_connected m) then (Err (errorf "HSM not connected"), m)
  else match mc_secrets m !! path with
       | None => (Err (errorf ("secret not found at path: " +:+ path)), m)
       | Some _ =>
           (Ok (), mkMock (mc_connected m) (mc_tokenLost m) (delete path (mc_secrets m))
                     (delete path (mc_metadata m)) (mc_config m))
       end.

(* [internal/hsm/mock_client.go:210-230] *)
Definition DeleteSecretKey (path key : string) : ST MockClient (result unit) := λ m,
  if negb (mc_connected m) then (Err (errorf "HSM not connected"), m)
  else match mc_secrets m !! path with
       | None => (Err (errorf ("secret not found at path: " +:+ path)), m)
       | Some data =>
           match data !! key with
           | None => (Err (errorf ("key " +:+ quoted key +:+ " not found in secret " +:+ quoted path)), m)
           | Some _ =>
               (Ok (), mkMock (mc_connected m) (mc_tokenLost m)
                         (<[path := delete key data]> (mc_secrets m)) (mc_metadata m) (mc_config m))
           end
       end.

Section Ordered.
Context `{MapOrder}.

(* [internal/hsm/mock_client.go:233-251] *)
Definition ListSecrets (prefix : string) : ST MockClient (result (list string)) := λ m,
  if negb (mc_connected m) then (Err (errorf "HSM not connected"), m)
  else (Ok (filter (λ path, has_prefix path prefix = true) (range (mc_secrets m)).*1), m).

(* [internal/hsm/mock_client.go:254-265] *)
Definition GetChecksum (path : string) : ST MockClient (result string) :=
  st_try (ReadSecret path) (wrapf "failed to read secret for checksum")
    (λ data, st_ret (Ok (CalculateChecksum data))).
End Ordered.

(* [internal/hsm/mock_client.go:268-273] *)
Definition IsConnected : ST MockClient bool := λ m, (mc_connected m, m).

(* [internal/hsm/mock_client.go:276-286] *)
Definition AddSecret (path : string) (data : SecretData) (m : MockClient) : MockClient :=
  mkMock (mc_connected m) (mc_tokenLost m) (<[path := data]> (mc_secrets m)) (mc_metadata m) (mc_config m).

(* [internal/hsm/mock_client.go:289-316] *)
Definition ChangePIN (oldPIN newPIN : string) : ST MockClient (result unit) := λ m,
  if negb (mc_connected m) then (Err (errorf "HSM not connected"), m)
  else if bool_decide (oldPIN = "") then (Err (errorf "old PIN cannot be empty"), m)
  else if bool_decide (newPIN = "") then (Err (errorf "new PIN cannot be empty"), m)
  else if bool_decide (oldPIN = newPIN) then (Err (errorf "new PIN must be different from old PIN"), m)
  else if bool_decide (oldPIN ≠ "123456") then (Err (errorf "old PIN is incorrect"), m)
  else (Ok (), m).

(* [internal/hsm/mock_client.go:319-333] *)
Definition GetAllSecrets (m : MockClient) : gmap string SecretData := mc_secrets m.

Definition client `{MapOrder} : Client MockClient :=
  mkClient Initialize Close GetInfo ReadSecret WriteSecret ReadMetadata DeleteSecret
    DeleteSecretKey ListSecrets GetChecksum IsConnected ChangePIN.
End Mock.

(** ** A client of one device in a world of several *)

Definition lift_client {V W} (get : W → V) (put : V → W → W) (c : Client V) : Client W :=
  mkClient
    (λ cfg, lift_st get put (c_Initialize c
       (mkConfig (PKCS11LibraryPath cfg) (SlotID cfg) (UseSlotID cfg) (TokenLabel cfg)
          (ConnectionTimeout cfg) (RetryAttempts cfg) (RetryDelay cfg) None)))
    (lift_st get put (c_Close c)) (lift_st get put (c_GetInfo c))
    (λ p, lift_st get put (c_ReadSecret c p)) (λ p d md, lift_st get put (c_WriteSecret c p d md))
    (λ p, lift_st get put (c_ReadMetadata c p)) (λ p, lift_st get put (c_DeleteSecret c p))
    (λ p k, lift_st get put (c_DeleteSecretKey c p k)) (λ pre, lift_st get put (c_ListSecrets c pre))
    (λ p, lift_st get put (c_GetChecksum c p)) (lift_st get put (c_IsConnected c))
    (λ o n, lift_st get put (c_ChangePIN c o n)).

(** A fleet: one mock device per serial number. *)
Definition Fleet : Type := gmap string MockClient.

#[global] Instance fleet_view : StoreView Fleet := {|
  sec_at w s p := match w !! s with Some m => mc_secrets m !! p | None => None end;
  md_at w s p := match w !! s with Some m => mc_metadata m !! p | None => None end;
  overlaps p q := p = q;
  storable _ _ := True;
  keepable _ := True;
|}.

Definition fleet_get (s : string) (w : Fleet) : MockClient := default Mock.NewMockClient (w !! s).
Definition fleet_put (s : string) (m : MockClient) (w : Fleet) : Fleet := <[s := m]> w.
Definition mock_of `{MapOrder} (s : string) : Client Fleet :=
  lift_client (fleet_get s) (fleet_put s) Mock.client.

(** ** Lemmas: the fleet *)
Lemma fleet_sec s w p : sec_at w s p = mc_secrets (fleet_get s w) !! p.
Proof. simpl. unfold fleet_get. by destruct (w !! s). Qed.

Lemma fleet_md s w p : md_at w s p = mc_metadata (fleet_get s w) !! p.
Proof. simpl. unfold fleet_get. by destruct (w !! s). Qed.

Lemma fleet_sec_put s m w s' p :
  sec_at (fleet_put s m w) s' p = if decide (s = s') then mc_secrets m !! p else sec_at w s' p.
Proof.
  cbn [sec_at md_at fleet_view]. unfold fleet_put, Fleet in *.
  case_decide as Hd; [subst; by rewrite lookup_insert_eq|]. by rewrite lookup_insert_ne.
Qed.

Lemma fleet_md_put s m w s' p :
  md_at (fleet_put s m w) s' p = if decide (s = s') then mc_metadata m !! p else md_at w s' p.
Proof.
  cbn [sec_at md_at fleet_view]. unfold fleet_put, Fleet in *.
  case_decide as Hd; [subst; by rewrite lookup_insert_eq|]. by rewrite lookup_insert_ne.
Qed.

(** The stores agree everywhere, respectively everywhere but at [p]. *)
Definition mock_same (m m' : MockClient) : Prop :=
  mc_secrets m' = mc_secrets m ∧ mc_metadata m' = mc_metadata m.
Definition mock_only (p : string) (m m' : MockClient) : Prop :=
  ∀ p', p' ≠ p → mc_secrets m' !! p' = mc_secrets m !! p' ∧ mc_metadata m' !! p' = mc_metadata m !! p'.

Lemma lift_unchanged {A} s (o : ST MockClient A) w :
  mock_same (fleet_get s w) (o (fleet_get s w)).2 →
  unchanged w (lift_st (fleet_get s) (fleet_put s) o w).2.
Proof.
  unfold lift_st. destruct (o (fleet_get s w)) as [a m]. intros [H1 H2] s' p. cbn [snd] in *.
  rewrite fleet_sec_put, fleet_md_put. case_decide; [subst|done].
  by rewrite fleet_sec, fleet_md, H1, H2.
Qed.

Lemma lift_only {A} s p (o : ST MockClient A) w :
  mock_only p (fleet_get s w) (o (fleet_get s w)).2 →
  only_changed s p w (lift_st (fleet_get s) (fleet_put s) o w).2.
Proof.
  unfold lift_st. destruct (o (fleet_get s w)) as [a m]. intros H s' p' Hne. cbn [snd] in *.
  rewrite fleet_sec_put, fleet_md_put. case_decide; [subst|done].
  rewrite fleet_sec, fleet_md. apply H. destruct Hne as [?|Hne]; [congruence|]. intros ->. by apply Hne.
Qed.

Lemma lift_eq {A} s (o : ST MockClient A) w :
  lift_st (fleet_get s) (fleet_put s) o w = ((o (fleet_get s w)).1, fleet_put s (o (fleet_get s w)).2 w).
Proof. unfold lift_st. by destruct (o _). Qed.

(** Case analysis on the guards of a mock operation. *)
Ltac mock_cases :=
  repeat match goal with
  | |- context [negb (mc_connected ?m)] => destruct (mc_connected m) eqn:?; simpl
  | |- context [match ?x with _ => _ end] => destruct x eqn:?; simpl
  end.

(** Expose the mock operation behind a method of [mock_of s]. *)
Ltac mock_op :=
  unfold mock_of, lift_client;
  cbn [c_ReadSecret c_ReadMetadata c_ListSecrets c_WriteSecret c_DeleteSecret];
  rewrite lift_eq; cbn [fst snd]; simpl c_ReadSecret; simpl c_ReadMetadata;
  simpl c_ListSecrets; simpl c_WriteSecret; simpl c_DeleteSecret.

#[global] Instance mock_laws `{MapOrder} s : ClientLaws s (mock_of s).
Proof.
  split.
  - intros w. by apply lift_unchanged.
  - intros w. apply lift_unchanged. simpl. unfold Mock.GetInfo. by mock_cases.
  - intros w. by apply lift_unchanged.
  - intros p w. apply lift_unchanged. simpl. unfold Mock.ReadSecret. by mock_cases.
  - intros p w d. rewrite fleet_sec. mock_op. unfold Mock.ReadSecret. mock_cases; naive_solver.
  - intros p w. apply lift_unchanged. simpl. unfold Mock.ReadMetadata. by mock_cases.
  - intros p w md. rewrite fleet_md. mock_op. unfold Mock.ReadMetadata. mock_cases; naive_solver.
  - intros pre w. apply lift_unchanged. simpl. unfold Mock.ListSecrets. by mock_cases.
  - intros w l Hl p. rewrite fleet_sec. revert Hl. mock_op. unfold Mock.ListSecrets.
    mock_cases; [|done]. intros [= <-]. rewrite list_elem_of_filter, elem_of_range_keys. by intros [_ ?].
  - intros p w. apply lift_unchanged. simpl. unfold Mock.GetChecksum, Mock.ReadSecret. st_step.
    destruct (mc_connected _); simpl; [|done]. by destruct (mc_secrets _ !! p).
  - intros p d md w. apply lift_only. simpl. unfold Mock.WriteSecret. intros p' Hp.
    mock_cases; simplify_map_eq; done.
  - intros p d md w _ _. mock_op.
    rewrite fleet_sec_put, fleet_md_put, !decide_True by done. simpl. unfold Mock.WriteSecret.
    mock_cases; simplify_map_eq; done.
  - intros p w. apply lift_only. simpl. unfold Mock.DeleteSecret. intros p' Hp.
    mock_cases; simplify_map_eq; done.
  - intros p w. mock_op.
    rewrite fleet_sec_put, !decide_True by done. simpl. unfold Mock.DeleteSecret.
    mock_cases; simplify_map_eq; done.
  - intros p k w. apply lift_only. simpl. unfold Mock.DeleteSecretKey. intros p' Hp.
    mock_cases; simplify_map_eq; done.
Qed.

(** ** Properties *)

(** The mock client keeps the contract of the client interface: in a fleet of
    mock devices, the client of device [s] satisfies every law of [ClientLaws]. *)
Theorem mock_implements_client (o : MapOrder) (s : string) : ClientLaws s (mock_of s).
Proof. apply mock_laws. Qed.

(** Read after write and read after delete on the mock client: what was
    written is read back, data, metadata and checksum; after a delete both reads
    fail with the not-found errors. *)
Theorem mock_roundtrip (o : MapOrder) (m : MockClient) (path : string) (data : SecretData)
    (md : SecretMetadata) :
  mc_connected m = true →
  let m1 := (Mock.WriteSecret path data (Some md) m).2 in
  let m2 := (Mock.DeleteSecret path m1).2 in
  Mock.ReadSecret path m1 = (Ok data, m1) ∧ Mock.ReadMetadata path m1 = (Ok (Some md), m1) ∧
  Mock.GetChecksum path m1 = (Ok (CalculateChecksum data), m1) ∧
  Mock.ReadSecret path m2 = (Err (errorf ("secret not found at path: " +:+ path)), m2) ∧
  Mock.ReadMetadata path m2 = (Err (errorf ("metadata not found for path: " +:+ path)), m2).
Proof.
  intros Hc. unfold Mock.GetChecksum, Mock.WriteSecret, Mock.DeleteSecret, Mock.ReadSecret,
    Mock.ReadMetadata, st_try, st_bind, st_ret.
  destruct m as [c tl secrets metadata cfg]. simpl in Hc. subst c. simpl.
  rewrite !lookup_insert_eq. simpl. rewrite !lookup_delete_eq. done.
Qed.

Example mock_roundtrip_witness :
  Mock.ReadSecret "app" (Mock.WriteSecret "app" {["k" := "v"]} (Some (labelled ∅))
    (mkMock true false ∅ ∅ (mkConfig "" 0 false "" 0 0 0 None))).2 =
  (Ok {["k" := "v"]}, (Mock.WriteSecret "app" {["k" := "v"]} (Some (labelled ∅))
    (mkMock true false ∅ ∅ (mkConfig "" 0 false "" 0 0 0 None))).2).
Proof. refine (proj1 (mock_roundtrip listed_order _ "app" {["k" := "v"]} (labelled ∅) _)). reflexivity. Defined.

(** ** A client in a world with a second component *)
Section Beside.
Context {U V : Type} `{!StoreView V}.
#[global] Instance snd_view : StoreView (U * V) :=
  {| sec_at x := sec_at x.2; md_at x := md_at x.2; overlaps := overlaps (W := V); storable := storable (W := V);
     keepable := keepable (W := V) |}.
Definition beside (c : Client V) : Client (U * V) := lift_client snd (λ v x, (x.1, v)) c.

Lemma lift_beside {A} (m : ST V A) (x : U * V) : lift_st snd (λ v (x : U * V), (x.1, v)) m x = ((m x.2).1, (x.1, (m x.2).2)).
Proof. unfold lift_st. by destruct (m x.2). Qed.

#[global] Instance beside_laws s c : ClientLaws s c → ClientLaws s (beside c).
Proof.
  intros Hc. split; unfold beside, lift_client;
    cbn [c_IsConnected c_GetInfo c_Close c_ReadSecret c_ReadMetadata c_ListSecrets c_GetChecksum c_WriteSecret c_DeleteSecret c_DeleteSecretKey];
    intros; rewrite ?lift_beside in *.
  - intros s' p'. apply (IsConnected_unchanged (c := c)).
  - intros s' p'. apply (GetInfo_unchanged (c := c)).
  - intros s' p'. apply (Close_unchanged (c := c)).
  - intros s' p'. apply (ReadSecret_unchanged (c := c)).
  - by apply (ReadSecret_Ok (c := c)).
  - intros s' p'. apply (ReadMetadata_unchanged (c := c)).
  - by apply (ReadMetadata_Ok (c := c)).
  - intros s' p'. apply (ListSecrets_unchanged (c := c)).
  - by eapply (ListSecrets_Ok (c := c)).
  - intros s' p'. apply (GetChecksum_unchanged (c := c)).
  - intros s' p' Hne. by apply (WriteSecret_only (c := c)).
  - by apply (WriteSecret_Ok (c := c)).
  - intros s' p' Hne. by apply (DeleteSecret_only (c := c)).
  - by apply (DeleteSecret_Ok (c := c)).
  - intros s' p' Hne. by apply (DeleteSecretKey_only (c := c)).
Qed.
End Beside.
