(* ===== verification/Api.v ===== *)
(** * api/v1alpha1: the custom resources

    The Go structs as records, the string-typed enumerations as strings.  A pointer
    or an optional field that may be nil is an [option]; [metav1.Time] is a [Time];
    a [metav1.Duration] is its number of nanoseconds.  Of [metav1.ObjectMeta] the
    record keeps the fields the controllers use. *)

From S2P Require Import Prelude GoStd.

Record OwnerReference := mkOwnerRef {
  or_APIVersion : string;
  or_Kind : string;
  or_Name : string;
  or_UID : string;
  or_Controller : bool;
}.

Record ObjectMeta := mkObjectMeta {
  om_Name : string;
  om_Namespace : string;
  om_UID : string;
  om_ResourceVersion : Z;
  om_Labels : gmap string string;
  om_Annotations : gmap string string;
  om_Finalizers : list string;
  om_DeletionTimestamp : option Time;
  om_OwnerReferences : list OwnerReference;
  om_CreationTimestamp : Time;
  om_Generation : Z;
}.

(** ** hsmdevice_types.go *)
(* [api/v1alpha1/hsmdevice_types.go:27-37] *)
Record USBDeviceSpec := mkUSBDeviceSpec {
  us_VendorID : string;
  us_ProductID : string;
  us_SerialNumber : string;
}.

(* [api/v1alpha1/hsmdevice_types.go:40-47] *)
Record DevicePathSpec := mkDevicePathSpec {
  dp_Path : string;
  dp_Permissions : string;
}.

(* [api/v1alpha1/hsmdevice_types.go:54-54] *)
Definition HSMDeviceTypePicoHSM : string := "PicoHSM".
(* [api/v1alpha1/hsmdevice_types.go:56-56] *)
Definition HSMDeviceTypeSmartCardHSM : string := "SmartCard-HSM".
(* [api/v1alpha1/hsmdevice_types.go:58-58] *)
Definition HSMDeviceTypeGeneric : string := "Generic".

(* [api/v1alpha1/hsmdevice_types.go:66-66] *)
Definition MirroringPolicyNone : string := "None".
(* [api/v1alpha1/hsmdevice_types.go:68-68] *)
Definition MirroringPolicyReadOnly : string := "ReadOnly".
(* [api/v1alpha1/hsmdevice_types.go:70-70] *)
Definition MirroringPolicyActive : string := "Active".

(* [api/v1alpha1/hsmdevice_types.go:74-98] *)
Record MirroringSpec := mkMirroringSpec {
  ms_Policy : string;
  ms_SyncInterval : Z;
  ms_TargetNodes : list string;
  ms_PrimaryNode : string;
  ms_AutoFailover : bool;
}.

(* [api/v1alpha1/hsmdevice_types.go:130-140] *)
Record SecretKeySelector := mkSecretKeySelector {
  sk_Name : string;
  sk_Key : string;
  sk_Namespace : string;
}.

(* [api/v1alpha1/hsmdevice_types.go:101-127 PKCS11Config] *)
Record DevicePKCS11Config := mkDevicePKCS11Config {
  pk_LibraryPath : string;
  pk_SlotId : Z;
  pk_PinSecret : option SecretKeySelector;
  pk_TokenLabel : string;
  pk_AutoProvision : bool;
}.

(* [api/v1alpha1/hsmdevice_types.go:143-165] *)
Record DiscoverySpec := mkDiscoverySpec {
  ds_USB : list USBDeviceSpec;
  ds_DevicePath : option DevicePathSpec;
  ds_AutoDiscovery : bool;
}.

(* [api/v1alpha1/hsmdevice_types.go:168-192] *)
Record HSMDeviceSpec := mkHSMDeviceSpec {
  hd_DeviceType : string;
  hd_Discovery : option DiscoverySpec;
  hd_NodeSelector : gmap string string;
  hd_PKCS11 : option DevicePKCS11Config;
  hd_MaxDevices : Z;
  hd_Mirroring : option MirroringSpec;
}.

(* [api/v1alpha1/hsmdevice_types.go:207-247] *)
Record DiscoveredDevice := mkDiscoveredDevice {
  dd_DevicePath : string;
  dd_SerialNumber : string;
  dd_NodeName : string;
  dd_LastSeen : Time;
  dd_DeviceInfo : gmap string string;
  dd_Available : bool;
  dd_ResourceName : string;
  dd_Role : string;
  dd_MirroredFrom : string;
  dd_LastSyncTime : option Time;
  dd_Health : string;
}.

(* [api/v1alpha1/hsmdevice_types.go:250-272] *)
Record MirroringStatus := mkMirroringStatus {
  mi_Enabled : bool;
  mi_PrimaryNode : string;
  mi_MirroredNodes : list string;
  mi_LastSyncTime : option Time;
  mi_FailoverCount : Z;
  mi_SyncErrors : list string;
}.

(* [api/v1alpha1/hsmdevice_types.go:282-287] *)
Record HSMDevice := mkHSMDevice {
  hd_meta : ObjectMeta;
  hd_Spec : HSMDeviceSpec;
}.

(** ** hsmpool_types.go *)
Record Condition := mkCondition {
  cd_Type : string;
  cd_Status : string;
  cd_LastTransitionTime : Time;
  cd_Reason : string;
  cd_Message : string;
}.

(* [api/v1alpha1/hsmpool_types.go:72-94] *)
Record PodReport := mkPodReport {
  pr_PodName : string;
  pr_NodeName : string;
  pr_DevicesFound : Z;
  pr_LastReportTime : Time;
  pr_DiscoveryStatus : string;
  pr_Error : string;
  pr_Fresh : bool;
}.

(* [api/v1alpha1/hsmpool_types.go:101-101] *)
Definition HSMPoolPhasePending : string := "Pending".
(* [api/v1alpha1/hsmpool_types.go:103-103] *)
Definition HSMPoolPhaseAggregating : string := "Aggregating".
(* [api/v1alpha1/hsmpool_types.go:105-105] *)
Definition HSMPoolPhaseReady : string := "Ready".
(* [api/v1alpha1/hsmpool_types.go:107-107] *)
Definition HSMPoolPhasePartial : string := "Partial".
(* [api/v1alpha1/hsmpool_types.go:109-109] *)
Definition HSMPoolPhaseError : string := "Error".

(* [api/v1alpha1/hsmpool_types.go:24-33] *)
Record HSMPoolSpec := mkHSMPoolSpec {
  hp_GracePeriod : option Z;
  hp_Mirroring : option MirroringSpec;
}.

(* [api/v1alpha1/hsmpool_types.go:36-69] *)
Record HSMPoolStatus := mkHSMPoolStatus {
  ps_AggregatedDevices : list DiscoveredDevice;
  ps_TotalDevices : Z;
  ps_AvailableDevices : Z;
  ps_ReportingPods : list PodReport;
  ps_ExpectedPods : Z;
  ps_LastAggregationTime : option Time;
  ps_Conditions : list Condition;
  ps_Phase : string;
  ps_Mirroring : option MirroringStatus;
}.

(* [api/v1alpha1/hsmpool_types.go:123-129] *)
Record HSMPool := mkHSMPool {
  hp_meta : ObjectMeta;
  hp_Spec : HSMPoolSpec;
  hp_Status : HSMPoolStatus;
}.

(** ** hsmsecret_types.go *)
(* [api/v1alpha1/hsmsecret_types.go:29-50] *)
Record ParentReference := mkParentReference {
  pf_Name : string;
  pf_Namespace : option string;
  pf_Group : option string;
  pf_Kind : option string;
}.

(* [api/v1alpha1/hsmsecret_types.go:53-79] *)
Record HSMSecretSpec := mkHSMSecretSpec {
  sp_ParentRef : option ParentReference;
  sp_SecretName : string;
  sp_AutoSync : bool;
  sp_SecretType : string;
  sp_SyncInterval : Z;
}.

(* [api/v1alpha1/hsmsecret_types.go:86-86] *)
Definition SyncStatusInSync : string := "InSync".
(* [api/v1alpha1/hsmsecret_types.go:88-88] *)
Definition SyncStatusOutOfSync : string := "OutOfSync".
(* [api/v1alpha1/hsmsecret_types.go:90-90] *)
Definition SyncStatusError : string := "Error".
(* [api/v1alpha1/hsmsecret_types.go:92-92] *)
Definition SyncStatusPending : string := "Pending".

(* [api/v1alpha1/hsmsecret_types.go:96-124] *)
Record HSMDeviceSync := mkHSMDeviceSync {
  sy_DeviceName : string;
  sy_LastSyncTime : option Time;
  sy_Checksum : string;
  sy_Status : string;
  sy_LastError : string;
  sy_Online : bool;
  sy_Version : Z;
}.

(** [corev1.ObjectReference], the fields that are set. *)
Record ObjectReference := mkObjectReference {
  ref_APIVersion : string;
  ref_Kind : string;
  ref_Name : string;
  ref_Namespace : string;
  ref_UID : string;
}.

(* [api/v1alpha1/hsmsecret_types.go:127-168] *)
Record HSMSecretStatus := mkHSMSecretStatus {
  ss_LastSyncTime : option Time;
  ss_HSMChecksum : string;
  ss_SecretChecksum : string;
  ss_SyncStatus : string;
  ss_LastError : string;
  ss_Conditions : list Condition;
  ss_SecretRef : option ObjectReference;
  ss_DeviceSyncStatus : list HSMDeviceSync;
  ss_PrimaryDevice : string;
  ss_SyncConflict : bool;
}.

(* [api/v1alpha1/hsmsecret_types.go:179-185] *)
Record HSMSecret := mkHSMSecret {
  hs_meta : ObjectMeta;
  hs_Spec : HSMSecretSpec;
  hs_Status : HSMSecretStatus;
}.
