(* ===== verification/Kube.v ===== *)
(** * The Kubernetes API, as far as the controllers use it

    Objects of the core and apps groups as records of the fields the program sets or
    reads; a pointer that may be nil is an [option].  The API server is a record of
    operations per kind; [ApiLaws] states what the controllers rely on, over a view
    of the objects the cluster holds. *)

From S2P Require Import Prelude GoStd Api.

(** ** Time *)

(** [time.Time{}], the year 1; [time.Since(t)] for a clock at [now] nanoseconds,
    which saturates. *)
Definition zero_time : Time := mkTime (-62135596800) 0.
Definition IsZero (t : Time) : bool := t_unix t =? t_unix zero_time.
Definition nanos (t : Time) : Z := t_unix t * 1000000000.
Definition saturate (d : Z) : Z := Z.max int64_min (Z.min int64_max d).
Definition time_Since (now : Z) (t : Time) : Z := saturate (now - nanos t).

(** [metav1.Now()] of a clock at [now] nanoseconds (it is stored in seconds). *)
Definition metav1_Now (now : Z) : Time := mkTime (now / 1000000000) 0.

(** ** Pods and workloads *)
Record Pod := mkPod {
  pod_meta : ObjectMeta;
  pod_NodeName : string;
  pod_Phase : string;
  pod_Reason : string;
  pod_PodIP : string;
  pod_PodIPs : list string;
  pod_Conditions : list (string * string);
}.
Definition PodPending : string := "Pending".
Definition PodRunning : string := "Running".
Definition PodFailed : string := "Failed".
Definition PodReady : string := "Ready".
Definition ConditionTrue : string := "True".
Definition ConditionFalse : string := "False".

Record EnvVar := mkEnvVar { ev_Name : string; ev_FieldPath : string }.
Record ContainerPort := mkPort { cp_Name : string; cp_Port : Z; cp_Protocol : string }.
Record HTTPProbe := mkProbe {
  pb_Path : string;
  pb_Port : Z;
  pb_InitialDelaySeconds : Z;
  pb_PeriodSeconds : Z;
  pb_TimeoutSeconds : Z;
  pb_FailureThreshold : Z;
}.
Record VolumeMount := mkMount { vm_Name : string; vm_MountPath : string; vm_ReadOnly : bool }.

(** [sc_Drop] is the [Drop] list of [Capabilities], absent if that is nil. *)
Record SecurityContext := mkSecurityContext {
  sc_Privileged : option bool;
  sc_AllowPrivilegeEscalation : option bool;
  sc_Drop : option (list string);
  sc_ReadOnlyRootFilesystem : option bool;
  sc_RunAsNonRoot : option bool;
  sc_RunAsUser : option Z;
  sc_SeccompProfile : option string;
}.
Record PodSecurityContext := mkPodSecurityContext {
  psc_RunAsUser : option Z;
  psc_RunAsGroup : option Z;
  psc_RunAsNonRoot : option bool;
  psc_FSGroup : option Z;
}.
Record Container := mkContainer {
  ct_Name : string;
  ct_Image : string;
  ct_Args : list string;
  ct_Env : list EnvVar;
  ct_Ports : list ContainerPort;
  ct_LivenessProbe : option HTTPProbe;
  ct_ReadinessProbe : option HTTPProbe;
  ct_Requests : gmap string string;
  ct_Limits : gmap string string;
  ct_SecurityContext : option SecurityContext;
  ct_VolumeMounts : list VolumeMount;
}.
Inductive VolumeSource :=
  | EmptyDir
  | HostPath (path : string) (type : option string)
  | SecretVolume (secretName : string) (defaultMode : option Z).
Record Volume := mkVolume { vol_Name : string; vol_Source : VolumeSource }.
Record Toleration := mkToleration { tol_Key : string; tol_Operator : string; tol_Effect : string }.
Record NodeSelectorRequirement := mkRequirement { nr_Key : string; nr_Operator : string; nr_Values : list string }.

(** [ps_RequiredTerms] is the chain [Affinity], [NodeAffinity], [Required...] down to
    its terms, absent if one of the pointers is nil. *)
Record PodSpec := mkPodSpec {
  ps_NodeSelector : option (gmap string string);
  ps_RequiredTerms : option (list (list NodeSelectorRequirement));
  ps_SecurityContext : option PodSecurityContext;
  ps_ServiceAccountName : string;
  ps_Containers : list Container;
  ps_Volumes : list Volume;
  ps_Tolerations : list Toleration;
}.

Record Deployment := mkDeployment {
  dp_meta : ObjectMeta;
  dp_Replicas : Z;
  dp_Strategy : string;
  dp_Selector : gmap string string;
  dp_TemplateLabels : gmap string string;
  dp_PodSpec : PodSpec;
}.

Record DaemonSetSpec := mkDaemonSetSpec {
  dss_Selector : gmap string string;
  dss_TemplateLabels : gmap string string;
  dss_PodSpec : PodSpec;
  dss_UpdateStrategy : string;
  dss_MaxUnavailable : string;
}.
Record DaemonSet := mkDaemonSet {
  ds_meta : ObjectMeta;
  ds_Spec : DaemonSetSpec;
  ds_DesiredNumberScheduled : Z;
}.

Record Secret := mkSecret {
  se_meta : ObjectMeta;
  se_Type : string;
  se_Data : gmap string string;
}.

(** ** The API server *)

(** Operations on the objects of a kind: [Get] by namespace and name, [List] by
    namespace (every one if it is absent) and labels; the writing operations return
    the object the server stored. *)
Record ObjectApi (W T : Type) := mkObjectApi {
  api_Get : string → string → ST W (result T);
  api_List : option string → gmap string string → ST W (result (list T));
  api_Create : T → ST W (result T);
  api_Update : T → ST W (result T);
  api_UpdateStatus : T → ST W (result T);
  api_Delete : T → ST W (result unit);
}.
Arguments mkObjectApi {W T}.
Arguments api_Get {W T}.
Arguments api_List {W T}.
Arguments api_Create {W T}.
Arguments api_Update {W T}.
Arguments api_UpdateStatus {W T}.
Arguments api_Delete {W T}.

(** The client of a controller. *)
Record KubeClient (W : Type) := mkKubeClient {
  HSMPools : ObjectApi W HSMPool;
  HSMDevices : ObjectApi W HSMDevice;
  HSMSecrets : ObjectApi W HSMSecret;
  Deployments : ObjectApi W Deployment;
  DaemonSets : ObjectApi W DaemonSet;
  Pods : ObjectApi W Pod;
  Secrets : ObjectApi W Secret;
}.
Arguments mkKubeClient {W}.
Arguments HSMPools {W}.
Arguments HSMDevices {W}.
Arguments HSMSecrets {W}.
Arguments Deployments {W}.
Arguments DaemonSets {W}.
Arguments Pods {W}.
Arguments Secrets {W}.

(** [client.IgnoreNotFound]. *)
Definition IgnoreNotFound (e : error) : result unit := if IsNotFound e then Ok () else Err e.

(** [ctrl.Result] and the error returned with it; [RequeueAfter] in nanoseconds. *)
Record ctrl_Result := mkResult { Requeue : bool; RequeueAfter : Z }.
Definition no_result : ctrl_Result := mkResult false 0.
Definition Outcome : Type := ctrl_Result * option error.
Definition done : Outcome := (no_result, None).
Definition failed (e : error) : Outcome := (no_result, Some e).
Definition requeue_after (d : Z) : Outcome := (mkResult false d, None).

(** ** What the API server promises *)

(** The objects of the cluster, by namespace and name. *)
Abbreviation Table T := (gmap (string * string) T).
Record Objects := mkObjects {
  o_HSMPools : Table HSMPool;
  o_HSMDevices : Table HSMDevice;
  o_HSMSecrets : Table HSMSecret;
  o_Deployments : Table Deployment;
  o_DaemonSets : Table DaemonSet;
  o_Pods : Table Pod;
  o_Secrets : Table Secret;
}.

(** A kind of objects: its table, the metadata of its objects, and what its status
    subresource holds. *)
Class Kind (T : Type) := {
  k_get : Objects → Table T;
  k_set : Table T → Objects → Objects;
  k_meta : T → ObjectMeta;
  (** [k_merge status rest] has the status of the one and everything else of the other. *)
  k_merge : T → T → T;
  (** Equal but for what the server fills in (UID, resource version, timestamps). *)
  k_same : T → T → Prop;
}.

Definition same_meta (m m' : ObjectMeta) : Prop :=
  om_Name m' = om_Name m ∧ om_Namespace m' = om_Namespace m ∧ om_Labels m' = om_Labels m ∧
  om_Annotations m' = om_Annotations m ∧ om_Finalizers m' = om_Finalizers m ∧
  om_OwnerReferences m' = om_OwnerReferences m.

Definition key_of {T} `{Kind T} (t : T) : string * string :=
  (om_Namespace (k_meta t), om_Name (k_meta t)).

#[global] Instance HSMPool_kind : Kind HSMPool := {|
  k_get := o_HSMPools;
  k_set t o := mkObjects t (o_HSMDevices o) (o_HSMSecrets o) (o_Deployments o) (o_DaemonSets o) (o_Pods o) (o_Secrets o);
  k_meta := hp_meta;
  k_merge s r := mkHSMPool (hp_meta r) (hp_Spec r) (hp_Status s);
  k_same p p' := same_meta (hp_meta p) (hp_meta p') ∧ hp_Spec p' = hp_Spec p ∧ hp_Status p' = hp_Status p;
|}.
#[global] Instance HSMDevice_kind : Kind HSMDevice := {|
  k_get := o_HSMDevices;
  k_set t o := mkObjects (o_HSMPools o) t (o_HSMSecrets o) (o_Deployments o) (o_DaemonSets o) (o_Pods o) (o_Secrets o);
  k_meta := hd_meta;
  k_merge s r := r;
  k_same d d' := same_meta (hd_meta d) (hd_meta d') ∧ hd_Spec d' = hd_Spec d;
|}.
#[global] Instance HSMSecret_kind : Kind HSMSecret := {|
  k_get := o_HSMSecrets;
  k_set t o := mkObjects (o_HSMPools o) (o_HSMDevices o) t (o_Deployments o) (o_DaemonSets o) (o_Pods o) (o_Secrets o);
  k_meta := hs_meta;
  k_merge s r := mkHSMSecret (hs_meta r) (hs_Spec r) (hs_Status s);
  k_same s s' := same_meta (hs_meta s) (hs_meta s') ∧ hs_Spec s' = hs_Spec s ∧ hs_Status s' = hs_Status s;
|}.
#[global] Instance Deployment_kind : Kind Deployment := {|
  k_get := o_Deployments;
  k_set t o := mkObjects (o_HSMPools o) (o_HSMDevices o) (o_HSMSecrets o) t (o_DaemonSets o) (o_Pods o) (o_Secrets o);
  k_meta := dp_meta;
  k_merge s r := r;
  k_same d d' := same_meta (dp_meta d) (dp_meta d') ∧ dp_Replicas d' = dp_Replicas d ∧
    dp_Strategy d' = dp_Strategy d ∧ dp_Selector d' = dp_Selector d ∧
    dp_TemplateLabels d' = dp_TemplateLabels d ∧ dp_PodSpec d' = dp_PodSpec d;
|}.
#[global] Instance DaemonSet_kind : Kind DaemonSet := {|
  k_get := o_DaemonSets;
  k_set t o := mkObjects (o_HSMPools o) (o_HSMDevices o) (o_HSMSecrets o) (o_Deployments o) t (o_Pods o) (o_Secrets o);
  k_meta := ds_meta;
  k_merge s r := mkDaemonSet (ds_meta r) (ds_Spec r) (ds_DesiredNumberScheduled s);
  k_same d d' := same_meta (ds_meta d) (ds_meta d') ∧ ds_Spec d' = ds_Spec d ∧
    ds_DesiredNumberScheduled d' = ds_DesiredNumberScheduled d;
|}.
#[global] Instance Pod_kind : Kind Pod := {|
  k_get := o_Pods;
  k_set t o := mkObjects (o_HSMPools o) (o_HSMDevices o) (o_HSMSecrets o) (o_Deployments o) (o_DaemonSets o) t (o_Secrets o);
  k_meta := pod_meta;
  k_merge s r := r;
  k_same p p' := p' = p;
|}.
#[global] Instance Secret_kind : Kind Secret := {|
  k_get := o_Secrets;
  k_set t o := mkObjects (o_HSMPools o) (o_HSMDevices o) (o_HSMSecrets o) (o_Deployments o) (o_DaemonSets o) (o_Pods o) t;
  k_meta := se_meta;
  k_merge s r := r;
  k_same s s' := same_meta (se_meta s) (se_meta s') ∧ se_Type s' = se_Type s ∧ se_Data s' = se_Data s;
|}.

(** The tables of a lawful kind. *)
Class LawfulKind (T : Type) `{Kind T} : Prop := {
  k_get_set t o : k_get (k_set t o) = t;
  k_set_get o : k_set (k_get o) o = o;
  k_set_set t t' o : k_set t (k_set t' o) = k_set t o;
  k_same_refl t : k_same t t;
  k_same_key t t' : k_same t t' → key_of t' = key_of t;
  k_merge_meta s r : k_meta (k_merge s r) = k_meta r;
}.

Lemma same_meta_key m m' : same_meta m m' → (om_Namespace m', om_Name m') = (om_Namespace m, om_Name m).
Proof. intros (-> & -> & _). done. Qed.

Ltac solve_kind :=
  split; intros; simpl in *; try (by match goal with o : Objects |- _ => destruct o end);
  unfold key_of; simpl in *; destruct_and?; subst; by auto using same_meta_key.
#[global] Instance HSMPool_lawful : LawfulKind HSMPool. Proof. solve_kind. Qed.
#[global] Instance HSMDevice_lawful : LawfulKind HSMDevice. Proof. solve_kind. Qed.
#[global] Instance HSMSecret_lawful : LawfulKind HSMSecret. Proof. solve_kind. Qed.
#[global] Instance Deployment_lawful : LawfulKind Deployment. Proof. solve_kind. Qed.
#[global] Instance DaemonSet_lawful : LawfulKind DaemonSet. Proof. solve_kind. Qed.
#[global] Instance Pod_lawful : LawfulKind Pod. Proof. solve_kind. Qed.
#[global] Instance Secret_lawful : LawfulKind Secret. Proof. solve_kind. Qed.

(** The objects the world's cluster holds. *)
Class ClusterView (W : Type) := objects : W → Objects.

(** The run changed no object. *)
Definition same_objects {W} `{!ClusterView W} (w w' : W) : Prop := objects w' = objects w.
#[global] Instance same_objects_PreOrder {W} `{!ClusterView W} : PreOrder (@same_objects W _).
Proof. split; [done|]. unfold same_objects. congruence. Qed.

Definition selects (ns : option string) (labels : gmap string string) (m : ObjectMeta) : Prop :=
  (∀ n, ns = Some n → om_Namespace m = n) ∧ labels ⊆ om_Labels m.

Section Laws.
Context {W : Type} `{!ClusterView W} {T : Type} `{!Kind T}.

(** The table of [T] after a write: [f] of what it was, the other tables as before. *)
Definition wrote (f : Table T → Table T) (w w' : W) : Prop :=
  objects w' = k_set (f (k_get (objects w))) (objects w).

(** Writing [t] where [t0] was: what is stored, or nothing any more when the last
    finalizer of an object being deleted is taken away. *)
Definition replaced (t0 t : T) (w w' : W) : Prop :=
  k_get (objects w) !! key_of t = Some t0 ∧
  ((∃ t', k_same t t' ∧ wrote (insert (key_of t) t') w w') ∨
   om_DeletionTimestamp (k_meta t0) ≠ None ∧ om_Finalizers (k_meta t) = [] ∧ wrote (delete (key_of t)) w w').

Definition created (t : T) (w w' : W) : Prop :=
  k_get (objects w) !! key_of t = None ∧ ∃ t', k_same t t' ∧ wrote (insert (key_of t) t') w w'.

(** Gone, or on its way out (finalizers, grace period). *)
Definition deleted (t : T) (w w' : W) : Prop :=
  wrote (delete (key_of t)) w w' ∨
  ∃ t', key_of t' = key_of t ∧ om_DeletionTimestamp (k_meta t') ≠ None ∧ wrote (insert (key_of t) t') w w'.

(** A call either fails, having changed nothing or (if its answer was lost) what it
    would have, or it does what it says. *)
Class ApiLaws (api : ObjectApi W T) : Prop := {
  api_Get_law ns n w r w' : api_Get api ns n w = (r, w') → objects w' = objects w ∧
    match r with
    | Ok t => k_get (objects w) !! (ns, n) = Some t ∧ key_of t = (ns, n)
    | Err e => IsNotFound e = true → k_get (objects w) !! (ns, n) = None
    end;
  api_List_law ns labels w r w' : api_List api ns labels w = (r, w') → objects w' = objects w ∧
    ∀ l, r = Ok l → ∀ t, t ∈ l ↔ k_get (objects w) !! key_of t = Some t ∧ selects ns labels (k_meta t);
  api_Create_law t w r w' : api_Create api t w = (r, w') →
    match r with
    | Ok t' => k_get (objects w) !! key_of t = None ∧ k_same t t' ∧ wrote (insert (key_of t) t') w w'
    | Err _ => objects w' = objects w ∨ created t w w'
    end;
  api_Update_law t w r w' : api_Update api t w = (r, w') →
    match r with
    | Ok t' => ∃ t0, replaced t0 (k_merge t0 t) w w' ∧ k_same (k_merge t0 t) t'
    | Err _ => objects w' = objects w ∨ ∃ t0, replaced t0 (k_merge t0 t) w w'
    end;
  api_UpdateStatus_law t w r w' : api_UpdateStatus api t w = (r, w') →
    match r with
    | Ok t' => ∃ t0, k_get (objects w) !! key_of t = Some t0 ∧ k_same (k_merge t t0) t' ∧ wrote (insert (key_of t) t') w w'
    | Err _ => objects w' = objects w ∨
        ∃ t0 t', k_get (objects w) !! key_of t = Some t0 ∧ k_same (k_merge t t0) t' ∧ wrote (insert (key_of t) t') w w'
    end;
  api_Delete_law t w r w' : api_Delete api t w = (r, w') →
    match r with
    | Ok _ => deleted t w w'
    | Err e => (objects w' = objects w ∨ deleted t w w') ∧
               (IsNotFound e = true → objects w' = objects w ∧ k_get (objects w) !! key_of t = None)
    end;
}.
End Laws.

(** Gone, or being deleted. *)
Definition gone {T} `{Kind T} (o : Objects) (key : string * string) : Prop :=
  match k_get o !! key with Some t => om_DeletionTimestamp (k_meta t) ≠ None | None => True end.

(** ** Lemmas: what a run may touch *)
Section Touches.
Context {W : Type} `{!ClusterView W} {T : Type} `{!Kind T, !LawfulKind T}.

(** Nothing changed but, maybe, the objects of kind [T] at the keys in [P]. *)
Definition touches (P : string * string → Prop) (w w' : W) : Prop :=
  ∃ t, objects w' = k_set t (objects w) ∧ ∀ key, ¬ P key → t !! key = k_get (objects w) !! key.

#[global] Instance touches_PreOrder P : PreOrder (touches P).
Proof.
  split.
  - intros w. exists (k_get (objects w)). by rewrite k_set_get.
  - intros w1 w2 w3 (t & E & Ht) (t' & E' & Ht'). exists t'. rewrite E', E, k_set_set. split; [done|].
    intros key Hk. rewrite Ht', E, k_get_set by done. by apply Ht.
Qed.

Lemma touches_refl P w w' : objects w' = objects w → touches P w w'.
Proof. intros E. exists (k_get (objects w)). by rewrite k_set_get. Qed.

Lemma touches_mono P Q w w' : (∀ key, P key → Q key) → touches P w w' → touches Q w w'.
Proof. intros HPQ (t & E & Ht). exists t. split; [done|]. intros key Hk. apply Ht. naive_solver. Qed.

Lemma touches_at P key w w' : touches P w w' → ¬ P key → k_get (objects w') !! key = k_get (objects w) !! key.
Proof. intros (t & -> & Ht) Hk. rewrite k_get_set. by apply Ht. Qed.

Lemma touches_wrote P f w w' :
  wrote f w w' → (∀ m key, ¬ P key → f m !! key = m !! key) → touches P w w'.
Proof. intros Hw Hf. exists (f (k_get (objects w))). split; [exact Hw|]. intros. by apply Hf. Qed.

Lemma touches_insert (P : string * string → Prop) key t w w' : P key → wrote (insert key t) w w' → touches P w w'.
Proof. intros HP Hw. eapply touches_wrote; [exact Hw|]. intros m k Hk. apply lookup_insert_ne. by intros ->. Qed.

Lemma touches_delete (P : string * string → Prop) key w w' : P key → wrote (delete key) w w' → touches P w w'.
Proof. intros HP Hw. eapply touches_wrote; [exact Hw|]. intros m k Hk. apply lookup_delete_ne. by intros ->. Qed.

Lemma wrote_get f w w' : wrote f w w' → k_get (objects w') = f (k_get (objects w)).
Proof. intros Hw. unfold wrote in Hw. by rewrite Hw, k_get_set. Qed.

Lemma deleted_touches (P : string * string → Prop) t w w' : P (key_of t) → deleted t w w' → touches P w w'.
Proof. intros HP [Hw|(t' & _ & _ & Hw)]; [by eapply touches_delete|by eapply touches_insert]. Qed.

Lemma deleted_gone (t : T) w w' key : deleted t w w' → key = key_of t ∨ gone (T := T) (objects w) key → gone (T := T) (objects w') key.
Proof.
  unfold gone. intros Hd Hk. destruct (decide (key = key_of t)) as [->|Hne].
  - destruct Hd as [Hw|(t' & _ & Ht & Hw)]; apply wrote_get in Hw; rewrite Hw.
    + by rewrite lookup_delete_eq.
    + by rewrite lookup_insert_eq.
  - destruct Hk as [?|Hk]; [done|].
    destruct Hd as [Hw|(t' & _ & Ht & Hw)]; apply wrote_get in Hw; rewrite Hw.
    + by rewrite lookup_delete_ne.
    + by rewrite lookup_insert_ne.
Qed.

Lemma replaced_touches (P : string * string → Prop) t0 t w w' : P (key_of t) → replaced t0 t w w' → touches P w w'.
Proof.
  intros HP [_ [(t' & _ & Hw)|(_ & _ & Hw)]]; [by eapply touches_insert|by eapply touches_delete].
Qed.

Lemma merge_key (a b : T) : key_of (k_merge a b) = key_of b.
Proof. unfold key_of. by rewrite k_merge_meta. Qed.

Context (api : ObjectApi W T) `{!ApiLaws api}.

Lemma Get_run ns n w r w' : api_Get api ns n w = (r, w') → objects w' = objects w.
Proof. by intros [? _]%api_Get_law. Qed.
Lemma List_run ns l w r w' : api_List api ns l w = (r, w') → objects w' = objects w.
Proof. by intros [? _]%api_List_law. Qed.

Lemma get_same ns n : preserves same_objects (api_Get api ns n).
Proof. intros w. destruct (api_Get api ns n w) as [a w'] eqn:E. by apply Get_run in E. Qed.
Lemma list_same ns l : preserves same_objects (api_List api ns l).
Proof. intros w. destruct (api_List api ns l w) as [a w'] eqn:E. by apply List_run in E. Qed.

Lemma Create_touches (P : string * string → Prop) t w r w' : P (key_of t) → api_Create api t w = (r, w') → touches P w w'.
Proof.
  intros HP E%api_Create_law. destruct r as [t'|e].
  - destruct E as (_ & _ & Hw). by eapply touches_insert.
  - destruct E as [?|(_ & t' & _ & Hw)]; [by apply touches_refl|by eapply touches_insert].
Qed.

Lemma Delete_touches (P : string * string → Prop) t w r w' : P (key_of t) → api_Delete api t w = (r, w') → touches P w w'.
Proof.
  intros HP E%api_Delete_law. destruct r as [t'|e]; [by eapply deleted_touches|].
  destruct E as [[?|Hd] _]; [by apply touches_refl|by eapply deleted_touches].
Qed.

Lemma Update_touches (P : string * string → Prop) t w r w' : P (key_of t) → api_Update api t w = (r, w') → touches P w w'.
Proof.
  intros HP E%api_Update_law. destruct r as [t'|e].
  - destruct E as (t0 & Hr & _). eapply replaced_touches; [|exact Hr]. by rewrite merge_key.
  - destruct E as [?|(t0 & Hr)]; [by apply touches_refl|]. eapply replaced_touches; [|exact Hr]. by rewrite merge_key.
Qed.

Lemma UpdateStatus_touches (P : string * string → Prop) t w r w' :
  P (key_of t) → api_UpdateStatus api t w = (r, w') → touches P w w'.
Proof.
  intros HP E%api_UpdateStatus_law. destruct r as [t'|e].
  - destruct E as (t0 & _ & _ & Hw). by eapply touches_insert.
  - destruct E as [?|(t0 & t' & _ & _ & Hw)]; [by apply touches_refl|by eapply touches_insert].
Qed.
End Touches.

(** ** A server that never fails

    The cluster itself as the world; it satisfies the laws. *)
Module Mem.
Section Mem.
#[local] Instance objects_view : ClusterView Objects := λ o, o.
Context {T : Type} `{!Kind T, !LawfulKind T}.

Definition put (f : Table T → Table T) (o : Objects) : Objects := k_set (f (k_get o)) o.

#[global] Instance selects_dec ns labels m : base.Decision (selects ns labels m).
Proof.
  unfold selects. apply and_dec; [|apply _].
  destruct ns as [n|]; [destruct (decide (om_Namespace m = n)) as [?|Hn]|].
  - left. by intros ? [= <-].
  - right. intros Ha. by apply Hn, Ha.
  - by left.
Defined.

Definition server : ObjectApi Objects T := mkObjectApi
  (λ ns n o, (match k_get o !! (ns, n) with
              | Some t => if decide (key_of t = (ns, n)) then Ok t else Err (errorf "stored at another key")
              | None => Err (api_NotFound n)
              end, o))
  (λ ns labels o, (Ok (snd <$> filter (λ kt, kt.1 = key_of kt.2 ∧ selects ns labels (k_meta kt.2)) (map_to_list (k_get o))), o))
  (λ t o, match k_get o !! key_of t with
          | Some _ => (Err (api_AlreadyExists "already exists"), o)
          | None => (Ok t, put (insert (key_of t) t) o)
          end)
  (λ t o, match k_get o !! key_of t with
          | None => (Err (api_NotFound (om_Name (k_meta t))), o)
          | Some t0 =>
              (Ok (k_merge t0 t),
               if decide (om_DeletionTimestamp (k_meta t0) ≠ None ∧ om_Finalizers (k_meta t) = [])
               then put (delete (key_of t)) o else put (insert (key_of t) (k_merge t0 t)) o)
          end)
  (λ t o, match k_get o !! key_of t with
          | None => (Err (api_NotFound (om_Name (k_meta t))), o)
          | Some t0 => (Ok (k_merge t t0), put (insert (key_of t) (k_merge t t0)) o)
          end)
  (λ t o, match k_get o !! key_of t with
          | None => (Err (api_NotFound (om_Name (k_meta t))), o)
          | Some _ => (Ok (), put (delete (key_of t)) o)
          end).

#[global] Instance server_laws : ApiLaws server.
Proof.
  split; simpl; unfold put.
  - intros ns n w r w' [= <- <-]. split; [done|]. destruct (k_get w !! _) eqn:E; [|done]. by case_decide.
  - intros ns labels w r w' [= <- <-]. split; [done|]. intros l [= <-] t. rewrite list_elem_of_fmap. split.
    + intros ([k t'] & -> & [[Hk Hs] Hin]%list_elem_of_filter). simpl in *. subst k.
      by apply elem_of_map_to_list in Hin.
    + intros [Hl Hs]. exists (key_of t, t). split; [done|]. apply list_elem_of_filter. split; [done|].
      by apply elem_of_map_to_list.
  - intros t w r w'. destruct (k_get w !! key_of t) eqn:E; intros [= <- <-]; [by left|].
    split; [done|]. split; [apply k_same_refl|done].
  - intros t w r w'. destruct (k_get w !! key_of t) as [t0|] eqn:E; intros [= <- <-]; [|by left].
    exists t0. split; [|apply k_same_refl]. unfold replaced. rewrite !merge_key. split; [done|].
    rewrite k_merge_meta. case_decide as Hd; [right; by destruct Hd|left].
    exists (k_merge t0 t). split; [apply k_same_refl|done].
  - intros t w r w'. destruct (k_get w !! key_of t) as [t0|] eqn:E; intros [= <- <-]; [|by left].
    exists t0. split; [done|]. split; [apply k_same_refl|done].
  - intros t w r w'. destruct (k_get w !! key_of t) as [t0|] eqn:E; intros [= <- <-]; [by left|].
    split; [by left|done].
Qed.
End Mem.

#[global] Instance objects_cluster : ClusterView Objects := λ o, o.
Definition kube : KubeClient Objects :=
  mkKubeClient server server server server server server server.
Definition no_objects : Objects := mkObjects ∅ ∅ ∅ ∅ ∅ ∅ ∅.
End Mem.

(** ** The API in a world with a second component *)
Section Beside.
Context {U V : Type} `{!ClusterView U}.
#[global] Instance fst_cluster : ClusterView (U * V) := λ x, objects x.1.
Definition on_fst {A} (m : ST U A) : ST (U * V) A := lift_st fst (λ o x, (o, x.2)) m.

Lemma on_fst_run {A} (m : ST U A) (x : U * V) a x' : on_fst m x = (a, x') → m x.1 = (a, x'.1) ∧ x'.2 = x.2.
Proof. unfold on_fst, lift_st. destruct (m x.1) as [b o]. by intros [= <- <-]. Qed.

Definition api_beside {T} (api : ObjectApi U T) : ObjectApi (U * V) T :=
  mkObjectApi (λ ns n, on_fst (api_Get api ns n)) (λ ns l, on_fst (api_List api ns l)) (λ t, on_fst (api_Create api t))
    (λ t, on_fst (api_Update api t)) (λ t, on_fst (api_UpdateStatus api t)) (λ t, on_fst (api_Delete api t)).

#[global] Instance api_beside_laws {T} `{!Kind T, !LawfulKind T} (api : ObjectApi U T) : ApiLaws api → ApiLaws (api_beside api).
Proof.
  intros Ha. split; cbn [api_beside api_Get api_List api_Create api_Update api_UpdateStatus api_Delete].
  - intros ns n w r w' [E _]%on_fst_run. exact (api_Get_law ns n _ _ _ E).
  - intros ns l w r w' [E _]%on_fst_run. exact (api_List_law ns l _ _ _ E).
  - intros t w r w' [E _]%on_fst_run. exact (api_Create_law t _ _ _ E).
  - intros t w r w' [E _]%on_fst_run. exact (api_Update_law t _ _ _ E).
  - intros t w r w' [E _]%on_fst_run. exact (api_UpdateStatus_law t _ _ _ E).
  - intros t w r w' [E _]%on_fst_run. exact (api_Delete_law t _ _ _ E).
Qed.

Definition kube_beside (k : KubeClient U) : KubeClient (U * V) :=
  mkKubeClient (api_beside (HSMPools k)) (api_beside (HSMDevices k)) (api_beside (HSMSecrets k)) (api_beside (Deployments k))
    (api_beside (DaemonSets k)) (api_beside (Pods k)) (api_beside (Secrets k)).
End Beside.
