(* ===== verification/Base64.v ===== *)
(** * encoding/base64: StdEncoding

    [EncodeToString] and [DecodeString] on byte strings, executable, and what the users of
    the encoding rely on: decoding inverts encoding, and a text that decodes to itself is
    empty. *)

From Stdlib Require Import Ascii.
From S2P Require Import Prelude GoStd.

(** ** The alphabet *)
Definition alphabet : string := "ABCDEFGHIJKLMNOPQRSTUVWXYZabcdefghijklmnopqrstuvwxyz0123456789+/".
(** The character of a value below 64. *)
Definition enc_char (n : Z) : ascii := match String.get (Z.to_nat n) alphabet with Some c => c | None => "="%char end.
(** The value of a character of the alphabet. *)
Definition dec_char (c : ascii) : option Z :=
  if is_upper c then Some (byte_val c - 65)
  else if is_lower c then Some (byte_val c - 71)
  else if is_digit c then Some (byte_val c + 4)
  else if bool_decide (c = "+"%char) then Some 62
  else if bool_decide (c = "/"%char) then Some 63
  else None.

(** ** Encoding *)
Fixpoint EncodeToString (s : string) : string :=
  match s with
  | String a (String b (String c s')) =>
      let n := byte_val a * 65536 + byte_val b * 256 + byte_val c in
      String (enc_char (n / 262144)) (String (enc_char (n / 4096 mod 64))
        (String (enc_char (n / 64 mod 64)) (String (enc_char (n mod 64)) (EncodeToString s'))))
  | String a (String b EmptyString) =>
      let n := byte_val a * 256 + byte_val b in
      String (enc_char (n / 1024)) (String (enc_char (n / 16 mod 64)) (String (enc_char (n mod 16 * 4)) "="))
  | String a EmptyString => String (enc_char (byte_val a / 4)) (String (enc_char (byte_val a mod 4 * 16)) "==")
  | EmptyString => ""
  end.

(** ** Decoding *)
(** Carriage returns and line feeds are ignored wherever they are. *)
Definition is_newline (c : ascii) : bool := bool_decide (c = "010"%char) || bool_decide (c = "013"%char).
Fixpoint drop_newlines (s : string) : string :=
  match s with
  | EmptyString => ""
  | String c s' => if is_newline c then drop_newlines s' else String c (drop_newlines s')
  end.

(** Padding only at the end; the bits it leaves over are not checked. *)
Fixpoint decode_quads (s : string) : option string :=
  match s with
  | EmptyString => Some ""
  | String c1 (String c2 (String c3 (String c4 s'))) =>
      match dec_char c1, dec_char c2, dec_char c3, dec_char c4 with
      | Some a, Some b, Some c, Some d =>
          let n := a * 262144 + b * 4096 + c * 64 + d in
          String (byte_of (n / 65536)) <$> (String (byte_of (n / 256 mod 256)) <$> (String (byte_of (n mod 256)) <$> decode_quads s'))
      | Some a, Some b, Some c, None =>
          if bool_decide (c4 = "="%char ∧ s' = "")
          then let n := a * 4096 + b * 64 + c in Some (String (byte_of (n / 1024)) (String (byte_of (n / 4 mod 256)) ""))
          else None
      | Some a, Some b, None, _ =>
          if bool_decide (c3 = "="%char ∧ c4 = "="%char ∧ s' = "") then Some (String (byte_of ((a * 64 + b) / 16)) "") else None
      | _, _, _, _ => None
      end
  | _ => None
  end.
Definition DecodeString (s : string) : option string := decode_quads (drop_newlines s).

Example encode_vectors : EncodeToString <$> [""; "f"; "fo"; "foo"; "foobar"] = [""; "Zg=="; "Zm8="; "Zm9v"; "Zm9vYmFy"].
Proof. reflexivity. Qed.
Example decode_vectors : DecodeString <$> ["Zm9vYg=="; "Zm9vYg="; "Zm9v="; "Zm 9"; "pass"; "password1"] =
  [Some "foob"; None; None; None; DecodeString "pass"; None] ∧ DecodeString "pass" ≠ None.
Proof. vm_compute. split; [reflexivity|discriminate]. Qed.

(** ** Lemmas *)
Lemma sextets (P : Z → Prop) : Forall P (Z.of_nat <$> seq 0 64) → ∀ n, 0 ≤ n < 64 → P n.
Proof.
  intros HF n Hn. rewrite Forall_forall in HF. apply HF. apply list_elem_of_fmap. exists (Z.to_nat n).
  split; [lia|]. apply elem_of_seq. lia.
Qed.
Lemma dec_enc_char n : 0 ≤ n < 64 → dec_char (enc_char n) = Some n.
Proof. apply (sextets (λ n, dec_char (enc_char n) = Some n)). repeat constructor. Qed.
Lemma enc_char_line n : 0 ≤ n < 64 → is_newline (enc_char n) = false.
Proof. apply (sextets (λ n, is_newline (enc_char n) = false)). repeat constructor. Qed.

Lemma byte_of_val c : byte_of (byte_val c) = c.
Proof. unfold byte_of, byte_val. by rewrite N2Z.id, ascii_N_embedding. Qed.

Lemma string_ind3 (P : string → Prop) :
  P "" → (∀ a, P (String a "")) → (∀ a b, P (String a (String b ""))) →
  (∀ a b c s, P s → P (String a (String b (String c s)))) → ∀ s, P s.
Proof.
  intros H0 H1 H2 H3 s. remember (String.length s) as n eqn:En. revert s En.
  induction (lt_wf n) as [n _ IH]. intros s ->. destruct s as [|a [|b [|c s]]]; [done|done|done|].
  apply H3. apply (IH (String.length s)); [simpl; lia|done].
Qed.

Lemma encode_lines s : drop_newlines (EncodeToString s) = EncodeToString s.
Proof.
  induction s as [|a|a b|a b c s IH] using string_ind3; [done|..]; cbn [EncodeToString drop_newlines].
  - pose proof (byte_val_range a). rewrite !enc_char_line; [done|..].
    + pose proof (Z.mod_pos_bound (byte_val a) 4). lia.
    + split; [apply Z.div_pos; lia|apply Z.div_lt_upper_bound; lia].
  - pose proof (byte_val_range a). pose proof (byte_val_range b). set (n := byte_val a * 256 + byte_val b).
    rewrite !enc_char_line; [done|..].
    + pose proof (Z.mod_pos_bound n 16). lia.
    + apply Z.mod_pos_bound. lia.
    + split; [apply Z.div_pos; lia|apply Z.div_lt_upper_bound; lia].
  - pose proof (byte_val_range a). pose proof (byte_val_range b). pose proof (byte_val_range c).
    set (n := byte_val a * 65536 + byte_val b * 256 + byte_val c). rewrite !enc_char_line, IH; [done|..];
      try (apply Z.mod_pos_bound; lia).
    split; [apply Z.div_pos; lia|apply Z.div_lt_upper_bound; lia].
Qed.

Lemma digits4 n : 0 ≤ n → n / 262144 * 262144 + n / 4096 mod 64 * 4096 + n / 64 mod 64 * 64 + n mod 64 = n.
Proof. intros Hn. Z.to_euclidean_division_equations. lia. Qed.

Theorem decode_encode s : DecodeString (EncodeToString s) = Some s.
Proof.
  unfold DecodeString. rewrite encode_lines.
  induction s as [|a|a b|a b c s IH] using string_ind3; [done|..]; cbn [EncodeToString decode_quads].
  - pose proof (byte_val_range a). rewrite !dec_enc_char; [|Z.to_euclidean_division_equations; lia..].
    change (dec_char "="%char) with (@None Z). cbn iota. rewrite bool_decide_eq_true_2 by done. do 2 f_equal.
    rewrite <-(byte_of_val a) at 3. f_equal. Z.to_euclidean_division_equations. lia.
  - pose proof (byte_val_range a). pose proof (byte_val_range b). set (n := byte_val a * 256 + byte_val b).
    rewrite !dec_enc_char; [|subst n; Z.to_euclidean_division_equations; lia..].
    change (dec_char "="%char) with (@None Z). cbn iota. rewrite bool_decide_eq_true_2 by done.
    rewrite <-(byte_of_val a), <-(byte_of_val b). cbn zeta. do 3 f_equal; [|f_equal]; f_equal; subst n; Z.to_euclidean_division_equations; lia.
  - pose proof (byte_val_range a). pose proof (byte_val_range b). pose proof (byte_val_range c).
    set (n := byte_val a * 65536 + byte_val b * 256 + byte_val c). assert (0 ≤ n < 16777216) by (subst n; lia).
    rewrite !dec_enc_char; [|apply Z.mod_pos_bound; lia|apply Z.mod_pos_bound; lia|apply Z.mod_pos_bound; lia|
      split; [apply Z.div_pos; lia|apply Z.div_lt_upper_bound; lia]].
    cbn zeta. rewrite digits4 by lia. rewrite IH. cbn [fmap option_fmap option_map].
    rewrite <-(byte_of_val a), <-(byte_of_val b), <-(byte_of_val c).
    do 2 f_equal; [|f_equal; [|f_equal]]; f_equal; subst n; Z.to_euclidean_division_equations; lia.
Qed.

(** Decoding shortens what is not empty. *)
Lemma decode_quads_shorter s t : decode_quads s = Some t → s = "" ∧ t = "" ∨ (String.length t < String.length s)%nat.
Proof.
  remember (String.length s) as n eqn:En. revert s t En. induction (lt_wf n) as [n _ IH]. intros s t ->.
  destruct s as [|c1 [|c2 [|c3 [|c4 s]]]]; cbn [decode_quads]; try done; [by intros [= <-]; left|].
  destruct (dec_char c1), (dec_char c2), (dec_char c3), (dec_char c4); try done; try case_bool_decide; try done;
    try (intros [= <-]; right; cbn; lia).
  destruct (decode_quads s) as [t'|] eqn:Et; [|done]. cbn. intros [= <-]. right. cbn.
  destruct (IH (String.length s)) with (s := s) (t := t') as [[-> ->]|]; cbn in *; try done; lia.
Qed.
Lemma drop_newlines_length s : (String.length (drop_newlines s) ≤ String.length s)%nat.
Proof. induction s as [|c s IH]; [done|]. cbn. destruct (is_newline c); cbn; lia. Qed.

Lemma decode_fixed s : DecodeString s = Some s ↔ s = "".
Proof.
  split; [|by intros ->]. intros Hd. apply decode_quads_shorter in Hd as [[_ ?]|Hlt]; [done|].
  pose proof (drop_newlines_length s). lia.
Qed.

(** ** A text for any value

    Examples use it where the code leaves a format (PEM, JSON) to a library. *)
Fixpoint digits (p : positive) : string :=
  match p with xH => "1" | xO p => String "o" (digits p) | xI p => String "i" (digits p) end.
Fixpoint undigits (s : string) : option positive :=
  match s with
  | String "1"%char EmptyString => Some xH
  | String "o"%char s => xO <$> undigits s
  | String "i"%char s => xI <$> undigits s
  | _ => None
  end.
Lemma undigits_digits p : undigits (digits p) = Some p.
Proof. induction p as [p IH|p IH|]; simpl; try rewrite IH; reflexivity. Qed.
Definition text_of {A} `{Countable A} (x : A) : string := digits (encode x).
Definition of_text {A} `{Countable A} (s : string) : option A := p ← undigits s; decode p.
Lemma of_text_of {A} `{Countable A} (x : A) : of_text (text_of x) = Some x.
Proof. unfold of_text, text_of. rewrite undigits_digits. apply countable.decode_encode. Qed.
