(* ===== verification/EnvConfig.v ===== *)
(** * internal/config: configuration from the environment

    Environment variables, the hostname, files and the Kubernetes API are arguments. *)

From S2P Require Import Prelude GoStd Api Kube.

Local Open Scope go_scope.

(* [internal/config/agent.go:9-22] *)
Record AgentConfig := mkAgentConfig {
  ac_DeviceName : string;
  ac_PKCS11LibraryPath : string;
  ac_TokenLabel : string;
  ac_PodName : string;
  ac_PodNamespace : string;
  ac_TLSCertFile : string;
  ac_TLSKeyFile : string;
  ac_TLSClientCAFile : string;
}.
(* [internal/config/discovery.go:9-13] *)
Record DiscoveryConfig := mkDiscoveryConfig { dc_NodeName : string; dc_PodName : string; dc_PodNamespace : string }.
(* [internal/config/manager.go:9-13] *)
Record ManagerConfig := mkManagerConfig { mg_Hostname : string; mg_DiscoveryImage : string; mg_AgentImage : string }.

(** The process' surroundings; an unset variable reads as empty. *)
Record Environment := mkEnvironment {
  Getenv : string → string;
  Hostname : result string;
  ReadFile : string → result string;
}.

Section Config.
Context (env : Environment).

(* [internal/config/namespace.go:28-41] *)
Definition GetCurrentNamespace : result string :=
  if bool_decide (Getenv env "POD_NAMESPACE" ≠ "") then Ok (TrimSpace (Getenv env "POD_NAMESPACE"))
  else match ReadFile env "/var/run/secrets/kubernetes.io/serviceaccount/namespace" with
       | Ok ns => Ok (TrimSpace ns)
       | Err _ => Err (errorf "unable to determine current namespace: service account namespace file not found")
       end.

(* [internal/config/agent.go:25-44] *)
Definition NewAgentConfigFromEnv : result AgentConfig :=
  match GetCurrentNamespace with
  | Err err => Err (wrapf "failed to get current namespace" err)
  | Ok namespace =>
      match Hostname env with
      | Err err => Err (wrapf "failed to get hostname" err)
      | Ok podName => Ok (mkAgentConfig "" "" "" podName namespace "" "" "")
      end
  end.

(* [internal/config/agent.go:47-58 Validate] *)
Definition validate_agent (c : AgentConfig) : result unit :=
  if bool_decide (ac_DeviceName c = "") then Err (errorf "device name is required")
  else if bool_decide (ac_PKCS11LibraryPath c = "") then Err (errorf "PKCS11 library path is required")
  else if bool_decide (ac_PodNamespace c = "") then Err (errorf "pod namespace is required")
  else Ok ().

(* [internal/config/discovery.go:16-42] *)
Definition NewDiscoveryConfigFromEnv : result DiscoveryConfig :=
  let nodeName := Getenv env "NODE_NAME" in
  if bool_decide (nodeName = "") then Err (errorf "NODE_NAME environment variable is required")
  else match GetCurrentNamespace with
  | Err err => Err (wrapf "failed to get current namespace" err)
  | Ok namespace =>
      match Hostname env with
      | Err err => Err (wrapf "failed to get hostname" err)
      | Ok podName => Ok (mkDiscoveryConfig nodeName podName namespace)
      end
  end.

(* [internal/config/discovery.go:45-56 Validate] *)
Definition validate_discovery (c : DiscoveryConfig) : result unit :=
  if bool_decide (dc_NodeName c = "") then Err (errorf "node name is required")
  else if bool_decide (dc_PodName c = "") then Err (errorf "pod name is required")
  else if bool_decide (dc_PodNamespace c = "") then Err (errorf "pod namespace is required")
  else Ok ().

(* [internal/config/manager.go:16-28] *)
Definition NewManagerConfigFromEnv : result ManagerConfig :=
  match Hostname env with
  | Err err => Err (wrapf "failed to get hostname" err)
  | Ok hostname => Ok (mkManagerConfig hostname "" "")
  end.

(* [internal/config/manager.go:31-41] *)
Definition NewManagerConfigWithImages (agentImage discoveryImage : string) : result ManagerConfig :=
  match NewManagerConfigFromEnv with
  | Err err => Err err
  | Ok cfg => Ok (mkManagerConfig (mg_Hostname cfg) discoveryImage agentImage)
  end.

(** [ServiceAccountName] is the field of the pod's spec. *)
(* [internal/config/service_account.go:32-62] *)
Definition GetCurrentServiceAccount {W} (k8sClient : KubeClient W) (ServiceAccountName : Pod → string) : ST W (result string) :=
  match GetCurrentNamespace with
  | Err err => st_ret (Err (wrapf "unable to get current namespace" err))
  | Ok namespace =>
      match Hostname env with
      | Err err => st_ret (Err (wrapf "unable to get pod name from hostname" err))
      | Ok podName =>
          st_try (api_Get (Pods k8sClient) namespace podName)
            (wrapf ("unable to get pod " +:+ namespace +:+ "/" +:+ podName)) (λ pod,
            st_ret (if bool_decide (ServiceAccountName pod = "")
                    then Err (errorf ("pod " +:+ namespace +:+ "/" +:+ podName +:+ " has no service account specified in its spec"))
                    else Ok (ServiceAccountName pod)))
      end
  end.
End Config.
