(* ===== verification/Pki.v ===== *)
(** * internal/pki: the certificates of the agents and the manager

    A certificate authority and two leaf certificates kept in Secrets, issued again
    before they expire.  crypto/x509, encoding/pem, randomness, the clock (nanoseconds)
    and the Kubernetes API are arguments; keys are opaque. *)

From Stdlib Require Import Ascii.
From S2P Require Import Prelude GoStd Base64 Api Kube.

Local Open Scope go_scope.

(* [internal/pki/pki.go:36-36] *)
Definition ServerCertDNSName : string := "hsm-agent".
(* [internal/pki/pki.go:40-40] *)
Definition ClientCertDNSName : string := "hsm-manager".
(* [internal/pki/pki.go:43-43] *)
Definition DefaultLeafValidity : Z := 90 * 24 * Hour.
(* [internal/pki/pki.go:47-47] *)
Definition DefaultRenewBefore : Z := 30 * 24 * Hour.
(* [internal/pki/pki.go:50-50] *)
Definition CAValidity : Z := 10 * 365 * 24 * Hour.
(* [internal/pki/pki.go:53-53] *)
Definition pemTypeCertificate : string := "CERTIFICATE".

(** The fields of [x509.Certificate] that are set, of a template and of a certificate. *)
Record Certificate := mkCertificate {
  x_SerialNumber : Z;
  x_CommonName : string;
  x_Organization : list string;
  x_NotBefore : Z;
  x_NotAfter : Z;
  x_KeyUsage : list string;
  x_ExtKeyUsage : list string;
  x_BasicConstraintsValid : bool;
  x_IsCA : bool;
  x_MaxPathLenZero : bool;
  x_DNSNames : list string;
}.

(** [CreateCertificate template parent key signer]: the DER of the template for the public
    half of [key], signed by [signer] in the name of [parent]. *)
Record Crypto (W Key Pair : Type) := mkCrypto {
  GenerateKey : ST W (result Key);
  rand_Int : Z → ST W (result Z);
  CreateCertificate : Certificate → Certificate → Key → Key → ST W (result string);
  ParseCertificate : string → result Certificate;
  MarshalECPrivateKey : Key → result string;
  ParseECPrivateKey : string → result Key;
  pem_Encode : string → string → string;
  pem_Decode : string → option (string * string);
  X509KeyPair : string → string → result Pair;
  AppendCertsFromPEM : string → bool;
}.
Arguments mkCrypto {W Key Pair}.
Arguments GenerateKey {W Key Pair}.
Arguments rand_Int {W Key Pair}.
Arguments CreateCertificate {W Key Pair}.
Arguments ParseCertificate {W Key Pair}.
Arguments MarshalECPrivateKey {W Key Pair}.
Arguments ParseECPrivateKey {W Key Pair}.
Arguments pem_Encode {W Key Pair}.
Arguments pem_Decode {W Key Pair}.
Arguments X509KeyPair {W Key Pair}.
Arguments AppendCertsFromPEM {W Key Pair}.

(* [internal/pki/ca.go:33-38] *)
Record CA (Key : Type) := mkCA { ca_cert : Certificate; ca_key : Key; ca_certPEM : string; ca_keyPEM : string }.
Arguments mkCA {Key}.
Arguments ca_cert {Key}.
Arguments ca_key {Key}.
Arguments ca_certPEM {Key}.
Arguments ca_keyPEM {Key}.
(* [internal/pki/leaf.go:31-34] *)
Record Leaf := mkLeaf { lf_CertPEM : string; lf_KeyPEM : string }.

(* [internal/pki/store.go:39-39] *)
Definition ManagedByAnnotation : string := "hsm.j5t.io/mtls-managed-by".
(* [internal/pki/store.go:40-40] *)
Definition SelfManagedValue : string := "hsm-secrets-operator".

(* [internal/pki/store.go:44-55 Config] *)
Record PKIConfig := mkPKIConfig {
  pc_Namespace : string;
  pc_CASecretName : string;
  pc_ServerSecretName : string;
  pc_ClientSecretName : string;
  pc_LeafValidity : Z;
  pc_RenewBefore : Z;
  pc_CertManagerEnabled : bool;
}.

(** [CAPool] is the pool of the certificates in [CACertPEM]. *)
(* [internal/pki/store.go:59-64] *)
Record Bundle (Pair : Type) := mkBundle { bd_CACertPEM : string; bd_ClientCert : Pair; bd_ServerSecretName : string }.
Arguments mkBundle {Pair}.
Arguments bd_CACertPEM {Pair}.
Arguments bd_ClientCert {Pair}.
Arguments bd_ServerSecretName {Pair}.

Definition TLSCertKey : string := "tls.crt".
Definition TLSPrivateKeyKey : string := "tls.key".
Definition ServiceAccountRootCAKey : string := "ca.crt".
(** A key of [secret.Data], empty if absent. *)
Definition data_at (s : Secret) (k : string) : string := default "" (se_Data s !! k).

(* [internal/pki/store.go:248-251] *)
Definition isExternallyManaged (secret : Secret) : bool :=
  match om_Annotations (se_meta secret) !! ManagedByAnnotation with
  | Some v => bool_decide (v ≠ SelfManagedValue)
  | None => false
  end.

(* [internal/pki/store.go:255-271] *)
Definition newPKISecret (namespace name : string) (data : gmap string string) : Secret :=
  mkSecret (mkObjectMeta name namespace "" 0
              (<["app.kubernetes.io/managed-by" := SelfManagedValue]> {["app.kubernetes.io/component" := "mtls"]})
              {[ManagedByAnnotation := SelfManagedValue]} [] None [] zero_time 0)
    "kubernetes.io/tls" data.

(** The existing Secret with the leaf copied in, marked as managed here. *)
(* [internal/pki/store.go:205-212 getOrIssueLeaf] *)
Definition update_leaf_secret (secret : Secret) (data : gmap string string) : Secret :=
  let m := se_meta secret in
  mkSecret (mkObjectMeta (om_Name m) (om_Namespace m) (om_UID m) (om_ResourceVersion m) (om_Labels m)
              (<[ManagedByAnnotation := SelfManagedValue]> (om_Annotations m)) (om_Finalizers m) (om_DeletionTimestamp m)
              (om_OwnerReferences m) (om_CreationTimestamp m) (om_Generation m))
    (se_Type secret) (data ∪ se_Data secret).

(** The defaults of [EnsurePKI]. *)
(* [internal/pki/store.go:71-76 EnsurePKI] *)
Definition with_defaults (cfg : PKIConfig) : PKIConfig :=
  mkPKIConfig (pc_Namespace cfg) (pc_CASecretName cfg) (pc_ServerSecretName cfg) (pc_ClientSecretName cfg)
    (if pc_LeafValidity cfg =? 0 then DefaultLeafValidity else pc_LeafValidity cfg)
    (if pc_RenewBefore cfg =? 0 then DefaultRenewBefore else pc_RenewBefore cfg) (pc_CertManagerEnabled cfg).

Section Pki.
Context {W Key Pair : Type} (crypto : Crypto W Key Pair) (c : KubeClient W) (clockNow : ST W Z).

(* [internal/pki/ca.go:119-126] *)
Definition randomSerial : ST W (result Z) :=
  st_try (rand_Int crypto (2 ^ 128)) (wrapf "failed to generate serial number") (λ serial, st_ret (Ok serial)).

(* [internal/pki/ca.go:129-135] *)
Definition marshalECKey (key : Key) : result string :=
  match MarshalECPrivateKey crypto key with
  | Err err => Err (wrapf "failed to marshal EC private key" err)
  | Ok der => Ok (pem_Encode crypto "EC PRIVATE KEY" der)
  end.

(* [internal/pki/ca.go:41-84] *)
Definition GenerateCA : ST W (result (CA Key)) :=
  st_try (GenerateKey crypto) (wrapf "failed to generate CA key") (λ key,
  st_try randomSerial id (λ serial,
  let* now := clockNow in
  let notBefore := now - Minute in
  let template := mkCertificate serial "hsm-mtls-ca" ["hsm-secrets-operator"] notBefore (notBefore + CAValidity)
    ["CertSign"; "CRLSign"] [] true true true [] in
  st_try (CreateCertificate crypto template template key key) (wrapf "failed to create CA certificate") (λ der,
  st_ret (match ParseCertificate crypto der with
          | Err err => Err (wrapf "failed to parse CA certificate" err)
          | Ok cert => result_map (mkCA cert key (pem_Encode crypto pemTypeCertificate der)) (marshalECKey key)
          end)))).

(* [internal/pki/ca.go:87-107] *)
Definition LoadCA (certPEM keyPEM : string) : result (CA Key) :=
  match pem_Decode crypto certPEM with
  | Some (ty, der) =>
      if bool_decide (ty ≠ pemTypeCertificate) then Err (errorf "invalid CA certificate PEM")
      else match ParseCertificate crypto der with
      | Err err => Err (wrapf "failed to parse CA certificate" err)
      | Ok cert =>
          match pem_Decode crypto keyPEM with
          | None => Err (errorf "invalid CA key PEM")
          | Some (_, keyDER) =>
              match ParseECPrivateKey crypto keyDER with
              | Err err => Err (wrapf "failed to parse CA key" err)
              | Ok key => Ok (mkCA cert key certPEM keyPEM)
              end
          end
      end
  | None => Err (errorf "invalid CA certificate PEM")
  end.

(* [internal/pki/leaf.go:49-87] *)
Definition issueLeaf (ca : CA Key) (commonName dnsName : string) (validity : Z) (eku : string) : ST W (result Leaf) :=
  st_try (GenerateKey crypto) (wrapf "failed to generate leaf key") (λ key,
  st_try randomSerial id (λ serial,
  let* now := clockNow in
  let notBefore := now - Minute in
  let* now := clockNow in
  let template := mkCertificate serial commonName ["hsm-secrets-operator"] notBefore (now + validity)
    ["DigitalSignature"; "KeyEncipherment"] [eku] true false false [dnsName] in
  st_try (CreateCertificate crypto template (ca_cert ca) key (ca_key ca)) (wrapf "failed to create leaf certificate") (λ der,
  st_ret (result_map (mkLeaf (pem_Encode crypto pemTypeCertificate der)) (marshalECKey key))))).
(* [internal/pki/leaf.go:39-41] *)
Definition IssueServerCert (ca : CA Key) (dnsName : string) (validity : Z) : ST W (result Leaf) :=
  issueLeaf ca dnsName dnsName validity "ServerAuth".
(* [internal/pki/leaf.go:44-46] *)
Definition IssueClientCert (ca : CA Key) (name : string) (validity : Z) : ST W (result Leaf) :=
  issueLeaf ca name name validity "ClientAuth".

(* [internal/pki/leaf.go:91-101] *)
Definition NeedsRotation (certPEM : string) (renewBefore : Z) : ST W bool :=
  match pem_Decode crypto certPEM with
  | Some (ty, der) =>
      if bool_decide (ty ≠ pemTypeCertificate) then st_ret true
      else match ParseCertificate crypto der with
      | Err _ => st_ret true
      | Ok cert => let* now := clockNow in st_ret (x_NotAfter cert - renewBefore <? now)
      end
  | None => st_ret true
  end.

(** The data of a leaf's Secret. *)
(* [internal/pki/store.go:191-195 getOrIssueLeaf] *)
Definition leaf_data (ca : CA Key) (leaf : Leaf) : gmap string string :=
  <[ServiceAccountRootCAKey := ca_certPEM ca]> (<[TLSCertKey := lf_CertPEM leaf]> {[TLSPrivateKeyKey := lf_KeyPEM leaf]}).

(** The certificate and the key a Secret holds. *)
Definition pair_of (secret : Secret) : string * string := (data_at secret TLSCertKey, data_at secret TLSPrivateKeyKey).

(** Issuing the leaf and storing it, into the existing Secret or a new one. *)
(* [internal/pki/store.go:187-216 getOrIssueLeaf] *)
Definition store_leaf (cfg : PKIConfig) (name : string) (ca : CA Key) (issue : ST W (result Leaf)) (existing : option Secret) :
    ST W (result (string * string)) :=
  st_try issue id (λ leaf,
    let data := leaf_data ca leaf in
    match existing with
    | None =>
        st_try (api_Create (Secrets c) (newPKISecret (pc_Namespace cfg) name data)) (wrapf ("creating Secret " +:+ name))
          (λ _, st_ret (Ok (lf_CertPEM leaf, lf_KeyPEM leaf)))
    | Some secret =>
        st_try (api_Update (Secrets c) (update_leaf_secret secret data)) (wrapf ("updating Secret " +:+ name))
          (λ _, st_ret (Ok (lf_CertPEM leaf, lf_KeyPEM leaf)))
    end).

(* [internal/pki/store.go:168-217] *)
Definition getOrIssueLeaf (cfg : PKIConfig) (name : string) (ca : CA Key) (issue : ST W (result Leaf)) : ST W (result (string * string)) :=
  let* r := api_Get (Secrets c) (pc_Namespace cfg) name in
  match r with
  | Err err => if IsNotFound err then store_leaf cfg name ca issue None
               else st_ret (Err (wrapf ("getting Secret " +:+ name) err))
  | Ok secret =>
      if isExternallyManaged secret then st_ret (Ok (pair_of secret))
      else
        let* due := NeedsRotation (data_at secret TLSCertKey) (pc_RenewBefore cfg) in
        if negb due then st_ret (Ok (pair_of secret)) else store_leaf cfg name ca issue (Some secret)
  end.

(* [internal/pki/store.go:112-141] *)
Definition ensureCA (cfg : PKIConfig) : ST W (result (CA Key)) :=
  let* r := api_Get (Secrets c) (pc_Namespace cfg) (pc_CASecretName cfg) in
  match r with
  | Ok secret => st_ret (LoadCA (data_at secret TLSCertKey) (data_at secret TLSPrivateKeyKey))
  | Err err =>
      if negb (IsNotFound err) then st_ret (Err (wrapf "getting CA Secret" err))
      else
        st_try GenerateCA id (λ ca,
        let* cr := api_Create (Secrets c) (newPKISecret (pc_Namespace cfg) (pc_CASecretName cfg)
          (<[TLSCertKey := ca_certPEM ca]> {[TLSPrivateKeyKey := ca_keyPEM ca]})) in
        match cr with
        | Ok _ => st_ret (Ok ca)
        | Err err =>
            let failure := Err (wrapf "creating CA Secret" err) in
            if IsAlreadyExists err then
              let* g := api_Get (Secrets c) (pc_Namespace cfg) (pc_CASecretName cfg) in
              match g with
              | Ok secret => st_ret (LoadCA (data_at secret TLSCertKey) (data_at secret TLSPrivateKeyKey))
              | Err _ => st_ret failure
              end
            else st_ret failure
        end)
  end.

(* [internal/pki/store.go:145-148] *)
Definition ensureLeafSecret (cfg : PKIConfig) (name : string) (ca : CA Key) (issue : ST W (result Leaf)) : ST W (result unit) :=
  st_try (getOrIssueLeaf cfg name ca issue) id (λ _, st_ret (Ok ())).

(* [internal/pki/store.go:152-164] *)
Definition ensureClientLeafSecret (cfg : PKIConfig) (ca : CA Key) : ST W (result Pair) :=
  st_try (getOrIssueLeaf cfg (pc_ClientSecretName cfg) ca (IssueClientCert ca ClientCertDNSName (pc_LeafValidity cfg))) id (λ '(certPEM, keyPEM),
    st_ret (match X509KeyPair crypto certPEM keyPEM with
            | Err err => Err (wrapf "parsing client leaf" err)
            | Ok kp => Ok kp
            end)).

(* [internal/pki/store.go:221-244] *)
Definition readExternalBundle (cfg : PKIConfig) : ST W (result (Bundle Pair)) :=
  let name := pc_ClientSecretName cfg in
  st_try (api_Get (Secrets c) (pc_Namespace cfg) name) (wrapf ("getting externally-managed client Secret " +:+ name)) (λ clientSecret,
    let caPEM := data_at clientSecret ServiceAccountRootCAKey in
    st_ret (if bool_decide (caPEM = "")
            then Err (errorf ("externally-managed client Secret " +:+ name +:+ " missing " +:+ ServiceAccountRootCAKey))
            else match X509KeyPair crypto (data_at clientSecret TLSCertKey) (data_at clientSecret TLSPrivateKeyKey) with
            | Err err => Err (wrapf "parsing externally-managed client leaf" err)
            | Ok kp =>
                if negb (AppendCertsFromPEM crypto caPEM)
                then Err (errorf "failed to build CA trust pool from externally-managed Secret")
                else Ok (mkBundle caPEM kp (pc_ServerSecretName cfg))
            end)).

(* [internal/pki/store.go:70-109] *)
Definition EnsurePKI (cfg : PKIConfig) : ST W (result (Bundle Pair)) :=
  let cfg := with_defaults cfg in
  if pc_CertManagerEnabled cfg then readExternalBundle cfg
  else
    st_try (ensureCA cfg) id (λ ca,
    st_try (ensureLeafSecret cfg (pc_ServerSecretName cfg) ca (IssueServerCert ca ServerCertDNSName (pc_LeafValidity cfg)))
      (wrapf "ensuring server Secret") (λ _,
    st_try (ensureClientLeafSecret cfg ca) (wrapf "ensuring client Secret") (λ clientLeaf,
    st_ret (if negb (AppendCertsFromPEM crypto (ca_certPEM ca)) then Err (errorf "failed to build CA trust pool")
            else Ok (mkBundle (ca_certPEM ca) clientLeaf (pc_ServerSecretName cfg)))))).
End Pki.

(** ** modes/manager/pki_runnable.go and agent/tls.go *)

(** The manager's material for dialing agents; the leaf is swapped atomically. *)
(* [internal/agent/tls.go:35-39] *)
Record ClientTLS (Pair : Type) := mkClientTLS { tls_leaf : Pair; tls_rootCAs : string; tls_serverName : string }.
Arguments mkClientTLS {Pair}.
Arguments tls_leaf {Pair}.
Arguments tls_rootCAs {Pair}.
Arguments tls_serverName {Pair}.
(* [internal/agent/tls.go:42-49] *)
Definition NewClientTLS {Pair} (bundle : Bundle Pair) : ClientTLS Pair :=
  mkClientTLS (bd_ClientCert bundle) (bd_CACertPEM bundle) ServerCertDNSName.
(* [internal/agent/tls.go:52-54] *)
Definition SwapLeaf {Pair} (cert : Pair) (t : ClientTLS Pair) : ClientTLS Pair :=
  mkClientTLS cert (tls_rootCAs t) (tls_serverName t).

(** The flags of the manager that matter here. *)
Record TLSFlags := mkTLSFlags {
  agentTLSCASecret : string;
  agentTLSServerSecret : string;
  agentTLSClientSecret : string;
  agentTLSLeafValidity : string;
  agentTLSRenewBefore : string;
  agentTLSCertManager : bool;
}.
(** [ParseDuration] is [time.ParseDuration]. *)
(* [internal/modes/manager/pki_runnable.go:36-54] *)
Definition pkiConfig (ParseDuration : string → result Z) (cfg : TLSFlags) (namespace : string) : result PKIConfig :=
  match ParseDuration (agentTLSLeafValidity cfg) with
  | Err err => Err (wrapf ("invalid agent-tls-leaf-validity " +:+ quoted (agentTLSLeafValidity cfg)) err)
  | Ok leafValidity =>
      match ParseDuration (agentTLSRenewBefore cfg) with
      | Err err => Err (wrapf ("invalid agent-tls-renew-before " +:+ quoted (agentTLSRenewBefore cfg)) err)
      | Ok renewBefore =>
          Ok (mkPKIConfig namespace (agentTLSCASecret cfg) (agentTLSServerSecret cfg) (agentTLSClientSecret cfg)
                leafValidity renewBefore (agentTLSCertManager cfg))
      end
  end.

(** One check of the rotation runnable; the runnable does one every 12 hours. *)
(* [internal/modes/manager/pki_runnable.go:33-33] *)
Definition pkiRotationInterval : Z := 12 * Hour.
(* [internal/modes/manager/pki_runnable.go:104-111] *)
Definition rotateOnce {W Key Pair} (crypto : Crypto W Key Pair) (c : KubeClient W) (clockNow : ST W Z) (pkiCfg : PKIConfig)
    (clientTLS : ClientTLS Pair) : ST W (result unit * ClientTLS Pair) :=
  let* r := EnsurePKI crypto c clockNow pkiCfg in
  st_ret (match r with
          | Err err => (Err err, clientTLS)
          | Ok bundle => (Ok (), SwapLeaf (bd_ClientCert bundle) clientTLS)
          end).

(** ** What [EnsurePKI] guarantees *)

(** The three Secrets of a configuration. *)
Definition pki_names (cfg : PKIConfig) : list string := [pc_CASecretName cfg; pc_ServerSecretName cfg; pc_ClientSecretName cfg].
Lemma pki_names_distinct cfg : NoDup (pki_names cfg) →
  pc_CASecretName cfg ≠ pc_ServerSecretName cfg ∧ pc_CASecretName cfg ≠ pc_ClientSecretName cfg ∧
  pc_ServerSecretName cfg ≠ pc_ClientSecretName cfg ∧ pc_CASecretName cfg ∈ pki_names cfg ∧
  pc_ServerSecretName cfg ∈ pki_names cfg ∧ pc_ClientSecretName cfg ∈ pki_names cfg.
Proof.
  unfold pki_names. rewrite !NoDup_cons, !not_elem_of_cons. set_solver.
Qed.

Section Spec.
Context {W Key Pair : Type} `{!ClusterView W} (crypto : Crypto W Key Pair) (c : KubeClient W) (clockNow : ST W Z).
Context `{!ApiLaws (Secrets c)}.
Hypothesis clock_keeps : preserves same_objects clockNow.
Hypothesis key_keeps : preserves same_objects (GenerateKey crypto).
Hypothesis rand_keeps : ∀ n, preserves same_objects (rand_Int crypto n).
Hypothesis create_keeps : ∀ t p k s, preserves same_objects (CreateCertificate crypto t p k s).

Lemma randomSerial_keeps : preserves same_objects (randomSerial crypto).
Proof. apply (preserves_try same_objects); [apply rand_keeps|]. intros. apply (preserves_ret same_objects). Qed.

Ltac keeps :=
  repeat first
    [ assumption | apply randomSerial_keeps | apply create_keeps
    | match goal with
      | |- preserves _ (st_ret _) => apply (preserves_ret same_objects)
      | |- preserves _ (st_try _ _ _) => apply (preserves_try same_objects); [|intros]
      | |- preserves _ (st_bind _ _) => apply (preserves_bind same_objects); [|intros]
      | |- preserves _ (match ?x with _ => _ end) => destruct x
      end ].

Lemma issueLeaf_keeps ca cn dns v eku : preserves same_objects (issueLeaf crypto clockNow ca cn dns v eku).
Proof. unfold issueLeaf. keeps. Qed.
Lemma GenerateCA_keeps : preserves same_objects (GenerateCA crypto clockNow).
Proof. unfold GenerateCA. keeps. Qed.
Lemma NeedsRotation_keeps pem b : preserves same_objects (NeedsRotation crypto clockNow pem b).
Proof. unfold NeedsRotation. keeps. Qed.

(** The Secret of a name in the namespace of the configuration. *)
Definition stored (cfg : PKIConfig) (w : W) (name : string) : option Secret :=
  k_get (objects w) !! (pc_Namespace cfg, name).
(** The API server has removed what is deleted and has no finalizer. *)
Definition not_lingering (cfg : PKIConfig) (w : W) (name : string) : Prop :=
  ∀ s, stored cfg w name = Some s → om_DeletionTimestamp (se_meta s) ≠ None → om_Finalizers (se_meta s) ≠ [].

Lemma stored_same cfg w w' name : objects w' = objects w → stored cfg w' name = stored cfg w name.
Proof. unfold stored. by intros ->. Qed.
Lemma stored_insert cfg w w' name s :
  key_of s = (pc_Namespace cfg, name) → wrote (insert (key_of s) s) w w' → stored cfg w' name = Some s.
Proof. unfold stored, wrote. intros Hk ->. by rewrite k_get_set, Hk, lookup_insert_eq. Qed.
Lemma touches_stored cfg (P : string * string → Prop) w w' name :
  touches (T := Secret) P w w' → ¬ P (pc_Namespace cfg, name) → stored cfg w' name = stored cfg w name.
Proof. intros (t & Ho & Ht) HP. unfold stored. rewrite Ho, k_get_set. by apply Ht. Qed.

Definition is_key (cfg : PKIConfig) (name : string) (k : string * string) : Prop := k = (pc_Namespace cfg, name).

Lemma pair_of_update s (ca : CA Key) leaf : pair_of (update_leaf_secret s (leaf_data ca leaf)) = (lf_CertPEM leaf, lf_KeyPEM leaf).
Proof.
  unfold pair_of, data_at. simpl. unfold leaf_data.
  rewrite (lookup_union_Some_l _ _ TLSCertKey (lf_CertPEM leaf)), (lookup_union_Some_l _ _ TLSPrivateKeyKey (lf_KeyPEM leaf)) by done.
  done.
Qed.

Lemma same_pair s s' : k_same s s' → pair_of s' = pair_of s.
Proof. intros (_ & _ & Hd). unfold pair_of, data_at. by rewrite Hd. Qed.

Lemma store_leaf_spec cfg name (ca : CA Key) issue existing w r w' :
  preserves same_objects issue → stored cfg w name = existing → not_lingering cfg w name →
  (∀ s, existing = Some s → key_of s = (pc_Namespace cfg, name)) →
  store_leaf c cfg name ca issue existing w = (r, w') →
  touches (T := Secret) (is_key cfg name) w w' ∧
  ∀ p, r = Ok p → (∃ leaf w1, issue w = (Ok leaf, w1) ∧ p = (lf_CertPEM leaf, lf_KeyPEM leaf)) ∧
    ∃ s, stored cfg w' name = Some s ∧ pair_of s = p.
Proof.
  intros Hi Hst Hl Hkey. unfold store_leaf, st_try. unfold st_bind at 1. destruct (issue w) as [[leaf|e] w1] eqn:Ei;
    pose proof (preserves_at same_objects _ _ _ _ Hi Ei) as H1; [|intros [= <- <-]; split; [by apply touches_refl|done]].
  assert (touches (T := Secret) (is_key cfg name) w w1) as T1 by by apply touches_refl.
  destruct existing as [s|]; unfold st_bind.
  - set (t := update_leaf_secret s _). assert (key_of t = (pc_Namespace cfg, name)) as Ht by exact (Hkey s eq_refl).
    destruct (api_Update (Secrets c) t w1) as [ru w2] eqn:Eu.
    pose proof (Update_touches (Secrets c) (is_key cfg name) t w1 ru w2 Ht Eu) as T2. apply api_Update_law in Eu.
    destruct ru as [t'|e]; intros [= <- <-]; (split; [by etrans|]); [|done]. intros p [= <-]. split; [by eauto|].
    destruct Eu as (t0 & [Hg [(t1 & Hs & Hw)|(Hd & Hf & _)]] & _).
    + exists t1. split; [|rewrite (same_pair _ _ Hs); apply pair_of_update]. apply (stored_insert cfg w1 w2 name t1);
        rewrite (k_same_key _ _ Hs); [exact Ht|exact Hw].
    + exfalso. change (k_merge t0 t) with t in *. rewrite Ht, H1 in Hg. unfold stored in Hst. rewrite Hst in Hg.
      injection Hg as <-. by apply (Hl s Hst).
  - set (t := newPKISecret _ _ _). assert (key_of t = (pc_Namespace cfg, name)) as Ht by done.
    destruct (api_Create (Secrets c) t w1) as [rc w2] eqn:Ec.
    pose proof (Create_touches (Secrets c) (is_key cfg name) t w1 rc w2 Ht Ec) as T2. apply api_Create_law in Ec.
    destruct rc as [t'|e]; intros [= <- <-]; (split; [by etrans|]); [|done]. intros p [= <-]. split; [by eauto|].
    destruct Ec as (_ & Hs & Hw). exists t'. split; [|by rewrite (same_pair _ _ Hs)].
    apply (stored_insert cfg w1 w2 name t'); rewrite (k_same_key _ _ Hs); [done|exact Hw].
Qed.

(** [certPEM] is a certificate that is not due for renewal at [t]. *)
Definition current (cfg : PKIConfig) (t : Z) (certPEM : string) : Prop :=
  ∃ der cert, pem_Decode crypto certPEM = Some (pemTypeCertificate, der) ∧ ParseCertificate crypto der = Ok cert ∧
    t ≤ x_NotAfter cert - pc_RenewBefore cfg.
(** A leaf's Secret that need not be issued again at [t]. *)
Definition served (cfg : PKIConfig) (t : Z) (s : Secret) : Prop :=
  isExternallyManaged s = true ∨ current cfg t (data_at s TLSCertKey).

Lemma NeedsRotation_current pem cfg (t : Z) w w' :
  (∀ w, t ≤ (clockNow w).1) → NeedsRotation crypto clockNow pem (pc_RenewBefore cfg) w = (false, w') → current cfg t pem.
Proof.
  intros Hc. unfold NeedsRotation, current. destruct (pem_Decode crypto pem) as [[ty der]|]; [|done].
  case_bool_decide as E; [done|]. assert (ty = pemTypeCertificate) as -> by (by destruct (decide (ty = pemTypeCertificate))). destruct (ParseCertificate crypto der) as [cert|] eqn:Ep; [|done].
  unfold st_bind. specialize (Hc w). destruct (clockNow w) as [now w1]. simpl in Hc. intros [= Hlt _].
  exists der, cert. split; [done|]. split; [done|]. apply Z.ltb_ge in Hlt. lia.
Qed.

Lemma store_leaf_served cfg (t : Z) name (ca : CA Key) issue existing w r w' :
  preserves same_objects issue → (∀ w leaf w', issue w = (Ok leaf, w') → current cfg t (lf_CertPEM leaf)) →
  stored cfg w name = existing → not_lingering cfg w name → (∀ s, existing = Some s → key_of s = (pc_Namespace cfg, name)) →
  store_leaf c cfg name ca issue existing w = (r, w') →
  touches (T := Secret) (is_key cfg name) w w' ∧
  ∀ p, r = Ok p → ∃ s, stored cfg w' name = Some s ∧ pair_of s = p ∧ served cfg t s.
Proof.
  intros Hi Hfresh Hst Hl Hk E. destruct (store_leaf_spec cfg name ca issue existing w r w' Hi Hst Hl Hk E) as [HT Hp].
  split; [exact HT|]. intros p Hr. destruct (Hp p Hr) as ((leaf & w1 & Ei & ->) & s & Hs & Epair).
  exists s. split; [done|]. split; [done|]. right. injection Epair as -> _. by eapply Hfresh.
Qed.

Lemma getOrIssueLeaf_spec cfg (t : Z) name (ca : CA Key) issue w r w' :
  (∀ w, t ≤ (clockNow w).1) → preserves same_objects issue →
  (∀ w leaf w', issue w = (Ok leaf, w') → current cfg t (lf_CertPEM leaf)) → not_lingering cfg w name →
  getOrIssueLeaf crypto c clockNow cfg name ca issue w = (r, w') →
  touches (T := Secret) (is_key cfg name) w w' ∧
  (∀ s, stored cfg w name = Some s → isExternallyManaged s = true → stored cfg w' name = Some s) ∧
  ∀ p, r = Ok p → ∃ s, stored cfg w' name = Some s ∧ pair_of s = p ∧ served cfg t s.
Proof.
  intros Hc Hi Hfresh Hl. unfold getOrIssueLeaf. unfold st_bind at 1.
  destruct (api_Get (Secrets c) (pc_Namespace cfg) name w) as [rg w1] eqn:Eg.
  apply api_Get_law in Eg as [H1 Hg]. pose proof (stored_same cfg w w1 name H1) as S1.
  assert (not_lingering cfg w1 name) as Hl1 by (unfold not_lingering; by rewrite S1).
  assert (touches (T := Secret) (is_key cfg name) w w1) as T1 by by apply touches_refl.
  destruct rg as [s|e].
  - destruct Hg as [Hs Hk]. destruct (isExternallyManaged s) eqn:Ex.
    { intros [= <- <-]. split; [done|]. rewrite S1. split; [done|]. intros p [= <-]. exists s. by repeat split; [|left]. }
    unfold st_bind. destruct (NeedsRotation _ _ _ _ w1) as [due w2] eqn:En.
    pose proof (preserves_at same_objects _ _ _ _ (NeedsRotation_keeps _ _) En) as H2. pose proof (stored_same cfg w1 w2 name H2) as S2.
    assert (∀ s', stored cfg w name = Some s' → isExternallyManaged s' = true → stored cfg w' name = Some s') as Hno.
    { intros s' Hs'. unfold stored in Hs'. rewrite Hs in Hs'. injection Hs' as <-. by rewrite Ex. }
    destruct due; simpl; intros E.
    + destruct (store_leaf_served cfg t name ca issue (Some s) w2 r w' Hi Hfresh) as [T3 Hp]; [by rewrite S2, S1| |by intros ? [= <-]|exact E|].
      { unfold not_lingering. by rewrite S2. }
      split; [etrans; [exact T1|]; etrans; [by apply touches_refl|exact T3]|]. by split.
    + injection E as <- <-. split; [etrans; [exact T1|by apply touches_refl]|]. split; [done|].
      intros p [= <-]. exists s. rewrite S2, S1. split; [done|]. split; [done|]. right. by eapply NeedsRotation_current.
  - destruct (IsNotFound e) eqn:Enf; intros E.
    + specialize (Hg eq_refl). destruct (store_leaf_served cfg t name ca issue None w1 r w' Hi Hfresh) as [T3 Hp]; [by rewrite S1|done|done|exact E|].
      split; [by etrans|]. split; [|done]. intros s Hs. unfold stored in Hs. by rewrite Hg in Hs.
    + injection E as <- <-. split; [done|]. rewrite S1. by split.
Qed.

Lemma LoadCA_certPEM certPEM keyPEM ca : LoadCA crypto certPEM keyPEM = Ok ca → ca_certPEM ca = certPEM.
Proof.
  unfold LoadCA. destruct (pem_Decode crypto certPEM) as [[ty der]|]; [|done]. case_bool_decide; [done|].
  destruct (ParseCertificate crypto der) as [cert|]; [|done]. destruct (pem_Decode crypto keyPEM) as [[ty' der']|]; [|done].
  destruct (ParseECPrivateKey crypto der') as [key|]; [|done]. by intros [= <-].
Qed.

(** The CA of a Secret: what [tls.crt] says. *)
Definition ca_stored (cfg : PKIConfig) (w : W) (certPEM : string) : Prop :=
  ∃ s, stored cfg w (pc_CASecretName cfg) = Some s ∧ data_at s TLSCertKey = certPEM.

Lemma ensureCA_spec cfg w r w' :
  ensureCA crypto c clockNow cfg w = (r, w') →
  touches (T := Secret) (is_key cfg (pc_CASecretName cfg)) w w' ∧
  (∀ s, stored cfg w (pc_CASecretName cfg) = Some s → objects w' = objects w) ∧
  ∀ ca, r = Ok ca → ca_stored cfg w' (ca_certPEM ca).
Proof.
  unfold ensureCA. set (n := pc_CASecretName cfg). unfold st_bind at 1.
  destruct (api_Get (Secrets c) (pc_Namespace cfg) n w) as [rg w1] eqn:Eg. apply api_Get_law in Eg as [H1 Hg].
  assert (touches (T := Secret) (is_key cfg n) w w1) as T1 by by apply touches_refl.
  destruct rg as [s|e].
  { intros [= <- <-]. split; [done|]. split; [done|]. intros ca Hca. exists s. unfold stored. rewrite H1. split; [apply Hg|].
    by rewrite (LoadCA_certPEM _ _ _ Hca). }
  destruct (IsNotFound e); simpl; [|intros [= <- <-]; done]. specialize (Hg eq_refl).
  unfold st_try. unfold st_bind at 1. destruct (GenerateCA crypto clockNow w1) as [rca w2] eqn:Eca.
  pose proof (preserves_at same_objects _ _ _ _ GenerateCA_keeps Eca) as H2.
  assert (touches (T := Secret) (is_key cfg n) w w2) as T2 by (etrans; [exact T1|by apply touches_refl]).
  assert (∀ s, stored cfg w n = Some s → objects w' = objects w) as Hno by (intros s Hs; unfold stored in Hs; by rewrite Hg in Hs).
  destruct rca as [ca|e']; [|intros [= <- <-]; done].
  set (t := newPKISecret _ _ _). assert (key_of t = (pc_Namespace cfg, n)) as Ht by done.
  unfold st_bind. destruct (api_Create (Secrets c) t w2) as [rc w3] eqn:Ec.
  assert (touches (T := Secret) (is_key cfg n) w w3) as T3 by (etrans; [exact T2|by apply (Create_touches (Secrets c) _ t w2 rc w3)]).
  apply api_Create_law in Ec. destruct rc as [t'|e'].
  - intros [= <- <-]. split; [done|]. split; [done|]. intros ca' [= <-]. destruct Ec as (_ & Hs & Hw). exists t'. split.
    + apply (stored_insert cfg w2 w3 n t'); rewrite (k_same_key _ _ Hs); [done|exact Hw].
    + pose proof (same_pair _ _ Hs) as [= -> _]. done.
  - destruct (IsAlreadyExists e'); [|by intros [= <- <-]].
    destruct (api_Get (Secrets c) (pc_Namespace cfg) n w3) as [rg w4] eqn:Eg'. apply api_Get_law in Eg' as [H4 Hg'].
    assert (touches (T := Secret) (is_key cfg n) w w4) as T4 by (etrans; [exact T3|by apply touches_refl]).
    destruct rg as [s|e'']; intros [= <- <-]; (split; [done|]; split; [done|]); [|done]. intros ca' Hca.
    exists s. unfold stored. rewrite H4. split; [apply Hg'|]. by rewrite (LoadCA_certPEM _ _ _ Hca).
Qed.

(** PEM decodes what it encoded; a certificate that was created parses, with its times cut
    to the second. *)
Hypothesis pem_roundtrip : ∀ der, pem_Decode crypto (pem_Encode crypto pemTypeCertificate der) = Some (pemTypeCertificate, der).
Hypothesis created_parses : ∀ t p k s w der w', CreateCertificate crypto t p k s w = (Ok der, w') →
  ∃ cert, ParseCertificate crypto der = Ok cert ∧ x_NotAfter t - Second < x_NotAfter cert.

Lemma issueLeaf_current cfg (t : Z) ca cn dns v eku w leaf w' :
  (∀ w, t ≤ (clockNow w).1) → pc_RenewBefore cfg + Second ≤ v →
  issueLeaf crypto clockNow ca cn dns v eku w = (Ok leaf, w') → current cfg t (lf_CertPEM leaf).
Proof.
  intros Hc Hv. unfold issueLeaf, st_try, st_bind.
  destruct (GenerateKey crypto w) as [[key|] w1]; [|done]. destruct (randomSerial crypto w1) as [[serial|] w2]; [|done].
  destruct (clockNow w2) as [n1 w3]. specialize (Hc w3). destruct (clockNow w3) as [n2 w4]. simpl in Hc. cbv zeta.
  destruct (CreateCertificate _ _ _ _ _ w4) as [[der|] w5] eqn:Ecr; [|done].
  destruct (created_parses _ _ _ _ _ _ _ Ecr) as (cert & Hp & Hlt). simpl in Hlt.
  destruct (marshalECKey crypto key) as [k|]; [|done]. intros [= <- _].
  exists der, cert. split; [apply pem_roundtrip|]. split; [done|]. lia.
Qed.

Definition pki_keys (cfg : PKIConfig) (k : string * string) : Prop := k.1 = pc_Namespace cfg ∧ k.2 ∈ pki_names cfg.

(** A bundle that matches the stored Secrets, none of them due at [t]. *)
Definition pki_in_place (cfg : PKIConfig) (t : Z) (w : W) (b : Bundle Pair) : Prop :=
  ca_stored cfg w (bd_CACertPEM b) ∧
  (∃ s, stored cfg w (pc_ServerSecretName cfg) = Some s ∧ served cfg t s) ∧
  (∃ s, stored cfg w (pc_ClientSecretName cfg) = Some s ∧ served cfg t s ∧
     X509KeyPair crypto (pair_of s).1 (pair_of s).2 = Ok (bd_ClientCert b)) ∧
  bd_ServerSecretName b = pc_ServerSecretName cfg.

Lemma ensureClientLeafSecret_spec cfg (t : Z) ca w r w' :
  (∀ w, t ≤ (clockNow w).1) → pc_RenewBefore cfg + Second ≤ pc_LeafValidity cfg → not_lingering cfg w (pc_ClientSecretName cfg) →
  ensureClientLeafSecret crypto c clockNow cfg ca w = (r, w') →
  touches (T := Secret) (is_key cfg (pc_ClientSecretName cfg)) w w' ∧
  (∀ s, stored cfg w (pc_ClientSecretName cfg) = Some s → isExternallyManaged s = true → stored cfg w' (pc_ClientSecretName cfg) = Some s) ∧
  ∀ kp, r = Ok kp → ∃ s, stored cfg w' (pc_ClientSecretName cfg) = Some s ∧ served cfg t s ∧
    X509KeyPair crypto (pair_of s).1 (pair_of s).2 = Ok kp.
Proof.
  intros Hc Hv Hl. unfold ensureClientLeafSecret, st_try, st_bind.
  destruct (getOrIssueLeaf _ _ _ _ _ _ _ w) as [rp w1] eqn:Eg.
  destruct (getOrIssueLeaf_spec cfg t (pc_ClientSecretName cfg) ca _ w rp w1 Hc (issueLeaf_keeps _ _ _ _ _)
    (λ w0 leaf w0', issueLeaf_current cfg t _ _ _ _ _ w0 leaf w0' Hc Hv) Hl Eg) as (HT & Hx & Hp).
  destruct rp as [[cp kp]|e]; intros [= <- <-]; (split; [exact HT|]; split; [exact Hx|]); [|done].
  intros kp' Hk. destruct (Hp _ eq_refl) as (s & Hs & Epair & Hd). exists s. split; [done|]. split; [done|].
  rewrite Epair. simpl. by destruct (X509KeyPair crypto cp kp).
Qed.

Lemma stored_other cfg n m w w' : touches (T := Secret) (is_key cfg n) w w' → m ≠ n → stored cfg w' m = stored cfg w m.
Proof. intros HT Hne. apply (touches_stored cfg _ w w' m HT). unfold is_key. congruence. Qed.
Lemma lingering_other cfg n m w w' :
  touches (T := Secret) (is_key cfg n) w w' → m ≠ n → not_lingering cfg w m → not_lingering cfg w' m.
Proof. intros HT Hne Hl. unfold not_lingering. by rewrite (stored_other cfg n m w w' HT Hne). Qed.
Lemma touches_pki cfg n w w' : n ∈ pki_names cfg → touches (T := Secret) (is_key cfg n) w w' → touches (T := Secret) (pki_keys cfg) w w'.
Proof. intros Hn. apply touches_mono. intros key ->. by split. Qed.

(** What every step does: no write but to the three Secrets, and none to an existing CA or to
    a Secret another controller manages. *)
Definition pki_step (cfg : PKIConfig) (w w' : W) : Prop :=
  touches (T := Secret) (pki_keys cfg) w w' ∧
  ∀ n s, stored cfg w n = Some s → n = pc_CASecretName cfg ∨ isExternallyManaged s = true → stored cfg w' n = Some s.
Lemma pki_step_trans cfg w1 w2 w3 : pki_step cfg w1 w2 → pki_step cfg w2 w3 → pki_step cfg w1 w3.
Proof. intros [T1 K1] [T2 K2]. split; [by etrans|]. intros n s Hs Hn. by apply K2; [apply K1|]. Qed.

Lemma pki_step_at cfg name w w' : name ∈ pki_names cfg → touches (T := Secret) (is_key cfg name) w w' →
  (∀ s, stored cfg w name = Some s → name = pc_CASecretName cfg ∨ isExternallyManaged s = true → stored cfg w' name = Some s) →
  pki_step cfg w w'.
Proof.
  intros Hin HT Hk. split; [by eapply touches_pki|]. intros n s Hs Hn. destruct (decide (n = name)) as [->|Hne]; [by apply Hk|].
  by rewrite (stored_other cfg name n w w' HT Hne).
Qed.

(** C31. Ensuring the PKI in self-managed mode writes no object but its three Secrets, never a
    CA that exists nor a leaf Secret another controller manages; and when it succeeds, the
    three Secrets are stored, the bundle is made of what they hold, and neither leaf is due
    for renewal, as long as leaves are issued for longer than they are renewed before.  With
    cert-manager it writes nothing. *)
Theorem EnsurePKI_ensures cfg0 (t : Z) w r w' :
  let cfg := with_defaults cfg0 in
  (∀ w, t ≤ (clockNow w).1) → pc_RenewBefore cfg + Second ≤ pc_LeafValidity cfg →
  NoDup (pki_names cfg) → (∀ n, n ∈ pki_names cfg → not_lingering cfg w n) →
  EnsurePKI crypto c clockNow cfg0 w = (r, w') →
  if pc_CertManagerEnabled cfg then objects w' = objects w
  else pki_step cfg w w' ∧ ∀ b, r = Ok b → pki_in_place cfg t w' b.
Proof.
  intros cfg Hc Hv Hnd Hl. unfold EnsurePKI. fold cfg. destruct (pc_CertManagerEnabled cfg).
  { unfold readExternalBundle, st_try, st_bind. destruct (api_Get _ _ _ w) as [[s|e] w1] eqn:Eg; apply api_Get_law in Eg as [H1 _];
      by intros [= <- <-]. }
  destruct (pki_names_distinct cfg Hnd) as (Hcs & Hcc & Hsc & Inca & Insrv & Incl).
  set (na := pc_CASecretName cfg) in *. set (ns := pc_ServerSecretName cfg) in *. set (nc := pc_ClientSecretName cfg) in *.
  unfold st_try. unfold st_bind at 1. destruct (ensureCA crypto c clockNow cfg w) as [rca w1] eqn:Eca.
  destruct (ensureCA_spec cfg w rca w1 Eca) as (T1 & K1 & P1).
  assert (pki_step cfg w w1) as S1 by (apply (pki_step_at cfg na w w1 Inca T1); intros s Hs _; by rewrite (stored_same cfg w w1 na (K1 s Hs))).
  destruct rca as [ca|e]; [|intros [= <- <-]; by split]. specialize (P1 ca eq_refl).
  unfold st_bind at 1. unfold ensureLeafSecret, st_try. unfold st_bind at 1.
  destruct (getOrIssueLeaf _ _ _ _ _ _ _ w1) as [rs w2] eqn:Es.
  destruct (getOrIssueLeaf_spec cfg t ns ca _ w1 rs w2 Hc (issueLeaf_keeps _ _ _ _ _)
    (λ w0 leaf w0', issueLeaf_current cfg t _ _ _ _ _ w0 leaf w0' Hc Hv)
    (lingering_other cfg na ns w w1 T1 (not_eq_sym Hcs) (Hl ns Insrv)) Es) as (T2 & K2 & P2).
  assert (pki_step cfg w w2) as S2.
  { eapply pki_step_trans; [exact S1|]. apply (pki_step_at cfg ns w1 w2 Insrv T2). intros s Hs [?|?]; [by destruct Hcs|by apply K2]. }
  destruct rs as [ps|e]; [|intros [= <- <-]; by split]. destruct (P2 ps eq_refl) as (srv & Hsrv & _ & Dsrv). simpl.
  unfold st_bind. destruct (ensureClientLeafSecret _ _ _ _ _ w2) as [rc w3] eqn:Ecl.
  destruct (ensureClientLeafSecret_spec cfg t ca w2 rc w3 Hc Hv
    (lingering_other cfg ns nc w1 w2 T2 (not_eq_sym Hsc) (lingering_other cfg na nc w w1 T1 (not_eq_sym Hcc) (Hl nc Incl))) Ecl) as (T3 & K3 & P3).
  assert (pki_step cfg w w3) as S3.
  { eapply pki_step_trans; [exact S2|]. apply (pki_step_at cfg nc w2 w3 Incl T3). intros s Hs [?|?]; [by destruct Hcc|by apply K3]. }
  destruct rc as [kp|e]; intros [= <- <-]; (split; [exact S3|]); [|done]. intros b Hb.
  destruct (AppendCertsFromPEM crypto (ca_certPEM ca)); [|done]. injection Hb as <-. split; [|split; [|split; [by apply P3|done]]].
  - unfold ca_stored in *. fold na in P1 |- *. by rewrite (stored_other cfg nc na w2 w3 T3 Hcc), (stored_other cfg ns na w1 w2 T2 Hcs).
  - exists srv. fold ns. by rewrite (stored_other cfg nc ns w2 w3 T3 Hsc).
Qed.

Lemma NeedsRotation_not_due cfg (t : Z) pem w :
  (∀ w, (clockNow w).1 ≤ t) → current cfg t pem → (NeedsRotation crypto clockNow pem (pc_RenewBefore cfg) w).1 = false.
Proof.
  intros Hc (der & cert & Hd & Hp & Hle). unfold NeedsRotation. rewrite Hd, Hp. rewrite bool_decide_eq_false_2 by congruence.
  unfold st_bind. specialize (Hc w). destruct (clockNow w) as [now w1]. simpl in *. apply Z.ltb_ge. lia.
Qed.

Lemma getOrIssueLeaf_settled cfg (t : Z) name (ca : CA Key) issue s w r w' :
  (∀ w, (clockNow w).1 ≤ t) → stored cfg w name = Some s → served cfg t s →
  getOrIssueLeaf crypto c clockNow cfg name ca issue w = (r, w') →
  objects w' = objects w ∧ ∀ p, r = Ok p → p = pair_of s.
Proof.
  intros Hc Hs Hd. unfold getOrIssueLeaf. unfold st_bind at 1.
  destruct (api_Get (Secrets c) (pc_Namespace cfg) name w) as [[s'|e] w1] eqn:Eg; apply api_Get_law in Eg as [H1 Hg].
  - destruct Hg as [Hg _]. unfold stored in Hs. rewrite Hs in Hg. injection Hg as <-.
    destruct (isExternallyManaged s) eqn:Ex; [by intros [= <- <-]; split; [|intros p [= <-]]|].
    destruct Hd as [Hd|Hd]; [by rewrite Ex in Hd|]. unfold st_bind. pose proof (NeedsRotation_not_due cfg t _ w1 Hc Hd) as Hn.
    destruct (NeedsRotation _ _ _ _ w1) as [due w2] eqn:En. simpl in Hn. subst due. simpl.
    pose proof (preserves_at same_objects _ _ _ _ (NeedsRotation_keeps _ _) En) as H2. unfold same_objects in H2.
    intros [= <- <-]. split; [congruence|]. by intros p [= <-].
  - destruct (IsNotFound e).
    + specialize (Hg eq_refl). unfold stored in Hs. by rewrite Hg in Hs.
    + by intros [= <- <-].
Qed.

Lemma ensureCA_settled cfg certPEM w r w' :
  ca_stored cfg w certPEM → ensureCA crypto c clockNow cfg w = (r, w') →
  objects w' = objects w ∧ ∀ ca, r = Ok ca → ca_certPEM ca = certPEM.
Proof.
  intros (s & Hs & Hpem) E. destruct (ensureCA_spec cfg w r w' E) as (_ & Ho & Hr). specialize (Ho s Hs).
  split; [exact Ho|]. intros ca Hca. destruct (Hr ca Hca) as (s' & Hs' & <-).
  rewrite (stored_same cfg w w' _ Ho), Hs in Hs'. by injection Hs' as <-.
Qed.

(** Once the PKI is in place, ensuring it again writes nothing and yields the same bundle, up
    to the moment the first leaf the operator manages is due. *)
Theorem EnsurePKI_stable cfg0 (t : Z) b w r w' :
  let cfg := with_defaults cfg0 in
  (∀ w, (clockNow w).1 ≤ t) → pc_CertManagerEnabled cfg = false → pki_in_place cfg t w b →
  EnsurePKI crypto c clockNow cfg0 w = (r, w') →
  objects w' = objects w ∧ ∀ b', r = Ok b' → b' = b.
Proof.
  intros cfg Hc Hcm (Hca & (srv & Hsrv & Dsrv) & (cl & Hcl & Dcl & Hkp) & Hname). unfold EnsurePKI. fold cfg. rewrite Hcm.
  unfold st_try. unfold st_bind at 1. destruct (ensureCA crypto c clockNow cfg w) as [rca w1] eqn:Eca.
  destruct (ensureCA_settled cfg _ w rca w1 Hca Eca) as [H1 Pca]. destruct rca as [ca|e]; [|by intros [= <- <-]]. specialize (Pca ca eq_refl).
  unfold ensureLeafSecret, st_try. unfold st_bind at 1. unfold st_bind at 1.
  destruct (getOrIssueLeaf _ _ _ _ _ _ _ w1) as [rs w2] eqn:Es.
  destruct (getOrIssueLeaf_settled cfg t _ ca _ srv w1 rs w2 Hc ltac:(by rewrite (stored_same cfg w w1 _ H1)) Dsrv Es) as [H2 _].
  assert (objects w2 = objects w) as H12 by congruence. destruct rs as [ps|e]; [|by intros [= <- <-]]. simpl.
  unfold st_bind, ensureClientLeafSecret, st_try, st_bind. destruct (getOrIssueLeaf _ _ _ _ _ _ _ w2) as [rc w3] eqn:Ecl.
  destruct (getOrIssueLeaf_settled cfg t _ ca _ cl w2 rc w3 Hc ltac:(by rewrite (stored_same cfg w w2 _ H12)) Dcl Ecl) as [H3 Pc].
  assert (objects w3 = objects w) as H13 by congruence. destruct rc as [pc|e]; [|by intros [= <- <-]]. specialize (Pc pc eq_refl). subst pc.
  destruct (pair_of cl) as [cp kp] eqn:Epair. simpl in Hkp. rewrite Hkp. simpl. intros [= <- <-]. split; [exact H13|].
  intros b' Hb'. destruct (AppendCertsFromPEM crypto (ca_certPEM ca)); [|done]. injection Hb' as <-.
  destruct b as [bp bc bn]. simpl in *. by subst.
Qed.
End Spec.

(** ** Witnesses *)
Module PkiWitness.
(** Keys are their DER, PEM is the DER, and the DER of a certificate is its [NotAfter] in
    binary digits. *)
Definition cert_until (t : Z) : Certificate := mkCertificate 1 "hsm-agent" [] 0 t [] [] true false false [].
Definition crypto : Crypto Objects string (string * string) := mkCrypto
  (st_ret (Ok "key")) (λ _, st_ret (Ok 7)) (λ t _ _ _, st_ret (Ok (digits (Z.to_pos (x_NotAfter t)))))
  (λ der, match undigits der with Some p => Ok (cert_until (Z.pos p)) | None => Err (errorf "malformed certificate") end)
  Ok Ok (λ _ der, der) (λ pem, Some (pemTypeCertificate, pem)) (λ cert key, Ok (cert, key)) (λ _, true).

(** Day 1000; the server's certificate runs out in ten days, the client's is cert-manager's. *)
Definition day : Z := 24 * Hour.
Definition today : Z := 1000 * day.
Definition clock : ST Objects Z := st_ret today.
Definition cfg : PKIConfig := mkPKIConfig "hsm" "hsm-ca" "hsm-server" "hsm-client" 0 0 false.
Definition old_server : Secret :=
  newPKISecret "hsm" "hsm-server" (<[TLSCertKey := digits (Z.to_pos (today + 10 * day))]> {[TLSPrivateKeyKey := "old key"]}).
Definition foreign_client : Secret :=
  mkSecret (mkObjectMeta "hsm-client" "hsm" "" 0 ∅ {[ManagedByAnnotation := "cert-manager"]} [] None [] zero_time 0) "kubernetes.io/tls"
    (<[TLSCertKey := "theirs"]> {[TLSPrivateKeyKey := "their key"]}).
Definition w0 : Objects := mkObjects ∅ ∅ ∅ ∅ ∅ ∅ (<[("hsm", "hsm-server") := old_server]> {[("hsm", "hsm-client") := foreign_client]}).

Definition first : result (Bundle (string * string)) * Objects := EnsurePKI crypto Mem.kube clock cfg w0.
Definition bundle : Bundle (string * string) := mkBundle (digits (Z.to_pos (today - Minute + CAValidity))) ("theirs", "their key") "hsm-server".

Lemma keep_all {A} (m : ST Objects A) : (∀ w, (m w).2 = w) → preserves same_objects m.
Proof. intros Hm w. unfold same_objects. by rewrite Hm. Qed.
Lemma created_ok t p k s w der w' : CreateCertificate crypto t p k s w = (Ok der, w') →
  ∃ cert, ParseCertificate crypto der = Ok cert ∧ x_NotAfter t - Second < x_NotAfter cert.
Proof.
  intros [= <- _]. exists (cert_until (Z.pos (Z.to_pos (x_NotAfter t)))). simpl. rewrite undigits_digits. split; [done|].
  unfold Second. lia.
Qed.

Lemma lingers_not n : n ∈ pki_names (with_defaults cfg) → not_lingering (with_defaults cfg) w0 n.
Proof.
  unfold pki_names. rewrite !elem_of_cons, elem_of_nil.
  intros [->|[->|[->|[]]]] s; vm_compute; [done|by intros [= <-]|by intros [= <-]].
Qed.

Lemma EnsurePKI_ensures_witness :
  first.1 = Ok bundle ∧
  pki_in_place crypto (with_defaults cfg) today first.2 bundle ∧
  stored (with_defaults cfg) first.2 "hsm-client" = Some foreign_client.
Proof.
  destruct (EnsurePKI_ensures crypto Mem.kube clock ltac:(by apply keep_all) ltac:(by apply keep_all) ltac:(intros; by apply keep_all)
    ltac:(intros; by apply keep_all) ltac:(done) created_ok cfg today w0 first.1 first.2) as [[_ Hk] Hb].
  - intros w. reflexivity.
  - vm_compute. discriminate.
  - apply (bool_decide_unpack _). vm_compute. exact I.
  - exact lingers_not.
  - exact (surjective_pairing _).
  - assert (first.1 = Ok bundle) as E by (vm_compute; reflexivity). split; [exact E|]. split; [apply Hb, E|].
    apply Hk; [vm_compute; reflexivity|right; vm_compute; reflexivity].
Defined.

(** Forty days later nothing is due. *)
Definition later : ST Objects Z := st_ret (today + 40 * day).
Definition second : result (Bundle (string * string)) * Objects := EnsurePKI crypto Mem.kube later cfg first.2.

Lemma in_place_later : pki_in_place crypto (with_defaults cfg) (today + 40 * day) first.2 bundle.
Proof.
  split; [|split; [|split]].
  - eexists. split; vm_compute; reflexivity.
  - eexists. split; [vm_compute; reflexivity|]. right. exists (digits (Z.to_pos (today + 90 * day))), (cert_until (today + 90 * day)).
    repeat split; vm_compute; congruence.
  - exists foreign_client. split; [vm_compute; reflexivity|]. split; [left; vm_compute; reflexivity|vm_compute; reflexivity].
  - reflexivity.
Qed.

Lemma EnsurePKI_stable_witness : second.2 = first.2 ∧ second.1 = Ok bundle.
Proof.
  destruct (EnsurePKI_stable crypto Mem.kube later ltac:(by apply keep_all) ltac:(by apply keep_all) ltac:(intros; by apply keep_all)
    ltac:(intros; by apply keep_all) cfg (today + 40 * day) bundle first.2 second.1 second.2) as [Ho Hb].
  - intros w. vm_compute. discriminate.
  - reflexivity.
  - exact in_place_later.
  - exact (surjective_pairing _).
  - split; [exact Ho|]. destruct second.1 as [b|e] eqn:E; [by rewrite (Hb b eq_refl)|vm_compute in E; discriminate].
Defined.
End PkiWitness.
