(* ===== verification/PkiTrust.v ===== *)
(** * Who trusts whom: the certificates of the operator's own PKI

    The Secrets of [EnsurePKI] stay such that whoever trusts the stored CA accepts both
    leaves, and each leaf's Secret carries that CA; the manager's material follows through the
    rotations. *)

From Stdlib Require Import Ascii.
From S2P Require Import Prelude GoStd Base64 Api Kube Pki.

Local Open Scope go_scope.

(** ** The two leaves *)
Inductive Role := ServerRole | ClientRole.
Definition secret_name (cfg : PKIConfig) (role : Role) : string :=
  match role with ServerRole => pc_ServerSecretName cfg | ClientRole => pc_ClientSecretName cfg end.
Definition usage (role : Role) : string := match role with ServerRole => "ServerAuth" | ClientRole => "ClientAuth" end.
Definition dns_name (role : Role) : string := match role with ServerRole => ServerCertDNSName | ClientRole => ClientCertDNSName end.

Section Trust.
Context {W Key Pair : Type} `{!ClusterView W} (crypto : Crypto W Key Pair) (c : KubeClient W) (clockNow : ST W Z).
Context `{!ApiLaws (Secrets c)}.
Hypothesis clock_keeps : preserves same_objects clockNow.
Hypothesis key_keeps : preserves same_objects (GenerateKey crypto).
Hypothesis rand_keeps : ∀ n, preserves same_objects (rand_Int crypto n).
Hypothesis create_keeps : ∀ t p k s, preserves same_objects (CreateCertificate crypto t p k s).

(** [x509_Verify roots leaf usage name now]: whether [leaf] is accepted at [now] for the
    usage and, if one is asked for, under the name; [roots] and [leaf] are PEM.
    [matches cert key]: the certificate is for the public half of the key. *)
Context (x509_Verify : string → string → string → option string → Z → bool) (matches : Certificate → Key → Prop).

Definition certificate_in (pem : string) (cert : Certificate) : Prop :=
  ∃ der, pem_Decode crypto pem = Some (pemTypeCertificate, der) ∧ ParseCertificate crypto der = Ok cert.
(** The certificate has begun and has not expired. *)
Definition valid_at (pem : string) (now : Z) : Prop :=
  ∃ cert, certificate_in pem cert ∧ x_NotBefore cert ≤ now ≤ x_NotAfter cert.

(** What makes a parent acceptable: it is a CA by its basic constraints, its key is meant for
    signing certificates, and it is not limited to usages of its own. *)
Definition may_sign (parent : Certificate) : Prop :=
  x_BasicConstraintsValid parent = true ∧ x_IsCA parent = true ∧ "CertSign" ∈ x_KeyUsage parent ∧ x_ExtKeyUsage parent = [].

(** What a certificate has of its template: whether it is a CA is part of the basic
    constraints, and dates are in seconds. *)
Definition carries (t cert : Certificate) : Prop :=
  x_KeyUsage cert = x_KeyUsage t ∧ x_ExtKeyUsage cert = x_ExtKeyUsage t ∧ x_DNSNames cert = x_DNSNames t ∧
  x_BasicConstraintsValid cert = x_BasicConstraintsValid t ∧ x_IsCA cert = x_BasicConstraintsValid t && x_IsCA t ∧
  x_NotBefore cert = x_NotBefore t / Second * Second ∧ x_NotAfter cert = x_NotAfter t / Second * Second.

(** What the libraries say: PEM and keys read back as written; a certificate is for the key
    and like the template it was made of; and a leaf is accepted at a time at which it and
    its parent are valid, for a usage and a name it has, if it was signed with the key of a
    parent that may sign. *)
Hypothesis pem_roundtrip : ∀ ty der, ty ∈ [pemTypeCertificate; "EC PRIVATE KEY"] → pem_Decode crypto (pem_Encode crypto ty der) = Some (ty, der).
Hypothesis key_roundtrip : ∀ key der, MarshalECPrivateKey crypto key = Ok der → ParseECPrivateKey crypto der = Ok key.
Hypothesis created_matches : ∀ t p k s w der w', CreateCertificate crypto t p k s w = (Ok der, w') →
  ∃ cert, ParseCertificate crypto der = Ok cert ∧ matches cert k ∧ carries t cert.
Hypothesis signed_verifies : ∀ t parent k s w der w' caPEM use dns now,
  CreateCertificate crypto t parent k s w = (Ok der, w') → certificate_in caPEM parent → matches parent s → may_sign parent →
  use ∈ x_ExtKeyUsage t → dns ∈ x_DNSNames t →
  valid_at caPEM now → valid_at (pem_Encode crypto pemTypeCertificate der) now →
  x509_Verify caPEM (pem_Encode crypto pemTypeCertificate der) use (Some dns) now = true.

(** A CA that can vouch for what it signs. *)
Definition signing (ca : CA Key) : Prop :=
  matches (ca_cert ca) (ca_key ca) ∧ may_sign (ca_cert ca) ∧ certificate_in (ca_certPEM ca) (ca_cert ca).

(** Whoever trusts [caPEM] accepts the leaf as long as both certificates are valid. *)
Definition vouches (caPEM leafPEM use name : string) : Prop :=
  ∀ now, valid_at caPEM now → valid_at leafPEM now → x509_Verify caPEM leafPEM use (Some name) now = true.

(** What the Secret of a leaf holds is vouched for by [caPEM], and says so itself. *)
Definition trusted (caPEM : string) (role : Role) (s : Secret) : Prop :=
  data_at s ServiceAccountRootCAKey = caPEM ∧
  vouches caPEM (data_at s TLSCertKey) (usage role) (dns_name role).

(** The state of the Secrets: the CA, if there is one, is one, and every leaf is the
    operator's own and vouched for by the CA. *)
Definition coherent (cfg : PKIConfig) (w : W) : Prop :=
  (∀ s ca, stored cfg w (pc_CASecretName cfg) = Some s →
     LoadCA crypto (data_at s TLSCertKey) (data_at s TLSPrivateKeyKey) = Ok ca → signing ca) ∧
  (∀ role s, stored cfg w (secret_name cfg role) = Some s → isExternallyManaged s = false ∧
     ∃ caPEM, ca_stored cfg w caPEM ∧ trusted caPEM role s).

Lemma coherent_same cfg w w' : (∀ n, n ∈ pki_names cfg → stored cfg w' n = stored cfg w n) → coherent cfg w → coherent cfg w'.
Proof.
  unfold coherent, ca_stored, pki_names. intros Hs [Hc Hl].
  assert (stored cfg w' (pc_CASecretName cfg) = stored cfg w (pc_CASecretName cfg)) as -> by (apply Hs; set_solver).
  split; [exact Hc|]. intros role s. rewrite Hs; [apply Hl|]. destruct role; set_solver.
Qed.
Lemma coherent_objects cfg w w' : objects w' = objects w → coherent cfg w → coherent cfg w'.
Proof. intros Ho. apply coherent_same. intros n _. by apply stored_same. Qed.
Lemma ca_stored_det cfg w pem pem' : ca_stored cfg w pem → ca_stored cfg w pem' → pem' = pem.
Proof. intros (s & Hs & <-) (s' & Hs' & <-). rewrite Hs in Hs'. by injection Hs' as <-. Qed.

(** *** Issuing *)
Lemma GenerateCA_signing w ca w' : GenerateCA crypto clockNow w = (Ok ca, w') →
  signing ca ∧ LoadCA crypto (ca_certPEM ca) (ca_keyPEM ca) = Ok ca.
Proof.
  unfold GenerateCA, st_try, st_bind. destruct (GenerateKey crypto w) as [[key|] w1]; [|done].
  destruct (randomSerial crypto w1) as [[serial|] w2]; [|done]. destruct (clockNow w2) as [now w3]. cbv zeta.
  destruct (CreateCertificate _ _ _ _ _ w3) as [[der|] w4] eqn:Ecr; [|done].
  destruct (created_matches _ _ _ _ _ _ _ Ecr) as (cert & Hp & Hm & Hku & Heku & _ & Hbc & Hi & _). unfold st_ret. rewrite Hp. unfold marshalECKey.
  destruct (MarshalECPrivateKey crypto key) as [kder|] eqn:Ek; [|done]. intros [= <- _]. unfold signing, may_sign, certificate_in, LoadCA. cbn in *.
  rewrite !pem_roundtrip, bool_decide_eq_false_2, Hp, (key_roundtrip _ _ Ek) by (set_solver || congruence).
  split; [|done]. split; [exact Hm|]. split; [|by exists der]. split_and!; [done|done| |done]. rewrite Hku. by left.
Qed.

Lemma issueLeaf_verifies ca cn dns v use w leaf w' : signing ca →
  issueLeaf crypto clockNow ca cn dns v use w = (Ok leaf, w') → vouches (ca_certPEM ca) (lf_CertPEM leaf) use dns.
Proof.
  intros (Hm & Hi & Hca). unfold issueLeaf, st_try, st_bind.
  destruct (GenerateKey crypto w) as [[key|] w1]; [|done]. destruct (randomSerial crypto w1) as [[serial|] w2]; [|done].
  destruct (clockNow w2) as [n1 w3]. destruct (clockNow w3) as [n2 w4]. cbv zeta.
  destruct (CreateCertificate _ _ _ _ _ w4) as [[der|] w5] eqn:Ecr; [|done].
  destruct (marshalECKey crypto key) as [k|]; [|done]. intros [= <- _]. intros now Hv Hl. cbn in *.
  eapply signed_verifies; [exact Ecr|exact Hca|exact Hm|exact Hi|set_solver|set_solver|exact Hv|exact Hl].
Qed.

(** The leaf of a role, as [EnsurePKI] has it issued. *)
Definition issue_for (role : Role) (ca : CA Key) (validity : Z) : ST W (result Leaf) :=
  match role with
  | ServerRole => IssueServerCert crypto clockNow ca ServerCertDNSName validity
  | ClientRole => IssueClientCert crypto clockNow ca ClientCertDNSName validity
  end.
Lemma issue_for_keeps role ca v : preserves same_objects (issue_for role ca v).
Proof. destruct role; by apply issueLeaf_keeps. Qed.
Lemma issue_for_verifies role ca v w leaf w' : signing ca → issue_for role ca v w = (Ok leaf, w') →
  vouches (ca_certPEM ca) (lf_CertPEM leaf) (usage role) (dns_name role).
Proof. destruct role; apply issueLeaf_verifies. Qed.

(** *** The CA *)
Lemma stored_created cfg n data t' w w' : k_same (newPKISecret (pc_Namespace cfg) n data) t' →
  wrote (insert (pc_Namespace cfg, n) t') w w' → stored cfg w' n = Some t'.
Proof. intros Hs Hw. apply (stored_insert cfg w w' n t'); rewrite (k_same_key _ _ Hs); [done|exact Hw]. Qed.

Lemma coherent_with_ca cfg (ca : CA Key) t' w w' :
  NoDup (pki_names cfg) → coherent cfg w → stored cfg w (pc_CASecretName cfg) = None →
  signing ca → LoadCA crypto (ca_certPEM ca) (ca_keyPEM ca) = Ok ca →
  k_same (newPKISecret (pc_Namespace cfg) (pc_CASecretName cfg)
    (<[TLSCertKey := ca_certPEM ca]> {[TLSPrivateKeyKey := ca_keyPEM ca]})) t' →
  wrote (insert (pc_Namespace cfg, pc_CASecretName cfg) t') w w' → coherent cfg w'.
Proof.
  intros Hnd [_ Hl] Hno Hsig Hload Hs Hw. destruct (pki_names_distinct cfg Hnd) as (Hcs & Hcc & _).
  pose proof (stored_created _ _ _ _ _ _ Hs Hw) as Hst. destruct Hs as (_ & _ & Hd). split.
  - intros s ca'. rewrite Hst. intros [= <-]. unfold data_at. rewrite Hd. cbn [newPKISecret se_Data].
    rewrite lookup_insert_eq, lookup_insert_ne, lookup_singleton_eq by done. cbn [from_option id]. rewrite Hload. by intros [= <-].
  - intros role s Hr. assert (stored cfg w' (secret_name cfg role) = stored cfg w (secret_name cfg role)) as E.
    { apply (stored_other cfg (pc_CASecretName cfg)); [|destruct role; by apply not_eq_sym].
      eapply touches_insert; [|exact Hw]. done. }
    rewrite E in Hr. destruct (Hl role s Hr) as (_ & pem & (s' & Hs' & _) & _). congruence.
Qed.

Lemma ensureCA_coherent cfg w r w' :
  NoDup (pki_names cfg) → coherent cfg w → ensureCA crypto c clockNow cfg w = (r, w') →
  coherent cfg w' ∧ ∀ ca, r = Ok ca → signing ca.
Proof.
  intros Hnd Hco. unfold ensureCA. set (n := pc_CASecretName cfg). unfold st_bind at 1.
  destruct (api_Get (Secrets c) (pc_Namespace cfg) n w) as [rg w1] eqn:Eg. apply api_Get_law in Eg as [H1 Hg].
  pose proof (coherent_objects cfg w w1 H1 Hco) as C1.
  destruct rg as [s|e].
  { intros [= <- <-]. split; [exact C1|]. intros ca. apply (proj1 Hco). apply Hg. }
  destruct (IsNotFound e); simpl; [|intros [= <- <-]; by split]. specialize (Hg eq_refl).
  unfold st_try. unfold st_bind at 1. destruct (GenerateCA crypto clockNow w1) as [rca w2] eqn:Eca.
  pose proof (preserves_at same_objects _ _ _ _ (GenerateCA_keeps crypto clockNow clock_keeps key_keeps rand_keeps create_keeps) Eca) as H2.
  pose proof (coherent_objects cfg w1 w2 H2 C1) as C2. destruct rca as [ca|e']; [|intros [= <- <-]; by split].
  destruct (GenerateCA_signing _ _ _ Eca) as [Hsig Hload].
  assert (stored cfg w2 n = None) as Hno by (rewrite (stored_same cfg w1 w2 n H2), (stored_same cfg w w1 n H1); exact Hg).
  unfold st_bind. destruct (api_Create (Secrets c) _ w2) as [rc w3] eqn:Ec. apply api_Create_law in Ec.
  destruct rc as [t'|e'].
  { intros [= <- <-]. split; [|by intros ca' [= <-]]. destruct Ec as (_ & Hs & Hw). by eapply coherent_with_ca. }
  assert (coherent cfg w3) as C3.
  { destruct Ec as [Ho|(_ & t' & Hs & Hw)]; [by apply (coherent_objects cfg w2)|by eapply coherent_with_ca]. }
  destruct (IsAlreadyExists e'); [|intros [= <- <-]; by split].
  destruct (api_Get (Secrets c) (pc_Namespace cfg) n w3) as [rg w4] eqn:Eg'. apply api_Get_law in Eg' as [H4 Hg'].
  pose proof (coherent_objects cfg w3 w4 H4 C3) as C4. destruct rg as [s|e'']; intros [= <- <-]; (split; [exact C4|]); [|done].
  intros ca'. apply (proj1 C3). apply Hg'.
Qed.

(** *** The leaves *)

(** Storing a leaf leaves its Secret as it was, removes it, or makes it hold the leaf. *)
Definition holds_leaf (ca : CA Key) (leaf : Leaf) (s : Secret) : Prop :=
  isExternallyManaged s = false ∧ data_at s ServiceAccountRootCAKey = ca_certPEM ca ∧ data_at s TLSCertKey = lf_CertPEM leaf.

Lemma created_holds_leaf ca leaf ns n t' : k_same (newPKISecret ns n (leaf_data ca leaf)) t' → holds_leaf ca leaf t'.
Proof.
  intros ((_ & _ & _ & Ha & _) & _ & Hd). unfold holds_leaf, isExternallyManaged, data_at. rewrite Ha, Hd.
  cbn [newPKISecret se_meta se_Data om_Annotations k_meta Secret_kind]. unfold leaf_data.
  by rewrite lookup_singleton_eq, lookup_insert_eq, lookup_insert_ne, lookup_insert_eq.
Qed.
Lemma updated_holds_leaf ca leaf s t' : k_same (update_leaf_secret s (leaf_data ca leaf)) t' → holds_leaf ca leaf t'.
Proof.
  intros ((_ & _ & _ & Ha & _) & _ & Hd). unfold holds_leaf, isExternallyManaged, data_at. rewrite Ha, Hd.
  cbn [update_leaf_secret se_meta se_Data om_Annotations]. rewrite lookup_insert_eq. split; [done|]. unfold leaf_data.
  by rewrite (lookup_union_Some_l _ _ ServiceAccountRootCAKey (ca_certPEM ca)), (lookup_union_Some_l _ _ TLSCertKey (lf_CertPEM leaf)).
Qed.

Lemma stored_replaced cfg n t0 t w w' : key_of t = (pc_Namespace cfg, n) → replaced (T := Secret) t0 t w w' →
  stored cfg w' n = None ∨ ∃ t', k_same t t' ∧ stored cfg w' n = Some t'.
Proof.
  intros Hk [_ [(t' & Hs & Hw)|(_ & _ & Hw)]].
  - right. exists t'. split; [exact Hs|]. apply (stored_insert cfg w w' n t'); rewrite (k_same_key _ _ Hs); [exact Hk|exact Hw].
  - left. unfold stored. rewrite Hw, k_get_set, Hk. apply lookup_delete_eq.
Qed.

Lemma store_leaf_outcome cfg name (ca : CA Key) issue existing w r w' :
  preserves same_objects issue → (∀ s, existing = Some s → key_of s = (pc_Namespace cfg, name)) →
  store_leaf c cfg name ca issue existing w = (r, w') →
  touches (T := Secret) (is_key cfg name) w w' ∧
  (stored cfg w' name = stored cfg w name ∨ stored cfg w' name = None ∨
   ∃ leaf w1 s, issue w = (Ok leaf, w1) ∧ stored cfg w' name = Some s ∧ holds_leaf ca leaf s) ∧
  ∀ p, r = Ok p → ∃ leaf w1, issue w = (Ok leaf, w1) ∧ p = (lf_CertPEM leaf, lf_KeyPEM leaf).
Proof.
  intros Hi Hkey. unfold store_leaf, st_try. unfold st_bind at 1. destruct (issue w) as [[leaf|e] w1] eqn:Ei;
    pose proof (preserves_at same_objects _ _ _ _ Hi Ei) as H1; pose proof (stored_same cfg w w1 name H1) as S1;
    (assert (touches (T := Secret) (is_key cfg name) w w1) as T1 by by apply touches_refl); [|intros [= <- <-]; split; [done|]; split; [by left|done]].
  destruct existing as [s|]; unfold st_bind.
  - set (t := update_leaf_secret s _). assert (key_of t = (pc_Namespace cfg, name)) as Ht by exact (Hkey s eq_refl).
    destruct (api_Update (Secrets c) t w1) as [ru w2] eqn:Eu.
    pose proof (Update_touches (Secrets c) (is_key cfg name) t w1 ru w2 Ht Eu) as T2. apply api_Update_law in Eu.
    assert (stored cfg w2 name = stored cfg w name ∨ stored cfg w2 name = None ∨
      ∃ leaf' w1' s', (Ok leaf, w1) = (Ok leaf', w1') ∧ stored cfg w2 name = Some s' ∧ holds_leaf ca leaf' s') as Hout.
    { assert (∀ t0, replaced t0 (k_merge t0 t) w1 w2 → stored cfg w2 name = None ∨
        ∃ leaf' w1' s', (Ok leaf, w1) = (Ok leaf', w1') ∧ stored cfg w2 name = Some s' ∧ holds_leaf ca leaf' s') as Hr.
      { intros t0 Hr. destruct (stored_replaced cfg name t0 t w1 w2 Ht Hr) as [?|(t' & Hs & Hst)]; [by left|]. right.
        exists leaf, w1, t'. split; [done|]. split; [exact Hst|]. by eapply updated_holds_leaf. }
      destruct ru as [t'|e]; [destruct Eu as (t0 & Hr0 & _); right; by eapply Hr|].
      destruct Eu as [Ho|(t0 & Hr0)]; [left; by rewrite (stored_same cfg w1 w2 name Ho)|right; by eapply Hr]. }
    destruct ru as [t'|e]; intros [= <- <-]; (split; [by etrans|]; split; [exact Hout|]); [|done]. intros p [= <-]. by exists leaf, w1.
  - set (t := newPKISecret _ _ _). assert (key_of t = (pc_Namespace cfg, name)) as Ht by done.
    destruct (api_Create (Secrets c) t w1) as [rc w2] eqn:Ec.
    pose proof (Create_touches (Secrets c) (is_key cfg name) t w1 rc w2 Ht Ec) as T2. apply api_Create_law in Ec.
    assert (∀ t', k_same t t' → wrote (insert (key_of t) t') w1 w2 →
      ∃ leaf' w1' s', (Ok leaf, w1) = (Ok leaf', w1') ∧ stored cfg w2 name = Some s' ∧ holds_leaf ca leaf' s') as Hr.
    { intros t' Hs Hw. exists leaf, w1, t'. split; [done|]. split; [by eapply stored_created|by eapply created_holds_leaf]. }
    destruct rc as [t'|e]; intros [= <- <-]; (split; [by etrans|]; split); [|intros p [= <-]; by exists leaf, w1| |done].
    + destruct Ec as (_ & Hs & Hw). right. right. by eapply Hr.
    + destruct Ec as [Ho|(_ & t' & Hs & Hw)]; [left; by rewrite (stored_same cfg w1 w2 name Ho)|right; right; by eapply Hr].
Qed.

Lemma coherent_with_leaf cfg role ca w w' :
  NoDup (pki_names cfg) → coherent cfg w → ca_stored cfg w (ca_certPEM ca) →
  touches (T := Secret) (is_key cfg (secret_name cfg role)) w w' →
  (stored cfg w' (secret_name cfg role) = stored cfg w (secret_name cfg role) ∨ stored cfg w' (secret_name cfg role) = None ∨
   ∃ leaf s, vouches (ca_certPEM ca) (lf_CertPEM leaf) (usage role) (dns_name role) ∧
     stored cfg w' (secret_name cfg role) = Some s ∧ holds_leaf ca leaf s) →
  coherent cfg w' ∧ ca_stored cfg w' (ca_certPEM ca).
Proof.
  intros Hnd [Hc Hl] Hca HT Hout. destruct (pki_names_distinct cfg Hnd) as (Hcs & Hcc & Hsc & _).
  assert (stored cfg w' (pc_CASecretName cfg) = stored cfg w (pc_CASecretName cfg)) as Eca
    by (apply (stored_other cfg (secret_name cfg role)); [exact HT|by destruct role]).
  assert (∀ pem, ca_stored cfg w pem → ca_stored cfg w' pem) as Hkeep by (intros pem; unfold ca_stored; by rewrite Eca).
  split; [|by apply Hkeep]. split; [rewrite Eca; exact Hc|]. intros role' s Hs.
  assert (stored cfg w' (secret_name cfg role') = stored cfg w (secret_name cfg role') →
    isExternallyManaged s = false ∧ ∃ caPEM, ca_stored cfg w' caPEM ∧ trusted caPEM role' s) as Hold.
  { intros E. rewrite E in Hs. destruct (Hl role' s Hs) as (Hx & pem & Hp & Ht). split; [exact Hx|]. exists pem. by split; [apply Hkeep|]. }
  assert (role' = role ∨ secret_name cfg role' ≠ secret_name cfg role) as [->|Hne]
    by (destruct role, role'; auto; right; cbn; congruence).
  - destruct Hout as [E|[E|(leaf & s' & Hv & E & Hx & Hpem & Hcrt)]]; [by apply Hold|congruence|].
    rewrite E in Hs. injection Hs as <-. split; [exact Hx|]. exists (ca_certPEM ca). split; [by apply Hkeep|]. split; [exact Hpem|].
    by rewrite Hcrt.
  - apply Hold. by apply (stored_other cfg (secret_name cfg role)).
Qed.

Lemma getOrIssueLeaf_coherent cfg role ca v w r w' :
  NoDup (pki_names cfg) → coherent cfg w → ca_stored cfg w (ca_certPEM ca) → signing ca →
  getOrIssueLeaf crypto c clockNow cfg (secret_name cfg role) ca (issue_for role ca v) w = (r, w') →
  coherent cfg w' ∧ ca_stored cfg w' (ca_certPEM ca) ∧
  ∀ p, r = Ok p → vouches (ca_certPEM ca) p.1 (usage role) (dns_name role).
Proof.
  intros Hnd Hco Hca Hsig. unfold getOrIssueLeaf. set (n := secret_name cfg role). unfold st_bind at 1.
  destruct (api_Get (Secrets c) (pc_Namespace cfg) n w) as [rg w1] eqn:Eg. apply api_Get_law in Eg as [H1 Hg].
  assert (∀ v w, objects v = objects w → ca_stored cfg w (ca_certPEM ca) → ca_stored cfg v (ca_certPEM ca)) as Hsame
    by (intros v0 w0 Ho; unfold ca_stored; by rewrite (stored_same cfg w0 v0 _ Ho)).
  pose proof (coherent_objects cfg w w1 H1 Hco) as C1. pose proof (Hsame _ _ H1 Hca) as K1.
  assert (∀ existing w r w', coherent cfg w → ca_stored cfg w (ca_certPEM ca) →
    (∀ s, existing = Some s → key_of s = (pc_Namespace cfg, n)) →
    store_leaf c cfg n ca (issue_for role ca v) existing w = (r, w') →
    coherent cfg w' ∧ ca_stored cfg w' (ca_certPEM ca) ∧
    ∀ p, r = Ok p → vouches (ca_certPEM ca) p.1 (usage role) (dns_name role)) as Hstore.
  { intros existing v0 r0 v' C K Hk E.
    destruct (store_leaf_outcome cfg n ca _ existing v0 r0 v' (issue_for_keeps role ca v) Hk E) as (HT & Hout & Hp).
    destruct (coherent_with_leaf cfg role ca v0 v') as [C' K']; [done..| |split; [exact C'|split; [exact K'|]]].
    - destruct Hout as [?|[?|(leaf & w2 & s & Hi & Hs & Hh)]]; [auto..|].
      right. right. exists leaf, s. split; [by eapply issue_for_verifies|done].
    - intros p Hr. destruct (Hp p Hr) as (leaf & w2 & Hi & ->). by eapply issue_for_verifies. }
  destruct rg as [s|e].
  - destruct Hg as [Hs Hk]. destruct (proj2 Hco role s Hs) as (Hx & pem & Hpem & Htr). rewrite Hx.
    unfold st_bind. destruct (NeedsRotation _ _ _ _ w1) as [due w2] eqn:En.
    pose proof (preserves_at same_objects _ _ _ _ (NeedsRotation_keeps crypto clockNow clock_keeps _ _) En) as H2.
    pose proof (coherent_objects cfg w1 w2 H2 C1) as C2. pose proof (Hsame _ _ H2 K1) as K2. destruct due; simpl; [by apply Hstore; [..|intros ? [= <-]]|].
    intros [= <- <-]. split; [exact C2|]. split; [exact K2|]. intros p [= <-].
    rewrite <-(ca_stored_det cfg w _ _ Hca Hpem). apply Htr.
  - destruct (IsNotFound e); [by apply Hstore|]. intros [= <- <-]. by split.
Qed.

(** ** What [EnsurePKI] keeps *)

(** A client's pair that whoever trusts [caPEM] accepts. *)
Definition client_trusted (caPEM : string) (pair : Pair) : Prop :=
  ∃ certPEM keyPEM, X509KeyPair crypto certPEM keyPEM = Ok pair ∧
    vouches caPEM certPEM (usage ClientRole) (dns_name ClientRole).

Lemma EnsurePKI_coherent cfg0 w r w' :
  let cfg := with_defaults cfg0 in
  pc_CertManagerEnabled cfg = false → NoDup (pki_names cfg) → coherent cfg w →
  EnsurePKI crypto c clockNow cfg0 w = (r, w') →
  coherent cfg w' ∧ (∀ pem, ca_stored cfg w pem → ca_stored cfg w' pem) ∧
  ∀ b, r = Ok b → ca_stored cfg w' (bd_CACertPEM b) ∧ client_trusted (bd_CACertPEM b) (bd_ClientCert b).
Proof.
  intros cfg Hcm Hnd Hco. unfold EnsurePKI. fold cfg. rewrite Hcm. unfold st_try. unfold st_bind at 1.
  destruct (ensureCA crypto c clockNow cfg w) as [rca w1] eqn:Eca.
  destruct (ensureCA_coherent cfg w rca w1 Hnd Hco Eca) as [C1 Hsig].
  destruct (ensureCA_spec crypto c clockNow clock_keeps key_keeps rand_keeps create_keeps cfg w rca w1 Eca) as (_ & Hold & Hnew).
  assert (∀ pem, ca_stored cfg w pem → ca_stored cfg w1 pem) as K1.
  { intros pem (s & Hs & Hpem). exists s. by rewrite (stored_same cfg w w1 _ (Hold s Hs)). }
  destruct rca as [ca|e]; [|intros [= <- <-]; by split]. specialize (Hsig ca eq_refl). specialize (Hnew ca eq_refl).
  unfold ensureLeafSecret, st_try. unfold st_bind at 1. unfold st_bind at 1.
  destruct (getOrIssueLeaf _ _ _ _ _ _ _ w1) as [rs w2] eqn:Es.
  destruct (getOrIssueLeaf_coherent cfg ServerRole ca _ w1 rs w2 Hnd C1 Hnew Hsig Es) as (C2 & K2 & _).
  assert (∀ w pem w', ca_stored cfg w (ca_certPEM ca) → ca_stored cfg w pem → ca_stored cfg w' (ca_certPEM ca) → ca_stored cfg w' pem) as Hdet
    by (intros v pem v' Ha Hb Hc; by rewrite (ca_stored_det cfg v _ _ Ha Hb)).
  destruct rs as [ps|e]; [|intros [= <- <-]; split; [done|]; split; [intros pem Hp; by eapply (Hdet w1); [| apply K1|]|done]]. simpl.
  unfold st_bind, ensureClientLeafSecret, st_try, st_bind. destruct (getOrIssueLeaf _ _ _ _ _ _ _ w2) as [rc w3] eqn:Ecl.
  destruct (getOrIssueLeaf_coherent cfg ClientRole ca _ w2 rc w3 Hnd C2 K2 Hsig Ecl) as (C3 & K3 & P3).
  assert (∀ pem, ca_stored cfg w pem → ca_stored cfg w3 pem) as K by (intros pem Hp; by eapply (Hdet w1); [| apply K1|]).
  destruct rc as [[cp kp]|e]; [|intros [= <- <-]; by split]. specialize (P3 _ eq_refl). simpl in P3. unfold st_ret.
  destruct (X509KeyPair crypto cp kp) as [pair|e] eqn:Ep; intros [= <- <-]; (split; [exact C3|]; split; [exact K|]); [|done]. intros b.
  destruct (AppendCertsFromPEM crypto (ca_certPEM ca)); [|done]. intros [= <-]. split; [exact K3|]. by exists cp, kp.
Qed.

(** ** The manager's material through the rotations *)

(** What happens next to the manager's material: a rotation that succeeds or fails, or
    anything that leaves the three Secrets alone. *)
Inductive rotation (cfg0 : PKIConfig) : ClientTLS Pair * W → ClientTLS Pair * W → Prop :=
  | rotate_step t w r t' w' : rotateOnce crypto c clockNow cfg0 t w = ((r, t'), w') → rotation cfg0 (t, w) (t', w')
  | other_step t w w' : (∀ n, n ∈ pki_names cfg0 → stored cfg0 w' n = stored cfg0 w n) → rotation cfg0 (t, w) (t, w').

(** The manager dials with the stored CA for the agents, and a leaf of that CA of its own. *)
Definition manager_trusts (cfg : PKIConfig) (x : ClientTLS Pair * W) : Prop :=
  coherent cfg x.2 ∧ ca_stored cfg x.2 (tls_rootCAs x.1) ∧ tls_serverName x.1 = ServerCertDNSName ∧
  client_trusted (tls_rootCAs x.1) (tls_leaf x.1).

Section Rotations.
Context (cfg0 : PKIConfig).
Let cfg := with_defaults cfg0.
Hypothesis self_managed : pc_CertManagerEnabled cfg = false.
Hypothesis distinct : NoDup (pki_names cfg).

Lemma bootstrap_trusts w b w' : coherent cfg w → EnsurePKI crypto c clockNow cfg0 w = (Ok b, w') → manager_trusts cfg (NewClientTLS b, w').
Proof. intros Hco E. destruct (EnsurePKI_coherent cfg0 w _ w' self_managed distinct Hco E) as (C & _ & Hb). by destruct (Hb b eq_refl). Qed.

Lemma rotation_trusts x y : rotation cfg0 x y → manager_trusts cfg x → manager_trusts cfg y ∧ tls_rootCAs y.1 = tls_rootCAs x.1.
Proof.
  intros [t w r t' w' E|t w w' Hs] (Hco & Hca & Hn & Hcl); cbn [fst snd] in *.
  - unfold rotateOnce, st_bind in E. destruct (EnsurePKI crypto c clockNow cfg0 w) as [rb w1] eqn:Ee. injection E as E <-.
    destruct (EnsurePKI_coherent cfg0 w rb w1 self_managed distinct Hco Ee) as (C & K & Hb). specialize (K _ Hca).
    destruct rb as [b|e]; injection E as <- <-; [|done]. destruct (Hb b eq_refl) as [Hb1 Hb2].
    rewrite (ca_stored_det cfg w1 _ _ K Hb1) in Hb2. done.
  - change (∀ n, n ∈ pki_names cfg → stored cfg w' n = stored cfg w n) in Hs.
    split; [|done]. split; [by apply (coherent_same cfg w)|]. split; [|done]. cbn [fst snd]. unfold ca_stored. rewrite Hs; [exact Hca|].
    apply elem_of_cons. by left.
Qed.
Lemma rotations_trust x y : rtc (rotation cfg0) x y → manager_trusts cfg x → manager_trusts cfg y ∧ tls_rootCAs y.1 = tls_rootCAs x.1.
Proof.
  induction 1 as [|x y z Hxy _ IH]; [done|]. intros Hx. destruct (rotation_trusts x y Hxy Hx) as [Hy E].
  destruct (IH Hy) as [Hz E']. split; [exact Hz|congruence].
Qed.

(** The server's Secret of a moment and the material of another. *)
Lemma trusts_fit x y s : manager_trusts cfg x → manager_trusts cfg y → tls_rootCAs y.1 = tls_rootCAs x.1 →
  stored cfg x.2 (pc_ServerSecretName cfg) = Some s →
  data_at s ServiceAccountRootCAKey = tls_rootCAs y.1 ∧
  vouches (tls_rootCAs y.1) (data_at s TLSCertKey) "ServerAuth" (tls_serverName y.1) ∧
  client_trusted (data_at s ServiceAccountRootCAKey) (tls_leaf y.1).
Proof.
  intros (Hco & Hca & _) (_ & _ & Hn & Hcl) E Hs. destruct (proj2 Hco ServerRole s Hs) as (_ & pem & Hpem & Hroot & Hv).
  rewrite (ca_stored_det cfg x.2 _ _ Hca Hpem), <-E in *. by rewrite Hroot, Hn.
Qed.

(** C32. Mutual trust outlives the rotations: from Secrets in order, once the PKI was ensured,
    at any two moments of any run of rotations, whichever of them failed and whatever else
    happened next to the Secrets, the server's Secret of the one moment and the manager's
    material of the other fit: the Secret carries exactly the CA the manager checks agents
    against, and as long as the certificates are within their dates that CA vouches for the
    Secret's certificate as a server of the name the manager expects, and for the manager's
    own leaf as a client. *)
Theorem rotation_keeps_trust w b w0 x y s :
  coherent cfg w → EnsurePKI crypto c clockNow cfg0 w = (Ok b, w0) →
  rtc (rotation cfg0) (NewClientTLS b, w0) x → rtc (rotation cfg0) (NewClientTLS b, w0) y →
  stored cfg x.2 (pc_ServerSecretName cfg) = Some s →
  data_at s ServiceAccountRootCAKey = tls_rootCAs y.1 ∧
  vouches (tls_rootCAs y.1) (data_at s TLSCertKey) "ServerAuth" (tls_serverName y.1) ∧
  client_trusted (data_at s ServiceAccountRootCAKey) (tls_leaf y.1).
Proof.
  intros Hco E Hx Hy. pose proof (bootstrap_trusts w b w0 Hco E) as H0.
  destruct (rotations_trust _ _ Hx H0) as [Tx Ex]. destruct (rotations_trust _ _ Hy H0) as [Ty Ey].
  apply (trusts_fit x y s Tx Ty). congruence.
Qed.
End Rotations.
End Trust.

(** ** Witness *)
Module PkiTrustWitness.
(** What the witness's certificates say: the key that signed them, their own key, what they
    are for and until when. *)
Record Content := mkContent {
  co_signer : Z; co_own : Z; co_usage : list string; co_basic : bool; co_isCA : bool; co_from : Z; co_until : Z;
  co_uses : list string; co_names : list string;
}.
#[local] Instance Content_eq_dec : EqDecision Content.
Proof. solve_decision. Defined.
Definition fields (x : Content) : list Z * list (list string) :=
  ([co_signer x; co_own x; Z.b2z (co_basic x); Z.b2z (co_isCA x); co_from x; co_until x], [co_usage x; co_uses x; co_names x]).
Definition of_fields (f : list Z * list (list string)) : option Content :=
  match f with
  | ([signer; own; basic; isCA; from; til], [usage; uses; names]) =>
      Some (mkContent signer own usage (basic =? 1) (isCA =? 1) from til uses names)
  | _ => None
  end.
#[local] Instance Content_countable : Countable Content.
Proof. refine (inj_countable fields of_fields _). by intros [? ? ? [] [] ? ? ? ?].
Defined.
Definition der_of (x : Content) : string := digits (encode x).
Definition of_der (der : string) : option Content := undigits der ≫= decode.
Lemma of_der_of x : of_der (der_of x) = Some x.
Proof. unfold of_der, der_of. rewrite undigits_digits. apply countable.decode_encode. Qed.

#[local] Arguments of_der : simpl never.
#[local] Arguments der_of : simpl never.

(** A parsed certificate names its key in the place of the organization. *)
Definition public (key : Z) : string := digits (encode key).
Definition certificate_of (x : Content) : Certificate :=
  mkCertificate 1 "" [public (co_own x)] (co_from x) (co_until x) (co_usage x) (co_uses x) (co_basic x) (co_isCA x) false (co_names x).
Definition matches (cert : Certificate) (key : Z) : Prop := x_Organization cert = [public key].

(** Keys are numbers, new ones by the number of the Secrets there are. *)
Definition GenerateKey : ST Objects (result Z) := λ w, (Ok (Z.of_nat (size (o_Secrets w))), w).
Definition CreateCertificate (t parent : Certificate) (key signer : Z) : ST Objects (result string) :=
  st_ret (Ok (der_of (mkContent signer key (x_KeyUsage t) (x_BasicConstraintsValid t) (x_BasicConstraintsValid t && x_IsCA t)
    (x_NotBefore t / Second * Second) (x_NotAfter t / Second * Second) (x_ExtKeyUsage t) (x_DNSNames t)))).
Definition pem_Encode (ty der : string) : string := (if bool_decide (ty = pemTypeCertificate) then "C" else "K") +:+ der.
Definition pem_Decode (pem : string) : option (string * string) :=
  match pem with
  | String "C" der => Some (pemTypeCertificate, der)
  | String "K" der => Some ("EC PRIVATE KEY", der)
  | _ => None
  end.
Definition crypto : Crypto Objects Z (string * string) := mkCrypto
  GenerateKey (λ _, st_ret (Ok 7)) CreateCertificate
  (λ der, match of_der der with Some x => Ok (certificate_of x) | None => Err (errorf "malformed certificate") end)
  (λ key, Ok (public key)) (λ der, match undigits der ≫= decode with Some key => Ok key | None => Err (errorf "malformed key") end)
  pem_Encode pem_Decode (λ cert key, Ok (cert, key)) (λ _, true).
Definition within (now : Z) (x : Content) : bool := (co_from x <=? now) && (now <=? co_until x).
Definition content (pem : string) : option Content := pem_Decode pem ≫= λ x, if bool_decide (x.1 = pemTypeCertificate) then of_der x.2 else None.
Definition x509_Verify (roots leaf use : string) (name : option string) (now : Z) : bool :=
  match content roots, content leaf with
  | Some ca, Some x =>
      bool_decide (co_signer x = co_own ca) && (co_basic ca && co_isCA ca && bool_decide ("CertSign" ∈ co_usage ca)) &&
      (within now ca && within now x) && bool_decide (use ∈ co_uses x) && bool_decide (co_uses ca = []) &&
      match name with Some n => bool_decide (n ∈ co_names x) | None => true end
  | _, _ => false
  end.

Lemma pem_roundtrip ty der : ty ∈ [pemTypeCertificate; "EC PRIVATE KEY"] → pem_Decode (pem_Encode ty der) = Some (ty, der).
Proof. rewrite !elem_of_cons, elem_of_nil. by intros [->|[->|[]]]. Qed.
Lemma created_matches t p k s w der w' : Pki.CreateCertificate crypto t p k s w = (Ok der, w') →
  ∃ cert, ParseCertificate crypto der = Ok cert ∧ matches cert k ∧ carries t cert.
Proof.
  intros [= <- _]. eexists. split; [unfold crypto, ParseCertificate; rewrite of_der_of; reflexivity|]. split; [reflexivity|].
  unfold carries, certificate_of. cbn [x_KeyUsage x_ExtKeyUsage x_DNSNames x_BasicConstraintsValid x_IsCA x_NotBefore x_NotAfter
    co_usage co_uses co_names co_basic co_isCA co_from co_until]. split_and!; reflexivity.
Qed.
Lemma public_inj k k' : public k = public k' → k = k'.
Proof. intros H%(f_equal undigits). unfold public in H. rewrite !undigits_digits in H. injection H as H. by apply (inj encode). Qed.
Lemma certificate_content pem cert : certificate_in crypto pem cert ↔ ∃ x, content pem = Some x ∧ cert = certificate_of x.
Proof.
  unfold certificate_in, content. cbn. split.
  - intros (der & -> & Hp). cbn. destruct (of_der der) as [x|]; [|done]. injection Hp as <-. by exists x.
  - intros (x & Hc & ->). destruct (pem_Decode pem) as [[ty der]|]; [|done]. cbn in Hc. case_bool_decide as Ht; [|done]. subst ty.
    exists der. split; [done|]. by rewrite Hc.
Qed.
Lemma valid_within pem x now : content pem = Some x → valid_at crypto pem now → within now x = true.
Proof.
  intros Hc (cert & (x' & Hc' & ->)%certificate_content & Hd). rewrite Hc in Hc'. injection Hc' as <-. cbn in Hd.
  unfold within. rewrite andb_true_iff, !Z.leb_le. exact Hd.
Qed.
Lemma signed_verifies t parent k s w der w' caPEM use dns now :
  Pki.CreateCertificate crypto t parent k s w = (Ok der, w') → certificate_in crypto caPEM parent → matches parent s → may_sign parent →
  use ∈ x_ExtKeyUsage t → dns ∈ x_DNSNames t →
  valid_at crypto caPEM now → valid_at crypto (Pki.pem_Encode crypto pemTypeCertificate der) now →
  x509_Verify caPEM (Pki.pem_Encode crypto pemTypeCertificate der) use (Some dns) now = true.
Proof.
  intros [= <- _] (ca & Hca & ->)%certificate_content Hm (H1 & H2 & H3 & H4) Hu Hn Hvca Hvl. unfold x509_Verify.
  pose proof (valid_within _ _ _ Hca Hvca) as Wca. rewrite Hca.
  match type of Hvl with valid_at _ ?pem _ => assert (∃ x, content pem = Some x ∧ co_signer x = s ∧ co_uses x = x_ExtKeyUsage t ∧
    co_names x = x_DNSNames t) as (x & Hx & Hs & Hus & Hns) end.
  { unfold content. cbn [Pki.pem_Encode crypto]. rewrite pem_roundtrip by set_solver. cbn. rewrite of_der_of. by eexists. }
  pose proof (valid_within _ _ _ Hx Hvl) as Wl. rewrite Hx, Wca, Wl. injection Hm as Hm%public_inj.
  cbn in H1, H2, H3, H4. by rewrite Hs, Hus, Hns, Hm, H1, H2, H4, !bool_decide_eq_true_2.
Qed.

(** No Secret yet; leaves for 90 days, renewed 30 days before; a Secret of others tells that
    seventy days have passed. *)
Definition day : Z := 24 * Hour.
Definition clock : ST Objects Z :=
  λ w, (1000 * day + match o_Secrets w !! ("hsm", "later") with Some _ => 70 * day | None => 0 end, w).
Definition cfg : PKIConfig := mkPKIConfig "hsm" "hsm-ca" "hsm-server" "hsm-client" 0 0 false.
Definition empty_world : Objects := mkObjects ∅ ∅ ∅ ∅ ∅ ∅ ∅.
Definition first : result (Bundle (string * string)) * Objects := EnsurePKI crypto Mem.kube clock cfg empty_world.
Definition no_bundle : Bundle (string * string) := mkBundle "" ("", "") "".
Definition bundle : Bundle (string * string) := match first.1 with Ok b => b | Err _ => no_bundle end.
Definition seventy_days_later : Objects := k_set (<[("hsm", "later") := newPKISecret "hsm" "later" ∅]> (k_get first.2)) first.2.
Definition rotated : ClientTLS (string * string) * Objects :=
  let '(_, t, w) := rotateOnce crypto Mem.kube clock cfg (NewClientTLS bundle) seventy_days_later in (t, w).

Lemma keep_clock : preserves same_objects clock.
Proof. intros w. reflexivity. Qed.
Lemma keep_key : preserves same_objects GenerateKey.
Proof. intros w. reflexivity. Qed.
Lemma empty_coherent : coherent crypto x509_Verify matches (with_defaults cfg) empty_world.
Proof. split; [intros s ca H|intros role s H; destruct role]; vm_compute in H; discriminate. Qed.
Lemma key_roundtrip key der : MarshalECPrivateKey crypto key = Ok der → ParseECPrivateKey crypto der = Ok key.
Proof. intros [= <-]. cbn. unfold public. rewrite undigits_digits. cbn. by rewrite countable.decode_encode. Qed.
Lemma distinct : NoDup (pki_names (with_defaults cfg)).
Proof. apply (bool_decide_unpack _). vm_compute. exact I. Qed.
Lemma ensured : EnsurePKI crypto Mem.kube clock cfg empty_world = (Ok bundle, first.2).
Proof. vm_compute. reflexivity. Qed.
Lemma rotates : rtc (rotation crypto Mem.kube clock cfg) (NewClientTLS bundle, first.2) rotated.
Proof.
  eapply rtc_l; [|apply rtc_once].
  - apply (other_step crypto Mem.kube clock cfg _ _ seventy_days_later). intros n Hn.
    change (<[("hsm", "later") := newPKISecret "hsm" "later" ∅]> (o_Secrets first.2) !! ("hsm", n) = o_Secrets first.2 !! ("hsm", n)).
    apply lookup_insert_ne. intros [= <-]. revert Hn. apply (bool_decide_unpack (_ ∉ _)). vm_compute. exact I.
  - unfold rotated. destruct (rotateOnce _ _ _ _ _ _) as [[r t] w] eqn:E. by eapply rotate_step.
Qed.

(** The leaf of the manager is another one by then; the agents' certificate is still the one
    from before or already a new one. *)
Example rotation_keeps_trust_witness :
  first.1 = Ok bundle ∧ tls_leaf rotated.1 ≠ bd_ClientCert bundle ∧
  (∀ s, stored cfg first.2 "hsm-server" = Some s →
     vouches crypto x509_Verify (tls_rootCAs rotated.1) (data_at s TLSCertKey) "ServerAuth" "hsm-agent" ∧
     client_trusted crypto x509_Verify (data_at s ServiceAccountRootCAKey) (tls_leaf rotated.1)) ∧
  is_Some (stored cfg first.2 "hsm-server").
Proof.
  split; [exact (f_equal fst ensured)|]. split; [vm_compute; discriminate|]. split; [|vm_compute; by eexists]. intros s Hs.
  destruct (rotation_keeps_trust crypto Mem.kube clock keep_clock keep_key (λ _ w, eq_refl) (λ _ _ _ _ w, eq_refl) x509_Verify matches
    pem_roundtrip key_roundtrip created_matches signed_verifies cfg eq_refl distinct empty_world bundle first.2
    (NewClientTLS bundle, first.2) rotated s empty_coherent ensured (rtc_refl _ _) rotates Hs) as (Hroot & Hs' & Hc).
  by split.
Defined.

(** Accepted after seventy days, and no longer after a hundred. *)
Example dates_matter :
  match stored cfg first.2 "hsm-server" with
  | Some s => x509_Verify (tls_rootCAs rotated.1) (data_at s TLSCertKey) "ServerAuth" (Some "hsm-agent") (1070 * day) = true ∧
              x509_Verify (tls_rootCAs rotated.1) (data_at s TLSCertKey) "ServerAuth" (Some "hsm-agent") (1100 * day) = false
  | None => False
  end.
Proof. vm_compute. by split. Qed.

(** If the CA's Secret is lost, ensuring the PKI makes a new CA and succeeds, but neither leaf
    is one of that CA. *)
Definition lost_ca : Objects := k_set (delete ("hsm", "hsm-ca") (k_get first.2)) first.2.
Example lost_ca_breaks_trust :
  match EnsurePKI crypto Mem.kube clock cfg lost_ca with
  | (Ok b, w) =>
      match stored cfg w "hsm-server" with
      | Some s => x509_Verify (bd_CACertPEM b) (data_at s TLSCertKey) "ServerAuth" None (1000 * day) = false ∧
                  x509_Verify (data_at s ServiceAccountRootCAKey) (bd_ClientCert b).1 "ClientAuth" None (1000 * day) = true ∧
                  x509_Verify (bd_CACertPEM b) (bd_ClientCert b).1 "ClientAuth" None (1000 * day) = false
      | None => False
      end
  | (Err _, _) => False
  end.
Proof. vm_compute. repeat split. Qed.
End PkiTrustWitness.
