(* ===== verification/Mirror.v ===== *)
(** * internal/mirror/manager.go: mirroring secrets across devices

    Inventory of what every device holds, a plan per secret (source and targets
    chosen by [Resolve]), execution of the plans.  The agent manager, the clock and
    the clients are operations on a world [W]; [time.Sleep] has no effect on it.
    A [time.Time] of which the code uses [Unix()] only is its unix seconds. *)

From S2P Require Import Prelude GoStd Sha256 Reconcile Hsm MockClient Api.

(* [internal/mirror/manager.go:35-38] *)
Record AgentManagerInterface (W : Type) := mkAgentManager {
  CreateGRPCClient : DiscoveredDevice → ST W (result (Client W));
  GetAvailableDevices : string → ST W (result (list DiscoveredDevice));
}.
Arguments CreateGRPCClient {W}.
Arguments GetAvailableDevices {W}.

(* [internal/mirror/manager.go:106-113] *)
Inductive MirrorType :=
  | MirrorTypeSkip
  | MirrorTypeUpdate
  | MirrorTypeCreate
  | MirrorTypeRestoreMetadata.

#[global] Instance MirrorType_eq_dec : EqDecision MirrorType.
Proof. solve_decision. Defined.

(* [internal/mirror/manager.go:87-94] *)
Record SecretState := mkState {
  st_Present : bool;
  st_Version : Z;
  st_Timestamp : Z;
  st_Checksum : string;
  st_HasMetadata : bool;
  st_Error : option error;
}.

(* [internal/mirror/manager.go:81-84] *)
Record SecretInventory := mkInventory {
  inv_SecretPath : string;
  inv_DeviceStates : gmap string SecretState;
}.

(* [internal/mirror/manager.go:97-103] *)
Record SecretMirrorPlan := mkPlan {
  pl_SecretPath : string;
  pl_SourceDevice : string;
  pl_SourceVersion : Z;
  pl_TargetDevices : list string;
  pl_MirrorType : MirrorType;
}.

(* [internal/mirror/manager.go:70-78] *)
Record SecretMirrorResult := mkSecretResult {
  sr_SecretPath : string;
  sr_SourceDevice : string;
  sr_SourceVersion : Z;
  sr_TargetDevices : list string;
  sr_MirrorType : MirrorType;
  sr_Success : bool;
  sr_Error : option error;
}.

(* [internal/mirror/manager.go:59-67] *)
Record MirrorResult := mkMirrorResult {
  mr_Success : bool;
  mr_SecretsProcessed : Z;
  mr_SecretsUpdated : Z;
  mr_SecretsCreated : Z;
  mr_MetadataRestored : Z;
  mr_SecretResults : gmap string SecretMirrorResult;
  mr_Errors : list string;
}.

(* [internal/mirror/manager.go:842-846] *)
Definition parseVersion (versionStr : string) : option Z := scan_int64 versionStr.

(* [internal/mirror/manager.go:360-372] *)
Definition removeDuplicates (slice : list string) : list string :=
  snd (fold_left (λ (acc : gset string * list string) item,
    if bool_decide (item ∈ acc.1) then acc else ({[item]} ∪ acc.1, acc.2 ++ [item]))
    slice (∅, [])).

(* [internal/mirror/manager.go:375-385] *)
Definition removeDevice (devices : list string) (deviceToRemove : string) : list string :=
  filter (λ device, device ≠ deviceToRemove) devices.

(** ** Lemmas: target lists *)
Lemma removeDuplicates_acc slice seen (acc : list string) :
  let r := fold_left (λ (acc : gset string * list string) item,
    if bool_decide (item ∈ acc.1) then acc else ({[item]} ∪ acc.1, acc.2 ++ [item])) slice (seen, acc) in
  NoDup acc → (∀ x, x ∈ seen ↔ x ∈ acc) →
  NoDup r.2 ∧ ∀ x, x ∈ r.2 ↔ x ∈ acc ∨ x ∈ slice.
Proof.
  revert seen acc. induction slice as [|y slice IH]; intros seen acc; simpl.
  { intros Hnd _. split; [done|]. set_solver. }
  intros Hnd Hs. case_bool_decide as Hy; simpl in Hy.
  - destruct (IH seen acc Hnd Hs) as [H1 H2]. split; [done|].
    intros x. rewrite H2, elem_of_cons. apply Hs in Hy. naive_solver.
  - destruct (IH ({[y]} ∪ seen) (acc ++ [y])) as [H1 H2].
    + apply NoDup_app. split_and!; [done| |apply NoDup_singleton]. set_solver.
    + set_solver.
    + split; [done|]. intros x. rewrite H2. set_solver.
Qed.

Lemma removeDuplicates_spec slice :
  NoDup (removeDuplicates slice) ∧ ∀ x, x ∈ removeDuplicates slice ↔ x ∈ slice.
Proof.
  destruct (removeDuplicates_acc slice ∅ []) as [H1 H2]; [constructor|set_solver|].
  split; [done|]. intros x. unfold removeDuplicates. rewrite H2. set_solver.
Qed.

Lemma removeDevice_spec devices d x : x ∈ removeDevice devices d ↔ x ≠ d ∧ x ∈ devices.
Proof. unfold removeDevice. by rewrite list_elem_of_filter. Qed.

Lemma removeDevice_NoDup devices d : NoDup devices → NoDup (removeDevice devices d).
Proof. apply NoDup_filter. Qed.

Section Mirror.
Context {W : Type} `{MapOrder} (am : AgentManagerInterface W) (time_Now : ST W Time).

(** [None] is the nil map. *)
(* [internal/mirror/manager.go:769-789] *)
Definition calculateChecksum (data : option SecretData) : string :=
  match data with
  | None => ""
  | Some data =>
      let keys := sort_Strings (range data).*1 in
      hex (sha256 (hash_input data keys))
  end.

(** ** Inventory *)

(* [internal/mirror/manager.go:140-147 buildSecretInventory] *)
Definition error_state (now : Time) (e : error) : SecretState :=
  mkState false 0 (t_unix now) "" false (Some e).

(** [inventory[path].DeviceStates[deviceId] = state] *)
Definition set_state (path deviceId : string) (state : SecretState)
    (inventory : gmap string SecretInventory) : gmap string SecretInventory :=
  alter (λ i, mkInventory (inv_SecretPath i) (<[deviceId := state]> (inv_DeviceStates i))) path inventory.

(** Mark every secret as being in error on the device. *)
(* [internal/mirror/manager.go:139-148 buildSecretInventory] *)
Definition mark_error (deviceId : string) (e : error) (inventory : gmap string SecretInventory)
    : ST W (gmap string SecretInventory) :=
  st_fold (λ inv secretPath,
    (let* now := time_Now in
     st_ret (set_state secretPath deviceId (error_state now e) inv))%go)
    (range inventory).*1 inventory.

(** What the metadata read adds to the state of a secret that is present. *)
(* [internal/mirror/manager.go:192-204 buildSecretInventory] *)
Definition with_metadata (state : SecretState) (r : result (option SecretMetadata)) : SecretState :=
  match r with
  | Ok (Some metadata) =>
      match m_Labels metadata with
      | Some labels =>
          let state := match labels !! "sync.version" with
            | Some versionStr =>
                match parseVersion versionStr with
                | Some version => mkState (st_Present state) version (st_Timestamp state)
                                    (st_Checksum state) true (st_Error state)
                | None => state
                end
            | None => state
            end in
          match labels !! "sync.timestamp" with
          | Some timestampStr =>
              match parse_RFC3339 timestampStr with
              | Some timestamp => mkState (st_Present state) (st_Version state) timestamp
                                    (st_Checksum state) (st_HasMetadata state) (st_Error state)
              | None => state
              end
          | None => state
          end
      | None => state
      end
  | _ => state
  end.

(* [internal/mirror/manager.go:170-212 buildSecretInventory] *)
Definition check_secret (grpcClient : Client W) (secretPath : string) : ST W SecretState :=
  (let* now := time_Now in
   let* r := c_ReadSecret grpcClient secretPath in
   match r with
   | Err _ => st_ret (mkState false 0 (t_unix now) "" false None)
   | Ok data =>
       let state := mkState true 0 (t_unix now) (calculateChecksum (Some data)) false None in
       let* md := c_ReadMetadata grpcClient secretPath in
       st_ret (with_metadata state md)
   end)%go.

(* [internal/mirror/manager.go:130-214 buildSecretInventory] *)
Definition inventory_device (secretPaths : list string) (inventory : gmap string SecretInventory)
    (device : DiscoveredDevice) : ST W (gmap string SecretInventory) :=
  let deviceId := dd_SerialNumber device in
  (let* r := CreateGRPCClient am device in
   match r with
   | Err err => mark_error deviceId (wrapf "gRPC client creation failed" err) inventory
   | Ok grpcClient =>
       let* connected := c_IsConnected grpcClient in
       if negb connected then mark_error deviceId (errorf "device not connected") inventory
       else st_fold (λ inv secretPath,
              let* state := check_secret grpcClient secretPath in
              st_ret (set_state secretPath deviceId state inv)) secretPaths inventory
   end)%go.

(* [internal/mirror/manager.go:118-217] *)
Definition buildSecretInventory (secretPaths : list string) (devices : list DiscoveredDevice)
    : ST W (gmap string SecretInventory) :=
  let inventory := fold_left (λ inv p, <[p := mkInventory p ∅]> inv) secretPaths ∅ in
  st_fold (inventory_device secretPaths) devices inventory.

(** ** Plans *)

(** The observation a responding device contributes to the vote. *)
(* [internal/mirror/manager.go:263-273 createMirrorPlanForSecret] *)
Definition observation (deviceName : string) (state : SecretState) : DeviceObservation :=
  if st_Present state
  then mkObs deviceName true false (st_Checksum state) (st_Version state) (st_Timestamp state)
  else mkObs deviceName false false "" 0 0.

(** The device states without an error, in the order the map is ranged over. *)
(* [internal/mirror/manager.go:249-254 createMirrorPlanForSecret] *)
Definition responding (inventory : SecretInventory) : list (string * SecretState) :=
  filter (λ ds, st_Error ds.2 = None) (range (inv_DeviceStates inventory)).

(** The mirror type the successive conditions settle on. *)
(* [internal/mirror/manager.go:306-327 createMirrorPlanForSecret] *)
Definition mirror_type (needSecret needMetadata outliers : list string) : MirrorType :=
  let syncType := MirrorTypeSkip in
  let syncType := if bool_decide (needSecret ≠ []) then MirrorTypeCreate else syncType in
  let syncType := if bool_decide (needMetadata ≠ []) && bool_decide (syncType ≠ MirrorTypeCreate)
                  then MirrorTypeRestoreMetadata else syncType in
  if bool_decide (outliers ≠ []) && bool_decide (syncType ≠ MirrorTypeCreate) &&
     bool_decide (syncType ≠ MirrorTypeRestoreMetadata)
  then MirrorTypeUpdate else syncType.

(* [internal/mirror/manager.go:240-357] *)
Definition createMirrorPlanForSecret (secretPath : string) (inventory : SecretInventory)
    : option SecretMirrorPlan :=
  let resp := responding inventory in
  let devicesWithSecret := (filter (λ ds, st_Present ds.2 = true) resp).*1 in
  let devicesNeedingMetadata :=
    (filter (λ ds, st_Present ds.2 = true ∧ st_HasMetadata ds.2 = false) resp).*1 in
  let devicesNeedingSecret := (filter (λ ds, st_Present ds.2 = false) resp).*1 in
  let obs := map (λ ds, observation ds.1 ds.2) resp in
  let respondingDevices := Z.of_nat (length resp) in
  if bool_decide (devicesWithSecret = []) then None
  else
    let decision := Resolve obs respondingDevices in
    let sourceDevice := d_WinningDeviceID decision in
    let sourceVersion := match inv_DeviceStates inventory !! sourceDevice with
                         | Some st => st_Version st
                         | None => 0
                         end in
    if negb (d_Diverged decision) && bool_decide (devicesNeedingSecret = []) &&
       bool_decide (devicesNeedingMetadata = [])
    then Some (mkPlan secretPath sourceDevice sourceVersion [] MirrorTypeSkip)
    else
      let syncType := mirror_type devicesNeedingSecret devicesNeedingMetadata (d_Outliers decision) in
      let targetDevices :=
        removeDevice (removeDuplicates
          (devicesNeedingSecret ++ devicesNeedingMetadata ++ d_Outliers decision)) sourceDevice in
      if bool_decide (targetDevices = [])
      then Some (mkPlan secretPath sourceDevice sourceVersion [] MirrorTypeSkip)
      else Some (mkPlan secretPath sourceDevice sourceVersion targetDevices syncType).

(* [internal/mirror/manager.go:220-231] *)
Definition createMirrorPlans (inventory : gmap string SecretInventory) : list SecretMirrorPlan :=
  omap (λ pi, createMirrorPlanForSecret pi.1 pi.2) (range inventory).

(** ** Execution *)

(* [internal/mirror/manager.go:543-567] *)
Definition readSecretWithMetadata (device : DiscoveredDevice) (secretPath : string)
    : ST W (result (SecretData * option SecretMetadata)) :=
  st_try (CreateGRPCClient am device) (wrapf "failed to create gRPC client") (λ grpcClient,
    (let* connected := c_IsConnected grpcClient in
     if negb connected then st_ret (Err (errorf "device not connected")) else
     st_try (c_ReadSecret grpcClient secretPath) (wrapf "failed to read secret") (λ data,
       let* r := c_ReadMetadata grpcClient secretPath in
       let metadata := match r with Ok md => md | Err _ => None end in
       st_ret (Ok (data, metadata))))%go).

(* [internal/mirror/manager.go:570-585] *)
Definition WriteSecret (device : DiscoveredDevice) (secretPath : string) (data : SecretData)
    (metadata : option SecretMetadata) : ST W (result unit) :=
  st_try (CreateGRPCClient am device) (wrapf "failed to create gRPC client") (λ grpcClient,
    (let* connected := c_IsConnected grpcClient in
     if negb connected then st_ret (Err (errorf "device not connected")) else
     st_try (c_WriteSecret grpcClient secretPath data metadata)
       (wrapf "failed to write secret with metadata") (λ _, st_ret (Ok ())))%go).

(* [internal/mirror/manager.go:588-610] *)
Definition writeMetadataOnly (device : DiscoveredDevice) (secretPath : string)
    (metadata : option SecretMetadata) : ST W (result unit) :=
  st_try (CreateGRPCClient am device) (wrapf "failed to create gRPC client") (λ grpcClient,
    (let* connected := c_IsConnected grpcClient in
     if negb connected then st_ret (Err (errorf "device not connected")) else
     st_try (c_ReadSecret grpcClient secretPath) (wrapf "failed to read existing secret data")
       (λ existingData,
     st_try (c_WriteSecret grpcClient secretPath existingData metadata)
       (wrapf "failed to write secret with metadata") (λ _, st_ret (Ok ()))))%go).

(* [internal/mirror/manager.go:460-463 executeMirrorPlan] *)
Definition newVersion (sourceMetadata : option SecretMetadata) : Z :=
  let v := MetadataVersion sourceMetadata in if v <=? 0 then 1 else v.

(* [internal/mirror/manager.go:466-472 executeMirrorPlan] *)
Definition syncMetadata (version : Z) (now : Time) (source : string) : SecretMetadata :=
  labelled (<["sync.version" := go_itoa version]>
           (<["sync.timestamp" := format_RFC3339 now]>
           (<["sync.source" := source]> ∅))).

(** [sourceMetadata == nil || sourceMetadata.Labels == nil || Labels["sync.version"] == ""] *)
(* [internal/mirror/manager.go:476-476 executeMirrorPlan] *)
Definition lacks_version (sourceMetadata : option SecretMetadata) : bool :=
  bool_decide (default "" (md_label sourceMetadata "sync.version") = "").

(** The write to one target: the source's copy, or the target's own with new metadata. *)
(* [internal/mirror/manager.go:502-509 executeMirrorPlan] *)
Definition sync_target (plan : SecretMirrorPlan) (data : SecretData) (md : SecretMetadata)
    (targetDevice : DiscoveredDevice) : ST W (result unit) :=
  match pl_MirrorType plan with
  | MirrorTypeCreate | MirrorTypeUpdate => WriteSecret targetDevice (pl_SecretPath plan) data (Some md)
  | MirrorTypeRestoreMetadata => writeMetadataOnly targetDevice (pl_SecretPath plan) (Some md)
  | MirrorTypeSkip => st_ret (Ok ())
  end.

(** The counters of the loop over the targets: successful, failed, [result.Error]. *)
Definition target_acc : Type := (Z * Z * option error)%type.

(* [internal/mirror/manager.go:488-521 executeMirrorPlan] *)
Definition sync_targets (plan : SecretMirrorPlan) (deviceLookup : gmap string DiscoveredDevice)
    (data : SecretData) (md : SecretMetadata) : list string → ST W target_acc := λ targets,
  st_fold (λ (acc : target_acc) targetDeviceId,
    let '(successful, failed, err) := acc in
    match deviceLookup !! targetDeviceId with
    | None =>
        let lookupErr := errorf ("target device not found in lookup: " +:+ targetDeviceId) in
        st_ret (successful, failed + 1, Some (default lookupErr err))
    | Some targetDevice =>
        (let* r := sync_target plan data md targetDevice in
         match r with
         | Err syncErr => st_ret (successful, failed + 1, Some (default syncErr err))
         | Ok _ => st_ret (successful + 1, failed, err)
         end)%go
    end) targets (0, 0, None).

(** [result] with its last two fields. *)
Definition plan_result (plan : SecretMirrorPlan) (success : bool) (err : option error) : SecretMirrorResult :=
  mkSecretResult (pl_SecretPath plan) (pl_SourceDevice plan) (pl_SourceVersion plan)
    (pl_TargetDevices plan) (pl_MirrorType plan) success err.

(* [internal/mirror/manager.go:424-540] *)
Definition executeMirrorPlan (plan : SecretMirrorPlan) (deviceLookup : gmap string DiscoveredDevice)
    : ST W SecretMirrorResult :=
  if bool_decide (pl_MirrorType plan = MirrorTypeSkip) then st_ret (plan_result plan true None) else
  match deviceLookup !! pl_SourceDevice plan with
  | None => st_ret (plan_result plan false
      (Some (errorf ("source device not found in lookup: " +:+ pl_SourceDevice plan))))
  | Some sourceDevice =>
      (let* r := readSecretWithMetadata sourceDevice (pl_SecretPath plan) in
       match r with
       | Err err => st_ret (plan_result plan false (Some (wrapf "failed to read source secret" err)))
       | Ok (sourceData, sourceMetadata) =>
           let version := newVersion sourceMetadata in
           let* now := time_Now in
           let md := syncMetadata version now (pl_SourceDevice plan) in
           let* restored :=
             (if bool_decide (pl_MirrorType plan = MirrorTypeRestoreMetadata) && lacks_version sourceMetadata
              then WriteSecret sourceDevice (pl_SecretPath plan) sourceData (Some md)
              else st_ret (Ok ())) in
           match restored with
           | Err err => st_ret (plan_result plan false (Some (wrapf "failed to restore metadata on source" err)))
           | Ok _ =>
               let* acc := sync_targets plan deviceLookup sourceData md (pl_TargetDevices plan) in
               let '(_, failedTargets, err) := acc in
               st_ret (plan_result plan (failedTargets =? 0) err)
           end
       end)%go
  end.

(* [internal/mirror/manager.go:399-418 executeMirrorPlans] *)
Definition execute_one (deviceLookup : gmap string DiscoveredDevice) (result : MirrorResult)
    (plan : SecretMirrorPlan) : ST W MirrorResult :=
  (let* sr := executeMirrorPlan plan deviceLookup in
   let results := <[pl_SecretPath plan := sr]> (mr_SecretResults result) in
   let one t := if sr_Success sr && bool_decide (sr_MirrorType sr = t) then 1 else 0 in
   st_ret (mkMirrorResult
     (mr_Success result && sr_Success sr) (mr_SecretsProcessed result)
     (mr_SecretsUpdated result + one MirrorTypeUpdate)
     (mr_SecretsCreated result + one MirrorTypeCreate)
     (mr_MetadataRestored result + one MirrorTypeRestoreMetadata)
     results
     (match sr_Success sr, sr_Error sr with
      | false, Some e => mr_Errors result ++ [pl_SecretPath plan +:+ ": " +:+ error_string e]
      | _, _ => mr_Errors result
      end)))%go.

(* [internal/mirror/manager.go:388-421] *)
Definition executeMirrorPlans (plans : list SecretMirrorPlan) (deviceLookup : gmap string DiscoveredDevice)
    : ST W MirrorResult :=
  st_fold (execute_one deviceLookup) plans (mkMirrorResult true (Z.of_nat (length plans)) 0 0 0 ∅ []).

(** ** Discovery and the whole sweep *)

(** Close the clients opened so far, last opened first (deferred calls). *)
Definition run_deferred (opened : list (Client W)) : ST W unit :=
  st_fold (λ _ c, st_bind (c_Close c) (λ _, st_ret ())) opened ().

(** [n] attempts are left out of [maxRetries]; [opened] are the clients whose
    [Close] is deferred, [lastErr] the error of the previous attempt. *)
(* [internal/mirror/manager.go:717-763 discoverDeviceSecretsWithRetry] *)
Fixpoint discover_attempts (device : DiscoveredDevice) (n : nat) (opened : list (Client W))
    (lastErr : error) : ST W (result (list string) * list (Client W)) :=
  match n with
  | O => st_ret (Err lastErr, opened)
  | S n' =>
      (let* r := CreateGRPCClient am device in
       match r with
       | Err err => discover_attempts device n' opened (wrapf "failed to create gRPC client" err)
       | Ok hsmClient =>
           let* secrets := c_ListSecrets hsmClient "" in
           match secrets with
           | Err err => discover_attempts device n' (hsmClient :: opened) (wrapf "failed to list secrets" err)
           | Ok l => st_ret (Ok l, hsmClient :: opened)
           end
       end)%go
  end.

(* [internal/mirror/manager.go:714-766] *)
Definition discoverDeviceSecretsWithRetry (device : DiscoveredDevice) (maxRetries : nat)
    : ST W (result (list string)) :=
  (let* ro := discover_attempts device maxRetries [] (errorf "%!w(<nil>)") in
   do! run_deferred ro.2 in
   match ro.1 with
   | Ok secrets => st_ret (Ok secrets)
   | Err lastErr => st_ret (Err (wrapf ("failed to discover secrets after " +:+
       go_itoa (Z.of_nat maxRetries) +:+ " attempts") lastErr))
   end)%go.

(* [internal/mirror/manager.go:667-711] *)
Definition discoverAllSecrets (devices : list DiscoveredDevice) : ST W (list string) :=
  (let* secretPaths := st_fold (λ (paths : gmap string bool) device,
     let* r := discoverDeviceSecretsWithRetry device 3 in
     match r with
     | Err _ => st_ret paths
     | Ok secrets => st_ret (fold_left (λ ps p, <[p := true]> ps) secrets paths)
     end) devices ∅ in
   st_ret (sort_Strings (range secretPaths).*1))%go.

(* [internal/mirror/manager.go:647-650 MirrorAllSecrets] *)
Definition device_lookup (devices : list DiscoveredDevice) : gmap string DiscoveredDevice :=
  fold_left (λ m d, <[dd_SerialNumber d := d]> m) devices ∅.

Definition empty_result : MirrorResult := mkMirrorResult true 0 0 0 0 ∅ [].

(* [internal/mirror/manager.go:614-664] *)
Definition MirrorAllSecrets (operatorNamespace : string) : ST W (result MirrorResult) :=
  st_try (GetAvailableDevices am operatorNamespace) (wrapf "failed to get available devices") (λ devices,
    (if (length devices <=? 1)%nat then st_ret (Ok empty_result) else
     let* allSecretPaths := discoverAllSecrets devices in
     if bool_decide (allSecretPaths = []) then st_ret (Ok empty_result) else
     let* inventory := buildSecretInventory allSecretPaths devices in
     let* r := executeMirrorPlans (createMirrorPlans inventory) (device_lookup devices) in
     st_ret (Ok r))%go).

(** One tick of the wait loop: is some device's agent connected? *)
(* [internal/mirror/manager.go:818-833 WaitForAgentsReady] *)
Fixpoint some_agent_ready (devices : list DiscoveredDevice) : ST W bool :=
  match devices with
  | [] => st_ret false
  | device :: rest =>
      (let* r := CreateGRPCClient am device in
       match r with
       | Err _ => some_agent_ready rest
       | Ok grpcClient =>
           let* connected := c_IsConnected grpcClient in
           if connected then do! c_Close grpcClient in st_ret true
           else some_agent_ready rest
       end)%go
  end.

(** [ticks] is the number of ticks before the deadline of the context. *)
(* [internal/mirror/manager.go:793-839] *)
Fixpoint WaitForAgentsReady (operatorNamespace : string) (ticks : nat) : ST W (bool * option error) :=
  match ticks with
  | O => st_ret (false, Some (errorf "context deadline exceeded"))
  | S ticks' =>
      (let* r := GetAvailableDevices am operatorNamespace in
       match r with
       | Err _ => WaitForAgentsReady operatorNamespace ticks'
       | Ok devices =>
           let* ready := some_agent_ready devices in
           if ready then st_ret (true, None)
           else WaitForAgentsReady operatorNamespace ticks'
       end)%go
  end.

(** ** What the sweep relies on: the agent manager hands out clients of the device
    asked for, and neither it nor the clock touches what the devices hold. *)
Context `{!StoreView W}.
Class AgentLaws : Prop := {
  CreateGRPCClient_unchanged d : preserves unchanged (CreateGRPCClient am d);
  CreateGRPCClient_Ok d w c : (CreateGRPCClient am d w).1 = Ok c → ClientLaws (dd_SerialNumber d) c;
  GetAvailableDevices_unchanged ns : preserves unchanged (GetAvailableDevices am ns);
  time_Now_unchanged : preserves unchanged time_Now;
}.
Context `{!AgentLaws}.

(** Give a name to the client a successful [CreateGRPCClient] returns. *)
Lemma with_client {A} d onerr (k : Client W → ST W (result A)) w a w' :
  st_try (CreateGRPCClient am d) onerr k w = (a, w') →
  (∃ e, a = Err e ∧ unchanged w w') ∨
  (∃ c w1, ClientLaws (dd_SerialNumber d) c ∧ unchanged w w1 ∧ CreateGRPCClient am d w = (Ok c, w1) ∧
     k c w1 = (a, w')).
Proof.
  unfold st_try, st_bind. pose proof (CreateGRPCClient_unchanged d w) as Hu.
  destruct (CreateGRPCClient am d w) as [[c|e] w1] eqn:E; simpl in Hu.
  - intros Hk. right. exists c, w1. split_and!; [|done|done|done].
    apply (CreateGRPCClient_Ok d w). by rewrite E.
  - unfold st_ret. intros [= <- <-]. left. by exists (onerr e).
Qed.

(** The connection check that follows. *)
Lemma with_connected {A} s c (k : ST W (result A)) e w a w' :
  ClientLaws s c →
  st_bind (c_IsConnected c) (λ connected, if negb connected then st_ret (Err e) else k) w = (a, w') →
  (a = Err e ∧ unchanged w w') ∨ (∃ w1, unchanged w w1 ∧ k w1 = (a, w')).
Proof.
  intros Hc. unfold st_bind. pose proof (IsConnected_unchanged w) as Hu.
  destruct (c_IsConnected c w) as [[|] w1]; simpl in *.
  - intros Hk. right. by exists w1.
  - unfold st_ret. intros [= <- <-]. by left.
Qed.

(** A method whose error is wrapped and returned. *)
Lemma with_method {A B} (m : ST W (result A)) onerr (k : A → ST W (result B)) w a w' :
  st_try m onerr k w = (a, w') →
  (∃ e w1, m w = (Err e, w1) ∧ a = Err (onerr e) ∧ w' = w1) ∨
  (∃ x w1, m w = (Ok x, w1) ∧ k x w1 = (a, w')).
Proof.
  unfold st_try, st_bind. destruct (m w) as [[x|e] w1].
  - intros Hk. right. by exists x, w1.
  - unfold st_ret. intros [= <- <-]. left. by exists e, w1.
Qed.

(** The metadata of device [s] at [path] could not be read: a client of it that was
    opened in the meantime answered with an error. *)
Definition metadata_unreadable (w : W) (s path : string) : Prop :=
  ∃ d w1 c w2 w3 e w4, dd_SerialNumber d = s ∧ unchanged w w1 ∧ CreateGRPCClient am d w1 = (Ok c, w2) ∧
    unchanged w w3 ∧ c_ReadMetadata c path w3 = (Err e, w4).

(** What the reader goes by: the metadata the device holds, or none if it could not be
    read. *)
Definition metadata_read (w : W) (s path : string) (md : option SecretMetadata) : Prop :=
  md = md_at w s path ∨ (md = None ∧ metadata_unreadable w s path).

Lemma metadata_unreadable_unchanged w w' s path :
  unchanged w w' → metadata_unreadable w' s path → metadata_unreadable w s path.
Proof.
  intros Hu (d & w1 & c & w2 & w3 & e & w4 & ? & H1 & ? & H3 & ?). exists d, w1, c, w2, w3, e, w4.
  split_and!; [done|by etrans|done|by etrans|done].
Qed.

Lemma readSecretWithMetadata_spec device path w r w' :
  readSecretWithMetadata device path w = (r, w') →
  unchanged w w' ∧
  ∀ d md, r = Ok (d, md) →
    sec_at w (dd_SerialNumber device) path = Some d ∧
    metadata_read w (dd_SerialNumber device) path md.
Proof.
  intros [(e&->&?)|(c&w1&Hc&Hu&Ecl&Hk)]%with_client; [done|].
  apply (with_connected _ _ _ _ _ _ _ Hc) in Hk as [(->&?)|(w2&Hu2&Hk)]; [by split; [etrans|]|].
  apply with_method in Hk as [(e&w3&Hr&->&->)|(d&w3&Hr&Hk)];
    apply (ReadSecret_run _ _ _ _ _ _ Hc) in Hr as [Hu3 Hsec].
  { split; [|done]. by repeat (etrans; [eassumption|]). }
  unfold st_bind in Hk. destruct (c_ReadMetadata c path w3) as [rm w4] eqn:Hr. pose proof Hr as Erm.
  apply (ReadMetadata_run _ _ _ _ _ _ Hc) in Hr as [Hu4 Hmd].
  unfold st_ret in Hk. injection Hk as <- <-.
  split; [by repeat (etrans; [eassumption|])|]. intros d' md [= -> <-]. split.
  - rewrite <-(proj1 (Hu _ _)), <-(proj1 (Hu2 _ _)). by apply Hsec.
  - destruct rm as [md'|e].
    + left. rewrite <-(proj2 (Hu _ _)), <-(proj2 (Hu2 _ _)), <-(proj2 (Hu3 _ _)). symmetry. by apply Hmd.
    + right. split; [done|]. exists device, w, c, w1, w3, e, w4.
      split_and!; [done|reflexivity|done| |done]. etrans; [exact Hu|]. by etrans.
Qed.

Lemma WriteSecret_spec device path d md w r w' :
  WriteSecret device path d (Some md) w = (r, w') →
  only_changed (dd_SerialNumber device) path w w' ∧
  (storable path d → r = Ok () → sec_at w' (dd_SerialNumber device) path = Some d ∧
               (keepable md → md_at w' (dd_SerialNumber device) path = Some md)).
Proof.
  intros [(e&->&?)|(c&w1&Hc&Hu%(unchanged_only (dd_SerialNumber device) path)&_&Hk)]%with_client.
  { split; [by apply unchanged_only|done]. }
  apply (with_connected _ _ _ _ _ _ _ Hc) in Hk
    as [(->&Hu2)|(w2&Hu2&Hk)]; apply (unchanged_only (dd_SerialNumber device) path) in Hu2.
  { split; [by etrans|done]. }
  apply with_method in Hk as [(e&w3&Hr&->&->)|([]&w3&Hr&Hk)];
    apply (WriteSecret_run _ _ _ _ _ _ _ _ Hc) in Hr as [Hu3 Hw].
  { split; [|done]. by repeat (etrans; [eassumption|]). }
  unfold st_ret in Hk. injection Hk as <- <-.
  split; [by repeat (etrans; [eassumption|])|]. intros Hd _. by apply Hw.
Qed.

Lemma writeMetadataOnly_spec device path md w r w' :
  writeMetadataOnly device path (Some md) w = (r, w') →
  only_changed (dd_SerialNumber device) path w w' ∧
  ((∀ d, sec_at w (dd_SerialNumber device) path = Some d → storable path d) →
   r = Ok () → sec_at w' (dd_SerialNumber device) path = sec_at w (dd_SerialNumber device) path ∧
               (keepable md → md_at w' (dd_SerialNumber device) path = Some md)).
Proof.
  set (s := dd_SerialNumber device).
  intros [(e&->&?)|(c&w1&Hc&Hu&_&Hk)]%with_client.
  { split; [by apply unchanged_only|done]. }
  apply (with_connected _ _ _ _ _ _ _ Hc) in Hk as [(->&Hu2)|(w2&Hu2&Hk)].
  { split; [|done]. apply unchanged_only. by etrans. }
  apply with_method in Hk as [(e&w3&Hr&->&->)|(d&w3&Hr&Hk)];
    apply (ReadSecret_run _ _ _ _ _ _ Hc) in Hr as [Hu3 Hsec].
  { split; [|done]. apply unchanged_only. by repeat (etrans; [eassumption|]). }
  assert (unchanged w w3) as H13 by by repeat (etrans; [eassumption|]).
  assert (sec_at w s path = Some d) as Hd.
  { rewrite <-(proj1 (Hu _ _)), <-(proj1 (Hu2 _ _)). by apply Hsec. }
  apply with_method in Hk as [(e&w4&Hr&->&->)|([]&w4&Hr&Hk)];
    apply (WriteSecret_run _ _ _ _ _ _ _ _ Hc) in Hr as [Hu4 Hw];
    apply (unchanged_only s path) in H13.
  { split; [|done]. by etrans. }
  unfold st_ret in Hk. injection Hk as <- <-. split; [by etrans|].
  intros Hst _. rewrite Hd. apply Hw; [|done]. by apply Hst.
Qed.

(** The device an entry of the lookup table stands for. *)
Definition lookup_ok (deviceLookup : gmap string DiscoveredDevice) : Prop :=
  ∀ t d, deviceLookup !! t = Some d → dd_SerialNumber d = t.

(** What a successful [sync_target] leaves on device [t]: the source's data, or
    the data it had, with the new metadata in both cases. *)
Definition synced (plan : SecretMirrorPlan) (data : SecretData) (md : SecretMetadata) (t : string)
    (w w' : W) : Prop :=
  sec_at w' t (pl_SecretPath plan) =
    (if bool_decide (pl_MirrorType plan = MirrorTypeRestoreMetadata)
     then sec_at w t (pl_SecretPath plan) else Some data) ∧
  (keepable md → md_at w' t (pl_SecretPath plan) = Some md).

(** What [sync_target] writes to a device can be told apart again. *)
Definition sync_storable (plan : SecretMirrorPlan) (data : SecretData) (w : W) (t : string) : Prop :=
  storable (pl_SecretPath plan) data ∧
  ∀ d, sec_at w t (pl_SecretPath plan) = Some d → storable (pl_SecretPath plan) d.

Lemma sync_target_spec plan data md device w r w' :
  pl_MirrorType plan ≠ MirrorTypeSkip →
  sync_target plan data md device w = (r, w') →
  only_changed (dd_SerialNumber device) (pl_SecretPath plan) w w' ∧
  (sync_storable plan data w (dd_SerialNumber device) → r = Ok () → synced plan data md (dd_SerialNumber device) w w').
Proof.
  intros Hty. unfold sync_target, synced, sync_storable. destruct (pl_MirrorType plan) eqn:E; [done|..].
  - intros H1%WriteSecret_spec. rewrite bool_decide_false by done. naive_solver.
  - intros H1%WriteSecret_spec. rewrite bool_decide_false by done. naive_solver.
  - intros H1%writeMetadataOnly_spec. rewrite bool_decide_true by done. naive_solver.
Qed.

(** One step of the loop over the targets. *)
Definition sync_step (plan : SecretMirrorPlan) (deviceLookup : gmap string DiscoveredDevice)
    (data : SecretData) (md : SecretMetadata) (acc : target_acc) (t : string) : ST W target_acc :=
  let '(successful, failed, err) := acc in
  match deviceLookup !! t with
  | None => st_ret (successful, failed + 1,
              Some (default (errorf ("target device not found in lookup: " +:+ t)) err))
  | Some targetDevice =>
      (let* r := sync_target plan data md targetDevice in
       match r with
       | Err syncErr => st_ret (successful, failed + 1, Some (default syncErr err))
       | Ok _ => st_ret (successful + 1, failed, err)
       end)%go
  end.

Lemma sync_targets_eq plan deviceLookup data md targets :
  sync_targets plan deviceLookup data md targets =
  st_fold (sync_step plan deviceLookup data md) targets (0, 0, None).
Proof. reflexivity. Qed.

Lemma sync_step_spec plan deviceLookup data md n f err t w acc w' :
  lookup_ok deviceLookup → pl_MirrorType plan ≠ MirrorTypeSkip →
  sync_step plan deviceLookup data md (n, f, err) t w = (acc, w') →
  only_changed t (pl_SecretPath plan) w w' ∧ f ≤ acc.1.2 ∧
  (sync_storable plan data w t → acc.1.2 = f → synced plan data md t w w').
Proof.
  intros Hl Hty. unfold sync_step. destruct (deviceLookup !! t) as [d|] eqn:Ed.
  - apply Hl in Ed. unfold st_bind.
    destruct (sync_target plan data md d w) as [r w1] eqn:E.
    apply sync_target_spec in E as [Ho Hs]; [|done..]. rewrite Ed in Ho, Hs.
    destruct r as [[]|e]; unfold st_ret; intros [= <- <-]; simpl; (split_and!; [done|lia|]).
    + intros Hsto _. by apply Hs.
    + intros. lia.
  - unfold st_ret. intros [= <- <-]. simpl. split_and!; [reflexivity|lia|intros; lia].
Qed.

Lemma sync_targets_spec plan deviceLookup data md targets n f err w acc w' :
  lookup_ok deviceLookup → pl_MirrorType plan ≠ MirrorTypeSkip → NoDup targets →
  st_fold (sync_step plan deviceLookup data md) targets (n, f, err) w = (acc, w') →
  only_on targets (pl_SecretPath plan) w w' ∧ f ≤ acc.1.2 ∧
  ((∀ t, t ∈ targets → sync_storable plan data w t) →
   acc.1.2 = f → ∀ t, t ∈ targets → synced plan data md t w w').
Proof.
  intros Hl Hty. revert n f err w. induction targets as [|t targets IH]; intros n f err w Hnd; cbn [st_fold].
  { unfold st_ret. intros [= <- <-]. simpl. split_and!; [reflexivity|lia|set_solver]. }
  apply NoDup_cons in Hnd as [Hnt Hnd]. unfold st_bind.
  destruct (sync_step plan deviceLookup data md (n, f, err) t w) as [[[n1 f1] err1] w1] eqn:E1.
  apply sync_step_spec in E1 as (Ho1 & Hf1 & Hs1); [|done..]. simpl in Hf1, Hs1.
  intros Hrest. destruct (IH _ _ _ _ Hnd Hrest) as (Ho2 & Hf2 & Hs2).
  assert (only_on (t :: targets) (pl_SecretPath plan) w w1) as Ho1'
    by (eapply only_changed_on; [by left|done]).
  split_and!; [|lia|].
  - etrans; [done|]. eapply only_on_mono; [|done]. set_solver.
  - intros Hsto Hf. assert (f1 = f ∧ acc.1.2 = f1) as [-> Hf'] by lia.
    assert (∀ x, x ∈ targets → sec_at w1 x (pl_SecretPath plan) = sec_at w x (pl_SecretPath plan)) as Hsame.
    { intros x Hx. apply Ho1. left. congruence. }
    assert (∀ x, x ∈ targets → sync_storable plan data w1 x) as Hsto1.
    { intros x Hx. unfold sync_storable. rewrite Hsame by done. apply Hsto. by right. }
    intros x [->|Hx]%elem_of_cons.
    + destruct (Hs1 ltac:(apply Hsto; by left) eq_refl) as [H1 H2]. unfold synced.
      destruct (Ho2 t (pl_SecretPath plan)) as [-> ->]; [by left|]. done.
    + destruct (Hs2 Hsto1 Hf' x Hx) as [H1 H2]. unfold synced. by rewrite <-Hsame.
Qed.

(** Restoring the metadata of the source keeps its data. *)
Lemma restore_source_spec plan sd data smd md w restored w' :
  sec_at w (dd_SerialNumber sd) (pl_SecretPath plan) = Some data →
  (if bool_decide (pl_MirrorType plan = MirrorTypeRestoreMetadata) && lacks_version smd
   then WriteSecret sd (pl_SecretPath plan) data (Some md) else st_ret (Ok ())) w = (restored, w') →
  only_changed (dd_SerialNumber sd) (pl_SecretPath plan) w w' ∧
  (pl_MirrorType plan ≠ MirrorTypeRestoreMetadata → unchanged w w') ∧
  (storable (pl_SecretPath plan) data →
   restored = Ok () → sec_at w' (dd_SerialNumber sd) (pl_SecretPath plan) = Some data).
Proof.
  intros Hd. case_bool_decide as Eb; simpl.
  - destruct (lacks_version smd).
    + intros [Ho Hw]%WriteSecret_spec. split_and!; [done|by intros []|]. intros Hsto ->. by apply Hw.
    + intros [= <- <-]. split_and!; [reflexivity|done|done].
  - intros [= <- <-]. split_and!; [reflexivity|reflexivity|done].
Qed.

(** What the devices of a plan hold at its path can be written back. *)
Definition plan_storable (plan : SecretMirrorPlan) (w : W) : Prop :=
  ∀ s d, s ∈ pl_SourceDevice plan :: pl_TargetDevices plan →
    sec_at w s (pl_SecretPath plan) = Some d → storable (pl_SecretPath plan) d.

(** Everything [executeMirrorPlan] does, for a plan that is not a skip. *)
Lemma executeMirrorPlan_spec plan deviceLookup w r w' :
  lookup_ok deviceLookup → NoDup (pl_TargetDevices plan) → pl_MirrorType plan ≠ MirrorTypeSkip →
  pl_SourceDevice plan ∉ pl_TargetDevices plan →
  executeMirrorPlan plan deviceLookup w = (r, w') →
  only_on (pl_SourceDevice plan :: pl_TargetDevices plan) (pl_SecretPath plan) w w' ∧
  (pl_MirrorType plan ≠ MirrorTypeRestoreMetadata →
     only_on (pl_TargetDevices plan) (pl_SecretPath plan) w w') ∧
  (plan_storable plan w → sr_Success r = true → ∃ data smd md,
     sec_at w (pl_SourceDevice plan) (pl_SecretPath plan) = Some data ∧
     sec_at w' (pl_SourceDevice plan) (pl_SecretPath plan) = Some data ∧
     metadata_read w (pl_SourceDevice plan) (pl_SecretPath plan) smd ∧
     (∃ now, md = syncMetadata (newVersion smd) now (pl_SourceDevice plan)) ∧
     ∀ t, t ∈ pl_TargetDevices plan → synced plan data md t w w').
Proof.
  intros Hl Hnd Hty Hsrc. unfold executeMirrorPlan. rewrite bool_decide_false by done.
  destruct (deviceLookup !! pl_SourceDevice plan) as [sd|] eqn:Esd.
  2:{ unfold st_ret. intros [= <- <-]. split_and!; [reflexivity|reflexivity|done]. }
  apply Hl in Esd. unfold st_bind at 1.
  destruct (readSecretWithMetadata sd (pl_SecretPath plan) w) as [rr w1] eqn:Er.
  apply readSecretWithMetadata_spec in Er as [Hu1 Hr]. rewrite Esd in Hr.
  destruct rr as [[data smd]|e].
  2:{ unfold st_ret. intros [= <- <-]. split_and!; [by apply unchanged_on|intros _; by apply unchanged_on|done]. }
  destruct (Hr data smd eq_refl) as [Hd Hsmd]. unfold st_bind at 1.
  pose proof (time_Now_unchanged w1) as Hu2. destruct (time_Now w1) as [now w2]. simpl in Hu2.
  assert (unchanged w w2) as Hu by by etrans. clear Hu1 Hu2 Hr.
  set (md := syncMetadata (newVersion smd) now (pl_SourceDevice plan)).
  unfold st_bind at 1.
  destruct ((if bool_decide (pl_MirrorType plan = MirrorTypeRestoreMetadata) && lacks_version smd
             then WriteSecret sd (pl_SecretPath plan) data (Some md) else st_ret (Ok ())) w2)
    as [restored w3] eqn:Ere.
  apply restore_source_spec in Ere as (Hc3 & Hu3 & Hd3); [|by rewrite Esd, (proj1 (Hu _ _))].
  rewrite Esd in Hc3, Hd3.
  assert (only_changed (pl_SourceDevice plan) (pl_SecretPath plan) w w3) as Hc
    by (etrans; [by apply unchanged_only|done]).
  destruct restored as [[]|e].
  2:{ unfold st_ret. intros [= <- <-]. split_and!; [|intros; apply unchanged_on; etrans; [done|by apply Hu3]|done].
      eapply only_changed_on; [by left|done]. }
  rewrite sync_targets_eq. unfold st_bind.
  destruct (st_fold (sync_step plan deviceLookup data md) (pl_TargetDevices plan) (0, 0, None) w3)
    as [[[n f] err] w4] eqn:Ef.
  apply sync_targets_spec in Ef as (Ho & Hf & Hs); [|done..]. simpl in Hf, Hs.
  unfold st_ret. intros [= <- <-]. simpl. split_and!.
  - etrans; [eapply only_changed_on; [by left|done]|]. eapply only_on_mono; [|done]. set_solver.
  - intros Hnr. etrans; [|done]. apply unchanged_on. etrans; [done|by apply Hu3].
  - intros Hsto ->%Z.eqb_eq. exists data, smd, md.
    assert (storable (pl_SecretPath plan) data) as Hdata by (eapply Hsto; [by left|done]).
    assert (∀ t, t ∈ pl_TargetDevices plan → sec_at w3 t (pl_SecretPath plan) = sec_at w t (pl_SecretPath plan)) as Hsame.
    { intros t Ht. apply Hc. left. congruence. }
    split_and!; [done| |done|by exists now|].
    + rewrite (proj1 (Ho _ _ (or_introl Hsrc))). by apply Hd3.
    + assert (∀ t, t ∈ pl_TargetDevices plan → sync_storable plan data w3 t) as Hsto3.
      { intros t Ht. split; [done|]. rewrite Hsame by done. intros d. apply Hsto. by right. }
      intros t Ht. destruct (Hs Hsto3 eq_refl t Ht) as [H1 H2]. unfold synced. by rewrite <-Hsame.
Qed.

(** ** Lemmas: observations and plans *)
Lemma elem_of_responding inv d st :
  (d, st) ∈ responding inv ↔ inv_DeviceStates inv !! d = Some st ∧ st_Error st = None.
Proof. unfold responding. rewrite list_elem_of_filter, elem_of_range. simpl. naive_solver. Qed.

Definition observations (inv : SecretInventory) : list DeviceObservation :=
  map (λ ds, observation ds.1 ds.2) (responding inv).

Definition decision_of (inv : SecretInventory) : Decision :=
  Resolve (observations inv) (Z.of_nat (length (responding inv))).

(** Devices are known by non-empty serial numbers. *)
Definition serials_ok (inv : SecretInventory) : Prop :=
  map_Forall (λ d _, d ≠ "") (inv_DeviceStates inv).

Lemma observation_id d st : o_DeviceID (observation d st) = d.
Proof. unfold observation. by destruct (st_Present st). Qed.

Lemma observations_ids inv : map o_DeviceID (observations inv) = (responding inv).*1.
Proof.
  unfold observations. rewrite map_map. apply map_ext. intros [d st]. apply observation_id.
Qed.

Lemma observations_distinct inv : serials_ok inv → distinct_devices (observations inv).
Proof.
  intros Hs. split.
  - rewrite observations_ids. eapply (sublist_NoDup _ (range (inv_DeviceStates inv)).*1); [apply range_keys_NoDup|].
    apply fmap_sublist, sublist_filter.
  - apply Forall_forall. intros o (ds & -> & Hds)%list_elem_of_fmap.
    destruct ds as [d st]. apply elem_of_responding in Hds as [Hds _].
    rewrite observation_id. by eapply (Hs d st).
Qed.

(** The voters are the responding devices that hold the secret. *)
Lemma elem_of_voters inv o :
  o ∈ filter hasOpinion (observations inv) ↔
  ∃ d st, (d, st) ∈ responding inv ∧ st_Present st = true ∧ o = observation d st.
Proof.
  unfold observations. rewrite list_elem_of_filter. split.
  - intros [Ho ([d st] & -> & Hds)%list_elem_of_fmap]. exists d, st. split_and!; [done| |done].
    unfold observation in Ho. simpl in Ho. destruct (st_Present st); [done|by destruct Ho].
  - intros (d & st & Hds & Hp & ->). split; [unfold observation; by rewrite Hp|].
    apply list_elem_of_fmap. by exists (d, st).
Qed.

Lemma observation_present d st :
  st_Present st = true → effectiveChecksum (observation d st) = st_Checksum st.
Proof. unfold observation. by intros ->. Qed.

Lemma responding_unique inv d st st' :
  (d, st) ∈ responding inv → (d, st') ∈ responding inv → st = st'.
Proof. rewrite !elem_of_responding. naive_solver. Qed.

(** Some responding device holds the secret. *)
Definition held (inv : SecretInventory) : Prop :=
  ∃ d st, (d, st) ∈ responding inv ∧ st_Present st = true.

Lemma held_voters inv : held inv ↔ filter hasOpinion (observations inv) ≠ [].
Proof.
  split.
  - intros (d & st & Hds & Hp) E. assert (observation d st ∈ filter hasOpinion (observations inv)) as Ho
      by (apply elem_of_voters; eauto). rewrite E in Ho. by apply elem_of_nil in Ho.
  - destruct (filter hasOpinion (observations inv)) as [|o l] eqn:E; [done|]. intros _.
    assert (o ∈ filter hasOpinion (observations inv)) as Ho by (rewrite E; by left).
    apply elem_of_voters in Ho as (d & st & Hds & Hp & _). by exists d, st.
Qed.

Lemma serials_nonempty inv : serials_ok inv → Forall (λ o, o_DeviceID o ≠ "") (observations inv).
Proof. intros Hs. by apply observations_distinct. Qed.

(** The source holds the winning value; the outliers are the devices that hold another. *)
Lemma decision_source inv :
  serials_ok inv → held inv →
  ∃ st, (d_WinningDeviceID (decision_of inv), st) ∈ responding inv ∧ st_Present st = true ∧
        st_Checksum st = d_WinningChecksum (decision_of inv).
Proof.
  intros Hs Hh%held_voters.
  destruct (Resolve_facts (observations inv) (Z.of_nat (length (responding inv))) (serials_nonempty _ Hs))
    as [Hf Hrest].
  destruct (Hrest (proj2 Hf Hh)) as ([(o & Ho & Hc & Hid) _] & _).
  apply elem_of_voters in Ho as (d & st & Hds & Hp & ->).
  rewrite observation_id in Hid. rewrite observation_present in Hc by done.
  exists st. unfold decision_of. rewrite <-Hid, <-Hc. done.
Qed.

Lemma decision_outliers inv d :
  serials_ok inv → held inv →
  d ∈ d_Outliers (decision_of inv) ↔
  ∃ st, (d, st) ∈ responding inv ∧ st_Present st = true ∧
        st_Checksum st ≠ d_WinningChecksum (decision_of inv).
Proof.
  intros Hs Hh%held_voters.
  destruct (Resolve_facts (observations inv) (Z.of_nat (length (responding inv))) (serials_nonempty _ Hs))
    as [Hf Hrest].
  destruct (Hrest (proj2 Hf Hh)) as (_ & _ & Ho & _). unfold decision_of. rewrite Ho. split.
  - intros (o & Hin & Hid & Hc). apply elem_of_voters in Hin as (d' & st & Hds & Hp & ->).
    rewrite observation_id in Hid. subst. rewrite observation_present in Hc by done. by exists st.
  - intros (st & Hds & Hp & Hc). exists (observation d st).
    rewrite observation_id, observation_present, elem_of_voters by done.
    split_and!; [by exists d, st|done|done].
Qed.

Lemma decision_diverged inv :
  d_Diverged (decision_of inv) = negb (bool_decide (d_Outliers (decision_of inv) = [])).
Proof.
  unfold decision_of. destruct (voters_cases (observations inv)) as [Hv|(v0 & vs & Hv)].
  - by rewrite Resolve_none.
  - destruct (Resolve_some _ (Z.of_nat (length (responding inv))) _ _ Hv) as (c & s & _ & ->). done.
Qed.

(** The devices that the plan has to write to, source aside. *)
Definition needs_sync (inv : SecretInventory) (t : string) : Prop :=
  ∃ st, (t, st) ∈ responding inv ∧
    (st_Present st = false ∨ st_HasMetadata st = false ∨
     st_Checksum st ≠ d_WinningChecksum (decision_of inv)).

(** The three lists the plan is computed from. *)
Definition need_secret (inv : SecretInventory) : list string :=
  (filter (λ ds, st_Present ds.2 = false) (responding inv)).*1.
Definition need_metadata (inv : SecretInventory) : list string :=
  (filter (λ ds, st_Present ds.2 = true ∧ st_HasMetadata ds.2 = false) (responding inv)).*1.

Lemma elem_of_need_secret inv t :
  t ∈ need_secret inv ↔ ∃ st, (t, st) ∈ responding inv ∧ st_Present st = false.
Proof.
  unfold need_secret. rewrite list_elem_of_fmap. split.
  - intros ([d st] & -> & [Hp Hds]%list_elem_of_filter). by exists st.
  - intros (st & Hds & Hp). exists (t, st). by rewrite list_elem_of_filter.
Qed.

Lemma elem_of_need_metadata inv t :
  t ∈ need_metadata inv ↔
  ∃ st, (t, st) ∈ responding inv ∧ st_Present st = true ∧ st_HasMetadata st = false.
Proof.
  unfold need_metadata. rewrite list_elem_of_fmap. split.
  - intros ([d st] & -> & [Hp Hds]%list_elem_of_filter). naive_solver.
  - intros (st & Hds & Hp). exists (t, st). by rewrite list_elem_of_filter.
Qed.

Lemma elem_of_all_needs inv t :
  serials_ok inv → held inv →
  t ∈ need_secret inv ++ need_metadata inv ++ d_Outliers (decision_of inv) ↔ needs_sync inv t.
Proof.
  intros Hs Hh. rewrite !elem_of_app, elem_of_need_secret, elem_of_need_metadata,
    decision_outliers by done. unfold needs_sync. split.
  - naive_solver.
  - intros (st & Hds & Hn). destruct (st_Present st) eqn:Hp; [|naive_solver].
    destruct Hn as [|[|]]; [done|naive_solver..].
Qed.

Lemma held_dec inv :
  (filter (λ ds, st_Present ds.2 = true) (responding inv)).*1 = [] ↔ ¬ held inv.
Proof.
  split.
  - intros E (d & st & Hds & Hp). assert (d ∈ (filter (λ ds, st_Present ds.2 = true) (responding inv)).*1) as Hd.
    { apply list_elem_of_fmap. exists (d, st). by rewrite list_elem_of_filter. }
    rewrite E in Hd. by apply elem_of_nil in Hd.
  - intros Hh. destruct (filter _ _) as [|[d st] l] eqn:E; [done|]. exfalso. apply Hh.
    assert ((d, st) ∈ filter (λ ds, st_Present ds.2 = true) (responding inv)) as Hd by (rewrite E; by left).
    apply list_elem_of_filter in Hd as [? ?]. by exists d, st.
Qed.

Lemma plan_eq path inv :
  createMirrorPlanForSecret path inv =
  if bool_decide ((filter (λ ds, st_Present ds.2 = true) (responding inv)).*1 = []) then None
  else
    let d := decision_of inv in
    let version := match inv_DeviceStates inv !! d_WinningDeviceID d with
                   | Some st => st_Version st | None => 0 end in
    let skip := Some (mkPlan path (d_WinningDeviceID d) version [] MirrorTypeSkip) in
    if negb (d_Diverged d) && bool_decide (need_secret inv = []) && bool_decide (need_metadata inv = [])
    then skip
    else
      let targets := removeDevice (removeDuplicates
        (need_secret inv ++ need_metadata inv ++ d_Outliers d)) (d_WinningDeviceID d) in
      if bool_decide (targets = []) then skip
      else Some (mkPlan path (d_WinningDeviceID d) version targets
                   (mirror_type (need_secret inv) (need_metadata inv) (d_Outliers d))).
Proof. reflexivity. Qed.

Lemma plan_none path inv : createMirrorPlanForSecret path inv = None ↔ ¬ held inv.
Proof.
  rewrite plan_eq, <-held_dec. case_bool_decide as E; [done|].
  split; [|done]. cbv zeta. repeat case_match; done.
Qed.

Lemma mirror_type_skip a b c : mirror_type a b c = MirrorTypeSkip ↔ a ++ b ++ c = [].
Proof.
  unfold mirror_type. destruct a, b, c; simpl; split; try done; intros ?; simplify_eq; done.
Qed.

Lemma plan_some path inv p :
  serials_ok inv → createMirrorPlanForSecret path inv = Some p →
  held inv ∧ pl_SecretPath p = path ∧ pl_SourceDevice p = d_WinningDeviceID (decision_of inv) ∧
  NoDup (pl_TargetDevices p) ∧
  (∀ t, t ∈ pl_TargetDevices p ↔ t ≠ pl_SourceDevice p ∧ needs_sync inv t) ∧
  (pl_MirrorType p = MirrorTypeSkip ↔ pl_TargetDevices p = []) ∧
  (pl_TargetDevices p ≠ [] → pl_MirrorType p =
     mirror_type (need_secret inv) (need_metadata inv) (d_Outliers (decision_of inv))).
Proof.
  intros Hs Hp. assert (held inv) as Hh.
  { destruct (decide ((filter (λ ds, st_Present ds.2 = true) (responding inv)).*1 = [])) as [E|E].
    - apply held_dec in E. apply (plan_none path) in E. congruence.
    - destruct (filter _ _) as [|[d st] l] eqn:Ef; [done|]. exists d, st.
      apply and_comm. rewrite <-(list_elem_of_filter (λ ds, st_Present ds.2 = true) _ (d, st)), Ef. by left. }
  rewrite plan_eq, bool_decide_false in Hp by (by rewrite held_dec; intros []).
  cbv zeta in Hp.
  destruct (removeDuplicates_spec (need_secret inv ++ need_metadata inv ++ d_Outliers (decision_of inv)))
    as [Hnd Hin].
  set (targets := removeDevice (removeDuplicates _) _) in Hp.
  assert (∀ t, t ∈ targets ↔ t ≠ d_WinningDeviceID (decision_of inv) ∧ needs_sync inv t) as Ht.
  { intros t. unfold targets. by rewrite removeDevice_spec, Hin, elem_of_all_needs. }
  split; [done|]. destruct (negb _ && _ && _) eqn:Esync.
  - injection Hp as <-. simpl. split_and!; [done|done|constructor| |done|done].
    apply andb_prop in Esync as [[Hd Hns%bool_decide_eq_true]%andb_prop Hnm%bool_decide_eq_true].
    rewrite decision_diverged, negb_involutive in Hd. apply bool_decide_eq_true in Hd.
    intros t. split; [by intros ?%elem_of_nil|]. intros [_ Hn].
    apply elem_of_all_needs in Hn; [|done..]. by rewrite Hns, Hnm, Hd in Hn.
  - destruct (bool_decide (targets = [])) eqn:Et.
    + apply bool_decide_eq_true in Et. injection Hp as <-. simpl.
      rewrite Et in Ht. split_and!; [done|done|constructor|done|done|done].
    + apply bool_decide_eq_false in Et. injection Hp as <-. simpl.
      split_and!; [done|done|by apply removeDevice_NoDup|done| |done].
      rewrite mirror_type_skip. split; [|done]. intros E. exfalso. apply Et.
      unfold targets. by rewrite E.
Qed.

(** ** Lemmas: the inventory *)

(** A state without error that says "present" tells the truth about the device. *)
Definition reports (w : W) (path d : string) (st : SecretState) : Prop :=
  st_Error st = None → st_Present st = true →
  ∃ data, sec_at w d path = Some data ∧ st_Checksum st = content_digest data ∧
    (st_HasMetadata st = true → st_Version st = MetadataVersion (md_at w d path)).

Lemma calculateChecksum_eq data : calculateChecksum (Some data) = content_digest data.
Proof. unfold calculateChecksum, content_digest. by rewrite range_keys_sorted. Qed.

Lemma with_metadata_spec s r :
  st_HasMetadata s = false →
  let s' := with_metadata s r in
  st_Present s' = st_Present s ∧ st_Checksum s' = st_Checksum s ∧ st_Error s' = st_Error s ∧
  (st_HasMetadata s' = true → ∃ md, r = Ok md ∧ st_Version s' = MetadataVersion md).
Proof.
  intros Hs. unfold with_metadata, MetadataVersion, md_label, LabelSyncVersion, parseVersion.
  destruct r as [[[? [ls|] ? ? ? ?]|]|]; simpl; try (split_and!; [done|done|done|congruence]).
  destruct (ls !! "sync.version") as [v|] eqn:Ev.
  - destruct (scan_int64 v) as [n|] eqn:En; simpl;
      repeat case_match; simpl; split_and!; try done; try congruence;
      intros _; eexists; (split; [done|]); simpl; rewrite Ev; simpl; by rewrite En.
  - repeat case_match; simpl; split_and!; try done; congruence.
Qed.

Lemma check_secret_spec s c path w0 w :
  ClientLaws s c → unchanged w0 w →
  unchanged w0 (check_secret c path w).2 ∧ reports w0 path s (check_secret c path w).1.
Proof.
  intros Hc Hu. unfold check_secret, st_bind.
  pose proof (time_Now_unchanged w) as Hn. destruct (time_Now w) as [now w1]. simpl in Hn.
  destruct (c_ReadSecret c path w1) as [r w2] eqn:Er.
  apply (ReadSecret_run _ _ _ _ _ _ Hc) in Er as [Hu2 Hr].
  destruct r as [data|e]; unfold st_ret; cbn [fst snd].
  2:{ split; [by repeat (etrans; [eassumption|])|]. by intros _. }
  destruct (c_ReadMetadata c path w2) as [rm w3] eqn:Em.
  apply (ReadMetadata_run _ _ _ _ _ _ Hc) in Em as [Hu3 Hm]. cbn [fst snd].
  split; [by repeat (etrans; [eassumption|])|]. intros _ _.
  destruct (with_metadata_spec (mkState true 0 (t_unix now) (calculateChecksum (Some data)) false None) rm eq_refl)
    as (_ & -> & _ & Hv).
  assert (unchanged w0 w1) as Hu1 by by etrans. assert (unchanged w0 w2) as Hu02 by by etrans.
  exists data. split_and!.
  - rewrite <-(proj1 (Hu1 _ _)). by apply Hr.
  - apply calculateChecksum_eq.
  - intros Hh. destruct (Hv Hh) as (md & -> & ->). rewrite <-(proj2 (Hu02 _ _)).
    by rewrite (Hm md eq_refl).
Qed.

Lemma set_state_lookup p d st inv p' :
  set_state p d st inv !! p' =
  if decide (p = p')
  then (λ i, mkInventory (inv_SecretPath i) (<[d := st]> (inv_DeviceStates i))) <$> inv !! p'
  else inv !! p'.
Proof.
  unfold set_state. case_decide; [subst; by rewrite lookup_alter_eq|by rewrite lookup_alter_ne].
Qed.

(** Filling in the column of one device, for the paths of a list. *)
Lemma fill_spec (f : gmap string SecretInventory → string → ST W (gmap string SecretInventory))
    (g : string → ST W SecretState) (P : string → SecretState → Prop) d (l : list string)
    (inv : gmap string SecretInventory) w0 w :
  (∀ inv p w, f inv p w = let (st, w') := g p w in (set_state p d st inv, w')) →
  (∀ p w, unchanged w0 w → unchanged w0 (g p w).2 ∧ P p (g p w).1) →
  unchanged w0 w →
  unchanged w0 (st_fold f l inv w).2 ∧
  ∀ p, match inv !! p with
       | None => (st_fold f l inv w).1 !! p = None
       | Some i => ∃ states, (st_fold f l inv w).1 !! p = Some (mkInventory (inv_SecretPath i) states) ∧
           (states = inv_DeviceStates i ∧ p ∉ l ∨
            ∃ st, P p st ∧ states = <[d := st]> (inv_DeviceStates i))
       end.
Proof.
  intros Hf Hg. revert inv w. induction l as [|p l IH]; intros inv w Hu; cbn [st_fold].
  { split; [done|]. intros p. destruct (inv !! p) as [i|] eqn:E; [|done].
    exists (inv_DeviceStates i). simpl. rewrite E. split; [by destruct i|]. left. split; [done|set_solver]. }
  unfold st_bind. rewrite Hf. destruct (Hg p w Hu) as [Hu1 HP].
  destruct (g p w) as [st w1]. simpl in Hu1, HP.
  destruct (IH (set_state p d st inv) w1 Hu1) as [Hu2 Hl]. split; [done|].
  intros p'. specialize (Hl p'). rewrite set_state_lookup in Hl.
  destruct (decide (p = p')) as [<-|Hne].
  - destruct (inv !! p) as [i|]; simpl in Hl; [|done].
    destruct Hl as (states & -> & Hst). exists states. split; [done|]. right.
    destruct Hst as [[-> _]|(st' & HP' & ->)]; [by exists st|].
    exists st'. split; [done|]. by rewrite insert_insert_eq.
  - destruct (inv !! p') as [i|]; [|done].
    destruct Hl as (states & -> & Hst). exists states. split; [done|].
    destruct Hst as [[-> ?]|?]; [left|by right]. split; [done|]. set_solver.
Qed.

(** The inventory is keyed by the requested paths; every entry tells the truth
    about the world and has a state for each device of [devs]. *)
Definition inventory_ok (w0 : W) (paths devs : list string) (inv : gmap string SecretInventory) : Prop :=
  (∀ p, is_Some (inv !! p) ↔ p ∈ paths) ∧
  ∀ p i, inv !! p = Some i →
    inv_SecretPath i = p ∧ map_Forall (reports w0 p) (inv_DeviceStates i) ∧
    ∀ d, d ∈ devs → is_Some (inv_DeviceStates i !! d).

Lemma inventory_ok_fill w0 paths devs d (P : string → SecretState → Prop)
    (inv inv' : gmap string SecretInventory) (l : list string) :
  inventory_ok w0 paths devs inv →
  (∀ p, p ∈ paths → p ∈ l) →
  (∀ p st, P p st → reports w0 p d st) →
  (∀ p, match inv !! p with
        | None => inv' !! p = None
        | Some i => ∃ states, inv' !! p = Some (mkInventory (inv_SecretPath i) states) ∧
            (states = inv_DeviceStates i ∧ p ∉ l ∨
             ∃ st, P p st ∧ states = <[d := st]> (inv_DeviceStates i))
        end) →
  inventory_ok w0 paths (devs ++ [d]) inv'.
Proof.
  intros [Hdom Hok] Hl HP Hinv. split.
  - intros p. rewrite <-Hdom. specialize (Hinv p). destruct (inv !! p).
    + destruct Hinv as (states & -> & _). naive_solver.
    + by rewrite Hinv.
  - intros p i' Hi'. specialize (Hinv p). destruct (inv !! p) as [i|] eqn:E; [|congruence].
    destruct Hinv as (states & Hs & Hst). rewrite Hs in Hi'. injection Hi' as <-. simpl.
    destruct (Hok p i E) as (Hp & Hr & Hd). assert (p ∈ paths) as Hpin by (apply Hdom; by exists i).
    destruct Hst as [[_ Hn]|(st & HPst & ->)]; [by destruct Hn; apply Hl|].
    split_and!; [done| |].
    + apply map_Forall_insert_2; [by apply HP|done].
    + intros d' [Hd'| ->%list_elem_of_singleton]%elem_of_app.
      * destruct (decide (d = d')) as [->|]; [by rewrite lookup_insert_eq|].
        rewrite lookup_insert_ne by done. by apply Hd.
      * by rewrite lookup_insert_eq.
Qed.

Lemma mark_error_ok w0 paths devs d e inv w :
  unchanged w0 w → inventory_ok w0 paths devs inv →
  unchanged w0 (mark_error d e inv w).2 ∧
  inventory_ok w0 paths (devs ++ [d]) (mark_error d e inv w).1.
Proof.
  intros Hu Hok. unfold mark_error.
  destruct (fill_spec (λ inv p, (let* now := time_Now in st_ret (set_state p d (error_state now e) inv))%go)
    (λ _, (let* now := time_Now in st_ret (error_state now e))%go) (λ _ st, st_Error st = Some e)
    d (range inv).*1 inv w0 w) as [Hu' Hf].
  - intros inv' p w'. unfold st_bind, st_ret. by destruct (time_Now w').
  - intros p w' Hu'. unfold st_bind, st_ret. pose proof (time_Now_unchanged w') as Hn.
    destruct (time_Now w') as [now w1]. simpl in *. split; [by etrans|done].
  - done.
  - split; [done|]. eapply inventory_ok_fill; [done| | |exact Hf].
    + intros p Hp. apply elem_of_range_keys. by apply Hok.
    + intros p st Hst Hnone. congruence.
Qed.

Lemma inventory_device_ok w0 paths devs inv device w :
  unchanged w0 w → inventory_ok w0 paths devs inv →
  unchanged w0 (inventory_device paths inv device w).2 ∧
  inventory_ok w0 paths (devs ++ [dd_SerialNumber device]) (inventory_device paths inv device w).1.
Proof.
  intros Hu Hok. unfold inventory_device, st_bind.
  pose proof (CreateGRPCClient_unchanged device w) as Hu1.
  pose proof (CreateGRPCClient_Ok device w) as Hc.
  destruct (CreateGRPCClient am device w) as [[c|e] w1]; simpl in Hu1, Hc.
  2:{ apply mark_error_ok; [by etrans|done]. }
  specialize (Hc c eq_refl). pose proof (IsConnected_unchanged (c := c) w1) as Hu2.
  destruct (c_IsConnected c w1) as [[|] w2]; cbn [negb snd] in *.
  2:{ apply mark_error_ok; [by repeat (etrans; [eassumption|])|done]. }
  destruct (fill_spec (λ inv p, (let* state := check_secret c p in
      st_ret (set_state p (dd_SerialNumber device) state inv))%go)
    (check_secret c) (λ p st, reports w0 p (dd_SerialNumber device) st)
    (dd_SerialNumber device) paths inv w0 w2) as [Hu' Hf].
  - done.
  - intros p w' Hu'. by apply check_secret_spec.
  - by repeat (etrans; [eassumption|]).
  - split; [done|]. eapply inventory_ok_fill; [done| | |exact Hf]; done.
Qed.

Lemma buildSecretInventory_ok paths devices w :
  unchanged w (buildSecretInventory paths devices w).2 ∧
  inventory_ok w paths (map dd_SerialNumber devices) (buildSecretInventory paths devices w).1.
Proof.
  unfold buildSecretInventory.
  assert (∀ devs rest inv w1, unchanged w w1 → inventory_ok w paths devs inv →
    unchanged w (st_fold (inventory_device paths) rest inv w1).2 ∧
    inventory_ok w paths (devs ++ map dd_SerialNumber rest)
      (st_fold (inventory_device paths) rest inv w1).1) as Hgen.
  { intros devs rest. revert devs. induction rest as [|d rest IH]; intros devs inv w1 Hu Hok; cbn [st_fold map].
    { by rewrite app_nil_r. }
    unfold st_bind. destruct (inventory_device_ok w paths devs inv d w1 Hu Hok) as [Hu1 Hok1].
    destruct (inventory_device paths inv d w1) as [inv1 w2].
    destruct (IH _ _ _ Hu1 Hok1) as [Hu2 Hok2]. split; [done|]. by rewrite <-app_assoc in Hok2. }
  apply (Hgen []); [reflexivity|]. clear Hgen.
  assert (∀ l inv, (∀ p i, inv !! p = Some i → i = mkInventory p ∅) →
    (∀ p, is_Some (fold_left (λ (inv : gmap string SecretInventory) p, <[p := mkInventory p ∅]> inv) l inv !! p)
          ↔ p ∈ l ∨ is_Some (inv !! p)) ∧
    (∀ p i, fold_left (λ (inv : gmap string SecretInventory) p, <[p := mkInventory p ∅]> inv) l inv !! p = Some i →
       i = mkInventory p ∅)) as Hinit.
  { induction l as [|p l IH]; intros inv Hi; simpl; [split; [set_solver|done]|].
    destruct (IH (<[p := mkInventory p ∅]> inv)) as [H1 H2].
    - intros p' i [[-> <-]|[_ ?]]%lookup_insert_Some; [done|by apply Hi].
    - split; [|done]. intros p'. rewrite H1, lookup_insert_is_Some', elem_of_cons. naive_solver. }
  destruct (Hinit paths ∅) as [H1 H2]; [by intros ???|]. split.
  - intros p. rewrite H1, lookup_empty. split; [intros [?|[]%is_Some_None]; done|by left].
  - intros p i ->%H2. simpl. split_and!; [done|apply map_Forall_empty|by intros d ?%elem_of_nil].
Qed.

(** ** Lemmas: discovery *)

(** Creating a client and listing never fail for the device, and the list always has
    path [p]. *)
Definition lists (d : DiscoveredDevice) (p : string) : Prop :=
  ∀ w, ∃ c w1 l w2, CreateGRPCClient am d w = (Ok c, w1) ∧ c_ListSecrets c "" w1 = (Ok l, w2) ∧ p ∈ l.

Lemma discover_attempts_spec d n opened lastErr w0 w :
  unchanged w0 w → Forall (ClientLaws (dd_SerialNumber d)) opened →
  let r := discover_attempts d n opened lastErr w in
  unchanged w0 r.2 ∧ Forall (ClientLaws (dd_SerialNumber d)) r.1.2 ∧
  (∀ l, r.1.1 = Ok l → ∀ p, p ∈ l → is_Some (sec_at w0 (dd_SerialNumber d) p)) ∧
  (∀ p, lists d p → (0 < n)%nat → ∃ l, r.1.1 = Ok l ∧ p ∈ l).
Proof.
  revert opened lastErr w. induction n as [|n IH]; intros opened lastErr w Hu Ho; cbn [discover_attempts].
  { unfold st_ret. simpl. split_and!; [done|done|done|lia]. }
  unfold st_bind. pose proof (CreateGRPCClient_unchanged d w) as Hu1.
  pose proof (CreateGRPCClient_Ok d w) as Hc.
  destruct (CreateGRPCClient am d w) as [[c|e] w1] eqn:Ec; simpl in Hu1, Hc.
  2:{ destruct (IH opened (wrapf "failed to create gRPC client" e) w1) as (H1 & H2 & H3 & _);
        [by etrans|done|]. split_and!; [done..|]. intros p Hrel _.
      destruct (Hrel w) as (c & w1' & l & w2 & E & _). congruence. }
  specialize (Hc c eq_refl).
  pose proof (ListSecrets_unchanged (c := c) "" w1) as Hu2.
  pose proof (λ l, ListSecrets_Ok (c := c) w1 l) as Hl.
  destruct (c_ListSecrets c "" w1) as [[l|e] w2] eqn:El; simpl in Hu2, Hl.
  - unfold st_ret. simpl. split_and!; [by repeat (etrans; [eassumption|])|by constructor| |].
    + intros l' [= <-] p Hp. assert (unchanged w0 w1) as Hu01 by by etrans.
      rewrite <-(proj1 (Hu01 _ _)). by apply (Hl l).
    + intros p Hrel _. destruct (Hrel w) as (c' & w1' & l' & w2' & E & El' & Hin). exists l. split; [done|congruence].
  - destruct (IH (c :: opened) (wrapf "failed to list secrets" e) w2) as (H1 & H2 & H3 & _);
      [by repeat (etrans; [eassumption|])|by constructor|]. split_and!; [done..|].
    intros p Hrel _. destruct (Hrel w) as (c' & w1' & l & w2' & E & El' & _). congruence.
Qed.

Lemma run_deferred_unchanged s opened :
  Forall (ClientLaws s) opened → preserves unchanged (run_deferred opened).
Proof.
  intros Ho. apply preserves_fold; [apply _|]. intros [] c Hc. apply preserves_bind; [apply _| |].
  - intros w. rewrite Forall_forall in Ho. apply (@Close_unchanged _ _ s). by apply Ho.
  - intros _. apply preserves_ret, _.
Qed.

Lemma discoverDevice_spec d n w :
  let r := discoverDeviceSecretsWithRetry d n w in
  unchanged w r.2 ∧
  (∀ l, r.1 = Ok l → ∀ p, p ∈ l → is_Some (sec_at w (dd_SerialNumber d) p)) ∧
  (∀ p, lists d p → (0 < n)%nat → ∃ l, r.1 = Ok l ∧ p ∈ l).
Proof.
  unfold discoverDeviceSecretsWithRetry, st_bind.
  destruct (discover_attempts_spec d n [] (errorf "%!w(<nil>)") w w) as (H1 & H2 & H3 & H4);
    [reflexivity|constructor|].
  destruct (discover_attempts d n [] (errorf "%!w(<nil>)") w) as [[r opened] w1]. simpl in *.
  pose proof (run_deferred_unchanged _ opened H2 w1) as Hu.
  destruct (run_deferred opened w1) as [[] w2]. simpl in Hu.
  destruct r as [l|e]; unfold st_ret; simpl; (split_and!; [by etrans| |]); [exact H3|exact H4|done|].
  intros p Hp Hn. by destruct (H4 p Hp Hn) as (l & ? & _).
Qed.

Lemma add_paths_lookup secrets (paths : gmap string bool) p :
  is_Some (fold_left (λ (ps : gmap string bool) p, <[p := true]> ps) secrets paths !! p) ↔
  p ∈ secrets ∨ is_Some (paths !! p).
Proof.
  revert paths. induction secrets as [|q secrets IH]; intros paths; simpl; [set_solver|].
  rewrite IH, lookup_insert_is_Some', elem_of_cons. naive_solver.
Qed.

Lemma discover_fold_spec devices (paths : gmap string bool) w0 w :
  unchanged w0 w →
  let r := st_fold (λ (paths : gmap string bool) device,
     (let* r := discoverDeviceSecretsWithRetry device 3 in
     match r with
     | Err _ => st_ret paths
     | Ok secrets => st_ret (fold_left (λ ps p, <[p := true]> ps) secrets paths)
     end)%go) devices paths w in
  unchanged w0 r.2 ∧
  (∀ p, is_Some (r.1 !! p) →
     is_Some (paths !! p) ∨ ∃ d, d ∈ devices ∧ is_Some (sec_at w0 (dd_SerialNumber d) p)) ∧
  (∀ p, is_Some (paths !! p) → is_Some (r.1 !! p)) ∧
  (∀ d p, d ∈ devices → lists d p → is_Some (r.1 !! p)).
Proof.
  revert paths w. induction devices as [|d devices IH]; intros paths w Hu; cbn [st_fold].
  { unfold st_ret. simpl. split_and!; [done|by left|done|set_solver]. }
  unfold st_bind. destruct (discoverDevice_spec d 3 w) as (Hu1 & Hl & Hrel).
  destruct (discoverDeviceSecretsWithRetry d 3 w) as [[secrets|e] w1]; cbn [fst snd] in *; unfold st_ret.
  - destruct (IH (fold_left (λ (ps : gmap string bool) p, <[p:=true]> ps) secrets paths) w1)
      as (H1 & H2 & H3 & H4); [by etrans|].
    assert (∀ p, p ∈ secrets → is_Some (sec_at w0 (dd_SerialNumber d) p)) as Hs.
    { intros p Hp. rewrite <-(proj1 (Hu _ _)). by apply (Hl secrets). }
    split_and!; [done| | |].
    + intros p Hp. destruct (H2 p Hp) as [[Hin|Hin]%add_paths_lookup|(d' & ? & ?)]; [|by left|].
      * right. exists d. split; [by left|]. by apply Hs.
      * right. exists d'. split; [by right|done].
    + intros p Hp. apply H3, add_paths_lookup. by right.
    + intros d' p [->|Hd]%elem_of_cons Hr; [|by apply (H4 d')].
      destruct (Hrel p Hr ltac:(lia)) as (l & [= <-] & Hin). apply H3, add_paths_lookup. by left.
  - destruct (IH paths w1) as (H1 & H2 & H3 & H4); [by etrans|]. split_and!; [done| |done|].
    + intros p Hp. destruct (H2 p Hp) as [|(d' & ? & ?)]; [by left|]. right. exists d'.
      split; [by right|done].
    + intros d' p [->|Hd]%elem_of_cons Hr; [|by apply (H4 d')].
      by destruct (Hrel p Hr ltac:(lia)) as (l & ? & _).
Qed.

Lemma discoverAllSecrets_unchanged devices : preserves unchanged (discoverAllSecrets devices).
Proof.
  intros w. unfold discoverAllSecrets, st_bind.
  destruct (discover_fold_spec devices ∅ w w) as (H1 & _); [reflexivity|].
  by destruct (st_fold _ devices ∅ w).
Qed.

(** ** Lemmas: convergence *)

(** The states of the responding devices tell the truth, and a device that says it
    does not hold the secret does not (reads do not fail for another reason). *)
Definition truthful (w : W) (path : string) (inv : SecretInventory) : Prop :=
  ∀ d st, (d, st) ∈ responding inv →
    reports w path d st ∧ (st_Present st = false → sec_at w d path = None).

Lemma truthful_present w path inv d st :
  truthful w path inv → (d, st) ∈ responding inv → st_Present st = true →
  ∃ data, sec_at w d path = Some data ∧ st_Checksum st = content_digest data.
Proof.
  intros Ht Hd Hp. destruct (Ht d st Hd) as [Hr _]. apply elem_of_responding in Hd as [_ He].
  destruct (Hr He Hp) as (data & ? & ? & _). by exists data.
Qed.

(** All the responding devices hold one value: nothing diverges. *)
Lemma uniform_decision inv c :
  serials_ok inv → held inv →
  (∀ d st, (d, st) ∈ responding inv → st_Present st = true ∧ st_Checksum st = c) →
  d_WinningChecksum (decision_of inv) = c ∧ d_Outliers (decision_of inv) = [] ∧ need_secret inv = [].
Proof.
  intros Hs Hh Hall. destruct (decision_source inv Hs Hh) as (st & Hst & _ & Hc).
  destruct (Hall _ _ Hst) as [_ Hc']. split; [congruence|]. split.
  - destruct (d_Outliers (decision_of inv)) as [|o l] eqn:E; [done|].
    assert (o ∈ d_Outliers (decision_of inv)) as Ho by (rewrite E; by left).
    apply decision_outliers in Ho as (st' & Hst' & _ & Hne); [|done..].
    destruct (Hall _ _ Hst') as [_ ?]. congruence.
  - destruct (need_secret inv) as [|o l] eqn:E; [done|].
    assert (o ∈ need_secret inv) as Ho by (rewrite E; by left).
    apply elem_of_need_secret in Ho as (st' & Hst' & Hp).
    destruct (Hall _ _ Hst') as [? _]. congruence.
Qed.

(** The two plan types that copy the source's data. *)
Definition copies (ty : MirrorType) : Prop := ty = MirrorTypeCreate ∨ ty = MirrorTypeUpdate.

Lemma copies_ne ty : copies ty → ty ≠ MirrorTypeSkip ∧ ty ≠ MirrorTypeRestoreMetadata.
Proof. intros [-> | ->]; done. Qed.

(** After a successful copy every responding device of the plan holds the winning value. *)
Lemma replicated path inv p deviceLookup w r w' :
  lookup_ok deviceLookup → serials_ok inv → truthful w path inv →
  createMirrorPlanForSecret path inv = Some p →
  copies (pl_MirrorType p) → plan_storable p w →
  executeMirrorPlan p deviceLookup w = (r, w') → sr_Success r = true →
  ∀ d st, (d, st) ∈ responding inv →
    ∃ data, sec_at w' d path = Some data ∧
      content_digest data = d_WinningChecksum (decision_of inv).
Proof.
  intros Hl Hs Ht Hp Hty Hsto Hx Hok d st Hd.
  apply plan_some in Hp as (Hh & Hpath & Hsrc & Hnd & Htg & _ & _); [|done].
  destruct (decision_source inv Hs Hh) as (sst & Hsst & Hsp & Hsc). rewrite <-Hsrc in Hsst.
  destruct (truthful_present _ _ _ _ _ Ht Hsst Hsp) as (sd & Hsd & Hdig).
  apply executeMirrorPlan_spec in Hx as (_ & Hfr & Hx); [|done|done|by apply copies_ne|].
  2:{ intros Hin. by apply Htg in Hin as [[] _]. }
  destruct (Hx Hsto Hok) as (data & smd & md & Hdata & Hdata' & _ & _ & Hsync). rewrite Hpath in *.
  assert (data = sd) as -> by congruence.
  assert (content_digest sd = d_WinningChecksum (decision_of inv)) as Hwin by congruence.
  destruct (decide (d ∈ pl_TargetDevices p)) as [Hin|Hin].
  { exists sd. split; [|done]. destruct (Hsync d Hin) as [Hsy _]. rewrite Hpath in Hsy.
    rewrite bool_decide_false in Hsy by by apply copies_ne. done. }
  destruct (decide (d = pl_SourceDevice p)) as [->|Hne]; [by exists sd|].
  assert (¬ needs_sync inv d) as Hns by (intros ?; apply Hin, Htg; done).
  assert (st_Present st = true) as Hp by (destruct (st_Present st) eqn:E; [done|]; destruct Hns; exists st; auto).
  assert (st_Checksum st = d_WinningChecksum (decision_of inv)) as Hc.
  { destruct (decide (st_Checksum st = d_WinningChecksum (decision_of inv))); [done|].
    destruct Hns. exists st. auto. }
  destruct (truthful_present _ _ _ _ _ Ht Hd Hp) as (dd & Hdd & Hddc). exists dd.
  split; [|congruence]. destruct (Hfr (proj2 (copies_ne _ Hty)) d path) as [-> _]; [by left|done].
Qed.

(** ** Lemmas: the sweep *)

(** At path [p] no data appears that no device held, and no device loses its secret. *)
Definition keeps (p : string) (w w' : W) : Prop :=
  (∀ s d, sec_at w' s p = Some d → ∃ s0, sec_at w s0 p = Some d) ∧
  (∀ s, is_Some (sec_at w s p) → is_Some (sec_at w' s p)).

#[global] Instance keeps_PreOrder p : PreOrder (keeps p).
Proof.
  split; [intros w; split; [by intros s d ?; exists s|done]|].
  intros w1 w2 w3 [H1 H2] [H3 H4]. split; [|naive_solver].
  intros s d Hd. destruct (H3 s d Hd) as [s1 Hs1]. by apply (H1 s1).
Qed.

Lemma unchanged_keeps p w w' : unchanged w w' → keeps p w w'.
Proof.
  intros Hu. split.
  - intros s d. rewrite (proj1 (Hu _ _)). by exists s.
  - intros s. by rewrite (proj1 (Hu _ _)).
Qed.

Definition plan_wf (plan : SecretMirrorPlan) : Prop :=
  NoDup (pl_TargetDevices plan) ∧ pl_SourceDevice plan ∉ pl_TargetDevices plan.

Lemma plan_some_wf path inv p :
  createMirrorPlanForSecret path inv = Some p → plan_wf p ∧ pl_SecretPath p = path.
Proof.
  rewrite plan_eq. unfold plan_wf. cbv zeta.
  destruct (removeDuplicates_spec (need_secret inv ++ need_metadata inv ++ d_Outliers (decision_of inv)))
    as [Hnd _].
  repeat case_match; intros [= <-]; simpl; (split; [split|done]);
    first [constructor|by intros ?%elem_of_nil|by apply removeDevice_NoDup|by intros [[] _]%removeDevice_spec].
Qed.

Lemma executeMirrorPlan_keeps plan deviceLookup w r w' :
  lookup_ok deviceLookup → plan_wf plan →
  executeMirrorPlan plan deviceLookup w = (r, w') →
  (∀ p, ¬ overlaps (pl_SecretPath plan) p → ∀ s, sec_at w' s p = sec_at w s p) ∧
  (plan_storable plan w → sr_Success r = true → keeps (pl_SecretPath plan) w w').
Proof.
  intros Hl [Hnd Hsrc] Hx. destruct (decide (pl_MirrorType plan = MirrorTypeSkip)) as [E|E].
  { unfold executeMirrorPlan in Hx. rewrite bool_decide_true in Hx by done.
    injection Hx as <- <-. split; reflexivity. }
  apply executeMirrorPlan_spec in Hx as (Hon & _ & Hx); [|done..]. split.
  { intros p Hp s. apply Hon. by right. }
  intros Hsto Hok. destruct (Hx Hsto Hok) as (data & smd & md & Hd & Hd' & _ & _ & Hs).
  assert (∀ s, sec_at w' s (pl_SecretPath plan) = sec_at w s (pl_SecretPath plan) ∨
               sec_at w' s (pl_SecretPath plan) = Some data) as Hcase.
  { intros s. destruct (decide (s = pl_SourceDevice plan)) as [->|]; [by right|].
    destruct (decide (s ∈ pl_TargetDevices plan)) as [Ht|].
    - destruct (Hs s Ht) as [H1 _]. revert H1. case_bool_decide; [by left|by right].
    - left. apply Hon. left. set_solver. }
  split; intros s.
  - intros d Hsd. destruct (Hcase s) as [H1|H1]; rewrite H1 in Hsd; [by exists s|].
    exists (pl_SourceDevice plan). congruence.
  - intros [d Hsd]. destruct (Hcase s) as [-> | ->]; [by exists d|done].
Qed.

Lemma execute_one_result deviceLookup res plan w res' w' :
  execute_one deviceLookup res plan w = (res', w') →
  ∃ sr, executeMirrorPlan plan deviceLookup w = (sr, w') ∧
    mr_SecretResults res' = <[pl_SecretPath plan := sr]> (mr_SecretResults res) ∧
    mr_Success res' = mr_Success res && sr_Success sr.
Proof.
  unfold execute_one, st_bind. destruct (executeMirrorPlan plan deviceLookup w) as [sr w1].
  unfold st_ret. intros [= <- <-]. by exists sr.
Qed.

(** A run of plans leaves the results of other paths as they are. *)
Lemma execute_plans_results deviceLookup plans res w q :
  q ∉ map pl_SecretPath plans →
  mr_SecretResults (st_fold (execute_one deviceLookup) plans res w).1 !! q = mr_SecretResults res !! q.
Proof.
  revert res w. induction plans as [|plan plans IH]; intros res w; cbn [st_fold map]; [done|].
  intros [Hne Hn]%not_elem_of_cons. unfold st_bind.
  destruct (execute_one deviceLookup res plan w) as [res1 w1] eqn:E1.
  apply execute_one_result in E1 as (sr & _ & Hres & _). by rewrite (IH res1 w1 Hn), Hres, lookup_insert_ne.
Qed.

(** Every plan of a run has a result. *)
Lemma execute_plans_recorded deviceLookup plans res w q :
  NoDup (map pl_SecretPath plans) → q ∈ map pl_SecretPath plans →
  is_Some (mr_SecretResults (st_fold (execute_one deviceLookup) plans res w).1 !! q).
Proof.
  revert res w. induction plans as [|plan plans IH]; intros res w; cbn [st_fold map]; [by intros _ ?%elem_of_nil|].
  intros [Hnp Hnd]%NoDup_cons Hin. unfold st_bind.
  destruct (execute_one deviceLookup res plan w) as [res1 w1] eqn:E1.
  apply execute_one_result in E1 as (sr & _ & Hres & _).
  apply elem_of_cons in Hin as [->|Hin]; [|by apply IH].
  rewrite execute_plans_results, Hres, lookup_insert_eq by done. by exists sr.
Qed.

(** What the devices hold at [p] can be written back. *)
Definition held_storable (w : W) (p : string) : Prop := ∀ s d, sec_at w s p = Some d → storable p d.

Lemma execute_plans_keeps deviceLookup plans res w res' w' p :
  lookup_ok deviceLookup → Forall plan_wf plans → NoDup (map pl_SecretPath plans) →
  held_storable w p → (∀ q, q ∈ map pl_SecretPath plans → q ≠ p → ¬ overlaps q p) →
  st_fold (execute_one deviceLookup) plans res w = (res', w') →
  (∀ q, q ∉ map pl_SecretPath plans → mr_SecretResults res' !! q = mr_SecretResults res !! q) ∧
  (p ∉ map pl_SecretPath plans → ∀ s, sec_at w' s p = sec_at w s p) ∧
  ((∀ sr, mr_SecretResults res' !! p = Some sr → sr_Success sr = true) → keeps p w w').
Proof.
  intros Hl. revert res w. induction plans as [|plan plans IH]; intros res w Hwf Hnd Hsto Hap; cbn [st_fold map].
  { unfold st_ret. intros [= <- <-]. split_and!; [done|done|reflexivity]. }
  apply Forall_cons in Hwf as [Hp Hwf]. apply NoDup_cons in Hnd as [Hnp Hnd].
  unfold st_bind. destruct (execute_one deviceLookup res plan w) as [res1 w1] eqn:E1.
  apply execute_one_result in E1 as (sr & Hx & Hres & _).
  apply executeMirrorPlan_keeps in Hx as [Hother Hk]; [|done..].
  assert (pl_SecretPath plan = p ∨ ∀ s, sec_at w1 s p = sec_at w s p) as Hcase.
  { destruct (decide (pl_SecretPath plan = p)) as [|Hne]; [by left|right]. apply Hother, Hap; [by left|done]. }
  assert (keeps p w w1 → held_storable w1 p) as Hsto1.
  { intros [Hk1 _] s d Hd. destruct (Hk1 s d Hd) as [s0 Hs0]. by apply (Hsto s0). }
  assert ((sr_Success sr = true ∨ pl_SecretPath plan ≠ p) → keeps p w w1) as Hone.
  { intros Hor. destruct Hcase as [<-|Hsame]; [|split; intros s; rewrite Hsame; by eauto].
    destruct Hor as [Hor|]; [|done]. apply Hk; [|done]. intros s d _. apply Hsto. }
  intros Hrest. destruct (decide (sr_Success sr = true ∨ pl_SecretPath plan ≠ p)) as [Hor|Hbad].
  - specialize (Hone Hor).
    assert (∀ q, q ∈ map pl_SecretPath plans → q ≠ p → ¬ overlaps q p) as Hap1 by (intros q ?; apply Hap; by right).
    destruct (IH _ _ Hwf Hnd (Hsto1 Hone) Hap1 Hrest) as (Hout & Hsame & Hkeep).
    split_and!.
    + intros q [Hne Hn]%not_elem_of_cons. by rewrite (Hout q Hn), Hres, lookup_insert_ne.
    + intros [Hne Hn]%not_elem_of_cons s. rewrite Hsame by done. destruct Hcase as [|Hs]; [by destruct Hne|apply Hs].
    + intros Hgood. etrans; [done|by apply Hkeep].
  - assert (pl_SecretPath plan = p) as <- by (apply dec_stable; tauto).
    pose proof (λ q, execute_plans_results deviceLookup plans res1 w1 q) as Hout. rewrite Hrest in Hout.
    cbn [fst] in Hout. split_and!.
    + intros q [Hne Hn]%not_elem_of_cons. by rewrite (Hout q Hn), Hres, lookup_insert_ne.
    + intros []. by left.
    + intros Hgood. destruct Hbad. left. apply Hgood. by rewrite (Hout _ Hnp), Hres, lookup_insert_eq.
Qed.

Lemma device_lookup_ok devices : lookup_ok (device_lookup devices).
Proof.
  unfold device_lookup. assert (∀ m, lookup_ok m →
    lookup_ok (fold_left (λ (m : gmap string DiscoveredDevice) d, <[dd_SerialNumber d := d]> m) devices m)) as Hg.
  { induction devices as [|d devices IH]; intros m Hm; simpl; [done|]. apply IH.
    intros t d' [[<- <-]|[_ ?]]%lookup_insert_Some; [done|by apply Hm]. }
  apply Hg. by intros t d ?%lookup_empty_Some.
Qed.

Lemma createMirrorPlans_wf inventory :
  Forall plan_wf (createMirrorPlans inventory) ∧ NoDup (map pl_SecretPath (createMirrorPlans inventory)).
Proof.
  unfold createMirrorPlans. pose proof (range_keys_NoDup inventory) as Hnd.
  induction (range inventory) as [|[path inv] l IH]; cbn [fmap list_fmap omap list_omap fst snd] in *.
  { split; constructor. }
  apply NoDup_cons in Hnd as [Hn Hnd]. destruct (IH Hnd) as [H1 H2].
  destruct (createMirrorPlanForSecret path inv) as [p|] eqn:E; [|done].
  apply plan_some_wf in E as [Hwf Hpath]. split; [by constructor|]. cbn [map]. constructor; [|done].
  rewrite Hpath. intros (q & Hq & (pi & Hpi & Hin)%list_elem_of_omap)%list_elem_of_fmap. apply Hn.
  destruct pi as [path' inv']. apply plan_some_wf in Hin as [_ Hpath'].
  apply list_elem_of_fmap. exists (path', inv'). split; [|done]. simpl in *. congruence.
Qed.

(** The version a target is stamped with. *)
Lemma stamped_version smd now source :
  MetadataVersion (Some (syncMetadata (newVersion smd) now source)) = newVersion smd.
Proof.
  apply MetadataVersion_stamped; [|unfold LabelSyncVersion; by rewrite lookup_insert_eq].
  pose proof (MetadataVersion_range smd). unfold newVersion. case_match; [done|done].
Qed.

(** ** Properties *)

(** The plan for a secret: there is none exactly when no responding device
    holds it; otherwise the source is a responding device holding the winning
    value, the targets (without repetition, source excluded) are exactly the
    responding devices that lack the secret, lack metadata or hold another value,
    and the plan is a skip exactly when there are none. *)
Theorem createMirrorPlanForSecret_spec (path : string) (inv : SecretInventory) :
  serials_ok inv →
  match createMirrorPlanForSecret path inv with
  | None => ¬ held inv
  | Some p =>
      pl_SecretPath p = path ∧
      (∃ st, (pl_SourceDevice p, st) ∈ responding inv ∧ st_Present st = true ∧
             st_Checksum st = d_WinningChecksum (decision_of inv)) ∧
      NoDup (pl_TargetDevices p) ∧
      (∀ t, t ∈ pl_TargetDevices p ↔ t ≠ pl_SourceDevice p ∧ needs_sync inv t) ∧
      (pl_MirrorType p = MirrorTypeSkip ↔ pl_TargetDevices p = [])
  end.
Proof.
  intros Hs. destruct (createMirrorPlanForSecret path inv) as [p|] eqn:E; [|by apply (plan_none path)].
  apply plan_some in E as (Hh & Hpath & -> & Hnd & Ht & Hsk & _); [|done].
  split_and!; [done|by apply decision_source|done..].
Qed.


(** Whatever happens, and whichever write fails, a plan changes nothing but the paths
    its own path overlaps, and only on its targets; a metadata restoration may also rewrite
    the source, with the data it already had. *)
Theorem executeMirrorPlan_frame (plan : SecretMirrorPlan)
    (deviceLookup : gmap string DiscoveredDevice) (w : W) :
  lookup_ok deviceLookup → NoDup (pl_TargetDevices plan) →
  pl_SourceDevice plan ∉ pl_TargetDevices plan →
  let w' := (executeMirrorPlan plan deviceLookup w).2 in
  only_on (pl_SourceDevice plan :: pl_TargetDevices plan) (pl_SecretPath plan) w w' ∧
  (pl_MirrorType plan ≠ MirrorTypeRestoreMetadata → only_on (pl_TargetDevices plan) (pl_SecretPath plan) w w').
Proof.
  intros Hl Hnd Hsrc w'. unfold w'.
  destruct (executeMirrorPlan plan deviceLookup w) as [r w1] eqn:Hx.
  destruct (decide (pl_MirrorType plan = MirrorTypeSkip)) as [E|E].
  { unfold executeMirrorPlan in Hx. rewrite bool_decide_true in Hx by done.
    injection Hx as <- <-. split; reflexivity. }
  apply executeMirrorPlan_spec in Hx as (H1 & H2 & _); done.
Qed.

(** C2. A sweep converges, for data that can be written back: after a create or update plan reported success, a new
    inventory of the same devices shows every responding device holding one and
    the same value, the one that had won; the resolver finds no divergence, and
    the next plan copies no data (it is a skip or restores metadata). *)
Theorem mirror_converges (path : string) (inv inv' : SecretInventory) (p : SecretMirrorPlan)
    (deviceLookup : gmap string DiscoveredDevice) (w w' : W) (r : SecretMirrorResult) :
  lookup_ok deviceLookup → serials_ok inv → serials_ok inv' →
  truthful w path inv → truthful w' path inv' →
  (∀ d st, (d, st) ∈ responding inv' → ∃ st0, (d, st0) ∈ responding inv) → responding inv' ≠ [] →
  createMirrorPlanForSecret path inv = Some p →
  copies (pl_MirrorType p) → plan_storable p w →
  executeMirrorPlan p deviceLookup w = (r, w') → sr_Success r = true →
  d_WinningChecksum (decision_of inv') = d_WinningChecksum (decision_of inv) ∧
  d_Diverged (decision_of inv') = false ∧
  (∀ d st, (d, st) ∈ responding inv' →
     st_Present st = true ∧ st_Checksum st = d_WinningChecksum (decision_of inv)) ∧
  ∀ p', createMirrorPlanForSecret path inv' = Some p' →
    pl_MirrorType p' = MirrorTypeSkip ∨ pl_MirrorType p' = MirrorTypeRestoreMetadata.
Proof.
  intros Hl Hs Hs' Ht Ht' Hsub Hne Hp Hty Hsto Hx Hok.
  assert (∀ d st, (d, st) ∈ responding inv' →
     st_Present st = true ∧ st_Checksum st = d_WinningChecksum (decision_of inv)) as Hall.
  { intros d st Hd. destruct (Hsub d st Hd) as [st0 Hd0].
    destruct (replicated path inv p deviceLookup w r w' Hl Hs Ht Hp Hty Hsto Hx Hok d st0 Hd0)
      as (data & Hdata & Hc).
    destruct (st_Present st) eqn:E.
    - destruct (truthful_present _ _ _ _ _ Ht' Hd E) as (data' & ? & ?). split; congruence.
    - destruct (Ht' d st Hd) as [_ Habs]. rewrite (Habs E) in Hdata. done. }
  assert (held inv') as Hh.
  { destruct (responding inv') as [|[d st] l] eqn:E; [done|]. exists d, st. rewrite E.
    split; [by left|]. apply (Hall d st). by left. }
  destruct (uniform_decision inv' _ Hs' Hh Hall) as (Hc & Ho & Hn).
  split_and!; [done|by rewrite decision_diverged, Ho|done|].
  intros p' (_ & _ & _ & _ & _ & Hsk & Hmt)%plan_some; [|done].
  destruct (decide (pl_TargetDevices p' = [])) as [E|E]; [left; by apply Hsk|right].
  rewrite (Hmt E), Ho, Hn. unfold mirror_type.
  destruct (need_metadata inv') eqn:Em; [|done]. exfalso. apply E, Hsk. by rewrite (Hmt E), Ho, Hn, ?Em.
Qed.

(** A metadata restoration never copies data: when it reports success each of
    its targets, an outlier included, still holds its own data, now stamped with
    the version of the source. *)
Theorem restore_metadata_keeps_data (plan : SecretMirrorPlan)
    (deviceLookup : gmap string DiscoveredDevice) (w w' : W) (r : SecretMirrorResult) (t : string) :
  lookup_ok deviceLookup → NoDup (pl_TargetDevices plan) →
  pl_SourceDevice plan ∉ pl_TargetDevices plan →
  pl_MirrorType plan = MirrorTypeRestoreMetadata → plan_storable plan w →
  (∀ version now, keepable (syncMetadata version now (pl_SourceDevice plan))) →
  executeMirrorPlan plan deviceLookup w = (r, w') → sr_Success r = true →
  t ∈ pl_TargetDevices plan →
  sec_at w' t (pl_SecretPath plan) = sec_at w t (pl_SecretPath plan) ∧
  ∃ smd, MetadataVersion (md_at w' t (pl_SecretPath plan)) =
           (if MetadataVersion smd <=? 0 then 1 else MetadataVersion smd) ∧
         metadata_read w (pl_SourceDevice plan) (pl_SecretPath plan) smd.
Proof.
  intros Hl Hnd Hsrc Hty Hsto Hkeep Hx Hok Ht.
  apply executeMirrorPlan_spec in Hx as (_ & _ & Hx); [|done|done|by rewrite Hty|done].
  destruct (Hx Hsto Hok) as (data & smd & md & Hd & Hd' & Hsmd & [now ->] & Hs).
  destruct (Hs t Ht) as [Hsec Hmd]. rewrite bool_decide_true in Hsec by done.
  split; [done|]. exists smd. split; [|done]. rewrite Hmd by apply Hkeep. apply stamped_version.
Qed.

(** The inventory is faithful: building it changes no device; it has an entry
    for exactly the requested paths and, in each, a state for every device; and a
    state without error that says the secret is present carries the digest of the
    data the device really holds and the version of its metadata. *)
Theorem buildSecretInventory_faithful (paths : list string) (devices : list DiscoveredDevice) (w : W) :
  let '(inv, w') := buildSecretInventory paths devices w in
  unchanged w w' ∧ (∀ p, is_Some (inv !! p) ↔ p ∈ paths) ∧
  ∀ p i, inv !! p = Some i →
    (∀ d, d ∈ devices → is_Some (inv_DeviceStates i !! dd_SerialNumber d)) ∧
    ∀ d st, inv_DeviceStates i !! d = Some st → reports w p d st.
Proof.
  destruct (buildSecretInventory_ok paths devices w) as [Hu [Hdom Hok]].
  destruct (buildSecretInventory paths devices w) as [inv w']. split_and!; [done|done|].
  intros p i Hi. destruct (Hok p i Hi) as (_ & Hr & Hd). split; [|done].
  intros d Hin. apply Hd. apply list_elem_of_fmap. by exists d.
Qed.

(** Discovery: three attempts per device, then give up on that device only.
    No device changes; the paths come back sorted and without repetition; every
    path is held by some device, and every path that a device lists at every attempt
    is there. *)
Theorem discoverAllSecrets_spec (devices : list DiscoveredDevice) (w : W) :
  let '(paths, w') := discoverAllSecrets devices w in
  unchanged w w' ∧ Sorted String.le paths ∧ NoDup paths ∧
  (∀ p, p ∈ paths → ∃ d, d ∈ devices ∧ is_Some (sec_at w (dd_SerialNumber d) p)) ∧
  (∀ d p, d ∈ devices → lists d p → p ∈ paths).
Proof.
  unfold discoverAllSecrets, st_bind.
  destruct (discover_fold_spec devices ∅ w w) as (H1 & H2 & _ & H4); [reflexivity|].
  destruct (st_fold _ devices ∅ w) as [found w']. unfold st_ret. cbn [fst snd] in *.
  split_and!; [done|apply sort_Strings_sorted| | |].
  - rewrite sort_Strings_perm. apply range_keys_NoDup.
  - intros p Hp%elem_of_sort_Strings%elem_of_range_keys.
    destruct (H2 p Hp) as [[]%lookup_empty_is_Some|?]. done.
  - intros d p Hd Hr. apply elem_of_sort_Strings, elem_of_range_keys. by apply (H4 d).
Qed.

End Mirror.

(** ** An agent manager for the fleet of mock devices, and the witnesses *)

(** Closing the manager's handle of a device leaves the device connected (the
    agent manager pools its connections). *)
Definition keep_open {W} (c : Client W) : Client W :=
  mkClient (c_Initialize c) (st_ret (Ok ())) (c_GetInfo c) (c_ReadSecret c) (c_WriteSecret c)
    (c_ReadMetadata c) (c_DeleteSecret c) (c_DeleteSecretKey c) (c_ListSecrets c) (c_GetChecksum c)
    (c_IsConnected c) (c_ChangePIN c).

#[global] Instance keep_open_laws {W} `{!StoreView W} s (c : Client W) :
  ClientLaws s c → ClientLaws s (keep_open c).
Proof. intros []. split; auto. intros w. simpl. reflexivity. Qed.

Definition fleet_manager `{MapOrder} (devices : list DiscoveredDevice) : AgentManagerInterface Fleet :=
  mkAgentManager Fleet
    (λ d w, (match w !! dd_SerialNumber d with
             | Some _ => Ok (keep_open (mock_of (dd_SerialNumber d)))
             | None => Err (errorf "no agent pod found")
             end, w))
    (λ _ w, (Ok devices, w)).

Definition fleet_clock : ST Fleet Time := λ w, (mkTime 1767225600 0, w).

#[global] Instance fleet_manager_laws `{MapOrder} devices : AgentLaws (fleet_manager devices) fleet_clock.
Proof.
  split.
  - intros d w. simpl. reflexivity.
  - intros d w c. simpl. destruct (w !! dd_SerialNumber d); [|done]. intros [= <-]. apply keep_open_laws, mock_laws.
  - intros ns w. simpl. reflexivity.
  - intros w. simpl. reflexivity.
Qed.

Module MirrorWitness.
#[local] Existing Instance listed_order.
Definition dev (s : string) : DiscoveredDevice :=
  mkDiscoveredDevice "" s "node" (mkTime 0 0) ∅ true "" "" "" None "".
Definition data : SecretData := {["key" := "value"]}.
Definition md5 : SecretMetadata := labelled {["sync.version" := "5"]}.
(** Device A holds the secret with version 5, device B is empty. *)
Definition w0 : Fleet :=
  <["A" := Mock.AddSecret "app" data (mkMock true false ∅ {["app" := md5]} (mkConfig "" 0 false "" 0 0 0 None))]>
  (<["B" := mkMock true false ∅ ∅ (mkConfig "" 0 false "" 0 0 0 None)]> ∅).
Definition devices : list DiscoveredDevice := [dev "A"; dev "B"].
Definition am : AgentManagerInterface Fleet := fleet_manager devices.
Definition lookup : gmap string DiscoveredDevice := device_lookup devices.
Definition inv : SecretInventory := mkInventory "app"
  (<["A" := mkState true 5 0 (content_digest data) true None]>
  (<["B" := mkState false 0 0 "" false None]> ∅)).
Definition inv2 : SecretInventory := mkInventory "app"
  (<["A" := mkState true 5 0 (content_digest data) true None]>
  (<["B" := mkState true 5 1767225600 (content_digest data) true None]> ∅)).
Definition plan : SecretMirrorPlan := mkPlan "app" "A" 5 ["B"] MirrorTypeCreate.

Lemma inv_serials : serials_ok inv.
Proof. intros d st. unfold inv. simpl. intros [[<- _]|[_ [[<- _]|[_ []%lookup_empty_Some]]%lookup_insert_Some]]%lookup_insert_Some; done. Qed.
Lemma inv2_serials : serials_ok inv2.
Proof. intros d st. unfold inv2. simpl. intros [[<- _]|[_ [[<- _]|[_ []%lookup_empty_Some]]%lookup_insert_Some]]%lookup_insert_Some; done. Qed.

Example createMirrorPlanForSecret_spec_witness :
  createMirrorPlanForSecret "app" inv = Some plan ∧
  ∃ st, ("A", st) ∈ responding inv ∧ st_Present st = true ∧
        st_Checksum st = d_WinningChecksum (decision_of inv).
Proof.
  assert (createMirrorPlanForSecret "app" inv = Some plan) as E by (vm_compute; reflexivity).
  split; [exact E|]. pose proof (createMirrorPlanForSecret_spec "app" inv inv_serials) as H.
  rewrite E in H. exact (proj1 (proj2 H)).
Defined.

Lemma plan_ok : NoDup (pl_TargetDevices plan) ∧ pl_SourceDevice plan ∉ pl_TargetDevices plan.
Proof. split; decide_goal. Qed.

Definition run : SecretMirrorResult * Fleet := executeMirrorPlan am fleet_clock plan lookup w0.
Lemma run_success : sr_Success run.1 = true.
Proof. vm_compute. reflexivity. Qed.


Example executeMirrorPlan_frame_witness : only_on ["B"] "app" w0 run.2.
Proof.
  refine (proj2 (executeMirrorPlan_frame am fleet_clock plan lookup w0 _ _ _) _).
  - apply device_lookup_ok.
  - apply plan_ok.
  - apply plan_ok.
  - discriminate.
Defined.

Lemma truthful_w0 : truthful w0 "app" inv.
Proof.
  intros d st [H He]%elem_of_responding. revert H. unfold inv. simpl.
  intros [[<- <-]|[_ [[<- <-]|[_ []%lookup_empty_Some]]%lookup_insert_Some]]%lookup_insert_Some;
    (split; [intros _; try done|done]).
  intros _. exists data. split_and!; [vm_compute; reflexivity|done|intros _; vm_compute; reflexivity].
Qed.

Lemma truthful_w1 : truthful run.2 "app" inv2.
Proof.
  intros d st [H He]%elem_of_responding. revert H. unfold inv2. simpl.
  intros [[<- <-]|[_ [[<- <-]|[_ []%lookup_empty_Some]]%lookup_insert_Some]]%lookup_insert_Some;
    (split; [intros _ _|done]);
    exists data; (split_and!; [vm_compute; reflexivity|done|intros _; vm_compute; reflexivity]).
Qed.

Lemma inv_domains d st : (d, st) ∈ responding inv2 → ∃ st0, (d, st0) ∈ responding inv.
Proof.
  intros [H He]%elem_of_responding. revert H. unfold inv2. simpl.
  intros [[<- <-]|[_ [[<- <-]|[_ []%lookup_empty_Some]]%lookup_insert_Some]]%lookup_insert_Some;
    eexists; apply elem_of_responding; (split; [vm_compute; reflexivity|done]).
Qed.

Example mirror_converges_witness : d_Diverged (decision_of inv2) = false.
Proof.
  refine (proj1 (proj2 (mirror_converges am fleet_clock "app" inv inv2 plan lookup w0 run.2 run.1
    _ inv_serials inv2_serials truthful_w0 truthful_w1 inv_domains _ _ _ _ _ run_success))).
  - apply device_lookup_ok.
  - vm_compute. discriminate.
  - vm_compute. reflexivity.
  - left. reflexivity.
  - intros s d _ _. exact I.
  - apply surjective_pairing.
Defined.

(** B holds another value and has no metadata: it keeps it. *)
Definition stale : SecretData := {["key" := "stale"]}.
Definition w1 : Fleet :=
  <["B" := Mock.AddSecret "app" stale (mkMock true false ∅ ∅ (mkConfig "" 0 false "" 0 0 0 None))]> w0.
Definition rplan : SecretMirrorPlan := mkPlan "app" "A" 5 ["B"] MirrorTypeRestoreMetadata.
Definition rrun : SecretMirrorResult * Fleet := executeMirrorPlan am fleet_clock rplan lookup w1.
Definition rinv : SecretInventory := mkInventory "app"
  (<["A" := mkState true 5 0 (content_digest data) true None]>
  (<["B" := mkState true 0 0 (content_digest stale) false None]> ∅)).

(** The plan for that state is the restoration, although B is an outlier. *)
Example restore_plan_for_outlier :
  createMirrorPlanForSecret "app" rinv = Some rplan ∧ d_Outliers (decision_of rinv) = ["B"].
Proof. split; vm_compute; reflexivity. Qed.

Example restore_metadata_keeps_data_witness : sec_at rrun.2 "B" "app" = sec_at w1 "B" "app".
Proof.
  refine (proj1 (restore_metadata_keeps_data am fleet_clock rplan lookup w1 rrun.2 rrun.1 "B" _ _ _ _ _ (λ _ _, I) _ _ _)).
  - apply device_lookup_ok.
  - apply plan_ok.
  - apply plan_ok.
  - reflexivity.
  - intros s d _ _. exact I.
  - apply surjective_pairing.
  - vm_compute. reflexivity.
  - decide_goal.
Defined.

Example buildSecretInventory_faithful_witness :
  unchanged w0 (buildSecretInventory am fleet_clock ["app"] devices w0).2.
Proof.
  pose proof (buildSecretInventory_faithful am fleet_clock ["app"] devices w0) as H.
  destruct (buildSecretInventory am fleet_clock ["app"] devices w0) as [i w]. exact (proj1 H).
Defined.

Example discoverAllSecrets_spec_witness : NoDup (discoverAllSecrets am devices w0).1.
Proof.
  pose proof (discoverAllSecrets_spec am fleet_clock devices w0) as H.
  destruct (discoverAllSecrets am devices w0) as [l w]. exact (proj1 (proj2 (proj2 H))).
Defined.

Definition sweep : result MirrorResult * Fleet := MirrorAllSecrets am fleet_clock "ns" w0.
Definition sweep_result : MirrorResult := match sweep.1 with Ok r => r | Err _ => empty_result end.

End MirrorWitness.
