(* ===== verification/Parallel.v ===== *)
(** * Goroutines that are joined: fan-out over the devices

    A goroutine is a [Proc]: its result, or one atomic action of the world and how
    it goes on.  [fan_out] runs a group of named goroutines under a scheduler that
    picks, at every moment, which pending one moves next, and returns the results
    in the order in which they arrive (the order of the sends on the results
    channel).  [fan_out_spec] is the proof rule for goroutines that do not
    interfere with each other. *)

From S2P Require Import Prelude.

#[warnings="-register-all"]
Inductive Proc (W A : Type) : Type :=
  | Done (a : A)
  | Step (act : W → Proc W A * W).
Arguments Done {W A} a.
Arguments Step {W A} act.

(** A goroutine that does [m] and then goes on as [k] of its result. *)
Definition go_then {W A B} (m : ST W B) (k : B → Proc W A) : Proc W A :=
  Step (λ w, let (b, w') := m w in (k b, w')).

(** At most [n] actions are left. *)
Inductive steps_le {W A} : nat → Proc W A → Prop :=
  | steps_done n a : steps_le n (Done a)
  | steps_step n act : (∀ w, steps_le n (act w).1) → steps_le (S n) (Step act).

(** The scheduler: which of the pending goroutines moves at moment [t]. *)
Class Scheduler := pick : nat → nat.

Section FanOut.
Context {W A : Type} `{Scheduler}.

(** [fuel] bounds the number of moments; a goroutine takes one moment per action and
    one to deliver its result. *)
Fixpoint run_procs (fuel t : nat) (pending : list (string * Proc W A)) (finished : list (string * A)) :
    ST W (list (string * A)) :=
  match fuel with
  | O => st_ret finished
  | S fuel' =>
      let i := (pick t mod length pending)%nat in
      match pending !! i with
      | None => st_ret finished
      | Some (k, Done a) => run_procs fuel' (S t) (delete i pending) (finished ++ [(k, a)])
      | Some (k, Step act) => st_bind act (λ p, run_procs fuel' (S t) (<[i := (k, p)]> pending) finished)
      end
  end.

(** Run goroutines of at most [n] actions each until all have delivered. *)
Definition fan_out (n : nat) (procs : list (string * Proc W A)) : ST W (list (string * A)) :=
  run_procs (S n * length procs) 0 procs [].

(** ** The proof rule *)
Section Rule.
(** [J k p w]: what goroutine [k] relies on when it is at [p] in world [w]. *)
Context (J : string → Proc W A → W → Prop) (G : relation W) `{!PreOrder G}.
Hypothesis J_step : ∀ k act w p w', J k (Step act) w → act w = (p, w') → J k p w' ∧ G w w'.
Hypothesis J_stable : ∀ k k' act p q w w',
  k ≠ k' → J k (Step act) w → act w = (p, w') → J k' q w → J k' q w'.

(** The moments a list of goroutines can still take. *)
Inductive moments_le : nat → list (string * Proc W A) → Prop :=
  | moments_nil : moments_le 0 []
  | moments_cons n m k p l : steps_le n p → moments_le m l → moments_le (S n + m) ((k, p) :: l).

Lemma moments_all n l : Forall (λ kp, steps_le n kp.2) l → moments_le (S n * length l) l.
Proof.
  induction 1 as [|[k p] l Hp Hl IH]; cbn [length]; [rewrite Nat.mul_0_r; constructor|].
  rewrite Nat.mul_succ_r, Nat.add_comm. by constructor.
Qed.

Lemma moments_Done m l i k a : moments_le m l → l !! i = Some (k, Done a) →
  ∃ m', (m' < m)%nat ∧ moments_le m' (delete i l).
Proof.
  intros Hm. revert i. induction Hm as [|n m k' p l Hp Hl IH]; intros i Hi; [done|].
  destruct i as [|i]; simpl in *; [exists m; split; [lia|done]|].
  destruct (IH i Hi) as (m' & Hlt & Hm'). exists (S n + m')%nat. split; [lia|]. by constructor.
Qed.

Lemma moments_Step m l i k act w : moments_le m l → l !! i = Some (k, Step act) →
  ∃ m', (m' < m)%nat ∧ moments_le m' (<[i := (k, (act w).1)]> l).
Proof.
  intros Hm. revert i. induction Hm as [|n m k' p l Hp Hl IH]; intros i Hi; [done|].
  destruct i as [|i]; simpl in *.
  - injection Hi as -> ->. inversion Hp as [|n' act' Hact]; subst. exists (S n' + m)%nat. split; [lia|].
    by constructor.
  - destruct (IH i Hi) as (m' & Hlt & Hm'). exists (S n + m')%nat. split; [lia|]. by constructor.
Qed.

Lemma run_procs_spec fuel t pending finished w res w' m :
  moments_le m pending → (m ≤ fuel)%nat → NoDup (pending.*1 ++ finished.*1) →
  (∀ k p, (k, p) ∈ pending → J k p w) → (∀ k a, (k, a) ∈ finished → J k (Done a) w) →
  run_procs fuel t pending finished w = (res, w') →
  res.*1 ≡ₚ pending.*1 ++ finished.*1 ∧ (∀ k a, (k, a) ∈ res → J k (Done a) w') ∧ G w w'.
Proof.
  revert t pending finished w m. induction fuel as [|fuel IH]; intros t pending finished w m Hm Hle Hnd HJ HD.
  { inversion Hm; subst; [|lia]. simpl. intros [= <- <-]. split_and!; [done|done|reflexivity]. }
  cbn [run_procs]. set (i := (pick t mod length pending)%nat).
  destruct (pending !! i) as [[k [a|act]]|] eqn:Ei.
  - pose proof (delete_Permutation _ _ _ Ei) as Hp.
    destruct (moments_Done _ _ _ _ _ Hm Ei) as (m' & Hlt & Hm'). intros Hrun.
    apply (IH _ _ _ _ m') in Hrun as (Hk & HR & HG); [|done|lia| | |].
    + split_and!; [|done|done]. rewrite Hk, fmap_app, (fmap_Permutation fst _ _ Hp). simpl. solve_Permutation.
    + rewrite fmap_app. simpl. rewrite (fmap_Permutation fst _ _ Hp) in Hnd. simpl in Hnd.
      eapply NoDup_Permutation_proper; [|exact Hnd]. solve_Permutation.
    + intros k' p' Hin. apply HJ. rewrite Hp. by right.
    + intros k' a' [Hin|Hin]%elem_of_app; [by apply HD|]. apply list_elem_of_singleton in Hin as [= -> ->].
      apply HJ. by eapply list_elem_of_lookup_2.
  - unfold st_bind. destruct (act w) as [p w1] eqn:Ea. intros Hrun.
    assert (J k (Step act) w) as HJk by (apply HJ; by eapply list_elem_of_lookup_2).
    destruct (J_step _ _ _ _ _ HJk Ea) as [HJp HG1].
    destruct (moments_Step _ _ _ _ _ w Hm Ei) as (m' & Hlt & Hm'). rewrite Ea in Hm'. simpl in Hm'.
    assert ((<[i := (k, p)]> pending).*1 = pending.*1) as Hkeys.
    { rewrite list_fmap_insert. simpl. apply list_insert_id. by rewrite list_lookup_fmap, Ei. }
    apply (IH _ _ _ _ m') in Hrun as (Hk & HR & HG); [|done|lia|by rewrite Hkeys| |].
    + rewrite Hkeys in Hk. split_and!; [done|done|by etrans].
    + intros k' p' [j Hj]%list_elem_of_lookup_1.
      apply list_lookup_insert_Some in Hj as [(<- & [= <- <-] & _)|[Hne Hj]]; [done|].
      eapply (J_stable k k'); [|exact HJk|exact Ea|apply HJ; by eapply list_elem_of_lookup_2].
      intros <-. destruct Hne. apply NoDup_app in Hnd as [Hnd _].
      eapply NoDup_lookup; [exact Hnd|by rewrite list_lookup_fmap, Ei|by rewrite list_lookup_fmap, Hj].
    + intros k' a' Hin. eapply (J_stable k k'); [|exact HJk|exact Ea|by apply HD].
      intros <-. apply NoDup_app in Hnd as (_ & Hdis & _). apply (Hdis k).
      * apply list_elem_of_fmap. exists (k, Step act). split; [done|]. by eapply list_elem_of_lookup_2.
      * apply list_elem_of_fmap. by exists (k, a').
  - assert (pending = []) as ->.
    { destruct pending as [|x l]; [done|]. apply lookup_ge_None in Ei.
      pose proof (Nat.mod_upper_bound (pick t) (length (x :: l))). simpl in *. lia. }
    simpl. intros [= <- <-]. split_and!; [done|done|reflexivity].
Qed.

(** Every goroutine delivers exactly once, its result satisfies what it relies on
    in the final world, and the group as a whole changes the world by [G]. *)
Lemma fan_out_spec n procs w res w' :
  NoDup procs.*1 → Forall (λ kp, steps_le n kp.2) procs → (∀ k p, (k, p) ∈ procs → J k p w) →
  fan_out n procs w = (res, w') →
  res.*1 ≡ₚ procs.*1 ∧ (∀ k a, (k, a) ∈ res → J k (Done a) w') ∧ G w w'.
Proof.
  intros Hnd Hs HJ Hrun.
  apply (run_procs_spec _ _ _ _ _ _ _ (S n * length procs)) in Hrun as (Hk & HR & HG).
  - split_and!; [|done|done]. by rewrite Hk, app_nil_r.
  - by apply moments_all.
  - lia.
  - by rewrite app_nil_r.
  - done.
  - set_solver.
Qed.
End Rule.
End FanOut.
