(* ===== verification/Oids.v ===== *)
(** * internal/hsm/oids.go: data types and their object identifiers

    The type of a secret value is inferred from its content and stored with the
    object as a DER-encoded OID.  [asn1.Marshal] and [asn1.Unmarshal] of an object
    identifier are executable here, on lists of byte values. *)

From S2P Require Import Prelude GoStd.
From Stdlib Require Import Ascii.

(** [asn1.ObjectIdentifier]: a slice of ints. *)
Definition ObjectIdentifier : Type := list Z.

(* [internal/hsm/oids.go:14-14] *)
Definition OIDPlaintext : ObjectIdentifier := [1; 3; 6; 1; 4; 1; 99999; 1; 1].
(* [internal/hsm/oids.go:15-15] *)
Definition OIDJson : ObjectIdentifier := [1; 3; 6; 1; 4; 1; 99999; 1; 2].
(* [internal/hsm/oids.go:16-16] *)
Definition OIDPem : ObjectIdentifier := [1; 3; 6; 1; 4; 1; 99999; 1; 3].
(* [internal/hsm/oids.go:17-17] *)
Definition OIDBinary : ObjectIdentifier := [1; 3; 6; 1; 4; 1; 99999; 1; 4].
(* [internal/hsm/oids.go:18-18] *)
Definition OIDBase64 : ObjectIdentifier := [1; 3; 6; 1; 4; 1; 99999; 1; 5].
(* [internal/hsm/oids.go:19-19] *)
Definition OIDX509Cert : ObjectIdentifier := [1; 3; 6; 1; 4; 1; 99999; 1; 6].
(* [internal/hsm/oids.go:20-20] *)
Definition OIDPrivKey : ObjectIdentifier := [1; 3; 6; 1; 4; 1; 99999; 1; 7].
(* [internal/hsm/oids.go:21-21] *)
Definition OIDDockerCfg : ObjectIdentifier := [1; 3; 6; 1; 4; 1; 99999; 1; 8].

(* [internal/hsm/oids.go:28-28] *)
Definition DataTypePlaintext : string := "plaintext".
(* [internal/hsm/oids.go:29-29] *)
Definition DataTypeJson : string := "json".
(* [internal/hsm/oids.go:30-30] *)
Definition DataTypePem : string := "pem".
(* [internal/hsm/oids.go:31-31] *)
Definition DataTypeBinary : string := "binary".
(* [internal/hsm/oids.go:32-32] *)
Definition DataTypeBase64 : string := "base64".
(* [internal/hsm/oids.go:33-33] *)
Definition DataTypeX509Cert : string := "x509-cert".
(* [internal/hsm/oids.go:34-34] *)
Definition DataTypePrivKey : string := "private-key".
(* [internal/hsm/oids.go:35-35] *)
Definition DataTypeDockerCfg : string := "docker-config".

(* [internal/hsm/oids.go:39-60] *)
Definition GetOIDForDataType (dataType : string) : result ObjectIdentifier :=
  if bool_decide (dataType = DataTypePlaintext) then Ok OIDPlaintext
  else if bool_decide (dataType = DataTypeJson) then Ok OIDJson
  else if bool_decide (dataType = DataTypePem) then Ok OIDPem
  else if bool_decide (dataType = DataTypeBinary) then Ok OIDBinary
  else if bool_decide (dataType = DataTypeBase64) then Ok OIDBase64
  else if bool_decide (dataType = DataTypeX509Cert) then Ok OIDX509Cert
  else if bool_decide (dataType = DataTypePrivKey) then Ok OIDPrivKey
  else if bool_decide (dataType = DataTypeDockerCfg) then Ok OIDDockerCfg
  else Err (errorf ("unknown data type: " +:+ dataType)).

(** [oid.String()]: the arcs separated by dots. *)
Definition oid_string (oid : ObjectIdentifier) : string := str_join "." (map go_itoa oid).

(* [internal/hsm/oids.go:63-84] *)
Definition GetDataTypeForOID (oid : ObjectIdentifier) : result string :=
  if bool_decide (oid = OIDPlaintext) then Ok DataTypePlaintext
  else if bool_decide (oid = OIDJson) then Ok DataTypeJson
  else if bool_decide (oid = OIDPem) then Ok DataTypePem
  else if bool_decide (oid = OIDBinary) then Ok DataTypeBinary
  else if bool_decide (oid = OIDBase64) then Ok DataTypeBase64
  else if bool_decide (oid = OIDX509Cert) then Ok DataTypeX509Cert
  else if bool_decide (oid = OIDPrivKey) then Ok DataTypePrivKey
  else if bool_decide (oid = OIDDockerCfg) then Ok DataTypeDockerCfg
  else Err (errorf ("unknown OID: " +:+ oid_string oid)).

(** ** encoding/asn1 for object identifiers *)

(** The number of base-128 digits: ten are enough for an int64. *)
Fixpoint base128_loop (fuel : nat) (n : Z) : nat :=
  match fuel with
  | O => O
  | S fuel' => if 0 <? n then S (base128_loop fuel' (n / 128)) else O
  end.
Definition base128IntLength (n : Z) : nat := if n =? 0 then 1%nat else base128_loop 10 n.

(** The [l] last base-128 digits of [n], most significant first, all but the last
    with the continuation bit. *)
Fixpoint base128_digits (l : nat) (n : Z) : list Z :=
  match l with
  | O => []
  | S l' => ((n / 128 ^ Z.of_nat l') mod 128 + (if (l' =? 0)%nat then 0 else 128)) :: base128_digits l' n
  end.
Definition appendBase128Int (n : Z) : list Z := base128_digits (base128IntLength n) n.

Fixpoint be_length (fuel : nat) (n : Z) : list Z :=
  match fuel with
  | O => []
  | S fuel' => if n <? 256 then [n] else be_length fuel' (n / 256) ++ [n mod 256]
  end.
Definition der_length (n : Z) : list Z :=
  if n <? 128 then [n] else let l := be_length 8 n in (128 + Z.of_nat (length l)) :: l.

Definition valid_oid (oid : ObjectIdentifier) : bool :=
  match oid with
  | a :: b :: _ => (a <=? 2) && negb ((a <? 2) && (40 <=? b))
  | _ => false
  end.

Definition oid_content (oid : ObjectIdentifier) : list Z :=
  match oid with
  | a :: b :: rest => appendBase128Int (a * 40 + b) ++ List.concat (map appendBase128Int rest)
  | _ => []
  end.

(* [internal/hsm/oids.go:87-89] *)
Definition EncodeDER (oid : ObjectIdentifier) : result (list Z) :=
  if valid_oid oid
  then let content := oid_content oid in
       Ok (6 :: der_length (Z.of_nat (length content)) ++ content)
  else Err (errorf "asn1: structure error: invalid object identifier").

Definition max_int32 : Z := 2147483647.

(** [parseBase128Int]: at most five digits, no leading zero digit, fits an int32. *)
Fixpoint parseBase128Int (shifted : nat) (ret : Z) (bytes : list Z) : option (Z * list Z) :=
  match bytes with
  | [] => None
  | b :: rest =>
      if (shifted =? 5)%nat then None
      else if (shifted =? 0)%nat && (b =? 128) then None
      else
        let ret := ret * 128 + b mod 128 in
        if b <? 128 then (if max_int32 <? ret then None else Some (ret, rest))
        else parseBase128Int (S shifted) ret rest
  end.

Fixpoint parse_arcs (fuel : nat) (bytes : list Z) : option (list Z) :=
  match fuel with
  | O => None
  | S fuel' =>
      match bytes with
      | [] => Some []
      | _ => match parseBase128Int 0 0 bytes with
             | Some (v, rest) => match parse_arcs fuel' rest with Some l => Some (v :: l) | None => None end
             | None => None
             end
      end
  end.

Definition parseObjectIdentifier (bytes : list Z) : option ObjectIdentifier :=
  match parseBase128Int 0 0 bytes with
  | Some (v, rest) =>
      match parse_arcs (S (length rest)) rest with
      | Some l => Some (if v <? 80 then (v / 40) :: (v mod 40) :: l else 2 :: (v - 80) :: l)
      | None => None
      end
  | None => None
  end.

(** The length octets: short form, or a minimal long form of at most four. *)
Fixpoint long_length (n : nat) (acc : Z) (bytes : list Z) : option (Z * list Z) :=
  match n with
  | O => if acc <? 128 then None else Some (acc, bytes)
  | S n' => match bytes with
            | [] => None
            | b :: rest =>
                if 2 ^ 23 <=? acc then None
                else let acc := acc * 256 + b in
                     if acc =? 0 then None else long_length n' acc rest
            end
  end.
Definition parse_length (bytes : list Z) : option (Z * list Z) :=
  match bytes with
  | [] => None
  | b :: rest => if b <? 128 then Some (b, rest)
                 else if b =? 128 then None else long_length (Z.to_nat (b - 128)) 0 rest
  end.

(** What follows the value is returned by [asn1.Unmarshal] and ignored here. *)
(* [internal/hsm/oids.go:92-96] *)
Definition DecodeDER (der : list Z) : option ObjectIdentifier :=
  match der with
  | 6 :: rest =>
      match parse_length rest with
      | Some (n, body) =>
          if (Z.of_nat (length body) <? n) then None
          else parseObjectIdentifier (take (Z.to_nat n) body)
      | None => None
      end
  | _ => None
  end.

(** ** Inference of the data type *)

(** A rune outside ASCII is made of bytes of 128 and more, all refused. *)
Definition base64_char (c : ascii) : bool :=
  is_alnum c || bool_decide (c = "+"%char) || bool_decide (c = "/"%char) || bool_decide (c = "="%char).

(* [internal/hsm/oids.go:129-148] *)
Definition isValidBase64 (s : string) : bool :=
  if bool_decide (s = "") then false
  else if negb (str_len s mod 4 =? 0) then false
  else str_forallb base64_char s.

Definition binary_char (c : ascii) : bool :=
  let b := byte_val c in (b <? 32) && negb (b =? 9) && negb (b =? 10) && negb (b =? 13).

(* [internal/hsm/oids.go:99-126] *)
Definition InferDataType (content : string) : string :=
  if (20 <? str_len content) && has_prefix content "-----" then DataTypePem
  else if has_prefix content "{" || has_prefix content "[" then DataTypeJson
  else if isValidBase64 content then DataTypeBase64
  else if str_existsb binary_char content then DataTypeBinary
  else DataTypePlaintext.

(** ** Lemmas *)
Lemma parse_digits l n s ret rest :
  (s + l ≤ 5)%nat → (0 < l)%nat → 0 ≤ n ≤ max_int32 → ret = n / 128 ^ Z.of_nat l →
  (s = O → ∀ l', l = S l' → (0 < l')%nat → 0 < (n / 128 ^ Z.of_nat l') mod 128) →
  parseBase128Int s ret (base128_digits l n ++ rest) = Some (n, rest).
Proof.
  revert s ret. induction l as [|l IH]; intros s ret Hs Hl Hn Hret Hfirst; [lia|]. cbn [base128_digits app].
  set (d := (n / 128 ^ Z.of_nat l) mod 128). assert (0 ≤ d < 128) by (apply Z.mod_pos_bound; lia).
  assert (ret * 128 + d = n / 128 ^ Z.of_nat l) as Hstep.
  { subst ret d. rewrite Nat2Z.inj_succ, Z.pow_succ_r, (Z.mul_comm 128), <-Z.div_div by lia. dlia. }
  destruct l as [|l].
  - rewrite Z.pow_0_r, Z.div_1_r in Hstep. simpl. rewrite Z.add_0_r.
    destruct (s =? 5)%nat eqn:E5; [apply Nat.eqb_eq in E5; lia|].
    destruct ((s =? 0)%nat && (d =? 128)) eqn:E; [apply andb_prop in E as [_ E%Z.eqb_eq]; lia|].
    rewrite (Z.mod_small d) by lia. rewrite (proj2 (Z.ltb_lt d 128)) by lia.
    rewrite Hstep. rewrite (proj2 (Z.ltb_ge _ _)) by lia. done.
  - cbn [Nat.eqb parseBase128Int].
    destruct (s =? 5)%nat eqn:E5; [apply Nat.eqb_eq in E5; lia|].
    destruct ((s =? 0)%nat && (d + 128 =? 128)) eqn:E.
    { apply andb_prop in E as [E1%Nat.eqb_eq E2%Z.eqb_eq]. specialize (Hfirst E1 (S l) eq_refl ltac:(lia)).
      fold d in Hfirst. lia. }
    rewrite (proj2 (Z.ltb_ge (d + 128) 128)) by lia.
    replace ((d + 128) mod 128) with d by (rewrite Z.add_mod, Z.mod_same, Z.add_0_r, Z.mod_mod, Z.mod_small; lia).
    rewrite Hstep. apply IH; [lia|lia|done|done|lia].
Qed.

Lemma base128_length_spec n fuel :
  0 < n < 128 ^ Z.of_nat fuel →
  ∃ l, base128_loop fuel n = S l ∧ 128 ^ Z.of_nat l ≤ n < 128 ^ Z.of_nat (S l).
Proof.
  revert n. induction fuel as [|fuel IH]; intros n Hn; [simpl in Hn; lia|]. cbn [base128_loop].
  rewrite (proj2 (Z.ltb_lt 0 n)) by lia. rewrite Nat2Z.inj_succ, Z.pow_succ_r in Hn by lia.
  destruct (Z.lt_ge_cases n 128) as [Hs|Hs].
  - exists O. replace (n / 128) with 0 by (symmetry; apply Z.div_small; lia). simpl. split; [by destruct fuel|lia].
  - destruct (IH (n / 128)) as (l & -> & Hl); [dlia|]. exists (S l). split; [done|].
    rewrite !Nat2Z.inj_succ, !Z.pow_succ_r in * by lia. dlia.
Qed.

Lemma parse_appendBase128Int n rest :
  0 ≤ n ≤ max_int32 → parseBase128Int 0 0 (appendBase128Int n ++ rest) = Some (n, rest).
Proof.
  intros Hn. unfold appendBase128Int, base128IntLength, max_int32 in *.
  destruct (n =? 0) eqn:E0.
  { apply Z.eqb_eq in E0. subst. done. }
  apply Z.eqb_neq in E0. destruct (base128_length_spec n 10) as (l & -> & Hl); [lia|].
  assert (l < 5)%nat as Hl5.
  { assert (¬ (5 ≤ l)%nat); [|lia]. intros Hge. assert (128 ^ 5 ≤ 128 ^ Z.of_nat l) by (apply Z.pow_le_mono_r; lia). lia. }
  apply parse_digits; [lia|lia|unfold max_int32; lia|symmetry; apply Z.div_small; lia|].
  intros _ l' [= <-] Hpos. rewrite Nat2Z.inj_succ, Z.pow_succ_r in Hl by lia.
  assert (n / 128 ^ Z.of_nat l < 128) by (apply Z.div_lt_upper_bound; lia).
  assert (1 ≤ n / 128 ^ Z.of_nat l) by (apply Z.div_le_lower_bound; lia).
  rewrite Z.mod_small; lia.
Qed.

Lemma appendBase128Int_nonempty n : 0 ≤ n ≤ max_int32 → appendBase128Int n ≠ [].
Proof.
  intros Hn E. pose proof (parse_appendBase128Int n [] Hn) as H. by rewrite E in H.
Qed.

Lemma parse_arcs_spec arcs fuel :
  Forall (λ x, 0 ≤ x ≤ max_int32) arcs →
  (length (List.concat (map appendBase128Int arcs)) < fuel)%nat →
  parse_arcs fuel (List.concat (map appendBase128Int arcs)) = Some arcs.
Proof.
  revert fuel. induction arcs as [|x arcs IH]; intros fuel Ha Hf; (destruct fuel as [|fuel]; [lia|]); simpl; [done|].
  apply Forall_cons in Ha as [Hx Ha]. pose proof (appendBase128Int_nonempty x Hx) as Hne.
  simpl in Hf. rewrite length_app in Hf.
  rewrite (parse_appendBase128Int x) by done.
  destruct (appendBase128Int x ++ _) as [|b r] eqn:E; [by apply app_nil in E as [E _]|].
  destruct (appendBase128Int x); [done|]. simpl in Hf. rewrite IH; [done|done|lia].
Qed.

(** ** Properties *)

(** The DER encoding of an object identifier is decoded to the same
    identifier: every identifier that [asn1.Marshal] accepts, with non-negative
    arcs that fit an int32 and contents of fewer than 128 bytes. *)
Theorem DER_roundtrip (a b : Z) (rest : list Z) :
  valid_oid (a :: b :: rest) = true → 0 ≤ a → 0 ≤ b → a * 40 + b ≤ max_int32 →
  Forall (λ x, 0 ≤ x ≤ max_int32) rest → (length (oid_content (a :: b :: rest)) < 128)%nat →
  ∃ der, EncodeDER (a :: b :: rest) = Ok der ∧ DecodeDER der = Some (a :: b :: rest).
Proof.
  intros Hv Ha Hb Hmax Hrest Hlen. unfold EncodeDER. rewrite Hv. eexists. split; [done|].
  simpl in Hv. apply andb_prop in Hv as [Ha2%Z.leb_le Hv%negb_true_iff].
  set (content := oid_content (a :: b :: rest)) in *. unfold DecodeDER, der_length.
  rewrite (proj2 (Z.ltb_lt (Z.of_nat (length content)) 128)) by lia. cbn [app parse_length].
  rewrite (proj2 (Z.ltb_lt (Z.of_nat (length content)) 128)) by lia. rewrite Z.ltb_irrefl.
  rewrite Nat2Z.id, take_ge by lia. unfold content, oid_content, parseObjectIdentifier.
  rewrite parse_appendBase128Int by lia. rewrite parse_arcs_spec by (done || lia).
  destruct (a * 40 + b <? 80) eqn:E; [apply Z.ltb_lt in E|apply Z.ltb_ge in E].
  - assert (a < 2 ∧ b < 40 ∨ a = 2) as [[? ?]|?]; [|do 3 f_equal; dlia|lia].
    destruct (Z.lt_ge_cases a 2) as [Hl|Hl]; [left|right; lia]. split; [done|].
    rewrite (proj2 (Z.ltb_lt a 2)) in Hv by done. simpl in Hv. by apply Z.leb_gt in Hv.
  - assert (a = 2) as ->; [|do 3 f_equal; lia].
    destruct (Z.lt_ge_cases a 2) as [Hl|Hl]; [|lia].
    rewrite (proj2 (Z.ltb_lt a 2)) in Hv by done. simpl in Hv. apply Z.leb_gt in Hv. lia.
Qed.

(** Data types and OIDs correspond one to one, the type inferred from any
    content has an OID, and that OID survives the DER encoding stored with the
    object and names the inferred type again. *)
Theorem data_type_roundtrip (content : string) :
  ∃ oid der, GetOIDForDataType (InferDataType content) = Ok oid ∧
    EncodeDER oid = Ok der ∧ DecodeDER der = Some oid ∧
    GetDataTypeForOID oid = Ok (InferDataType content).
Proof.
  unfold InferDataType. repeat case_match; do 2 eexists; (split; [reflexivity|]);
    (split; [reflexivity|]); split; vm_compute; reflexivity.
Qed.

Example DER_roundtrip_witness :
  ∃ der, EncodeDER [1; 3; 6; 1; 4; 1; 99999; 1; 8] = Ok der ∧ DecodeDER der = Some OIDDockerCfg.
Proof.
  apply (DER_roundtrip 1 3 [6; 1; 4; 1; 99999; 1; 8]);
    [reflexivity|lia|lia|unfold max_int32; lia| |vm_compute; lia].
  unfold max_int32. decide_goal.
Defined.
