(* ===== verification/Pkcs11.v ===== *)
(** * internal/hsm/pkcs11_client.go and pkcs11_cgo.go: the PKCS#11 client

    The PKCS#11 library (github.com/miekg/pkcs11) is a record of operations on a
    world [W]; [TokenLaws] states the documented behaviour of the operations the
    client relies on.  [json.Marshal] and [json.Unmarshal] of the metadata are
    arguments.  The methods of [PKCS11Client] are state transformers of the client's
    fields and the world; the mutex makes each of them atomic. *)

From S2P Require Import Prelude GoStd Sha256 Hsm Oids.

(* [internal/hsm/pkcs11_client.go:34-34] *)
Definition defaultKeyName : string := "data".
(* [internal/hsm/pkcs11_client.go:35-35] *)
Definition metadataKeySuffix : string := "/_metadata".
(* [internal/hsm/pkcs11_client.go:36-36] *)
Definition applicationName : string := "hsm-secrets-operator".

(** ** The library *)
Definition CKR_DEVICE_ERROR : Z := 48.
Definition CKR_DEVICE_REMOVED : Z := 50.
Definition CKR_SESSION_HANDLE_INVALID : Z := 179.
Definition CKR_TOKEN_NOT_PRESENT : Z := 224.
Definition CKF_USER_PIN_INITIALIZED : Z := 8.

Inductive Attribute :=
  | CKA_CLASS_DATA
  | CKA_LABEL (label : string)
  | CKA_APPLICATION (name : string)
  | CKA_VALUE (value : string)
  | CKA_TOKEN (b : bool)
  | CKA_PRIVATE (b : bool)
  | CKA_MODIFIABLE (b : bool)
  | CKA_OBJECT_ID (der : list Z).

(** [tokenInfo] of the library, and its slot information. *)
Record CK_TOKEN_INFO := mkTokenInfo {
  ti_Label : string;
  ti_ManufacturerID : string;
  ti_Model : string;
  ti_SerialNumber : string;
  ti_Flags : Z;
  ti_Major : Z;
  ti_Minor : Z;
}.
Record CK_SLOT_INFO := mkSlotInfo {
  si_SlotDescription : string;
  si_ManufacturerID : string;
}.

(** A [*pkcs11.Ctx].  [GetAttributeValue] is used for the label alone
    ([GetLabel]) and for the label and the value ([GetLabelValue]). *)
Record Ctx (W : Type) := mkCtx {
  ctx_Initialize : ST W (result unit);
  ctx_Finalize : ST W (result unit);
  ctx_Destroy : ST W unit;
  ctx_GetSlotList : ST W (result (list Z));
  ctx_GetTokenInfo : Z → ST W (result CK_TOKEN_INFO);
  ctx_GetSlotInfo : Z → ST W (result CK_SLOT_INFO);
  ctx_OpenSession : Z → ST W (result Z);
  ctx_CloseSession : Z → ST W (result unit);
  ctx_Login : Z → string → ST W (result unit);
  ctx_Logout : Z → ST W (result unit);
  ctx_FindObjectsInit : Z → list Attribute → ST W (result unit);
  ctx_FindObjects : Z → nat → ST W (result (list Z));
  ctx_FindObjectsFinal : Z → ST W (result unit);
  ctx_GetLabel : Z → Z → ST W (result (list string));
  ctx_GetLabelValue : Z → Z → ST W (result (list string));
  ctx_CreateObject : Z → list Attribute → ST W (result Z);
  ctx_DestroyObject : Z → Z → ST W (result unit);
  ctx_SetPIN : Z → string → string → ST W (result unit);
}.
Arguments mkCtx {W}.
Arguments ctx_Initialize {W}.
Arguments ctx_Finalize {W}.
Arguments ctx_Destroy {W}.
Arguments ctx_GetSlotList {W}.
Arguments ctx_GetTokenInfo {W}.
Arguments ctx_GetSlotInfo {W}.
Arguments ctx_OpenSession {W}.
Arguments ctx_CloseSession {W}.
Arguments ctx_Login {W}.
Arguments ctx_Logout {W}.
Arguments ctx_FindObjectsInit {W}.
Arguments ctx_FindObjects {W}.
Arguments ctx_FindObjectsFinal {W}.
Arguments ctx_GetLabel {W}.
Arguments ctx_GetLabelValue {W}.
Arguments ctx_CreateObject {W}.
Arguments ctx_DestroyObject {W}.
Arguments ctx_SetPIN {W}.

(** [errors.As(err, &pe)]: the library error in the chain, if any. *)
Fixpoint as_pkcs11 (e : error) : option Z :=
  match e with
  | pkcs11_error code _ => Some code
  | wrapf _ e' | wrap_after e' _ => as_pkcs11 e'
  | _ => None
  end.

(* [internal/hsm/pkcs11_cgo.go:33-47] *)
Definition isTokenLostError (err : error) : bool :=
  match as_pkcs11 err with
  | None => false
  | Some pe => (pe =? CKR_TOKEN_NOT_PRESENT) || (pe =? CKR_DEVICE_REMOVED) ||
               (pe =? CKR_DEVICE_ERROR) || (pe =? CKR_SESSION_HANDLE_INVALID)
  end.

(* [internal/hsm/pkcs11_client.go:62-66] *)
Record pkcs11Object := mkObject {
  obj_Label : string;
  obj_Value : string;
  obj_Handle : Z;
}.

(* [internal/hsm/pkcs11_client.go:69-75] *)
Record tokenInfo := mk_tokenInfo {
  tk_Label : string;
  tk_ManufacturerID : string;
  tk_Model : string;
  tk_SerialNumber : string;
  tk_FirmwareVersion : string;
}.

(** What a [*Session] points to: sessions are only built with their context, so
    the [ctx != nil] tests of the code always hold. *)
(* [internal/hsm/pkcs11_cgo.go:50-54] *)
Record Session (W : Type) := mkSession {
  se_ctx : Ctx W;
  se_session : Z;
  se_slot : Z;
}.
Arguments mkSession {W}.
Arguments se_ctx {W}.
Arguments se_session {W}.
Arguments se_slot {W}.

(* [internal/hsm/pkcs11_client.go:47-59] *)
Record PKCS11Client (W : Type) := mkPKCS11 {
  p_config : Config W;
  p_session : option (Session W);
  p_slot : Z;
  p_connected : bool;
  p_dataObjects : gmap string Z;
}.
Arguments mkPKCS11 {W}.
Arguments p_config {W}.
Arguments p_session {W}.
Arguments p_slot {W}.
Arguments p_connected {W}.
Arguments p_dataObjects {W}.

Section Cgo.
Context {W : Type}.

(** [ctx.Finalize(); ctx.Destroy()], the error of the former ignored. *)
(* [internal/hsm/pkcs11_cgo.go:74-78 initializePKCS11] *)
Definition teardown (ctx : Ctx W) : ST W unit :=
  (do! ctx_Finalize ctx in ctx_Destroy ctx)%go.

(** The slot whose token has the configured label. *)
(* [internal/hsm/pkcs11_cgo.go:114-124 initializePKCS11] *)
Fixpoint find_slot_by_label (ctx : Ctx W) (label : string) (slots : list Z) : ST W (option Z) :=
  match slots with
  | [] => st_ret None
  | slot :: rest =>
      (let* r := ctx_GetTokenInfo ctx slot in
       match r with
       | Err _ => find_slot_by_label ctx label rest
       | Ok ti => if bool_decide (TrimSpace (ti_Label ti) = label) then st_ret (Some slot)
                  else find_slot_by_label ctx label rest
       end)%go
  end.

(** The slot to use, or the error to return. *)
(* [internal/hsm/pkcs11_cgo.go:92-136 initializePKCS11] *)
Definition select_slot (ctx : Ctx W) (config : Config W) (slots : list Z) : ST W (result Z) :=
  if UseSlotID config then
    if bool_decide (SlotID config ∈ slots) then st_ret (Ok (SlotID config))
    else st_ret (Err (errorf ("specified slot ID " +:+ go_itoa (SlotID config) +:+ " not found")))
  else if bool_decide (TokenLabel config ≠ "") then
    (let* found := find_slot_by_label ctx (TokenLabel config) slots in
     match found with
     | Some slot => st_ret (Ok slot)
     | None => st_ret (Err (errorf ("token with label '" +:+ TokenLabel config +:+ "' not found")))
     end)%go
  else st_ret (Ok (default 0 (head slots))).

(** [pkcs11.New] is the argument [New]; [None] is a nil context. *)
(* [internal/hsm/pkcs11_cgo.go:59-168] *)
Definition initializePKCS11 (New : string → ST W (option (Ctx W))) (config : Config W) (pin : string)
    : ST W (result (Session W * Z)) :=
  (let* octx := New (PKCS11LibraryPath config) in
   match octx with
   | None => st_ret (Err (errorf ("failed to create PKCS#11 context for library: " +:+ PKCS11LibraryPath config)))
   | Some ctx =>
       st_try (ctx_Initialize ctx) (wrapf "failed to initialize PKCS#11 library") (λ _,
         let* rslots := ctx_GetSlotList ctx in
         match rslots with
         | Err err => do! teardown ctx in st_ret (Err (wrapf "failed to get slot list" err))
         | Ok [] => do! teardown ctx in st_ret (Err (errorf "no slots with tokens found"))
         | Ok slots =>
             let* target := select_slot ctx config slots in
             match target with
             | Err err => do! teardown ctx in st_ret (Err err)
             | Ok targetSlot =>
                 let* rs := ctx_OpenSession ctx targetSlot in
                 match rs with
                 | Err err => do! teardown ctx in st_ret (Err (wrapf "failed to open session" err))
                 | Ok session =>
                     let* rl := ctx_Login ctx session pin in
                     match rl with
                     | Err err => do! ctx_CloseSession ctx session in do! teardown ctx in
                                  st_ret (Err (wrapf "failed to login with PIN" err))
                     | Ok _ => st_ret (Ok (mkSession ctx session targetSlot, targetSlot))
                     end
                 end
             end
         end)
   end)%go.

(** Count the slots whose token has no user PIN; stop at the first error. *)
(* [internal/hsm/pkcs11_cgo.go:204-213 isTokenBlankPKCS11] *)
Fixpoint count_blank (ctx : Ctx W) (slots : list Z) (blankCount : Z) : ST W (result Z) :=
  match slots with
  | [] => st_ret (Ok blankCount)
  | slot :: rest =>
      (let* r := ctx_GetTokenInfo ctx slot in
       match r with
       | Err err => st_ret (Err (wrapf ("failed to get token info for slot " +:+ go_itoa slot) err))
       | Ok ti => count_blank ctx rest
           (if Z.land (ti_Flags ti) CKF_USER_PIN_INITIALIZED =? 0 then blankCount + 1 else blankCount)
       end)%go
  end.

(** The deferred teardown runs after the result is known. *)
(* [internal/hsm/pkcs11_cgo.go:184-217] *)
Definition isTokenBlankPKCS11 (New : string → ST W (option (Ctx W))) (config : Config W)
    : ST W (result bool) :=
  (let* octx := New (PKCS11LibraryPath config) in
   match octx with
   | None => st_ret (Err (errorf ("failed to create PKCS#11 context for library: " +:+ PKCS11LibraryPath config)))
   | Some ctx =>
       let* ri := ctx_Initialize ctx in
       match ri with
       | Err err => do! ctx_Destroy ctx in st_ret (Err (wrapf "failed to initialize PKCS#11 library" err))
       | Ok _ =>
           let* r := st_try (ctx_GetSlotList ctx) (wrapf "failed to get slot list") (λ slots,
                       st_try (count_blank ctx slots 0) (λ e, e) (λ n, st_ret (Ok (n =? 1)))) in
           do! teardown ctx in st_ret r
       end
   end)%go.

(* [internal/hsm/pkcs11_client.go:94-99] *)
Definition IsTokenBlank (New : string → ST W (option (Ctx W))) (config : Config W) : ST W (result bool) :=
  if bool_decide (PKCS11LibraryPath config = "") then st_ret (Err (errorf "PKCS11LibraryPath is required"))
  else isTokenBlankPKCS11 New config.

(* [internal/hsm/pkcs11_cgo.go:220-247] *)
Definition closePKCS11 (session : option (Session W)) : ST W (result unit) :=
  match session with
  | None => st_ret (Ok ())
  | Some s =>
      (do! (if bool_decide (se_session s ≠ 0)
            then do! ctx_Logout (se_ctx s) (se_session s) in
                 do! ctx_CloseSession (se_ctx s) (se_session s) in st_ret ()
            else st_ret ()) in
       do! teardown (se_ctx s) in st_ret (Ok ()))%go
  end.

(** [if session == nil { return ..., fmt.Errorf("session is nil") }] *)
Definition with_session {A} (session : option (Session W)) (k : Ctx W → Session W → ST W (result A))
    : ST W (result A) :=
  match session with
  | None => st_ret (Err (errorf "session is nil"))
  | Some s => k (se_ctx s) s
  end.

(* [internal/hsm/pkcs11_cgo.go:250-288] *)
Definition getTokenInfoPKCS11 (session : option (Session W)) : ST W (result tokenInfo) :=
  with_session session (λ ctx s,
    (let* r := ctx_GetTokenInfo ctx (se_slot s) in
     match r with
     | Err err =>
         if isTokenLostError err
         then st_ret (Err (wrapf ("get token info failed (" +:+ error_string err +:+ ")") ErrTokenNotPresent))
         else st_ret (Err (wrapf "failed to get token info" err))
     | Ok ti =>
         let* rs := ctx_GetSlotInfo ctx (se_slot s) in
         let manufacturer := TrimSpace (ti_ManufacturerID ti) in
         let model := TrimSpace (ti_Model ti) in
         let '(manufacturer, model) :=
           match rs with
           | Ok si =>
               (if bool_decide (manufacturer = "") then TrimSpace (si_ManufacturerID si) else manufacturer,
                if bool_decide (model = "") then TrimSpace (si_SlotDescription si) else model)
           | Err _ => (manufacturer, model)
           end in
         st_ret (Ok (mk_tokenInfo (TrimSpace (ti_Label ti)) manufacturer model
           (TrimSpace (ti_SerialNumber ti)) (go_itoa (ti_Major ti) +:+ "." +:+ go_itoa (ti_Minor ti))))
     end)%go).

(** Read the label and value of each handle; an object that cannot be read, or
    whose label is empty, or does not start with [path], is left out. *)
(* [internal/hsm/pkcs11_cgo.go:323-350 findObjectsPKCS11] *)
Fixpoint read_objects (ctx : Ctx W) (s : Session W) (path : string) (objs : list Z)
    (objects : list pkcs11Object) : ST W (list pkcs11Object) :=
  match objs with
  | [] => st_ret objects
  | obj :: rest =>
      (let* r := ctx_GetLabelValue ctx (se_session s) obj in
       match r with
       | Ok (label :: value :: _) =>
           if bool_decide (label = "") then read_objects ctx s path rest objects
           else if bool_decide (path ≠ "") && negb (has_prefix label path)
           then read_objects ctx s path rest objects
           else read_objects ctx s path rest (objects ++ [mkObject label value obj])
       | _ => read_objects ctx s path rest objects
       end)%go
  end.

(* [internal/hsm/pkcs11_cgo.go:291-353] *)
Definition findObjectsPKCS11 (session : option (Session W)) (path : string)
    : ST W (result (list pkcs11Object)) :=
  with_session session (λ ctx s,
    st_try (ctx_FindObjectsInit ctx (se_session s) [CKA_CLASS_DATA])
      (wrapf "failed to initialize object search") (λ _,
    (let* robjs := ctx_FindObjects ctx (se_session s) 100 in
     match robjs with
     | Err err => do! ctx_FindObjectsFinal ctx (se_session s) in
                  st_ret (Err (wrapf "failed to find objects" err))
     | Ok objs =>
         st_try (ctx_FindObjectsFinal ctx (se_session s))
           (wrapf "failed to finalize object search (session may be in invalid state)") (λ _,
         let* objects := read_objects ctx s path objs [] in st_ret (Ok objects))
     end)%go)).

(** The template of a new data object. *)
(* [internal/hsm/pkcs11_cgo.go:362-390 createObjectPKCS11] *)
Definition object_template (label value : string) : list Attribute :=
  let dataType := InferDataType value in
  let oid := match GetOIDForDataType dataType with Ok o => o | Err _ => OIDPlaintext end in
  let derOID := match EncodeDER oid with Ok d => Some d | Err _ => None end in
  [CKA_CLASS_DATA; CKA_LABEL label; CKA_APPLICATION applicationName; CKA_VALUE value;
   CKA_TOKEN true; CKA_PRIVATE true; CKA_MODIFIABLE true] ++
  match derOID with Some d => [CKA_OBJECT_ID d] | None => [] end.

(** [%v] of an [asn1.ObjectIdentifier] prints its [String()]. *)
(* [internal/hsm/pkcs11_cgo.go:356-404] *)
Definition createObjectPKCS11 (session : option (Session W)) (label value : string) : ST W (result Z) :=
  with_session session (λ ctx s,
    let dataType := InferDataType value in
    let oid := match GetOIDForDataType dataType with Ok o => o | Err _ => OIDPlaintext end in
    let oidStatus := match EncodeDER oid with
      | Ok d => oid_string oid +:+ " (DER len=" +:+ go_itoa (Z.of_nat (length d)) +:+ ")"
      | Err _ => "none"
      end in
    st_try (ctx_CreateObject ctx (se_session s) (object_template label value))
      (wrapf ("failed to create data object (label=" +:+ label +:+ ", dataType=" +:+ dataType +:+
              ", oid=" +:+ oidStatus +:+ ", valueLen=" +:+ go_itoa (str_len value) +:+ ")"))
      (λ obj, st_ret (Ok obj))).

(** The handles and labels of the objects whose label starts with [path]. *)
(* [internal/hsm/pkcs11_cgo.go:437-460 deleteSecretObjectsPKCS11] *)
Fixpoint collect_matching (ctx : Ctx W) (s : Session W) (path : string) (objs : list Z)
    (objectsToDelete : list (Z * string)) : ST W (list (Z * string)) :=
  match objs with
  | [] => st_ret objectsToDelete
  | obj :: rest =>
      (let* r := ctx_GetLabel ctx (se_session s) obj in
       match r with
       | Ok (label :: _) =>
           if bool_decide (label = "") then collect_matching ctx s path rest objectsToDelete
           else if negb (has_prefix label path) then collect_matching ctx s path rest objectsToDelete
           else collect_matching ctx s path rest (objectsToDelete ++ [(obj, label)])
       | _ => collect_matching ctx s path rest objectsToDelete
       end)%go
  end.

(* [internal/hsm/pkcs11_cgo.go:469-477 deleteSecretObjectsPKCS11] *)
Fixpoint destroy_objects (ctx : Ctx W) (s : Session W) (objs : list (Z * string)) (deleteErrors : list string)
    : ST W (list string) :=
  match objs with
  | [] => st_ret deleteErrors
  | (handle, label) :: rest =>
      (let* r := ctx_DestroyObject ctx (se_session s) handle in
       match r with
       | Err err => destroy_objects ctx s rest (deleteErrors ++ [label +:+ ": " +:+ error_string err])
       | Ok _ => destroy_objects ctx s rest deleteErrors
       end)%go
  end.

(* [internal/hsm/pkcs11_cgo.go:407-485] *)
Definition deleteSecretObjectsPKCS11 (session : option (Session W)) (path : string) : ST W (result unit) :=
  with_session session (λ ctx s,
    st_try (ctx_FindObjectsInit ctx (se_session s) [CKA_CLASS_DATA])
      (wrapf "failed to initialize object search") (λ _,
    (let* robjs := ctx_FindObjects ctx (se_session s) 100 in
     match robjs with
     | Err err => do! ctx_FindObjectsFinal ctx (se_session s) in
                  st_ret (Err (wrapf "failed to find objects" err))
     | Ok objs =>
         let* objectsToDelete := collect_matching ctx s path objs [] in
         st_try (ctx_FindObjectsFinal ctx (se_session s))
           (wrapf "failed to finalize object search (session may be in invalid state)") (λ _,
         let* deleteErrors := destroy_objects ctx s objectsToDelete [] in
         if bool_decide (deleteErrors = []) then st_ret (Ok ())
         else st_ret (Err (errorf ("failed to delete " +:+ go_itoa (Z.of_nat (length deleteErrors)) +:+
                " of " +:+ go_itoa (Z.of_nat (length objectsToDelete)) +:+ " objects: " +:+
                str_join "; " deleteErrors))))
     end)%go)).

(* [internal/hsm/pkcs11_cgo.go:488-525] *)
Definition deleteSecretKeyPKCS11 (session : option (Session W)) (label : string) : ST W (result unit) :=
  with_session session (λ ctx s,
    st_try (ctx_FindObjectsInit ctx (se_session s) [CKA_CLASS_DATA; CKA_LABEL label])
      (wrapf "failed to initialize object search") (λ _,
    (let* robjs := ctx_FindObjects ctx (se_session s) 1 in
     match robjs with
     | Err err => do! ctx_FindObjectsFinal ctx (se_session s) in
                  st_ret (Err (wrapf "failed to find object" err))
     | Ok objs =>
         st_try (ctx_FindObjectsFinal ctx (se_session s)) (wrapf "failed to finalize object search") (λ _,
         match objs with
         | [] => st_ret (Err (errorf ("key not found: " +:+ label)))
         | h :: _ => st_try (ctx_DestroyObject ctx (se_session s) h) (wrapf "failed to destroy object")
                       (λ _, st_ret (Ok ()))
         end)
     end)%go)).

(* [internal/hsm/pkcs11_cgo.go:528-540] *)
Definition changePINPKCS11 (session : option (Session W)) (oldPIN newPIN : string) : ST W (result unit) :=
  with_session session (λ ctx s,
    st_try (ctx_SetPIN ctx (se_session s) oldPIN newPIN) (wrapf "failed to change HSM PIN")
      (λ _, st_ret (Ok ()))).
End Cgo.

(** ** The client *)

(** The client's fields and the world they live in. *)
Definition PState (W : Type) : Type := (PKCS11Client W * W)%type.

Section Client.
Context {W : Type} `{MapOrder}.
Context (New : string → ST W (option (Ctx W))).
Context (json_Marshal : SecretMetadata → result string) (json_Unmarshal : string → result SecretMetadata).


(** A library call: the fields of the client do not change. *)
Definition on_world {A} (m : ST W A) : ST (PState W) A := λ v, let (a, w) := m v.2 in (a, (v.1, w)).
Definition get_client : ST (PState W) (PKCS11Client W) := λ v, (v.1, v).
Definition put_client (c : PKCS11Client W) : ST (PState W) unit := λ v, ((), (c, v.2)).

Definition set_connected (b : bool) (c : PKCS11Client W) : PKCS11Client W :=
  mkPKCS11 (p_config c) (p_session c) (p_slot c) b (p_dataObjects c).
Definition set_dataObjects (m : gmap string Z) (c : PKCS11Client W) : PKCS11Client W :=
  mkPKCS11 (p_config c) (p_session c) (p_slot c) (p_connected c) m.

(** [if !c.connected.Load() { return ..., fmt.Errorf("HSM not connected") }] *)
Definition if_connected {A} (k : PKCS11Client W → ST (PState W) (result A)) : ST (PState W) (result A) :=
  (let* c := get_client in
   if negb (p_connected c) then st_ret (Err (errorf "HSM not connected")) else k c)%go.

(* [internal/hsm/pkcs11_client.go:78-83] *)
Definition NewPKCS11Client : PKCS11Client W :=
  mkPKCS11 (mkConfig "" 0 false "" 0 0 0 None) None 0 false ∅.

(** With the build's function that opens a session. *)
(* [internal/hsm/pkcs11_client.go:102-138 Initialize] *)
Definition Initialize_with (initialize : Config W → string → ST W (result (Session W * Z))) (config : Config W)
    : ST (PState W) (result unit) :=
  (let* c := get_client in
   do! put_client (mkPKCS11 config (p_session c) (p_slot c) (p_connected c) (p_dataObjects c)) in
   if bool_decide (PKCS11LibraryPath config = "")
   then st_ret (Err (errorf "PKCS11LibraryPath is required")) else
   match cfg_PINProvider config with
   | None => st_ret (Err (errorf "PINProvider is required for HSM authentication"))
   | Some provider =>
       st_try (on_world (GetPIN provider)) (wrapf "failed to get PIN from provider") (λ pin,
       st_try (on_world (initialize config pin)) (λ err, err) (λ ss,
         do! put_client (mkPKCS11 config (Some ss.1) ss.2 true (p_dataObjects c)) in
         st_ret (Ok ())))
   end)%go.
(* [internal/hsm/pkcs11_client.go:127-128 Initialize] *)
Definition Initialize : Config W → ST (PState W) (result unit) := Initialize_with (initializePKCS11 New).

(* [internal/hsm/pkcs11_client.go:141-161] *)
Definition Close : ST (PState W) (result unit) :=
  (let* c := get_client in
   if negb (p_connected c) then st_ret (Ok ()) else
   do! on_world (closePKCS11 (p_session c)) in
   do! put_client (mkPKCS11 (p_config c) None (p_slot c) false ∅) in
   st_ret (Ok ()))%go.

(* [internal/hsm/pkcs11_client.go:164-195] *)
Definition GetInfo : ST (PState W) (result HSMInfo) :=
  if_connected (λ c,
    (let* r := on_world (getTokenInfoPKCS11 (p_session c)) in
     match r with
     | Err err =>
         do! (if errors_Is err ErrTokenNotPresent then put_client (set_connected false c) else st_ret ()) in
         st_ret (Err (wrapf "failed to get token info" err))
     | Ok ti =>
         st_ret (Ok (mkHSMInfo (TrimSpace (tk_Label ti)) (TrimSpace (tk_ManufacturerID ti))
           (TrimSpace (tk_Model ti)) (TrimSpace (tk_SerialNumber ti)) (tk_FirmwareVersion ti)))
     end)%go).

(** The key an object's label stands for under [path]. *)
(* [internal/hsm/pkcs11_client.go:232-236 ReadSecret] *)
Definition label_key (path label : string) : string :=
  let key := trim_prefix (trim_prefix label path) "/" in
  if bool_decide (key = "") then defaultKeyName else key.

(** The loop over the objects: the data and the number of matching objects. *)
(* [internal/hsm/pkcs11_client.go:214-239 ReadSecret] *)
Definition collect_data (path : string) (objects : list pkcs11Object) : SecretData * Z :=
  fold_left (λ (acc : SecretData * Z) obj,
    if negb (has_prefix (obj_Label obj) path) then acc
    else if has_suffix (obj_Label obj) metadataKeySuffix then acc
    else (<[label_key path (obj_Label obj) := obj_Value obj]> acc.1, acc.2 + 1)) objects (∅, 0).

(* [internal/hsm/pkcs11_client.go:198-253] *)
Definition ReadSecret (path : string) : ST (PState W) (result SecretData) :=
  if_connected (λ c,
    st_try (on_world (findObjectsPKCS11 (p_session c) path)) (wrapf "failed to find objects") (λ objects,
      let '(data, matchingObjects) := collect_data path objects in
      if matchingObjects =? 0 then st_ret (Err (errorf ("secret not found at path: " +:+ path)))
      else if bool_decide (data = ∅)
      then st_ret (Err (errorf ("no valid secret data found at path: " +:+ path +:+ " (found " +:+
             go_itoa matchingObjects +:+ " objects but no data)")))
      else st_ret (Ok data))).

(* [internal/hsm/pkcs11_client.go:278-281 WriteSecret] *)
Definition key_label (path key : string) : string :=
  if bool_decide (key ≠ defaultKeyName) then path +:+ "/" +:+ key else path.

(** Create one object and remember its handle. *)
(* [internal/hsm/pkcs11_client.go:284-290 WriteSecret] *)
Definition create_and_cache (label value : string) (onerr : error → error) : ST (PState W) (result unit) :=
  (let* c := get_client in
   st_try (on_world (createObjectPKCS11 (p_session c) label value)) onerr (λ handle,
     do! put_client (set_dataObjects (<[label := handle]> (p_dataObjects c)) c) in st_ret (Ok ())))%go.

(* [internal/hsm/pkcs11_client.go:277-293 WriteSecret] *)
Fixpoint create_objects (path : string) (kvs : list (string * string)) : ST (PState W) (result unit) :=
  match kvs with
  | [] => st_ret (Ok ())
  | (key, value) :: rest =>
      st_try (create_and_cache (key_label path key) value
                (wrapf ("failed to create data object for key '" +:+ key +:+ "'"))) (λ e, e)
        (λ _, create_objects path rest)
  end.

(* [internal/hsm/pkcs11_client.go:305-334] *)
Definition writeMetadata (path : string) (metadata : SecretMetadata) : ST (PState W) (result unit) :=
  match json_Marshal metadata with
  | Err err => st_ret (Err (wrapf "failed to serialize metadata" err))
  | Ok metadataJSON =>
      create_and_cache (path +:+ metadataKeySuffix) metadataJSON (wrapf "failed to create metadata object")
  end.

(* [internal/hsm/pkcs11_client.go:256-302] *)
Definition WriteSecret (path : string) (data : SecretData) (metadata : option SecretMetadata)
    : ST (PState W) (result unit) :=
  if_connected (λ c,
    st_try (on_world (deleteSecretObjectsPKCS11 (p_session c) path))
      (wrapf "failed to prepare HSM for write (delete existing objects)") (λ _,
    st_try (create_objects path (range data)) (λ e, e) (λ _,
    match metadata with
    | Some md => writeMetadata path md
    | None => st_ret (Ok ())
    end))).

(* [internal/hsm/pkcs11_client.go:337-366] *)
Definition ReadMetadata (path : string) : ST (PState W) (result (option SecretMetadata)) :=
  if_connected (λ c,
    let metadataLabel := path +:+ metadataKeySuffix in
    st_try (on_world (findObjectsPKCS11 (p_session c) metadataLabel))
      (wrapf "failed to find metadata object") (λ objects,
    match List.find (λ obj, bool_decide (obj_Label obj = metadataLabel)) objects with
    | Some obj =>
        match json_Unmarshal (obj_Value obj) with
        | Err err => st_ret (Err (wrapf "failed to parse metadata JSON" err))
        | Ok md => st_ret (Ok (Some md))
        end
    | None => st_ret (Err (errorf ("metadata not found for path: " +:+ path)))
    end)).

(* [internal/hsm/pkcs11_client.go:369-392] *)
Definition DeleteSecret (path : string) : ST (PState W) (result unit) :=
  if_connected (λ c,
    st_try (on_world (deleteSecretObjectsPKCS11 (p_session c) path))
      (wrapf "failed to delete secret objects") (λ _,
    (do! put_client (set_dataObjects
           (filter (λ kv, has_prefix kv.1 path = false) (p_dataObjects c)) c) in
     st_ret (Ok ()))%go)).

(* [internal/hsm/pkcs11_client.go:404-407 DeleteSecretKey] *)
Definition exact_label (path key : string) : string :=
  if bool_decide (key ≠ "") && bool_decide (key ≠ defaultKeyName) then path +:+ "/" +:+ key else path.

(* [internal/hsm/pkcs11_client.go:395-420] *)
Definition DeleteSecretKey (path key : string) : ST (PState W) (result unit) :=
  if_connected (λ c,
    let label := exact_label path key in
    st_try (on_world (deleteSecretKeyPKCS11 (p_session c) label)) (wrapf "failed to delete secret key") (λ _,
    (do! put_client (set_dataObjects (delete label (p_dataObjects c)) c) in st_ret (Ok ()))%go)).

(** The path an object's label is listed under: the label without its last component. *)
(* [internal/hsm/pkcs11_client.go:450-458 ListSecrets] *)
Definition label_path (label : string) : string :=
  if str_contains label "/" then
    let parts := str_split (byte_of 47) label in
    if (1 <? length parts)%nat then str_join "/" (List.firstn (length parts - 1) parts) else label
  else label.

(* [internal/hsm/pkcs11_client.go:423-476] *)
Definition ListSecrets (prefix : string) : ST (PState W) (result (list string)) :=
  if_connected (λ c,
    st_try (on_world (findObjectsPKCS11 (p_session c) "")) (wrapf "failed to find objects") (λ objects,
      let pathsMap := fold_left (λ (m : gmap string bool) obj,
        let label := obj_Label obj in
        if has_suffix label metadataKeySuffix then m
        else
          let path := label_path label in
          if bool_decide (prefix = "") || has_prefix path prefix then <[path := true]> m else m)
        objects ∅ in
      st_ret (Ok (range pathsMap).*1))).

(* [internal/hsm/pkcs11_client.go:479-490] *)
Definition GetChecksum (path : string) : ST (PState W) (result string) :=
  st_try (ReadSecret path) (wrapf "failed to read secret for checksum")
    (λ data, st_ret (Ok (CalculateChecksum data))).

(* [internal/hsm/pkcs11_client.go:497-499] *)
Definition IsConnected : ST (PState W) bool :=
  (let* c := get_client in st_ret (p_connected c))%go.

(* [internal/hsm/pkcs11_client.go:502-539] *)
Definition ChangePIN (oldPIN newPIN : string) : ST (PState W) (result unit) :=
  if_connected (λ c,
    if bool_decide (oldPIN = "") then st_ret (Err (errorf "old PIN cannot be empty"))
    else if bool_decide (newPIN = "") then st_ret (Err (errorf "new PIN cannot be empty"))
    else if bool_decide (oldPIN = newPIN)
    then st_ret (Err (errorf "new PIN must be different from old PIN"))
    else
      st_try (on_world (changePINPKCS11 (p_session c) oldPIN newPIN)) (wrapf "failed to change HSM PIN") (λ _,
        (do! (match cfg_PINProvider (p_config c) with
              | Some provider =>
                  match InvalidateCacheAfterPINChange provider with
                  | Some invalidate => on_world invalidate
                  | None => st_ret ()
                  end
              | None => st_ret ()
              end) in st_ret (Ok ()))%go)).

(** [attempts] more attempts are allowed; the context is done when [cancelled] says so. *)
(* [internal/hsm/pkcs11_client.go:545-565 WithRetry] *)
Fixpoint retry_loop (operation : ST (PState W) (result unit)) (cancelled : ST (PState W) (option error)) (attempt : Z)
    (attempts : nat) (lastErr : error) : ST (PState W) (result unit) :=
  match attempts with
  | O => (let* c := get_client in
          st_ret (Err (wrapf ("operation failed after " +:+ go_itoa (RetryAttempts (p_config c)) +:+ " attempts")
                     lastErr)))%go
  | S attempts' =>
      (let* done := (if 0 <? attempt then cancelled else st_ret None) in
       match done with
       | Some ctxErr => st_ret (Err ctxErr)
       | None =>
           let* r := operation in
           match r with
           | Err err => retry_loop operation cancelled (attempt + 1) attempts' err
           | Ok _ => st_ret (Ok ())
           end
       end)%go
  end.

(* [internal/hsm/pkcs11_client.go:542-569] *)
Definition WithRetry (operation : ST (PState W) (result unit)) (cancelled : ST (PState W) (option error)) : ST (PState W) (result unit) :=
  (let* c := get_client in
   retry_loop operation cancelled 0 (Z.to_nat (RetryAttempts (p_config c) + 1)) (errorf "%!w(<nil>)"))%go.

(** The methods as an [hsm.Client].  A PIN provider acts on [W]; the one the client
    is initialised with is the argument [provider]. *)
Definition pkcs11_client (provider : option (PINProvider W)) : Client (PState W) :=
  mkClient
    (λ cfg, Initialize (mkConfig (PKCS11LibraryPath cfg) (SlotID cfg) (UseSlotID cfg) (TokenLabel cfg)
       (ConnectionTimeout cfg) (RetryAttempts cfg) (RetryDelay cfg) provider))
    Close GetInfo ReadSecret WriteSecret ReadMetadata DeleteSecret DeleteSecretKey ListSecrets GetChecksum
    IsConnected ChangePIN.
End Client.

(** ** What the library does to the data objects of the token

    [token_objs] are the data objects of the session's token, by handle, with label
    and value; [token_search] is the state of the search operation of the session:
    the handles still to be returned, [None] when no search is active. *)
Class TokenView (W : Type) := {
  token_objs : W → gmap Z (string * string);
  token_search : W → option (list Z);
}.

Section TokenLaws.
Context {W : Type} `{!TokenView W}.

Definition same_objs (w w' : W) : Prop := token_objs w' = token_objs w.

(** The handles a search with the given label filter has to enumerate. *)
Definition matching (label : option string) (w : W) (l : list Z) : Prop :=
  NoDup l ∧ ∀ h, h ∈ l ↔ ∃ lbl v, token_objs w !! h = Some (lbl, v) ∧
                          match label with Some x => lbl = x | None => True end.

Class TokenLaws (ctx : Ctx W) (s : Z) : Prop := {
  Init_objs t w : same_objs w (ctx_FindObjectsInit ctx s t w).2;
  Init_class w w' : ctx_FindObjectsInit ctx s [CKA_CLASS_DATA] w = (Ok (), w') →
    ∃ l, token_search w' = Some l ∧ matching None w l;
  Init_label x w w' : ctx_FindObjectsInit ctx s [CKA_CLASS_DATA; CKA_LABEL x] w = (Ok (), w') →
    ∃ l, token_search w' = Some l ∧ matching (Some x) w l;
  Find_objs n w : same_objs w (ctx_FindObjects ctx s n w).2;
  Find_Ok n w hs w' l : token_search w = Some l → ctx_FindObjects ctx s n w = (Ok hs, w') →
    hs = take n l ∧ token_search w' = Some (drop n l);
  Final_objs w : same_objs w (ctx_FindObjectsFinal ctx s w).2;
  Final_Ok w w' : ctx_FindObjectsFinal ctx s w = (Ok (), w') → token_search w' = None;
  Label_objs h w : same_objs w (ctx_GetLabel ctx s h w).2 ∧
    token_search (ctx_GetLabel ctx s h w).2 = token_search w;
  Label_Ok h w w' l : ctx_GetLabel ctx s h w = (Ok l, w') →
    ∃ lbl v, token_objs w !! h = Some (lbl, v) ∧ l = [lbl];
  LabelValue_objs h w : same_objs w (ctx_GetLabelValue ctx s h w).2 ∧
    token_search (ctx_GetLabelValue ctx s h w).2 = token_search w;
  LabelValue_Ok h w w' l : ctx_GetLabelValue ctx s h w = (Ok l, w') →
    ∃ lbl v, token_objs w !! h = Some (lbl, v) ∧ l = [lbl; v];
  (** Objects are created and destroyed outside of a search only. *)
  Create_Err t w e w' : token_search w = None → ctx_CreateObject ctx s t w = (Err e, w') →
    same_objs w w' ∧ token_search w' = None;
  Create_Ok label value w h w' : token_search w = None →
    ctx_CreateObject ctx s (object_template label value) w = (Ok h, w') →
    token_objs w !! h = None ∧ token_objs w' = <[h := (label, value)]> (token_objs w) ∧
    token_search w' = None;
  Destroy_Err h w e w' : token_search w = None → ctx_DestroyObject ctx s h w = (Err e, w') →
    same_objs w w' ∧ token_search w' = None;
  Destroy_Ok h w w' : token_search w = None → ctx_DestroyObject ctx s h w = (Ok (), w') →
    token_objs w' = delete h (token_objs w) ∧ token_search w' = None;
}.

(** A token on which searches and attribute reads do not fail. *)
Class Responsive (ctx : Ctx W) (s : Z) : Prop := {
  Init_responds w : token_search w = None → is_Ok (ctx_FindObjectsInit ctx s [CKA_CLASS_DATA] w).1 = true;
  Find_responds n w : is_Some (token_search w) → is_Ok (ctx_FindObjects ctx s n w).1 = true;
  Final_responds w : is_Some (token_search w) → is_Ok (ctx_FindObjectsFinal ctx s w).1 = true;
  Label_responds h w : is_Some (token_objs w !! h) → is_Ok (ctx_GetLabel ctx s h w).1 = true;
  LabelValue_responds h w : is_Some (token_objs w !! h) → is_Ok (ctx_GetLabelValue ctx s h w).1 = true;
}.

#[global] Instance same_objs_PreOrder : PreOrder same_objs.
Proof. split; [done|]. unfold same_objs. intros w1 w2 w3 -> ->. done. Qed.

Context (ctx : Ctx W) (s : Z) `{!TokenLaws ctx s}.

(** ** Lemmas: searching *)

(** The objects kept by [read_objects] are those of the token that pass the filter. *)
Definition wanted (path : string) (w : W) (o : pkcs11Object) : Prop :=
  token_objs w !! obj_Handle o = Some (obj_Label o, obj_Value o) ∧ obj_Label o ≠ "" ∧
  (path = "" ∨ has_prefix (obj_Label o) path = true).

Lemma read_objects_spec path slot objs acc w0 w r w' :
  same_objs w0 w → read_objects ctx (mkSession ctx s slot) path objs acc w = (r, w') →
  same_objs w0 w' ∧ token_search w' = token_search w ∧
  ∃ found, r = acc ++ found ∧ sublist (map obj_Handle found) objs ∧
    (∀ o, o ∈ found → wanted path w0 o) ∧
    (Responsive ctx s → ∀ o, wanted path w0 o → obj_Handle o ∈ objs → o ∈ found).
Proof.
  revert acc w. induction objs as [|h objs IH]; intros acc w Hw; cbn [read_objects].
  { unfold st_ret. intros [= <- <-]. split_and!; [done|done|]. exists [].
    rewrite app_nil_r. split_and!; [done|done|set_solver|set_solver]. }
  unfold st_bind. destruct (LabelValue_objs h w) as [Hso Hss].
  pose proof (LabelValue_Ok (s := s) (ctx := ctx) h w) as Hok.
  pose proof (λ H : Responsive ctx s, LabelValue_responds (s := s) (ctx := ctx) h w) as Hresp.
  cbn [se_session]. destruct (ctx_GetLabelValue ctx s h w) as [rl w1]. simpl in Hso, Hss, Hresp.
  assert (same_objs w0 w1) as Hw1 by by etrans.
  assert (∀ (P : Prop), (Responsive ctx s → ∀ o, wanted path w0 o → obj_Handle o = h → False) →
    read_objects ctx (mkSession ctx s slot) path objs acc w1 = (r, w') →
    same_objs w0 w' ∧ token_search w' = token_search w ∧
    ∃ found, r = acc ++ found ∧ sublist (map obj_Handle found) (h :: objs) ∧
      (∀ o, o ∈ found → wanted path w0 o) ∧
      (Responsive ctx s → ∀ o, wanted path w0 o → obj_Handle o ∈ h :: objs → o ∈ found)) as Hskip.
  { intros _ Hno Hrest. destruct (IH _ _ Hw1 Hrest) as (H1 & H2 & found & H3 & H4 & H5 & H6).
    split_and!; [done|congruence|]. exists found. split_and!; [done|by constructor|done|].
    intros Hr o Ho [Heq|Hin]%elem_of_cons; [|by apply H6].
    exfalso. by apply (Hno Hr o). }
  destruct rl as [l|e].
  2:{ apply (Hskip True). intros Hr o (Ho & _ & _) Heq.
      specialize (Hresp Hr). rewrite <-Heq, Hw, Ho in Hresp. discriminate Hresp. by eexists. }
  destruct (Hok w1 l eq_refl) as (lbl & v & Hlv & ->).
  assert (∀ o, token_objs w0 !! obj_Handle o = Some (obj_Label o, obj_Value o) → obj_Handle o = h →
    o = mkObject lbl v h) as Huniq.
  { intros [ol ov oh]; simpl. intros Ho ->. rewrite <-Hw, Hlv in Ho. by injection Ho as -> ->. }
  case_bool_decide as Hl.
  { apply (Hskip True). intros _ o (Ho & Hne & _) Heq. apply Hne. by rewrite (Huniq o Ho Heq). }
  destruct (bool_decide (path ≠ "") && negb (has_prefix lbl path)) eqn:Ep.
  { apply (Hskip True). intros _ o (Ho & _ & Hpre) Heq. rewrite (Huniq o Ho Heq) in Hpre. simpl in Hpre.
    apply andb_prop in Ep as [Ep1%bool_decide_eq_true Ep2%negb_true_iff]. destruct Hpre; congruence. }
  intros Hrest. destruct (IH _ _ Hw1 Hrest) as (H1 & H2 & found & H3 & H4 & H5 & H6).
  split_and!; [done|congruence|]. exists (mkObject lbl v h :: found).
  assert (wanted path w0 (mkObject lbl v h)) as Hwant.
  { split_and!; simpl; [by rewrite <-Hw|done|].
    apply andb_false_iff in Ep as [Ep|Ep%negb_false_iff]; [left|by right].
    by apply bool_decide_eq_false, dec_stable in Ep. }
  split_and!.
  - by rewrite H3, <-app_assoc.
  - simpl. by constructor.
  - intros o [->|Ho]%elem_of_cons; [done|by apply H5].
  - intros Hr o Ho [Heq|Hin]%elem_of_cons; [|right; by apply H6].
    rewrite (Huniq o (proj1 Ho) Heq). by left.
Qed.

Lemma matching_length w l : matching None w l → length l = size (token_objs w).
Proof.
  intros [Hnd Hl]. rewrite <-length_map_to_list, <-(length_fmap fst).
  apply Permutation_length, NoDup_Permutation; [done|apply NoDup_fst_map_to_list|].
  intros h. rewrite Hl, list_elem_of_fmap. split.
  - intros (lbl & v & Hh & _). exists (h, (lbl, v)). by rewrite elem_of_map_to_list.
  - intros ([h' [lbl v]] & -> & Hh%elem_of_map_to_list). by exists lbl, v.
Qed.

(** The steps that open a search over all data objects. *)
Lemma open_search w rf w' :
  (∃ w1, ctx_FindObjectsInit ctx s [CKA_CLASS_DATA] w = (Ok (), w1) ∧
         ctx_FindObjects ctx s 100 w1 = (rf, w')) →
  same_objs w w' ∧ ∀ hs, rf = Ok hs →
    is_Some (token_search w') ∧ NoDup hs ∧
    (∀ h, h ∈ hs → is_Some (token_objs w !! h)) ∧
    ((size (token_objs w) ≤ 100)%nat → ∀ h, is_Some (token_objs w !! h) → h ∈ hs).
Proof.
  intros (w1 & Hi & Hf). pose proof (Init_objs [CKA_CLASS_DATA] w) as Ho1. rewrite Hi in Ho1. simpl in Ho1.
  pose proof (Find_objs 100 w1) as Ho2. rewrite Hf in Ho2. simpl in Ho2.
  destruct (Init_class _ _ Hi) as (l & Hl & Hm). pose proof (matching_length _ _ Hm) as Hlen.
  destruct Hm as [Hnd Hin]. split; [by etrans|]. intros hs ->.
  destruct (Find_Ok _ _ _ _ _ Hl Hf) as [-> Hs]. split_and!.
  - by eexists.
  - eapply sublist_NoDup; [exact Hnd|apply sublist_take].
  - intros h Hh. assert (h ∈ l) as (lbl & v & Hlv & _)%Hin
      by (rewrite <-(take_drop 100 l); apply elem_of_app; by left). by eexists.
  - intros Hsz h [[lbl v] Hh]. rewrite take_ge by lia. apply Hin. by exists lbl, v.
Qed.

Lemma findObjects_spec slot path w r w' :
  findObjectsPKCS11 (Some (mkSession ctx s slot)) path w = (r, w') →
  same_objs w w' ∧
  ∀ os, r = Ok os →
    token_search w' = None ∧ NoDup (map obj_Handle os) ∧ (∀ o, o ∈ os → wanted path w o) ∧
    (Responsive ctx s → (size (token_objs w) ≤ 100)%nat → ∀ o, wanted path w o → o ∈ os).
Proof.
  unfold findObjectsPKCS11, with_session, st_try. cbn [se_ctx se_session]. unfold st_bind at 1.
  destruct (ctx_FindObjectsInit ctx s [CKA_CLASS_DATA] w) as [[[]|e] w1] eqn:Hi.
  2:{ pose proof (Init_objs [CKA_CLASS_DATA] w) as Ho. rewrite Hi in Ho. unfold st_ret. by intros [= <- <-]. }
  unfold st_bind at 1. destruct (ctx_FindObjects ctx s 100 w1) as [rf w2] eqn:Hf.
  destruct (open_search w rf w2) as [Ho2 Hs]; [by eauto|]. destruct rf as [hs|e].
  2:{ unfold st_bind. pose proof (Final_objs w2) as Ho3.
      destruct (ctx_FindObjectsFinal ctx s w2) as [rr w3]. unfold st_ret. intros [= <- <-].
      split; [by etrans|done]. }
  destruct (Hs hs eq_refl) as (_ & Hnd & _ & Hall). unfold st_bind at 1.
  pose proof (Final_objs w2) as Ho3. pose proof (Final_Ok w2) as Hfin.
  destruct (ctx_FindObjectsFinal ctx s w2) as [[[]|e] w3]; simpl in Ho3.
  2:{ unfold st_ret. intros [= <- <-]. split; [by etrans|done]. }
  unfold st_bind. destruct (read_objects ctx (mkSession ctx s slot) path hs [] w3) as [os w4] eqn:Hr.
  apply (read_objects_spec path slot hs [] w) in Hr as (Ho4 & Hs4 & found & -> & Hsub & Hw & Hc);
    [|by repeat (etrans; [eassumption|])].
  unfold st_ret. intros [= <- <-]. split; [done|]. intros os [= <-]. simpl. split_and!.
  - rewrite Hs4. by apply Hfin.
  - by eapply sublist_NoDup.
  - done.
  - intros Hr Hsz o Ho. apply Hc; [done|done|]. apply Hall; [done|]. destruct Ho as [Ho _]. by eexists.
Qed.

(** ** Lemmas: deleting by prefix *)
Definition under (path : string) (lv : string * string) : Prop := lv.1 ≠ "" ∧ has_prefix lv.1 path = true.

Lemma collect_matching_spec path slot objs acc w0 w r w' :
  same_objs w0 w → collect_matching ctx (mkSession ctx s slot) path objs acc w = (r, w') →
  same_objs w0 w' ∧ token_search w' = token_search w ∧
  ∃ found, r = acc ++ found ∧
    (∀ h l, (h, l) ∈ found → ∃ v, token_objs w0 !! h = Some (l, v) ∧ under path (l, v)) ∧
    (Responsive ctx s → ∀ h l v, token_objs w0 !! h = Some (l, v) → under path (l, v) → h ∈ objs →
       (h, l) ∈ found).
Proof.
  revert acc w. induction objs as [|h objs IH]; intros acc w Hw; cbn [collect_matching].
  { unfold st_ret. intros [= <- <-]. split_and!; [done|done|]. exists [].
    rewrite app_nil_r. split_and!; [done|set_solver|set_solver]. }
  unfold st_bind. destruct (Label_objs h w) as [Hso Hss]. pose proof (Label_Ok (s := s) (ctx := ctx) h w) as Hok.
  pose proof (λ H : Responsive ctx s, Label_responds (s := s) (ctx := ctx) h w) as Hresp.
  cbn [se_session]. destruct (ctx_GetLabel ctx s h w) as [rl w1]. simpl in Hso, Hss, Hresp.
  assert (same_objs w0 w1) as Hw1 by by etrans.
  assert ((Responsive ctx s → ∀ l v, token_objs w0 !! h = Some (l, v) → under path (l, v) → False) →
    collect_matching ctx (mkSession ctx s slot) path objs acc w1 = (r, w') →
    same_objs w0 w' ∧ token_search w' = token_search w ∧
    ∃ found, r = acc ++ found ∧
      (∀ h l, (h, l) ∈ found → ∃ v, token_objs w0 !! h = Some (l, v) ∧ under path (l, v)) ∧
      (Responsive ctx s → ∀ h' l v, token_objs w0 !! h' = Some (l, v) → under path (l, v) → h' ∈ h :: objs →
         (h', l) ∈ found)) as Hskip.
  { intros Hno Hrest. destruct (IH _ _ Hw1 Hrest) as (H1 & H2 & found & H3 & H4 & H5).
    split_and!; [done|congruence|]. exists found. split_and!; [done|done|].
    intros Hr h' l v Ho Hu [->|Hin]%elem_of_cons; [exfalso; by apply (Hno Hr l v)|by apply (H5 Hr _ _ v)]. }
  destruct rl as [l|e].
  2:{ apply Hskip. intros Hr l v Ho _. specialize (Hresp Hr). rewrite Hw, Ho in Hresp.
      discriminate Hresp. by eexists. }
  destruct (Hok w1 l eq_refl) as (lbl & v & Hlv & ->). rewrite Hw in Hlv.
  case_bool_decide as Hl; [apply Hskip; intros _ l v' Ho [Hne _]; simpl in Hne; congruence|].
  destruct (has_prefix lbl path) eqn:Ep; simpl.
  2:{ apply Hskip. intros _ l v' Ho [_ Hp]. simpl in Hp. congruence. }
  intros Hrest. destruct (IH _ _ Hw1 Hrest) as (H1 & H2 & found & H3 & H4 & H5).
  split_and!; [done|congruence|]. exists ((h, lbl) :: found). split_and!.
  - by rewrite H3, <-app_assoc.
  - intros h' l [[= -> ->]|Hin]%elem_of_cons; [by exists v|by apply H4].
  - intros Hr h' l v' Ho Hu [->|Hin]%elem_of_cons; [|right; by apply (H5 Hr _ _ v')].
    rewrite Hlv in Ho. injection Ho as <- <-. by left.
Qed.

Lemma destroy_objects_spec slot objs errs w r w' :
  token_search w = None →
  destroy_objects ctx (mkSession ctx s slot) objs errs w = (r, w') →
  token_search w' = None ∧
  (∀ h, h ∉ objs.*1 → token_objs w' !! h = token_objs w !! h) ∧
  (∀ h lv, token_objs w' !! h = Some lv → token_objs w !! h = Some lv) ∧
  (length errs ≤ length r)%nat ∧
  (length r = length errs → ∀ h, h ∈ objs.*1 → token_objs w' !! h = None).
Proof.
  revert errs w. induction objs as [|[h l] objs IH]; intros errs w Hs; cbn [destroy_objects].
  { unfold st_ret. intros [= <- <-]. split_and!; [done|done|done|lia|set_solver]. }
  unfold st_bind. cbn [se_session]. destruct (ctx_DestroyObject ctx s h w) as [[[]|e] w1] eqn:E.
  - destruct (Destroy_Ok _ _ _ Hs E) as [Ho Hs1]. intros Hrest.
    destruct (IH _ _ Hs1 Hrest) as (H1 & H2 & H3 & H4 & H5). split_and!; [done| | |done|].
    + intros h'. rewrite fmap_cons, not_elem_of_cons. simpl. intros [Hne Hn].
      rewrite H2 by done. by rewrite Ho, lookup_delete_ne.
    + intros h' lv Hh. apply H3 in Hh. rewrite Ho in Hh. by apply lookup_delete_Some in Hh as [_ ?].
    + intros Hl h'. rewrite fmap_cons, elem_of_cons. simpl. intros [->|Hin]; [|by apply H5].
      destruct (token_objs w' !! h) as [lv|] eqn:Eh; [|done]. apply H3 in Eh.
      by rewrite Ho, lookup_delete_eq in Eh.
  - destruct (Destroy_Err _ _ _ _ Hs E) as [Ho Hs1]. intros Hrest.
    destruct (IH _ _ Hs1 Hrest) as (H1 & H2 & H3 & H4 & H5). rewrite length_app in H4. simpl in H4.
    split_and!; [done| | |lia|lia].
    + intros h'. rewrite fmap_cons, not_elem_of_cons. simpl. intros [Hne Hn]. rewrite H2 by done. by rewrite Ho.
    + intros h' lv Hh. apply H3 in Hh. by rewrite Ho in Hh.
Qed.

(** Nothing appears, nothing but what is under [path] disappears, and on success
    the session has left the search mode; on a responsive token with at most 100
    objects nothing under [path] is left. *)
Definition delete_post (path : string) (w : W) (r : result unit) (w' : W) : Prop :=
  (∀ h lv, token_objs w' !! h = Some lv → token_objs w !! h = Some lv) ∧
  (∀ h lv, token_objs w !! h = Some lv → ¬ under path lv → token_objs w' !! h = Some lv) ∧
  (r = Ok () → token_search w' = None ∧
     (Responsive ctx s → (size (token_objs w) ≤ 100)%nat →
      ∀ h lv, token_objs w' !! h = Some lv → ¬ under path lv)).

Lemma deleteSecretObjects_spec slot path w r w' :
  deleteSecretObjectsPKCS11 (Some (mkSession ctx s slot)) path w = (r, w') →
  delete_post path w r w'.
Proof.
  unfold deleteSecretObjectsPKCS11, with_session, st_try. cbn [se_ctx se_session]. unfold st_bind at 1.
  assert (∀ w1 r', same_objs w w1 → (r' : result unit, w1) = (r, w') → r' ≠ Ok () →
    delete_post path w r w') as Hfail.
  { intros w1 r' Ho [= <- <-] Hne. unfold delete_post. rewrite Ho. done. }
  destruct (ctx_FindObjectsInit ctx s [CKA_CLASS_DATA] w) as [[[]|e] w1] eqn:Hi.
  2:{ pose proof (Init_objs [CKA_CLASS_DATA] w) as Ho. rewrite Hi in Ho. unfold st_ret. intros Heq. by eapply Hfail. }
  unfold st_bind at 1. destruct (ctx_FindObjects ctx s 100 w1) as [rf w2] eqn:Hf.
  destruct (open_search w rf w2) as [Ho2 Hs]; [by eauto|]. destruct rf as [hs|e].
  2:{ unfold st_bind. pose proof (Final_objs w2) as Ho3.
      destruct (ctx_FindObjectsFinal ctx s w2) as [rr w3]. unfold st_ret. intros Heq.
      eapply Hfail; [|exact Heq|done]. by etrans. }
  destruct (Hs hs eq_refl) as (_ & Hnd & _ & Hall). unfold st_bind at 1.
  destruct (collect_matching ctx (mkSession ctx s slot) path hs [] w2) as [todel w3] eqn:Hc.
  apply (collect_matching_spec path slot hs [] w) in Hc as (Ho3 & _ & found & -> & Hf1 & Hf2); [|done].
  unfold st_bind at 1. pose proof (Final_objs w3) as Ho4. pose proof (Final_Ok w3) as Hfin.
  destruct (ctx_FindObjectsFinal ctx s w3) as [[[]|e] w4]; simpl in Ho4.
  2:{ unfold st_ret. intros Heq. eapply Hfail; [|exact Heq|done]. by etrans. }
  specialize (Hfin w4 eq_refl). assert (same_objs w w4) as Ho by by etrans.
  unfold st_bind. simpl app. destruct (destroy_objects ctx (mkSession ctx s slot) found [] w4) as [errs w5] eqn:Hd.
  apply destroy_objects_spec in Hd as (H1 & H2 & H3 & _ & H5); [|done]. rewrite Ho in H2, H3. simpl in H5.
  assert (w' = w5 ∧ (r = Ok () → errs = []) → 
    delete_post path w r w') as Hdone.
  { intros [-> He]. split_and!; [done| |].
    - intros h lv Hh Hu. rewrite H2; [done|]. intros Hin. apply list_elem_of_fmap in Hin as ([h' l] & -> & Hin).
      destruct (Hf1 _ _ Hin) as (v & Hv & Huv). simpl in Hh. assert (lv = (l, v)) as -> by congruence. done.
    - intros Hr. split; [done|]. intros Hresp Hsz h [l v] Hh Hu.
      assert ((h, l) ∈ found) as Hin.
      { apply (Hf2 Hresp h l v); [by apply H3|done|]. apply Hall; [done|]. apply H3 in Hh. by eexists. }
      rewrite (H5 ltac:(by rewrite (He Hr))) in Hh; [done|]. apply list_elem_of_fmap. by exists (h, l). }
  case_bool_decide as Eerr; unfold st_ret; intros [= <- <-]; apply Hdone; done.
Qed.

Lemma findObjects_responds slot path w :
  Responsive ctx s → token_search w = None →
  is_Ok (findObjectsPKCS11 (Some (mkSession ctx s slot)) path w).1 = true.
Proof.
  intros Hr Hs. unfold findObjectsPKCS11, with_session, st_try. cbn [se_ctx se_session]. unfold st_bind at 1.
  pose proof (Init_responds w Hs) as Hi.
  destruct (ctx_FindObjectsInit ctx s [CKA_CLASS_DATA] w) as [[[]|e] w1] eqn:E1; [|done].
  destruct (Init_class _ _ E1) as (l & Hl & _). unfold st_bind at 1.
  pose proof (Find_responds 100 w1 ltac:(by eexists)) as Hf.
  destruct (ctx_FindObjects ctx s 100 w1) as [[hs|e] w2] eqn:E2; [|done].
  destruct (Find_Ok _ _ _ _ _ Hl E2) as [_ Hl2]. unfold st_bind at 1.
  pose proof (Final_responds w2 ltac:(by eexists)) as Hn.
  destruct (ctx_FindObjectsFinal ctx s w2) as [[[]|e] w3] eqn:E3; [|done].
  unfold st_bind. by destruct (read_objects ctx (mkSession ctx s slot) path hs [] w3).
Qed.
End TokenLaws.

(** ** Lemmas: labels and keys *)
Lemma trim_prefix_self s : trim_prefix s s = "".
Proof. rewrite <-(str_app_nil_r s) at 1. apply trim_prefix_app. Qed.

Lemma key_label_default path : key_label path defaultKeyName = path.
Proof. done. Qed.

Lemma key_label_other path key : key ≠ defaultKeyName → key_label path key = path +:+ "/" +:+ key.
Proof. intros Hk. unfold key_label. by rewrite bool_decide_true. Qed.

(** The label of a key and the key of a label are inverse. *)
Lemma label_key_label path key : key ≠ "" → label_key path (key_label path key) = key.
Proof.
  intros Hk. unfold label_key. destruct (decide (key = defaultKeyName)) as [->|Hne].
  - by rewrite key_label_default, trim_prefix_self.
  - rewrite key_label_other, !trim_prefix_app by done. by rewrite bool_decide_false.
Qed.

Lemma key_label_prefix path key : has_prefix (key_label path key) path = true.
Proof.
  unfold key_label. case_bool_decide; [apply has_prefix_app|].
  rewrite <-(str_app_nil_r path) at 1. apply has_prefix_app.
Qed.

Lemma label_nonempty path l : path ≠ "" → has_prefix l path = true → l ≠ "".
Proof. intros Hp. destruct path, l; done. Qed.

(** The keys a secret can have: not empty, and no label that looks like metadata. *)
Definition keys_ok (path : string) (data : SecretData) : Prop :=
  map_Forall (λ k _, k ≠ "" ∧ has_suffix (key_label path k) metadataKeySuffix = false) data.

(** An object [ReadSecret] takes into account. *)
Definition counts (path : string) (o : pkcs11Object) : Prop :=
  has_prefix (obj_Label o) path = true ∧ has_suffix (obj_Label o) metadataKeySuffix = false.

Lemma collect_data_spec path objects :
  let r := collect_data path objects in
  (∀ k v, r.1 !! k = Some v → ∃ o, o ∈ objects ∧ counts path o ∧
     label_key path (obj_Label o) = k ∧ obj_Value o = v) ∧
  (∀ o, o ∈ objects → counts path o → is_Some (r.1 !! label_key path (obj_Label o))) ∧
  0 ≤ r.2 ∧ (r.2 = 0 ↔ ¬ ∃ o, o ∈ objects ∧ counts path o).
Proof.
  unfold collect_data. induction objects as [|o objects IH] using rev_ind.
  { simpl. split_and!; [done|set_solver|done|]. split; [|done]. intros _ (o & Ho & _). set_solver. }
  rewrite fold_left_app. cbn [fold_left].
  destruct (fold_left _ objects (∅, 0)) as [m n]. simpl in IH. destruct IH as (H1 & H2 & H3 & H4).
  assert (¬ counts path o →
    (∀ k v, m !! k = Some v → ∃ x, x ∈ objects ++ [o] ∧ counts path x ∧
       label_key path (obj_Label x) = k ∧ obj_Value x = v) ∧
    (∀ x, x ∈ objects ++ [o] → counts path x → is_Some (m !! label_key path (obj_Label x))) ∧
    0 ≤ n ∧ (n = 0 ↔ ¬ ∃ x, x ∈ objects ++ [o] ∧ counts path x)) as Hskip.
  { intros Hno. split_and!; [| |done|].
    - intros k v Hk. destruct (H1 k v Hk) as (x & Hx & ?). exists x. split; [set_solver|done].
    - intros x [Hx| ->%list_elem_of_singleton]%elem_of_app Hc; [by apply H2|done].
    - rewrite H4. split; intros Hn (x & Hx & Hc); apply Hn; exists x; [|set_solver].
      apply elem_of_app in Hx as [?| ->%list_elem_of_singleton]; done. }
  destruct (has_prefix (obj_Label o) path) eqn:Ep; simpl; [|apply Hskip; intros [??]; congruence].
  destruct (has_suffix (obj_Label o) metadataKeySuffix) eqn:Es; simpl; [apply Hskip; intros [??]; congruence|].
  split_and!; [| |lia|].
  - intros k v [[<- <-]|[_ Hk]]%lookup_insert_Some; [exists o; split; [set_solver|done]|].
    destruct (H1 k v Hk) as (x & Hx & ?). exists x. split; [set_solver|done].
  - intros x [Hx| ->%list_elem_of_singleton]%elem_of_app Hc; apply lookup_insert_is_Some';
      [right; by apply H2|by left].
  - split; [lia|]. intros Hn. destruct Hn. exists o. split; [set_solver|done].
Qed.

Section ClientLaws.
Context {W : Type} `{!TokenView W} `{MapOrder}.
Context (json_Marshal : SecretMetadata → result string).
Context (ctx : Ctx W) (s slot : Z) `{!TokenLaws ctx s}.

(** The client is connected through the session [s] of [ctx]. *)
Definition attached (c : PKCS11Client W) : Prop :=
  p_connected c = true ∧ p_session c = Some (mkSession ctx s slot).

(** One object more, with this label and value. *)
Definition one_more (label value : string) (w w' : W) : Prop :=
  ∃ h, token_objs w !! h = None ∧ token_objs w' = <[h := (label, value)]> (token_objs w).

Lemma create_and_cache_spec label value onerr c w r c' w' :
  attached c → token_search w = None →
  create_and_cache label value onerr (c, w) = (r, (c', w')) →
  attached c' ∧ token_search w' = None ∧
  (r = Ok () → one_more label value w w') ∧ (is_Ok r = false → same_objs w w').
Proof.
  intros [Hc Hse] Hs. unfold create_and_cache, get_client, on_world, createObjectPKCS11, with_session, put_client,
    st_try, st_bind, st_ret. simpl. rewrite Hse. cbn [se_ctx se_session].
  destruct (ctx_CreateObject ctx s (object_template label value) w) as [[h|e] w1] eqn:E; intros [= <- <- <-].
  - destruct (Create_Ok _ _ _ _ _ Hs E) as (H1 & H2 & H3). split_and!; [done|done|by exists h|done].
  - destruct (Create_Err _ _ _ _ Hs E) as [H1 H2]. done.
Qed.

Lemma one_more_Some label value w w' h lv :
  one_more label value w w' → token_objs w !! h = Some lv → token_objs w' !! h = Some lv.
Proof. intros (h' & Hn & ->) Hh. rewrite lookup_insert_ne; [done|congruence]. Qed.

Lemma one_more_inv label value w w' h lv :
  one_more label value w w' → token_objs w' !! h = Some lv →
  token_objs w !! h = Some lv ∨ lv = (label, value).
Proof. intros (h' & Hn & ->) [[<- <-]|[_ Hh]]%lookup_insert_Some; auto. Qed.

Lemma one_more_has label value w w' : one_more label value w w' → ∃ h, token_objs w' !! h = Some (label, value).
Proof. intros (h' & Hn & ->). exists h'. by rewrite lookup_insert_eq. Qed.

Lemma create_objects_spec path kvs c w r c' w' :
  attached c → token_search w = None →
  create_objects path kvs (c, w) = (r, (c', w')) →
  attached c' ∧ token_search w' = None ∧
  (∀ h lv, token_objs w !! h = Some lv → token_objs w' !! h = Some lv) ∧
  (∀ h lv, token_objs w' !! h = Some lv → token_objs w !! h = Some lv ∨
     ∃ k v, (k, v) ∈ kvs ∧ lv = (key_label path k, v)) ∧
  (r = Ok () → ∀ k v, (k, v) ∈ kvs → ∃ h, token_objs w' !! h = Some (key_label path k, v)).
Proof.
  revert c w. induction kvs as [|[k v] kvs IH]; intros c w Ha Hs; cbn [create_objects].
  { unfold st_ret. intros [= <- <- <-]. split_and!; [done|done|done|by left|set_solver]. }
  unfold st_try at 1, st_bind.
  destruct (create_and_cache (key_label path k) v _ (c, w)) as [r1 [c1 w1]] eqn:E1.
  apply create_and_cache_spec in E1 as (Ha1 & Hs1 & Hok & Herr); [|done..].
  destruct r1 as [[]|e].
  - specialize (Hok eq_refl). intros Hrest. destruct (IH _ _ Ha1 Hs1 Hrest) as (H1 & H2 & H3 & H4 & H5).
    split_and!; [done|done| | |].
    + intros h lv Hh. apply H3. by eapply one_more_Some.
    + intros h lv Hh. destruct (H4 h lv Hh) as [Hw|(k' & v' & Hin & ->)].
      * destruct (one_more_inv _ _ _ _ _ _ Hok Hw) as [| ->]; [by left|]. right. exists k, v. set_solver.
      * right. exists k', v'. set_solver.
    + intros Hr k' v' [[= -> ->]|Hin]%elem_of_cons; [|by apply (H5 Hr)].
      destruct (one_more_has _ _ _ _ Hok) as [h Hh]. exists h. by apply H3.
  - unfold st_ret. intros [= <- <- <-]. specialize (Herr eq_refl). rewrite Herr.
    split_and!; [done|done|done|by left|done].
Qed.

(** What a successful write leaves on the token. *)
Lemma write_objects_spec c w path data md r c' w' :
  attached c → path ≠ "" →
  WriteSecret json_Marshal path data (Some md) (c, w) = (r, (c', w')) →
  (∀ h lv, token_objs w !! h = Some lv → ¬ under path lv → token_objs w' !! h = Some lv) ∧
  (∀ h lv, token_objs w' !! h = Some lv → ¬ under path lv → token_objs w !! h = Some lv) ∧
  (r = Ok () → attached c' ∧ token_search w' = None ∧
    ∃ j, json_Marshal md = Ok j ∧
    (∃ h, token_objs w' !! h = Some (path +:+ metadataKeySuffix, j)) ∧
    (∀ k v, data !! k = Some v → ∃ h, token_objs w' !! h = Some (key_label path k, v)) ∧
    (Responsive ctx s → (size (token_objs w) ≤ 100)%nat → ∀ h lv, token_objs w' !! h = Some lv → under path lv →
       lv = (path +:+ metadataKeySuffix, j) ∨ ∃ k v, data !! k = Some v ∧ lv = (key_label path k, v))).
Proof.
  intros Ha Hp. pose proof Ha as [Hc Hse].
  unfold WriteSecret, if_connected, get_client, on_world, st_try. unfold st_bind at 1. cbn [fst snd].
  rewrite Hc. cbn [negb]. unfold st_bind at 1. rewrite Hse. cbn [fst snd].
  destruct (deleteSecretObjectsPKCS11 _ path w) as [rd w1] eqn:Ed.
  apply deleteSecretObjects_spec in Ed as (Hsub & Hkeep & Hdel); [|done]. destruct rd as [[]|e].
  2:{ unfold st_ret. intros [= <- <- <-]. split_and!; [done|by intros h lv Hh _; apply Hsub|done]. }
  destruct (Hdel eq_refl) as [Hs1 Hgone]. unfold st_bind at 1.
  destruct (create_objects path (range data) (c, w1)) as [rc [c2 w2]] eqn:Ec.
  apply create_objects_spec in Ec as (Ha2 & Hs2 & Hmono & Hinv & Hall); [|done..].
  assert (∀ h lv, token_objs w2 !! h = Some lv → ¬ under path lv → token_objs w !! h = Some lv) as Hback.
  { intros h lv Hh Hu. destruct (Hinv h lv Hh) as [?|(k & v & _ & ->)]; [by apply Hsub|].
    destruct Hu. split; [apply (label_nonempty path); [done|]|]; apply key_label_prefix. }
  destruct rc as [[]|e].
  2:{ unfold st_ret. intros [= <- <- <-]. split_and!; [intros h lv ??; apply Hmono; by apply Hkeep|done|done]. }
  specialize (Hall eq_refl). unfold writeMetadata. destruct (json_Marshal md) as [j|e] eqn:Ej.
  2:{ unfold st_ret. intros [= <- <- <-]. split_and!; [intros h lv ??; apply Hmono; by apply Hkeep|done|done]. }
  intros Em. apply create_and_cache_spec in Em as (Ha3 & Hs3 & Hok & Herr); [|done..].
  destruct (is_Ok r) eqn:Er.
  2:{ specialize (Herr eq_refl). rewrite Herr. split_and!; [intros h lv ??; apply Hmono; by apply Hkeep|done|by intros ->]. }
  destruct r as [[]|]; [|done]. specialize (Hok eq_refl).
  assert (under path (path +:+ metadataKeySuffix, j)) as Hmu.
  { split; [by destruct path|apply has_prefix_app]. }
  split_and!.
  - intros h lv Hh Hu. eapply one_more_Some; [done|]. apply Hmono. by apply Hkeep.
  - intros h lv Hh Hu. destruct (one_more_inv _ _ _ _ _ _ Hok Hh) as [?| ->]; [by apply Hback|done].
  - intros _. split_and!; [done|done|]. exists j. split_and!; [done|by eapply one_more_has| |].
    + intros k v Hk. destruct (Hall k v) as [h Hh]; [by apply elem_of_range|]. exists h. by eapply one_more_Some.
    + intros Hr Hsz h lv Hh Hu. destruct (one_more_inv _ _ _ _ _ _ Hok Hh) as [Hh2| ->]; [right|by left].
      destruct (Hinv h lv Hh2) as [Hw|(k & v & Hin%elem_of_range & ->)]; [|by exists k, v].
      exfalso. by apply (Hgone Hr Hsz h lv).
Qed.

(** The search of a read: on a responsive token with at most 100 objects it finds
    exactly the wanted ones. *)
Lemma find_exact path w :
  Responsive ctx s → token_search w = None → (size (token_objs w) ≤ 100)%nat →
  ∃ os w', findObjectsPKCS11 (Some (mkSession ctx s slot)) path w = (Ok os, w') ∧
    ∀ o, o ∈ os ↔ wanted path w o.
Proof.
  intros Hr Hs Hsz. pose proof (findObjects_responds ctx s slot path w Hr Hs) as Hok.
  destruct (findObjectsPKCS11 _ path w) as [[os|e] w'] eqn:E; [|done].
  apply findObjects_spec in E as [_ Hf]; [|done]. destruct (Hf os eq_refl) as (_ & _ & H1 & H2).
  exists os, w'. split; [done|]. intros o. split; [apply H1|by apply H2].
Qed.

Lemma wanted_under path w o :
  path ≠ "" → wanted path w o ↔
  token_objs w !! obj_Handle o = Some (obj_Label o, obj_Value o) ∧ under path (obj_Label o, obj_Value o).
Proof. intros Hp. unfold wanted, under. simpl. naive_solver. Qed.

Lemma ReadSecret_eq c w path :
  attached c → Responsive ctx s → token_search w = None → (size (token_objs w) ≤ 100)%nat →
  ∃ os, (∀ o, o ∈ os ↔ wanted path w o) ∧
    (ReadSecret path (c, w)).1 =
    let d := collect_data path os in
    if d.2 =? 0 then Err (errorf ("secret not found at path: " +:+ path))
    else if bool_decide (d.1 = ∅)
    then Err (errorf ("no valid secret data found at path: " +:+ path +:+ " (found " +:+ go_itoa d.2 +:+
           " objects but no data)"))
    else Ok d.1.
Proof.
  intros [Hc Hse] Hr Hs Hsz. destruct (find_exact path w Hr Hs Hsz) as (os & w' & E & Hos). exists os. split; [done|].
  unfold ReadSecret, if_connected, get_client, on_world, st_try, st_bind. cbn [fst snd].
  rewrite Hc, Hse. cbn [negb fst snd]. rewrite E. destruct (collect_data path os) as [d n]. cbn [fst snd].
  destruct (n =? 0); [done|]. by case_bool_decide.
Qed.

(** No object counts for [path]: the read fails. *)
Lemma ReadSecret_absent c w path :
  attached c → Responsive ctx s → token_search w = None → (size (token_objs w) ≤ 100)%nat → path ≠ "" →
  (∀ h lv, token_objs w !! h = Some lv → under path lv → has_suffix lv.1 metadataKeySuffix = true) →
  (ReadSecret path (c, w)).1 = Err (errorf ("secret not found at path: " +:+ path)).
Proof.
  intros Ha Hr Hs Hsz Hp Hno. destruct (ReadSecret_eq c w path Ha Hr Hs Hsz) as (os & Hos & ->).
  destruct (collect_data_spec path os) as (_ & _ & _ & Hn). cbv zeta.
  rewrite (proj2 (Z.eqb_eq _ _)); [done|]. apply Hn. intros (o & Ho & _ & Hsuf).
  apply Hos, wanted_under in Ho as [Ho Hu]; [|done]. pose proof (Hno _ _ Ho Hu). simpl in *. congruence.
Qed.

(** The objects that count are those of [data]: they are read as [data]. *)
Lemma collect_exact w path os data :
  (∀ o, o ∈ os ↔ wanted path w o) → path ≠ "" → data ≠ ∅ → keys_ok path data →
  (∀ h lv, token_objs w !! h = Some lv → under path lv → has_suffix lv.1 metadataKeySuffix = true ∨
     ∃ k v, data !! k = Some v ∧ lv = (key_label path k, v)) →
  (∀ k v, data !! k = Some v → ∃ h, token_objs w !! h = Some (key_label path k, v)) →
  (collect_data path os).1 = data ∧ (collect_data path os).2 ≠ 0.
Proof.
  intros Hos Hp Hne Hk Hin Hall. destruct (collect_data_spec path os) as (H1 & H2 & _ & Hn).
  destruct (collect_data path os) as [d n]. cbn [fst snd] in *. unfold SecretData in *.
  assert (∀ k v, data !! k = Some v → ∃ o, o ∈ os ∧ counts path o ∧ label_key path (obj_Label o) = k) as Hobj.
  { intros k v Hkv. destruct (Hall k v Hkv) as [h Hh]. destruct (Hk k v Hkv) as [Hk1 Hk2].
    exists (mkObject (key_label path k) v h). split_and!.
    - apply Hos, wanted_under; [done|]. split; [done|].
      split; [apply (label_nonempty path); [done|]|]; apply key_label_prefix.
    - split; [apply key_label_prefix|done].
    - by apply label_key_label. }
  split.
  - apply map_eq. intros k. destruct (data !! k) as [v|] eqn:Ek.
    + destruct (Hobj k v Ek) as (o & Ho & Hco & Hlk). destruct (H2 o Ho Hco) as [v' Hv'].
      rewrite Hlk in Hv'. rewrite Hv'. destruct (H1 k v' Hv') as (o' & Ho' & [Hp' Hs'] & Hlk' & <-).
      apply Hos, wanted_under in Ho' as [Ho' Hu']; [|done].
      destruct (Hin _ _ Ho' Hu') as [Hsuf|(k2 & v2 & Hk2 & [= He1 He2])]; [simpl in Hsuf; congruence|].
      rewrite He1, label_key_label in Hlk' by by eapply Hk. congruence.
    + destruct (d !! k) as [v|] eqn:Ev; [|done].
      destruct (H1 k v Ev) as (o & Ho & [Hp' Hs'] & Hlk & <-).
      apply Hos, wanted_under in Ho as [Ho Hu]; [|done].
      destruct (Hin _ _ Ho Hu) as [Hsuf|(k2 & v2 & Hk2 & [= He1 He2])]; [simpl in Hsuf; congruence|].
      rewrite He1, label_key_label in Hlk by by eapply Hk. congruence.
  - intros Hz. apply Hn in Hz. apply map_choose in Hne as (k & v & Hkv).
    destruct (Hobj k v Hkv) as (o & Ho & Hco & _). apply Hz. by exists o.
Qed.

(** The read returns [data]. *)
Lemma ReadSecret_exact c w path data :
  attached c → Responsive ctx s → token_search w = None → (size (token_objs w) ≤ 100)%nat → path ≠ "" →
  data ≠ ∅ → keys_ok path data →
  (∀ h lv, token_objs w !! h = Some lv → under path lv → has_suffix lv.1 metadataKeySuffix = true ∨
     ∃ k v, data !! k = Some v ∧ lv = (key_label path k, v)) →
  (∀ k v, data !! k = Some v → ∃ h, token_objs w !! h = Some (key_label path k, v)) →
  (ReadSecret path (c, w)).1 = Ok data.
Proof.
  intros Ha Hr Hs Hsz Hp Hne Hk Hin Hall. destruct (ReadSecret_eq c w path Ha Hr Hs Hsz) as (os & Hos & ->).
  destruct (collect_exact w path os data Hos Hp Hne Hk Hin Hall) as [Hd Hn]. cbv zeta.
  rewrite (proj2 (Z.eqb_neq _ _)), Hd by done. by rewrite bool_decide_false.
Qed.

Lemma ReadMetadata_exact (json_Unmarshal : string → result SecretMetadata) c w path j md :
  attached c → Responsive ctx s → token_search w = None → (size (token_objs w) ≤ 100)%nat → path ≠ "" →
  (∃ h, token_objs w !! h = Some (path +:+ metadataKeySuffix, j)) →
  (∀ h v, token_objs w !! h = Some (path +:+ metadataKeySuffix, v) → v = j) →
  json_Unmarshal j = Ok md →
  (ReadMetadata json_Unmarshal path (c, w)).1 = Ok (Some md).
Proof.
  intros [Hc Hse] Hr Hs Hsz Hp [h Hh] Huniq Hj.
  set (ml := path +:+ metadataKeySuffix) in *. assert (ml ≠ "") as Hml by (unfold ml; by destruct path).
  destruct (find_exact ml w Hr Hs Hsz) as (os & w' & E & Hos).
  unfold ReadMetadata, if_connected, get_client, on_world, st_try, st_bind. cbn [fst snd].
  rewrite Hc, Hse. cbn [negb fst snd]. fold ml. rewrite E.
  assert (mkObject ml j h ∈ os) as Hin.
  { apply Hos. split_and!; [done|done|right]. rewrite <-(str_app_nil_r ml) at 1. apply has_prefix_app. }
  destruct (List.find _ os) as [o|] eqn:Ef.
  - apply List.find_some in Ef as [Ho%list_elem_of_In Hl%bool_decide_eq_true].
    apply Hos in Ho as (Ho & _ & _). rewrite Hl in Ho. rewrite (Huniq _ _ Ho), Hj. done.
  - exfalso. apply list_elem_of_In in Hin. pose proof (List.find_none _ _ Ef _ Hin) as Hnone.
    simpl in Hnone. by rewrite bool_decide_true in Hnone.
Qed.

(** ** Properties *)

(** C9. Write then read: after a successful [WriteSecret] on a responsive token
    (at most 100 data objects), [ReadSecret] of the same path returns exactly the
    data written, whatever objects were there before, and [ReadMetadata] the
    metadata, if JSON decodes what it encoded.  Keys must be non-empty and must
    not give a label that ends like a metadata object's. *)
Theorem pkcs11_roundtrip (json_Unmarshal : string → result SecretMetadata) (c c' : PKCS11Client W)
    (w w' : W) (path : string) (data : SecretData) (md : SecretMetadata) :
  Responsive ctx s → attached c → path ≠ "" → data ≠ ∅ → keys_ok path data →
  (size (token_objs w) ≤ 100)%nat → (size (token_objs w') ≤ 100)%nat →
  (∀ j, json_Marshal md = Ok j → json_Unmarshal j = Ok md) →
  WriteSecret json_Marshal path data (Some md) (c, w) = (Ok (), (c', w')) →
  (ReadSecret path (c', w')).1 = Ok data ∧
  (ReadMetadata json_Unmarshal path (c', w')).1 = Ok (Some md).
Proof.
  intros Hr Ha Hp Hne Hk Hsz Hsz' Hjson Hw.
  apply write_objects_spec in Hw as (_ & _ & Hok); [|done..].
  destruct (Hok eq_refl) as (Ha' & Hs' & j & Hj & Hmd & Hall & Hinv). specialize (Hinv Hr Hsz). split.
  - apply ReadSecret_exact; try done. intros h lv Hh Hu.
    destruct (Hinv h lv Hh Hu) as [-> |?]; [left; apply has_suffix_app|by right].
  - apply (ReadMetadata_exact _ _ _ _ j); try done; [|by apply Hjson].
    intros h v Hh. assert (under path (path +:+ metadataKeySuffix, v)) as Hu
      by (split; [by destruct path|apply has_prefix_app]).
    destruct (Hinv h _ Hh Hu) as [[= ->]|(k & v' & Hkv & [= He ->])]; [done|].
    destruct (Hk k v' Hkv) as [_ Hsuf]. by rewrite <-He, has_suffix_app in Hsuf.
Qed.

(** A tombstone is invisible: writing empty data with (deletion) metadata
    succeeds and from then on [ReadSecret] reports the path as not found. *)
Theorem pkcs11_tombstone_not_found (c c' : PKCS11Client W) (w w' : W) (path : string) (md : SecretMetadata) :
  Responsive ctx s → attached c → path ≠ "" →
  (size (token_objs w) ≤ 100)%nat → (size (token_objs w') ≤ 100)%nat →
  WriteSecret json_Marshal path ∅ (Some md) (c, w) = (Ok (), (c', w')) →
  (ReadSecret path (c', w')).1 = Err (errorf ("secret not found at path: " +:+ path)).
Proof.
  intros Hr Ha Hp Hsz Hsz' Hw. apply write_objects_spec in Hw as (_ & _ & Hok); [|done..].
  destruct (Hok eq_refl) as (Ha' & Hs' & j & _ & _ & _ & Hinv).
  apply ReadSecret_absent; try done. intros h lv Hh Hu.
  destruct (Hinv Hr Hsz h lv Hh Hu) as [-> |(k & v & Hkv & _)]; [apply has_suffix_app|done].
Qed.

(** A write removes the secrets whose path extends its own: after a successful
    write of [path], a secret at [path2] that starts with [path] is gone, unless a
    label just written happens to start with [path2]. *)
Theorem pkcs11_write_removes_extensions (c c' : PKCS11Client W) (w w' : W) (path path2 : string)
    (data : SecretData) (md : SecretMetadata) :
  Responsive ctx s → attached c → path ≠ "" → has_prefix path2 path = true →
  (size (token_objs w) ≤ 100)%nat → (size (token_objs w') ≤ 100)%nat →
  map_Forall (λ k _, has_prefix (key_label path k) path2 = false) data →
  WriteSecret json_Marshal path data (Some md) (c, w) = (Ok (), (c', w')) →
  (ReadSecret path2 (c', w')).1 = Err (errorf ("secret not found at path: " +:+ path2)).
Proof.
  intros Hr Ha Hp Hpre Hsz Hsz' Hd Hw. apply write_objects_spec in Hw as (_ & _ & Hok); [|done..].
  destruct (Hok eq_refl) as (Ha' & Hs' & j & _ & _ & _ & Hinv).
  assert (path2 ≠ "") as Hp2 by (destruct path, path2; done).
  apply ReadSecret_absent; try done. intros h lv Hh [Hl Hu].
  assert (under path lv) as Hup.
  { split; [done|]. apply has_prefix_spec in Hpre as [r1 ->]. apply has_prefix_spec in Hu as [r2 ->].
    rewrite str_app_assoc. apply has_prefix_app. }
  destruct (Hinv Hr Hsz h lv Hh Hup) as [-> |(k & v & Hkv & ->)]; [apply has_suffix_app|].
  specialize (Hd k v Hkv). simpl in *. congruence.
Qed.

(** C10. Isolation: a write, successful or not, neither adds, changes nor removes
    an object whose label does not start with its path. *)
Theorem pkcs11_write_isolated (c : PKCS11Client W) (w : W) (path : string) (data : SecretData)
    (md : SecretMetadata) (h : Z) (label value : string) :
  attached c → path ≠ "" → has_prefix label path = false →
  token_objs (WriteSecret json_Marshal path data (Some md) (c, w)).2.2 !! h = Some (label, value) ↔
  token_objs w !! h = Some (label, value).
Proof.
  intros Ha Hp Hl. destruct (WriteSecret json_Marshal path data (Some md) (c, w)) as [r [c' w']] eqn:E.
  apply write_objects_spec in E as (H1 & H2 & _); [|done..]. simpl.
  assert (¬ under path (label, value)) as Hu by (intros [_ Hu]; simpl in Hu; congruence).
  split; [intros ?; by apply H2|intros ?; by apply H1].
Qed.
End ClientLaws.

(** ** Properties: token loss and provisioning safety *)
Section Presence.
Context {W : Type} `{MapOrder}.
Context (json_Marshal : SecretMetadata → result string).

(** Token loss is noticed: on a connected client, when the library's live
    query fails [GetInfo] fails, and it marks the client disconnected exactly when
    the code says the token is gone; when it succeeds the client is unchanged.
    Once disconnected, reads, writes and deletes all fail without calling the
    library. *)
Theorem GetInfo_detects_token_loss (c : PKCS11Client W) (se : Session W) (w : W) :
  p_connected c = true → p_session c = Some se →
  let '(r, (c', w')) := GetInfo (c, w) in
  match (ctx_GetTokenInfo (se_ctx se) (se_slot se) w).1 with
  | Ok _ => is_Ok r = true ∧ c' = c
  | Err e =>
      is_Ok r = false ∧
      p_connected c' = negb (isTokenLostError e || errors_Is e ErrTokenNotPresent) ∧
      (isTokenLostError e = true → ∀ path data md,
         ReadSecret path (c', w') = (Err (errorf "HSM not connected"), (c', w')) ∧
         WriteSecret json_Marshal path data md (c', w') = (Err (errorf "HSM not connected"), (c', w')) ∧
         DeleteSecret path (c', w') = (Err (errorf "HSM not connected"), (c', w')) ∧
         IsConnected (c', w') = (false, (c', w')))
  end.
Proof.
  intros Hc Hse. unfold GetInfo, if_connected, get_client, on_world, getTokenInfoPKCS11, with_session, st_bind.
  cbn [fst snd]. rewrite Hc, Hse. cbn [negb fst snd].
  destruct (ctx_GetTokenInfo (se_ctx se) (se_slot se) w) as [[ti|e] w1]; cbn [fst snd].
  - destruct (ctx_GetSlotInfo (se_ctx se) (se_slot se) w1) as [[si|e] w2]; unfold st_ret; cbn [fst snd]; done.
  - destruct (isTokenLostError e) eqn:El; unfold st_ret; cbn [fst snd errors_Is].
    + rewrite bool_decide_false, bool_decide_true by done. simpl. split_and!; [done|done|]. intros _ path data md.
      unfold ReadSecret, WriteSecret, DeleteSecret, IsConnected, if_connected, get_client, st_bind. done.
    + rewrite bool_decide_false by done. simpl. destruct (errors_Is e ErrTokenNotPresent); simpl; split_and!; done.
Qed.

(** The flags of a token without a user PIN. *)
Definition blank (info : Z → result CK_TOKEN_INFO) (slot : Z) : bool :=
  match info slot with
  | Ok ti => Z.land (ti_Flags ti) CKF_USER_PIN_INITIALIZED =? 0
  | Err _ => false
  end.

Lemma count_blank_spec (ctx : Ctx W) info slots n w :
  (∀ slot w, ctx_GetTokenInfo ctx slot w = (info slot, w)) →
  ∃ r, count_blank ctx slots n w = (r, w) ∧
    ∀ m, r = Ok m ↔ (∀ slot, slot ∈ slots → is_Ok (info slot) = true) ∧
                    m = n + Z.of_nat (length (filter (λ x, blank info x = true) slots)).
Proof.
  intros Hi. revert n. induction slots as [|x slots IH]; intros n; cbn [count_blank].
  { eexists. split; [done|]. intros m. simpl. rewrite Z.add_0_r. split; [intros [= <-]; set_solver|by intros [_ ->]]. }
  unfold st_bind. rewrite Hi. destruct (info x) as [ti|e] eqn:E.
  - destruct (IH (if Z.land (ti_Flags ti) CKF_USER_PIN_INITIALIZED =? 0 then n + 1 else n)) as (r & Hr & Hm).
    exists r. split; [done|]. intros m. rewrite Hm, filter_cons.
    assert (blank info x = (Z.land (ti_Flags ti) CKF_USER_PIN_INITIALIZED =? 0)) as Hb by (unfold blank; by rewrite E).
    assert ((∀ slot, slot ∈ x :: slots → is_Ok (info slot) = true) ↔
            (∀ slot, slot ∈ slots → is_Ok (info slot) = true)) as ->.
    { split; [set_solver|]. intros Hall y [Hy|Hy]%elem_of_cons; [by rewrite Hy, E|by apply Hall]. }
    destruct (Z.land (ti_Flags ti) CKF_USER_PIN_INITIALIZED =? 0); [rewrite decide_True by done|rewrite decide_False by congruence];
      cbn [length]; split; intros [? ->]; (split; [done|lia]).
  - eexists. split; [done|]. intros m. split; [done|]. intros [Hall _].
    specialize (Hall x ltac:(by left)). by rewrite E in Hall.
Qed.

(** Fail closed: [IsTokenBlank] answers "blank" (safe to wipe and provision)
    if and only if the library could be opened, every slot's token could be read,
    and exactly one of them has no user PIN. *)
Theorem IsTokenBlank_fails_closed (New : string → ST W (option (Ctx W))) (config : Config W) (w : W)
    (ctx : Ctx W) (w1 w2 w3 : W) (ri : result unit) (rs : result (list Z)) (info : Z → result CK_TOKEN_INFO) :
  New (PKCS11LibraryPath config) w = (Some ctx, w1) → ctx_Initialize ctx w1 = (ri, w2) →
  ctx_GetSlotList ctx w2 = (rs, w3) → (∀ slot w, ctx_GetTokenInfo ctx slot w = (info slot, w)) →
  (IsTokenBlank New config w).1 = Ok true ↔
  PKCS11LibraryPath config ≠ "" ∧ is_Ok ri = true ∧
  ∃ slots, rs = Ok slots ∧ (∀ slot, slot ∈ slots → is_Ok (info slot) = true) ∧
    length (filter (λ x, blank info x = true) slots) = 1%nat.
Proof.
  intros H1 H2 H3 Hi. unfold IsTokenBlank. case_bool_decide as Hp; [naive_solver|].
  unfold isTokenBlankPKCS11, st_try, st_bind. rewrite H1, H2. destruct ri as [[]|e].
  2:{ destruct (ctx_Destroy ctx w2). naive_solver. }
  rewrite H3. destruct rs as [slots|e].
  2:{ unfold st_ret. destruct (teardown ctx w3). naive_solver. }
  destruct (count_blank_spec ctx info slots 0 w3 Hi) as (r & -> & Hr). destruct r as [m|e]; unfold st_ret.
  - destruct (teardown ctx w3). simpl. destruct (proj1 (Hr m) eq_refl) as [Hall ->]. split.
    + intros [= Hm%Z.eqb_eq]. split_and!; [done|done|]. exists slots. split_and!; [done|done|lia].
    + intros (_ & _ & sl & [= <-] & _ & Hl). by rewrite Hl.
  - destruct (teardown ctx w3). simpl. split; [done|]. intros (_ & _ & sl & [= <-] & Hall & _).
    by assert (Err e = Ok (0 + Z.of_nat (length (filter (λ x, blank info x = true) slots)))) by by apply Hr.
Qed.
End Presence.

(** ** A software token, and the witnesses *)
Module SoftToken.
Record Token := mkToken {
  tok_objs : gmap Z (string * string);
  tok_search : option (list Z);
}.

#[global] Instance token_view : TokenView Token :=
  {| token_objs := tok_objs; token_search := tok_search |}.

Definition operation_active : error := pkcs11_error 144 "pkcs11: 0x90: CKR_OPERATION_ACTIVE".
Definition not_initialized : error := pkcs11_error 145 "pkcs11: 0x91: CKR_OPERATION_NOT_INITIALIZED".
Definition handle_invalid : error := pkcs11_error 130 "pkcs11: 0x82: CKR_OBJECT_HANDLE_INVALID".

Fixpoint tmpl_label (t : list Attribute) : option string :=
  match t with [] => None | CKA_LABEL l :: _ => Some l | _ :: t' => tmpl_label t' end.
Fixpoint tmpl_value (t : list Attribute) : string :=
  match t with [] => "" | CKA_VALUE v :: _ => v | _ :: t' => tmpl_value t' end.

Definition selected (l : option string) (hlv : Z * (string * string)) : Prop :=
  match l with Some x => hlv.2.1 = x | None => True end.
#[global] Instance selected_dec l hlv : Decision (selected l hlv).
Proof. destruct l; simpl; apply _. Defined.

Definition soft_ctx : Ctx Token := mkCtx
  (st_ret (Ok ())) (st_ret (Ok ())) (st_ret ()) (st_ret (Ok [0]))
  (λ _, st_ret (Ok (mkTokenInfo "soft" "" "" "" 8 1 0))) (λ _, st_ret (Ok (mkSlotInfo "" "")))
  (λ _, st_ret (Ok 1)) (λ _, st_ret (Ok ())) (λ _ _, st_ret (Ok ())) (λ _, st_ret (Ok ()))
  (λ _ t w, match tok_search w with
            | Some _ => (Err operation_active, w)
            | None => (Ok (), mkToken (tok_objs w)
                (Some (filter (selected (tmpl_label t)) (map_to_list (tok_objs w))).*1))
            end)
  (λ _ n w, match tok_search w with
            | Some l => (Ok (take n l), mkToken (tok_objs w) (Some (drop n l)))
            | None => (Err not_initialized, w)
            end)
  (λ _ w, match tok_search w with
          | Some _ => (Ok (), mkToken (tok_objs w) None)
          | None => (Err not_initialized, w)
          end)
  (λ _ h w, (match tok_objs w !! h with Some (l, _) => Ok [l] | None => Err handle_invalid end, w))
  (λ _ h w, (match tok_objs w !! h with Some (l, v) => Ok [l; v] | None => Err handle_invalid end, w))
  (λ _ t w, match tok_search w with
            | Some _ => (Err operation_active, w)
            | None => let h := fresh (dom (tok_objs w)) in
                (Ok h, mkToken (<[h := (default "" (tmpl_label t), tmpl_value t)]> (tok_objs w)) None)
            end)
  (λ _ h w, match tok_search w with
            | Some _ => (Err operation_active, w)
            | None => match tok_objs w !! h with
                      | Some _ => (Ok (), mkToken (delete h (tok_objs w)) None)
                      | None => (Err handle_invalid, w)
                      end
            end)
  (λ _ _ _, st_ret (Ok ())).

Lemma search_matching l w :
  matching l w (filter (selected l) (map_to_list (tok_objs w))).*1.
Proof.
  split.
  - eapply sublist_NoDup; [apply (NoDup_fst_map_to_list (tok_objs w))|]. apply fmap_sublist, sublist_filter.
  - intros h. rewrite list_elem_of_fmap. split.
    + intros ([h' [lbl v]] & -> & [Hsel Hin]%list_elem_of_filter). apply elem_of_map_to_list in Hin.
      exists lbl, v. simpl. split; [done|]. by destruct l.
    + intros (lbl & v & Hh & Hl). exists (h, (lbl, v)).
      rewrite list_elem_of_filter, elem_of_map_to_list. split_and!; [done| |done]. by destruct l.
Qed.

#[global] Instance soft_laws s : TokenLaws soft_ctx s.
Proof.
  split; simpl.
  - intros t w. by destruct (tok_search w).
  - intros w w'. destruct (tok_search w); [done|]. intros [= <-]. eexists. split; [done|]. apply search_matching.
  - intros x w w'. destruct (tok_search w); [done|]. intros [= <-]. eexists. split; [done|]. apply search_matching.
  - intros n w. by destruct (tok_search w).
  - intros n w hs w' l ->. by intros [= <- <-].
  - intros w. by destruct (tok_search w).
  - intros w w'. destruct (tok_search w); [|done]. by intros [= <-].
  - done.
  - intros h w w' l. destruct (tok_objs w !! h) as [[lbl v]|]; [|done]. intros [= <- <-]. by exists lbl, v.
  - done.
  - intros h w w' l. destruct (tok_objs w !! h) as [[lbl v]|]; [|done]. intros [= <- <-]. by exists lbl, v.
  - intros t w e w' Hs. by rewrite Hs.
  - intros label value w h w' ->. intros [= <- <-]. split_and!; [|done|done].
    apply not_elem_of_dom. apply is_fresh.
  - intros h w e w' Hs. rewrite Hs. destruct (tok_objs w !! h) eqn:E; [done|]. by intros [= <- <-].
  - intros h w w' ->. destruct (tok_objs w !! h); [|done]. by intros [= <-].
Qed.

#[global] Instance soft_responsive s : Responsive soft_ctx s.
Proof.
  split; simpl.
  - by intros w ->.
  - by intros n w [l ->].
  - by intros w [l ->].
  - by intros h w [[l v] ->].
  - by intros h w [[l v] ->].
Qed.

#[local] Existing Instance listed_order.
(** A stand-in for the JSON codec, exact on metadata without labels. *)
Definition enc (md : SecretMetadata) : result string := Ok (m_Description md).
Definition dec (j : string) : result SecretMetadata := Ok (mkMetadata j None "" "" "" "").
Definition md0 : SecretMetadata := mkMetadata "d" None "" "" "" "".
Definition client : PKCS11Client Token :=
  mkPKCS11 (mkConfig "lib" 0 false "" 0 0 0 None) (Some (mkSession soft_ctx 1 0)) 0 true ∅.
(** The token holds an old copy of "app" and the secret "app2". *)
Definition tok : Token := mkToken {[1 := ("app/old", "x"); 2 := ("app2/k", "y")]} None.
Definition secret : SecretData := <["data" := "d"]> (<["user" := "u"]> ∅).
Definition run : result unit * PState Token := WriteSecret enc "app" secret (Some md0) (client, tok).

Lemma client_attached : attached soft_ctx 1 0 client.
Proof. split; reflexivity. Qed.

Lemma run_ok : WriteSecret enc "app" secret (Some md0) (client, tok) = (Ok (), (run.2.1, run.2.2)).
Proof. vm_compute. reflexivity. Qed.

Lemma secret_cases k v : secret !! k = Some v → k = "data" ∨ k = "user".
Proof.
  unfold secret, SecretData. intros [[<- _]|[_ H]]%lookup_insert_Some; [by left|].
  apply lookup_insert_Some in H as [[<- _]|[_ H]]; [by right|]. by rewrite lookup_empty in H.
Qed.

Lemma secret_keys : keys_ok "app" secret.
Proof.
  intros k v [->| ->]%secret_cases;
    split; vm_compute; done.
Qed.

Example pkcs11_roundtrip_witness :
  (ReadSecret "app" run.2).1 = Ok secret ∧ (ReadMetadata dec "app" run.2).1 = Ok (Some md0).
Proof.
  refine (pkcs11_roundtrip enc soft_ctx 1 0 dec client run.2.1 tok run.2.2 "app" secret md0
    (soft_responsive 1) client_attached _ _ secret_keys _ _ _ run_ok).
  - discriminate.
  - discriminate.
  - vm_compute. lia.
  - vm_compute. lia.
  - intros j [= <-]. reflexivity.
Defined.

Example pkcs11_tombstone_not_found_witness :
  (ReadSecret "app" (WriteSecret enc "app" ∅ (Some md0) (client, tok)).2).1 =
  Err (errorf "secret not found at path: app").
Proof.
  refine (pkcs11_tombstone_not_found enc soft_ctx 1 0 client
    (WriteSecret enc "app" ∅ (Some md0) (client, tok)).2.1 tok
    (WriteSecret enc "app" ∅ (Some md0) (client, tok)).2.2 "app" md0
    (soft_responsive 1) client_attached _ _ _ _).
  - discriminate.
  - vm_compute. lia.
  - vm_compute. lia.
  - vm_compute. reflexivity.
Defined.

Example pkcs11_write_removes_extensions_witness :
  (ReadSecret "app2" (client, tok)).1 = Ok {["k" := "y"]} ∧
  (ReadSecret "app2" run.2).1 = Err (errorf "secret not found at path: app2").
Proof.
  split; [vm_compute; reflexivity|].
  refine (pkcs11_write_removes_extensions enc soft_ctx 1 0 client run.2.1 tok run.2.2 "app" "app2" secret md0
    (soft_responsive 1) client_attached _ _ _ _ _ run_ok).
  - discriminate.
  - reflexivity.
  - vm_compute. lia.
  - vm_compute. lia.
  - intros k v [->| ->]%secret_cases;
      vm_compute; reflexivity.
Defined.

Example pkcs11_write_isolated_witness :
  token_objs (WriteSecret enc "app2" secret (Some md0) (client, tok)).2.2 !! 1 = Some ("app/old", "x").
Proof.
  refine (proj2 (pkcs11_write_isolated enc soft_ctx 1 0 client tok "app2" secret md0 1 "app/old" "x"
    client_attached _ _) _).
  - discriminate.
  - reflexivity.
  - reflexivity.
Defined.

(** The same context, but the token is gone. *)
Definition gone : error := pkcs11_error CKR_TOKEN_NOT_PRESENT "pkcs11: 0xE0: CKR_TOKEN_NOT_PRESENT".
Definition gone_ctx : Ctx Token := mkCtx
  (ctx_Initialize soft_ctx) (ctx_Finalize soft_ctx) (ctx_Destroy soft_ctx) (ctx_GetSlotList soft_ctx)
  (λ _, st_ret (Err gone)) (ctx_GetSlotInfo soft_ctx) (ctx_OpenSession soft_ctx) (ctx_CloseSession soft_ctx)
  (ctx_Login soft_ctx) (ctx_Logout soft_ctx) (ctx_FindObjectsInit soft_ctx) (ctx_FindObjects soft_ctx)
  (ctx_FindObjectsFinal soft_ctx) (ctx_GetLabel soft_ctx) (ctx_GetLabelValue soft_ctx)
  (ctx_CreateObject soft_ctx) (ctx_DestroyObject soft_ctx) (ctx_SetPIN soft_ctx).
Definition zombie : PKCS11Client Token :=
  mkPKCS11 (mkConfig "lib" 0 false "" 0 0 0 None) (Some (mkSession gone_ctx 1 0)) 0 true ∅.

Example GetInfo_detects_token_loss_witness : p_connected (GetInfo (zombie, tok)).2.1 = false.
Proof.
  pose proof (GetInfo_detects_token_loss enc zombie (mkSession gone_ctx 1 0) tok eq_refl eq_refl) as H.
  destruct (GetInfo (zombie, tok)) as [r [c w]]. exact (proj1 (proj2 H)).
Defined.

Definition config : Config Token := mkConfig "lib" 0 false "" 0 0 0 None.
Definition blank_ctx : Ctx Token := mkCtx
  (ctx_Initialize soft_ctx) (ctx_Finalize soft_ctx) (ctx_Destroy soft_ctx) (st_ret (Ok [0; 1]))
  (λ slot, st_ret (Ok (mkTokenInfo "" "" "" "" (if slot =? 0 then 1024 else 8) 1 0)))
  (ctx_GetSlotInfo soft_ctx) (ctx_OpenSession soft_ctx) (ctx_CloseSession soft_ctx)
  (ctx_Login soft_ctx) (ctx_Logout soft_ctx) (ctx_FindObjectsInit soft_ctx) (ctx_FindObjects soft_ctx)
  (ctx_FindObjectsFinal soft_ctx) (ctx_GetLabel soft_ctx) (ctx_GetLabelValue soft_ctx)
  (ctx_CreateObject soft_ctx) (ctx_DestroyObject soft_ctx) (ctx_SetPIN soft_ctx).

Example IsTokenBlank_fails_closed_witness : (IsTokenBlank (λ _, st_ret (Some blank_ctx)) config tok).1 = Ok true.
Proof.
  refine (proj2 (IsTokenBlank_fails_closed (λ _, st_ret (Some blank_ctx)) config tok blank_ctx tok tok tok
    (Ok ()) (Ok [0; 1]) (λ slot, Ok (mkTokenInfo "" "" "" "" (if slot =? 0 then 1024 else 8) 1 0)) _ _ _ _) _);
    try reflexivity.
  split_and!; [discriminate|reflexivity|]. exists [0; 1]. split_and!; [reflexivity| |vm_compute; reflexivity].
  intros slot _. reflexivity.
Defined.
End SoftToken.
