(* ===== verification/PinProvider.v ===== *)
(** * internal/hsm/pin_provider.go: PINs from Kubernetes Secrets, cached

    The provider is a mutable object next to the world; an instant is a number of
    nanoseconds, the zero [time.Time] being 0.  The Kubernetes API and the clock are
    operations on the world.  Locks are not modelled. *)

From S2P Require Import Prelude GoStd Hsm Api Pkcs11.

(* [internal/hsm/pin_provider.go:23-34] *)
Record KubernetesPINProvider := mkKubernetesPINProvider {
  deviceName : string;
  namespace : string;
  cachedPIN : string;
  cacheExpiry : Z;
  cacheTTL : Z;
}.

(* [internal/hsm/pin_provider.go:37-45] *)
Definition NewKubernetesPINProvider (deviceName namespace : string) : KubernetesPINProvider :=
  mkKubernetesPINProvider deviceName namespace "" 0 (10 * Minute).

(* [internal/hsm/pin_provider.go:110-115] *)
Definition InvalidateCache (p : KubernetesPINProvider) : KubernetesPINProvider :=
  mkKubernetesPINProvider (deviceName p) (namespace p) "" 0 (cacheTTL p).

(* [internal/hsm/pin_provider.go:124-128] *)
Definition SetCacheTTL (duration : Z) (p : KubernetesPINProvider) : KubernetesPINProvider :=
  mkKubernetesPINProvider (deviceName p) (namespace p) (cachedPIN p) (cacheExpiry p) duration.

(** [p.cachedPIN = pin; p.cacheExpiry = time.Now().Add(p.cacheTTL)] *)
(* [internal/hsm/pin_provider.go:101-102 GetPIN] *)
Definition UpdateCache (pin : string) (now : Z) (p : KubernetesPINProvider) : KubernetesPINProvider :=
  mkKubernetesPINProvider (deviceName p) (namespace p) pin (now + cacheTTL p) (cacheTTL p).

Section Provider.
Context {W : Type} (time_Now : ST W Z).
(** The API: an HSMDevice and the data of a Secret, by namespace and name. *)
Context (Get_HSMDevice : string → string → ST W (result HSMDevice)).
Context (Get_Secret : string → string → ST W (result (gmap string string))).

(** The state: the provider and the world. *)
Definition PinState : Type := KubernetesPINProvider * W.
Definition on_api {A} (m : ST W A) : ST PinState A := λ v, let (a, w) := m v.2 in (a, (v.1, w)).
Definition get_provider : ST PinState KubernetesPINProvider := λ v, (v.1, v).
Definition modify_provider (f : KubernetesPINProvider → KubernetesPINProvider) : ST PinState unit :=
  λ v, ((), (f v.1, v.2)).

Definition qualified (ns name : string) : string := ns +:+ "/" +:+ name.

(** The reference to the PIN's Secret in the device's spec. *)
(* [internal/hsm/pin_provider.go:73-80 GetPIN] *)
Definition pin_reference (ns name : string) (hsmDevice : HSMDevice) : result SecretKeySelector :=
  match hd_PKCS11 (hd_Spec hsmDevice) with
  | None => Err nil_dereference
  | Some pkcs11 =>
      match pk_PinSecret pkcs11 with
      | None => Err (errorf ("HSMDevice " +:+ qualified ns name +:+ " has no pinSecret configured"))
      | Some ref =>
          if bool_decide (sk_Name ref = "") || bool_decide (sk_Key ref = "")
          then Err (errorf ("HSMDevice " +:+ qualified ns name +:+ " has invalid pinSecret reference"))
          else Ok ref
      end
  end.

(** The PIN in the Secret's data. *)
(* [internal/hsm/pin_provider.go:89-97 GetPIN] *)
Definition pin_of (ns : string) (ref : SecretKeySelector) (data : gmap string string) : result string :=
  match data !! sk_Key ref with
  | None => Err (errorf ("PIN key " +:+ sk_Key ref +:+ " not found in secret " +:+ qualified ns (sk_Name ref)))
  | Some pin =>
      if bool_decide (pin = "")
      then Err (errorf ("PIN is empty in secret " +:+ qualified ns (sk_Name ref) +:+ " key " +:+ sk_Key ref))
      else Ok pin
  end.

(* [internal/hsm/pin_provider.go:48-107] *)
Definition GetPIN : ST PinState (result string) :=
  (let* p := get_provider in
   let* now := on_api time_Now in
   if (now <? cacheExpiry p) && bool_decide (cachedPIN p ≠ "") then st_ret (Ok (cachedPIN p))
   else
     st_try (on_api (Get_HSMDevice (namespace p) (deviceName p)))
       (wrapf ("failed to get HSMDevice " +:+ qualified (namespace p) (deviceName p))) (λ hsmDevice,
     st_try (st_ret (pin_reference (namespace p) (deviceName p) hsmDevice)) (λ e, e) (λ pinSecretRef,
     st_try (on_api (Get_Secret (namespace p) (sk_Name pinSecretRef)))
       (wrapf ("failed to get PIN secret " +:+ qualified (namespace p) (sk_Name pinSecretRef))) (λ data,
     st_try (st_ret (pin_of (namespace p) pinSecretRef data)) (λ e, e) (λ pin,
       let* now := on_api time_Now in
       do! modify_provider (UpdateCache pin now) in
       st_ret (Ok pin))))))%go.

(* [internal/hsm/pin_provider.go:119-121] *)
Definition InvalidateCacheAfterPINChange : ST PinState unit := modify_provider InvalidateCache.

(** [*KubernetesPINProvider] as an [hsm.PINProvider]. *)
Definition provider : PINProvider PinState := mkPINProvider _ GetPIN (Some InvalidateCacheAfterPINChange).
End Provider.
Arguments PinState : clear implicits.

(* [internal/hsm/pin_provider.go:131-133] *)
Record StaticPINProvider := mkStaticPINProvider { pin : string }.

(* [internal/hsm/pin_provider.go:136-138] *)
Definition NewStaticPINProvider (pin : string) : StaticPINProvider := mkStaticPINProvider pin.

(** [*StaticPINProvider] as an [hsm.PINProvider]. *)
(* [internal/hsm/pin_provider.go:141-146 GetPIN] *)
Definition static_provider {W} (p : StaticPINProvider) : PINProvider W :=
  mkPINProvider _ (st_ret (if bool_decide (pin p = "") then Err (errorf "static PIN is empty") else Ok (pin p))) None.

(** ** What the provider guarantees *)

(** The cache answers: it holds a PIN that has not expired at [now]. *)
Definition fresh_at (now : Z) (p : KubernetesPINProvider) : Prop :=
  now < cacheExpiry p ∧ cachedPIN p ≠ "".

Section ProviderSpec.
Context {W : Type} (time_Now : ST W Z).
Context (Get_HSMDevice : string → string → ST W (result HSMDevice)).
Context (Get_Secret : string → string → ST W (result (gmap string string))).
#[local] Abbreviation GetPIN := (GetPIN time_Now Get_HSMDevice Get_Secret).

(** [pin] is what the Secret referenced by the device holds, asked of the API from
    [w] on, until the world [w'] at the instant [now]. *)
Definition fetched (p : KubernetesPINProvider) (pin : string) (w : W) (now : Z) (w' : W) : Prop :=
  ∃ device pkcs11 ref data w1 w2,
    Get_HSMDevice (namespace p) (deviceName p) w = (Ok device, w1) ∧
    hd_PKCS11 (hd_Spec device) = Some pkcs11 ∧ pk_PinSecret pkcs11 = Some ref ∧
    Get_Secret (namespace p) (sk_Name ref) w1 = (Ok data, w2) ∧
    data !! sk_Key ref = Some pin ∧ time_Now w2 = (now, w').

Lemma pin_reference_Ok ns name device ref :
  pin_reference ns name device = Ok ref →
  ∃ pkcs11, hd_PKCS11 (hd_Spec device) = Some pkcs11 ∧ pk_PinSecret pkcs11 = Some ref ∧
            sk_Name ref ≠ "" ∧ sk_Key ref ≠ "".
Proof.
  unfold pin_reference. destruct (hd_PKCS11 _) as [pk|] eqn:E; [|done].
  destruct (pk_PinSecret pk) as [r|] eqn:E2; [|done].
  repeat case_bool_decide; simpl; try done. intros [= <-]. by exists pk.
Qed.

Lemma pin_of_Ok ns ref data pin :
  pin_of ns ref data = Ok pin → data !! sk_Key ref = Some pin ∧ pin ≠ "".
Proof.
  unfold pin_of. destruct (data !! _); [|done]. case_bool_decide; [done|]. by intros [= <-].
Qed.

(** A fresh cache answers, asking nothing but the time. *)
Lemma GetPIN_cached p w now w1 :
  time_Now w = (now, w1) → fresh_at now p → GetPIN (p, w) = (Ok (cachedPIN p), (p, w1)).
Proof.
  intros Ht [Hlt Hne]. unfold PinProvider.GetPIN, get_provider, on_api, st_bind. cbn [fst snd]. rewrite Ht.
  rewrite (proj2 (Z.ltb_lt _ _) Hlt), bool_decide_eq_true_2 by done. done.
Qed.

(** Otherwise the API is asked. *)
Lemma GetPIN_uncached p w now w1 r p' w' :
  time_Now w = (now, w1) → ¬ fresh_at now p → GetPIN (p, w) = (r, (p', w')) →
  match r with
  | Ok pin => pin ≠ "" ∧ ∃ now', fetched p pin w1 now' w' ∧ p' = UpdateCache pin now' p
  | Err _ => p' = p
  end.
Proof.
  intros Ht Hf. unfold PinProvider.GetPIN, get_provider, on_api, st_try, st_bind. cbn [fst snd]. rewrite Ht.
  destruct ((now <? cacheExpiry p) && bool_decide (cachedPIN p ≠ "")) eqn:E.
  { apply andb_true_iff in E as [?%Z.ltb_lt ?%bool_decide_eq_true]. by destruct Hf. }
  cbn. destruct (Get_HSMDevice (namespace p) (deviceName p) w1) as [[device|e] w2] eqn:Hd; [|by intros [= <- <- <-]]. unfold st_ret. cbn.
  destruct (pin_reference (namespace p) (deviceName p) device) as [ref|e] eqn:Hr; [|by intros [= <- <- <-]].
  cbn. destruct (Get_Secret (namespace p) (sk_Name ref) w2) as [[data|e] w3] eqn:Hs; [|by intros [= <- <- <-]].
  cbn. destruct (pin_of (namespace p) ref data) as [pin|e] eqn:Hp; [|by intros [= <- <- <-]].
  cbn. destruct (time_Now w3) as [now' w4] eqn:Hn. intros [= <- <- <-].
  apply pin_reference_Ok in Hr as (pk & ? & ? & _). apply pin_of_Ok in Hp as [? ?].
  split; [done|]. exists now'. split; [|done]. by exists device, pk, ref, data, w2, w3.
Qed.

(** [GetPIN] never answers an empty PIN; what it answers is the cached PIN, and
    only before its expiry, or what the API holds now, which is then cached for
    [cacheTTL]; a failure leaves the cache as it was. *)
Theorem GetPIN_correct (p p' : KubernetesPINProvider) (w w' : W) (r : result string) :
  GetPIN (p, w) = (r, (p', w')) →
  match r with
  | Ok pin =>
      pin ≠ "" ∧
      ((fresh_at (time_Now w).1 p ∧ pin = cachedPIN p ∧ p' = p ∧ w' = (time_Now w).2) ∨
       (¬ fresh_at (time_Now w).1 p ∧
        ∃ now, fetched p pin (time_Now w).2 now w' ∧
               cachedPIN p' = pin ∧ cacheExpiry p' = now + cacheTTL p ∧ cacheTTL p' = cacheTTL p))
  | Err _ => p' = p
  end.
Proof.
  intros HG. destruct (time_Now w) as [now w1] eqn:Ht. cbn [fst snd].
  assert (fresh_at now p ∨ ¬ fresh_at now p) as [Hf|Hf].
  { unfold fresh_at. destruct (decide (now < cacheExpiry p ∧ cachedPIN p ≠ "")); auto. }
  - rewrite (GetPIN_cached p w now w1) in HG by done. injection HG as <- <- <-.
    split; [apply Hf|]. by left.
  - pose proof (GetPIN_uncached p w now w1 r p' w' Ht Hf HG) as H. destruct r as [pin|e]; [|done].
    destruct H as (Hne & now' & Hfe & ->). split; [done|]. right. split; [done|]. by exists now'.
Qed.

(** After a successful change of the token's PIN through the client, the old PIN
    is forgotten: the next PIN the provider answers comes from the API, not from the
    cache, whatever its expiry was. *)
Theorem ChangePIN_refetches (c c' : PKCS11Client (PinState W)) (v v' : PinState W) (oldPIN newPIN pin : string) :
  cfg_PINProvider (p_config c) = Some (provider time_Now Get_HSMDevice Get_Secret) →
  ChangePIN oldPIN newPIN (c, v) = (Ok (), (c', v')) →
  (GetPIN v').1 = Ok pin →
  cachedPIN v'.1 = "" ∧ ∃ now, fetched v'.1 pin (time_Now v'.2).2 now (GetPIN v').2.2.
Proof.
  intros Hc HP HG.
  assert (cachedPIN v'.1 = "") as He.
  { revert HP. unfold ChangePIN, if_connected, get_client, on_world, st_try, st_bind. cbn [fst snd].
    destruct (p_connected c); [|done]. repeat (case_bool_decide; [done|]). cbn [fst snd].
    cbn. destruct (changePINPKCS11 (p_session c) oldPIN newPIN v) as [[[]|e] v1]; [|by intros [=]].
    rewrite Hc. simpl. by intros [= <- <-]. }
  split; [done|]. destruct v' as [p w]. simpl in *.
  destruct (GetPIN (p, w)) as [r [p' w']] eqn:E. simpl in HG. subst r.
  destruct (time_Now w) as [now w1] eqn:Ht.
  apply (GetPIN_uncached p w now w1) in E as (_ & now' & Hf & _); [by exists now'|done|].
  by intros [_ ?].
Qed.
End ProviderSpec.

(** ** Witnesses: the device "hsm-0" whose PIN is in the Secret "pin" under "user" *)
Module PinWitness.
Definition World : Type := Z.
Definition time_Now : ST World Z := λ t, (t, t + 1).
Definition device : HSMDevice :=
  mkHSMDevice (mkObjectMeta "hsm-0" "default" "" 1 ∅ ∅ [] None [] (mkTime 0 0) 1)
    (mkHSMDeviceSpec "" None ∅ (Some (mkDevicePKCS11Config "" 0 (Some (mkSecretKeySelector "pin" "user" "")) "" false)) 1 None).
Definition Get_HSMDevice (ns name : string) : ST World (result HSMDevice) :=
  st_ret (if bool_decide (name = "hsm-0") then Ok device else Err (api_NotFound name)).
Definition Get_Secret (ns name : string) : ST World (result (gmap string string)) :=
  st_ret (if bool_decide (name = "pin") then Ok {["user" := "1234"]} else Err (api_NotFound name)).

(** A token that accepts everything. *)
Definition token {W} : Ctx W := mkCtx
  (st_ret (Ok ())) (st_ret (Ok ())) (st_ret ()) (st_ret (Ok []))
  (λ _, st_ret (Err (errorf "no token"))) (λ _, st_ret (Err (errorf "no slot")))
  (λ _, st_ret (Ok 1)) (λ _, st_ret (Ok ())) (λ _ _, st_ret (Ok ())) (λ _, st_ret (Ok ()))
  (λ _ _, st_ret (Ok ())) (λ _ _, st_ret (Ok [])) (λ _, st_ret (Ok ()))
  (λ _ _, st_ret (Ok [])) (λ _ _, st_ret (Ok [])) (λ _ _, st_ret (Ok 1)) (λ _ _, st_ret (Ok ()))
  (λ _ _ _, st_ret (Ok ())).

Definition fresh_provider : KubernetesPINProvider := NewKubernetesPINProvider "hsm-0" "default".
(** It still holds the old PIN. *)
Definition stale_provider : KubernetesPINProvider := UpdateCache "0000" 7 fresh_provider.
Definition client : PKCS11Client (PinState World) :=
  mkPKCS11 (mkConfig "lib" 0 false "" 0 0 0 (Some (provider time_Now Get_HSMDevice Get_Secret)))
    (Some (mkSession token 1 0)) 0 true ∅.

Example GetPIN_correct_witness :
  let v := (GetPIN time_Now Get_HSMDevice Get_Secret (fresh_provider, 5)).2 in
  "1234" ≠ "" ∧ cachedPIN v.1 = "1234" ∧ v.2 = 7.
Proof.
  set (v := (GetPIN time_Now Get_HSMDevice Get_Secret (fresh_provider, 5)).2).
  assert (GetPIN time_Now Get_HSMDevice Get_Secret (fresh_provider, 5) = (Ok "1234", (v.1, v.2))) as E
    by (vm_compute; reflexivity).
  destruct (GetPIN_correct time_Now Get_HSMDevice Get_Secret _ _ _ _ _ E) as [Hne [[[Hf _] _]|(_ & now & _ & Hp & _)]].
  - vm_compute in Hf. discriminate.
  - split; [exact Hne|]. split; [exact Hp|]. vm_compute. reflexivity.
Defined.

Example ChangePIN_refetches_witness :
  let v := (ChangePIN "0000" "1234" (client, (stale_provider, 9))).2.2 in
  cachedPIN stale_provider = "0000" ∧ cachedPIN v.1 = "" ∧
  (GetPIN time_Now Get_HSMDevice Get_Secret v).1 = Ok "1234".
Proof.
  set (r := (ChangePIN "0000" "1234" (client, (stale_provider, 9))).2).
  assert (ChangePIN "0000" "1234" (client, (stale_provider, 9)) = (Ok (), (r.1, r.2))) as E
    by (vm_compute; reflexivity).
  assert ((GetPIN time_Now Get_HSMDevice Get_Secret r.2).1 = Ok "1234") as G by (vm_compute; reflexivity).
  split; [reflexivity|]. split; [|exact G].
  exact (proj1 (ChangePIN_refetches time_Now Get_HSMDevice Get_Secret client r.1 _ r.2 "0000" "1234" "1234" eq_refl E G)).
Defined.
End PinWitness.
