(* ===== verification/Provision.v ===== *)
(** * internal/agent/provisioner.go, pcscd_manager.go and internal/modes/agent: start-up

    Provisioning a blank token, the pcscd daemon, and which HSM client an agent serves.
    Running programs, files, randomness, the Kubernetes API and the two HSM clients are
    arguments; logging is left out. *)

From Stdlib Require Import Ascii.
From S2P Require Import Prelude GoStd Sha256 Hsm MockClient Api Kube EnvConfig Pkcs11 PinProvider.

Local Open Scope go_scope.

(** ** provisioner.go *)

(* [internal/agent/provisioner.go:33-33] *)
Definition scHSMToolPath : string := "/usr/bin/sc-hsm-tool".

(** [strings.ReplaceAll(s, old, new)] for a non-empty [old]: from left to right, [skip]
    bytes of an occurrence are still to be passed over. *)
Fixpoint replace_from (old new : string) (skip : nat) (s : string) : string :=
  match s with
  | EmptyString => ""
  | String c s' =>
      match skip with
      | S k => replace_from old new k s'
      | O => if has_prefix s old then new +:+ replace_from old new (pred (String.length old)) s'
             else String c (replace_from old new 0 s')
      end
  end.
Definition ReplaceAll (s old new : string) : string := replace_from old new 0 s.

(* [internal/agent/provisioner.go:98-105] *)
Definition redactPINs (s : string) (secrets : list string) : string :=
  fold_left (λ s secret, if bool_decide (secret ≠ "") then ReplaceAll s secret "***" else s) secrets s.

(** [out] is the combined output of a run of the tool; [rand_Read n] draws n bytes. *)
Section Provisioner.
Context {W : Type} (rand_Read : nat → ST W (result (list Z))) (run_tool : string → list string → ST W (result unit * string)).

(* [internal/agent/provisioner.go:50-56] *)
Definition GenerateSOPIN : ST W (result string) :=
  st_try (rand_Read 8) (wrapf "failed to generate SO-PIN") (λ buf, st_ret (Ok (to_upper (hex buf)))).

(* [internal/agent/provisioner.go:65-95] *)
Definition Provision (userPIN label : string) : ST W (result unit) :=
  if bool_decide (userPIN = "") then st_ret (Err (errorf "user PIN is required to provision a device"))
  else st_try GenerateSOPIN id (λ soPIN,
    let args := ["--initialize"; "--so-pin"; soPIN; "--pin"; userPIN] ++
                (if bool_decide (label ≠ "") then ["--label"; label] else []) in
    let* '(r, out) := run_tool scHSMToolPath args in
    st_ret (match r with
            | Err err => Err (wrapf "sc-hsm-tool --initialize failed" (wrap_after err (": " +:+ redactPINs out [soPIN; userPIN])))
            | Ok _ => Ok ()
            end)).
End Provisioner.

(** ** modes/agent/provision.go *)

(** The event an agent emits about its device. *)
Record DeviceEvent := mkDeviceEvent { evt_Type : string; evt_Reason : string; evt_Message : string }.

(** What the start-up of an agent calls: the device's [HSMDevice] and its events, the
    PKCS#11 library, randomness and the tool. *)
Record Host (W : Type) := mkHost {
  GetHSMDevice : string → string → ST W (result HSMDevice);
  CreateEvent : HSMDevice → DeviceEvent → ST W unit;
  NewContext : string → ST W (option (Ctx W));
  rand_Read : nat → ST W (result (list Z));
  run_tool : string → list string → ST W (result unit * string);
}.
Arguments mkHost {W}.
Arguments GetHSMDevice {W}.
Arguments CreateEvent {W}.
Arguments NewContext {W}.
Arguments rand_Read {W}.
Arguments run_tool {W}.

Section AutoProvision.
Context {W : Type} (host : Host W) (deviceName namespace : string) (pinProvider : PINProvider W) (hsmConfig : Config W).

(** Failing to create an event is logged. *)
(* [internal/modes/agent/provision.go:106-140] *)
Definition emitDeviceEvent (device : HSMDevice) (eventType reason message : string) : ST W unit :=
  CreateEvent host device (mkDeviceEvent eventType reason message).

(** [provisioned], [requested] and [err]. *)
(* [internal/modes/agent/provision.go:45-102] *)
Definition attemptAutoProvision : ST W (bool * bool * option error) :=
  let* d := GetHSMDevice host deviceName namespace in
  match d with
  | Err _ => st_ret (false, false, None)
  | Ok hsmDevice =>
      if negb (match hd_PKCS11 (hd_Spec hsmDevice) with Some p => pk_AutoProvision p | None => false end)
      then st_ret (false, false, None)
      else
        let* b := IsTokenBlank (NewContext host) hsmConfig in
        match b with
        | Err blankErr =>
            do! emitDeviceEvent hsmDevice "Warning" "ProvisionSkipped"
              ("Auto-provision enabled but blank-token detection failed: " +:+ error_string blankErr) in
            st_ret (false, true, None)
        | Ok false =>
            do! emitDeviceEvent hsmDevice "Warning" "ProvisionSkipped"
              "Auto-provision enabled but token is not a blank, uninitialized device; not initializing" in
            st_ret (false, true, None)
        | Ok true =>
            let* pin := Hsm.GetPIN pinProvider in
            match pin with
            | Err pinErr =>
                do! emitDeviceEvent hsmDevice "Warning" "ProvisionFailed"
                  ("Could not read user PIN from pinSecret: " +:+ error_string pinErr) in
                st_ret (false, true, Some (wrapf "failed to read user PIN for provisioning" pinErr))
            | Ok userPIN =>
                do! emitDeviceEvent hsmDevice "Normal" "Provisioning"
                  "Blank SC-HSM detected; initializing with a random (discarded) SO-PIN and the configured user PIN" in
                let* r := Provision (rand_Read host) (run_tool host) userPIN deviceName in
                match r with
                | Err provErr =>
                    do! emitDeviceEvent hsmDevice "Warning" "ProvisionFailed"
                      ("sc-hsm-tool initialization failed: " +:+ error_string provErr) in
                    st_ret (false, true, Some (wrapf ("failed to initialize blank device " +:+ quoted deviceName) provErr))
                | Ok _ =>
                    do! emitDeviceEvent hsmDevice "Normal" "Provisioned" "SC-HSM token initialized; connecting" in
                    st_ret (true, true, None)
                end
            end
        end
  end.
End AutoProvision.

(** ** pcscd_manager.go *)

(** [cmd] as far as it matters: no process was started ([None]), or whether the one that
    was has been created. *)
(* [internal/agent/pcscd_manager.go:32-38] *)
Record PCSCDManager := mkPCSCDManager { pm_cmd : option bool; pm_debug : bool }.
(* [internal/agent/pcscd_manager.go:42-50] *)
Definition NewPCSCDManager (debug : bool) : PCSCDManager := mkPCSCDManager None debug.

(** Files and the process of the daemon: [Wait] is the result of waiting five seconds,
    absent if the process has not ended by then. *)
Record Daemon (W : Type) := mkDaemon {
  dm_MkdirAll : string → ST W (result unit);
  dm_Remove : string → ST W (result unit);
  dm_IsNotExist : error → bool;
  dm_Stat : string → ST W bool;
  dm_Start : string → list string → ST W (result unit);
  dm_Exited : ST W bool;
  dm_Terminate : ST W (result unit);
  dm_Kill : ST W (result unit);
  dm_Wait : ST W (option (result unit));
}.
Arguments mkDaemon {W}.
Arguments dm_MkdirAll {W}.
Arguments dm_Remove {W}.
Arguments dm_IsNotExist {W}.
Arguments dm_Stat {W}.
Arguments dm_Start {W}.
Arguments dm_Exited {W}.
Arguments dm_Terminate {W}.
Arguments dm_Kill {W}.
Arguments dm_Wait {W}.

Section PCSCD.
Context {W : Type} (dm : Daemon W).

(* [internal/agent/pcscd_manager.go:178-178 waitForReady] *)
Definition socketPaths : list string := ["/run/pcscd/pcscd.comm"; "/var/run/pcscd/pcscd.comm"].
(* [internal/agent/pcscd_manager.go:171-171 waitForReady] *)
Definition maxAttempts : nat := 50.

(** Whether one of the sockets exists; they are looked at in order. *)
Fixpoint any_socket (paths : list string) : ST W bool :=
  match paths with
  | [] => st_ret false
  | p :: rest => let* found := dm_Stat dm p in if (found : bool) then st_ret true else any_socket rest
  end.

(** The remaining attempts; the sleeps are left out. *)
(* [internal/agent/pcscd_manager.go:182-203 waitForReady] *)
Fixpoint wait_attempts (n : nat) : ST W (result unit) :=
  match n with
  | O => st_ret (Err (errorf "pcscd did not become ready within 5s"))
  | S n =>
      let* found := any_socket socketPaths in
      if (found : bool) then st_ret (Ok ())
      else let* exited := dm_Exited dm in
           if (exited : bool) then st_ret (Err (errorf "pcscd process exited unexpectedly")) else wait_attempts n
  end.
(* [internal/agent/pcscd_manager.go:169-203] *)
Definition waitForReady : ST W (result unit) := wait_attempts maxAttempts.

(** Cancelling the context only matters to a process that runs. *)
(* [internal/agent/pcscd_manager.go:124-164 Stop] *)
Definition pcscd_Stop (p : PCSCDManager) : ST W (result unit) :=
  match pm_cmd p with
  | None | Some false => st_ret (Ok ())
  | Some true =>
      let* t := dm_Terminate dm in
      match t with
      | Err _ => dm_Kill dm
      | Ok _ =>
          let* w := dm_Wait dm in
          match w with
          | Some r => st_ret r
          | None =>
              st_try (dm_Kill dm) (wrapf "failed to kill pcscd") (λ _,
                do! dm_Wait dm in st_ret (Err (errorf "pcscd was forcefully killed after timeout")))
          end
      end
  end.

(* [internal/agent/pcscd_manager.go:55-120 Start] *)
Definition pcscd_Start (p : PCSCDManager) : ST W (result unit * PCSCDManager) :=
  match pm_cmd p with
  | Some _ => st_ret (Err (errorf "pcscd is already running"), p)
  | None =>
      let* dirs := st_fold (λ (r : result unit) dir,
        match r with
        | Err e => st_ret (Err e)
        | Ok _ => st_try (dm_MkdirAll dm dir) (wrapf ("failed to create runtime directory " +:+ dir)) (λ _, st_ret (Ok ()))
        end) ["/run/pcscd"; "/var/lock/pcsc"] (Ok ()) in
      match dirs with
      | Err e => st_ret (Err e, p)
      | Ok _ =>
          let* r := dm_Remove dm "/run/pcscd/pcscd.comm" in
          match (match r with Err err => if dm_IsNotExist dm err then None else Some err | Ok _ => None end) with
          | Some err => st_ret (Err (wrapf "failed to remove stale socket /run/pcscd/pcscd.comm" err), p)
          | None =>
              let* s := dm_Start dm "/usr/sbin/pcscd" (["-f"; "--disable-polkit"] ++ (if pm_debug p then ["-d"] else [])) in
              match s with
              | Err err => st_ret (Err (wrapf "failed to start pcscd" err), mkPCSCDManager (Some false) (pm_debug p))
              | Ok _ =>
                  let started := mkPCSCDManager (Some true) (pm_debug p) in
                  let* w := waitForReady in
                  match w with
                  | Err err => do! pcscd_Stop started in st_ret (Err (wrapf "pcscd failed to become ready" err), started)
                  | Ok _ => st_ret (Ok (), started)
                  end
              end
          end
      end
  end.
End PCSCD.

(** ** modes/agent/agent.go *)

(** The flags of the agent. *)
(* [internal/modes/agent/agent.go:57-79 Run] *)
Record AgentFlags := mkAgentFlags {
  fl_deviceName : string;
  fl_port : Z;
  fl_healthPort : Z;
  fl_pkcs11LibraryPath : string;
  fl_slotID : Z;
  fl_tokenLabel : string;
  fl_requireHardware : bool;
  fl_tlsCertFile : string;
  fl_tlsKeyFile : string;
  fl_tlsClientCAFile : string;
}.
(** Without arguments. *)
(* [internal/modes/agent/agent.go:66-79 Run] *)
Definition default_flags : AgentFlags := mkAgentFlags "" 9090 8093 "" (-1) "" true "" "" "".

(* [internal/modes/agent/agent.go:123-129 Run] *)
Definition with_flags (fl : AgentFlags) (c : AgentConfig) : AgentConfig :=
  mkAgentConfig (fl_deviceName fl) (fl_pkcs11LibraryPath fl) (fl_tokenLabel fl) (ac_PodName c) (ac_PodNamespace c)
    (fl_tlsCertFile fl) (fl_tlsKeyFile fl) (fl_tlsClientCAFile fl).

(** [hsmConfig]: [UseSlotID] is not set. *)
(* [internal/modes/agent/agent.go:182-190 Run] *)
Definition hsm_config {W} (fl : AgentFlags) (pinProvider : PINProvider W) : Config W :=
  mkConfig (fl_pkcs11LibraryPath fl) (uint_of_int (fl_slotID fl)) false (fl_tokenLabel fl) (30 * Second) 3 (2 * Second) (Some pinProvider).
(* [internal/modes/agent/agent.go:245-246 Run] *)
Definition mock_config {W} : Config W :=
  let d := @DefaultConfig W in
  mkConfig (PKCS11LibraryPath d) (SlotID d) (UseSlotID d) (TokenLabel d) (ConnectionTimeout d) (RetryAttempts d) (RetryDelay d)
    (Some (static_provider (NewStaticPINProvider "123456"))).

Section Run.
Context {W : Type} (host : Host W) (dm : Daemon W) (env : Environment).
Context (GetConfig NewForConfig : ST W (result unit)) (os_Stat : string → ST W (result unit)).
Context (pkcs11_client mock_client : Client W) (pinProvider : PINProvider W).
Context (serve : Client W → option (string * string * string) → ST W (result unit)).

(** Whether the PKCS#11 client is to be used. *)
(* [internal/modes/agent/agent.go:139-160 Run] *)
Definition usePKCS11 (fl : AgentFlags) : ST W (result bool) :=
  if bool_decide (fl_pkcs11LibraryPath fl = "") then st_ret (Ok false)
  else
    let* r := os_Stat (fl_pkcs11LibraryPath fl) in
    st_ret (match r with
    | Ok _ =>
        if bool_decide (fl_tokenLabel fl ≠ "") || (0 <=? fl_slotID fl) then Ok true
        else if fl_requireHardware fl
        then Err (errorf ("--require-hardware set but no --token-label or --slot-id specified for device " +:+
                          quoted (fl_deviceName fl) +:+ "; refusing mock fallback"))
        else Ok false
    | Err err =>
        if fl_requireHardware fl
        then Err (wrapf ("--require-hardware set but PKCS#11 library " +:+ quoted (fl_pkcs11LibraryPath fl) +:+
                         " not found for device " +:+ quoted (fl_deviceName fl)) (wrap_after err "; refusing mock fallback"))
        else Ok false
    end).

(** The PKCS#11 client, initialized, perhaps after provisioning its token; [None] is the
    fall back to the mock client. *)
(* [internal/modes/agent/agent.go:192-233 Run] *)
Definition connect_hardware (fl : AgentFlags) (namespace : string) : ST W (result (option (Client W))) :=
  let config := hsm_config fl pinProvider in
  let name := quoted (fl_deviceName fl) in
  let* i := c_Initialize pkcs11_client config in
  match i with
  | Ok _ => st_ret (Ok (Some pkcs11_client))
  | Err initErr =>
      let* '(provisioned, requested, perr) := attemptAutoProvision host (fl_deviceName fl) namespace pinProvider config in
      match perr with
      | Some perr => st_ret (Err (wrapf ("auto-provisioning device " +:+ name +:+ " failed") perr))
      | None =>
          if (provisioned : bool) then
            st_try (c_Initialize pkcs11_client config)
              (wrapf ("PKCS#11 initialize after provisioning device " +:+ name +:+ " failed"))
              (λ _, st_ret (Ok (Some pkcs11_client)))
          else if (requested : bool) then
            st_ret (Err (wrapf ("device " +:+ name +:+ " failed PKCS#11 initialize and is not an eligible blank token for auto-provisioning; refusing mock fallback") initErr))
          else if fl_requireHardware fl then
            st_ret (Err (wrapf ("device " +:+ name +:+ " failed PKCS#11 initialize and --require-hardware is set; refusing mock fallback. If this is a blank/uninitialized token, set spec.pkcs11.autoProvision=true on the HSMDevice to have the agent initialize it") initErr))
          else st_ret (Ok None)
      end
  end.

(* [internal/modes/agent/agent.go:236-251 Run] *)
Definition connect_mock : ST W (result (Client W)) :=
  st_try (c_Initialize mock_client mock_config) id (λ _, st_ret (Ok mock_client)).

(** Serving, then closing the client. *)
(* [internal/modes/agent/agent.go:268-287 Run] *)
Definition serve_client (fl : AgentFlags) (client : Client W) : ST W (result unit) :=
  let tls := if bool_decide (fl_tlsCertFile fl ≠ "") || bool_decide (fl_tlsKeyFile fl ≠ "") || bool_decide (fl_tlsClientCAFile fl ≠ "")
             then Some (fl_tlsCertFile fl, fl_tlsKeyFile fl, fl_tlsClientCAFile fl) else None in
  st_try (serve client tls) id (λ _, do! c_Close client in st_ret (Ok ())).

(** The client the agent serves.  The daemon is started for the hardware one, and stays
    until the agent ends even if the mock client is used instead. *)
(* [internal/modes/agent/agent.go:162-251 Run] *)
Definition select_client (fl : AgentFlags) (logLevel namespace : string) : ST W (result (Client W * option PCSCDManager)) :=
  st_try (usePKCS11 fl) id (λ use,
    if (use : bool) then
      let* '(r, pcscd) := pcscd_Start dm (NewPCSCDManager (bool_decide (logLevel = "debug"))) in
      match r with
      | Err err => st_ret (Err (wrapf "failed to start pcscd" err))
      | Ok _ =>
          let* c := connect_hardware fl namespace in
          match c with
          | Err err => do! pcscd_Stop dm pcscd in st_ret (Err err)
          | Ok (Some client) => st_ret (Ok (client, Some pcscd))
          | Ok None =>
              let* m := connect_mock in
              match m with
              | Err err => do! pcscd_Stop dm pcscd in st_ret (Err err)
              | Ok client => st_ret (Ok (client, Some pcscd))
              end
          end
      end
    else st_try connect_mock id (λ client, st_ret (Ok (client, None)))).

(** [NewForConfig] creates both Kubernetes clients; only the typed one must not fail. *)
(* [internal/modes/agent/agent.go:53-288 Run] *)
Definition agent_Run (fl : AgentFlags) (logLevel : string) : ST W (result unit) :=
  if bool_decide (fl_deviceName fl = "") then st_ret (Err (errorf "device name is required via --device-name"))
  else
    st_try GetConfig id (λ _,
    st_try NewForConfig id (λ _,
    match NewAgentConfigFromEnv env with
    | Err err => st_ret (Err (wrapf "failed to create agent config" err))
    | Ok agentConfig =>
        let agentConfig := with_flags fl agentConfig in
        match validate_agent agentConfig with
        | Err err => st_ret (Err (wrapf "invalid agent configuration" err))
        | Ok _ =>
            st_try (select_client fl logLevel (ac_PodNamespace agentConfig)) id (λ '(client, pcscd),
              let* r := serve_client fl client in
              do! (match pcscd with Some p => do! pcscd_Stop dm p in st_ret () | None => st_ret () end) in
              st_ret r)
        end
    end)).
End Run.

(** ** Redaction *)

Definition occurs (q s : string) : Prop := ∃ a b, s = a +:+ q +:+ b.
Fixpoint star_free (s : string) : bool :=
  match s with EmptyString => true | String c s' => negb (bool_decide (c = "*"%char)) && star_free s' end.

Lemma replace_from_skip old new k s : replace_from old new k s = replace_from old new 0 (str_drop k s).
Proof.
  revert k. induction s as [|c s IH]; intros [|k]; try done. cbn [replace_from str_drop]. rewrite IH. done.
Qed.

(** A star-free text at the front of the result was there before. *)
Lemma replaced_prefix old q s :
  star_free q = true → has_prefix (ReplaceAll s old "***") q = true → has_prefix s q = true.
Proof.
  unfold ReplaceAll. revert s. induction q as [|d q IH]; intros s Hq; [by destruct s|].
  destruct s as [|c s]; [done|]. cbn [replace_from]. cbn [star_free] in Hq. apply andb_true_iff in Hq as [Hd Hq].
  rewrite negb_true_iff, bool_decide_eq_false in Hd. destruct (has_prefix (String c s) old).
  - intros Hx. exfalso. apply Hd. cbn in Hx. apply andb_true_iff in Hx as [Hx _]. by apply bool_decide_eq_true in Hx.
  - cbn [has_prefix]. rewrite !andb_true_iff. intros [Hc Hp]. split; [done|]. by apply IH.
Qed.

(** It was there outside the occurrences that were replaced. *)
Lemma replaced_occurs old q s :
  old ≠ "" → q ≠ "" → star_free q = true → occurs q (ReplaceAll s old "***") →
  ∃ a t, s = a +:+ t ∧ has_prefix t q = true ∧ has_prefix t old = false.
Proof.
  intros Hold Hq Hs. remember (String.length s) as n eqn:En. revert s En.
  induction (lt_wf n) as [n _ IH]. intros s -> [a [b E]]. destruct s as [|c s].
  { unfold ReplaceAll in E. cbn in E. destruct q; [done|]. destruct a; discriminate E. }
  unfold ReplaceAll in E. cbn [replace_from] in E. destruct (has_prefix (String c s) old) eqn:Ho.
  - rewrite replace_from_skip in E. destruct q as [|d q]; [done|]. cbn [star_free] in Hs.
    apply andb_true_iff in Hs as [Hd Hs']. rewrite negb_true_iff, bool_decide_eq_false in Hd.
    assert (∃ a', ReplaceAll (str_drop (pred (String.length old)) s) old "***" = a' +:+ String d q +:+ b) as [a' Ea].
    { unfold ReplaceAll. destruct a as [|c1 [|c2 [|c3 a]]]; cbn in E; injection E as; try congruence. by exists a. }
    destruct (IH (String.length (str_drop (pred (String.length old)) s))) with (s := str_drop (pred (String.length old)) s)
      as (a'' & t & Et & Hp & Hn); [|done|by exists a', b|].
    + cbn [String.length]. pose proof (str_drop_le (pred (String.length old)) s). lia.
    + exists (String c (str_take (pred (String.length old)) s) +:+ a''), t. split; [|done].
      rewrite str_app_assoc, <-Et. symmetry. exact (f_equal (String c) (str_take_drop _ _)).
  - destruct a as [|c' a].
    + exists "", (String c s). split; [done|]. split; [|done]. apply (replaced_prefix old q); [done|].
      unfold ReplaceAll. cbn [replace_from]. rewrite Ho, E. exact (has_prefix_app q b).
    + cbn in E. injection E as <- E. destruct (IH (String.length s)) with (s := s) as (a' & t & -> & Hp & Hn);
        [cbn; lia|done|by exists a, b|]. by exists (String c a'), t.
Qed.

Lemma replaced_keeps_out old q s :
  old ≠ "" → q ≠ "" → star_free q = true → q = old ∨ ¬ occurs q s → ¬ occurs q (ReplaceAll s old "***").
Proof.
  intros Ho Hq Hs Hor Hocc. destruct (replaced_occurs old q s Ho Hq Hs Hocc) as (a & t & -> & Hp & Hn).
  destruct Hor as [->|Hno]; [congruence|]. apply has_prefix_spec in Hp as [r ->]. apply Hno. by exists a, r.
Qed.

(** Whatever the tool printed, no PIN is left in the text that is logged, for PINs
    without the character the mask is made of. *)
Theorem redactPINs_clean s secrets pin :
  pin ∈ secrets → pin ≠ "" → star_free pin = true → ¬ occurs pin (redactPINs s secrets).
Proof.
  intros Hin Hp Hs. unfold redactPINs.
  assert (∀ l s, ¬ occurs pin s → ¬ occurs pin (fold_left (λ s secret,
            if bool_decide (secret ≠ "") then ReplaceAll s secret "***" else s) l s)) as Hkeep.
  { induction l as [|x l IH]; intros t Ht; [done|]. cbn [fold_left]. apply IH. case_bool_decide; [|done].
    apply replaced_keeps_out; try done. by right. }
  revert s. induction secrets as [|x l IH]; [by apply not_elem_of_nil in Hin|]. intros s. cbn [fold_left].
  apply elem_of_cons in Hin as [<-|Hin]; [|by apply IH]. apply Hkeep. rewrite bool_decide_true by done.
  apply replaced_keeps_out; try done. by left.
Qed.

(** ** Which tokens are initialized *)
Section OnlyBlank.
Context {W : Type} (host : Host W) (deviceName namespace : string) (pinProvider : PINProvider W) (hsmConfig : Config W).
(** What the other calls leave as it was, say the contents of the tokens. *)
Context (R : relation W) `{!PreOrder R}.
Hypothesis device_keeps : ∀ n ns, preserves R (GetHSMDevice host n ns).
Hypothesis event_keeps : ∀ d e, preserves R (CreateEvent host d e).
Hypothesis blank_keeps : preserves R (IsTokenBlank (NewContext host) hsmConfig).
Hypothesis pin_keeps : preserves R (Hsm.GetPIN pinProvider).

Hypothesis rand_keeps : ∀ n, preserves R (rand_Read host n).

(** The device opted in to being initialized. *)
Definition opted_in (w : W) (w1 : W) : Prop :=
  ∃ device p, GetHSMDevice host deviceName namespace w = (Ok device, w1) ∧
    hd_PKCS11 (hd_Spec device) = Some p ∧ pk_AutoProvision p = true.

(** It did, and every token could be inspected and exactly one was found blank. *)
Definition blank_device (w : W) (w2 : W) : Prop :=
  ∃ w1, opted_in w w1 ∧ IsTokenBlank (NewContext host) hsmConfig w1 = (Ok true, w2).

(** And there is a PIN for it. *)
Definition may_initialize (w : W) (pin : string) : Prop :=
  ∃ w2 w3, blank_device w w2 ∧ Hsm.GetPIN pinProvider w2 = (Ok pin, w3) ∧ pin ≠ "".

(** The tool was run to set the PIN, from a world with the same tokens, and ended with
    [r] in one that has those of [w']. *)
Definition initialized (w : W) (pin : string) (r : result unit) (w' : W) : Prop :=
  ∃ w1 soPIN out w2,
    R w w1 ∧
    run_tool host scHSMToolPath (["--initialize"; "--so-pin"; soPIN; "--pin"; pin] ++
      if bool_decide (deviceName = "") then [] else ["--label"; deviceName]) w1 = ((r, out), w2) ∧
    R w2 w'.

(** [Provision] runs the tool once, and reports what it says, or does nothing. *)
Lemma Provision_run pin w r w' :
  Provision (rand_Read host) (run_tool host) pin deviceName w = (r, w') →
  (R w w' ∧ r ≠ Ok ()) ∨
  (pin ≠ "" ∧ ∃ t, initialized w pin t w' ∧ is_Ok t = is_Ok r).
Proof.
  unfold Provision. case_bool_decide as Hp; [intros [= <- <-]; left; by split|].
  unfold GenerateSOPIN, st_try. unfold st_bind at 1 2. destruct (rand_Read host 8 w) as [[buf|e] w1] eqn:E1;
    pose proof (preserves_at R _ _ _ _ (rand_keeps _) E1) as R1; unfold st_ret; [|intros [= <- <-]; left; by split].
  unfold st_bind. destruct (run_tool host scHSMToolPath _ w1) as [[t out] w2] eqn:E2. intros [= <- <-]. right.
  split; [done|]. exists t. split; [|by destruct t as [[]|]].
  exists w1, (to_upper (hex buf)), out, w2. split_and!; [done| |done]. rewrite <-E2. do 3 f_equal.
  by repeat case_bool_decide.
Qed.

Lemma opted_in_iff w r w1 :
  GetHSMDevice host deviceName namespace w = (r, w1) → ∀ w1', opted_in w w1' ↔ w1' = w1 ∧
    match r with
    | Ok d => match hd_PKCS11 (hd_Spec d) with Some p => pk_AutoProvision p | None => false end = true
    | Err _ => False
    end.
Proof.
  intros E w1'. unfold opted_in. rewrite E. split.
  - intros (d & p & [= -> ->] & Hp & Ha). split; [done|]. by rewrite Hp.
  - intros [-> Hr]. destruct r as [d|e]; [|done]. destruct (hd_PKCS11 (hd_Spec d)) as [p|] eqn:Hp; [|done].
    exists d, p. by rewrite Hp.
Qed.

Lemma blank_iff w w1 b w2 :
  opted_in w w1 → IsTokenBlank (NewContext host) hsmConfig w1 = (b, w2) →
  ∀ w2', blank_device w w2' ↔ w2' = w2 ∧ b = Ok true.
Proof.
  intros Hin E w2'. unfold blank_device. split.
  - intros (w1' & Hin' & E').
    assert (w1' = w1) as -> by (destruct Hin as (? & ? & Hg & _), Hin' as (? & ? & Hg' & _); congruence).
    rewrite E in E'. by injection E' as -> ->.
  - intros [-> ->]. by exists w1.
Qed.

Lemma not_opted_in w w' :
  R w w' → (∀ w1, ¬ opted_in w w1) →
  (false = true ↔ ∃ w1, opted_in w w1) ∧
  ((R w w' ∧ false = false ∧ (is_Some (None : option error) ↔ ∃ w2, blank_device w w2)) ∨
   ∃ pin t, may_initialize w pin ∧ initialized w pin t w' ∧
     match t with Ok _ => false = true ∧ (None : option error) = None | Err _ => false = false ∧ is_Some (None : option error) end).
Proof.
  intros HR Hno. split; [split; [done|intros [w1 Hw]; by destruct (Hno w1)]|]. left. split_and!; [done|done|].
  split; [by intros [? ?]|]. intros (w2 & w1 & Hw & _). by destruct (Hno w1).
Qed.

(** C30. Starting an agent initializes a token, which erases it, only when the device has
    opted in, every token could be inspected and exactly one was found blank, and there
    is a user PIN. Then the tool is run once to set that PIN, and success is reported
    exactly if the tool reports it. In every other case nothing but what the other calls
    do happens, no initialization is reported, and a failure is reported exactly if the
    device is blank; in all cases that the device opted in is. *)
Theorem only_blank_tokens_initialized w provisioned requested err w' :
  attemptAutoProvision host deviceName namespace pinProvider hsmConfig w = ((provisioned, requested, err), w') →
  (requested = true ↔ ∃ w1, opted_in w w1) ∧
  ((R w w' ∧ provisioned = false ∧ (is_Some err ↔ ∃ w2, blank_device w w2)) ∨
   ∃ pin t, may_initialize w pin ∧ initialized w pin t w' ∧
     match t with
     | Ok _ => provisioned = true ∧ err = None
     | Err _ => provisioned = false ∧ is_Some err
     end).
Proof.
  unfold attemptAutoProvision, emitDeviceEvent. unfold st_bind at 1.
  destruct (GetHSMDevice host deviceName namespace w) as [r w1] eqn:E1.
  pose proof (preserves_at R _ _ _ _ (device_keeps _ _) E1) as R1. pose proof (opted_in_iff w r w1 E1) as Hopt.
  destruct r as [d|e].
  2:{ intros [= <- <- <- <-]. apply not_opted_in; [exact R1|]. by intros w2 [_ ?]%Hopt. }
  destruct (match hd_PKCS11 (hd_Spec d) with Some p => pk_AutoProvision p | None => false end) eqn:Ea; cbn [negb].
  2:{ intros [= <- <- <- <-]. apply not_opted_in; [exact R1|]. by intros w2 [_ ?]%Hopt. }
  assert (opted_in w w1) as Hin by by apply Hopt. unfold st_bind at 1.
  destruct (IsTokenBlank (NewContext host) hsmConfig w1) as [b w2] eqn:E2.
  pose proof (preserves_at R _ _ _ _ blank_keeps E2) as R2. assert (R w w2) as Rw2 by by etrans.
  pose proof (blank_iff w w1 b w2 Hin E2) as Hblank.
  assert (∀ ev res v, R w v → (let* _ := CreateEvent host d ev in st_ret res) v = ((provisioned, requested, err), w') →
    res = (provisioned, requested, err) ∧ R v w') as Hev.
  { intros ev res v Rv. unfold st_bind, st_ret. destruct (CreateEvent host d ev v) as [[] v'] eqn:Ev. intros [= -> <-].
    split; [done|]. exact (preserves_at R _ _ _ _ (event_keeps _ _) Ev). }
  assert (∀ ev v err', R w v → (is_Some err' ↔ b = Ok true) →
    (let* _ := CreateEvent host d ev in st_ret (false, true, err')) v = ((provisioned, requested, err), w') →
    (requested = true ↔ ∃ w1, opted_in w w1) ∧ R w w' ∧ provisioned = false ∧ (is_Some err ↔ ∃ w2, blank_device w w2)) as Hskip.
  { intros ev v err' Rv Hiff He. apply Hev in He as [[= <- <- <-] Rw']; [|done]. rewrite Hiff.
    split; [split; [by exists w1|done]|]. split; [by etrans|]. split; [done|]. split.
    - intros Hb. exists w2. by apply Hblank.
    - by intros (w2' & [_ ?]%Hblank). }
  destruct b as [[]|e]; [|intros He; apply Hskip in He as [? ?]; [by auto|done|by split; [intros [? ?]|]]..].
  unfold st_bind at 1. destruct (Hsm.GetPIN pinProvider w2) as [[pin|e] w3] eqn:E3;
    pose proof (preserves_at R _ _ _ _ pin_keeps E3) as R3; assert (R w w3) as Rw3 by by etrans.
  2:{ intros He; apply Hskip in He as [? ?]; [by auto|done|by split]. }
  unfold st_bind at 1. destruct (CreateEvent host d _ w3) as [[] w4] eqn:E4.
  pose proof (preserves_at R _ _ _ _ (event_keeps _ _) E4) as R4. assert (R w w4) as Rw4 by by etrans.
  unfold st_bind at 1. destruct (Provision _ _ pin deviceName w4) as [res w5] eqn:E5.
  apply Provision_run in E5 as [[R5 Hne]|(Hpin & t & Hini & Ht)].
  - assert (R w w5) as Rw5 by by etrans. destruct res as [[]|e]; [done|].
    intros He; apply Hskip in He as [? ?]; [by auto|done|by split].
  - intros He. assert (∃ ev res', (let* _ := CreateEvent host d ev in st_ret (is_Ok res, true, res')) w5 =
      ((provisioned, requested, err), w') ∧ (is_Some res' ↔ is_Ok res = false)) as (ev & res' & He' & Hres).
    { destruct res as [[]|e]; eexists _, _; (split; [exact He|]); (split; [by intros [? ?]|done]). }
    clear He. revert He'. unfold st_bind, st_ret. destruct (CreateEvent host d ev w5) as [[] w6] eqn:E6.
    pose proof (preserves_at R _ _ _ _ (event_keeps _ _) E6) as R6. intros [= <- <- <- <-].
    split; [split; [by exists w1|done]|]. right. exists pin, t. split; [|split].
    + exists w2, w3. split; [by apply Hblank|done].
    + destruct Hini as (wa & so & out & wb & Ra & Er & Rb). exists wa, so, out, wb. split_and!; [by etrans|done|by etrans].
    + destruct t as [?|?], res as [[]|?]; try done.
      * split; [done|]. destruct res'; [|done]. by discriminate (proj1 Hres (mk_is_Some _ _ eq_refl)).
      * split; [done|]. by apply Hres.
Qed.
End OnlyBlank.

Section Hardware.
Context {W : Type} (host : Host W) (dm : Daemon W) (os_Stat : string → ST W (result unit)).
Context (pkcs11_client mock_client : Client W) (pinProvider : PINProvider W).

(** An agent whose configuration is valid and that requires hardware, the default,
    never serves the mock client: it serves the PKCS#11 client, initialized with the
    configuration of the flags, or does not start. *)
Theorem required_hardware_is_served fl c logLevel namespace client pcscd w w' :
  validate_agent (with_flags fl c) = Ok () → fl_requireHardware fl = true →
  select_client host dm os_Stat pkcs11_client mock_client pinProvider fl logLevel namespace w = (Ok (client, pcscd), w') →
  client = pkcs11_client ∧ ∃ v, c_Initialize pkcs11_client (hsm_config fl pinProvider) v = (Ok (), w').
Proof.
  intros Hv Hr. assert (fl_pkcs11LibraryPath fl ≠ "") as Hpath.
  { unfold validate_agent in Hv. repeat (case_bool_decide; [done|]). done. }
  unfold select_client, st_try. unfold st_bind at 1. destruct (usePKCS11 os_Stat fl w) as [[use|e] w1] eqn:Eu; [|done].
  assert (use = true) as ->.
  { unfold usePKCS11 in Eu. rewrite bool_decide_eq_false_2 in Eu by done. unfold st_bind, st_ret in Eu.
    destruct (os_Stat _ w) as [[[]|e] w2]; rewrite ?Hr in Eu; [|done]. destruct (_ || _); congruence. }
  unfold st_bind at 1. destruct (pcscd_Start _ _ w1) as [[[[]|e] p] w2]; [|done].
  unfold st_bind at 1. unfold connect_hardware. unfold st_bind at 1.
  destruct (c_Initialize pkcs11_client _ w2) as [[[]|e] w3] eqn:Ei.
  { intros [= <- <- <-]. by split; [|exists w2]. }
  unfold st_bind at 1. destruct (attemptAutoProvision _ _ _ _ _ w3) as [[[pr rq] [pe|]] w4].
  { simpl. unfold st_bind. by destruct (pcscd_Stop dm p w4). }
  destruct pr.
  - unfold st_try, st_bind at 1. destruct (c_Initialize pkcs11_client _ w4) as [[[]|e'] w5] eqn:Ei2.
    + intros [= <- <- <-]. by split; [|exists w4].
    + simpl. unfold st_bind. by destruct (pcscd_Stop dm p w5).
  - rewrite Hr. destruct rq; simpl; unfold st_bind; by destruct (pcscd_Stop dm p w4).
Qed.

(** It does not even matter what the mock client is, nor what serving it would do. *)
Lemma usePKCS11_required fl w use w' :
  fl_requireHardware fl = true → fl_pkcs11LibraryPath fl ≠ "" → usePKCS11 os_Stat fl w = (Ok use, w') → use = true.
Proof.
  intros Hr Hp. unfold usePKCS11, st_bind, st_ret. rewrite bool_decide_eq_false_2, Hr by done.
  destruct (os_Stat _ w) as [[[]|e] w2]; [|done]. destruct (_ || _); congruence.
Qed.
Lemma connect_hardware_required fl namespace w c w' :
  fl_requireHardware fl = true → connect_hardware host pkcs11_client pinProvider fl namespace w = (Ok c, w') → c = Some pkcs11_client.
Proof.
  intros Hr. unfold connect_hardware, st_try. unfold st_bind at 1. destruct (c_Initialize pkcs11_client _ w) as [[[]|e] w1]; [by intros [= <- _]|].
  unfold st_bind at 1. destruct (attemptAutoProvision _ _ _ _ _ w1) as [[[pr rq] [pe|]] w2]; [done|].
  destruct pr; [unfold st_bind; destruct (c_Initialize pkcs11_client _ w2) as [[[]|e'] w3]; [by intros [= <- _]|done]|].
  destruct rq; [done|]. by rewrite Hr.
Qed.
Lemma select_client_no_mock mock' fl logLevel namespace w :
  fl_requireHardware fl = true → fl_pkcs11LibraryPath fl ≠ "" →
  select_client host dm os_Stat pkcs11_client mock_client pinProvider fl logLevel namespace w =
  select_client host dm os_Stat pkcs11_client mock' pinProvider fl logLevel namespace w.
Proof.
  intros Hr Hp. unfold select_client, st_try, st_bind.
  destruct (usePKCS11 os_Stat fl w) as [[use|e] w1] eqn:Eu; [|done]. apply usePKCS11_required in Eu as ->; [|done|done].
  destruct (pcscd_Start _ _ w1) as [[[[]|e] p] w2]; [|done].
  destruct (connect_hardware _ _ _ _ _ w2) as [[c|e] w3] eqn:Ec; [|done]. by apply connect_hardware_required in Ec as ->.
Qed.
End Hardware.

Lemma agent_Run_no_mock {W} (host : Host W) dm env GetConfig NewForConfig os_Stat (pkcs11_client mock mock' : Client W) pinProvider
    serve serve' fl logLevel w :
  (∀ tls, serve pkcs11_client tls = serve' pkcs11_client tls) → fl_requireHardware fl = true →
  agent_Run host dm env GetConfig NewForConfig os_Stat pkcs11_client mock pinProvider serve fl logLevel w =
  agent_Run host dm env GetConfig NewForConfig os_Stat pkcs11_client mock' pinProvider serve' fl logLevel w.
Proof.
  intros Hs Hr. unfold agent_Run. case_bool_decide; [done|]. unfold st_try, st_bind.
  destruct (GetConfig w) as [[[]|e] w1]; [|done]. destruct (NewForConfig w1) as [[[]|e] w2]; [|done].
  destruct (NewAgentConfigFromEnv env) as [c|e]; [|done]. destruct (validate_agent (with_flags fl c)) as [[]|e] eqn:Hv; [|done].
  assert (fl_pkcs11LibraryPath fl ≠ "") as Hp.
  { unfold validate_agent in Hv. repeat (case_bool_decide; [done|]). done. }
  rewrite (select_client_no_mock _ _ _ _ mock _ mock' fl) by done.
  destruct (select_client _ _ _ _ _ _ _ _ _ w2) as [[[client pcscd]|e] w3] eqn:Es; [|done].
  eapply required_hardware_is_served in Es as [-> _]; [|done|done]. unfold serve_client, st_try, st_bind. by rewrite Hs.
Qed.

(** ** Witnesses *)
Module ProvisionWitness.
Definition device (auto : bool) : HSMDevice :=
  mkHSMDevice (mkObjectMeta "pico" "hsm" "" 1 ∅ ∅ [] None [] (mkTime 0 0) 1)
    (mkHSMDeviceSpec "PicoHSM" None ∅ (Some (mkDevicePKCS11Config "lib" 0 None "" auto)) 1 None).
(** The tool erases the token. *)
Definition host (auto : bool) : Host SoftToken.Token := mkHost (λ _ _, st_ret (Ok (device auto))) (λ _ _, st_ret ())
  (λ _, st_ret (Some SoftToken.blank_ctx)) (λ n, st_ret (Ok (repeat 171 n))) (λ _ _ _, ((Ok (), ""), SoftToken.mkToken ∅ None)).
Definition pins : PINProvider SoftToken.Token := static_provider (NewStaticPINProvider "648219").
Definition provision (auto : bool) : (bool * bool * option error) * SoftToken.Token :=
  attemptAutoProvision (host auto) "pico" "hsm" pins SoftToken.config SoftToken.tok.

Example only_blank_tokens_initialized_witness :
  provision true = ((true, true, None), SoftToken.mkToken ∅ None) ∧ provision false = ((false, false, None), SoftToken.tok) ∧
  ∃ pin t, may_initialize (host true) "pico" "hsm" pins SoftToken.config SoftToken.tok pin ∧
    initialized (host true) "pico" eq SoftToken.tok pin t (SoftToken.mkToken ∅ None).
Proof.
  assert (provision true = ((true, true, None), SoftToken.mkToken ∅ None)) as E by reflexivity.
  split; [exact E|]. split; [reflexivity|].
  destruct (only_blank_tokens_initialized (host true) "pico" "hsm" pins SoftToken.config eq
    (λ _ _ _, eq_refl) (λ _ _ _, eq_refl) (λ _, eq_refl) (λ _, eq_refl) (λ _ _, eq_refl) SoftToken.tok true true None
    (SoftToken.mkToken ∅ None) E) as [_ [(_ & Hp & _)|(pin & t & Hm & Hi & _)]]; [discriminate Hp|by exists pin, t].
Defined.

Definition fleet_host : Host Fleet := mkHost (λ _ _, st_ret (Err (errorf "down"))) (λ _ _, st_ret ()) (λ _, st_ret None)
  (λ _, st_ret (Err (errorf "no randomness"))) (λ _ _, st_ret (Err (errorf "no tool"), "")).
Definition daemon : Daemon Fleet := mkDaemon (λ _, st_ret (Ok ())) (λ _, st_ret (Ok ())) (λ _, false) (λ _, st_ret true)
  (λ _ _, st_ret (Ok ())) (st_ret false) (st_ret (Ok ())) (st_ret (Ok ())) (st_ret (Some (Ok ()))).
Definition flags : AgentFlags := mkAgentFlags "pico" 9090 8093 "/lib/opensc.so" (-1) "hsm" true "" "" "".
Definition fleet_pins : PINProvider Fleet := static_provider (NewStaticPINProvider "648219").
#[local] Existing Instance listed_order.
Definition selected : result (Client Fleet * option PCSCDManager) * Fleet :=
  select_client fleet_host daemon (λ _, st_ret (Ok ())) (mock_of "A") (mock_of "B") fleet_pins flags "info" "hsm" ∅.
Definition config0 : AgentConfig := mkAgentConfig "" "" "" "pod" "hsm" "" "" "".

Example required_hardware_is_served_witness :
  ∃ v, c_Initialize (mock_of "A") (hsm_config flags fleet_pins) v = (Ok (), selected.2).
Proof.
  assert (∃ p, selected.1 = Ok (mock_of "A", p)) as [p E] by (eexists; reflexivity).
  destruct (required_hardware_is_served fleet_host daemon (λ _, st_ret (Ok ())) (mock_of "A") (mock_of "B") fleet_pins
    flags config0 "info" "hsm" (mock_of "A") p ∅ selected.2) as [_ Hi].
  - reflexivity.
  - reflexivity.
  - rewrite <-E. apply surjective_pairing.
  - exact Hi.
Defined.

Example redactPINs_clean_witness :
  redactPINs "so 1234 pin 648219" ["1234"; "648219"] = "so *** pin ***" ∧ ¬ occurs "648219" (redactPINs "so 1234 pin 648219" ["1234"; "648219"]).
Proof.
  split; [reflexivity|]. apply redactPINs_clean; [right; left|discriminate|reflexivity].
Defined.
End ProvisionWitness.
