(* ===== verification/Proto.v ===== *)
(** * api/proto/hsm/v1/hsm.pb.go: the messages of the agent's gRPC service

    The exported fields of the generated structs.  A message field is a pointer
    ([option]); a map field that is nil is [None].  [wire_request] and
    [wire_response] are what encoding and decoding a message does to it: proto3
    does not encode an empty map, so it is nil on the other side; everything else
    is kept.  (A string that is not UTF-8 makes the encoding fail; a call may fail
    for this and for many other reasons, see [Grpc.Conn].) *)

From S2P Require Import Prelude GoStd Hsm.

(* [api/proto/hsm/v1/hsm.pb.go:25-34 HSMInfo] *)
Record PbHSMInfo := mkPbHSMInfo {
  pi_Label : string;
  pi_Manufacturer : string;
  pi_Model : string;
  pi_SerialNumber : string;
  pi_FirmwareVersion : string;
}.

(* [api/proto/hsm/v1/hsm.pb.go:101-106 SecretData] *)
Record PbSecretData := mkPbSecretData {
  pd_Data : option (gmap string string);
}.

(* [api/proto/hsm/v1/hsm.pb.go:145-155 SecretMetadata] *)
Record PbSecretMetadata := mkPbSecretMetadata {
  pm_Description : string;
  pm_Labels : option (gmap string string);
  pm_Format : string;
  pm_DataType : string;
  pm_CreatedAt : string;
  pm_Source : string;
}.

(* [api/proto/hsm/v1/hsm.proto:63-132 requests] *)
Inductive Request :=
  | GetInfoRequest
  | ReadSecretRequest (Path : string)
  | WriteSecretRequest (Path : string) (SecretData : option PbSecretData) (Metadata : option PbSecretMetadata)
  | ReadMetadataRequest (Path : string)
  | DeleteSecretRequest (Path Key : string)
  | ListSecretsRequest (Prefix : string)
  | GetChecksumRequest (Path : string)
  | IsConnectedRequest
  | HealthRequest
  | ChangePINRequest (OldPin NewPin : string).

(* [api/proto/hsm/v1/hsm.proto:65-134 responses] *)
Inductive Response :=
  | GetInfoResponse (HsmInfo : option PbHSMInfo)
  | ReadSecretResponse (SecretData : option PbSecretData)
  | WriteSecretResponse
  | ReadMetadataResponse (Metadata : option PbSecretMetadata)
  | DeleteSecretResponse
  | ListSecretsResponse (Paths : list string)
  | GetChecksumResponse (Checksum : string)
  | IsConnectedResponse (Connected : bool)
  | HealthResponse (Status Message : string)
  | ChangePINResponse.

(** [req.(interface{ GetPath() string })]: the messages with a path have the getter. *)
(* [api/proto/hsm/v1/hsm.pb.go:347-352 GetPath] *)
Definition GetPath (req : Request) : option string :=
  match req with
  | ReadSecretRequest path | WriteSecretRequest path _ _ | ReadMetadataRequest path
  | DeleteSecretRequest path _ | GetChecksumRequest path => Some path
  | _ => None
  end.

(** ** The wire *)
Definition wire_map (m : option (gmap string string)) : option (gmap string string) :=
  match m with
  | Some m' => if bool_decide (m' = ∅) then None else Some m'
  | None => None
  end.
Definition wire_data (d : PbSecretData) : PbSecretData := mkPbSecretData (wire_map (pd_Data d)).
Definition wire_metadata (m : PbSecretMetadata) : PbSecretMetadata :=
  mkPbSecretMetadata (pm_Description m) (wire_map (pm_Labels m)) (pm_Format m) (pm_DataType m)
    (pm_CreatedAt m) (pm_Source m).
Definition wire_request (req : Request) : Request :=
  match req with
  | WriteSecretRequest path data md => WriteSecretRequest path (wire_data <$> data) (wire_metadata <$> md)
  | _ => req
  end.
Definition wire_response (resp : Response) : Response :=
  match resp with
  | ReadSecretResponse data => ReadSecretResponse (wire_data <$> data)
  | ReadMetadataResponse md => ReadMetadataResponse (wire_metadata <$> md)
  | _ => resp
  end.

Lemma wire_map_idemp m : wire_map (wire_map m) = wire_map m.
Proof. destruct m as [m|]; [|done]. simpl. case_bool_decide; [done|]. simpl. by rewrite bool_decide_false. Qed.

Lemma wire_map_contents m : default ∅ (wire_map m) = default ∅ m.
Proof. destruct m as [m|]; [|done]. simpl. by case_bool_decide. Qed.

Lemma wire_GetPath req : GetPath (wire_request req) = GetPath req.
Proof. by destruct req. Qed.
