(* ===== verification/Validation.v ===== *)
(** * internal/security/validation.go: input validation at the agent

    The five regular expressions the package compiles are all of the shape
    [^]? body [$]?, with a body that is a literal or one or more characters of a
    class; [MatchString] is their (unanchored) search.  The interceptor is a
    function of the request's type: [AnyRequest] gives the results of the type
    assertions its switches make. *)

From S2P Require Import Prelude GoStd Hsm Pkcs11 Proto.
From Stdlib Require Import Ascii.

(** ** Package regexp, for these patterns *)
Inductive regexp_body :=
  | OneOrMore (class : ascii → bool)
  | Literal (text : string).
Record Regexp := mkRegexp { at_start : bool; body : regexp_body; at_end : bool }.

(** A match of the body at the start of [s] (and up to its end, if [at_end]). *)
Definition match_here (re : Regexp) (s : string) : bool :=
  match body re with
  | OneOrMore class =>
      match s with
      | EmptyString => false
      | String c s' => class c && (if at_end re then str_forallb class s' else true)
      end
  | Literal text =>
      has_prefix s text && (if at_end re then bool_decide (str_drop (String.length text) s = "") else true)
  end.
Fixpoint search (re : Regexp) (s : string) : bool :=
  match_here re s || match s with EmptyString => false | String _ s' => search re s' end.
Definition MatchString (re : Regexp) (s : string) : bool :=
  if at_start re then match_here re s else search re s.

(** ** The constants and patterns *)
(* [internal/security/validation.go:32-32] *)
Definition MaxSecretPathLength : Z := 256.
(* [internal/security/validation.go:34-34] *)
Definition MaxSecretDataSize : Z := 1024 * 1024.
(* [internal/security/validation.go:36-36] *)
Definition MaxMetadataFieldLength : Z := 1024.

(** [[a-zA-Z0-9/_-]] *)
Definition path_char (c : ascii) : bool :=
  is_alnum c || bool_decide (c = "/"%char) || bool_decide (c = "_"%char) || bool_decide (c = "-"%char).

(* [internal/security/validation.go:41-41] *)
Definition validPathPattern : Regexp := mkRegexp true (OneOrMore path_char) true.
(* [internal/security/validation.go:43-49 forbiddenPatterns] *)
Definition forbiddenPatterns : list Regexp := [
  mkRegexp false (Literal "..") false;
  mkRegexp false (Literal "//") false;
  mkRegexp true (Literal "/") false;
  mkRegexp false (Literal "/") true;
  mkRegexp false (Literal "_metadata") true].

(** ** The validators *)
(* [internal/security/validation.go:61-83] *)
Definition ValidateSecretPath (path : string) : result unit :=
  if bool_decide (path = "") then Err (errorf "secret path cannot be empty")
  else if MaxSecretPathLength <? str_len path
  then Err (errorf ("secret path too long: " +:+ go_itoa (str_len path) +:+ " > " +:+ go_itoa MaxSecretPathLength))
  else if negb (MatchString validPathPattern path)
  then Err (errorf ("secret path contains invalid characters: " +:+ path))
  else if existsb (λ pattern, MatchString pattern path) forbiddenPatterns
  then Err (errorf ("secret path contains forbidden pattern: " +:+ path))
  else Ok ().

(** The loop of [ValidateSecretData], from a given [totalSize]. *)
(* [internal/security/validation.go:96-119 ValidateSecretData] *)
Fixpoint validate_pairs (kvs : list (string * string)) (totalSize : Z) : result unit :=
  match kvs with
  | [] => Ok ()
  | (key, value) :: kvs' =>
      if bool_decide (key = "") then Err (errorf "secret data key cannot be empty")
      else if MaxMetadataFieldLength <? str_len key
      then Err (errorf ("secret data key too long: " +:+ go_itoa (str_len key) +:+ " > " +:+
                        go_itoa MaxMetadataFieldLength))
      else if has_suffix key "_metadata"
      then Err (errorf ("secret data key cannot end with '_metadata': " +:+ key))
      else if negb (MatchString validPathPattern key)
      then Err (errorf ("secret data key contains invalid characters: " +:+ key))
      else
        let totalSize := totalSize + str_len value in
        if MaxSecretDataSize <? totalSize
        then Err (errorf ("secret data too large: " +:+ go_itoa totalSize +:+ " > " +:+ go_itoa MaxSecretDataSize))
        else validate_pairs kvs' totalSize
  end.

(* [internal/security/validation.go:86-122] *)
Definition ValidateSecretData `{MapOrder} (data : option (gmap string string)) : result unit :=
  match data with
  | None => Err (errorf "secret data cannot be nil")
  | Some data =>
      if Z.of_nat (size data) =? 0 then Err (errorf "secret data cannot be empty")
      else validate_pairs (range data) 0
  end.

(** [strings.ContainsAny(s, chars)] *)
Definition contains_any (chars : list Z) (s : string) : bool :=
  str_existsb (λ c, bool_decide (byte_val c ∈ chars)) s.

(* [internal/security/validation.go:130-147 ValidateMetadata] *)
Definition validate_label (key value : string) : result unit :=
  if MaxMetadataFieldLength <? str_len key
  then Err (errorf ("metadata key too long: " +:+ go_itoa (str_len key) +:+ " > " +:+ go_itoa MaxMetadataFieldLength))
  else if MaxMetadataFieldLength <? str_len value
  then Err (errorf ("metadata value too long: " +:+ go_itoa (str_len value) +:+ " > " +:+
                    go_itoa MaxMetadataFieldLength))
  else if contains_any [0; 10; 13] key
  then Err (errorf ("metadata key contains invalid characters: " +:+ key))
  else if contains_any [0] value
  then Err (errorf ("metadata value contains null bytes: " +:+ value))
  else Ok ().

Fixpoint validate_labels (kvs : list (string * string)) : result unit :=
  match kvs with
  | [] => Ok ()
  | (key, value) :: kvs' =>
      match validate_label key value with Ok _ => validate_labels kvs' | Err e => Err e end
  end.

(* [internal/security/validation.go:125-150] *)
Definition ValidateMetadata `{MapOrder} (secretMetadata : option (gmap string string)) : result unit :=
  match secretMetadata with
  | None => Ok ()
  | Some m => validate_labels (range m)
  end.

(** ** The interceptor *)

(** [codes.InvalidArgument] with a message. *)
Definition InvalidArgument (msg : string) : error := status_error "InvalidArgument" msg.

(** The results of the interceptor's type assertions on a request: the path; what
    [GetSecretData] and [GetMetadata] return, if their result type is the interface
    type written in the case (itself possibly nil). *)
Class AnyRequest (R : Type) := {
  as_GetPath : R → option string;
  as_GetSecretData : R → option (option (option (gmap string string)));
  as_GetMetadata : R → option (option (option (gmap string string)));
}.

(* [internal/security/validation.go:153-185] *)
Definition ValidationInterceptor `{MapOrder} {W R A} `{!AnyRequest R} (req : R)
    (handler : R → ST W (result A)) : ST W (result A) :=
  match match as_GetPath req with Some path => ValidateSecretPath path | None => Ok () end with
  | Err err => st_ret (Err (InvalidArgument ("invalid path: " +:+ error_string err)))
  | Ok _ =>
      match
        match as_GetSecretData req with
        | Some (Some data) =>
            match ValidateSecretData data with
            | Err err => Err (InvalidArgument ("invalid secret data: " +:+ error_string err))
            | Ok _ => Ok ()
            end
        | Some None => Ok ()
        | None =>
            match as_GetMetadata req with
            | Some (Some labels) =>
                match ValidateMetadata labels with
                | Err err => Err (InvalidArgument ("invalid metadata: " +:+ error_string err))
                | Ok _ => Ok ()
                end
            | _ => Ok ()
            end
        end
      with
      | Err err => st_ret (Err err)
      | Ok _ => handler req
      end
  end.

(** The generated messages: the getters [GetSecretData() *SecretData] and
    [GetMetadata() *SecretMetadata] return concrete pointer types, which are not
    the interface types of the cases, so these assertions fail on every message. *)
#[global] Instance pb_request : AnyRequest Request :=
  {| as_GetPath := GetPath; as_GetSecretData := λ _, None; as_GetMetadata := λ _, None |}.

(** ** Lemmas: strings *)
Lemma str_forallb_impl (f g : ascii → bool) s :
  (∀ c, f c = true → g c = true) → str_forallb f s = true → str_forallb g s = true.
Proof.
  intros Hfg. induction s as [|c s IH]; [done|]. cbn [str_forallb].
  intros [H1 H2]%andb_true_iff. by rewrite (Hfg c H1), IH.
Qed.

(** ** Lemmas: searching *)
Lemma search_spec re s : search re s = true ↔ ∃ a b, s = a +:+ b ∧ match_here re b = true.
Proof.
  induction s as [|c s IH]; cbn [search]; rewrite orb_true_iff.
  - split; [intros [H|H]; [by exists "", ""|done]|]. intros ([|x a] & b & Heq & Hm); [|done].
    change ("" = b) in Heq. subst b. by left.
  - rewrite IH. split.
    + intros [H|(a & b & -> & H)]; [by exists "", (String c s)|by exists (String c a), b].
    + intros ([|x a] & b & Heq & Hm); [change (String c s = b) in Heq; subst b; by left|].
      injection Heq as -> ->. right. by exists a, b.
Qed.

Lemma search_suffix text s : search (mkRegexp false (Literal text) true) s = has_suffix s text.
Proof.
  apply eq_true_iff_eq. rewrite search_spec, has_suffix_spec. unfold match_here. simpl. split.
  - intros (a & b & -> & [Hp%has_prefix_spec Hd%bool_decide_eq_true]%andb_true_iff).
    destruct Hp as [r ->]. rewrite str_drop_app in Hd. subst r. exists a. by rewrite str_app_nil_r.
  - intros [a ->]. exists a, text. split; [done|]. apply andb_true_iff. split.
    + apply has_prefix_spec. exists "". by rewrite str_app_nil_r.
    + apply bool_decide_eq_true. rewrite <-(str_app_nil_r text) at 2. apply str_drop_app.
Qed.

(** A literal with a character outside of a class does not occur in a string over
    the class. *)
Lemma search_outside class c text s :
  class c = false → str_forallb class s = true →
  search (mkRegexp false (Literal (String c text)) false) s = false.
Proof.
  intros Hc. induction s as [|d s IH]; [done|]. cbn [str_forallb search].
  intros [Hd Hs]%andb_true_iff. rewrite (IH Hs), orb_false_r. unfold match_here. simpl.
  rewrite andb_true_r. case_bool_decide; [congruence|done].
Qed.

(** ** Lemmas: the components of a path *)
Definition component_char (c : ascii) : bool := path_char c && negb (bool_decide (c = "/"%char)).
Definition nonempty (w : string) : Prop := w ≠ "".

Lemma str_split_cons s : ∃ w ws, str_split "/" s = w :: ws.
Proof.
  induction s as [|c s (w & ws & IH)]; simpl; [by eexists _, _|]. case_bool_decide; [by eexists _, _|].
  rewrite IH. by eexists _, _.
Qed.

Lemma split_nonempty s :
  (Forall nonempty (tail (str_split "/" s)) ↔
     search (mkRegexp false (Literal "//") false) s = false ∧
     search (mkRegexp false (Literal "/") true) s = false) ∧
  (Forall nonempty (str_split "/" s) ↔
     Forall nonempty (tail (str_split "/" s)) ∧ s ≠ "" ∧ has_prefix s "/" = false).
Proof.
  induction s as [|c s [IHA IHB]].
  { simpl. split; [by split; [|constructor]|]. rewrite Forall_cons. unfold nonempty. naive_solver. }
  cbn [str_split search]. destruct (str_split_cons s) as (w & ws & E).
  unfold match_here. cbn [body at_end]. cbn [has_prefix String.length str_drop].
  case_bool_decide as Hc.
  - subst c. cbn [tail]. rewrite !andb_true_r, IHB, IHA. split.
    + rewrite (bool_decide_true ("/"%char = "/"%char)) by done.
      assert (has_prefix s "" = true) as -> by (by destruct s).
      cbn [andb]. rewrite !orb_false_iff, bool_decide_eq_false. clear. tauto.
    + rewrite Forall_cons, (bool_decide_true ("/"%char = "/"%char)) by done.
      assert (has_prefix s "" = true) as -> by (by destruct s).
      split; [by intros [[] _]|by intros (_ & _ & [=])].
  - rewrite E. cbn [tail]. rewrite E in IHA. cbn [tail] in IHA. rewrite bool_decide_false by done.
    split; [exact IHA|]. rewrite Forall_cons. clear. split; [by intros [_ ?]|by intros [? _]].
Qed.

Lemma split_chars s :
  str_forallb path_char s = true ↔ Forall (λ w, str_forallb component_char w = true) (str_split "/" s).
Proof.
  induction s as [|c s IH]; [simpl; split; [by repeat constructor|done]|].
  cbn [str_forallb str_split]. rewrite andb_true_iff, IH.
  destruct (str_split_cons s) as (w & ws & E). rewrite E, Forall_cons. case_bool_decide as Hc.
  - subst c. rewrite !Forall_cons. split; [naive_solver|]. by intros [_ ?].
  - rewrite Forall_cons. cbn [str_forallb].
    assert (component_char c = path_char c) as ->
      by (unfold component_char; rewrite (bool_decide_false (c = "/"%char)) by done; apply andb_true_r).
    rewrite andb_true_iff. clear. tauto.
Qed.

Lemma valid_pattern s :
  MatchString validPathPattern s = negb (bool_decide (s = "")) && str_forallb path_char s.
Proof. by destruct s. Qed.

Lemma forbidden_spec s :
  str_forallb path_char s = true →
  existsb (λ pattern, MatchString pattern s) forbiddenPatterns =
  search (mkRegexp false (Literal "//") false) s || has_prefix s "/" ||
  search (mkRegexp false (Literal "/") true) s || has_suffix s "_metadata".
Proof.
  intros Hs. unfold forbiddenPatterns, existsb, MatchString. cbn [at_start].
  rewrite (search_outside path_char), orb_false_r by done.
  unfold match_here at 1. cbn [body at_end]. rewrite andb_true_r, !search_suffix. by rewrite !orb_assoc.
Qed.

(** No label of a data object ends like that of a metadata object. *)
Lemma key_label_not_metadata path key :
  has_suffix path "_metadata" = false → has_suffix key "_metadata" = false →
  has_suffix (key_label path key) metadataKeySuffix = false.
Proof.
  intros Hp Hk. apply not_true_iff_false. intros [r Hr]%has_suffix_spec. unfold key_label in Hr.
  change metadataKeySuffix with ("/" +:+ "_metadata") in Hr.
  case_bool_decide as Hd; rewrite <-!str_app_assoc in Hr; [|by rewrite Hr, has_suffix_app in Hp].
  apply str_app_eq_cases in Hr as [(e & _ & ->)|(e & He & Hm)]; [by rewrite has_suffix_app in Hk|].
  destruct (str_snoc_cases e) as [->|(e' & c & ->)]; [change ("_metadata" = key) in Hm; by subst key|].
  rewrite <-str_app_assoc in He. apply str_snoc_inj in He as [_ <-].
  assert (str_forallb (λ c, negb (bool_decide (c = "/"%char))) "_metadata" = true) as Hall by done.
  rewrite Hm, !str_forallb_app in Hall. simpl in Hall. by rewrite andb_false_r in Hall.
Qed.

(** ** Properties: paths and data *)

(** Which paths the agent accepts: at most 256 bytes, every component of the
    path (split at the slashes) non-empty and made of letters, digits, hyphens and
    underscores, and no reserved suffix.  The pattern against directory traversal
    adds nothing: dots are not valid characters in the first place. *)
Theorem ValidateSecretPath_spec (path : string) :
  is_Ok (ValidateSecretPath path) = true ↔
  str_len path ≤ MaxSecretPathLength ∧ has_suffix path "_metadata" = false ∧
  Forall (λ w, w ≠ "" ∧ str_forallb component_char w = true) (str_split "/" path).
Proof.
  rewrite Forall_and, <-split_chars.
  pose proof (proj1 (split_nonempty path)) as HA. pose proof (proj2 (split_nonempty path)) as HB.
  change (Forall (λ w, w ≠ "")) with (Forall nonempty). rewrite HB, HA. clear HA HB.
  unfold ValidateSecretPath. rewrite valid_pattern. case_bool_decide as He; cbn [negb andb]; [naive_solver|].
  destruct (MaxSecretPathLength <? str_len path) eqn:El; [apply Z.ltb_lt in El|apply Z.ltb_ge in El].
  { split; [done|]. intros [? _]. lia. }
  destruct (str_forallb path_char path) eqn:Ec; cbn [negb]; [|naive_solver].
  rewrite forbidden_spec by done.
  destruct (search _ path), (has_prefix path "/"), (search _ path), (has_suffix path "_metadata"); naive_solver.
Qed.

(** The number of bytes of the values. *)
Definition total_size (kvs : list (string * string)) : Z := foldr (λ kv n, str_len kv.2 + n) 0 kvs.

(** A key [ValidateSecretData] accepts. *)
Definition key_accepted (key : string) : Prop :=
  key ≠ "" ∧ str_len key ≤ MaxMetadataFieldLength ∧ has_suffix key "_metadata" = false ∧
  str_forallb path_char key = true.

#[global] Instance total_size_Proper : Proper ((≡ₚ) ==> (=)) total_size.
Proof. intros l l' H. induction H; simpl; lia. Qed.

Lemma total_size_nonneg kvs : 0 ≤ total_size kvs.
Proof. induction kvs as [|[k v] kvs IH]; simpl; unfold str_len; lia. Qed.

Lemma validate_pairs_spec kvs n :
  is_Ok (validate_pairs kvs n) = true ↔
  Forall (λ kv, key_accepted kv.1) kvs ∧ (kvs = [] ∨ n + total_size kvs ≤ MaxSecretDataSize).
Proof.
  revert n. induction kvs as [|[k v] kvs IH]; intros n.
  { simpl. split; [intros _; split; [constructor|by left]|done]. }
  rewrite Forall_cons. cbn [fst].
  pose proof (total_size_nonneg kvs) as Hnn. unfold key_accepted at 1. cbn [validate_pairs]. rewrite valid_pattern.
  case_bool_decide as He; [naive_solver|].
  destruct (MaxMetadataFieldLength <? str_len k) eqn:El; [apply Z.ltb_lt in El|apply Z.ltb_ge in El].
  { split; [done|]. intros [[(_ & ? & _) _] _]. lia. }
  destruct (has_suffix k "_metadata") eqn:Es; [naive_solver|].
  destruct (str_forallb path_char k) eqn:Ec; cbn [negb andb]; [|naive_solver].
  cbn [total_size foldr snd] in *. fold (total_size kvs).
  destruct (MaxSecretDataSize <? n + str_len v) eqn:Et; [apply Z.ltb_lt in Et|apply Z.ltb_ge in Et].
  { split; [done|]. intros [_ [?|?]]; [done|lia]. }
  rewrite IH. split.
  - intros [Hall [-> |Hle]]; (split; [done|right]); [simpl; lia|lia].
  - intros [(_ & Hall) [?|Hle]]; [done|]. split; [done|right; lia].
Qed.

(** Which data is accepted, and that the answer does not depend on the order in
    which Go iterates over the map: non-empty data, all of whose keys are non-empty
    path characters without the reserved suffix, with at most 1 MB of values. *)
Theorem ValidateSecretData_spec (o : MapOrder) (data : option (gmap string string)) :
  is_Ok (ValidateSecretData data) = true ↔
  ∃ m, data = Some m ∧ m ≠ ∅ ∧ map_Forall (λ k _, key_accepted k) m ∧
       total_size (map_to_list m) ≤ MaxSecretDataSize.
Proof.
  destruct data as [m|]; [|split; [done|by intros (? & ? & _)]]. unfold ValidateSecretData.
  destruct (Z.of_nat (size m) =? 0) eqn:Es; [apply Z.eqb_eq in Es|apply Z.eqb_neq in Es].
  { split; [done|]. intros (? & [= <-] & Hne & _). destruct Hne. apply map_size_empty_inv. lia. }
  assert (Forall (λ kv, key_accepted kv.1) (range m) ↔ map_Forall (λ k _, key_accepted k) m) as Hkeys.
  { rewrite range_perm, map_Forall_to_list. apply Forall_iff. by intros [k v]. }
  assert (total_size (range m) = total_size (map_to_list m)) as Hsize by by rewrite range_perm.
  rewrite validate_pairs_spec, Hkeys, Hsize. split.
  - intros [Hall Hle]. exists m. split_and!; [done| |done|].
    + intros ->. by rewrite map_size_empty in Es.
    + destruct Hle as [Hnil|]; [|done]. destruct Es.
      rewrite <-length_map_to_list, <-range_perm, Hnil. done.
  - intros (? & [= <-] & _ & Hall & Hle). by split; [|right].
Qed.

(** C12. Validation is what the PKCS#11 layout needs: a secret whose path and data
    the validators accept satisfies the conditions under which the PKCS#11 client
    reads back what it wrote (no object of its data can be taken for metadata). *)
Theorem validated_secret_storable (o : MapOrder) (path : string) (data : gmap string string) :
  ValidateSecretPath path = Ok () → ValidateSecretData (Some data) = Ok () →
  path ≠ "" ∧ data ≠ ∅ ∧ keys_ok path data.
Proof.
  intros Hp Hd.
  assert (is_Ok (ValidateSecretPath path) = true) as (_ & Hs & Hc)%ValidateSecretPath_spec by by rewrite Hp.
  assert (is_Ok (ValidateSecretData (Some data)) = true) as (m & [= <-] & Hne & Hk & _)%ValidateSecretData_spec
    by by rewrite Hd.
  split_and!; [|done|].
  - intros ->. by apply Forall_cons in Hc as [[? _] _].
  - intros k v Hkv. destruct (Hk k v Hkv) as (Hk1 & _ & Hk2 & _). split; [done|].
    by apply key_label_not_metadata.
Qed.

(** On the messages of the service, the interceptor is a check of the path. *)
Lemma ValidationInterceptor_paths `{MapOrder} {W A} (req : Request) (handler : Request → ST W (result A)) (w : W) :
  ValidationInterceptor req handler w =
  match match GetPath req with Some path => ValidateSecretPath path | None => Ok () end with
  | Ok _ => handler req w
  | Err err => (Err (InvalidArgument ("invalid path: " +:+ error_string err)), w)
  end.
Proof. unfold ValidationInterceptor. simpl. by destruct (match GetPath req with Some _ => _ | None => _ end). Qed.

(** ** Properties: the interceptor *)

(** The validation a request goes through, as the interceptor orders it: the path
    of any message that has one; then the data, if the message has the data getter,
    otherwise the labels, if it has the metadata getter. *)
Definition request_valid `{MapOrder} {R} `{!AnyRequest R} (req : R) : bool :=
  match as_GetPath req with Some path => is_Ok (ValidateSecretPath path) | None => true end &&
  match as_GetSecretData req, as_GetMetadata req with
  | Some (Some data), _ => is_Ok (ValidateSecretData data)
  | None, Some (Some labels) => is_Ok (ValidateMetadata labels)
  | _, _ => true
  end.

(** Complete mediation: the handler runs exactly on the requests that pass the
    validation; a rejected request changes nothing and is answered by an
    InvalidArgument status. *)
Lemma ValidationInterceptor_mediates (o : MapOrder) {W R A} (req_type : AnyRequest R) (req : R)
    (handler : R → ST W (result A)) (w : W) :
  if request_valid req then ValidationInterceptor req handler w = handler req w
  else ∃ msg, ValidationInterceptor req handler w = (Err (InvalidArgument msg), w).
Proof.
  unfold request_valid, ValidationInterceptor.
  destruct (as_GetPath req) as [path|]; [destruct (ValidateSecretPath path)|]; simpl; try (by eexists);
    (destruct (as_GetSecretData req) as [[data|]|]; [destruct (ValidateSecretData data)| |
      destruct (as_GetMetadata req) as [[labels|]|]; [destruct (ValidateMetadata labels)| |]]);
    simpl; try done; by eexists.
Qed.

(** On the messages of the service only paths are checked: whatever its data
    and metadata, a request whose path is acceptable (or that has none) reaches the
    handler unchecked. *)
Theorem ValidationInterceptor_paths_only (o : MapOrder) {W A} (req : Request)
    (handler : Request → ST W (result A)) (w : W) :
  (∀ path, GetPath req = Some path → ValidateSecretPath path = Ok ()) →
  ValidationInterceptor req handler w = handler req w.
Proof.
  intros Hp. rewrite ValidationInterceptor_paths. destruct (GetPath req) as [path|]; [|done].
  by rewrite (Hp path eq_refl).
Qed.

(** ** Witnesses *)
(** A secret with an empty key and a forbidden one, which [ValidateSecretData] rejects. *)
Example ValidationInterceptor_paths_only_witness :
  ValidationInterceptor (H := listed_order)
    (WriteSecretRequest "app" (Some (mkPbSecretData (Some (<["" := "x"]> (<["a/_metadata" := "y"]> ∅))))) None)
    (λ _, st_ret (Ok 1)) tt = (Ok 1, tt).
Proof.
  refine (ValidationInterceptor_paths_only listed_order (WriteSecretRequest "app" _ None) (λ _, st_ret (Ok 1)) tt _).
  intros path [= <-]. vm_compute. reflexivity.
Defined.

Example validated_secret_storable_witness :
  keys_ok "team-a/db" (<["password" := "x"]> ∅).
Proof.
  refine (proj2 (proj2 (validated_secret_storable listed_order "team-a/db" (<["password" := "x"]> ∅) _ _)));
    vm_compute; reflexivity.
Defined.
