(* ===== verification/Grpc.v ===== *)
(** * internal/agent/grpc_server.go: the agent's gRPC service

    The server hands the calls of the service to its [hsm.Client], behind the
    validation and logging interceptors, and answers the kubelet's probes.  Locks and
    contexts are not modelled; the log is written through [log_emit]; listening and TLS
    are in [AgentTls]. *)

From S2P Require Import Prelude GoStd Hsm MockClient Proto Validation.
From Stdlib Require Import Ascii.

Local Open Scope go_scope.

Definition Unavailable (msg : string) : error := status_error "Unavailable" msg.
Definition Internal (msg : string) (err : error) : error :=
  status_error "Internal" (msg +:+ ": " +:+ error_string err).

(** ** Conversions between the messages and the types of package hsm *)

(* [internal/agent/grpc_server.go:321-328 ReadMetadata] *)
Definition pb_of_metadata (m : SecretMetadata) : PbSecretMetadata :=
  mkPbSecretMetadata (m_Description m) (m_Labels m) (m_Format m) (m_DataType m) (m_CreatedAt m) (m_Source m).
(* [internal/agent/grpc_server.go:284-291 WriteSecret] *)
Definition metadata_of_pb (m : PbSecretMetadata) : SecretMetadata :=
  mkMetadata (pm_Description m) (pm_Labels m) (pm_Format m) (pm_DataType m) (pm_CreatedAt m) (pm_Source m).
(* [internal/agent/grpc_server.go:226-232 GetInfo] *)
Definition pb_of_info (i : HSMInfo) : PbHSMInfo :=
  mkPbHSMInfo (i_Label i) (i_Manufacturer i) (i_Model i) (i_SerialNumber i) (i_FirmwareVersion i).
(** ** Logging

    A log line, of any level, is a message and its fields; an error is logged as the field
    [error], and the field [duration] (a clock reading) is left out. *)
Inductive LogValue := LStr (s : string) | LInt (n : Z) | LBool (b : bool).
Definition LogFields : Type := list (string * LogValue).

(** ** The server *)
Section Server.
Context {W : Type} (log_emit : string → LogFields → ST W unit).

(* [internal/agent/grpc_server.go:54-69] *)
Record GRPCServer := mkGRPCServer {
  hsmClient : option (Client W);
  port : Z;
  healthPort : Z;
  startTime : Time;
  tlsCertFile : string;
  tlsKeyFile : string;
  tlsClientCAFile : string;
}.

(* [internal/agent/grpc_server.go:72-83] *)
Definition NewGRPCServer (hsmClient : option (Client W)) (port healthPort : Z) (now : Time) : GRPCServer :=
  mkGRPCServer hsmClient port healthPort now "" "" "".

(* [internal/agent/grpc_server.go:88-92] *)
Definition SetTLSFiles (certFile keyFile clientCAFile : string) (s : GRPCServer) : GRPCServer :=
  mkGRPCServer (hsmClient s) (port s) (healthPort s) (startTime s) certFile keyFile clientCAFile.

(* [internal/agent/grpc_server.go:95-97] *)
Definition tlsEnabled (s : GRPCServer) : bool :=
  bool_decide (tlsCertFile s ≠ "") && bool_decide (tlsKeyFile s ≠ "") && bool_decide (tlsClientCAFile s ≠ "").

(** [s.hsmClient != nil && s.hsmClient.IsConnected()] *)
Definition client_connected (s : GRPCServer) : ST W bool :=
  match hsmClient s with
  | Some c => c_IsConnected c
  | None => st_ret false
  end.

(** The guard of the handlers, [k] is the rest of the handler. *)
(* [internal/agent/grpc_server.go:215-217 GetInfo] *)
Definition if_client_connected {A} (s : GRPCServer) (k : Client W → ST W (result A)) : ST W (result A) :=
  match hsmClient s with
  | None => st_ret (Err (Unavailable "HSM client not connected"))
  | Some c =>
      let* connected := c_IsConnected c in
      if connected then k c else st_ret (Err (Unavailable "HSM client not connected"))
  end.

(* [internal/agent/grpc_server.go:238-240 ReadSecret] *)
Definition path_required {A} (path : string) (k : ST W (result A)) : ST W (result A) :=
  if bool_decide (path = "") then st_ret (Err (InvalidArgument "path is required")) else k.

(** [if err != nil { s.logger.Error(err, failure, fields...); return nil,
    status.Errorf(codes.Internal, "reason: %v", err) }] *)
(* [internal/agent/grpc_server.go:219-223 GetInfo] *)
Definition try_logged {A B} (m : ST W (result A)) (failure : string) (fields : LogFields) (reason : string)
    (k : A → ST W (result B)) : ST W (result B) :=
  let* r := m in
  match r with
  | Err err => do! log_emit failure (("error", LStr (error_string err)) :: fields) in st_ret (Err (Internal reason err))
  | Ok a => k a
  end.

(* [internal/agent/grpc_server.go:214-234] *)
Definition GetInfo (s : GRPCServer) : ST W (result Response) :=
  if_client_connected s (λ c,
    try_logged (c_GetInfo c) "Failed to get HSM info" [] "failed to get HSM info" (λ info,
      st_ret (Ok (GetInfoResponse (Some (pb_of_info info)))))).

(* [internal/agent/grpc_server.go:237-261] *)
Definition ReadSecret (s : GRPCServer) (path : string) : ST W (result Response) :=
  path_required path (if_client_connected s (λ c,
    try_logged (c_ReadSecret c path) "Failed to read secret" [("path", LStr path)] "failed to read secret" (λ data,
      do! log_emit "Successfully read secret" [("path", LStr path); ("keys_count", LInt (Z.of_nat (size data)))] in
      st_ret (Ok (ReadSecretResponse (Some (mkPbSecretData (Some data)))))))).

(* [internal/agent/grpc_server.go:264-301] *)
Definition WriteSecret (s : GRPCServer) (path : string) (data : option PbSecretData)
    (md : option PbSecretMetadata) : ST W (result Response) :=
  path_required path
    match data with
    | None => st_ret (Err (InvalidArgument "secret data is required"))
    | Some d =>
        if_client_connected s (λ c,
          let hsmData := default ∅ (pd_Data d) in
          try_logged (c_WriteSecret c path hsmData (metadata_of_pb <$> md))
            "Failed to write secret with metadata" [("path", LStr path)] "failed to write secret with metadata" (λ _,
            do! log_emit "Successfully wrote secret with metadata"
                  [("path", LStr path); ("keys_count", LInt (Z.of_nat (size hsmData)))] in
            st_ret (Ok WriteSecretResponse)))
    end.

(* [internal/agent/grpc_server.go:304-334] *)
Definition ReadMetadata (s : GRPCServer) (path : string) : ST W (result Response) :=
  path_required path (if_client_connected s (λ c,
    try_logged (c_ReadMetadata c path) "Failed to read metadata" [("path", LStr path)] "failed to read metadata" (λ metadata,
      st_ret (Ok (ReadMetadataResponse (pb_of_metadata <$> metadata)))))).

(* [internal/agent/grpc_server.go:338-365] *)
Definition DeleteSecret (s : GRPCServer) (path key : string) : ST W (result Response) :=
  path_required path (if_client_connected s (λ c,
    if bool_decide (key ≠ "") then
      try_logged (c_DeleteSecretKey c path key) "Failed to delete secret key" [("path", LStr path); ("key", LStr key)]
        "failed to delete secret key" (λ _,
        do! log_emit "Successfully deleted secret key" [("path", LStr path); ("key", LStr key)] in
        st_ret (Ok DeleteSecretResponse))
    else
      try_logged (c_DeleteSecret c path) "Failed to delete secret" [("path", LStr path)] "failed to delete secret" (λ _,
        do! log_emit "Successfully deleted secret" [("path", LStr path)] in
        st_ret (Ok DeleteSecretResponse)))).

(* [internal/agent/grpc_server.go:368-383] *)
Definition ListSecrets (s : GRPCServer) (prefix : string) : ST W (result Response) :=
  if_client_connected s (λ c,
    try_logged (c_ListSecrets c prefix) "Failed to list secrets" [("prefix", LStr prefix)] "failed to list secrets" (λ paths,
      do! log_emit "Successfully listed secrets" [("prefix", LStr prefix); ("count", LInt (Z.of_nat (length paths)))] in
      st_ret (Ok (ListSecretsResponse paths)))).

(* [internal/agent/grpc_server.go:386-404] *)
Definition GetChecksum (s : GRPCServer) (path : string) : ST W (result Response) :=
  path_required path (if_client_connected s (λ c,
    try_logged (c_GetChecksum c path) "Failed to get checksum" [("path", LStr path)] "failed to get checksum" (λ checksum,
      st_ret (Ok (GetChecksumResponse checksum))))).

(* [internal/agent/grpc_server.go:407-412] *)
Definition IsConnected (s : GRPCServer) : ST W (result Response) :=
  let* connected := client_connected s in st_ret (Ok (IsConnectedResponse connected)).

(* [internal/agent/grpc_server.go:415-445] *)
Definition ChangePIN (s : GRPCServer) (oldPin newPin : string) : ST W (result Response) :=
  do! log_emit "Received ChangePIN request" [] in
  match hsmClient s with
  | None => st_ret (Err (status_error "Internal" "HSM client not initialized"))
  | Some c =>
      let* connected := c_IsConnected c in
      if negb connected then st_ret (Err (Unavailable "HSM not connected"))
      else if bool_decide (oldPin = "") then st_ret (Err (InvalidArgument "old PIN cannot be empty"))
      else if bool_decide (newPin = "") then st_ret (Err (InvalidArgument "new PIN cannot be empty"))
      else if bool_decide (oldPin = newPin)
      then st_ret (Err (InvalidArgument "new PIN must be different from old PIN"))
      else try_logged (c_ChangePIN c oldPin newPin) "Failed to change HSM PIN" [] "failed to change PIN" (λ _,
             do! log_emit "Successfully changed HSM PIN" [] in
             st_ret (Ok ChangePINResponse))
  end.

(* [internal/agent/grpc_server.go:44-44] *)
Definition healthyStatus : string := "healthy".
(* [internal/agent/grpc_server.go:45-45] *)
Definition degradedStatus : string := "degraded".

(* [internal/agent/grpc_server.go:448-461] *)
Definition Health (s : GRPCServer) : ST W (result Response) :=
  let* connected := client_connected s in
  st_ret (Ok (if connected : bool then HealthResponse healthyStatus "Agent is running normally"
              else HealthResponse degradedStatus "HSM client not connected")).

(** The service's handler table (generated code). *)
Definition dispatch (s : GRPCServer) (req : Request) : ST W (result Response) :=
  match req with
  | GetInfoRequest => GetInfo s
  | ReadSecretRequest path => ReadSecret s path
  | WriteSecretRequest path data md => WriteSecret s path data md
  | ReadMetadataRequest path => ReadMetadata s path
  | DeleteSecretRequest path key => DeleteSecret s path key
  | ListSecretsRequest prefix => ListSecrets s prefix
  | GetChecksumRequest path => GetChecksum s path
  | IsConnectedRequest => IsConnected s
  | HealthRequest => Health s
  | ChangePINRequest oldPin newPin => ChangePIN s oldPin newPin
  end.
End Server.
Arguments GRPCServer : clear implicits.

(** ** The logging interceptor *)

(** [status.FromError(err)]: the code of a status error, also of a wrapped one (with
    the whole error text), else [Unknown]. *)
Fixpoint wrapped_code (err : error) : string :=
  match err with
  | status_error code _ => code
  | wrapf _ err | wrap_after err _ => wrapped_code err
  | _ => "Unknown"
  end.
(* [internal/agent/grpc_server.go:573-581 loggingInterceptor] *)
Definition error_code (err : error) : string * string :=
  match err with
  | status_error code msg => (code, msg)
  | _ => (wrapped_code err, error_string err)
  end.

Definition keys_count (d : PbSecretData) : Z := Z.of_nat (size (default ∅ (pd_Data d))).

(* [internal/agent/grpc_server.go:540-564 loggingInterceptor] *)
Definition request_fields (FullMethod : string) (req : Request) : LogFields :=
  ("method", LStr FullMethod) ::
  match req with
  | ReadSecretRequest path => [("path", LStr path)]
  | WriteSecretRequest path data _ =>
      ("path", LStr path) ::
      match data with Some d => [("keys_count", LInt (keys_count d))] | None => [] end
  | DeleteSecretRequest path _ => [("path", LStr path)]
  | ListSecretsRequest prefix => [("prefix", LStr prefix)]
  | GetChecksumRequest path => [("path", LStr path)]
  | ReadMetadataRequest path => [("path", LStr path)]
  | ChangePINRequest _ _ => [("operation", LStr "change_pin")]
  | _ => []
  end.

(* [internal/agent/grpc_server.go:583-604 loggingInterceptor] *)
Definition result_fields (r : result Response) : LogFields :=
  match r with
  | Err err =>
      let '(code, errorMsg) := error_code err in
      [("code", LStr code); ("success", LBool false); ("error", LStr errorMsg)]
  | Ok resp =>
      [("code", LStr "OK"); ("success", LBool true)] ++
      match resp with
      | ReadSecretResponse (Some d) => [("keys_returned", LInt (keys_count d))]
      | ListSecretsResponse paths => [("secrets_count", LInt (Z.of_nat (length paths)))]
      | _ => []
      end
  end.

Section Serve.
Context {W : Type} `{MapOrder} (log_emit : string → LogFields → ST W unit).

(* [internal/agent/grpc_server.go:536-607] *)
Definition loggingInterceptor (FullMethod : string) (req : Request)
    (handler : Request → ST W (result Response)) : ST W (result Response) :=
  let logFields := request_fields FullMethod req in
  do! log_emit "gRPC request started" logFields in
  let* r := handler req in
  let resultFields := logFields ++ result_fields r in
  do! log_emit (if is_Ok r then "gRPC request completed" else "gRPC request failed") resultFields in
  st_ret r.

(** The full method name of a call (generated code). *)
Definition FullMethod (req : Request) : string :=
  "/hsm.v1.HSMAgent/" +:+
  match req with
  | GetInfoRequest => "GetInfo" | ReadSecretRequest _ => "ReadSecret"
  | WriteSecretRequest _ _ _ => "WriteSecret" | ReadMetadataRequest _ => "ReadMetadata"
  | DeleteSecretRequest _ _ => "DeleteSecret" | ListSecretsRequest _ => "ListSecrets"
  | GetChecksumRequest _ => "GetChecksum" | IsConnectedRequest => "IsConnected"
  | HealthRequest => "Health" | ChangePINRequest _ _ => "ChangePIN"
  end.

(** The handler the server registers: validation, then logging, then the method. *)
(* [internal/agent/grpc_server.go:146-149 Start] *)
Definition serve (s : GRPCServer W) (req : Request) : ST W (result Response) :=
  ValidationInterceptor req (λ req, loggingInterceptor (FullMethod req) req (dispatch log_emit s)).
End Serve.

(** ** The probes

    [late] tells whether the probe's deadline passes before [GetInfo] returns; the
    call goes on in its goroutine, so its effect on the world happens either way. *)
Section Probes.
Context {W : Type} (late : ST W bool).

(* [internal/agent/grpc_server.go:475-494] *)
Definition probeToken (s : GRPCServer W) : ST W (result unit) :=
  match hsmClient s with
  | None => st_ret (Err (errorf "no HSM client"))
  | Some c =>
      let* timedOut := late in
      let* r := c_GetInfo c in
      if timedOut : bool
      then st_ret (Err (wrapf "token probe timed out after 3s (device may be wedged)"
                          (errorf "context deadline exceeded")))
      else st_ret (match r with Ok _ => Ok () | Err err => Err err end)
  end.

Definition StatusOK : Z := 200.
Definition StatusServiceUnavailable : Z := 503.
Definition quote : string := String "034"%char "".
(** A JSON object with string values, or raw ones ([true]/[false]). *)
Definition json_member (k v : string) : string := quote +:+ k +:+ quote +:+ ":" +:+ v.
Definition json_string (v : string) : string := quote +:+ v +:+ quote.
Definition json_object (ms : list string) : string := "{" +:+ str_join "," ms +:+ "}".

(** The response's status code and body; the uptime and the time are arguments. *)
(* [internal/agent/grpc_server.go:498-515] *)
Definition handleHealthz (s : GRPCServer W) (uptime timestamp : string) : ST W (Z * string) :=
  let* probe := probeToken s in
  let hsmConnected := is_Ok probe in
  let healthStatus := if hsmConnected then healthyStatus else degradedStatus in
  let code := if hsmConnected then StatusOK else StatusServiceUnavailable in
  st_ret (code, json_object [
    json_member "status" (json_string healthStatus);
    json_member "hsmConnected" (if hsmConnected then "true" else "false");
    json_member "uptime" (json_string uptime);
    json_member "timestamp" (json_string timestamp)]).

(* [internal/agent/grpc_server.go:519-533] *)
Definition handleReadyz (s : GRPCServer W) : ST W (Z * string) :=
  let* probe := probeToken s in
  match probe with
  | Err _ => st_ret (StatusServiceUnavailable, json_object [
      json_member "status" (json_string "not_ready");
      json_member "reason" (json_string "hsm_token_unavailable")])
  | Ok _ => st_ret (StatusOK, json_object [json_member "status" (json_string "ready")])
  end.
End Probes.

(** ** Properties *)

(** The world in which the handler of a request looks at its client: that the PIN is to be
    changed is logged before. *)
Definition received {W} (log_emit : string → LogFields → ST W unit) (req : Request) (w : W) : W :=
  match req with ChangePINRequest _ _ => (log_emit "Received ChangePIN request" [] w).2 | _ => w end.

(** Without a connected client no operation is attempted: every request other
    than the two status queries is answered by a status error, and nothing but the
    connection check has touched the world. *)
Theorem dispatch_needs_connection {W} (log_emit : string → LogFields → ST W unit) (s : GRPCServer W) (req : Request) (w : W) :
  req ≠ IsConnectedRequest → req ≠ HealthRequest →
  (∀ c, hsmClient s = Some c → (c_IsConnected c (received log_emit req w)).1 = false) →
  ∃ code msg w', dispatch log_emit s req w = (Err (status_error code msg), w') ∧
    (w' = received log_emit req w ∨ ∃ c, hsmClient s = Some c ∧ w' = (c_IsConnected c (received log_emit req w)).2).
Proof.
  intros H1 H2 Hoff.
  assert (∀ A (k : Client W → ST W (result A)) w, (∀ c, hsmClient s = Some c → (c_IsConnected c w).1 = false) →
    ∃ code msg w', if_client_connected s k w = (Err (status_error code msg), w') ∧
    (w' = w ∨ ∃ c, hsmClient s = Some c ∧ w' = (c_IsConnected c w).2)) as Hk.
  { intros A k w0 Hoff0. unfold if_client_connected, st_bind. destruct (hsmClient s) as [c|]; [|by eexists _, _, w0; split; [|left]].
    specialize (Hoff0 c eq_refl). destruct (c_IsConnected c w0) as [b w1] eqn:E. simpl in Hoff0. subst b.
    eexists _, _, w1. split; [done|]. right. exists c. by rewrite E. }
  assert (∀ A path (k : Client W → ST W (result A)) w, (∀ c, hsmClient s = Some c → (c_IsConnected c w).1 = false) →
    ∃ code msg w', path_required path (if_client_connected s k) w = (Err (status_error code msg), w') ∧
    (w' = w ∨ ∃ c, hsmClient s = Some c ∧ w' = (c_IsConnected c w).2)) as Hp.
  { intros A path k w0 Hoff0. unfold path_required. case_bool_decide; [by eexists _, _, w0; split; [|left]|by apply Hk]. }
  destruct req; try done; cbn [received] in *; try (by apply Hk); try (by apply Hp).
  - cbn [dispatch]. unfold WriteSecret. destruct SecretData as [d|]; [by apply Hp|].
    unfold path_required. case_bool_decide; by eexists _, _, w; split; [|left].
  - cbn [dispatch]. unfold ChangePIN, st_bind. destruct (log_emit _ _ w) as [[] w0]. cbn [snd] in *.
    destruct (hsmClient s) as [c|]; [|by eexists _, _, w0; split; [|left]].
    specialize (Hoff c eq_refl). destruct (c_IsConnected c w0) as [b w1] eqn:E. simpl in Hoff. subst b. simpl.
    eexists _, _, w1. split; [done|]. right. exists c. by rewrite E.
Qed.

(** The probes tell the truth about the token: both answer 200 exactly when
    there is a client and a live query of the token succeeds before the deadline,
    and 503 otherwise, whatever the cached connection flag says. *)
Theorem probes_report_token {W} (late : ST W bool) (s : GRPCServer W) (uptime timestamp : string) (w : W) :
  let reachable := match hsmClient s with
                   | Some c => negb (late w).1 && is_Ok (c_GetInfo c (late w).2).1
                   | None => false
                   end in
  (handleReadyz late s w).1.1 = (if reachable then StatusOK else StatusServiceUnavailable) ∧
  (handleHealthz late s uptime timestamp w).1.1 = (if reachable then StatusOK else StatusServiceUnavailable).
Proof.
  unfold handleReadyz, handleHealthz, probeToken, st_bind. destruct (hsmClient s) as [c|]; [|done].
  destruct (late w) as [b w1]. simpl. destruct (c_GetInfo c w1) as [[i|e] w2]; destruct b; simpl; done.
Qed.

(** Requests, respectively answers, that differ in secret content only. *)
Definition same_public (req req' : Request) : Prop :=
  match req, req' with
  | WriteSecretRequest path data _, WriteSecretRequest path' data' _ =>
      path = path' ∧ (keys_count <$> data) = (keys_count <$> data')
  | ChangePINRequest _ _, ChangePINRequest _ _ => True
  | _, _ => req = req'
  end.
Definition same_public_result (r r' : result Response) : Prop :=
  match r, r' with
  | Ok (ReadSecretResponse data), Ok (ReadSecretResponse data') => (keys_count <$> data) = (keys_count <$> data')
  | Ok (ReadMetadataResponse _), Ok (ReadMetadataResponse _) => True
  | Ok (GetChecksumResponse _), Ok (GetChecksumResponse _) => True
  | Ok (ListSecretsResponse paths), Ok (ListSecretsResponse paths') => length paths = length paths'
  | _, _ => r = r'
  end.

(** ** What is logged

    The log is kept next to the world that the client acts on. *)
Definition Line : Type := string * LogFields.
Definition keep_log {V} (msg : string) (fields : LogFields) : ST (list Line * V) unit :=
  λ x, ((), (x.1 ++ [(msg, fields)], x.2)).
Definition logged_server {V} (c : option (Client V)) : GRPCServer (list Line * V) :=
  NewGRPCServer (beside <$> c) 9090 8093 (mkTime 0 0).

(** The log after two runs is the same, if their results differ in secret content only. *)
Definition logs_agree {V V'} (m : ST (list Line * V) (result Response)) (m' : ST (list Line * V') (result Response)) : Prop :=
  ∀ log v v', same_public_result (m (log, v)).1 (m' (log, v')).1 → (m (log, v)).2.1 = (m' (log, v')).2.1.

(** ** Lemmas: the log *)
Lemma internal_text reason (e e' : error) :
  same_public_result (Err (Internal reason e)) (Err (Internal reason e')) → error_string e = error_string e'.
Proof. intros [= H%(inj (String.append _))]. by injection H. Qed.

(** The run of an operation behind the guard. *)
Definition guarded_run {V A} (c : option (Client V)) (op : Client V → ST V (result A)) (failure : string)
    (fields : LogFields) (reason : string) (resp : A → Response) (more : A → list Line) (log : list Line) (v : V) :
    result Response * list Line :=
  match c with
  | None => (Err (Unavailable "HSM client not connected"), log)
  | Some c =>
      let (connected, v1) := c_IsConnected c v in
      if connected : bool then
        match (op c v1).1 with
        | Ok a => (Ok (resp a), log ++ more a)
        | Err e => (Err (Internal reason e), log ++ [(failure, ("error", LStr (error_string e)) :: fields)])
        end
      else (Err (Unavailable "HSM client not connected"), log)
  end.

(** A handler's run is one, if the rest of it adds the lines [more]. *)
Lemma guarded_runs {V A} (c : option (Client V)) (lop : Client (list Line * V) → ST (list Line * V) (result A)) op
    failure fields reason k resp more log v :
  (∀ c log v, lop (beside c) (log, v) = ((op c v).1, (log, (op c v).2))) →
  (∀ a y, k a y = (Ok (resp a), (y.1 ++ more a, y.2))) →
  let run := if_client_connected (logged_server c) (λ c, try_logged keep_log (lop c) failure fields reason k) (log, v) in
  run.1 = (guarded_run c op failure fields reason resp more log v).1 ∧
  run.2.1 = (guarded_run c op failure fields reason resp more log v).2.
Proof.
  intros Hop Hk. unfold if_client_connected, logged_server, guarded_run. cbn [hsmClient NewGRPCServer].
  destruct c as [c|]; [|done]. cbn [fmap option_fmap option_map].
  unfold st_bind. cbn [beside lift_client c_IsConnected]. unfold lift_st. cbn [snd].
  destruct (c_IsConnected c v) as [[] v1]; [|done]. unfold try_logged, st_bind. cbn [fst]. rewrite Hop.
  destruct (op c v1) as [[a|e] v2]; cbn [fst snd]; [by rewrite Hk|done].
Qed.

Lemma guarded_runs_agree {V V' A A'} (c : option (Client V)) (c' : option (Client V')) op op' failure fields reason
    (resp : A → Response) (resp' : A' → Response) more more' log v v' :
  (∀ a a', same_public_result (Ok (resp a)) (Ok (resp' a')) → more a = more' a') →
  let run := guarded_run c op failure fields reason resp more log v in
  let run' := guarded_run c' op' failure fields reason resp' more' log v' in
  same_public_result run.1 run'.1 → run.2 = run'.2.
Proof.
  intros Hmore. unfold guarded_run.
  assert (∀ e a, ¬ same_public_result (Err e) (Ok a)) as Hn by by destruct a.
  assert (∀ e a, ¬ same_public_result (Ok a) (Err e)) as Hn' by by destruct a.
  destruct c as [c|]; [destruct (c_IsConnected c v) as [[] v1]; [destruct (op c v1) as [[a|e] v2]|]|];
    (destruct c' as [c'|]; [destruct (c_IsConnected c' v') as [[] v1']; [destruct (op' c' v1') as [[a'|e'] v2']|]|]);
    cbn [fst snd]; intros Hr; try done; try (by destruct (Hn _ _ Hr)); try (by destruct (Hn' _ _ Hr)).
  - by rewrite (Hmore a a').
  - assert (error_string e = error_string e') as -> by by apply (internal_text reason). done.
Qed.

Lemma guarded_agree {V V' A A'} (c : option (Client V)) (c' : option (Client V')) lop lop' op op'
    failure fields reason (k : A → _) (k' : A' → _) resp resp' more more' :
  (∀ c log v, lop (beside c) (log, v) = ((op c v).1, (log, (op c v).2))) →
  (∀ c log v, lop' (beside c) (log, v) = ((op' c v).1, (log, (op' c v).2))) →
  (∀ a y, k a y = (Ok (resp a), (y.1 ++ more a, y.2))) →
  (∀ a y, k' a y = (Ok (resp' a), (y.1 ++ more' a, y.2))) →
  (∀ a a', same_public_result (Ok (resp a)) (Ok (resp' a')) → more a = more' a') →
  logs_agree (if_client_connected (logged_server c) (λ c, try_logged keep_log (lop c) failure fields reason k))
    (if_client_connected (logged_server c') (λ c, try_logged keep_log (lop' c) failure fields reason k')).
Proof.
  intros Hop Hop' Hk Hk' Hmore log v v'.
  pose proof (guarded_runs c lop op failure fields reason k resp more log v Hop Hk) as H1; cbv zeta in H1.
  pose proof (guarded_runs c' lop' op' failure fields reason k' resp' more' log v' Hop' Hk') as H2; cbv zeta in H2.
  destruct H1 as [-> ->], H2 as [-> ->]. by apply guarded_runs_agree.
Qed.

(** The handlers that log nothing on success, and those that log a line. *)
Section Handlers.
Context {V V' A : Type} (c : option (Client V)) (c' : option (Client V')).
Context (lop lop' : ∀ U, Client U → ST U (result A)) (failure : string) (fields : LogFields) (reason : string).
Context (resp : A → Response).
(** The operation of a lifted client is the client's, lifted. *)
Definition lifts (lop : ∀ U, Client U → ST U (result A)) : Prop :=
  ∀ U (c : Client U) log v, lop _ (beside c) ((log : list Line), v) = ((lop U c v).1, (log, (lop U c v).2)).
Hypotheses (Hlop : lifts lop) (Hlop' : lifts lop').

Lemma silent_agree :
  logs_agree
    (if_client_connected (logged_server c) (λ c, try_logged keep_log (lop _ c) failure fields reason (λ a, st_ret (Ok (resp a)))))
    (if_client_connected (logged_server c') (λ c, try_logged keep_log (lop' _ c) failure fields reason (λ a, st_ret (Ok (resp a))))).
Proof.
  apply (guarded_agree c c' _ _ (lop V) (lop' V') _ _ _ _ _ resp resp (λ _, []) (λ _, [])); try done; try (apply Hlop || apply Hlop');
    intros a [log v]; by rewrite app_nil_r.
Qed.

Lemma told_agree msg (line line' : A → LogFields) :
  (∀ a a', same_public_result (Ok (resp a)) (Ok (resp a')) → line a = line' a') →
  logs_agree
    (if_client_connected (logged_server c) (λ c, try_logged keep_log (lop _ c) failure fields reason (λ a,
      do! keep_log msg (line a) in st_ret (Ok (resp a)))))
    (if_client_connected (logged_server c') (λ c, try_logged keep_log (lop' _ c) failure fields reason (λ a,
      do! keep_log msg (line' a) in st_ret (Ok (resp a))))).
Proof.
  intros Hline. apply (guarded_agree c c' _ _ (lop V) (lop' V') _ _ _ _ _ resp resp (λ a, [(msg, line a)]) (λ a, [(msg, line' a)]));
    try done; try (apply Hlop || apply Hlop').
  intros a a' Hr. by rewrite (Hline a a').
Qed.
End Handlers.

Ltac lifted :=
  intros ? ? ? ?; unfold beside, lift_client, lift_st; cbn;
  match goal with |- context [let (_, _) := ?m in _] => by destruct m end.

Lemma path_agree {V V'} p (m : ST (list Line * V) (result Response)) (m' : ST (list Line * V') (result Response)) :
  logs_agree m m' → logs_agree (path_required p m) (path_required p m').
Proof. intros Hm. unfold path_required. by case_bool_decide. Qed.

(** The outcomes of a PIN change. *)
Lemma ChangePIN_run {V} (c : option (Client V)) o n log v :
  ∃ l, (ChangePIN keep_log (logged_server c) o n (log, v)).2.1 = (log ++ [("Received ChangePIN request", [])]) ++ l ∧
  let r := (ChangePIN keep_log (logged_server c) o n (log, v)).1 in
  (r = Ok ChangePINResponse ∧ l = [("Successfully changed HSM PIN", [])]) ∨
  (∃ e, r = Err (Internal "failed to change PIN" e) ∧ l = [("Failed to change HSM PIN", [("error", LStr (error_string e))])]) ∨
  ((∃ e', r = Err e' ∧ ∀ e, e' ≠ Internal "failed to change PIN" e) ∧ l = []).
Proof.
  unfold ChangePIN, logged_server, st_bind. cbn [keep_log hsmClient NewGRPCServer fst snd].
  assert (∀ (x : list Line * V) e', (∀ e, e' ≠ Internal "failed to change PIN" e) → ∃ l, x.1 = x.1 ++ l ∧
    ((Err e' = Ok ChangePINResponse ∧ l = [("Successfully changed HSM PIN", [])]) ∨
     (∃ e, Err e' = Err (A := Response) (Internal "failed to change PIN" e) ∧ l = [("Failed to change HSM PIN", [("error", LStr (error_string e))])]) ∨
     ((∃ e0, Err e' = Err (A := Response) e0 ∧ ∀ e, e0 ≠ Internal "failed to change PIN" e) ∧ l = []))) as Hno.
  { intros x e' He. exists []. split; [by rewrite app_nil_r|]. right; right. split; [|done]. by exists e'. }
  destruct c as [c|]; cbn [fmap option_fmap option_map]; [|by apply (Hno (_, v))].
  cbn [beside lift_client c_IsConnected c_ChangePIN]. unfold lift_st. cbn [snd].
  destruct (c_IsConnected c v) as [[] v1]; cbn [negb]; [|by apply (Hno (_, v1))].
  repeat (case_bool_decide; [by apply (Hno (_, v1))|]).
  unfold try_logged, st_bind. cbn [snd]. destruct (c_ChangePIN c o n v1) as [[[]|e] v2]; cbn [fst snd st_ret keep_log].
  - eexists. split; [done|]. by left.
  - eexists. split; [done|]. right; left. by eexists.
Qed.

Lemma ChangePIN_agree {V V'} (c : option (Client V)) (c' : option (Client V')) o n o' n' :
  logs_agree (ChangePIN keep_log (logged_server c) o n) (ChangePIN keep_log (logged_server c') o' n').
Proof.
  intros log v v' Hr. destruct (ChangePIN_run c o n log v) as (l & -> & H1), (ChangePIN_run c' o' n' log v') as (l' & -> & H2).
  cbv zeta in H1, H2. f_equal.
  destruct H1 as [[Hr1 ->]|[(e & Hr1 & ->)|[(e & Hr1 & Hn) ->]]], H2 as [[Hr2 ->]|[(e' & Hr2 & ->)|[(e' & Hr2 & Hn') ->]]];
    rewrite Hr1, Hr2 in Hr; try done.
  - by rewrite (internal_text _ _ _ Hr).
  - injection Hr as <-. by destruct (Hn' e).
  - injection Hr as ->. by destruct (Hn e').
Qed.

Lemma client_connected_log {V} (c : option (Client V)) log v {B} (k : bool → result B) :
  ((let* connected := client_connected (logged_server c) in st_ret (k connected))%go (log, v)).2.1 = log.
Proof.
  unfold client_connected, logged_server, st_bind. destruct c as [c|]; [|done]. cbn. unfold lift_st. by destruct (c_IsConnected c _).
Qed.

Lemma dispatch_agree {V V'} (c : option (Client V)) (c' : option (Client V')) req req' :
  same_public req req' → logs_agree (dispatch keep_log (logged_server c) req) (dispatch keep_log (logged_server c') req').
Proof.
  intros Hreq. destruct req, req'; cbn in Hreq; try done; try (injection Hreq; intros; subst); cbn [dispatch].
  - apply (silent_agree c c' (λ _ c, c_GetInfo c) (λ _ c, c_GetInfo c)); lifted.
  - apply path_agree, (told_agree c c' (λ _ c, c_ReadSecret c _) (λ _ c, c_ReadSecret c _)); [lifted|lifted|].
    intros a a' Hr. injection Hr as Hr. by do 4 f_equal.
  - destruct Hreq as [-> Hd]. unfold WriteSecret. apply path_agree. destruct SecretData as [d|], SecretData0 as [d'|]; try done.
    injection Hd as Hd. unfold keys_count in Hd. cbv zeta. rewrite Hd.
    apply (told_agree c c' (λ _ c, c_WriteSecret c _ _ _) (λ _ c, c_WriteSecret c _ _ _)); [lifted|lifted|done].
  - apply path_agree, (silent_agree c c' (λ _ c, c_ReadMetadata c _) (λ _ c, c_ReadMetadata c _)); lifted.
  - apply path_agree. case_bool_decide.
    + apply (told_agree c c' (λ _ c, c_DeleteSecretKey c _ _) (λ _ c, c_DeleteSecretKey c _ _)); [lifted|lifted|done].
    + apply (told_agree c c' (λ _ c, c_DeleteSecret c _) (λ _ c, c_DeleteSecret c _)); [lifted|lifted|done].
  - apply (told_agree c c' (λ _ c, c_ListSecrets c _) (λ _ c, c_ListSecrets c _)); [lifted|lifted|].
    intros a a' Hr. cbn in Hr. by rewrite Hr.
  - apply path_agree, (silent_agree c c' (λ _ c, c_GetChecksum c _) (λ _ c, c_GetChecksum c _)); lifted.
  - intros log v v' _. unfold IsConnected. by rewrite !(client_connected_log _ _ _ (λ b, Ok (IsConnectedResponse b))).
  - intros log v v' _. unfold Health. by rewrite !(client_connected_log _ _ _ (λ b : bool, Ok (if b then _ else _))).
  - apply ChangePIN_agree.
Qed.

Lemma result_fields_public r r' : same_public_result r r' → is_Ok r = is_Ok r' ∧ result_fields r = result_fields r'.
Proof.
  destruct r as [[]|], r' as [[]|]; simpl; intros Hr; try done; try (by injection Hr; intros; subst).
  - by destruct SecretData as [d|], SecretData0 as [d'|]; simpl in Hr; try done; injection Hr as Hr; rewrite ?Hr.
  - by rewrite Hr.
Qed.

Lemma request_fields_public req req' : same_public req req' →
  FullMethod req = FullMethod req' ∧ GetPath req = GetPath req' ∧
  request_fields (FullMethod req) req = request_fields (FullMethod req') req'.
Proof.
  destruct req, req'; simpl; intros Hr; try done; try (by injection Hr; intros; subst).
  destruct Hr as [-> Hd]. destruct SecretData as [d|], SecretData0 as [d'|]; simpl in Hd; try done. injection Hd as Hd.
  split_and!; [done|done|]. unfold request_fields. by rewrite Hd.
Qed.


(** ** Witnesses *)
Module GrpcWitness.
#[local] Existing Instance listed_order.
Definition w0 : Fleet := {["A" := mkMock true false {["app" := {["k" := "v"]}]} ∅ (mkConfig "" 0 false "" 0 0 0 None)]}.
Definition no_log (msg : string) (fields : LogFields) : ST Fleet unit := st_ret ().

Example dispatch_needs_connection_witness :
  ∃ code msg w', dispatch no_log (NewGRPCServer (Some (mock_of "B")) 0 0 (mkTime 0 0)) (ReadSecretRequest "app") w0 =
    (Err (status_error code msg), w') ∧
    (w' = w0 ∨ ∃ c, Some (mock_of "B") = Some c ∧ w' = (c_IsConnected c w0).2).
Proof.
  refine (dispatch_needs_connection no_log (NewGRPCServer (Some (mock_of "B")) 0 0 (mkTime 0 0)) (ReadSecretRequest "app") w0 _ _ _).
  - discriminate.
  - discriminate.
  - intros c [= <-]. vm_compute. reflexivity.
Defined.

(** Two different values written to the same key, on devices that then differ. *)
Definition write (value : string) : Request :=
  WriteSecretRequest "app" (Some (mkPbSecretData (Some {["password" := value]}))) None.
Definition run (req : Request) : result Response * (list Line * Fleet) :=
  serve keep_log (logged_server (Some (mock_of "A"))) req ([], w0).

End GrpcWitness.
