(* ===== verification/GrpcClient.v ===== *)
(** * internal/agent/grpc_client.go: the manager's client of an agent

    [*GRPCClient] is itself an [hsm.Client].  The network between it and the server
    is a [Conn]: a unary call either is not delivered, or runs the server's handler
    once on the decoded request and may then lose the answer. *)

From S2P Require Import Prelude GoStd Hsm MockClient Proto Validation Grpc.

Local Open Scope go_scope.

(* [internal/agent/grpc_client.go:117-123 GetInfo] *)
Definition info_of_pb (i : PbHSMInfo) : HSMInfo :=
  mkHSMInfo (pi_Label i) (pi_Manufacturer i) (pi_Model i) (pi_SerialNumber i) (pi_FirmwareVersion i).

(** ** The network and the client *)

(** A connection to a server, given by its handler.  [Invoke] is one unary call. *)
Record Conn (W : Type) := mkConn {
  Invoke : (Request → ST W (result Response)) → Request → ST W (result Response);
  conn_Close : ST W (result unit);
}.
Arguments mkConn {W}.
Arguments Invoke {W}.
Arguments conn_Close {W}.

(* [internal/agent/grpc_client.go:38-44] *)
Record GRPCClient (W : Type) := mkGRPCClient {
  gc_client : Request → ST W (result Response);
  gc_conn : option (Conn W);
  gc_endpoint : string;
  gc_timeout : Z;
}.
Arguments mkGRPCClient {W}.
Arguments gc_client {W}.
Arguments gc_conn {W}.
Arguments gc_endpoint {W}.
Arguments gc_timeout {W}.

(** A generated client method decodes the answer into its own response type; the
    server at the other end sends no other. *)
Definition bad_response : error := status_error "Internal" "unexpected response type".

Module Remote.
Section Remote.
Context {W : Type}.
(** [dial endpoint] is [grpc.NewClient] with the handler of the server there. *)
Context (dial : string → ST W (result (Conn W * (Request → ST W (result Response))))).

(* [internal/agent/grpc_client.go:49-82] *)
Definition NewGRPCClient (endpoint : string) : ST W (result (GRPCClient W)) :=
  if bool_decide (endpoint = "") then st_ret (Err (errorf "endpoint cannot be empty"))
  else st_try (dial endpoint) (wrapf ("failed to connect to agent at " +:+ endpoint)) (λ '(conn, server),
    st_ret (Ok (mkGRPCClient (Invoke conn server) (Some conn) endpoint (30 * Second)))).

Context (c : GRPCClient W).

(* [internal/agent/grpc_client.go:108-124] *)
Definition GetInfo : ST W (result HSMInfo) :=
  st_try (gc_client c GetInfoRequest) (wrapf "failed to get HSM info") (λ resp,
    st_ret match resp with
           | GetInfoResponse (Some info) => Ok (info_of_pb info)
           | GetInfoResponse None => Err nil_dereference
           | _ => Err bad_response
           end).

(* [internal/agent/grpc_client.go:85-97] *)
Definition Initialize (config : Config W) : ST W (result unit) :=
  st_try GetInfo (wrapf "failed to initialize gRPC client") (λ _, st_ret (Ok ())).

(* [internal/agent/grpc_client.go:100-105] *)
Definition Close : ST W (result unit) :=
  match gc_conn c with Some conn => conn_Close conn | None => st_ret (Ok ()) end.

(* [internal/agent/grpc_client.go:127-145] *)
Definition ReadSecret (path : string) : ST W (result SecretData) :=
  st_try (gc_client c (ReadSecretRequest path)) (wrapf "failed to read secret") (λ resp,
    st_ret match resp with
           | ReadSecretResponse (Some d) => Ok (default ∅ (pd_Data d))
           | ReadSecretResponse None => Ok ∅
           | _ => Err bad_response
           end).

(* [internal/agent/grpc_client.go:148-181] *)
Definition WriteSecret (path : string) (data : SecretData) (metadata : option SecretMetadata) : ST W (result unit) :=
  let req := WriteSecretRequest path (Some (mkPbSecretData (Some data))) (pb_of_metadata <$> metadata) in
  st_try (gc_client c req) (wrapf "failed to write secret with metadata") (λ _, st_ret (Ok ())).

(* [internal/agent/grpc_client.go:184-207] *)
Definition ReadMetadata (path : string) : ST W (result (option SecretMetadata)) :=
  st_try (gc_client c (ReadMetadataRequest path)) (wrapf "failed to read metadata") (λ resp,
    st_ret match resp with
           | ReadMetadataResponse md => Ok (metadata_of_pb <$> md)
           | _ => Err bad_response
           end).

(* [internal/agent/grpc_client.go:210-222] *)
Definition DeleteSecret (path : string) : ST W (result unit) :=
  st_try (gc_client c (DeleteSecretRequest path "")) (wrapf "failed to delete secret") (λ _, st_ret (Ok ())).

(* [internal/agent/grpc_client.go:225-238] *)
Definition DeleteSecretKey (path key : string) : ST W (result unit) :=
  st_try (gc_client c (DeleteSecretRequest path key)) (wrapf "failed to delete secret key") (λ _, st_ret (Ok ())).

(* [internal/agent/grpc_client.go:241-253] *)
Definition ListSecrets (prefix : string) : ST W (result (list string)) :=
  st_try (gc_client c (ListSecretsRequest prefix)) (wrapf "failed to list secrets") (λ resp,
    st_ret match resp with ListSecretsResponse paths => Ok paths | _ => Err bad_response end).

(* [internal/agent/grpc_client.go:256-268] *)
Definition GetChecksum (path : string) : ST W (result string) :=
  st_try (gc_client c (GetChecksumRequest path)) (wrapf "failed to get checksum") (λ resp,
    st_ret match resp with GetChecksumResponse checksum => Ok checksum | _ => Err bad_response end).

(* [internal/agent/grpc_client.go:271-293] *)
Definition IsConnected : ST W bool :=
  (let* r := gc_client c IsConnectedRequest in
   st_ret match r with
          | Ok (IsConnectedResponse connected) => connected
          | _ => false
          end)%go.

(* [internal/agent/grpc_client.go:296-298] *)
Definition SetTimeout (timeout : Z) : GRPCClient W :=
  mkGRPCClient (gc_client c) (gc_conn c) (gc_endpoint c) timeout.

(* [internal/agent/grpc_client.go:301-303] *)
Definition GetEndpoint : string := gc_endpoint c.

(* [internal/agent/grpc_client.go:306-324] *)
Definition ChangePIN (oldPIN newPIN : string) : ST W (result unit) :=
  st_try (gc_client c (ChangePINRequest oldPIN newPIN)) (wrapf "gRPC ChangePIN failed") (λ _, st_ret (Ok ())).

(** [*GRPCClient] as an [hsm.Client]. *)
Definition as_client : Client W :=
  mkClient Initialize Close GetInfo ReadSecret WriteSecret ReadMetadata DeleteSecret
    DeleteSecretKey ListSecrets GetChecksum IsConnected ChangePIN.
End Remote.
End Remote.

(** ** What a connection promises

    Of a unary call: it fails before the server sees it, or the handler runs once
    on the decoded request, and the call then returns the handler's answer as it
    decodes, or an error if the answer is lost.  The network does not touch the
    devices. *)
Class ConnLaws {W} `{!StoreView W} (conn : Conn W) : Prop := {
  Invoke_unary h req w r w' : Invoke conn h req w = (r, w') →
    (is_Ok r = false ∧ unchanged w w') ∨
    ∃ w1 r0 w2, unchanged w w1 ∧ h (wire_request req) w1 = (r0, w2) ∧ unchanged w2 w' ∧
      (is_Ok r = false ∨ r = result_map wire_response r0);
  conn_Close_unchanged w : unchanged w (conn_Close conn w).2;
}.

(** What the devices hold, as seen through a connection: an empty label map is not
    distinguished from none. *)
Definition wire_md (m : SecretMetadata) : SecretMetadata := metadata_of_pb (wire_metadata (pb_of_metadata m)).
Definition wire_view {W} (v : StoreView W) : StoreView W :=
  {| sec_at := sec_at; md_at := λ w s p, wire_md <$> md_at w s p;
     overlaps := overlaps (W := W); storable := storable (W := W);
     keepable := λ m, stable_labels m ∧ keepable m |}.

Lemma wire_md_idemp m : wire_md (wire_md m) = wire_md m.
Proof. destruct m as [d l f t c s]. unfold wire_md, metadata_of_pb, wire_metadata, pb_of_metadata. simpl. by rewrite wire_map_idemp. Qed.

Lemma wire_md_stable m : stable_labels m → wire_md m = m.
Proof.
  destruct m as [d l f t c s]. unfold stable_labels, wire_md, metadata_of_pb, wire_metadata, pb_of_metadata. simpl.
  destruct l as [l|]; [|done]. simpl. intros Hne. rewrite bool_decide_false by congruence. done.
Qed.

Section Laws.
Context {W : Type} `{v : !StoreView W}.
Abbreviation unchanged_wire := (@unchanged W (wire_view v)).
Abbreviation only_changed_wire := (@only_changed W (wire_view v)).

Lemma unchanged_through w w' : unchanged w w' → unchanged_wire w w'.
Proof. intros Hu s p. destruct (Hu s p) as [H1 H2]. simpl. by rewrite H1, H2. Qed.

Lemma only_changed_through s p w w' : only_changed s p w w' → only_changed_wire s p w w'.
Proof. intros Hu s' p' Hne. destruct (Hu s' p' Hne) as [H1 H2]. simpl. by rewrite H1, H2. Qed.

(** ** Lemmas: the server *)
Context `{MapOrder} (log_emit : string → LogFields → ST W unit).
Hypothesis log_emit_unchanged : ∀ msg fields w, unchanged w (log_emit msg fields w).2.
Context (s : string) (inner : Client W) `{!ClientLaws s inner} (port healthPort : Z) (now : Time).

Definition agent : GRPCServer W := NewGRPCServer (Some inner) port healthPort now.

(** A request that gets through the interceptors runs its handler between two
    changes of the log. *)
Lemma serve_cases req w r w' :
  serve log_emit agent req w = (r, w') →
  (is_Ok r = false ∧ w' = w) ∨
  ∃ w1 w2, unchanged w w1 ∧ dispatch log_emit agent req w1 = (r, w2) ∧ unchanged w2 w'.
Proof.
  unfold serve. rewrite ValidationInterceptor_paths. unfold loggingInterceptor, st_bind.
  destruct (match GetPath req with Some path => ValidateSecretPath path | None => Ok () end) as [[]|e].
  2:{ intros [= <- <-]. by left. }
  pose proof (log_emit_unchanged "gRPC request started" (request_fields (FullMethod req) req) w) as H1.
  destruct (log_emit _ _ w) as [[] w1]. destruct (dispatch log_emit agent req w1) as [r1 w2] eqn:Ed.
  match goal with |- context [log_emit ?m ?f w2] =>
    pose proof (log_emit_unchanged m f w2) as H2; destruct (log_emit m f w2) as [[] w3] end.
  intros [= <- <-]. right. by exists w1, w2.
Qed.

(** A handler that guards and wraps the operation [op] of the inner client. *)
Definition guarded {A} (op : Client W → ST W (result A)) (f : A → Response) (m : ST W (result Response)) : Prop :=
  ∀ w r w', m w = (r, w') →
    (is_Ok r = false ∧ unchanged w w') ∨
    ∃ w1 ra w2, unchanged w w1 ∧ op inner w1 = (ra, w2) ∧ unchanged w2 w' ∧
      (is_Ok r = false ∨ ∃ a, ra = Ok a ∧ r = Ok (f a)).

Lemma guarded_method {A} (op : Client W → ST W (result A)) f failure fields reason (told : A → ST W unit) :
  (∀ a w, unchanged w (told a w).2) →
  guarded op f (if_client_connected agent (λ c, try_logged log_emit (op c) failure fields reason (λ a,
    do! told a in st_ret (Ok (f a))))).
Proof.
  intros Htold w r w'. unfold if_client_connected, try_logged, st_bind, st_ret. simpl.
  pose proof (IsConnected_unchanged w) as Hu. destruct (c_IsConnected inner w) as [[] w1]; simpl in Hu.
  2:{ intros [= <- <-]. by left. }
  destruct (op inner w1) as [[a|e] w2] eqn:E.
  - pose proof (Htold a w2) as Hl. destruct (told a w2) as [[] w3]. intros [= <- <-]. right.
    exists w1, (Ok a), w2. split_and!; [done..|]. right. by exists a.
  - pose proof (log_emit_unchanged failure (("error", LStr (error_string e)) :: fields) w2) as Hl.
    destruct (log_emit _ _ w2) as [[] w3]. intros [= <- <-]. right.
    exists w1, (Err e), w2. split_and!; [done..|]. by left.
Qed.

Lemma guarded_silent {A} (op : Client W → ST W (result A)) f failure fields reason :
  guarded op f (if_client_connected agent (λ c, try_logged log_emit (op c) failure fields reason (λ a, st_ret (Ok (f a))))).
Proof. apply (guarded_method op f failure fields reason (λ _, st_ret ())). reflexivity. Qed.

Lemma guarded_path {A} (op : Client W → ST W (result A)) f path m :
  guarded op f m → guarded op f (path_required path m).
Proof. intros Hm w r w'. unfold path_required. case_bool_decide; [|apply Hm]. intros [= <- <-]. by left. Qed.

(** ** Lemmas: a remote call *)
Context (conn : Conn W) `{!ConnLaws conn} (endpoint : string) (timeout : Z).

Definition remote : GRPCClient W :=
  mkGRPCClient (Invoke conn (serve log_emit agent)) (Some conn) endpoint timeout.

(** What a client method does, if the handler of its request guards [op]. *)
Lemma remote_cases {A B} (op : Client W → ST W (result A)) f req onerr (g : Response → result B) w r w' :
  guarded op f (dispatch log_emit agent (wire_request req)) →
  st_try (gc_client remote req) onerr (λ resp, st_ret (g resp)) w = (r, w') →
  (is_Ok r = false ∧ unchanged w w') ∨
  ∃ w1 ra w2, unchanged w w1 ∧ op inner w1 = (ra, w2) ∧ unchanged w2 w' ∧
    (is_Ok r = false ∨ ∃ a, ra = Ok a ∧ r = g (wire_response (f a))).
Proof.
  intros Hg. unfold st_try, st_bind, remote. cbn [gc_client].
  destruct (Invoke conn (serve log_emit agent) req w) as [ri wi] eqn:Ei.
  intros Hk. assert (w' = wi ∧ (is_Ok r = false ∨ ∃ resp, ri = Ok resp ∧ r = g resp)) as [-> Hr].
  { destruct ri as [resp|e]; injection Hk as <- <-; (split; [done|]); [right; by exists resp|by left]. }
  clear Hk.
  apply Invoke_unary in Ei as [[Hi Hu]|(w1 & r0 & w2 & Hu1 & Hs & Hu2 & Hi)].
  { left. split; [|done]. destruct Hr as [|(resp & -> & _)]; done. }
  apply serve_cases in Hs as [[H0 ->]|(w3 & w4 & Hu3 & Hd & Hu4)].
  { left. split; [|by etrans]. destruct Hr as [|(resp & -> & _)]; [done|].
    destruct Hi as [|Hi]; [done|]. by destruct r0. }
  apply Hg in Hd as [[H0 Hu5]|(w5 & ra & w6 & Hu5 & Hop & Hu6 & Ha)].
  { left. split; [|by repeat (etrans; [eassumption|])]. destruct Hr as [|(resp & -> & _)]; [done|].
    destruct Hi as [|Hi]; [done|]. by destruct r0. }
  right. exists w5, ra, w6. split_and!; [by repeat (etrans; [eassumption|])|done|by repeat (etrans; [eassumption|])|].
  destruct Hr as [|(resp & -> & ->)]; [by left|]. destruct Hi as [|Hi]; [done|].
  destruct Ha as [H0|(a & -> & ->)]; [by destruct r0|]. injection Hi as ->. right. by exists a.
Qed.

(** A remote read changes nothing and returns an answer of the inner client. *)
Lemma remote_read {A B} (op : Client W → ST W (result A)) f req onerr (g : Response → result B) w r w' :
  guarded op f (dispatch log_emit agent (wire_request req)) → (∀ w, unchanged w (op inner w).2) →
  st_try (gc_client remote req) onerr (λ resp, st_ret (g resp)) w = (r, w') →
  unchanged w w' ∧ ∀ b, r = Ok b → ∃ w1 a, unchanged w w1 ∧ (op inner w1).1 = Ok a ∧ g (wire_response (f a)) = Ok b.
Proof.
  intros Hg Hop [[Hr Hu]|(w1 & ra & w2 & Hu1 & Ho & Hu2 & Hr)]%(remote_cases _ _ _ _ _ _ _ _ Hg).
  { split; [done|]. by intros b ->. }
  pose proof (Hop w1) as Hu3. rewrite Ho in Hu3.
  split; [by repeat (etrans; [eassumption|])|]. intros b ->. destruct Hr as [|(a & -> & Hb)]; [done|].
  exists w1, a. by rewrite Ho.
Qed.

(** A remote write touches what the inner client's touches. *)
Lemma remote_write p (op : Client W → ST W (result unit)) resp req onerr w r w' :
  guarded op (λ _, resp) (dispatch log_emit agent (wire_request req)) → (∀ w, only_changed s p w (op inner w).2) →
  st_try (gc_client remote req) onerr (λ _, st_ret (Ok ())) w = (r, w') →
  only_changed s p w w' ∧
  (r = Ok () → ∃ w1 w2, unchanged w w1 ∧ op inner w1 = (Ok (), w2) ∧ unchanged w2 w').
Proof.
  intros Hg Hop [[Hr Hu]|(w1 & ra & w2 & Hu1 & Ho & Hu2 & Hr)]%(remote_cases _ _ _ _ _ _ _ _ Hg).
  { split; [by apply unchanged_only|]. by intros ->. }
  pose proof (Hop w1) as Hu3. rewrite Ho in Hu3. split.
  { etrans; [by apply unchanged_only|]. etrans; [exact Hu3|by apply unchanged_only]. }
  intros ->. destruct Hr as [|([] & -> & _)]; [done|]. by exists w1, w2.
Qed.

Ltac remote_guard :=
  simpl wire_request; unfold dispatch, ReadSecret, WriteSecret, ReadMetadata, DeleteSecret, ListSecrets,
    GetChecksum, GetInfo; simpl fmap;
  repeat first [apply guarded_path | apply guarded_silent | apply guarded_method; intros; apply log_emit_unchanged].

Lemma remote_IsConnected w : unchanged w (Remote.IsConnected remote w).2.
Proof.
  unfold Remote.IsConnected, st_bind, remote. cbn [gc_client].
  destruct (Invoke conn (serve log_emit agent) IsConnectedRequest w) as [r w'] eqn:E. cbn [snd st_ret].
  apply Invoke_unary in E as [[_ Hu]|(w1 & r0 & w2 & Hu1 & Hs & Hu2 & _)]; [done|].
  apply serve_cases in Hs as [[_ ->]|(w3 & w4 & Hu3 & Hd & Hu4)]; [by etrans|].
  assert (unchanged w3 w4) as Hu5.
  { revert Hd. simpl. unfold IsConnected, client_connected, st_bind. simpl.
    pose proof (IsConnected_unchanged w3) as Hi. destruct (c_IsConnected inner w3). by intros [= _ <-]. }
  by repeat (etrans; [eassumption|]).
Qed.

Lemma remote_delete_guarded p k :
  guarded (λ c, if bool_decide (k ≠ "") then c_DeleteSecretKey c p k else c_DeleteSecret c p)
    (λ _, DeleteSecretResponse) (dispatch log_emit agent (wire_request (DeleteSecretRequest p k))).
Proof. simpl. unfold DeleteSecret. apply guarded_path. case_bool_decide; (apply (guarded_method _ (λ _, DeleteSecretResponse) _ _ _ (λ _, log_emit _ _)); intros; apply log_emit_unchanged). Qed.

Lemma delete_only p k w :
  only_changed s p w ((if bool_decide (k ≠ "") then c_DeleteSecretKey inner p k else c_DeleteSecret inner p) w).2.
Proof. case_bool_decide; [apply DeleteSecretKey_only|apply DeleteSecret_only]. Qed.

Lemma remote_WriteSecret p d md w r w' :
  Remote.WriteSecret remote p d md w = (r, w') →
  only_changed s p w w' ∧
  (r = Ok () → ∃ w1 w2, unchanged w w1 ∧ c_WriteSecret inner p d (wire_md <$> md) w1 = (Ok (), w2) ∧ unchanged w2 w').
Proof.
  assert (guarded (λ c, c_WriteSecret c p d (wire_md <$> md)) (λ _, WriteSecretResponse)
    (dispatch log_emit agent (wire_request (WriteSecretRequest p (Some (mkPbSecretData (Some d))) (pb_of_metadata <$> md)))))
    as Hg.
  { assert (default ∅ (wire_map (Some d)) = d) as Hd by apply (wire_map_contents (Some d)).
    cbn [wire_request dispatch fmap option_fmap option_map]. unfold WriteSecret, wire_data. cbn [pd_Data].
    rewrite Hd. replace (metadata_of_pb <$> (wire_metadata <$> (pb_of_metadata <$> md))) with (wire_md <$> md)
      by by destruct md.
    apply guarded_path, (guarded_method (λ c, c_WriteSecret c p d (wire_md <$> md)) _ _ _ _ (λ _, log_emit _ _)).
    intros. apply log_emit_unchanged. }
  apply (remote_write p _ _ _ _ _ _ _ Hg). intros. apply WriteSecret_only.
Qed.

Lemma remote_laws : @ClientLaws W (wire_view v) s (Remote.as_client remote).
Proof.
  split; simpl.
  - intros w. apply unchanged_through, remote_IsConnected.
  - intros w. destruct (Remote.GetInfo remote w) as [r w'] eqn:E. apply unchanged_through.
    eapply (remote_read c_GetInfo) in E as [Hu _]; [done|remote_guard|apply GetInfo_unchanged].
  - intros w. apply unchanged_through. unfold Remote.Close. simpl. apply conn_Close_unchanged.
  - intros p w. destruct (Remote.ReadSecret remote p w) as [r w'] eqn:E. apply unchanged_through.
    eapply (remote_read (λ c, c_ReadSecret c p)) in E as [Hu _]; [done|remote_guard|apply ReadSecret_unchanged].
  - intros p w d. destruct (Remote.ReadSecret remote p w) as [r w'] eqn:E. simpl. intros ->.
    eapply (remote_read (λ c, c_ReadSecret c p)) in E as [_ Hr]; [|remote_guard|apply ReadSecret_unchanged].
    destruct (Hr d eq_refl) as (w1 & a & Hu & Ha & Heq).
    apply ReadSecret_Ok in Ha. rewrite (proj1 (Hu _ _)) in Ha. rewrite Ha. cbn in Heq.
    injection Heq as <-. f_equal. symmetry. apply (wire_map_contents (Some a)).
  - intros p w. destruct (Remote.ReadMetadata remote p w) as [r w'] eqn:E. apply unchanged_through.
    eapply (remote_read (λ c, c_ReadMetadata c p)) in E as [Hu _]; [done|remote_guard|apply ReadMetadata_unchanged].
  - intros p w md. destruct (Remote.ReadMetadata remote p w) as [r w'] eqn:E. simpl. intros ->.
    eapply (remote_read (λ c, c_ReadMetadata c p)) in E as [_ Hr]; [|remote_guard|apply ReadMetadata_unchanged].
    destruct (Hr md eq_refl) as (w1 & a & Hu & Ha & Heq).
    apply ReadMetadata_Ok in Ha. rewrite (proj2 (Hu _ _)) in Ha. rewrite Ha. simpl in Heq. injection Heq as <-.
    by destruct a.
  - intros pre w. destruct (Remote.ListSecrets remote pre w) as [r w'] eqn:E. apply unchanged_through.
    eapply (remote_read (λ c, c_ListSecrets c pre)) in E as [Hu _]; [done|remote_guard|apply ListSecrets_unchanged].
  - intros w l. destruct (Remote.ListSecrets remote "" w) as [r w'] eqn:E. simpl. intros -> p.
    eapply (remote_read (λ c, c_ListSecrets c "")) in E as [_ Hr]; [|remote_guard|apply ListSecrets_unchanged].
    destruct (Hr l eq_refl) as (w1 & a & Hu & Ha & Heq). simpl in Heq. injection Heq as ->.
    intros Hp. rewrite <-(proj1 (Hu _ _)). by apply (ListSecrets_Ok _ _ Ha).
  - intros p w. destruct (Remote.GetChecksum remote p w) as [r w'] eqn:E. apply unchanged_through.
    eapply (remote_read (λ c, c_GetChecksum c p)) in E as [Hu _]; [done|remote_guard|apply GetChecksum_unchanged].
  - intros p d md w. destruct (Remote.WriteSecret remote p d md w) as [r w'] eqn:E. apply only_changed_through.
    by apply remote_WriteSecret in E as [Ho _].
  - intros p d md w. destruct (Remote.WriteSecret remote p d md w) as [r w'] eqn:E. simpl. intros Hsto Hne ->.
    apply remote_WriteSecret in E as [_ Hr]. destruct (Hr eq_refl) as (w1 & w2 & _ & Hw & Hu).
    pose proof (WriteSecret_Ok p d (wire_md <$> md) w1) as Hok. rewrite Hw in Hok.
    destruct Hok as [Hs Hm]; [done|by destruct md; [right|left; destruct Hne as [|[??]]]|done|]. cbn [snd] in Hs, Hm. rewrite (proj1 (Hu _ _)), (proj2 (Hu _ _)).
    split; [done|]. intros m -> [Hst Hk]. cbn [fmap option_fmap option_map] in Hm |- *.
    rewrite (wire_md_stable m Hst) in Hm. rewrite (Hm m eq_refl Hk). simpl. by rewrite wire_md_stable.
  - intros p w. destruct (Remote.DeleteSecret remote p w) as [r w'] eqn:E. apply only_changed_through.
    by apply (remote_write p _ _ _ _ _ _ _ (remote_delete_guarded p "") (delete_only p "")) in E as [Ho _].
  - intros p w. destruct (Remote.DeleteSecret remote p w) as [r w'] eqn:E. simpl. intros ->.
    apply (remote_write p _ _ _ _ _ _ _ (remote_delete_guarded p "") (delete_only p "")) in E as [_ Hr].
    destruct (Hr eq_refl) as (w1 & w2 & _ & Hd & Hu). rewrite (proj1 (Hu _ _)).
    pose proof (DeleteSecret_Ok p w1) as Hok. simpl in Hd. rewrite Hd in Hok. by apply Hok.
  - intros p k w. destruct (Remote.DeleteSecretKey remote p k w) as [r w'] eqn:E. apply only_changed_through.
    by apply (remote_write p _ _ _ _ _ _ _ (remote_delete_guarded p k) (delete_only p k)) in E as [Ho _].
Qed.
End Laws.

(** ** Properties *)

(** C11. A remote client is a client: if the agent's inner client keeps the contract
    of [hsm.Client] for its device, so does the manager's gRPC client on the other
    side of the validating, logging server and of an unreliable network (calls and
    answers may be lost), up to the difference between an empty label map and none. *)
Theorem grpc_implements_client {W} (v : StoreView W) (o : MapOrder) (log_emit : string → LogFields → ST W unit)
    (s : string) (inner : Client W) (port healthPort : Z) (now : Time) (conn : Conn W) (endpoint : string) (timeout : Z) :
  (∀ msg fields w, unchanged w (log_emit msg fields w).2) → ClientLaws s inner → ConnLaws conn →
  @ClientLaws W (wire_view v) s
    (Remote.as_client (mkGRPCClient (Invoke conn (serve log_emit (NewGRPCServer (Some inner) port healthPort now)))
                         (Some conn) endpoint timeout)).
Proof. intros Hlog Hi Hc. by apply remote_laws. Qed.

(** ** Witnesses: a mock fleet behind a loopback connection *)
Module GrpcClientWitness.
#[local] Existing Instance listed_order.
(** The call reaches the server and the answer comes back. *)
Definition loopback {W} : Conn W := mkConn
  (λ h req, (let* r := h (wire_request req) in st_ret (result_map wire_response r))%go) (st_ret (Ok ())).
Definition no_log {W} : string → LogFields → ST W unit := λ _ _, st_ret ().

#[global] Instance loopback_laws {W} `{!StoreView W} : ConnLaws (W := W) loopback.
Proof.
  split; [|reflexivity]. intros h req w r w'. simpl. unfold st_bind, st_ret.
  destruct (h (wire_request req) w) as [r0 w1] eqn:E. intros [= <- <-]. right.
  exists w, r0, w1. split_and!; [reflexivity|done|reflexivity|by right].
Qed.

Definition remote_mock (s : string) : Client Fleet :=
  Remote.as_client (mkGRPCClient
    (Invoke loopback (serve no_log (NewGRPCServer (Some (mock_of s)) 9090 8093 (mkTime 0 0))))
    (Some loopback) "10.0.0.1:9090" (30 * Second)).

Example grpc_implements_client_witness : @ClientLaws Fleet (wire_view fleet_view) "A" (remote_mock "A").
Proof.
  refine (grpc_implements_client fleet_view listed_order no_log "A" (mock_of "A") 9090 8093 (mkTime 0 0)
    loopback "10.0.0.1:9090" (30 * Second) _ _ _).
  intros. reflexivity.
Defined.

Definition w0 : Fleet := {["A" := mkMock true false {["app" := {["k" := "v"]}]} ∅ (mkConfig "" 0 false "" 0 0 0 None)]}.

(** A write and a read through the connection. *)
Example remote_write_read :
  let '(r, w1) := c_WriteSecret (remote_mock "A") "team/app" (<["user" := "u"]> ∅) (Some (labelled {["a" := "b"]})) w0 in
  r = Ok () ∧ (c_ReadSecret (remote_mock "A") "team/app" w1).1 = Ok (<["user" := "u"]> ∅) ∧
  (c_ReadMetadata (remote_mock "A") "team/app" w1).1 = Ok (Some (labelled {["a" := "b"]})).
Proof. vm_compute. done. Qed.

End GrpcClientWitness.
