(* ===== verification/Pool.v ===== *)
(** * internal/agent/connection_pool.go: shared connections to the agents

    The pool caches one gRPC client per endpoint and hands out wrappers of it.  Its
    state is a record next to the world of the clients; the mutex makes each method
    atomic.  An instant is a number of nanoseconds; [time.Sleep] has no effect on the
    world.  The TLS material is passed through to [dial]. *)

From S2P Require Import Prelude GoStd Hsm MockClient Proto Grpc GrpcClient.

Local Open Scope go_scope.

(* [internal/agent/connection_pool.go:100-109] *)
Record PooledClient (W : Type) := mkPooledClient {
  pc_Client : Client W;
  pc_Endpoint : string;
  pc_CreatedAt : Z;
  pc_LastUsed : Z;
  pc_UsageCount : Z;
  pc_InUse : bool;
  pc_RefCount : Z;
  pc_LastOpStart : Z;
}.
Arguments mkPooledClient {W}.
Arguments pc_Client {W}.
Arguments pc_Endpoint {W}.
Arguments pc_CreatedAt {W}.
Arguments pc_LastUsed {W}.
Arguments pc_UsageCount {W}.
Arguments pc_InUse {W}.
Arguments pc_RefCount {W}.
Arguments pc_LastOpStart {W}.

(* [internal/agent/connection_pool.go:112-121] *)
Record ConnectionPoolMetrics := mkMetrics {
  TotalConnections : Z;
  SuccessfulConnections : Z;
  FailedConnections : Z;
  ConnectionReuses : Z;
  HealthCheckPasses : Z;
  HealthCheckFailures : Z;
  ConnectionTimeouts : Z;
  RetryAttempts : Z;
}.

(** The counters that are ever incremented. *)
Inductive counter := Total | Successful | Failed | Reuses | Passes | Failures | Retries.

Definition incr (k : counter) (m : ConnectionPoolMetrics) : ConnectionPoolMetrics :=
  let '(mkMetrics t s f r p h o a) := m in
  match k with
  | Total => mkMetrics (to_int64 (t + 1)) s f r p h o a
  | Successful => mkMetrics t (to_int64 (s + 1)) f r p h o a
  | Failed => mkMetrics t s (to_int64 (f + 1)) r p h o a
  | Reuses => mkMetrics t s f (to_int64 (r + 1)) p h o a
  | Passes => mkMetrics t s f r (to_int64 (p + 1)) h o a
  | Failures => mkMetrics t s f r p (to_int64 (h + 1)) o a
  | Retries => mkMetrics t s f r p h o (to_int64 (a + 1))
  end.

(** [cp_stopped] says whether [stopOnce] has run, which closes [stopChan]. *)
(* [internal/agent/connection_pool.go:124-132] *)
Record ConnectionPool (W TLS : Type) := mkConnectionPool {
  cp_clients : gmap string (PooledClient W);
  cp_stopped : bool;
  cp_metrics : ConnectionPoolMetrics;
  cp_clientTLS : option TLS;
}.
Arguments mkConnectionPool {W TLS}.
Arguments cp_clients {W TLS}.
Arguments cp_stopped {W TLS}.
Arguments cp_metrics {W TLS}.
Arguments cp_clientTLS {W TLS}.

(** The state of [GetStats]; an age is a duration in nanoseconds. *)
Record ClientDetail := mkClientDetail {
  cd_endpoint : string;
  cd_age : Z;
  cd_last_used_ago : Z;
  cd_usage_count : Z;
  cd_in_use : bool;
}.
Record PoolStats := mkPoolStats {
  st_active_connections : Z;
  st_clients_in_use : Z;
  st_total_usage_count : Z;
  st_client_details : list ClientDetail;
  st_metrics : ConnectionPoolMetrics;
}.

Section Pool.
Context {W TLS : Type} `{MapOrder}.
Context (time_Now : ST W Z).
(** [grpc.NewClient], with the handler of the server at the endpoint. *)
Context (dial : option TLS → string → ST W (result (Conn W * (Request → ST W (result Response))))).

Abbreviation Pool := (ConnectionPool W TLS).
(** The state: the pool and the world. *)
Definition PoolState : Type := Pool * W.

Definition get_pool : ST PoolState Pool := λ v, (v.1, v).
Definition modify_pool (f : Pool → Pool) : ST PoolState unit := λ v, ((), (f v.1, v.2)).
Definition put_world (w : W) (v : PoolState) : PoolState := (v.1, w).
Definition on_net {A} (m : ST W A) : ST PoolState A := lift_st snd put_world m.

Definition with_clients (f : gmap string (PooledClient W) → gmap string (PooledClient W)) (p : Pool) : Pool :=
  mkConnectionPool (f (cp_clients p)) (cp_stopped p) (cp_metrics p) (cp_clientTLS p).
Definition count (k : counter) : ST PoolState unit :=
  modify_pool (λ p, mkConnectionPool (cp_clients p) (cp_stopped p) (incr k (cp_metrics p)) (cp_clientTLS p)).

(* [internal/agent/connection_pool.go:144-153] *)
Definition NewConnectionPool : Pool := mkConnectionPool ∅ false (mkMetrics 0 0 0 0 0 0 0 0) None.

(* [internal/agent/connection_pool.go:137-141] *)
Definition SetClientTLS (clientTLS : option TLS) (p : Pool) : Pool :=
  mkConnectionPool (cp_clients p) (cp_stopped p) (cp_metrics p) clientTLS.

(** ** Wrappers *)

(** [atomic.AddInt32(&pooled.RefCount, -1)], and [InUse] is reset at zero. *)
(* [internal/agent/connection_pool.go:87-90 Close] *)
Definition release (pooled : PooledClient W) : PooledClient W :=
  let newRefCount := to_int32 (pc_RefCount pooled - 1) in
  mkPooledClient (pc_Client pooled) (pc_Endpoint pooled) (pc_CreatedAt pooled) (pc_LastUsed pooled)
    (pc_UsageCount pooled) (if newRefCount <=? 0 then false else pc_InUse pooled) newRefCount
    (pc_LastOpStart pooled).

(* [internal/agent/connection_pool.go:83-97 Close] *)
Definition wrapper_Close (endpoint : string) : ST PoolState (result unit) :=
  do! modify_pool (with_clients (alter release endpoint)) in
  st_ret (Ok ()).

(** A wrapper as an [hsm.Client]: every method but [Close] is the client's. *)
(* [internal/agent/connection_pool.go:32-81 ClientWrapper] *)
Definition ClientWrapper (client : Client W) (endpoint : string) : Client PoolState :=
  let c := lift_client snd put_world client in
  mkClient (c_Initialize c) (wrapper_Close endpoint) (c_GetInfo c) (c_ReadSecret c) (c_WriteSecret c)
    (c_ReadMetadata c) (c_DeleteSecret c) (c_DeleteSecretKey c) (c_ListSecrets c) (c_GetChecksum c)
    (c_IsConnected c) (c_ChangePIN c).

(** ** Getting a client *)

(* [internal/agent/connection_pool.go:212-216 getClientAttempt] *)
Definition reuse (now : Z) (pooled : PooledClient W) : PooledClient W :=
  mkPooledClient (pc_Client pooled) (pc_Endpoint pooled) (pc_CreatedAt pooled) now
    (to_int64 (pc_UsageCount pooled + 1)) true (to_int32 (pc_RefCount pooled + 1)) now.

(* [internal/agent/connection_pool.go:234-266 getClientAttempt] *)
Definition create_client (endpoint : string) (now : Z) : ST PoolState (result (Client PoolState)) :=
  do! count Total in
  let* p := get_pool in
  let* r := on_net (Remote.NewGRPCClient (dial (cp_clientTLS p)) endpoint) in
  match r with
  | Err err => do! count Failed in st_ret (Err (wrapf "failed to create gRPC client" err))
  | Ok grpc =>
      let client := Remote.as_client grpc in
      let* i := on_net (c_Initialize client (mkConfig "" 0 false "" 0 0 0 None)) in
      match i with
      | Err err =>
          do! count Failed in
          do! on_net (c_Close client) in
          st_ret (Err (wrapf "failed to initialize gRPC client" err))
      | Ok _ =>
          do! modify_pool (with_clients
                (insert endpoint (mkPooledClient client endpoint now now 1 true 1 now))) in
          do! count Successful in
          st_ret (Ok (ClientWrapper client endpoint))
      end
  end.

(* [internal/agent/connection_pool.go:201-267] *)
Definition getClientAttempt (endpoint : string) : ST PoolState (result (Client PoolState)) :=
  let* now := on_net time_Now in
  let* p := get_pool in
  match cp_clients p !! endpoint with
  | Some pooled =>
      let* connected := on_net (c_IsConnected (pc_Client pooled)) in
      if connected then
        do! modify_pool (with_clients (insert endpoint (reuse now pooled))) in
        do! count Reuses in
        st_ret (Ok (ClientWrapper (pc_Client pooled) endpoint))
      else
        do! on_net (c_Close (pc_Client pooled)) in
        do! modify_pool (with_clients (delete endpoint)) in
        create_client endpoint now
  | None => create_client endpoint now
  end.

(* [internal/agent/connection_pool.go:270-281] *)
Definition RemoveClient (endpoint : string) : ST PoolState unit :=
  let* p := get_pool in
  match cp_clients p !! endpoint with
  | Some pooled =>
      do! on_net (c_Close (pc_Client pooled)) in
      modify_pool (with_clients (delete endpoint))
  | None => st_ret ()
  end.

(** [n] attempts are left of [maxRetries]. *)
(* [internal/agent/connection_pool.go:164-197 getClientWithRetry] *)
Fixpoint client_attempts (endpoint : string) (maxRetries : Z) (n : nat) (lastErr : error) :
    ST PoolState (result (Client PoolState)) :=
  match n with
  | O => st_ret (Err (wrapf ("failed to create client after " +:+ go_itoa maxRetries +:+ " attempts") lastErr))
  | S n' =>
      let* r := getClientAttempt endpoint in
      match r with
      | Ok client =>
          let* connected := c_IsConnected client in
          if connected then st_ret (Ok client)
          else
            do! RemoveClient endpoint in
            if bool_decide (n' ≠ O)
            then client_attempts endpoint maxRetries n' (errorf "health check failed: client not connected")
            else st_ret (Ok client)
      | Err err =>
          do! (if bool_decide (n' ≠ O) then count Retries else st_ret ()) in
          client_attempts endpoint maxRetries n' err
      end
  end.

(** Before the first attempt [lastErr] is nil, which [%w] prints so. *)
(* [internal/agent/connection_pool.go:161-198] *)
Definition getClientWithRetry (endpoint : string) (maxRetries : Z) : ST PoolState (result (Client PoolState)) :=
  client_attempts endpoint maxRetries (Z.to_nat maxRetries) (errorf "%!w(<nil>)").

(* [internal/agent/connection_pool.go:156-158] *)
Definition GetClient (endpoint : string) : ST PoolState (result (Client PoolState)) :=
  getClientWithRetry endpoint 3.

(** ** The rest *)

(* [internal/agent/connection_pool.go:284-299 Close] *)
Definition close_pool : ST PoolState unit :=
  let* p := get_pool in
  if cp_stopped p then st_ret ()
  else
    do! modify_pool (λ p, mkConnectionPool (cp_clients p) true (cp_metrics p) (cp_clientTLS p)) in
    do! st_fold (λ _ ec, do! on_net (c_Close (pc_Client ec.2)) in st_ret ()) (range (cp_clients p)) () in
    modify_pool (with_clients (λ _, ∅)).

(* [internal/agent/connection_pool.go:315-328 GetStats] *)
Definition client_detail (now : Z) (ec : string * PooledClient W) : ClientDetail :=
  mkClientDetail ec.1 (now - pc_CreatedAt ec.2) (now - pc_LastUsed ec.2) (pc_UsageCount ec.2) (pc_InUse ec.2).

(* [internal/agent/connection_pool.go:302-347] *)
Definition GetStats : ST PoolState PoolStats :=
  let* p := get_pool in
  let* now := on_net time_Now in
  let clients := range (cp_clients p) in
  st_ret (mkPoolStats (Z.of_nat (size (cp_clients p)))
    (Z.of_nat (length (filter (λ ec, pc_InUse ec.2 = true) clients)))
    (fold_left (λ t ec, to_int64 (t + pc_UsageCount ec.2)) clients 0)
    (client_detail now <$> clients) (cp_metrics p)).

(* [internal/agent/connection_pool.go:350-371] *)
Definition HealthCheckClient (endpoint : string) : ST PoolState (result unit) :=
  let* p := get_pool in
  match cp_clients p !! endpoint with
  | None => st_ret (Err (errorf ("no client found for endpoint " +:+ endpoint)))
  | Some pooled =>
      let* connected := on_net (c_IsConnected (pc_Client pooled)) in
      if negb connected then
        do! count Failures in
        do! RemoveClient endpoint in
        st_ret (Err (errorf "health check failed: client not connected"))
      else do! count Passes in st_ret (Ok ())
  end.
End Pool.
Arguments PoolState : clear implicits.
