(* ===== verification/PoolController.v ===== *)
(** * internal/controller/hsmpool_controller.go: aggregating the discovery reports

    One reconciliation of an HSMPool: the annotations of the discovery pods become
    its status.  The Kubernetes client, the clock (nanoseconds) and the decoding of
    a report are arguments; logging is left out. *)

From S2P Require Import Prelude GoStd Api Kube.

Local Open Scope go_scope.

(* [internal/controller/constants.go:23-23] *)
Definition labelAppName : string := "app.kubernetes.io/name".
(* [internal/controller/constants.go:24-24] *)
Definition labelAppComponent : string := "app.kubernetes.io/component".
(* [internal/controller/constants.go:25-25] *)
Definition labelApp : string := "app".
(* [internal/controller/constants.go:26-26] *)
Definition labelHostname : string := "kubernetes.io/hostname".
(* [internal/controller/constants.go:29-29] *)
Definition labelHSMDevice : string := "hsm.j5t.io/device".
(* [internal/controller/constants.go:30-30] *)
Definition labelSerialNumber : string := "hsm.j5t.io/serial-number".
(* [internal/controller/constants.go:33-33] *)
Definition appNameHSMOperator : string := "hsm-secrets-operator".
(* [internal/controller/constants.go:34-34] *)
Definition componentDiscovery : string := "discovery".
(* [internal/controller/constants.go:35-35] *)
Definition componentAgent : string := "agent".
(* [internal/controller/constants.go:36-36] *)
Definition componentPool : string := "pool".
(* [internal/controller/constants.go:39-39] *)
Definition volumeNameSys : string := "sys".
(* [internal/controller/constants.go:40-40] *)
Definition volumeNameRunUdev : string := "run-udev".
(* [internal/controller/constants.go:41-41] *)
Definition volumeNameDevicePlugins : string := "device-plugins".
(* [internal/controller/constants.go:42-42] *)
Definition volumeNamePluginsRegistry : string := "plugins-registry".
(* [internal/controller/constants.go:45-45] *)
Definition volumeNameHSMDevice : string := "hsm-device".
(* [internal/controller/constants.go:48-48] *)
Definition phaseError : string := "Error".
(* [internal/controller/constants.go:52-52] *)
Definition capabilityAll : string := "ALL".

(* [internal/controller/hsmpool_controller.go:43-43] *)
Definition deviceReportAnnotation : string := "hsm.j5t.io/device-report".
(* [internal/controller/hsmpool_controller.go:45-45] *)
Definition DefaultGracePeriod : Z := 5 * Minute.
(* [internal/controller/hsmpool_controller.go:47-47] *)
Definition DefaultAggregationInterval : Z := 30 * Second.

(* [internal/controller/hsmpool_controller.go:51-58] *)
Record PodDiscoveryReport := mkPodDiscoveryReport {
  HSMDeviceName : string;
  ReportingNode : string;
  DiscoveredDevices : list DiscoveredDevice;
  LastReportTime : Time;
  DiscoveryStatus : string;
  rp_Error : string;
}.

Definition len {A} (l : list A) : Z := Z.of_nat (length l).

(* [internal/controller/hsmpool_controller.go:197-208] *)
Definition getPodDiscoveryStatus (pod : Pod) : string :=
  if bool_decide (pod_Phase pod = PodRunning) then "completed"
  else if bool_decide (pod_Phase pod = PodPending) then "pending"
  else if bool_decide (pod_Phase pod = PodFailed) then "failed"
  else "unknown".

(* [internal/controller/hsmpool_controller.go:211-220] *)
Definition isPodFresh (pod : Pod) : bool := bool_decide (pod_Phase pod = PodRunning).

(** One report counts as fresh, as completed. *)
Definition is_fresh (report : PodReport) : bool := pr_Fresh report.
Definition is_completed (report : PodReport) : bool :=
  bool_decide (pr_DiscoveryStatus report = "completed") && pr_Fresh report.

(* [internal/controller/hsmpool_controller.go:244-275] *)
Definition aggregateDevices (podReports : list PodReport) (expectedPods : Z) : string :=
  let freshReports := len (filter (λ r, is_fresh r = true) podReports) in
  let completedReports := len (filter (λ r, is_completed r = true) podReports) in
  if len podReports =? 0 then HSMPoolPhasePending
  else if expectedPods <=? to_int32 completedReports then HSMPoolPhaseReady
  else if to_int32 freshReports <? expectedPods then HSMPoolPhasePartial
  else HSMPoolPhaseAggregating.

(** The first condition of the type is replaced, keeping the time of its last
    transition when its status stays; without one it is appended. *)
(* [internal/controller/hsmpool_controller.go:310-339 updatePoolStatus] *)
Fixpoint set_pool_condition (now : Time) (new : Condition) (conditions : list Condition) : list Condition :=
  match conditions with
  | [] => [mkCondition (cd_Type new) (cd_Status new) now (cd_Reason new) (cd_Message new)]
  | cond :: rest =>
      if bool_decide (cd_Type cond = cd_Type new) then
        let lastTransitionTime := if bool_decide (cd_Status cond ≠ cd_Status new) then now
                                  else cd_LastTransitionTime cond in
        mkCondition (cd_Type new) (cd_Status new) lastTransitionTime (cd_Reason new) (cd_Message new) :: rest
      else cond :: set_pool_condition now new rest
  end.

(** The status [updatePoolStatus] computes. *)
(* [internal/controller/hsmpool_controller.go:279-339 updatePoolStatus] *)
Definition pool_status (now : Time) (status : HSMPoolStatus) (phase : string) (devices : list DiscoveredDevice)
    (podReports : list PodReport) (expectedPods : Z) (errorMsg : string) : HSMPoolStatus :=
  let failed := bool_decide (errorMsg ≠ "") in
  let condition := mkCondition "DeviceAggregation" (if failed then ConditionFalse else ConditionTrue) now
    (if failed then phaseError else phase)
    (if failed then errorMsg
     else "Aggregated " +:+ go_itoa (len devices) +:+ " devices from " +:+ go_itoa expectedPods +:+ " pods") in
  mkHSMPoolStatus devices (to_int32 (len devices)) (to_int32 (len (filter (λ d, dd_Available d = true) devices)))
    podReports expectedPods (Some now) (set_pool_condition now condition (ps_Conditions status)) phase
    (ps_Mirroring status).

Section PoolController.
Context {W : Type} (r : KubeClient W) (time_Now : ST W Z).
Context (json_Unmarshal : string → result PodDiscoveryReport).

(** The report in a pod's annotation, if there is one that decodes. *)
Definition device_report (pod : Pod) : option PodDiscoveryReport :=
  match om_Annotations (pod_meta pod) !! deviceReportAnnotation with
  | Some reportJSON => match json_Unmarshal reportJSON with Ok report => Some report | Err _ => None end
  | None => None
  end.

(* [internal/controller/hsmpool_controller.go:224-241] *)
Definition parseDeviceReportAnnotation (pod : Pod) : Z * string * Time :=
  match device_report pod with
  | Some report => (to_int32 (len (DiscoveredDevices report)), DiscoveryStatus report, LastReportTime report)
  | None => (-1, "", zero_time)
  end.

(** The report of one pod and the devices it contributes. *)
(* [internal/controller/hsmpool_controller.go:159-189 collectPodReports] *)
Definition pod_report (now : Time) (pod : Pod) : PodReport * list DiscoveredDevice :=
  let '(devicesFound, status, reportTime) := parseDeviceReportAnnotation pod in
  if 0 <=? devicesFound then
    (mkPodReport (om_Name (pod_meta pod)) (pod_NodeName pod) devicesFound
       (if IsZero reportTime then now else reportTime)
       (if bool_decide (status ≠ "") then status else getPodDiscoveryStatus pod) "" (isPodFresh pod),
     match device_report pod with Some report => DiscoveredDevices report | None => [] end)
  else
    (mkPodReport (om_Name (pod_meta pod)) (pod_NodeName pod) 0 now (getPodDiscoveryStatus pod) "" (isPodFresh pod), []).

(** The loop over the pods of a DaemonSet. *)
(* [internal/controller/hsmpool_controller.go:157-190 collectPodReports] *)
Definition collect_pods (acc : list PodReport * list DiscoveredDevice) (pods : list Pod) :
    ST W (list PodReport * list DiscoveredDevice) :=
  st_fold (λ acc pod,
    let* now := time_Now in
    let (report, devices) := pod_report (metav1_Now now) pod in
    st_ret (acc.1 ++ [report], acc.2 ++ devices)) pods acc.

(** The loop over the devices; on an error only the expected pods are returned. *)
(* [internal/controller/hsmpool_controller.go:121-193 collectPodReports] *)
Fixpoint collect_devices (acc : list PodReport * list DiscoveredDevice) (totalExpectedPods : Z) (hsmDevices : list HSMDevice) :
    ST W (result (list PodReport * list DiscoveredDevice) * Z) :=
  match hsmDevices with
  | [] => st_ret (Ok acc, totalExpectedPods)
  | hsmDevice :: rest =>
      let name := om_Name (hd_meta hsmDevice) in
      let* ds := api_Get (DaemonSets r) (om_Namespace (hd_meta hsmDevice)) (name +:+ "-discovery") in
      match ds with
      | Err _ => collect_devices acc totalExpectedPods rest
      | Ok daemonSet =>
          let totalExpectedPods := to_int32 (totalExpectedPods + ds_DesiredNumberScheduled daemonSet) in
          let* pods := api_List (Pods r) (Some (om_Namespace (hd_meta hsmDevice))) (dss_Selector (ds_Spec daemonSet)) in
          match pods with
          | Err err => st_ret (Err (wrapf ("failed to list DaemonSet pods for device " +:+ name) err), totalExpectedPods)
          | Ok pods =>
              let* acc := collect_pods acc pods in
              collect_devices acc totalExpectedPods rest
          end
      end
  end.

(* [internal/controller/hsmpool_controller.go:115-194] *)
Definition collectPodReports (hsmDevices : list HSMDevice) : ST W (result (list PodReport * list DiscoveredDevice) * Z) :=
  collect_devices ([], []) 0 hsmDevices.

(* [internal/controller/hsmpool_controller.go:278-356] *)
Definition updatePoolStatus (hsmPool : HSMPool) (phase : string) (devices : list DiscoveredDevice)
    (podReports : list PodReport) (expectedPods : Z) (errorMsg : string) : ST W Outcome :=
  let* now := time_Now in
  let hsmPool := mkHSMPool (hp_meta hsmPool) (hp_Spec hsmPool)
    (pool_status (metav1_Now now) (hp_Status hsmPool) phase devices podReports expectedPods errorMsg) in
  let* u := api_UpdateStatus (HSMPools r) hsmPool in
  match u with
  | Err err => st_ret (if IsConflict err then requeue_after DefaultAggregationInterval else failed err)
  | Ok _ => st_ret (requeue_after (if bool_decide (phase = HSMPoolPhaseReady) then Minute
                                   else DefaultAggregationInterval))
  end.

(* [internal/controller/hsmpool_controller.go:74-112] *)
Definition Reconcile (ns name : string) : ST W Outcome :=
  let* g := api_Get (HSMPools r) ns name in
  match g with
  | Err err => st_ret match IgnoreNotFound err with Ok _ => done | Err e => failed e end
  | Ok hsmPool =>
      match om_OwnerReferences (hp_meta hsmPool) with
      | [] => updatePoolStatus hsmPool HSMPoolPhaseError [] [] 0 "HSMPool has no owner references"
      | owner :: _ =>
          let deviceRef := or_Name owner in
          let* d := api_Get (HSMDevices r) (om_Namespace (hp_meta hsmPool)) deviceRef in
          match d with
          | Err _ => updatePoolStatus hsmPool HSMPoolPhaseError [] [] 0 ("HSMDevice " +:+ deviceRef +:+ " not found")
          | Ok hsmDevice =>
              let* c := collectPodReports [hsmDevice] in
              match c with
              | (Err err, expectedPods) =>
                  updatePoolStatus hsmPool HSMPoolPhaseError [] [] expectedPods (error_string err)
              | (Ok (podReports, aggregatedDevices), expectedPods) =>
                  updatePoolStatus hsmPool (aggregateDevices podReports expectedPods) aggregatedDevices podReports
                    expectedPods ""
              end
          end
      end
  end.

(** The requests are namespaces and names of pools. *)
(* [internal/controller/hsmpool_controller.go:373-416] *)
Definition findPoolsForPod (pod : Pod) : ST W (list (string * string)) :=
  if bool_decide (default "" (om_Labels (pod_meta pod) !! labelAppComponent) ≠ componentDiscovery) then st_ret []
  else if bool_decide (default "" (om_Annotations (pod_meta pod) !! deviceReportAnnotation) = "") then st_ret []
  else match device_report pod with
  | None => st_ret []
  | Some discoveryReport =>
      let* l := api_List (HSMPools r) (Some (om_Namespace (pod_meta pod))) ∅ in
      st_ret match l with
      | Err _ => []
      | Ok pools =>
          (λ pool, (om_Namespace (hp_meta pool), om_Name (hp_meta pool))) <$>
          filter (λ pool, or_Name <$> head (om_OwnerReferences (hp_meta pool)) = Some (HSMDeviceName discoveryReport)) pools
      end
  end.
End PoolController.

(** ** What a reconciliation does *)

(** The phase: pending without reports, ready when enough running pods have completed
    their discovery, partial when too few pods run, else aggregating. *)
Definition phase_of (reports completed fresh : nat) (expected : Z) : string :=
  match reports with
  | O => HSMPoolPhasePending
  | _ => if decide (expected ≤ Z.of_nat completed) then HSMPoolPhaseReady
         else if decide (Z.of_nat fresh < expected) then HSMPoolPhasePartial
         else HSMPoolPhaseAggregating
  end.

Lemma to_int32_id z : - 2 ^ 31 ≤ z < 2 ^ 31 → to_int32 z = z.
Proof.
  unfold to_int32. change (2 ^ 31) with 2147483648. change (2 ^ 32) with 4294967296. intros Hz.
  rewrite Z.mod_small; lia.
Qed.

Lemma aggregateDevices_phase reports expected :
  len reports < 2 ^ 31 →
  aggregateDevices reports expected =
  phase_of (length reports) (length (filter (λ r, is_completed r = true) reports))
    (length (filter (λ r, is_fresh r = true) reports)) expected.
Proof.
  unfold aggregateDevices, phase_of, len. intros Hl.
  pose proof (length_filter (λ r, is_completed r = true) reports).
  pose proof (length_filter (λ r, is_fresh r = true) reports).
  rewrite !to_int32_id by lia. destruct reports as [|p reports]; [done|].
  cbn [length] in *. destruct (Z.of_nat (S (length reports)) =? 0) eqn:E; [apply Z.eqb_eq in E; lia|].
  repeat case_match; try done; repeat match goal with
    | H : (_ <=? _) = true |- _ => apply Z.leb_le in H | H : (_ <=? _) = false |- _ => apply Z.leb_gt in H
    | H : (_ <? _) = true |- _ => apply Z.ltb_lt in H | H : (_ <? _) = false |- _ => apply Z.ltb_ge in H end; lia.
Qed.

(** The counters of a status agree with its lists. *)
Definition counters_ok (s : HSMPoolStatus) : Prop :=
  ps_TotalDevices s = to_int32 (len (ps_AggregatedDevices s)) ∧
  ps_AvailableDevices s = to_int32 (len (filter (λ d, dd_Available d = true) (ps_AggregatedDevices s))).

Section Spec.
Context {W : Type} `{!ClusterView W} (r : KubeClient W) (time_Now : ST W Z).
Context (json_Unmarshal : string → result PodDiscoveryReport).
Context `{!ApiLaws (HSMPools r), !ApiLaws (HSMDevices r), !ApiLaws (DaemonSets r), !ApiLaws (Pods r)}.
Hypothesis time_objects : ∀ w, objects (time_Now w).2 = objects w.

(** The discovery report in the annotations of a pod. *)
Definition annotated (pod : Pod) (report : PodDiscoveryReport) : Prop :=
  ∃ j, om_Annotations (pod_meta pod) !! "hsm.j5t.io/device-report" = Some j ∧ json_Unmarshal j = Ok report.

(** What the phase of a pod says about its discovery. *)
Definition phase_status (pod : Pod) (status : string) : Prop :=
  (pod_Phase pod = PodRunning ∧ status = "completed") ∨ (pod_Phase pod = PodPending ∧ status = "pending") ∨
  (pod_Phase pod = PodFailed ∧ status = "failed") ∨ ((pod_Phase pod ∉ [PodRunning; PodPending; PodFailed]) ∧ status = "unknown").

Definition clock_reading (t : Time) : Prop := ∃ v, t = metav1_Now (time_Now v).1.

(** The row of a pod in the status of the pool, and the devices it contributes: those of
    its annotation, if that holds a report. *)
Definition reported (pod : Pod) (row : PodReport) (devices : list DiscoveredDevice) : Prop :=
  pr_PodName row = om_Name (pod_meta pod) ∧ pr_NodeName row = pod_NodeName pod ∧
  (pr_Fresh row = true ↔ pod_Phase pod = PodRunning) ∧
  ((∃ report, annotated pod report ∧ devices = DiscoveredDevices report ∧
      pr_DevicesFound row = Z.of_nat (length devices) ∧
      (DiscoveryStatus report ≠ "" ∧ pr_DiscoveryStatus row = DiscoveryStatus report ∨
       DiscoveryStatus report = "" ∧ phase_status pod (pr_DiscoveryStatus row)) ∧
      (pr_LastReportTime row = LastReportTime report ∨ IsZero (LastReportTime report) = true ∧ clock_reading (pr_LastReportTime row)))
   ∨ (∀ report, ¬ annotated pod report) ∧ devices = [] ∧ pr_DevicesFound row = 0 ∧
     phase_status pod (pr_DiscoveryStatus row) ∧ clock_reading (pr_LastReportTime row)).

(** Annotations are at most 256 KiB long. *)
Definition few_devices (o : Objects) : Prop :=
  ∀ pod report, o_Pods o !! key_of pod = Some pod → annotated pod report → len (DiscoveredDevices report) < 2 ^ 31.

(** A status that reports a failure: no devices and no reports, [expected] pods. *)
Definition failed_status (s : HSMPoolStatus) (expected : Z) : Prop :=
  ps_Phase s = HSMPoolPhaseError ∧ ps_AggregatedDevices s = [] ∧ ps_ReportingPods s = [] ∧ ps_ExpectedPods s = expected.

(** [s] is what there is to say, in [w], about the pool [p]; with the message of the
    failure, if it is one. *)
Inductive aggregated (w : W) (p : HSMPool) (s : HSMPoolStatus) : string → Prop :=
  | no_owner : om_OwnerReferences (hp_meta p) = [] → failed_status s 0 → aggregated w p s "HSMPool has no owner references"
  | no_device owner v e :
      head (om_OwnerReferences (hp_meta p)) = Some owner → objects v = objects w →
      (api_Get (HSMDevices r) (om_Namespace (hp_meta p)) (or_Name owner) v).1 = Err e →
      failed_status s 0 → aggregated w p s ("HSMDevice " +:+ or_Name owner +:+ " not found")
  | no_daemon owner d v e :
      head (om_OwnerReferences (hp_meta p)) = Some owner →
      o_HSMDevices (objects w) !! (om_Namespace (hp_meta p), or_Name owner) = Some d → objects v = objects w →
      (api_Get (DaemonSets r) (om_Namespace (hd_meta d)) (om_Name (hd_meta d) +:+ "-discovery") v).1 = Err e →
      ps_Phase s = HSMPoolPhasePending → ps_AggregatedDevices s = [] → ps_ReportingPods s = [] → ps_ExpectedPods s = 0 →
      aggregated w p s ""
  | no_pods owner d ds v e :
      head (om_OwnerReferences (hp_meta p)) = Some owner →
      o_HSMDevices (objects w) !! (om_Namespace (hp_meta p), or_Name owner) = Some d →
      o_DaemonSets (objects w) !! (om_Namespace (hd_meta d), om_Name (hd_meta d) +:+ "-discovery") = Some ds →
      objects v = objects w →
      (api_List (Pods r) (Some (om_Namespace (hd_meta d))) (dss_Selector (ds_Spec ds)) v).1 = Err e →
      failed_status s (to_int32 (ds_DesiredNumberScheduled ds)) →
      aggregated w p s ("failed to list DaemonSet pods for device " +:+ om_Name (hd_meta d) +:+ ": " +:+ error_string e)
  | from_pods owner d ds pods parts :
      head (om_OwnerReferences (hp_meta p)) = Some owner →
      o_HSMDevices (objects w) !! (om_Namespace (hp_meta p), or_Name owner) = Some d →
      o_DaemonSets (objects w) !! (om_Namespace (hd_meta d), om_Name (hd_meta d) +:+ "-discovery") = Some ds →
      (∀ pod, pod ∈ pods ↔ o_Pods (objects w) !! key_of pod = Some pod ∧
         selects (Some (om_Namespace (hd_meta d))) (dss_Selector (ds_Spec ds)) (pod_meta pod)) →
      Forall3 reported pods (ps_ReportingPods s) parts → ps_AggregatedDevices s = concat parts →
      ps_ExpectedPods s = to_int32 (ds_DesiredNumberScheduled ds) →
      (Z.of_nat (length pods) < 2 ^ 31 →
       ps_Phase s = phase_of (length pods) (length (filter (λ r, is_completed r = true) (ps_ReportingPods s)))
                      (length (filter (λ r, is_fresh r = true) (ps_ReportingPods s))) (ps_ExpectedPods s)) →
      aggregated w p s "".

(** The condition of the aggregation says whether it failed, and why. *)
Definition condition_says (s : HSMPoolStatus) (msg : string) : Prop :=
  ∃ c, List.find (λ c, bool_decide (cd_Type c = "DeviceAggregation")) (ps_Conditions s) = Some c ∧
    (msg = "" ∧ cd_Status c = ConditionTrue ∧ cd_Reason c = ps_Phase s ∨
     msg ≠ "" ∧ cd_Status c = ConditionFalse ∧ cd_Message c = msg).

Lemma set_pool_condition_find now c cs :
  ∃ t, List.find (λ c', bool_decide (cd_Type c' = cd_Type c)) (set_pool_condition now c cs) =
    Some (mkCondition (cd_Type c) (cd_Status c) t (cd_Reason c) (cd_Message c)).
Proof.
  induction cs as [|c' cs [t IH]]; cbn [set_pool_condition].
  - exists now. cbn [List.find cd_Type]. by rewrite bool_decide_eq_true_2.
  - case_bool_decide as E; cbn [List.find cd_Type].
    + rewrite bool_decide_eq_true_2 by done. by eexists.
    + rewrite bool_decide_eq_false_2 by done. by exists t.
Qed.

(** ** Lemmas: the rows *)
Lemma getPodDiscoveryStatus_phase pod : phase_status pod (getPodDiscoveryStatus pod).
Proof.
  unfold phase_status, getPodDiscoveryStatus. repeat (case_bool_decide; [by (left + (right; left) + (right; right; left))|]). do 3 right. split; [|done].
  rewrite !elem_of_cons, elem_of_nil. tauto.
Qed.

Lemma device_report_annotated pod report : device_report json_Unmarshal pod = Some report ↔ annotated pod report.
Proof.
  unfold device_report, annotated, deviceReportAnnotation. destruct (om_Annotations (pod_meta pod) !! _) as [j|]; [|split; [done|by intros (? & ? & ?)]].
  split.
  - destruct (json_Unmarshal j) as [rep|e] eqn:E; [|done]. intros [= <-]. by exists j.
  - intros (j' & [= <-] & ->). done.
Qed.

Lemma pod_report_reported pod v :
  (∀ report, annotated pod report → len (DiscoveredDevices report) < 2 ^ 31) →
  let (row, devices) := pod_report json_Unmarshal (metav1_Now (time_Now v).1) pod in reported pod row devices.
Proof.
  intros Hfew. pose proof (getPodDiscoveryStatus_phase pod) as Hph. unfold pod_report, parseDeviceReportAnnotation.
  assert (∀ b, b = isPodFresh pod → b = true ↔ pod_Phase pod = PodRunning) as Hfr.
  { intros b ->. unfold isPodFresh. by rewrite bool_decide_eq_true. }
  destruct (device_report json_Unmarshal pod) as [rep|] eqn:E.
  - apply device_report_annotated in E. pose proof (Hfew rep E) as Hb. unfold len in *.
    rewrite to_int32_id by lia. destruct (Z.leb_spec 0 (Z.of_nat (length (DiscoveredDevices rep)))) as [_|?]; [|lia].
    split; [done|]. split; [done|]. split; [by apply Hfr|]. left. exists rep. split_and!; try done; cbn.
    + case_bool_decide as Es; [by left|by right].
    + destruct (IsZero (LastReportTime rep)) eqn:Ez; [right; split; [done|by exists v]|by left].
  - cbn. split; [done|]. split; [done|]. split; [by apply Hfr|]. right. split; [|split_and!; try done; by exists v].
    intros rep Hrep%device_report_annotated. congruence.
Qed.

Lemma collect_pods_spec pods acc w acc' w' :
  (∀ pod report, pod ∈ pods → annotated pod report → len (DiscoveredDevices report) < 2 ^ 31) →
  collect_pods time_Now json_Unmarshal acc pods w = (acc', w') →
  objects w' = objects w ∧ ∃ rows parts, acc' = (acc.1 ++ rows, acc.2 ++ concat parts) ∧ Forall3 reported pods rows parts.
Proof.
  unfold collect_pods. revert acc w. induction pods as [|pod pods IH]; intros acc w Hfew.
  { intros [= <- <-]. split; [done|]. exists [], []. rewrite !app_nil_r. destruct acc. split; [done|constructor]. }
  cbn [st_fold]. unfold st_bind. pose proof (time_objects w) as Ht.
  pose proof (pod_report_reported pod w (λ report, Hfew pod report ltac:(by left))) as Hrow.
  destruct (time_Now w) as [now w1]. cbn [fst snd] in *. destruct (pod_report _ _ pod) as [row devs].
  cbn [fst snd st_ret]. intros E. apply IH in E as (E1 & rows & parts & E2 & E3); [|intros ? ? ?; apply Hfew; by right].
  split; [by rewrite E1|]. exists (row :: rows), (devs :: parts). split; [|by constructor].
  rewrite E2. cbn [fst snd concat]. by rewrite <-!app_assoc.
Qed.

(** ** Lemmas: the status *)
Lemma aggregate_spec w p owner d v c v' :
  few_devices (objects w) → head (om_OwnerReferences (hp_meta p)) = Some owner →
  o_HSMDevices (objects w) !! (om_Namespace (hp_meta p), or_Name owner) = Some d → objects v = objects w →
  collectPodReports r time_Now json_Unmarshal [d] v = (c, v') →
  objects v' = objects w ∧
  match c with
  | (Ok (reports, devices), expected) => ∀ s, ps_Phase s = aggregateDevices reports expected →
      ps_AggregatedDevices s = devices → ps_ReportingPods s = reports → ps_ExpectedPods s = expected → aggregated w p s ""
  | (Err e, expected) => ∀ s, failed_status s expected → aggregated w p s (error_string e)
  end.
Proof.
  intros Hfew Ho Hd Hv. unfold collectPodReports. cbn [collect_devices]. unfold st_bind, st_ret.
  destruct (api_Get (DaemonSets r) _ _ v) as [gd v1] eqn:E. pose proof E as Eg. apply api_Get_law in E as [Eo Ed].
  destruct gd as [ds|e].
  2:{ intros [= <- <-]. split; [congruence|]. intros s Hph Hdev Hrep Hexp.
      eapply no_daemon; [exact Ho|exact Hd|exact Hv|by rewrite Eg|by rewrite Hph|done|done|done]. }
  destruct Ed as [Eds _]. cbn [k_get DaemonSet_kind] in Eds. rewrite Hv in Eds.
  destruct (api_List (Pods r) _ _ v1) as [lp v2] eqn:E2. pose proof E2 as El. apply api_List_law in E2 as [Eo2 Hp].
  assert (objects v1 = objects w) as Hv1 by congruence. destruct lp as [pods|e].
  2:{ intros [= <- <-]. split; [congruence|]. intros s Hs. eapply no_pods; [exact Ho|exact Hd|exact Eds|exact Hv1|by rewrite El|done]. }
  specialize (Hp pods eq_refl). cbn [k_get Pod_kind] in Hp. rewrite Hv1 in Hp.
  destruct (collect_pods _ _ ([], []) pods v2) as [[reps devs] v3] eqn:E3.
  apply collect_pods_spec in E3 as (Eo3 & rows & parts & [= -> ->] & Hall).
  2:{ intros pod report [Hpod _]%Hp Hann. by eapply Hfew. }
  intros [= <- <-]. split; [congruence|]. intros s Hph Hdev Hrep Hexp.
  eapply from_pods; [exact Ho|exact Hd|exact Eds|exact Hp|by rewrite Hrep|exact Hdev|exact Hexp|].
  intros Hb. rewrite Hph, Hrep, Hexp. cbn [app]. pose proof (Forall3_length_lm _ _ _ _ Hall) as Hlen.
  rewrite Hlen. apply aggregateDevices_phase. unfold len. by rewrite <-Hlen.
Qed.

(** The status [s] of the pool [p] is written, unless the server refuses. *)
Definition status_written (p : HSMPool) (s : HSMPoolStatus) (out : Outcome) (w w' : W) : Prop :=
  (∃ p', wrote (insert (key_of p) p') w w' ∧ key_of p' = key_of p ∧ hp_Spec p' = hp_Spec p ∧ hp_Status p' = s) ∨
  objects w' = objects w ∧
  ∃ v e, objects v = objects w ∧ (api_UpdateStatus (HSMPools r) (mkHSMPool (hp_meta p) (hp_Spec p) s) v).1 = Err e ∧
    (IsConflict e = true ∧ out = requeue_after (30 * Second) ∨ IsConflict e = false ∧ out = failed e).

Lemma updatePoolStatus_spec w p phase devices reports expected msg v out w' :
  o_HSMPools (objects w) !! key_of p = Some p → objects v = objects w →
  updatePoolStatus r time_Now p phase devices reports expected msg v = (out, w') →
  ∃ s, ps_Phase s = phase ∧ ps_AggregatedDevices s = devices ∧ ps_ReportingPods s = reports ∧ ps_ExpectedPods s = expected ∧
    counters_ok s ∧ condition_says s msg ∧ ps_Mirroring s = ps_Mirroring (hp_Status p) ∧ status_written p s out w w'.
Proof.
  unfold updatePoolStatus, st_bind, st_ret. intros Hp Hv. pose proof (time_objects v) as Ht.
  destruct (time_Now v) as [now v1]. cbn [snd] in Ht.
  set (s := pool_status _ _ _ _ _ _ _). destruct (api_UpdateStatus (HSMPools r) _ v1) as [u v2] eqn:E. intros Hout.
  exists s. split_and!; try done.
  { unfold condition_says, s, pool_status. cbn [ps_Conditions ps_Phase]. set (c := mkCondition _ _ _ _ _).
    destruct (set_pool_condition_find (metav1_Now now) c (ps_Conditions (hp_Status p))) as [t Hf].
    eexists. split; [exact Hf|]. subst c. cbn [cd_Status cd_Reason cd_Message]. case_bool_decide as Em; [by right|left].
    by split. }
  set (q := mkHSMPool (hp_meta p) (hp_Spec p) s) in *.
  assert (w' = v2) as -> by (destruct u; [|case_match]; congruence).
  assert (∀ p0 p', k_get (objects v1) !! key_of q = Some p0 → k_same (k_merge q p0) p' → wrote (insert (key_of q) p') v1 v2 →
    ∃ p', wrote (insert (key_of p) p') w v2 ∧ key_of p' = key_of p ∧ hp_Spec p' = hp_Spec p ∧ hp_Status p' = s) as Hw.
  { intros p0 p' Hl Hs Hwr. exists p'. cbn [k_get HSMPool_kind] in Hl.
    change (key_of q) with (key_of p) in *. rewrite Ht, Hv, Hp in Hl. injection Hl as <-.
    pose proof (k_same_key _ _ Hs) as Hk'. destruct Hs as (_ & Hsp & Hst).
    split; [unfold wrote in *; by rewrite Hwr, Ht, Hv|]. split; [exact Hk'|]. split; [exact Hsp|exact Hst]. }
  pose proof E as Eu. apply api_UpdateStatus_law in E.
  destruct u as [p'|e]; [left; destruct E as (p0 & H1 & H2 & H3); by eapply Hw|].
  destruct E as [E|(p0 & p' & H1 & H2 & H3)]; [right|left; by eapply Hw].
  split; [congruence|]. exists v1, e. split; [congruence|]. split; [exact (f_equal fst Eu)|].
  destruct (IsConflict e); [left|right]; by injection Hout.
Qed.

(** C19. A reconciliation writes at most the status of its own pool. If the pool could be
    read, the status it writes is what the cluster says: either a failure with its
    reason, without devices, or, for each pod that the DaemonSet of the pool's device
    selects, one row made of its name, node and phase and of the report in its
    annotation, the devices of those reports, and the phase these rows amount to; its
    counters agree with its devices and its condition with the failure. Nothing is written
    only if the pool cannot be read or the server refuses the update. *)
Theorem Reconcile_aggregates (ns name : string) (w w' : W) (out : Outcome) :
  few_devices (objects w) →
  Reconcile r time_Now json_Unmarshal ns name w = (out, w') →
  (∃ e, (api_Get (HSMPools r) ns name w).1 = Err e ∧ objects w' = objects w ∧
     out = (if IsNotFound e then done else failed e)) ∨
  ∃ p s msg, o_HSMPools (objects w) !! (ns, name) = Some p ∧ key_of p = (ns, name) ∧
    aggregated w p s msg ∧ counters_ok s ∧ condition_says s msg ∧ ps_Mirroring s = ps_Mirroring (hp_Status p) ∧
    status_written p s out w w'.
Proof.
  intros Hfew. unfold Reconcile, st_bind. destruct (api_Get (HSMPools r) ns name w) as [g w1] eqn:Eg.
  apply api_Get_law in Eg as [Eo Eg]. destruct g as [p|e].
  2:{ unfold st_ret. intros [= <- <-]. left. exists e. split_and!; [done|done|]. unfold IgnoreNotFound. by destruct (IsNotFound e). }
  destruct Eg as [Hp Hkey]. intros E. right.
  assert (∀ phase devices reports expected msg v,
    (∀ s, ps_Phase s = phase → ps_AggregatedDevices s = devices → ps_ReportingPods s = reports → ps_ExpectedPods s = expected →
       aggregated w p s msg) → objects v = objects w →
    updatePoolStatus r time_Now p phase devices reports expected msg v = (out, w') →
    ∃ p s msg, o_HSMPools (objects w) !! (ns, name) = Some p ∧ key_of p = (ns, name) ∧
      aggregated w p s msg ∧ counters_ok s ∧ condition_says s msg ∧ ps_Mirroring s = ps_Mirroring (hp_Status p) ∧
      status_written p s out w w') as Hup.
  { intros phase devices reports expected msg v Hagg Hv Hu. apply (updatePoolStatus_spec w) in Hu; [|by rewrite Hkey|done].
    destruct Hu as (s & H1 & H2 & H3 & H4 & H5 & H6 & H7 & H8). exists p, s, msg. split_and!; try done. by apply Hagg. }
  revert E. destruct (om_OwnerReferences (hp_meta p)) as [|owner owners] eqn:Eow.
  { apply Hup; [|done]. intros s ? ? ? ?. by apply no_owner. }
  assert (head (om_OwnerReferences (hp_meta p)) = Some owner) as Ho by by rewrite Eow.
  destruct (api_Get (HSMDevices r) _ (or_Name owner) w1) as [gd w2] eqn:Ed. pose proof Ed as Egd.
  apply api_Get_law in Ed as [Eo2 Ed]. destruct gd as [d|e].
  2:{ apply Hup; [|congruence]. intros s ? ? ? ?. eapply no_device; [exact Ho|exact Eo|by rewrite Egd|done]. }
  destruct (collectPodReports r time_Now json_Unmarshal [d] w2) as [c w3] eqn:Ec. destruct Ed as [Ed _].
  cbn [k_get HSMDevice_kind] in Ed. rewrite Eo in Ed.
  apply (aggregate_spec w p owner) in Ec as [Eo3 Hc]; [|done..|congruence].
  destruct c as [[[reports devices]|e] expected]; apply Hup; [exact Hc|done| |done].
  intros s ? ? ? ?. by apply Hc.
Qed.
End Spec.

(** ** Witness: two discovery pods, one of which has found a device *)
Module PoolWitness.
Definition now : ST Objects Z := st_ret (1000 * Second).
Definition meta (name : string) (labels : gmap string string) (owners : list OwnerReference) : ObjectMeta :=
  mkObjectMeta name "hsm" "" 1 labels ∅ [] None owners (mkTime 0 0) 1.
Definition pool : HSMPool :=
  mkHSMPool (meta "pico-pool" ∅ [mkOwnerRef "" "HSMDevice" "pico" "" true]) (mkHSMPoolSpec None None)
    (mkHSMPoolStatus [] 0 0 [] 0 None [] "" None).
Definition device : HSMDevice := mkHSMDevice (meta "pico" ∅ []) (mkHSMDeviceSpec "PicoHSM" None ∅ None 1 None).
Definition selector : gmap string string := {[labelHSMDevice := "pico"]}.
Definition daemon : DaemonSet :=
  mkDaemonSet (meta "pico-discovery" ∅ [])
    (mkDaemonSetSpec selector selector (mkPodSpec None None None "" [] [] []) "RollingUpdate" "50%") 2.
Definition pod (name report : string) : Pod :=
  mkPod (mkObjectMeta name "hsm" "" 1 selector {[deviceReportAnnotation := report]} [] None [] (mkTime 0 0) 1)
    "node-1" PodRunning "" "" [] [].
Definition found : DiscoveredDevice :=
  mkDiscoveredDevice "/dev/1" "A1" "node-1" (mkTime 900 0) ∅ true "" "" "" None "".
(** A stand-in for the JSON decoder. *)
Definition decode (s : string) : result PodDiscoveryReport :=
  Ok (mkPodDiscoveryReport "pico" "node-1" (if bool_decide (s = "one") then [found] else []) (mkTime 900 0) "completed" "").
Definition w0 : Objects :=
  mkObjects {[key_of pool := pool]} {[key_of device := device]} ∅ ∅ {[key_of daemon := daemon]}
    (<[("hsm", "p1") := pod "p1" "one"]> {[("hsm", "p2") := pod "p2" "none"]}) ∅.
Definition run : Outcome * Objects := Reconcile Mem.kube now decode "hsm" "pico-pool" w0.

Definition summary (o : Objects) : option (string * Z * list string) :=
  match o_HSMPools o !! ("hsm", "pico-pool") with
  | Some p => Some (ps_Phase (hp_Status p), ps_TotalDevices (hp_Status p),
                    dd_SerialNumber <$> ps_AggregatedDevices (hp_Status p))
  | None => None
  end.

Lemma w0_few : few_devices decode (objects w0).
Proof.
  intros p report _ (j & _ & [= <-]). cbn [DiscoveredDevices]. by case_bool_decide.
Qed.

(** The rows come from the pods: there are two, and one lists a device. *)
Example Reconcile_aggregates_witness :
  summary run.2 = Some ("Ready", 1, ["A1"]) ∧
  ∃ p s msg, o_HSMPools w0 !! ("hsm", "pico-pool") = Some p ∧ aggregated Mem.kube now decode w0 p s msg ∧
    status_written Mem.kube p s run.1 w0 run.2.
Proof.
  split; [vm_compute; reflexivity|].
  destruct (Reconcile_aggregates Mem.kube now decode (λ _, eq_refl) "hsm" "pico-pool" w0 run.2 run.1 w0_few)
    as [(e & He & _)|(p & s & msg & Hp & _ & Ha & _ & _ & _ & Hw)].
  - reflexivity.
  - exfalso. vm_compute in He. discriminate He.
  - by exists p, s, msg.
Defined.
End PoolWitness.
