(* ===== verification/Agents.v ===== *)
(** * internal/agent/manager.go and naming.go: finding and tracking the agents

    The manager tracks the pods of the agents and hands out pooled clients.  The
    tracking table is the record [Manager]; the Kubernetes API, the clock and the
    network are operations on the world.  Locks and logging are not modelled. *)

From Stdlib Require Import Ascii.
From S2P Require Import Prelude GoStd Hsm Api Kube Mirror Proto Grpc GrpcClient Pool.

Local Open Scope go_scope.

(** ** naming.go *)
(* [internal/agent/manager.go:66-66] *)
Definition AgentNamePrefix : string := "hsm-agent".
(* [internal/agent/manager.go:69-69] *)
Definition AgentPort : Z := 9090.
(* [internal/agent/naming.go:24-24] *)
Definition maxAgentNameLength : Z := 63.

(** The function given to [strings.Map], on ASCII; other runes become a dash too. *)
(* [internal/agent/naming.go:54-65 sanitizeNameSegment] *)
Definition name_rune (r : ascii) : ascii :=
  if is_lower r then r
  else if is_digit r then r
  else if is_upper r then byte_of (byte_val r + 32)
  else if bool_decide (r = "-"%char) then r
  else "-"%char.

(* [internal/agent/naming.go:51-68] *)
Definition sanitizeNameSegment (value : string) : string :=
  let sanitized := map_runes name_rune "-" 0 value in
  trim_left1 "-" (trim_right1 "-" sanitized).

(* [internal/agent/naming.go:34-45] *)
Definition AgentInstanceName (deviceName serial : string) : option string :=
  let safeSerial := sanitizeNameSegment serial in
  if bool_decide (safeSerial = "") then None
  else
    let name := AgentNamePrefix +:+ "-" +:+ deviceName +:+ "-" +:+ safeSerial in
    Some (if maxAgentNameLength <? str_len name
          then trim_right1 "-" (str_take (Z.to_nat maxAgentNameLength) name)
          else name).

(** ** manager.go *)
(* [internal/agent/manager.go:35-35] *)
Definition labelApp : string := "app".

(* [internal/agent/manager.go:45-52 AgentStatus] *)
Inductive AgentStatus := AgentStatusCreating | AgentStatusReady | AgentStatusFailed.

(* [internal/agent/manager.go:55-62] *)
Record AgentInfo := mkAgentInfo {
  PodIPs : list string;
  CreatedAt : Z;
  LastHealthCheck : Z;
  Status : AgentStatus;
  AgentName : string;
  ai_Namespace : string;
}.

(** [activeAgents] and the test configuration; the connection pool is a separate
    component of the state, the durations are seen through [ticks] below. *)
(* [internal/agent/manager.go:76-92] *)
Record Manager := mkManager {
  AgentImage : string;
  AgentNamespace : string;
  activeAgents : gmap string AgentInfo;
  TestMode : bool;
  WaitTimeout : Z;
  WaitPollInterval : Z;
}.

(* [internal/agent/manager.go:108-126] *)
Definition NewManager (namespace agentImage : string) : Manager :=
  mkManager agentImage namespace ∅ false (60 * Second) (2 * Second).

(* [internal/agent/manager.go:135-153] *)
Definition NewTestManager (namespace agentImage : string) : Manager :=
  mkManager agentImage namespace ∅ true (5 * Second) (100 * Millisecond).

(* [internal/agent/manager.go:100-105] *)
Record deviceWork := mkDeviceWork {
  dw_device : DiscoveredDevice;
  dw_agentName : string;
  dw_agentKey : string;
  dw_index : Z;
}.

Definition with_agents (f : gmap string AgentInfo → gmap string AgentInfo) (m : Manager) : Manager :=
  mkManager (AgentImage m) (AgentNamespace m) (f (activeAgents m)) (TestMode m) (WaitTimeout m)
    (WaitPollInterval m).

(* [internal/agent/manager.go:314-316] *)
Definition removeAgentFromTracking (deviceName : string) : Manager → Manager :=
  with_agents (delete deviceName).
(* [internal/agent/manager.go:319-323] *)
Definition RemoveAgentFromTracking (deviceName : string) : Manager → Manager :=
  removeAgentFromTracking deviceName.
(* [internal/agent/manager.go:326-331] *)
Definition SetAgentInfo (deviceName : string) (info : AgentInfo) : Manager → Manager :=
  with_agents (insert deviceName info).
(* [internal/agent/manager.go:305-311] *)
Definition GetAgentInfo (m : Manager) (deviceName : string) : option AgentInfo :=
  activeAgents m !! deviceName.

(** [fmt.Sprintf("%s-%s", deviceName, serialNumber)] *)
(* [internal/agent/manager.go:173-173 EnsureAgent] *)
Definition agentKey (deviceName serial : string) : string := deviceName +:+ "-" +:+ serial.

(** The loop over the aggregated devices; [i] is the index of the first one. *)
(* [internal/agent/manager.go:158-176 EnsureAgent] *)
Fixpoint work_items (deviceName : string) (i : Z) (devices : list DiscoveredDevice) : list deviceWork :=
  match devices with
  | [] => []
  | d :: rest =>
      if negb (dd_Available d) then work_items deviceName (i + 1) rest
      else match AgentInstanceName deviceName (dd_SerialNumber d) with
           | None => work_items deviceName (i + 1) rest
           | Some agentName =>
               mkDeviceWork d agentName (agentKey deviceName (dd_SerialNumber d)) i
               :: work_items deviceName (i + 1) rest
           end
  end.

(** [allReady] of the loop over the conditions: the first condition of type Ready
    decides; without one the pod counts as ready. *)
(* [internal/agent/manager.go:284-290 waitForAgentReady] *)
Fixpoint all_ready (conditions : list (string * string)) : bool :=
  match conditions with
  | [] => true
  | (ty, status) :: rest =>
      if bool_decide (ty = PodReady) then bool_decide (status = ConditionTrue) else all_ready rest
  end.

(* [internal/agent/manager.go:279-295 waitForAgentReady] *)
Definition ready_ips (pods : list Pod) : list string :=
  pod_PodIP <$> filter (λ pod, pod_Phase pod = PodRunning ∧ pod_PodIP pod ≠ "" ∧
                               all_ready (pod_Conditions pod) = true) pods.

(* [internal/agent/manager.go:421-429 CreateGRPCClient] *)
Definition target_pod (pods : list Pod) : option Pod :=
  head (filter (λ pod, pod_Phase pod = PodRunning ∧ pod_PodIPs pod ≠ []) pods).

Section Manager.
Context {W TLS : Type} `{MapOrder}.
Context (time_Now : ST W Z).
Context (dial : option TLS → string → ST W (result (Conn W * (Request → ST W (result Response))))).
(** The API: pods by namespace (every one if it is absent) and labels, and the pools
    of all namespaces. *)
Context (List_Pods : option string → gmap string string → ST W (result (list Pod))).
Context (List_HSMPools : ST W (result (list HSMPool))).

(** ** Tracking *)

(** The state: the tracking table and the world. *)
Definition ManagerState : Type := Manager * W.
Definition on_cluster {A} (m : ST W A) : ST ManagerState A := λ v, let (a, w) := m v.2 in (a, (v.1, w)).
Definition get_manager : ST ManagerState Manager := λ v, (v.1, v).
Definition modify_manager (f : Manager → Manager) : ST ManagerState unit := λ v, ((), (f v.1, v.2)).

(* [internal/agent/manager.go:334-359] *)
Definition isAgentHealthy (agentInfo : AgentInfo) : ST W bool :=
  if bool_decide (PodIPs agentInfo = []) then st_ret false
  else
    let* r := List_Pods (Some (ai_Namespace agentInfo)) {[labelApp := AgentName agentInfo]} in
    st_ret match r with
           | Err _ => false
           | Ok pods => bool_decide (filter (λ pod, pod_Phase pod = PodRunning) pods ≠ [])
           end.

(** [ticks] ticks of the ticker come before the timeout. *)
(* [internal/agent/manager.go:261-301 waitForAgentReady] *)
Fixpoint wait_loop (timeout : Z) (agentName namespace : string) (ticks : nat) : ST W (result (list string)) :=
  match ticks with
  | O => st_ret (Err (errorf ("timeout waiting for agent pods to be ready after " +:+ duration_string timeout)))
  | S ticks' =>
      let* r := List_Pods (Some namespace) {[labelApp := agentName]} in
      match r with
      | Err _ => wait_loop timeout agentName namespace ticks'
      | Ok pods =>
          let readyPodIPs := ready_ips pods in
          if bool_decide (readyPodIPs ≠ []) then st_ret (Ok readyPodIPs)
          else wait_loop timeout agentName namespace ticks'
      end
  end.

(* [internal/agent/manager.go:255-302] *)
Definition waitForAgentReady (ticks : nat) (agentName namespace : string) : ST ManagerState (result (list string)) :=
  let* m := get_manager in
  if TestMode m then st_ret (Ok ["127.0.0.1"])
  else on_cluster (wait_loop (WaitTimeout m) agentName namespace ticks).

(* [internal/agent/manager.go:207-228] *)
Definition discoverAndTrackAgent (ticks : nat) (work : deviceWork) (namespace : string) : ST ManagerState (result unit) :=
  st_try (waitForAgentReady ticks (dw_agentName work) namespace)
    (wrapf ("agent pods not ready for " +:+ dw_agentName work)) (λ podIPs,
    let* created := on_cluster time_Now in
    let* checked := on_cluster time_Now in
    do! modify_manager (SetAgentInfo (dw_agentKey work)
          (mkAgentInfo podIPs created checked AgentStatusReady (dw_agentName work) namespace)) in
    st_ret (Ok ())).

(** One device of [EnsureAgent]'s second loop. *)
(* [internal/agent/manager.go:184-200 EnsureAgent] *)
Definition ensure_work (ticks : nat) (namespace : string) (work : deviceWork) : ST ManagerState unit :=
  let* m := get_manager in
  let* healthy := match activeAgents m !! dw_agentKey work with
                  | Some agentInfo => on_cluster (isAgentHealthy agentInfo)
                  | None => st_ret false
                  end in
  if healthy then st_ret ()
  else
    do! modify_manager (removeAgentFromTracking (dw_agentKey work)) in
    do! discoverAndTrackAgent ticks work namespace in
    st_ret ().

(** [hsmPool.OwnerReferences[0]] panics if there is none. *)
(* [internal/agent/manager.go:156-204] *)
Definition EnsureAgent (ticks : nat) (hsmPool : HSMPool) : ST ManagerState (result unit) :=
  match om_OwnerReferences (hp_meta hsmPool) with
  | [] => st_ret (Err index_out_of_range)
  | owner :: _ =>
      let workItems := work_items (or_Name owner) 0 (ps_AggregatedDevices (hp_Status hsmPool)) in
      do! st_fold (λ _ work, ensure_work ticks (om_Namespace (hp_meta hsmPool)) work) workItems () in
      st_ret (Ok ())
  end.

(* [internal/agent/manager.go:231-251] *)
Definition CleanupAgent (hsmDevice : HSMDevice) (m : Manager) : Manager :=
  let devicePrefix := om_Name (hd_meta hsmDevice) +:+ "-" in
  let agentsToCleanup := filter (λ agentKey, has_prefix agentKey devicePrefix = true)
                           (range (activeAgents m)).*1 in
  fold_left (λ m agentKey, removeAgentFromTracking agentKey m) agentsToCleanup m.

(* [internal/agent/manager.go:362-384] *)
Definition GetAgentPodIPs (m : Manager) (hsmPool : HSMPool) : result (list string) :=
  let deviceName := trim_suffix (om_Name (hp_meta hsmPool)) "-pool" in
  let allPodIPs := ps_AggregatedDevices (hp_Status hsmPool) ≫= λ aggregatedDevice,
    match activeAgents m !! agentKey deviceName (dd_SerialNumber aggregatedDevice) with
    | Some agentInfo => PodIPs agentInfo
    | None => []
    end in
  if bool_decide (allPodIPs = [])
  then Err (errorf ("no active agents found for device " +:+ deviceName +:+ " in pool " +:+
                    om_Name (hp_meta hsmPool)))
  else Ok allPodIPs.

(** [fmt.Sprintf("%s:%d", ip, AgentPort)] *)
(* [internal/agent/manager.go:395-395 GetGRPCEndpoints] *)
Definition endpoint_of (ip : string) : string := ip +:+ ":" +:+ go_itoa AgentPort.

(* [internal/agent/manager.go:387-399] *)
Definition GetGRPCEndpoints (m : Manager) (hsmPool : HSMPool) : result (list string) :=
  result_map (fmap endpoint_of) (GetAgentPodIPs m hsmPool).

(** ** Clients *)
(* [internal/agent/manager.go:405-411 CreateGRPCClient] *)
Definition agent_labels (serial : string) : gmap string string :=
  <["app.kubernetes.io/name" := "hsm-agent"]>
    (<["app.kubernetes.io/component" := "hsm-agent"]> {["hsm.j5t.io/serial-number" := serial]}).

(* [internal/agent/manager.go:402-450 CreateGRPCClient] *)
Definition create_grpc_client (device : DiscoveredDevice) : ST (PoolState W TLS) (result (Client (PoolState W TLS))) :=
  let serial := dd_SerialNumber device in
  st_try (on_net (List_Pods None (agent_labels serial)))
    (wrapf ("failed to list agent pods for device " +:+ serial)) (λ podList,
  if bool_decide (podList = [])
  then st_ret (Err (errorf ("no agent pod found for device with serial number " +:+ serial)))
  else match target_pod podList with
  | None => st_ret (Err (errorf ("no running agent pod found for device with serial number " +:+ serial)))
  | Some targetPod =>
      match pod_PodIPs targetPod with
      | [] => st_ret (Err index_out_of_range)
      | podIP :: _ =>
          let endpoint := endpoint_of podIP in
          st_try (GetClient time_Now dial endpoint) (wrapf ("failed to get pooled gRPC client for " +:+ endpoint))
            (λ grpcClient, st_ret (Ok grpcClient))
      end
  end).

(* [internal/agent/manager.go:453-483 GetAvailableDevices] *)
Definition get_available_devices (namespace : string) : ST (PoolState W TLS) (result (list DiscoveredDevice)) :=
  st_try (on_net List_HSMPools) (wrapf "failed to list HSM pools") (λ hsmPoolList,
    let availableDevices := fold_left (λ acc pool,
      if negb (bool_decide (ps_Phase (hp_Status pool) = HSMPoolPhaseReady)) then acc
      else acc ++ ps_AggregatedDevices (hp_Status pool)) hsmPoolList [] in
    if bool_decide (availableDevices = []) then st_ret (Err (errorf "no available HSM devices found"))
    else st_ret (Ok availableDevices)).

(** [*Manager] as the interface of the mirror manager and the REST API. *)
Definition agent_manager : AgentManagerInterface (PoolState W TLS) :=
  mkAgentManager _ create_grpc_client get_available_devices.

(* [internal/agent/manager.go:486-490 Close] *)
Definition close_manager : ST (PoolState W TLS) unit := close_pool.
End Manager.
