(* ===== verification/AgentsSpec.v ===== *)
(** * What the agent manager and its connection pool guarantee

    The manager over the pool, the gRPC clients and the agents' servers keeps the
    contract ([AgentLaws]) under which the mirror manager and the REST API are
    verified; names of agents; what tracking means. *)

From Stdlib Require Import Ascii.
From S2P Require Import Prelude GoStd Hsm MockClient Api Kube Mirror Proto Grpc GrpcClient Pool Agents.

Local Open Scope go_scope.

(** ** The pool's clients *)
Section PoolLaws.
Context {W TLS : Type} `{v : !StoreView W} `{MapOrder}.
Context (time_Now : ST W Z).
Context (dial : option TLS → string → ST W (result (Conn W * (Request → ST W (result Response))))).
(** The serial number of the device behind an endpoint. *)
Context (serial_at : string → string).

Abbreviation State := (PoolState W TLS).
Abbreviation unchanged_wire := (@unchanged W (wire_view v)).

(** A connection leads to a running agent, whose client is a client of the device
    behind the endpoint; neither dialing nor reading the clock touches the devices. *)
Class DialLaws : Prop := {
  dial_unchanged tls ep : preserves unchanged (dial tls ep);
  dial_Ok tls ep w conn server : (dial tls ep w).1 = Ok (conn, server) →
    ConnLaws conn ∧
    ∃ log_emit inner port healthPort now,
      (∀ msg fields w, unchanged w (log_emit msg fields w).2) ∧ ClientLaws (serial_at ep) inner ∧
      server = serve log_emit (NewGRPCServer (Some inner) port healthPort now);
  clock_unchanged : preserves unchanged time_Now;
}.
Context `{!DialLaws}.

(** A client of the device behind [ep], as seen through a connection. *)
Definition good_client (ep : string) (c : Client W) : Prop :=
  @ClientLaws W (wire_view v) (serial_at ep) c ∧ ∀ cfg, preserves unchanged_wire (c_Initialize c cfg).

(** The pool's invariant: a cached client belongs to its endpoint. *)
Definition pool_ok (p : ConnectionPool W TLS) : Prop :=
  map_Forall (λ ep pooled, pc_Endpoint pooled = ep ∧ good_client ep (pc_Client pooled)) (cp_clients p).

#[global] Instance pool_view : StoreView State :=
  {| sec_at x := @sec_at W (wire_view v) x.2; md_at x := @md_at W (wire_view v) x.2;
     overlaps := overlaps (W := W); storable := storable (W := W); keepable := @keepable W (wire_view v) |}.

(** From a state that keeps the invariant, [m] leaves one that does, changes nothing
    on the devices and returns something that satisfies [Q]. *)
Definition yields {A} (Q : A → Prop) (m : ST State A) : Prop :=
  ∀ x, pool_ok x.1 → pool_ok (m x).2.1 ∧ unchanged x (m x).2 ∧ Q (m x).1.

Lemma yields_ret {A} (Q : A → Prop) a : Q a → yields Q (st_ret a).
Proof. intros HQ x Hx. split_and!; [done|reflexivity|done]. Qed.

Lemma yields_bind {A B} (Q : A → Prop) (R : B → Prop) (m : ST State A) k :
  yields Q m → (∀ a, Q a → yields R (k a)) → yields R (st_bind m k).
Proof.
  intros Hm Hk x Hx. unfold st_bind. destruct (Hm x Hx) as (H1 & H2 & H3).
  destruct (m x) as [a x']. simpl in *. destruct (Hk a H3 x' H1) as (H4 & H5 & H6).
  split_and!; [done|by etrans|done].
Qed.

Lemma yields_try {A B} (Q : A → Prop) (R : result B → Prop) (m : ST State (result A)) f k :
  yields (λ r, ∀ a, r = Ok a → Q a) m → (∀ e, R (Err e)) → (∀ a, Q a → yields R (k a)) →
  yields R (st_try m f k).
Proof.
  intros Hm He Hk. eapply yields_bind; [exact Hm|]. intros [a|e] HQ; [by apply Hk, HQ|by apply yields_ret].
Qed.

Lemma yields_get_pool : yields pool_ok get_pool.
Proof. intros x Hx. split_and!; [done|reflexivity|done]. Qed.

Lemma yields_modify f : (∀ p, pool_ok p → pool_ok (f p)) → yields (λ _, True) (modify_pool f).
Proof. intros Hf x Hx. split_and!; [by apply Hf|done|done]. Qed.

Lemma yields_count k : yields (λ _, True) (count k).
Proof. by apply yields_modify. Qed.

Lemma yields_net {A} (Q : A → Prop) (m : ST W A) :
  preserves unchanged_wire m → (∀ w, Q (m w).1) → yields Q (on_net m).
Proof.
  intros Hm HQ x Hx. unfold on_net, lift_st. specialize (Hm x.2). specialize (HQ x.2).
  destruct (m x.2) as [a w']. done.
Qed.

Lemma yields_weaken {A} (Q R : A → Prop) m : yields Q m → (∀ a, Q a → R a) → yields R m.
Proof. intros Hm HQ x Hx. destruct (Hm x Hx) as (?&?&?). split_and!; auto. Qed.

Lemma yields_fold {A S} (f : S → A → ST State S) l s :
  (∀ s a, a ∈ l → yields (λ _, True) (f s a)) → yields (λ _, True) (st_fold f l s).
Proof.
  revert s. induction l as [|a l IH]; intros s Hf; simpl; [by apply yields_ret|].
  eapply yields_bind; [apply Hf; by left|]. intros s' _. apply IH. intros. apply Hf. by right.
Qed.

Lemma to_wire {A} (m : ST W A) : preserves unchanged m → preserves unchanged_wire m.
Proof. intros Hm w. apply unchanged_through, Hm. Qed.

(** Methods of a good client change nothing where they only ask. *)
Lemma good_IsConnected ep c : good_client ep c → preserves unchanged_wire (c_IsConnected c).
Proof. intros [Hc _] w. apply (@IsConnected_unchanged W (wire_view v) _ _ Hc). Qed.
Lemma good_Close ep c : good_client ep c → preserves unchanged_wire (c_Close c).
Proof. intros [Hc _] w. apply (@Close_unchanged W (wire_view v) _ _ Hc). Qed.

(** A dialed client is good. *)
Lemma NewGRPCClient_good tls ep w c :
  (Remote.NewGRPCClient (dial tls) ep w).1 = Ok c → good_client ep (Remote.as_client c).
Proof.
  unfold Remote.NewGRPCClient. case_bool_decide; [done|]. unfold st_try, st_bind.
  pose proof (dial_Ok tls ep w) as Hd. destruct (dial tls ep w) as [[[conn server]|e] w']; [|done].
  intros [= <-]. destruct (Hd conn server eq_refl) as (Hc & log & inner & p & hp & now & Hlog & Hi & ->).
  assert (@ClientLaws W (wire_view v) (serial_at ep) (Remote.as_client (remote log inner p hp now conn ep (30 * Second))))
    as Hl by (apply remote_laws; done).
  split; [exact Hl|]. intros cfg. apply preserves_try; [apply _| |intros; apply preserves_ret, _].
  intros w0. apply (@GetInfo_unchanged W (wire_view v) _ _ Hl).
Qed.

(** A wrapper of a good client. *)
Definition wraps (ep : string) (c : Client State) : Prop := ∃ client, good_client ep client ∧ c = ClientWrapper client ep.

Lemma wrapper_IsConnected ep c : wraps ep c → yields (λ _, True) (c_IsConnected c).
Proof. intros (client & Hc & ->). apply yields_net; [|done]. by eapply good_IsConnected. Qed.

Lemma pool_ok_lookup p ep pooled : pool_ok p → cp_clients p !! ep = Some pooled → good_client ep (pc_Client pooled).
Proof. intros Hp Hl. by apply (Hp ep pooled Hl). Qed.

Lemma pool_ok_insert p ep pooled :
  pc_Endpoint pooled = ep → good_client ep (pc_Client pooled) → pool_ok p → pool_ok (with_clients (insert ep pooled) p).
Proof. intros He Hc Hp. by apply map_Forall_insert_2. Qed.

Lemma pool_ok_delete p ep : pool_ok p → pool_ok (with_clients (delete ep) p).
Proof. intros Hp. by apply map_Forall_delete. Qed.

Lemma create_client_good ep now :
  yields (λ r, ∀ c, r = Ok c → wraps ep c) (create_client dial ep now).
Proof.
  unfold create_client. eapply yields_bind; [apply yields_count|intros _ _].
  eapply yields_bind; [apply yields_get_pool|intros p _].
  eapply (yields_bind (λ r, ∀ c, r = Ok c → good_client ep (Remote.as_client c))).
  - apply yields_net; [|intros w c; apply NewGRPCClient_good].
    apply to_wire. unfold Remote.NewGRPCClient. case_bool_decide; [apply preserves_ret, _|].
    apply preserves_try; [apply _|apply dial_unchanged|intros [conn server]; apply preserves_ret, _].
  - intros [grpc|e] Hg.
    + specialize (Hg grpc eq_refl).
      eapply yields_bind; [apply (yields_net (λ _, True)); [apply Hg|done]|]. intros [[]|e] _.
      * eapply yields_bind; [apply yields_modify; intros p' Hp'; by apply pool_ok_insert|intros _ _].
        eapply yields_bind; [apply yields_count|intros _ _]. apply yields_ret. intros c [= <-].
        by exists (Remote.as_client grpc).
      * eapply yields_bind; [apply yields_count|intros _ _].
        eapply yields_bind; [apply (yields_net (λ _, True)); [by eapply good_Close|done]|intros _ _].
        by apply yields_ret.
    + eapply yields_bind; [apply yields_count|intros _ _]. by apply yields_ret.
Qed.

Lemma getClientAttempt_good ep :
  yields (λ r, ∀ c, r = Ok c → wraps ep c) (getClientAttempt time_Now dial ep).
Proof.
  unfold getClientAttempt.
  eapply yields_bind; [apply (yields_net (λ _, True)); [apply to_wire, clock_unchanged|done]|intros now _].
  eapply yields_bind; [apply yields_get_pool|intros p Hp].
  destruct (cp_clients p !! ep) as [pooled|] eqn:El; [|apply create_client_good].
  pose proof (pool_ok_lookup _ _ _ Hp El) as Hg. destruct (Hp ep pooled El) as [He _].
  eapply yields_bind; [apply (yields_net (λ _, True)); [by eapply good_IsConnected|done]|intros [] _].
  - eapply yields_bind; [apply yields_modify; intros p' Hp'; by apply pool_ok_insert|intros _ _].
    eapply yields_bind; [apply yields_count|intros _ _]. apply yields_ret. intros c [= <-].
    by exists (pc_Client pooled).
  - eapply yields_bind; [apply (yields_net (λ _, True)); [by eapply good_Close|done]|intros _ _].
    eapply yields_bind; [apply yields_modify; intros p' Hp'; by apply pool_ok_delete|intros _ _].
    apply create_client_good.
Qed.

Lemma RemoveClient_good ep : yields (λ _, True) (RemoveClient ep).
Proof.
  unfold RemoveClient. eapply yields_bind; [apply yields_get_pool|intros p Hp].
  destruct (cp_clients p !! ep) as [pooled|] eqn:El; [|by apply yields_ret].
  eapply yields_bind; [apply (yields_net (λ _, True)); [by eapply good_Close, pool_ok_lookup|done]|intros _ _].
  apply yields_modify. intros p' Hp'. by apply pool_ok_delete.
Qed.

Lemma client_attempts_good ep max n e :
  yields (λ r, ∀ c, r = Ok c → wraps ep c) (client_attempts time_Now dial ep max n e).
Proof.
  revert e. induction n as [|n IH]; intros e; simpl; [by apply yields_ret|].
  eapply yields_bind; [apply getClientAttempt_good|]. intros [c|err] Hc.
  - specialize (Hc c eq_refl). eapply yields_bind; [by eapply wrapper_IsConnected|intros [] _].
    { apply yields_ret. by intros c' [= <-]. }
    eapply yields_bind; [apply RemoveClient_good|intros _ _]. case_bool_decide; [apply IH|].
    apply yields_ret. by intros c' [= <-].
  - eapply (yields_bind (λ _, True)); [|intros _ _; apply IH].
    case_bool_decide; [apply yields_count|by apply yields_ret].
Qed.

(** A client handed out is a wrapper of a client of the device behind the endpoint. *)
Lemma GetClient_good ep : yields (λ r, ∀ c, r = Ok c → wraps ep c) (GetClient time_Now dial ep).
Proof. apply client_attempts_good. Qed.

Lemma close_pool_good : yields (λ _, True) (close_pool (W := W) (TLS := TLS)).
Proof.
  unfold close_pool. eapply yields_bind; [apply yields_get_pool|intros p Hp].
  destruct (cp_stopped p); [by apply yields_ret|].
  eapply yields_bind; [by apply yields_modify|intros _ _].
  eapply (yields_bind (λ _, True)).
  - apply yields_fold. intros s [ep pooled] Hin. apply elem_of_range in Hin.
    eapply yields_bind; [apply (yields_net (λ _, True)); [by eapply good_Close, pool_ok_lookup|done]|intros _ _].
    by apply yields_ret.
  - intros _ _. apply yields_modify. intros p' _. apply map_Forall_empty.
Qed.

(** ** The manager, on the states that keep the invariant *)

(** [m] keeps the invariant of the pool. *)
Definition keeps {A} (m : ST State A) : Prop := ∀ x, pool_ok x.1 → pool_ok (m x).2.1.

Record client_keeps (c : Client State) : Prop := {
  k_Initialize cfg : keeps (c_Initialize c cfg);
  k_Close : keeps (c_Close c);
  k_GetInfo : keeps (c_GetInfo c);
  k_ReadSecret p : keeps (c_ReadSecret c p);
  k_WriteSecret p d md : keeps (c_WriteSecret c p d md);
  k_ReadMetadata p : keeps (c_ReadMetadata c p);
  k_DeleteSecret p : keeps (c_DeleteSecret c p);
  k_DeleteSecretKey p k : keeps (c_DeleteSecretKey c p k);
  k_ListSecrets pre : keeps (c_ListSecrets c pre);
  k_GetChecksum p : keeps (c_GetChecksum c p);
  k_IsConnected : keeps (c_IsConnected c);
  k_ChangePIN o n : keeps (c_ChangePIN c o n);
}.

Lemma keeps_net {A} (m : ST W A) : keeps (on_net m).
Proof. intros x Hx. unfold on_net, lift_st. by destruct (m x.2). Qed.

Lemma wrapper_keeps client ep : client_keeps (ClientWrapper client ep).
Proof.
  split; intros; try apply keeps_net.
  intros x Hx ep' pooled. simpl. destruct (decide (ep = ep')) as [<-|Hne].
  - rewrite lookup_alter_eq. intros (q & Hq & ->)%fmap_Some. apply (Hx ep q Hq).
  - rewrite lookup_alter_ne by done. apply Hx.
Qed.

(** The states that keep the invariant, and operations on them. *)
Definition GoodState : Type := { x : State | pool_ok x.1 }.

Definition restrict {A} (m : ST State A) (Hm : keeps m) : ST GoodState A :=
  λ x, ((m (proj1_sig x)).1, exist _ (m (proj1_sig x)).2 (Hm _ (proj2_sig x))).

Definition restrict_client (c : Client State) (K : client_keeps c) : Client GoodState :=
  mkClient
    (λ cfg, restrict (c_Initialize c (mkConfig (PKCS11LibraryPath cfg) (SlotID cfg) (UseSlotID cfg)
       (TokenLabel cfg) (ConnectionTimeout cfg) (Hsm.RetryAttempts cfg) (RetryDelay cfg) None)) (k_Initialize c K _))
    (restrict (c_Close c) (k_Close c K)) (restrict (c_GetInfo c) (k_GetInfo c K))
    (λ p, restrict (c_ReadSecret c p) (k_ReadSecret c K p))
    (λ p d md, restrict (c_WriteSecret c p d md) (k_WriteSecret c K p d md))
    (λ p, restrict (c_ReadMetadata c p) (k_ReadMetadata c K p))
    (λ p, restrict (c_DeleteSecret c p) (k_DeleteSecret c K p))
    (λ p k, restrict (c_DeleteSecretKey c p k) (k_DeleteSecretKey c K p k))
    (λ pre, restrict (c_ListSecrets c pre) (k_ListSecrets c K pre))
    (λ p, restrict (c_GetChecksum c p) (k_GetChecksum c K p))
    (restrict (c_IsConnected c) (k_IsConnected c K))
    (λ o n, restrict (c_ChangePIN c o n) (k_ChangePIN c K o n)).

#[global] Instance good_view : StoreView GoodState :=
  {| sec_at x := sec_at (proj1_sig x); md_at x := md_at (proj1_sig x);
     overlaps := overlaps (W := W); storable := storable (W := W); keepable := @keepable W (wire_view v) |}.

Lemma net_result {A} (m : ST W A) K (x : GoodState) : (restrict (lift_st snd put_world m) K x).1 = (m (proj1_sig x).2).1.
Proof. unfold restrict, lift_st. simpl. by destruct (m _). Qed.

Lemma net_world {A} (m : ST W A) K (x : GoodState) :
  (proj1_sig (restrict (lift_st snd put_world m) K x).2).2 = (m (proj1_sig x).2).2.
Proof. unfold restrict, lift_st. simpl. by destruct (m _). Qed.

Lemma net_unchanged {A} (m : ST W A) K x :
  unchanged_wire (proj1_sig x).2 (m (proj1_sig x).2).2 → unchanged x (restrict (lift_st snd put_world m) K x).2.
Proof. intros Hu s p. cbn [sec_at md_at good_view pool_view]. rewrite net_world. apply Hu. Qed.

Lemma net_only {A} (m : ST W A) K s p x :
  @only_changed W (wire_view v) s p (proj1_sig x).2 (m (proj1_sig x).2).2 → only_changed s p x (restrict (lift_st snd put_world m) K x).2.
Proof. intros Hu s' p' Hne. cbn [sec_at md_at good_view pool_view]. rewrite net_world. by apply Hu. Qed.

(** Through a wrapper, the client of a device is one. *)
Lemma wrapper_laws ep client K :
  good_client ep client → ClientLaws (serial_at ep) (restrict_client (ClientWrapper client ep) K).
Proof.
  intros [Hc _]. pose (V := wire_view v). split; cbn [restrict_client ClientWrapper lift_client c_IsConnected
    c_Close c_GetInfo c_ReadSecret c_WriteSecret c_ReadMetadata c_DeleteSecret c_DeleteSecretKey c_ListSecrets
    c_GetChecksum].
  - intros x. apply net_unchanged, (@IsConnected_unchanged W V _ _ Hc).
  - intros x. apply net_unchanged, (@GetInfo_unchanged W V _ _ Hc).
  - by intros x s p.
  - intros p x. apply net_unchanged, (@ReadSecret_unchanged W V _ _ Hc).
  - intros p x d. rewrite net_result. apply (@ReadSecret_Ok W V _ _ Hc).
  - intros p x. apply net_unchanged, (@ReadMetadata_unchanged W V _ _ Hc).
  - intros p x md. rewrite net_result. apply (@ReadMetadata_Ok W V _ _ Hc).
  - intros pre x. apply net_unchanged, (@ListSecrets_unchanged W V _ _ Hc).
  - intros x l. rewrite net_result. apply (@ListSecrets_Ok W V _ _ Hc).
  - intros p x. apply net_unchanged, (@GetChecksum_unchanged W V _ _ Hc).
  - intros p d md x. apply net_only, (@WriteSecret_only W V _ _ Hc).
  - intros p d md x. rewrite net_result. cbn [sec_at md_at good_view pool_view]. rewrite net_world.
    apply (@WriteSecret_Ok W V _ _ Hc).
  - intros p x. apply net_only, (@DeleteSecret_only W V _ _ Hc).
  - intros p x. rewrite net_result. cbn [sec_at md_at good_view pool_view]. rewrite net_world.
    apply (@DeleteSecret_Ok W V _ _ Hc).
  - intros p k x. apply net_only, (@DeleteSecretKey_only W V _ _ Hc).
Qed.


(** ** The manager *)
Context (List_Pods : option string → gmap string string → ST W (result (list Pod))).
Context (List_HSMPools : ST W (result (list HSMPool))).

(** Asking the API touches no device, and the pods found by the labels of a serial
    number serve the device with that number, at the agents' port. *)
Class ClusterLaws : Prop := {
  List_Pods_unchanged ns labels : preserves unchanged (List_Pods ns labels);
  List_HSMPools_unchanged : preserves unchanged List_HSMPools;
  pods_serve serial w pods pod ip ips :
    (List_Pods None (agent_labels serial) w).1 = Ok pods → pod ∈ pods →
    pod_PodIPs pod = ip :: ips → serial_at (endpoint_of ip) = serial;
}.
Context `{!ClusterLaws}.

Abbreviation create := (create_grpc_client time_Now dial List_Pods).
Abbreviation available := (get_available_devices (TLS := TLS) List_HSMPools).

Lemma create_good device :
  yields (λ r, ∀ c, r = Ok c → ∃ ep, serial_at ep = dd_SerialNumber device ∧ wraps ep c) (create device).
Proof.
  unfold create_grpc_client.
  eapply (yields_try (λ pods, ∀ pod ip ips, pod ∈ pods → pod_PodIPs pod = ip :: ips →
                                serial_at (endpoint_of ip) = dd_SerialNumber device)); [|done|].
  { apply yields_net; [apply to_wire, List_Pods_unchanged|]. intros w pods E pod ip ips. by apply (pods_serve _ w pods). }
  intros pods Hpods. case_bool_decide; [by apply yields_ret|].
  destruct (target_pod pods) as [pod|] eqn:Et; [|by apply yields_ret].
  assert (pod ∈ pods) as Hin.
  { unfold target_pod in Et. destruct (filter _ pods) as [|pod' l] eqn:Ef; [done|]. injection Et as <-.
    assert (pod' ∈ filter (λ pod, pod_Phase pod = PodRunning ∧ pod_PodIPs pod ≠ []) pods) as Hf
      by (rewrite Ef; left). by apply list_elem_of_filter in Hf as [_ ?]. }
  destruct (pod_PodIPs pod) as [|ip ips] eqn:Ei; [by apply yields_ret|].
  eapply yields_try; [apply GetClient_good|done|]. intros c Hc. apply yields_ret. intros c' [= <-].
  exists (endpoint_of ip). split; [by apply (Hpods pod ip ips)|done].
Qed.

Lemma create_keeps device x c x' : pool_ok x.1 → create device x = (Ok c, x') → client_keeps c.
Proof.
  intros Hx E. destruct (create_good device x Hx) as (_ & _ & Hc). rewrite E in Hc.
  destruct (Hc c eq_refl) as (ep & _ & client & _ & ->). apply wrapper_keeps.
Qed.

Lemma create_state device x r x' : pool_ok x.1 → create device x = (r, x') → pool_ok x'.1.
Proof. intros Hx E. pose proof (create_good device x Hx) as [Hok _]. by rewrite E in Hok. Qed.

Definition restricted_result device (x : GoodState) (r : result (Client State) * State) :
    create device (proj1_sig x) = r → result (Client GoodState) * GoodState :=
  match r with
  | (Ok c, x') => λ E, (Ok (restrict_client c (create_keeps device _ c x' (proj2_sig x) E)),
                        exist _ x' (create_state device _ _ x' (proj2_sig x) E))
  | (Err e, x') => λ E, (Err e, exist _ x' (create_state device _ _ x' (proj2_sig x) E))
  end.

Lemma available_keeps ns : keeps (available ns).
Proof.
  intros x Hx. unfold get_available_devices, st_try, st_bind, on_net, lift_st.
  destruct (List_HSMPools x.2) as [[pools|e] w']; [|done]. by case_bool_decide.
Qed.

(** [agent_manager] on the states that keep the invariant. *)
Definition restricted_manager : AgentManagerInterface GoodState :=
  mkAgentManager _ (λ device x, restricted_result device x _ eq_refl)
    (λ ns, restrict (available ns) (available_keeps ns)).

(** What [r], an answer of the manager, looks like on the good states. *)
Definition agrees (r : result (Client State) * State) (r' : result (Client GoodState) * GoodState) : Prop :=
  proj1_sig r'.2 = r.2 ∧
  match r.1, r'.1 with
  | Ok c, Ok c' => ∃ K, c' = restrict_client c K
  | Err e, Err e' => e = e'
  | _, _ => False
  end.

Lemma restricted_agrees device x r E : agrees r (restricted_result device x r E).
Proof. destruct r as [[c|e] x']; split; try done. by eexists. Qed.

Lemma restricted_state device x r E : proj1_sig (restricted_result device x r E).2 = r.2.
Proof. apply restricted_agrees. Qed.

Lemma restricted_Ok device x r E c' :
  (restricted_result device x r E).1 = Ok c' → ∃ c K, r.1 = Ok c ∧ c' = restrict_client c K.
Proof.
  destruct (restricted_agrees device x r E) as [_ Ha]. intros E'. rewrite E' in Ha.
  destruct r.1 as [c|e]; [|done]. destruct Ha as [K ->]. by exists c, K.
Qed.

Context (clock : ST W Time) (Hclock : preserves unchanged clock).
Lemma manager_laws :
  AgentLaws restricted_manager (restrict (on_net clock) (keeps_net clock)).
Proof.
  split.
  - intros device x s p. cbn [restricted_manager CreateGRPCClient sec_at md_at good_view].
    rewrite restricted_state. destruct (create_good device (proj1_sig x) (proj2_sig x)) as (_ & Hu & _). apply Hu.
  - intros device x c' E. apply restricted_Ok in E as (c & K & E & ->).
    destruct (create_good device (proj1_sig x) (proj2_sig x)) as (_ & _ & Hc).
    destruct (Hc c E) as (ep & <- & client & Hg & ->). by apply wrapper_laws.
  - intros ns x. cbn [restricted_manager GetAvailableDevices]. intros s p.
    cbn [sec_at md_at good_view restrict snd proj1_sig].
    unfold get_available_devices, st_try, st_bind, on_net, lift_st.
    pose proof (to_wire _ List_HSMPools_unchanged (proj1_sig x).2) as Hu.
    destruct (List_HSMPools (proj1_sig x).2) as [[pools|e] w']; [case_bool_decide|]; apply Hu.
  - intros x. apply net_unchanged, to_wire, Hclock.
Qed.
End PoolLaws.

(** ** Names *)
Definition name_char (c : ascii) : bool := is_lower c || is_digit c || bool_decide (c = "-"%char).

Lemma name_rune_char c : name_char (name_rune c) = true.
Proof. destruct c as [[] [] [] [] [] [] [] []]; vm_compute; reflexivity. Qed.

Lemma map_runes_forallb P f other skip s :
  (∀ c, P (f c) = true) → P other = true → str_forallb P (map_runes f other skip s) = true.
Proof.
  intros Hf Ho. revert skip. induction s as [|c s IH]; intros [|skip]; simpl; try done.
  case_match; simpl; [rewrite Hf|rewrite Ho]; apply IH.
Qed.

Lemma trim_right1_spec x s :
  (∃ r, s = trim_right1 x s +:+ r) ∧ ∀ s', trim_right1 x s ≠ s' +:+ String x "".
Proof.
  induction s as [|c s [[r Hr] IH]]; simpl.
  { split; [by exists ""|]. by intros [|]. }
  destruct (trim_right1 x s) as [|d t] eqn:E.
  - case_bool_decide as Hc; [subst c; split; [by exists (String x s)|by intros [|]]|].
    split; [by exists s|]. intros [|? [|]]; simpl; intros [=]; congruence.
  - split; [exists r; simpl; by rewrite Hr|]. intros [|e s']; simpl; [done|]. intros [= -> Ht]. by apply (IH s').
Qed.

Lemma trim_left1_spec x s : ∃ r, s = r +:+ trim_left1 x s.
Proof.
  induction s as [|c s [r Hr]]; simpl; [by exists ""|].
  case_bool_decide; [|by exists ""]. exists (String c r). change (String c s = String c (r +:+ trim_left1 x s)). by f_equal.
Qed.

Lemma trim_left1_last x y s : (∀ s', s ≠ s' +:+ String y "") → ∀ s', trim_left1 x s ≠ s' +:+ String y "".
Proof.
  intros Hs s' E. destruct (trim_left1_spec x s) as [r Hr]. apply (Hs (r +:+ s')).
  by rewrite str_app_assoc, <-E.
Qed.

Lemma sanitize_chars serial : str_forallb name_char (sanitizeNameSegment serial) = true.
Proof.
  unfold sanitizeNameSegment. set (m := map_runes name_rune "-" 0 serial).
  assert (str_forallb name_char m = true) as Hm by (apply map_runes_forallb; [apply name_rune_char|done]).
  destruct (proj1 (trim_right1_spec "-" m)) as [r Hr]. rewrite Hr, str_forallb_app in Hm.
  apply andb_prop in Hm as [Hm _]. destruct (trim_left1_spec "-" (trim_right1 "-" m)) as [l Hl].
  rewrite Hl, str_forallb_app in Hm. by apply andb_prop in Hm as [_ Hm].
Qed.

Lemma sanitize_last serial s : sanitizeNameSegment serial ≠ s +:+ "-".
Proof. apply trim_left1_last. apply trim_right1_spec. Qed.

Lemma str_take_app n s : ∃ r, s = str_take n s +:+ r.
Proof.
  revert s. induction n as [|n IH]; intros s; simpl; [destruct s; by eexists|].
  destruct s as [|c s]; [by exists ""|]. destruct (IH s) as [r Hr]. exists r. change (String c s = String c (str_take n s +:+ r)). by f_equal.
Qed.

Lemma str_take_length n s : (String.length (str_take n s) ≤ n)%nat.
Proof. revert s. induction n as [|n IH]; intros [|c s]; simpl; [lia..|]. specialize (IH s). lia. Qed.

Lemma str_last_app a b s x : b ≠ "" → a +:+ b = s +:+ String x "" → ∃ s', b = s' +:+ String x "".
Proof.
  intros Hb E. destruct (str_snoc_cases b) as [->|(b' & c & ->)]; [done|].
  rewrite <-str_app_assoc in E. apply str_snoc_inj in E as [_ ->]. by exists b'.
Qed.

(** The name of an agent is a valid resource name: at most 63 bytes, lower-case
    letters, digits and dashes only, and no dash at the end; a device without a
    usable serial number gets none. *)
Theorem AgentInstanceName_valid (deviceName serial : string) :
  str_forallb name_char deviceName = true →
  match AgentInstanceName deviceName serial with
  | Some name =>
      str_len name ≤ 63 ∧ str_forallb name_char name = true ∧ (∀ s, name ≠ s +:+ "-")
  | None => sanitizeNameSegment serial = ""
  end.
Proof.
  intros Hd. unfold AgentInstanceName. case_bool_decide as Hs; [done|].
  set (name := AgentNamePrefix +:+ "-" +:+ deviceName +:+ "-" +:+ sanitizeNameSegment serial).
  assert (str_forallb name_char name = true) as Hc.
  { unfold name. rewrite !str_forallb_app, Hd, sanitize_chars. done. }
  destruct (maxAgentNameLength <? str_len name) eqn:El.
  - destruct (trim_right1_spec "-" (str_take (Z.to_nat maxAgentNameLength) name)) as [[r Hr] Hl].
    destruct (str_take_app (Z.to_nat maxAgentNameLength) name) as [r2 Hr2].
    pose proof (str_take_length (Z.to_nat maxAgentNameLength) name) as Hlen.
    split_and!; [|rewrite Hr2, Hr, !str_forallb_app in Hc; by repeat apply andb_prop in Hc as [Hc _]|done].
    rewrite Hr, str_length_app in Hlen. unfold str_len, maxAgentNameLength in *. lia.
  - apply Z.ltb_ge in El. split_and!; [exact El|done|]. intros s E. unfold name in E.
    rewrite <-!str_app_assoc in E. apply str_last_app in E as [s' E]; [|done]. by apply sanitize_last in E.
Qed.

Example AgentInstanceName_valid_witness :
  AgentInstanceName "pico" "DENK 01_" = Some "hsm-agent-pico-denk-01" ∧ str_len "hsm-agent-pico-denk-01" ≤ 63.
Proof.
  assert (AgentInstanceName "pico" "DENK 01_" = Some "hsm-agent-pico-denk-01") as E by (vm_compute; reflexivity).
  split; [exact E|]. pose proof (AgentInstanceName_valid "pico" "DENK 01_" eq_refl) as Hv.
  rewrite E in Hv. exact (proj1 Hv).
Defined.

(** Behind a long device name the serial number is cut off: two devices share one
    agent. *)
Lemma AgentInstanceName_collision :
  let long := "production-datacenter-frankfurt-hsm-cluster-primary-devices" in
  AgentInstanceName long "A1" = AgentInstanceName long "B2".
Proof. vm_compute. reflexivity. Qed.

(** ** The contract of the mirror manager and the REST API *)

(** C5. The manager keeps the contract its clients are verified against: on the
    states that keep the pool's invariant (the empty pool does) it satisfies
    [AgentLaws], that is, every client it hands out, through the pool, the gRPC
    connection and the validating server, is a client of the device asked for; and
    restricting the manager to these states changes neither what it does nor what
    it answers. *)
Theorem agent_manager_implements {W TLS} (v : StoreView W) (o : MapOrder) (time_Now : ST W Z) (clock : ST W Time)
    (dial : option TLS → string → ST W (result (Conn W * (Request → ST W (result Response)))))
    (serial_at : string → string) (D : DialLaws time_Now dial serial_at)
    (List_Pods : option string → gmap string string → ST W (result (list Pod)))
    (List_HSMPools : ST W (result (list HSMPool))) (C : ClusterLaws serial_at List_Pods List_HSMPools) :
  preserves unchanged clock →
  let am := restricted_manager time_Now dial serial_at List_Pods List_HSMPools in
  pool_ok serial_at (NewConnectionPool (W := W) (TLS := TLS)) ∧
  AgentLaws am (restrict serial_at (on_net clock) (keeps_net serial_at clock)) ∧
  ∀ device x, agrees serial_at (create_grpc_client time_Now dial List_Pods device (proj1_sig x))
                (CreateGRPCClient am device x).
Proof.
  intros Hclock am. split; [apply map_Forall_empty|]. split; [by apply manager_laws|].
  intros device x. subst am. unfold restricted_manager. cbn [CreateGRPCClient].
  exact (restricted_agrees time_Now dial serial_at List_Pods List_HSMPools device x _ eq_refl).
Qed.

(** ** Witness: two agents in front of mock devices *)
Module AgentsWitness.
#[local] Existing Instance listed_order.
Definition ip_A : string := "10.0.0.1".
Definition ip_B : string := "10.0.0.2".
Definition serial_at (ep : string) : string := if bool_decide (ep = endpoint_of ip_A) then "A" else "B".

Definition server_of (s : string) : Request → ST Fleet (result Response) :=
  serve GrpcClientWitness.no_log (NewGRPCServer (Some (mock_of s)) 9090 8093 (mkTime 0 0)).
Definition dial (tls : option unit) (ep : string) : ST Fleet (result (Conn Fleet * (Request → ST Fleet (result Response)))) :=
  st_ret (Ok (GrpcClientWitness.loopback, server_of (serial_at ep))).
Definition clock : ST Fleet Z := st_ret 7.

Definition agent_pod (ip serial : string) : Pod :=
  mkPod (mkObjectMeta "agent" "hsm" "" 1 (agent_labels serial) ∅ [] None [] (mkTime 0 0) 1) "node" PodRunning "" ip [ip] [(PodReady, ConditionTrue)].
(** A label selector finds the pods that carry its labels. *)
Definition pods : list Pod := [agent_pod ip_A "A"; agent_pod ip_B "B"].
Definition List_Pods (ns : option string) (labels : gmap string string) : ST Fleet (result (list Pod)) :=
  st_ret (Ok (filter (λ pod, om_Labels (pod_meta pod) !! "hsm.j5t.io/serial-number" = labels !! "hsm.j5t.io/serial-number") pods)).
Definition List_HSMPools : ST Fleet (result (list HSMPool)) := st_ret (Ok []).

#[global] Instance dial_laws : DialLaws clock dial serial_at.
Proof.
  split; try (intros; apply preserves_ret, _). intros tls ep w conn server [= <- <-]. split; [apply _|].
  exists GrpcClientWitness.no_log, (mock_of (serial_at ep)), 9090, 8093, (mkTime 0 0).
  split_and!; [done|apply _|done].
Qed.

Lemma agent_labels_serial s : agent_labels s !! "hsm.j5t.io/serial-number" = Some s.
Proof. unfold agent_labels. by rewrite !lookup_insert_ne, lookup_singleton_eq by done. Qed.

#[global] Instance cluster_laws : ClusterLaws serial_at List_Pods List_HSMPools.
Proof.
  split; try (intros; apply preserves_ret, _).
  intros serial w l pod ip ips [= <-] [Hl Hin]%list_elem_of_filter Hip. rewrite agent_labels_serial in Hl.
  unfold pods in Hin. rewrite !elem_of_cons, elem_of_nil in Hin. destruct Hin as [->|[->|[]]]; cbn [agent_pod pod_meta om_Labels pod_PodIPs] in *;
    rewrite agent_labels_serial in Hl; injection Hl as <-; injection Hip as <- _; vm_compute; done.
Qed.

Definition device (s : string) : DiscoveredDevice :=
  mkDiscoveredDevice "" s "node" (mkTime 0 0) ∅ true "" "" "" None "".
Definition am := restricted_manager clock dial serial_at List_Pods List_HSMPools.

Example agent_manager_implements_witness :
  AgentLaws am (restrict serial_at (on_net (st_ret (mkTime 0 0))) (keeps_net serial_at (st_ret (mkTime 0 0)))).
Proof.
  refine (proj1 (proj2 (agent_manager_implements fleet_view listed_order clock (st_ret (mkTime 0 0)) dial serial_at _
    List_Pods List_HSMPools _ _))).
  apply preserves_ret, _.
Defined.

(** The client of "B" is found by its label and reads B's secrets. *)
Definition w0 : Fleet :=
  {["A" := mkMock true false {["app" := {["k" := "a"]}]} ∅ (mkConfig "" 0 false "" 0 0 0 None);
    "B" := mkMock true false {["app" := {["k" := "b"]}]} ∅ (mkConfig "" 0 false "" 0 0 0 None)]}.
Example finds_B :
  let (r, x) := create_grpc_client clock dial List_Pods (device "B") (NewConnectionPool, w0) in
  match r with Ok c => Some ((c_ReadSecret c "app" x).1, (map_to_list (cp_clients x.1)).*1) | Err _ => None end =
  Some (Ok {["k" := "b"]}, ["10.0.0.2:9090"]).
Proof. vm_compute. reflexivity. Qed.
End AgentsWitness.
