(* ===== verification/Pkcs11Laws.v ===== *)
(** * The PKCS#11 client keeps the contract of the client interface

    [Pkcs11] shows what single methods of the client do to the objects of a token.
    Here they are put together: an agent with a PKCS#11 client is a device in the sense
    of [Hsm.ClientLaws], and a set of such agents, one per serial number, is what the
    mirror, the REST API and the controllers are verified against.

    What the agent's device holds at a path is read off the objects of its token, the
    way [ReadSecret] and [ReadMetadata] do.  An operation overlaps the paths that extend
    its own or that it extends, as the client finds and deletes objects by a prefix of
    their labels; data is storable if its path is not empty and none of its labels looks
    like one of metadata, and metadata keepable if its JSON decodes to it again. *)

From S2P Require Import Prelude GoStd Sha256 Hsm MockClient Proto Validation Grpc GrpcClient Api Pool Mirror Kube Agents AgentsSpec Pkcs11.

(** ** Lemmas: prefixes of one string *)
Lemma has_prefix_refl a : has_prefix a a = true.
Proof. rewrite <-(str_app_nil_r a) at 1. apply has_prefix_app. Qed.

Lemma has_prefix_trans a b c : has_prefix a b = true → has_prefix b c = true → has_prefix a c = true.
Proof.
  intros [r1 ->]%has_prefix_spec [r2 ->]%has_prefix_spec. rewrite str_app_assoc. apply has_prefix_app.
Qed.

Lemma has_prefix_empty s : has_prefix s "" = true.
Proof. by destruct s. Qed.

(** Two prefixes of one string: one of them is a prefix of the other. *)
Lemma prefixes_comparable l a b :
  has_prefix l a = true → has_prefix l b = true → has_prefix a b = true ∨ has_prefix b a = true.
Proof.
  intros [r1 ->]%has_prefix_spec [r2 E]%has_prefix_spec. revert b E.
  induction a as [|c a IH]; intros b E; [right; apply has_prefix_empty|].
  destruct b as [|c' b]; [left; apply has_prefix_empty|]. simpl in E. injection E as <- E.
  destruct (IH b E) as [[r ->]%has_prefix_spec|[r ->]%has_prefix_spec]; [left|right];
    apply has_prefix_spec; by exists r.
Qed.

Lemma join_prefix sep l1 l2 : has_prefix (str_join sep (l1 ++ l2)) (str_join sep l1) = true.
Proof.
  induction l1 as [|w l1 IH]; [apply has_prefix_empty|].
  apply has_prefix_spec in IH as [r Hr]. destruct l1 as [|w' l1].
  - cbn [app str_join]. destruct l2; [apply has_prefix_refl|apply has_prefix_app].
  - cbn [app str_join] in *. rewrite Hr. apply has_prefix_spec. exists r. by rewrite !str_app_assoc.
Qed.

Lemma join_split sep s : str_join (String sep "") (str_split sep s) = s.
Proof.
  induction s as [|c s IH]; [done|]. cbn [str_split].
  case_bool_decide as Hc; [|].
  - subst c. destruct (str_split sep s) as [|w ws] eqn:E; [destruct s; cbn in E; repeat case_match; done|].
    cbn [str_join] in *. by rewrite IH.
  - destruct (str_split sep s) as [|w [|w' ws]] eqn:E; cbn [str_join] in *; [by rewrite <-IH|by rewrite <-IH|].
    rewrite <-IH. done.
Qed.

(** A label is listed under a prefix of it. *)
Lemma label_path_prefix label : has_prefix label (label_path label) = true.
Proof.
  unfold label_path. destruct (str_contains label "/"); [|apply has_prefix_refl].
  case_match; [|apply has_prefix_refl]. set (parts := str_split (byte_of 47) label).
  rewrite <-(join_split (byte_of 47) label) at 1. fold parts.
  rewrite <-(firstn_skipn (length parts - 1) parts) at 1. apply join_prefix.
Qed.

Lemma StronglySorted_sublist {A} (R : relation A) l1 l2 :
  l1 `sublist_of` l2 → StronglySorted R l2 → StronglySorted R l1.
Proof.
  induction 1 as [|x l1 l2 Hsub IH|x l1 l2 _ IH]; intros Hs; [constructor| |];
    apply StronglySorted_inv in Hs as [Hs Hx]; [|by apply IH].
  constructor; [by apply IH|]. rewrite !Forall_forall in *. intros y Hy. apply Hx. by eapply elem_of_sublist.
Qed.

Section Held.
Context {W : Type} `{!TokenView W} (json_Marshal : SecretMetadata → result string).
Context (json_Unmarshal : string → result SecretMetadata).
(** The order in which a token enumerates the handles of its objects. *)
Context (order : relation Z) `{!TotalOrder order, order_dec : !∀ x y, Decision (order x y)}.

(** ** What a token holds at a path *)
Abbreviation Table := (gmap Z (string * string)).

#[local] Instance under_dec path lv : Decision (under path lv).
Proof. unfold under. apply _. Defined.

Definition object_at (m : Table) (h : Z) : pkcs11Object :=
  let lv := default ("", "") (m !! h) in mkObject lv.1 lv.2 h.

(** The objects in the order of their handles. *)
Definition objects_in (m : Table) : list pkcs11Object := object_at m <$> merge_sort order (map_to_list m).*1.

(** The objects whose label starts with [path]. *)
Definition found (m : Table) (path : string) : list pkcs11Object :=
  objects_in (filter (λ hlv, under path hlv.2) m).

Definition metadata_object (m : Table) (path : string) : option pkcs11Object :=
  List.find (λ o, bool_decide (obj_Label o = path +:+ metadataKeySuffix)) (found m (path +:+ metadataKeySuffix)).

(** The data of a path: what its objects are read as; a path with a metadata object
    alone holds no key. *)
Definition held (m : Table) (path : string) : option SecretData :=
  let d := collect_data path (found m path) in
  if d.2 =? 0 then match metadata_object m path with Some _ => Some ∅ | None => None end else Some d.1.

Definition held_metadata (m : Table) (path : string) : option SecretMetadata :=
  match metadata_object m path with
  | Some o => match json_Unmarshal (obj_Value o) with Ok md => Some md | Err _ => None end
  | None => None
  end.

(** What survives being stored, and which paths share objects. *)
Definition survives (md : SecretMetadata) : Prop := ∀ j, json_Marshal md = Ok j → json_Unmarshal j = Ok md.
Definition distinguishable (path : string) (data : SecretData) : Prop := path ≠ "" ∧ keys_ok path data.
Definition comparable (p q : string) : Prop := has_prefix p q = true ∨ has_prefix q p = true.

(** ** Lemmas: enumerating *)
Lemma elem_of_objects_in m o : o ∈ objects_in m ↔ m !! obj_Handle o = Some (obj_Label o, obj_Value o).
Proof.
  unfold objects_in. rewrite list_elem_of_fmap. setoid_rewrite (merge_sort_Permutation order).
  setoid_rewrite list_elem_of_fmap. split.
  - intros (h & -> & [h' [l v]] & -> & Hin%elem_of_map_to_list). unfold object_at. simpl. by rewrite Hin.
  - intros Hm. exists (obj_Handle o). split; [unfold object_at; rewrite Hm; by destruct o|].
    eexists (_, _). by rewrite elem_of_map_to_list.
Qed.

(** The objects of a table in the order of the token are determined by the table. *)
Lemma objects_in_unique m os :
  StronglySorted order (obj_Handle <$> os) → NoDup (obj_Handle <$> os) →
  (∀ o, o ∈ os ↔ m !! obj_Handle o = Some (obj_Label o, obj_Value o)) → os = objects_in m.
Proof.
  intros Hs Hnd Hin.
  assert (obj_Handle <$> os = merge_sort order (map_to_list m).*1) as Hh.
  { apply (StronglySorted_unique order); [done|apply Sorted_StronglySorted; [apply _|apply Sorted_merge_sort, _]|].
    rewrite merge_sort_Permutation. apply NoDup_Permutation; [done|apply NoDup_fst_map_to_list|].
    intros h. rewrite !list_elem_of_fmap. split.
    - intros (o & -> & Ho%Hin). eexists (_, _). by rewrite elem_of_map_to_list.
    - intros ([h' [l v]] & -> & Hm%elem_of_map_to_list). exists (mkObject l v h'). split; [done|]. by apply Hin. }
  unfold objects_in. rewrite <-Hh, <-list_fmap_compose. rewrite <-(list_fmap_id os) at 1.
  apply list_fmap_ext. intros i o Hi. apply list_elem_of_lookup_2, Hin in Hi.
  unfold object_at. simpl. rewrite Hi. by destruct o.
Qed.

Lemma elem_of_found m path o :
  o ∈ found m path ↔ m !! obj_Handle o = Some (obj_Label o, obj_Value o) ∧ under path (obj_Label o, obj_Value o).
Proof. unfold found. by rewrite elem_of_objects_in, map_lookup_filter_Some. Qed.

Lemma wanted_iff path w o :
  wanted path w o ↔ token_objs w !! obj_Handle o = Some (obj_Label o, obj_Value o) ∧ under path (obj_Label o, obj_Value o).
Proof.
  unfold wanted, under. simpl. split.
  - intros (H1 & H2 & [->|H3]); split_and!; try done. apply has_prefix_empty.
  - intros (H1 & H2 & H3). split_and!; [done|done|by right].
Qed.

(** ** Lemmas: operations elsewhere *)

(** Two tables that agree on all objects but those under [p]. *)
Definition agree_off (p : string) (m m' : Table) : Prop :=
  ∀ h lv, ¬ under p lv → m' !! h = Some lv ↔ m !! h = Some lv.

Lemma under_comparable p q l v : under p (l, v) → under q (l, v) → comparable p q.
Proof. intros [_ Hp] [_ Hq]. by eapply prefixes_comparable. Qed.

Lemma found_off p q m m' : agree_off p m m' → ¬ comparable p q → found m' q = found m q.
Proof.
  intros Ha Hn. unfold found. f_equal. apply map_eq. intros h. apply option_eq. intros [l v].
  rewrite !map_lookup_filter_Some. split; intros [Hh Hu]; (split; [|done]); apply (Ha h (l, v)); try done;
    intros Hp; by eapply Hn, under_comparable.
Qed.

Lemma metadata_off p q m m' : agree_off p m m' → ¬ comparable p q → metadata_object m' q = metadata_object m q.
Proof.
  intros Ha Hn. unfold metadata_object. rewrite (found_off p _ m m'); [done|done|].
  intros [Hc|Hc]; apply Hn.
  - left. eapply has_prefix_trans; [exact Hc|apply has_prefix_app].
  - eapply (prefixes_comparable (q +:+ metadataKeySuffix)); [exact Hc|apply has_prefix_app].
Qed.

Lemma held_off p q m m' :
  agree_off p m m' → ¬ comparable p q → held m' q = held m q ∧ held_metadata m' q = held_metadata m q.
Proof.
  intros Ha Hn. unfold held, held_metadata. by rewrite (found_off p q m m'), (metadata_off p q m m').
Qed.

(** ** Lemmas: what is left after a deletion, and after a write *)
Lemma metadata_object_Some m path o :
  metadata_object m path = Some o →
  m !! obj_Handle o = Some (obj_Label o, obj_Value o) ∧ obj_Label o = path +:+ metadataKeySuffix.
Proof.
  unfold metadata_object. intros [Hin Hl]%List.find_some. apply list_elem_of_In, elem_of_found in Hin as [Hm _].
  by apply bool_decide_eq_true in Hl.
Qed.

Lemma metadata_object_has m path h v :
  m !! h = Some (path +:+ metadataKeySuffix, v) → is_Some (metadata_object m path).
Proof.
  intros Hm. unfold metadata_object. destruct (List.find _ _) as [o|] eqn:E; [by eexists|].
  assert (mkObject (path +:+ metadataKeySuffix) v h ∈ found m (path +:+ metadataKeySuffix)) as Hin.
  { apply elem_of_found. simpl. split; [done|]. split; [by destruct path|apply has_prefix_refl]. }
  apply list_elem_of_In in Hin. pose proof (List.find_none _ _ E _ Hin) as Hn. simpl in Hn.
  by rewrite bool_decide_true in Hn.
Qed.

Lemma held_nothing m path : (∀ h lv, m !! h = Some lv → ¬ under path lv) → held m path = None.
Proof.
  intros Hno. unfold held. destruct (collect_data_spec path (found m path)) as (_ & _ & _ & Hn).
  rewrite (proj2 (Z.eqb_eq _ _)).
  - destruct (metadata_object m path) as [o|] eqn:E; [|done].
    apply metadata_object_Some in E as [Hm Hl]. destruct (Hno _ _ Hm). rewrite Hl.
    split; [by destruct path|apply has_prefix_app].
  - apply Hn. intros (o & [Hm Hu]%elem_of_found & _). by apply (Hno _ _ Hm).
Qed.

(** What is counted is held. *)
Lemma held_counted m path o : o ∈ found m path → counts path o → is_Some (held m path).
Proof.
  intros Ho Hc. unfold held. destruct (collect_data_spec path (found m path)) as (_ & _ & _ & Hn).
  destruct (Z.eqb_spec (collect_data path (found m path)).2 0) as [E|E]; [|by eexists].
  apply Hn in E. destruct E. by exists o.
Qed.

(** The table after a write of [data] and, maybe, metadata encoded as [j] at [path]. *)
Definition written (m : Table) (path : string) (data : SecretData) (j : option string) : Prop :=
  (∀ k v, data !! k = Some v → ∃ h, m !! h = Some (key_label path k, v)) ∧
  (∀ x, j = Some x → ∃ h, m !! h = Some (path +:+ metadataKeySuffix, x)) ∧
  (∀ h lv, m !! h = Some lv → under path lv →
     (∃ x, j = Some x ∧ lv = (path +:+ metadataKeySuffix, x)) ∨ ∃ k v, data !! k = Some v ∧ lv = (key_label path k, v)).

Lemma metadata_written w path data j x o :
  written (token_objs w) path data j → keys_ok path data → j = Some x →
  metadata_object (token_objs w) path = Some o → obj_Value o = x.
Proof.
  intros (_ & _ & Hin) Hk -> [Hm Hl]%metadata_object_Some.
  destruct (Hin _ _ Hm) as [(y & [= <-] & [= _ ?])|(k & v & Hkv & [= He _])]; [|done|].
  - rewrite Hl. split; [by destruct path|apply has_prefix_app].
  - destruct (Hk k v Hkv) as [_ Hsuf]. by rewrite <-He, Hl, has_suffix_app in Hsuf.
Qed.

Lemma held_written w path data j :
  written (token_objs w) path data j → distinguishable path data → data ≠ ∅ ∨ is_Some j →
  held (token_objs w) path = Some data.
Proof.
  intros Hw [Hp Hk] Hne. pose proof Hw as (Hall & Hj & Hin). unfold held.
  assert (∀ o, o ∈ found (token_objs w) path ↔ wanted path w o) as Hos by (intros o; by rewrite elem_of_found, wanted_iff).
  assert (∀ h lv, token_objs w !! h = Some lv → under path lv → has_suffix lv.1 metadataKeySuffix = true ∨
     ∃ k v, data !! k = Some v ∧ lv = (key_label path k, v)) as Hsuf.
  { intros h lv Hh Hu. destruct (Hin h lv Hh Hu) as [(x & _ & ->)|?]; [left; apply has_suffix_app|by right]. }
  destruct (decide (data = ∅)) as [->|Hd].
  - destruct Hne as [|[x Hx]]; [done|]. destruct (collect_data_spec path (found (token_objs w) path)) as (_ & _ & _ & Hn).
    rewrite (proj2 (Z.eqb_eq _ _)).
    + destruct (Hj x Hx) as [h Hh]. by destruct (metadata_object_has _ _ _ _ Hh) as [o ->].
    + apply Hn. intros (o & [Hm Hu]%elem_of_found & _ & Hs). destruct (Hsuf _ _ Hm Hu) as [?|(k & v & Hkv & _)];
        [simpl in *; congruence|]. unfold SecretData in *. by rewrite lookup_empty in Hkv.
  - destruct (collect_exact w path (found (token_objs w) path) data Hos Hp Hd Hk Hsuf Hall) as [-> Hn].
    by rewrite (proj2 (Z.eqb_neq _ _)).
Qed.
End Held.

Section Laws.
Context {W : Type} `{!TokenView W} `{MapOrder}.
Context (New : string → ST W (option (Ctx W))) (provider : option (PINProvider W)).
Context (json_Marshal : SecretMetadata → result string) (json_Unmarshal : string → result SecretMetadata).
Context (ctx : Ctx W) (s : Z) `{!TokenLaws ctx s, !Responsive ctx s}.
Context (order : relation Z) `{!TotalOrder order, order_dec : !∀ x y, Decision (order x y)}.

(** ** What an agent relies on beyond the laws of single searches

    The client reads at most 100 objects in one search. *)
Definition roomy (w : W) : Prop := (size (token_objs w) ≤ 100)%nat.

(** The token is the agent's own: the library always opens the same session on it, it
    enumerates its objects in a fixed order of their handles, it has no room for more
    than 100 data objects, and nothing but creating and destroying objects changes
    them. *)
Class OwnToken : Prop := {
  New_ctx path w c w' : New path w = (Some c, w') → c = ctx;
  New_objs path : preserves same_objs (New path);
  Initialize_objs : preserves same_objs (ctx_Initialize ctx);
  Finalize_objs : preserves same_objs (ctx_Finalize ctx);
  DestroyCtx_objs : preserves same_objs (ctx_Destroy ctx);
  SlotList_objs : preserves same_objs (ctx_GetSlotList ctx);
  TokenInfo_objs slot : preserves same_objs (ctx_GetTokenInfo ctx slot);
  SlotInfo_objs slot : preserves same_objs (ctx_GetSlotInfo ctx slot);
  Open_session slot w h w' : ctx_OpenSession ctx slot w = (Ok h, w') → h = s;
  Open_objs slot : preserves same_objs (ctx_OpenSession ctx slot);
  CloseSession_objs h : preserves same_objs (ctx_CloseSession ctx h);
  Login_objs h pin : preserves same_objs (ctx_Login ctx h pin);
  Logout_objs h : preserves same_objs (ctx_Logout ctx h);
  SetPIN_objs h old new : preserves same_objs (ctx_SetPIN ctx h old new);
  GetPIN_objs p : provider = Some p → preserves same_objs (GetPIN p);
  Invalidate_objs p i : provider = Some p → InvalidateCacheAfterPINChange p = Some i → preserves same_objs i;
  Search_order w w' l : ctx_FindObjectsInit ctx s [CKA_CLASS_DATA] w = (Ok (), w') →
    token_search w' = Some l → StronglySorted order l;
  Create_room t w : roomy w → roomy (ctx_CreateObject ctx s t w).2;
}.
Context `{Own : !OwnToken}.

(** A client that is connected, if at all, through the agent's session. *)
Definition fit (c : PKCS11Client W) : Prop :=
  (p_connected c = true → ∃ slot, p_session c = Some (mkSession ctx s slot)) ∧
  (cfg_PINProvider (p_config c) = None ∨ cfg_PINProvider (p_config c) = provider).

Lemma fit_attached c : fit c → p_connected c = true → ∃ slot, attached ctx s slot c.
Proof. intros [Hs _] Hc. destruct (Hs Hc) as [slot Hse]. by exists slot. Qed.

Lemma if_connected_eq {A} (k : PKCS11Client W → ST (PState W) (result A)) c w :
  if_connected k (c, w) = if p_connected c then k c (c, w) else (Err (errorf "HSM not connected"), (c, w)).
Proof. unfold if_connected, get_client, st_bind, st_ret. cbn [fst]. by destruct (p_connected c). Qed.

(** ** Lemmas: searches *)
Abbreviation found_in w path := (found order (token_objs w) path).

Lemma search_found slot path w r w' :
  findObjectsPKCS11 (Some (mkSession ctx s slot)) path w = (r, w') →
  same_objs w w' ∧ (roomy w → ∀ os, r = Ok os → os = found_in w path).
Proof.
  intros E. destruct (findObjects_spec ctx s slot path w r w' E) as [Ho Hf]. split; [done|].
  intros Hroom os ->. destruct (Hf os eq_refl) as (_ & Hnd & Hin & Hall).
  apply (objects_in_unique order).
  - revert E. unfold findObjectsPKCS11, with_session, st_try. cbn [se_ctx se_session]. unfold st_bind at 1.
    destruct (ctx_FindObjectsInit ctx s [CKA_CLASS_DATA] w) as [[[]|e] w1] eqn:Hi; [|done].
    destruct (Init_class _ _ Hi) as (l & Hl & Hm). pose proof (Search_order _ _ _ Hi Hl) as Hsort.
    unfold st_bind at 1. destruct (ctx_FindObjects ctx s 100 w1) as [[hs|e] w2] eqn:Hfi.
    2:{ unfold st_bind. by destruct (ctx_FindObjectsFinal ctx s w2). }
    destruct (Find_Ok _ _ _ _ _ Hl Hfi) as [-> _].
    unfold st_bind at 1. destruct (ctx_FindObjectsFinal ctx s w2) as [[[]|e] w3]; [|done].
    unfold st_bind. destruct (read_objects ctx (mkSession ctx s slot) path (take 100 l) [] w3) as [os' w4] eqn:Hr.
    eapply (read_objects_spec ctx s path slot) in Hr as (_ & _ & fd & -> & Hsub & _); [|reflexivity].
    intros [= <- _]. simpl. rewrite take_ge in Hsub by (rewrite (matching_length _ _ Hm); exact Hroom).
    by eapply StronglySorted_sublist.
  - exact Hnd.
  - intros o. rewrite map_lookup_filter_Some. cbn [snd]. rewrite <-wanted_iff. split; [apply Hin|]. by apply Hall.
Qed.

(** ** Lemmas: reading *)

(** [m] keeps the objects of the token and the fitness of the client. *)
Definition quiet_op {A} (m : ST (PState W) A) : Prop :=
  ∀ c w r c' w', fit c → m (c, w) = (r, (c', w')) → fit c' ∧ same_objs w w'.

Lemma quiet_connected {A} (k : PKCS11Client W → ST (PState W) (result A)) :
  (∀ c w r c' w' slot, fit c → attached ctx s slot c → k c (c, w) = (r, (c', w')) → fit c' ∧ same_objs w w') →
  quiet_op (if_connected k).
Proof.
  intros Hk c w r c' w' Hf. rewrite if_connected_eq. destruct (p_connected c) eqn:E; [|by intros [= <- <- <-]].
  destruct (fit_attached c Hf E) as [slot Ha]. by apply (Hk _ _ _ _ _ slot).
Qed.

(** A method that searches the objects under a path and answers from them. *)
Lemma searching_op {A} path onerr (f : list pkcs11Object → result A) c w r v' :
  fit c →
  if_connected (λ c, st_try (on_world (findObjectsPKCS11 (p_session c) path)) onerr (λ os, st_ret (f os))) (c, w) = (r, v') →
  v'.1 = c ∧ same_objs w v'.2 ∧ (roomy w → ∀ a, r = Ok a → f (found_in w path) = Ok a).
Proof.
  intros Hf. rewrite if_connected_eq. destruct (p_connected c) eqn:E; [|by intros [= <- <-]].
  destruct (fit_attached c Hf E) as [slot [_ Hse]]. unfold st_try, st_bind, on_world. cbn [fst snd]. rewrite Hse.
  destruct (findObjectsPKCS11 _ path w) as [[os|e] w1] eqn:Es; apply search_found in Es as [Ho Hos];
    unfold st_ret; intros [= <- <-]; [|done]. split_and!; [done|done|]. intros Hroom a Ha.
  by rewrite <-(Hos Hroom os eq_refl).
Qed.

Definition read_of (path : string) (objects : list pkcs11Object) : result SecretData :=
  let '(data, matchingObjects) := collect_data path objects in
  if matchingObjects =? 0 then Err (errorf ("secret not found at path: " +:+ path))
  else if bool_decide (data = ∅)
  then Err (errorf ("no valid secret data found at path: " +:+ path +:+ " (found " +:+
         go_itoa matchingObjects +:+ " objects but no data)"))
  else Ok data.

Lemma read_of_held path w d : read_of path (found_in w path) = Ok d → held order (token_objs w) path = Some d.
Proof.
  unfold read_of, held. destruct (collect_data path _) as [data n]. cbn [fst snd].
  destruct (n =? 0); [done|]. case_bool_decide; [done|]. by intros [= ->].
Qed.

Lemma ReadSecret_op path c w r v' :
  fit c → ReadSecret path (c, w) = (r, v') →
  v'.1 = c ∧ same_objs w v'.2 ∧ (roomy w → ∀ d, r = Ok d → held order (token_objs w) path = Some d).
Proof.
  intros Hf E. destruct (searching_op path (wrapf "failed to find objects") (read_of path) c w r v' Hf) as (H1 & H2 & H3).
  - rewrite <-E. unfold ReadSecret. rewrite !if_connected_eq. destruct (p_connected c); [|done].
    unfold st_try, st_bind. destruct (on_world _ (c, w)) as [[os|e] v]; [|done].
    unfold read_of. destruct (collect_data path os) as [d n]. destruct (n =? 0); [done|]. by case_bool_decide.
  - split_and!; [done|done|]. intros Hr d Hd. by apply read_of_held, (H3 Hr).
Qed.

Definition metadata_of (path : string) (objects : list pkcs11Object) : result (option SecretMetadata) :=
  match List.find (λ obj, bool_decide (obj_Label obj = path +:+ metadataKeySuffix)) objects with
  | Some obj =>
      match json_Unmarshal (obj_Value obj) with
      | Err err => Err (wrapf "failed to parse metadata JSON" err)
      | Ok md => Ok (Some md)
      end
  | None => Err (errorf ("metadata not found for path: " +:+ path))
  end.

Lemma ReadMetadata_op path c w r v' :
  fit c → ReadMetadata json_Unmarshal path (c, w) = (r, v') →
  v'.1 = c ∧ same_objs w v'.2 ∧
  (roomy w → ∀ md, r = Ok md → held_metadata json_Unmarshal order (token_objs w) path = md).
Proof.
  intros Hf E. destruct (searching_op (path +:+ metadataKeySuffix) (wrapf "failed to find metadata object")
    (metadata_of path) c w r v' Hf) as (H1 & H2 & H3).
  - rewrite <-E. unfold ReadMetadata. rewrite !if_connected_eq. destruct (p_connected c); [|done].
    unfold st_try, st_bind. destruct (on_world _ (c, w)) as [[os|e] v]; [|done].
    unfold metadata_of. destruct (List.find _ os) as [o|]; [|done]. by destruct (json_Unmarshal (obj_Value o)).
  - split_and!; [done|done|]. intros Hr md Hmd. specialize (H3 Hr md Hmd). revert H3.
    unfold metadata_of, held_metadata, metadata_object.
    destruct (List.find _ _) as [o|]; [|done]. destruct (json_Unmarshal (obj_Value o)); [by intros [= <-]|done].
Qed.

Definition paths_of (prefix : string) (objects : list pkcs11Object) : gmap string bool :=
  fold_left (λ (m : gmap string bool) obj,
    let label := obj_Label obj in
    if has_suffix label metadataKeySuffix then m
    else
      let path := label_path label in
      if bool_decide (prefix = "") || has_prefix path prefix then <[path := true]> m else m) objects ∅.

Lemma paths_of_listed objects p :
  is_Some (paths_of "" objects !! p) → ∃ o, o ∈ objects ∧ has_suffix (obj_Label o) metadataKeySuffix = false ∧ label_path (obj_Label o) = p.
Proof.
  unfold paths_of. induction objects as [|o objects IH] using rev_ind; [by intros [? ?]|].
  rewrite fold_left_app. cbn [fold_left]. destruct (has_suffix (obj_Label o) metadataKeySuffix) eqn:Es.
  - intros (x & Hx & Hr)%IH. exists x. split; [set_solver|done].
  - rewrite bool_decide_true by done. cbn [orb]. intros [<-|(x & Hx & Hr)%IH]%lookup_insert_is_Some'.
    + exists o. split; [set_solver|done].
    + exists x. split; [set_solver|done].
Qed.

Lemma ListSecrets_op prefix c w r v' :
  fit c → ListSecrets prefix (c, w) = (r, v') →
  v'.1 = c ∧ same_objs w v'.2 ∧
  (roomy w → prefix = "" → ∀ l, r = Ok l → ∀ p, p ∈ l → is_Some (held order (token_objs w) p)).
Proof.
  intros Hf E. destruct (searching_op "" (wrapf "failed to find objects")
    (λ os, Ok (range (paths_of prefix os)).*1) c w r v' Hf) as (H1 & H2 & H3).
  - exact E.
  - split_and!; [done|done|]. intros Hr -> l Hl p. specialize (H3 Hr l Hl). injection H3 as <-.
    rewrite elem_of_range_keys. intros (o & Ho & Hs & <-)%paths_of_listed.
    apply elem_of_found in Ho as [Hm [Hne _]]. cbn [fst] in Hne.
    apply (held_counted order _ _ o); [|split; [apply label_path_prefix|done]].
    apply elem_of_found. split; [done|]. split; [done|]. apply label_path_prefix.
Qed.

(** ** Lemmas: writing and deleting *)

(** The client remembers more handles, nothing else. *)
Definition alike (c c' : PKCS11Client W) : Prop :=
  p_config c' = p_config c ∧ p_session c' = p_session c ∧ p_connected c' = p_connected c.

#[local] Instance alike_PreOrder : PreOrder alike.
Proof. split; [done|]. intros c1 c2 c3 (? & ? & ?) (? & ? & ?). split_and!; congruence. Qed.

Lemma alike_fit c c' : alike c c' → fit c → fit c'.
Proof. unfold fit. by intros (-> & -> & ->). Qed.

Lemma alike_attached slot c c' : alike c c' → attached ctx s slot c → attached ctx s slot c'.
Proof. unfold attached. by intros (_ & -> & ->). Qed.

Lemma fewer_roomy w w' :
  (∀ h lv, token_objs w' !! h = Some lv → token_objs w !! h = Some lv) → roomy w → roomy w'.
Proof.
  unfold roomy. intros Hsub Hr. assert (token_objs w' ⊆ token_objs w) as Hle by (by apply map_subseteq_spec).
  apply subseteq_dom, subseteq_size in Hle. rewrite !size_dom in Hle. lia.
Qed.

Lemma same_roomy w w' : same_objs w w' → roomy w → roomy w'.
Proof. unfold roomy. by intros ->. Qed.

Lemma create_and_cache_room slot label value onerr c w r c' w' :
  attached ctx s slot c → create_and_cache label value onerr (c, w) = (r, (c', w')) →
  alike c c' ∧ (roomy w → roomy w').
Proof.
  intros [Hc Hse]. unfold create_and_cache, get_client, on_world, createObjectPKCS11, with_session, put_client,
    st_try, st_bind, st_ret. simpl. rewrite Hse. cbn [se_ctx se_session].
  pose proof (Create_room (object_template label value) w) as Hroom.
  destruct (ctx_CreateObject ctx s (object_template label value) w) as [[h|e] w1]; by intros [= <- <- <-].
Qed.

Lemma create_objects_room slot path kvs c w r c' w' :
  attached ctx s slot c → create_objects path kvs (c, w) = (r, (c', w')) →
  alike c c' ∧ (roomy w → roomy w').
Proof.
  revert c w. induction kvs as [|[k v] kvs IH]; intros c w Ha; cbn [create_objects]; [by intros [= <- <- <-]|].
  unfold st_try at 1, st_bind. destruct (create_and_cache _ _ _ (c, w)) as [r1 [c1 w1]] eqn:E1.
  apply (create_and_cache_room slot) in E1 as [Hl1 Hr1]; [|done]. destruct r1 as [[]|e]; [|by intros [= <- <- <-]].
  intros Hrest. destruct (IH _ _ (alike_attached _ _ _ Hl1 Ha) Hrest) as [Hl2 Hr2].
  split; [by etrans|auto].
Qed.

(** After a deletion: the client keeps its session, the token its room, and everything
    that is not under the path its place. *)
Lemma delete_leaves slot path w r w' :
  deleteSecretObjectsPKCS11 (Some (mkSession ctx s slot)) path w = (r, w') → roomy w →
  roomy w' ∧ agree_off path (token_objs w) (token_objs w') ∧
  (r = Ok () → token_search w' = None ∧ ∀ h lv, token_objs w' !! h = Some lv → ¬ under path lv).
Proof.
  intros (Hsub & Hkeep & Hdel)%deleteSecretObjects_spec Hroom; [|done]. split_and!.
  - by eapply fewer_roomy.
  - intros h lv Hu. split; [by apply Hsub|intros ?; by apply Hkeep].
  - intros Hr. destruct (Hdel Hr) as [Hs Hgone]. split; [done|]. by apply Hgone.
Qed.

Lemma WriteSecret_op path data md c w r v' :
  fit c → roomy w → WriteSecret json_Marshal path data md (c, w) = (r, v') →
  fit v'.1 ∧ roomy v'.2 ∧ (path ≠ "" → agree_off path (token_objs w) (token_objs v'.2)) ∧
  (r = Ok () → path ≠ "" → ∃ j, written (token_objs v'.2) path data j ∧ (is_Some md → is_Some j) ∧
     ∀ x, j = Some x → ∃ m, md = Some m ∧ json_Marshal m = Ok x).
Proof.
  intros Hf Hroom. unfold WriteSecret. rewrite if_connected_eq. destruct (p_connected c) eqn:Ec.
  2:{ intros [= <- <-]. by split_and!. }
  destruct (fit_attached c Hf Ec) as [slot Ha]. pose proof Ha as [_ Hse].
  unfold st_try at 1. unfold st_bind at 1. unfold on_world at 1. cbn [fst snd]. rewrite Hse.
  destruct (deleteSecretObjectsPKCS11 _ path w) as [rd w1] eqn:Ed.
  apply delete_leaves in Ed as (Hr1 & Ha1 & Hok1); [|done].
  destruct rd as [[]|e]; [|unfold st_ret; intros [= <- <-]; by split_and!].
  destruct (Hok1 eq_refl) as [Hs1 Hgone]. unfold st_try, st_bind.
  destruct (create_objects path (range data) (c, w1)) as [rc [c2 w2]] eqn:E2.
  pose proof (create_objects_room slot _ _ _ _ _ _ _ Ha E2) as [Hl2 Hroom2].
  apply (create_objects_spec ctx s slot) in E2 as (Ha2 & Hs2 & Hmono & Hinv & Hall); [|done..].
  assert (path ≠ "" → agree_off path (token_objs w) (token_objs w2)) as Hoff2.
  { intros Hp h lv Hu. rewrite <-(Ha1 h lv Hu). split; [|apply Hmono].
    intros Hh. destruct (Hinv h lv Hh) as [?|(k & v & _ & ->)]; [done|].
    destruct Hu. split; [apply (label_nonempty path); [done|]|]; apply key_label_prefix. }
  destruct rc as [[]|e].
  2:{ intros [= <- <-]. split_and!; [by eapply alike_fit|by apply Hroom2|done|done]. }
  specialize (Hall eq_refl).
  destruct md as [md|].
  2:{ intros [= <- <-]. split_and!; [by eapply alike_fit|by apply Hroom2|done|]. intros _ Hp. exists None.
      split_and!; [split_and!|by intros []|done].
      - intros k v Hk. apply Hall. by apply elem_of_range.
      - done.
      - intros h lv Hh Hu. right. destruct (Hinv h lv Hh) as [Hw|(k & v & Hk%elem_of_range & ->)]; [by apply Hgone in Hw|by exists k, v]. }
  unfold writeMetadata. destruct (json_Marshal md) as [j|e] eqn:Ej.
  2:{ intros [= <- <-]. split_and!; [by eapply alike_fit|by apply Hroom2|done|done]. }
  destruct (create_and_cache _ j _ (c2, w2)) as [rm [c3 w3]] eqn:E3. intros [= <- <-]. cbn [fst snd].
  pose proof (create_and_cache_room slot _ _ _ _ _ _ _ _ Ha2 E3) as [Hl3 Hroom3].
  apply (create_and_cache_spec ctx s slot) in E3 as (_ & _ & Hok3 & Herr3); [|done..].
  assert (under path (path +:+ metadataKeySuffix, j)) as Hmu.
  { split; [by destruct path|apply has_prefix_app]. }
  split_and!; [eapply alike_fit; [|done]; by etrans|by apply Hroom3, Hroom2| |].
  - intros Hp h lv Hu. destruct rm as [[]|e]; [|rewrite (Herr3 eq_refl); by apply Hoff2].
    rewrite <-(Hoff2 Hp h lv Hu). specialize (Hok3 eq_refl). split; [|intros Hh; by eapply one_more_Some].
    intros Hh. destruct (one_more_inv _ _ _ _ _ _ Hok3 Hh) as [?| ->]; done.
  - intros -> Hp. specialize (Hok3 eq_refl). exists (Some j).
    split_and!; [split_and!|done|intros x [= <-]; by exists md].
    + intros k v Hk. destruct (Hall k v) as [h Hh]; [by apply elem_of_range|]. exists h. by eapply one_more_Some.
    + intros x [= <-]. by eapply one_more_has.
    + intros h lv Hh Hu. destruct (one_more_inv _ _ _ _ _ _ Hok3 Hh) as [Hh2| ->]; [right|left; by exists j].
      destruct (Hinv h lv Hh2) as [Hw|(k & v & Hk%elem_of_range & ->)]; [by apply Hgone in Hw|by exists k, v].
Qed.

Lemma DeleteSecret_op path c w r v' :
  fit c → roomy w → DeleteSecret path (c, w) = (r, v') →
  fit v'.1 ∧ roomy v'.2 ∧ agree_off path (token_objs w) (token_objs v'.2) ∧
  (r = Ok () → ∀ h lv, token_objs v'.2 !! h = Some lv → ¬ under path lv).
Proof.
  intros Hf Hroom. unfold DeleteSecret. rewrite if_connected_eq. destruct (p_connected c) eqn:Ec; [|by intros [= <- <-]].
  destruct (fit_attached c Hf Ec) as [slot [_ Hse]].
  unfold st_try. unfold st_bind at 1. unfold on_world at 1. cbn [fst snd]. rewrite Hse.
  destruct (deleteSecretObjectsPKCS11 _ path w) as [rd w1] eqn:Ed. apply delete_leaves in Ed as (Hr1 & Ha1 & Hok1); [|done].
  destruct rd as [[]|e]; unfold put_client, st_bind, st_ret; intros [= <- <-]; cbn [fst snd]; [|by split_and!].
  split_and!; [by eapply alike_fit; [|done]|done|done|]. intros _. by apply Hok1.
Qed.

Lemma exact_label_prefix path key : has_prefix (exact_label path key) path = true.
Proof. unfold exact_label. case_match; [apply has_prefix_app|apply has_prefix_refl]. Qed.

Lemma DeleteSecretKey_op path key c w r v' :
  fit c → roomy w → DeleteSecretKey path key (c, w) = (r, v') →
  fit v'.1 ∧ roomy v'.2 ∧ (path ≠ "" → agree_off path (token_objs w) (token_objs v'.2)).
Proof.
  intros Hf Hroom. unfold DeleteSecretKey. rewrite if_connected_eq. destruct (p_connected c) eqn:Ec; [|by intros [= <- <-]].
  destruct (fit_attached c Hf Ec) as [slot [_ Hse]].
  unfold st_try. unfold st_bind at 1. unfold on_world at 1. cbn [fst snd]. rewrite Hse.
  destruct (deleteSecretKeyPKCS11 (Some (mkSession ctx s slot)) (exact_label path key) w) as [rd w1] eqn:Ed.
  assert (roomy w1 ∧ (path ≠ "" → agree_off path (token_objs w) (token_objs w1))) as [Hr1 Hoff].
  { revert Ed. unfold deleteSecretKeyPKCS11, with_session, st_try. cbn [se_ctx se_session]. unfold st_bind at 1.
    assert (∀ w2, same_objs w w2 → roomy w2 ∧ (path ≠ "" → agree_off path (token_objs w) (token_objs w2))) as Hsame.
    { intros w2 Ho. split; [by eapply same_roomy|]. rewrite Ho. intros _ h lv _. done. }
    set (label := exact_label path key).
    pose proof (Init_objs [CKA_CLASS_DATA; CKA_LABEL label] w) as Ho1.
    destruct (ctx_FindObjectsInit ctx s _ w) as [[[]|e] w2] eqn:Ei; cbn [snd] in Ho1; [|intros [= _ <-]; by apply Hsame].
    destruct (Init_label _ _ _ Ei) as (l & Hl & _ & Hin). unfold st_bind at 1.
    pose proof (Find_objs 1 w2) as Ho2. destruct (ctx_FindObjects ctx s 1 w2) as [[hs|e] w3] eqn:Efi; cbn [snd] in Ho2.
    2:{ unfold st_bind. pose proof (Final_objs w3) as Ho3. destruct (ctx_FindObjectsFinal ctx s w3) as [rr w4].
        intros [= _ <-]. apply Hsame. by repeat (etrans; [eassumption|]). }
    destruct (Find_Ok _ _ _ _ _ Hl Efi) as [-> _]. unfold st_bind at 1.
    pose proof (Final_objs w3) as Ho3. pose proof (Final_Ok w3) as Hfin.
    destruct (ctx_FindObjectsFinal ctx s w3) as [[[]|e] w4]; cbn [snd] in Ho3;
      [|intros [= _ <-]; apply Hsame; by repeat (etrans; [eassumption|])].
    specialize (Hfin w4 eq_refl). assert (same_objs w w4) as Ho by (etrans; [exact Ho1|]; by etrans).
    destruct (take 1 l) as [|h hs] eqn:Et; [intros [= _ <-]; by apply Hsame|].
    assert (h ∈ l) as (lbl & x & Hh & ->)%Hin.
    { rewrite <-(take_drop 1 l), Et. apply elem_of_app. left. by left. }
    unfold st_bind. destruct (ctx_DestroyObject ctx s h w4) as [[[]|e] w5] eqn:Ede; intros [= _ <-].
    - destruct (Destroy_Ok _ _ _ Hfin Ede) as [Hd _]. rewrite Ho in Hd. split.
      + eapply fewer_roomy; [|exact Hroom]. rewrite Hd. by intros h' lv [_ ?]%lookup_delete_Some.
      + intros Hp h' lv Hu. rewrite Hd. destruct (decide (h' = h)) as [->|Hne]; [|by rewrite lookup_delete_ne].
        rewrite lookup_delete_eq. split; [done|]. intros Hh'. assert (lv = (label, x)) as -> by congruence.
        destruct Hu. split; [apply (label_nonempty path); [done|]|]; apply exact_label_prefix.
    - destruct (Destroy_Err _ _ _ _ Hfin Ede) as [Hd _]. apply Hsame. by etrans. }
  destruct rd as [[]|e]; unfold put_client, st_bind, st_ret; intros [= <- <-]; cbn [fst snd]; [|by split_and!].
  split_and!; [by eapply alike_fit; [|done]|done|done].
Qed.

(** ** Lemmas: the other methods *)
#[local] Hint Resolve Initialize_objs Finalize_objs DestroyCtx_objs SlotList_objs TokenInfo_objs SlotInfo_objs
  Open_objs CloseSession_objs Login_objs Logout_objs SetPIN_objs : core.
Ltac keeps_objs :=
  repeat (match goal with
          | |- ∀ _, _ => intro
          | |- context [match ?x with _ => _ end] => destruct x
          end ||
          first [apply (preserves_ret same_objs) | apply (preserves_try same_objs) | apply (preserves_bind same_objs)]);
  eauto.

Lemma teardown_objs : preserves same_objs (teardown ctx).
Proof. unfold teardown. keeps_objs. Qed.
#[local] Hint Resolve teardown_objs : core.

Lemma close_objs slot : preserves same_objs (closePKCS11 (Some (mkSession ctx s slot))).
Proof. unfold closePKCS11. cbn [se_session se_ctx]. keeps_objs. Qed.

Lemma getTokenInfo_objs slot : preserves same_objs (getTokenInfoPKCS11 (Some (mkSession ctx s slot))).
Proof. unfold getTokenInfoPKCS11, with_session. cbn [se_slot se_ctx]. keeps_objs. Qed.

Lemma find_slot_objs label slots : preserves same_objs (find_slot_by_label ctx label slots).
Proof. induction slots as [|slot slots IH]; cbn [find_slot_by_label]; keeps_objs. Qed.

Lemma select_slot_objs config slots : preserves same_objs (select_slot ctx config slots).
Proof. pose proof find_slot_objs. unfold select_slot. keeps_objs. Qed.

Lemma initialize_spec config pin w r w' :
  initializePKCS11 New config pin w = (r, w') →
  same_objs w w' ∧ ∀ ss, r = Ok ss → ss.1 = mkSession ctx s ss.2.
Proof.
  unfold initializePKCS11. unfold st_bind at 1. destruct (New (PKCS11LibraryPath config) w) as [octx w1] eqn:En.
  pose proof (preserves_at same_objs _ _ _ _ (New_objs _) En) as H1.
  destruct octx as [c|]; [|by intros [= <- <-]]. apply New_ctx in En as ->.
  unfold st_try. unfold st_bind at 1. destruct (ctx_Initialize ctx w1) as [[[]|e] w2] eqn:Ei;
    pose proof (preserves_at same_objs _ _ _ _ Initialize_objs Ei) as H2; [|intros [= <- <-]; split; [by etrans|done]].
  unfold st_bind at 1. destruct (ctx_GetSlotList ctx w2) as [rslots w3] eqn:Es.
  pose proof (preserves_at same_objs _ _ _ _ SlotList_objs Es) as H3.
  assert (same_objs w w3) as Hw3 by (etrans; [exact H1|]; by etrans).
  assert (∀ w4 err, same_objs w w4 → (let* _ := teardown ctx in st_ret (Err err))%go w4 = (r, w') →
    same_objs w w' ∧ ∀ ss, r = Ok ss → ss.1 = mkSession ctx s ss.2) as Hfail.
  { intros w4 err Hw4. unfold st_bind. pose proof (teardown_objs w4) as Ht.
    destruct (teardown ctx w4) as [[] w5]. intros [= <- <-]. split; [by etrans|done]. }
  destruct rslots as [[|slot0 slots]|e]; [by apply Hfail| |by apply Hfail].
  unfold st_bind at 1. destruct (select_slot ctx config (slot0 :: slots) w3) as [target w4] eqn:Et.
  pose proof (preserves_at same_objs _ _ _ _ (select_slot_objs _ _) Et) as H4.
  assert (same_objs w w4) as Hw4 by by etrans.
  destruct target as [slot|e]; [|by apply Hfail].
  unfold st_bind at 1. destruct (ctx_OpenSession ctx slot w4) as [rs w5] eqn:Eo.
  pose proof (preserves_at same_objs _ _ _ _ (Open_objs _) Eo) as H5. assert (same_objs w w5) as Hw5 by by etrans.
  destruct rs as [session|e]; [|by apply Hfail]. apply Open_session in Eo as ->.
  unfold st_bind at 1. destruct (ctx_Login ctx s pin w5) as [rl w6] eqn:El.
  pose proof (preserves_at same_objs _ _ _ _ (Login_objs _ _) El) as H6. assert (same_objs w w6) as Hw6 by by etrans.
  destruct rl as [[]|e]; [intros [= <- <-]; split; [done|]; by intros ss [= <-]|].
  unfold st_bind at 1. pose proof (CloseSession_objs s w6) as H7. destruct (ctx_CloseSession ctx s w6) as [rc w7].
  apply Hfail. by etrans.
Qed.

Lemma Initialize_op cfg : quiet_op (c_Initialize (pkcs11_client New json_Marshal json_Unmarshal provider) cfg).
Proof.
  intros c w r c' w' Hf. cbn [c_Initialize pkcs11_client]. unfold Initialize, Initialize_with, get_client, put_client, on_world, st_bind at 1 2.
  set (cfg' := mkConfig _ _ _ _ _ _ _ provider). cbn [fst snd].
  assert (fit (mkPKCS11 cfg' (p_session c) (p_slot c) (p_connected c) (p_dataObjects c))) as Hf'.
  { destruct Hf as [Hf _]. split; [exact Hf|by right]. }
  case_bool_decide; [by intros [= <- <- <-]|]. cbn [cfg_PINProvider]. destruct provider as [p|] eqn:Ep; cbn [cfg' cfg_PINProvider];
    [|by intros [= <- <- <-]].
  unfold st_try, st_bind. cbn [fst snd]. destruct (GetPIN p w) as [rp w1] eqn:Eg.
  pose proof (preserves_at same_objs _ _ _ _ (GetPIN_objs p Ep) Eg) as H1.
  destruct rp as [pin|e]; [|by intros [= <- <- <-]]. cbn [fst snd].
  destruct (initializePKCS11 New _ pin w1) as [rs w2] eqn:Ei. apply initialize_spec in Ei as [H2 Hss].
  assert (same_objs w w2) as Hw by by etrans. destruct rs as [ss|e]; intros [= <- <- <-]; [|by split].
  split; [|done]. split; [|by right]. intros _. exists ss.2. cbn [p_session]. by rewrite (Hss ss eq_refl).
Qed.

Lemma Close_op : quiet_op Close.
Proof.
  intros c w r c' w' Hf. unfold Close, get_client, put_client, on_world, st_bind, st_ret. cbn [fst snd].
  destruct (p_connected c) eqn:Ec; cbn [negb]; [|by intros [= <- <- <-]].
  destruct (fit_attached c Hf Ec) as [slot [_ Hse]]. cbn [fst snd]. rewrite Hse. pose proof (close_objs slot w) as Ho.
  destruct (closePKCS11 _ w) as [rc w1]. intros [= <- <- <-]. split; [|done]. destruct Hf as [_ Hp]. by split.
Qed.

Lemma GetInfo_op : quiet_op GetInfo.
Proof.
  apply quiet_connected. intros c w r c' w' slot Hf [Hc Hse]. unfold on_world, put_client, st_bind. cbn [fst snd].
  rewrite Hse. pose proof (getTokenInfo_objs slot w) as Ho. destruct (getTokenInfoPKCS11 _ w) as [[ti|e] w1]; cbn [fst snd] in *;
    unfold st_ret; [by intros [= <- <- <-]|].
  destruct (errors_Is e ErrTokenNotPresent); intros [= <- <- <-]; (split; [|done]); [|done]. destruct Hf as [_ Hp]. by split.
Qed.

Lemma GetChecksum_op path : quiet_op (GetChecksum path).
Proof.
  intros c w r c' w' Hf. unfold GetChecksum, st_try, st_bind, st_ret.
  destruct (ReadSecret path (c, w)) as [rr [c1 w1]] eqn:E. apply ReadSecret_op in E as (H1 & H2 & _); [|done].
  cbn [fst snd] in *. subst c1. destruct rr; by intros [= <- <- <-].
Qed.

Lemma ChangePIN_op old new : quiet_op (ChangePIN old new).
Proof.
  apply quiet_connected. intros c w r c' w' slot Hf [Hc Hse].
  repeat (case_bool_decide; [by intros [= <- <- <-]|]). unfold st_try, on_world. unfold st_bind at 1. cbn [fst snd]. rewrite Hse.
  unfold changePINPKCS11, with_session, st_try. cbn [se_ctx se_session]. unfold st_bind at 1.
  pose proof (SetPIN_objs s old new w) as Ho. destruct (ctx_SetPIN ctx s old new w) as [[[]|e] w1]; unfold st_ret; cbn [snd] in Ho;
    [|by intros [= <- <- <-]].
  unfold st_bind. destruct (cfg_PINProvider (p_config c)) as [p|] eqn:Ep; [|by intros [= <- <- <-]].
  destruct Hf as [Hfit [Hp|Hp]]; [congruence|]. rewrite Ep in Hp.
  destruct (InvalidateCacheAfterPINChange p) as [i|] eqn:Einv; [|intros [= <- <- <-]; split; [|done]; split; [done|right; congruence]].
  cbn [fst snd]. pose proof (Invalidate_objs p i (eq_sym Hp) Einv w1) as Ho2. destruct (i w1) as [[] w2]. cbn [fst snd] in *.
  intros [= <- <- <-]. split; [|by etrans]. split; [done|right; congruence].
Qed.

Lemma IsConnected_op : quiet_op IsConnected.
Proof. intros c w r c' w' Hf. unfold IsConnected, get_client, st_bind, st_ret. by intros [= <- <- <-]. Qed.

(** ** An agent, and the agents of a cluster

    An agent is a client that is fit with its token, from which its methods do not
    lead astray. *)
Definition fine (v : PState W) : Prop := fit v.1 ∧ roomy v.2.
Definition Agent : Type := { v : PState W | fine v }.

Definition keeps_fine {A} (m : ST (PState W) A) : Prop := ∀ v, fine v → fine (m v).2.

Lemma quiet_fine {A} (m : ST (PState W) A) : quiet_op m → keeps_fine m.
Proof.
  intros Hm [c w] [Hf Hr]. destruct (m (c, w)) as [r [c' w']] eqn:E. destruct (Hm _ _ _ _ _ Hf E) as [Hf' Hs].
  split; [exact Hf'|]. by apply (same_roomy w).
Qed.

(** A method whose outcomes are described from a fit client and a small token. *)
Lemma spec_fine {A} (m : ST (PState W) A) :
  (∀ c w r v', fit c → roomy w → m (c, w) = (r, v') → fit v'.1 ∧ roomy v'.2) → keeps_fine m.
Proof.
  intros Hm [c w] [Hf Hr]. destruct (m (c, w)) as [r v'] eqn:E. by apply (Hm c w r v' Hf Hr).
Qed.

Lemma read_fine path : keeps_fine (ReadSecret path).
Proof.
  apply spec_fine. intros c w r v' Hf Hr E. apply ReadSecret_op in E as (-> & H2 & _); [|done].
  split; [done|]. by apply (same_roomy w).
Qed.
Lemma metadata_fine path : keeps_fine (ReadMetadata json_Unmarshal path).
Proof.
  apply spec_fine. intros c w r v' Hf Hr E. apply ReadMetadata_op in E as (-> & H2 & _); [|done].
  split; [done|]. by apply (same_roomy w).
Qed.
Lemma list_fine prefix : keeps_fine (ListSecrets prefix).
Proof.
  apply spec_fine. intros c w r v' Hf Hr E. apply ListSecrets_op in E as (-> & H2 & _); [|done].
  split; [done|]. by apply (same_roomy w).
Qed.
Lemma write_fine path data md : keeps_fine (WriteSecret json_Marshal path data md).
Proof. apply spec_fine. intros c w r v' Hf Hr E. by apply WriteSecret_op in E as (H1 & H2 & _). Qed.
Lemma delete_fine path : keeps_fine (DeleteSecret path).
Proof. apply spec_fine. intros c w r v' Hf Hr E. by apply DeleteSecret_op in E as (H1 & H2 & _). Qed.
Lemma delete_key_fine path key : keeps_fine (DeleteSecretKey path key).
Proof. apply spec_fine. intros c w r v' Hf Hr E. by apply DeleteSecretKey_op in E as (H1 & H2 & _). Qed.

Definition confine {A} (m : ST (PState W) A) (Hm : keeps_fine m) : ST Agent A :=
  λ a, ((m (`a)).1, exist _ (m (`a)).2 (Hm (`a) (proj2_sig a))).

(** The client of an agent: the methods of [pkcs11_client] on its states. *)
Definition agent : Client Agent :=
  let c := pkcs11_client New json_Marshal json_Unmarshal provider in
  mkClient
    (λ cfg, confine (c_Initialize c (mkConfig (PKCS11LibraryPath cfg) (SlotID cfg) (UseSlotID cfg)
       (TokenLabel cfg) (ConnectionTimeout cfg) (Hsm.RetryAttempts cfg) (RetryDelay cfg) None)) (quiet_fine _ (Initialize_op _)))
    (confine (c_Close c) (quiet_fine _ Close_op)) (confine (c_GetInfo c) (quiet_fine _ GetInfo_op))
    (λ p, confine (c_ReadSecret c p) (read_fine p))
    (λ p d md, confine (c_WriteSecret c p d md) (write_fine p d md))
    (λ p, confine (c_ReadMetadata c p) (metadata_fine p))
    (λ p, confine (c_DeleteSecret c p) (delete_fine p))
    (λ p k, confine (c_DeleteSecretKey c p k) (delete_key_fine p k))
    (λ pre, confine (c_ListSecrets c pre) (list_fine pre))
    (λ p, confine (c_GetChecksum c p) (quiet_fine _ (GetChecksum_op p)))
    (confine (c_IsConnected c) (quiet_fine _ IsConnected_op))
    (λ o n, confine (c_ChangePIN c o n) (quiet_fine _ (ChangePIN_op o n))).

(** One agent per serial number. *)
Definition Agents : Type := string → Agent.
Definition put_agent (serial : string) (a : Agent) (ws : Agents) : Agents :=
  λ serial', if decide (serial' = serial) then a else ws serial'.
Definition agent_of (serial : string) : Client Agents := lift_client (λ ws : Agents, ws serial) (put_agent serial) agent.

Definition agent_objs (a : Agent) : gmap Z (string * string) := token_objs (`a).2.

#[global] Instance agents_view : StoreView Agents := {|
  sec_at ws serial path := held order (agent_objs (ws serial)) path;
  md_at ws serial path := held_metadata json_Unmarshal order (agent_objs (ws serial)) path;
  overlaps := comparable;
  storable := distinguishable;
  keepable := survives json_Marshal json_Unmarshal;
|}.

Lemma put_agent_other serial serial' a ws : serial' ≠ serial → put_agent serial a ws serial' = ws serial'.
Proof. intros Hne. unfold put_agent. by rewrite decide_False. Qed.
Lemma put_agent_same serial a ws : put_agent serial a ws serial = a.
Proof. unfold put_agent. by rewrite decide_True. Qed.

(** An operation of an agent within the cluster, by the objects of its token. *)
Lemma agent_run {A} serial (m : ST (PState W) A) Hm (ws : Agents) r v' :
  m (proj1_sig (ws serial)) = (r, v') →
  let run := lift_st (λ ws : Agents, ws serial) (put_agent serial) (confine m Hm) ws in
  run.1 = r ∧ agent_objs (run.2 serial) = token_objs v'.2 ∧ ∀ serial', serial' ≠ serial → run.2 serial' = ws serial'.
Proof.
  intros E. unfold lift_st, confine. cbn [fst snd]. rewrite put_agent_same. unfold agent_objs. cbn [proj1_sig].
  split_and!; [by rewrite E|by rewrite E|]. intros. by apply put_agent_other.
Qed.

(** What a method is known to do from a fit client and a small token, an agent does. *)
Lemma agent_does {A} serial (m : ST (PState W) A) Hm (ws : Agents)
    (P : gmap Z (string * string) → A → gmap Z (string * string) → Prop) :
  (∀ c w r v', fit c → roomy w → m (c, w) = (r, v') → P (token_objs w) r (token_objs v'.2)) →
  let run := lift_st (λ ws : Agents, ws serial) (put_agent serial) (confine m Hm) ws in
  P (agent_objs (ws serial)) run.1 (agent_objs (run.2 serial)).
Proof.
  intros HP run. destruct (m (proj1_sig (ws serial))) as [r v'] eqn:E. subst run.
  destruct (agent_run serial m Hm ws r v' E) as (-> & -> & _).
  destruct (ws serial) as [[c w] [Hf Hr]]. by apply (HP c w).
Qed.

Lemma agent_elsewhere {A} serial (m : ST (PState W) A) Hm (ws : Agents) serial' :
  serial' ≠ serial → (lift_st (λ ws : Agents, ws serial) (put_agent serial) (confine m Hm) ws).2 serial' = ws serial'.
Proof.
  intros Hne. destruct (m (proj1_sig (ws serial))) as [r v'] eqn:E.
  destruct (agent_run serial m Hm ws r v' E) as (_ & _ & Ho). by apply Ho.
Qed.

Lemma agent_unchanged {A} serial (m : ST (PState W) A) Hm (ws : Agents) :
  (∀ c w r v', fit c → roomy w → m (c, w) = (r, v') → same_objs w v'.2) →
  unchanged ws (lift_st (λ ws : Agents, ws serial) (put_agent serial) (confine m Hm) ws).2.
Proof.
  intros Ho serial' p. cbn [sec_at md_at agents_view].
  destruct (decide (serial' = serial)) as [->|Hne]; [|by rewrite agent_elsewhere].
  by rewrite (agent_does serial m Hm ws (λ o _ o', o' = o) Ho).
Qed.

Lemma quiet_unchanged {A} serial (m : ST (PState W) A) Hm (Hq : quiet_op m) (ws : Agents) :
  unchanged ws (lift_st (λ ws : Agents, ws serial) (put_agent serial) (confine m Hm) ws).2.
Proof. apply agent_unchanged. intros c w r [c' w'] Hf _ E. by destruct (Hq _ _ _ _ _ Hf E). Qed.

Lemma agent_only {A} serial path (m : ST (PState W) A) Hm (ws : Agents) :
  (∀ c w r v', fit c → roomy w → m (c, w) = (r, v') → path ≠ "" → agree_off path (token_objs w) (token_objs v'.2)) →
  only_changed serial path ws (lift_st (λ ws : Agents, ws serial) (put_agent serial) (confine m Hm) ws).2.
Proof.
  intros Ha serial' p Hne. cbn [sec_at md_at agents_view overlaps] in *.
  destruct (decide (serial' = serial)) as [->|Hs']; [|by rewrite agent_elsewhere].
  destruct Hne as [|Hc]; [done|]. apply (held_off json_Unmarshal order path); [|done].
  apply (agent_does serial m Hm ws (λ o _ o', path ≠ "" → agree_off path o o') Ha).
  intros ->. apply Hc. right. apply has_prefix_empty.
Qed.

(** A successful write is held, with its metadata. *)
Lemma write_held path data md c w r v' :
  fit c → roomy w → WriteSecret json_Marshal path data md (c, w) = (r, v') →
  distinguishable path data → data ≠ ∅ ∨ is_Some md → r = Ok () →
  held order (token_objs v'.2) path = Some data ∧
  ∀ m, md = Some m → survives json_Marshal json_Unmarshal m → held_metadata json_Unmarshal order (token_objs v'.2) path = md.
Proof.
  intros Hf Hr E Hd Hne ->. apply WriteSecret_op in E as (_ & _ & _ & Hw); [|done..].
  destruct (Hw eq_refl (proj1 Hd)) as (j & Hj & Hsome & Hmd). split.
  { apply (held_written order v'.2 path data j); [done|done|]. destruct Hne as [|Hne]; [by left|right; by apply Hsome]. }
  intros m -> Hm. destruct (Hsome (mk_is_Some _ _ eq_refl)) as [x ->].
  destruct (Hmd x eq_refl) as (m' & [= <-] & Hx). unfold held_metadata. pose proof Hj as (_ & Hjx & _).
  destruct (Hjx x eq_refl) as [h Hh].
  destruct (metadata_object order (token_objs v'.2) path) as [o|] eqn:Eo.
  - by rewrite (metadata_written order v'.2 path data (Some x) x o Hj (proj2 Hd) eq_refl Eo), (Hm x Hx).
  - by destruct (metadata_object_has order _ _ _ _ Hh) as [o Ho]; congruence.
Qed.

(** The PKCS#11 client is a client of the device whose token it is connected to. *)
Theorem pkcs11_implements_client serial : ClientLaws serial (agent_of serial).
Proof.
  split.
  - intros ws. apply quiet_unchanged, IsConnected_op.
  - intros ws. apply quiet_unchanged, GetInfo_op.
  - intros ws. apply quiet_unchanged, Close_op.
  - intros p ws. apply agent_unchanged. intros c w r v' Hf _ E. by apply ReadSecret_op in E as (_ & Ho & _).
  - intros p ws. apply (agent_does serial _ (read_fine p) ws (λ m r _, ∀ d, r = Ok d → held order m p = Some d)).
    intros c w r v' Hf Hr E. apply ReadSecret_op in E as (_ & _ & Hd); [by apply Hd|done].
  - intros p ws. apply agent_unchanged. intros c w r v' Hf _ E. by apply ReadMetadata_op in E as (_ & Ho & _).
  - intros p ws. apply (agent_does serial _ (metadata_fine p) ws
      (λ m r _, ∀ md, r = Ok md → held_metadata json_Unmarshal order m p = md)).
    intros c w r v' Hf Hr E. apply ReadMetadata_op in E as (_ & _ & Hd); [by apply Hd|done].
  - intros p ws. apply agent_unchanged. intros c w r v' Hf _ E. by apply ListSecrets_op in E as (_ & Ho & _).
  - intros ws. apply (agent_does serial _ (list_fine "") ws (λ m r _, ∀ l, r = Ok l → ∀ p, p ∈ l → is_Some (held order m p))).
    intros c w r v' Hf Hr E. apply ListSecrets_op in E as (_ & _ & Hd); [by apply Hd|done].
  - intros p ws. apply quiet_unchanged, GetChecksum_op.
  - intros p d md ws. apply agent_only. intros c w r v' Hf Hr E. by apply WriteSecret_op in E as (_ & _ & Ha & _).
  - intros p d md ws Hd Hne. apply (agent_does serial _ (write_fine p d md) ws (λ _ r m', r = Ok () →
      held order m' p = Some d ∧ ∀ m, md = Some m → survives json_Marshal json_Unmarshal m → held_metadata json_Unmarshal order m' p = md)).
    intros c w r v' Hf Hr E Hok. by apply (write_held p d md c w r v').
  - intros p ws. apply agent_only. intros c w r v' Hf Hr E _. by apply DeleteSecret_op in E as (_ & _ & Ha & _).
  - intros p ws. apply (agent_does serial _ (delete_fine p) ws (λ _ r m', r = Ok () → held order m' p = None)).
    intros c w r v' Hf Hr E Hok. apply DeleteSecret_op in E as (_ & _ & _ & Hg); [|done..]. by apply held_nothing, Hg.
  - intros p k ws. apply agent_only. intros c w r v' Hf Hr E. by apply DeleteSecretKey_op in E as (_ & _ & Ha).
Qed.
End Laws.

(** ** A token of an agent

    It holds at most 100 objects, which a search enumerates by increasing handle. *)
Module CardToken.
Import SoftToken.
#[local] Existing Instance listed_order.

#[global] Instance Z_le_TotalOrder : TotalOrder Z.le.
Proof. split; [apply _|]. intros x y. destruct (Z.lt_trichotomy x y) as [?|[?|?]]; [left|right; left|right; right]; try done; split; lia. Qed.

Definition device_memory : error := pkcs11_error 49 "pkcs11: 0x31: CKR_DEVICE_MEMORY".
Definition card_ctx : Ctx Token := mkCtx
  (ctx_Initialize soft_ctx) (ctx_Finalize soft_ctx) (ctx_Destroy soft_ctx) (ctx_GetSlotList soft_ctx)
  (ctx_GetTokenInfo soft_ctx) (ctx_GetSlotInfo soft_ctx) (ctx_OpenSession soft_ctx) (ctx_CloseSession soft_ctx)
  (ctx_Login soft_ctx) (ctx_Logout soft_ctx)
  (λ s t w, match ctx_FindObjectsInit soft_ctx s t w with
            | (Ok _, mkToken objs (Some l)) => (Ok (), mkToken objs (Some (merge_sort Z.le l)))
            | r => r
            end)
  (ctx_FindObjects soft_ctx) (ctx_FindObjectsFinal soft_ctx) (ctx_GetLabel soft_ctx) (ctx_GetLabelValue soft_ctx)
  (λ s t w, if bool_decide (100 ≤ size (tok_objs w))%nat then (Err device_memory, w) else ctx_CreateObject soft_ctx s t w)
  (ctx_DestroyObject soft_ctx) (ctx_SetPIN soft_ctx).

Lemma card_search s t w w' :
  ctx_FindObjectsInit card_ctx s t w = (Ok (), w') →
  tok_search w' = Some (merge_sort Z.le (filter (selected (tmpl_label t)) (map_to_list (tok_objs w))).*1).
Proof. simpl. destruct (tok_search w); [done|]. by intros [= <-]. Qed.

Lemma sorted_matching l w : matching l w (merge_sort Z.le (filter (selected l) (map_to_list (tok_objs w))).*1).
Proof.
  destruct (search_matching l w) as [Hnd Hin]. pose proof (merge_sort_Permutation Z.le (filter (selected l) (map_to_list (tok_objs w))).*1) as HP.
  split; [by rewrite HP|]. intros h. by rewrite HP.
Qed.

#[global] Instance card_laws s : TokenLaws card_ctx s.
Proof.
  destruct (soft_laws s) as [H1 H2 H3 H4 H5 H6 H7 H8 H9 H10 H11 H12 H13 H14 H15]. split; try assumption.
  - intros t w. simpl. by destruct (tok_search w).
  - intros w w' E. change (∃ l, tok_search w' = Some l ∧ matching None w l). rewrite (card_search s _ w w' E). eexists. split; [done|]. apply sorted_matching.
  - intros x w w' E. change (∃ l, tok_search w' = Some l ∧ matching (Some x) w l). rewrite (card_search s _ w w' E). eexists. split; [done|]. apply sorted_matching.
  - intros t w e w' Hs. cbn [card_ctx ctx_CreateObject]. case_bool_decide; [by intros [= _ <-]|by apply H12].
  - intros label value w h w' Hs. cbn [card_ctx ctx_CreateObject]. case_bool_decide; [done|by apply H13].
Qed.

#[global] Instance card_responsive s : Responsive card_ctx s.
Proof. destruct (soft_responsive s) as [H1 H2 H3 H4 H5]. split; try assumption. intros w Hw. simpl in *. by rewrite Hw. Qed.

Definition New (path : string) : ST Token (option (Ctx Token)) := st_ret (Some card_ctx).
Definition provider : option (PINProvider Token) := Some (mkPINProvider _ (st_ret (Ok "123456")) None).

#[global] Instance card_own : OwnToken New provider card_ctx 1 Z.le.
Proof.
  split; try (intros; apply (preserves_ret same_objs)).
  - by intros path w c w' [= <- _].
  - by intros slot w h w' [= <- _].
  - intros p [= <-]. apply (preserves_ret same_objs).
  - by intros p i [= <-].
  - intros w w' l E Hl. change (tok_search w' = Some l) in Hl. rewrite (card_search _ _ _ _ E) in Hl. injection Hl as <-.
    apply Sorted_StronglySorted; [apply _|]. apply Sorted_merge_sort, _.
  - intros t w Hw. cbn [card_ctx ctx_CreateObject]. case_bool_decide as Hs; [done|]. simpl. destruct (tok_search w); [done|].
    unfold roomy. cbn [snd token_objs token_view tok_objs]. rewrite map_size_insert. case_match; unfold id; lia.
Qed.
End CardToken.

(** ** The agents of a cluster behind their endpoints

    The contract of [AgentsSpec] for a manager that dials agents with PKCS#11 clients:
    writing, mirroring and reading go all the way down to the objects of the tokens. *)
Module CardAgents.
Import CardToken.
#[local] Existing Instance listed_order.

Definition start (objs : gmap Z (string * string)) : PState SoftToken.Token :=
  (mkPKCS11 (mkConfig "lib" 0 false "" 0 0 0 None) (Some (mkSession card_ctx 1 0)) 0 true ∅, SoftToken.mkToken objs None).

Lemma start_fine objs : (size objs ≤ 100)%nat → fine provider card_ctx 1 (start objs).
Proof. intros Hs. split; [split; [by exists 0|by left]|exact Hs]. Qed.

Definition card_agents : Type := Agents provider card_ctx 1.
Definition card_agent : string → Client card_agents :=
  agent_of New provider SoftToken.enc SoftToken.dec card_ctx 1 Z.le.
#[global] Instance card_view : StoreView card_agents := agents_view provider SoftToken.enc SoftToken.dec card_ctx 1 Z.le.

Lemma card_client serial : ClientLaws serial (card_agent serial).
Proof. apply pkcs11_implements_client. Qed.

Definition server_of (serial : string) : Request → ST card_agents (result Response) :=
  serve GrpcClientWitness.no_log (NewGRPCServer (Some (card_agent serial)) 9090 8093 (mkTime 0 0)).
Definition dial (tls : option unit) (ep : string) : ST card_agents (result (Conn card_agents * (Request → ST card_agents (result Response)))) :=
  st_ret (Ok (GrpcClientWitness.loopback, server_of (AgentsWitness.serial_at ep))).
Definition clock : ST card_agents Z := st_ret 7.

#[global] Instance card_dial : DialLaws clock dial AgentsWitness.serial_at.
Proof.
  split; try (intros; apply (preserves_ret unchanged)). intros tls ep w conn server [= <- <-]. split; [apply _|].
  exists GrpcClientWitness.no_log, (card_agent (AgentsWitness.serial_at ep)), 9090, 8093, (mkTime 0 0).
  split_and!; [done|apply card_client|done].
Qed.

Definition List_Pods (ns : option string) (labels : gmap string string) : ST card_agents (result (list Pod)) :=
  st_ret (Ok (filter (λ pod, om_Labels (pod_meta pod) !! "hsm.j5t.io/serial-number" = labels !! "hsm.j5t.io/serial-number") AgentsWitness.pods)).
Definition List_HSMPools : ST card_agents (result (list HSMPool)) := st_ret (Ok []).

#[global] Instance card_cluster : ClusterLaws AgentsWitness.serial_at List_Pods List_HSMPools.
Proof.
  split; try (intros; apply (preserves_ret unchanged)). intros serial w l pod ip ips E. injection E as <-.
  destruct AgentsWitness.cluster_laws as [_ _ Hserve]. by apply (Hserve serial ∅).
Qed.

Definition am := restricted_manager clock dial AgentsWitness.serial_at List_Pods List_HSMPools.
Theorem card_agents_implement :
  AgentLaws am (restrict AgentsWitness.serial_at (on_net (st_ret (mkTime 0 0))) (keeps_net AgentsWitness.serial_at (st_ret (mkTime 0 0)))).
Proof. apply manager_laws, (preserves_ret unchanged). Qed.

(** Through the manager's client of "A" a secret is written that is then read again, and
    the secret "app2" that "app" overlaps is gone, "web" is not. *)
Definition objs0 : gmap Z (string * string) := <[1 := ("app2/k", "y")]> (<[2 := ("web/k", "z")]> ∅).
Lemma objs0_fine : fine provider card_ctx 1 (start objs0).
Proof. apply start_fine. apply (bool_decide_unpack _). vm_compute. done. Qed.
Definition agents0 : card_agents := λ _, exist _ (start objs0) objs0_fine.
Example card_write_read :
  let c := card_agent "A" in
  let '(r, ws) := c_WriteSecret c "app" (<["user" := "u"]> ∅) None agents0 in
  (r, sec_at ws "A" "app", sec_at ws "A" "app2", sec_at ws "A" "web", sec_at ws "B" "app2") =
  (Ok (), Some (<["user" := "u"]> ∅), None, Some (<["k" := "z"]> ∅), Some (<["k" := "y"]> ∅)).
Proof. vm_compute. reflexivity. Qed.
End CardAgents.
