(* ===== verification/PoolAgents.v ===== *)
(** * internal/controller/hsmpool_agent_controller.go: agents for ready pools

    One reconciliation of the agents of an HSMPool: a deployment per discovered
    serial number on the node of its device, recreated when it drifts, reaped when
    its device is gone.  The Kubernetes client, the clock and the agent manager are
    arguments. *)

From Stdlib Require Import Ascii.
From S2P Require Import Prelude GoStd Api Kube PoolController Agents.

Local Open Scope go_scope.

(** ** internal/config/image_utils.go *)
Module Images.
Section Images.
Context {W : Type} (Client : KubeClient W).

(* [internal/config/image_utils.go:27-27] *)
Definition defaultImage : string := "ghcr.io/evanjarrett/hsm-secrets-operator:latest".

(** The image of the first container called manager. *)
(* [internal/config/image_utils.go:60-67 GetManagerImage] *)
Definition manager_image (deployments : list Deployment) : string :=
  match filter (λ c, ct_Name c = "manager") (deployments ≫= λ d, ps_Containers (dp_PodSpec d)) with
  | c :: _ => ct_Image c
  | [] => ""
  end.

(* [internal/config/image_utils.go:42-71] *)
Definition GetManagerImage : ST W string :=
  let* l := api_List (Deployments Client) None
    (<["app.kubernetes.io/name" := "hsm-secrets-operator"]> {["control-plane" := "controller-manager"]}) in
  st_ret match l with Err _ => "" | Ok deployments => manager_image deployments end.

(* [internal/config/image_utils.go:73-86] *)
Definition GetImage (imageName : string) : ST W string :=
  if bool_decide (imageName ≠ "") then st_ret imageName
  else
    let* managerImage := GetManagerImage in
    st_ret (if bool_decide (managerImage ≠ "") then managerImage else defaultImage).
End Images.
End Images.

(** ** Constants *)
(* [internal/controller/hsmpool_agent_controller.go:55-55] *)
Definition AgentHealthPort : Z := 8093.
(* [internal/controller/hsmpool_agent_controller.go:58-58] *)
Definition agentTLSVolumeName : string := "agent-mtls".
(* [internal/controller/hsmpool_agent_controller.go:60-60] *)
Definition agentTLSMountPath : string := "/etc/hsm/tls".
(* [internal/controller/hsmpool_agent_controller.go:64-64] *)
Definition reasonUnexpectedAdmissionError : string := "UnexpectedAdmissionError".
(* [internal/controller/hsmpool_agent_controller.go:69-69] *)
Definition discoveryNotReadyRequeue : Z := 20 * Second.
(* [internal/controller/hsmpool_agent_controller.go:78-78] *)
Definition errDiscoveryNotReady : error := errorf "discovery pod not ready on node".

(** [stderrors.Join], for errors that are only printed. *)
Definition join_errors (errs : list error) : option error :=
  match errs with
  | [] => None
  | _ => Some (errorf (str_join (String "010" "") (error_string <$> errs)))
  end.

(* [internal/controller/hsmpool_agent_controller.go:1189-1194 sanitizeLabelValue] *)
Definition label_rune (r : ascii) : ascii :=
  if is_alnum r || bool_decide (r = "-"%char) || bool_decide (r = "_"%char) || bool_decide (r = "."%char) then r
  else "-"%char.

(** [strings.TrimFunc] of what is not alphanumeric. *)
Fixpoint trim_left_alnum (s : string) : string :=
  match s with
  | EmptyString => ""
  | String c s' => if is_alnum c then s else trim_left_alnum s'
  end.
Fixpoint trim_right_alnum (s : string) : string :=
  match s with
  | EmptyString => ""
  | String c s' => match trim_right_alnum s' with
                   | EmptyString => if is_alnum c then String c "" else ""
                   | t => String c t
                   end
  end.
Definition trim_alnum (s : string) : string := trim_right_alnum (trim_left_alnum s).

(* [internal/controller/hsmpool_agent_controller.go:1183-1211] *)
Definition sanitizeLabelValue (value : string) : string :=
  if str_len value =? 0 then value
  else
    let sanitized := trim_alnum (map_runes label_rune "-" 0 value) in
    if 63 <? str_len sanitized then trim_alnum (str_take 63 sanitized) else sanitized.

(** ** Drift *)

(* [internal/controller/hsmpool_agent_controller.go:702-707] *)
Definition isDeploymentOnNode (deployment : Deployment) (nodeName : string) : bool :=
  match ps_NodeSelector (dp_PodSpec deployment) with
  | Some selector => bool_decide (default "" (selector !! labelHostname) = nodeName)
  | None => false
  end.

(* [internal/controller/hsmpool_agent_controller.go:710-715] *)
Definition getDeploymentNode (deployment : Deployment) : string :=
  match ps_NodeSelector (dp_PodSpec deployment) with
  | Some selector => default "" (selector !! labelHostname)
  | None => ""
  end.

(* [internal/controller/hsmpool_agent_controller.go:1075-1089] *)
Definition securityContextNeedsUpdate (sc : option SecurityContext) : bool :=
  match sc with
  | None => true
  | Some sc =>
      if bool_decide (sc_Privileged sc = Some true) then true
      else if default true (sc_AllowPrivilegeEscalation sc) then true
      else if negb (default false (sc_ReadOnlyRootFilesystem sc)) then true
      else match sc_Drop sc with
           | None => true
           | Some drop => negb (bool_decide (capabilityAll ∈ drop))
           end
  end.

(** Some term requires the host name to be one of a list with [nodeName]. *)
(* [internal/controller/hsmpool_agent_controller.go:1108-1117 deploymentNeedsUpdateForDevice] *)
Definition node_matches (terms : list (list NodeSelectorRequirement)) (nodeName : string) : bool :=
  existsb (existsb (λ expr, bool_decide (nr_Key expr = labelHostname) && bool_decide (nr_Operator expr = "In") &&
                            bool_decide (nodeName ∈ nr_Values expr))) terms.

(* [internal/controller/hsmpool_agent_controller.go:1093-1133] *)
Definition deploymentNeedsUpdateForDevice (deployment : Deployment) (aggregatedDevice : DiscoveredDevice) : bool :=
  match ps_RequiredTerms (dp_PodSpec deployment) with
  | None => true
  | Some terms =>
      if bool_decide (terms = []) then true
      else if negb (node_matches terms (dd_NodeName aggregatedDevice)) then true
      else existsb (λ vol, bool_decide (vol_Name vol = volumeNameHSMDevice) &&
                           match vol_Source vol with
                           | HostPath path _ => bool_decide (path ≠ dd_DevicePath aggregatedDevice)
                           | _ => false
                           end) (ps_Volumes (dp_PodSpec deployment))
  end.

(** ** The reconciler *)

(** What the controller asks of the agent manager. *)
(* [internal/agent/manager.go:40-43] *)
Record ManagerInterface (W : Type) := mkManagerInterface {
  mi_EnsureAgent : HSMPool → ST W (result unit);
  mi_CleanupAgent : HSMDevice → ST W (result unit);
}.
Arguments mkManagerInterface {W}.
Arguments mi_EnsureAgent {W}.
Arguments mi_CleanupAgent {W}.

(** [ImageResolver] says whether the field is set; its client is the reconciler's. *)
(* [internal/controller/hsmpool_agent_controller.go:81-98] *)
Record HSMPoolAgentReconciler (W : Type) := mkReconciler {
  AgentManager : option (ManagerInterface W);
  ImageResolver : bool;
  AgentImage : string;
  ServiceAccountName : string;
  AgentTLSEnabled : bool;
  AgentTLSSecretName : string;
  DeviceAbsenceTimeout : Z;
}.
Arguments mkReconciler {W}.
Arguments AgentManager {W}.
Arguments ImageResolver {W}.
Arguments AgentImage {W}.
Arguments ServiceAccountName {W}.
Arguments AgentTLSEnabled {W}.
Arguments AgentTLSSecretName {W}.
Arguments DeviceAbsenceTimeout {W}.

(** [r.AgentTLSEnabled && r.AgentTLSSecretName != ""] *)
(* [internal/controller/hsmpool_agent_controller.go:1145-1145 buildAgentArgs] *)
Definition want_tls {W} (r : HSMPoolAgentReconciler W) : bool :=
  AgentTLSEnabled r && bool_decide (AgentTLSSecretName r ≠ "").

(* [internal/controller/hsmpool_agent_controller.go:992-1015] *)
Definition injectAgentTLS {W} (r : HSMPoolAgentReconciler W) (podSpec : PodSpec) : PodSpec :=
  if negb (AgentTLSEnabled r) || bool_decide (AgentTLSSecretName r = "") then podSpec
  else mkPodSpec (ps_NodeSelector podSpec) (ps_RequiredTerms podSpec) (ps_SecurityContext podSpec)
    (ps_ServiceAccountName podSpec)
    ((λ c, mkContainer (ct_Name c) (ct_Image c) (ct_Args c) (ct_Env c) (ct_Ports c) (ct_LivenessProbe c)
        (ct_ReadinessProbe c) (ct_Requests c) (ct_Limits c) (ct_SecurityContext c)
        (ct_VolumeMounts c ++ [mkMount agentTLSVolumeName agentTLSMountPath true])) <$> ps_Containers podSpec)
    (ps_Volumes podSpec ++ [mkVolume agentTLSVolumeName (SecretVolume (AgentTLSSecretName r) (Some 256))])
    (ps_Tolerations podSpec).

(** The arguments that do not depend on the HSMDevice, and those that do. *)
(* [internal/controller/hsmpool_agent_controller.go:1137-1151 buildAgentArgs] *)
Definition basic_args {W} (r : HSMPoolAgentReconciler W) (deviceName : string) : list string :=
  ["--mode=agent"; "--device-name=" +:+ deviceName; "--port=" +:+ go_itoa AgentPort;
   "--health-port=" +:+ go_itoa AgentHealthPort] ++
  (if want_tls r then
     ["--tls-cert-file=" +:+ agentTLSMountPath +:+ "/tls.crt"; "--tls-key-file=" +:+ agentTLSMountPath +:+ "/tls.key";
      "--tls-client-ca-file=" +:+ agentTLSMountPath +:+ "/ca.crt"]
   else []).

(* [internal/controller/hsmpool_agent_controller.go:1163-1176 buildAgentArgs] *)
Definition pkcs11_args (hsmDevice : HSMDevice) : list string :=
  match hd_PKCS11 (hd_Spec hsmDevice) with
  | None => []
  | Some p =>
      (if bool_decide (pk_TokenLabel p ≠ "") then ["--token-label=" +:+ pk_TokenLabel p] else []) ++
      (if 0 <=? pk_SlotId p then ["--slot-id=" +:+ go_itoa (pk_SlotId p)] else []) ++
      (if bool_decide (pk_LibraryPath p ≠ "") then ["--pkcs11-library=" +:+ pk_LibraryPath p] else [])
  end.

(** The pod of an agent, but for the TLS mount. *)
(* [internal/controller/hsmpool_agent_controller.go:822-980 createAgentDeployment] *)
Definition agent_pod_spec (serviceAccount image resourceName targetNode : string) (args : list string) : PodSpec :=
  mkPodSpec (Some {[labelHostname := targetNode]}) (Some [[mkRequirement labelHostname "In" [targetNode]]])
    (Some (mkPodSecurityContext (Some 0) (Some 0) (Some false) None)) serviceAccount
    [mkContainer componentAgent image args []
       [mkPort "grpc" AgentPort "TCP"; mkPort "health" AgentHealthPort "TCP"]
       (Some (mkProbe "/healthz" AgentHealthPort 15 20 3 3))
       (Some (mkProbe "/readyz" AgentHealthPort 5 10 3 2))
       (<[resourceName := "1"]> {["cpu" := "100m"; "memory" := "128Mi"]})
       (<[resourceName := "1"]> {["cpu" := "500m"; "memory" := "256Mi"]})
       (Some (mkSecurityContext (Some false) (Some false) (Some [capabilityAll]) (Some true) (Some false) (Some 0)
                (Some "RuntimeDefault")))
       [mkMount "tmp" "/tmp" false; mkMount "pcscd-run" "/run/pcscd" false; mkMount "pcscd-lock" "/var/lock/pcsc" false]]
    [mkVolume "tmp" EmptyDir; mkVolume "pcscd-run" EmptyDir; mkVolume "pcscd-lock" EmptyDir] [].

(* [internal/controller/hsmpool_agent_controller.go:781-790 createAgentDeployment] *)
Definition agent_deployment_labels (agentName deviceName : string) (device : DiscoveredDevice) : gmap string string :=
  <[labelApp := agentName]> (<[labelAppComponent := AgentNamePrefix]>
  (<["app.kubernetes.io/instance" := agentName]> (<[labelAppName := AgentNamePrefix]>
  (<["app.kubernetes.io/part-of" := appNameHSMOperator]> (<[labelHSMDevice := deviceName]>
  (<[labelSerialNumber := dd_SerialNumber device]>
  {["hsm.j5t.io/device-path" := sanitizeLabelValue (dd_DevicePath device)]})))))).

Definition new_meta (name namespace : string) (labels : gmap string string) : ObjectMeta :=
  mkObjectMeta name namespace "" 0 labels ∅ [] None [] zero_time 0.

(* [internal/controller/hsmpool_agent_controller.go:777-984 createAgentDeployment] *)
Definition agent_deployment {W} (r : HSMPoolAgentReconciler W) (hsmPool : HSMPool) (hsmDevice : HSMDevice)
    (deviceName image : string) (args : list string) (device : DiscoveredDevice) (agentName : string) : Deployment :=
  let labels := agent_deployment_labels agentName deviceName device in
  mkDeployment (new_meta agentName (om_Namespace (hp_meta hsmPool)) labels) 1 "Recreate" {[labelApp := agentName]} labels
    (injectAgentTLS r (agent_pod_spec (ServiceAccountName r) image
      ("hsm.j5t.io/" +:+ to_lower (hd_DeviceType (hd_Spec hsmDevice))) (dd_NodeName device) args)).

(** The active and the lost device of a serial number: the last of each kind. *)
(* [internal/controller/hsmpool_agent_controller.go:452-463 ensureAgentDeployments] *)
Definition active_and_lost (devices : list DiscoveredDevice) : option DiscoveredDevice * option DiscoveredDevice :=
  fold_left (λ '(active, lost) dev, if dd_Available dev then (Some dev, lost) else (active, Some dev))
    devices (None, None).

(* [internal/controller/hsmpool_agent_controller.go:418-422 ensureAgentDeployments] *)
Definition group_by_serial (devices : list DiscoveredDevice) : gmap string (list DiscoveredDevice) :=
  fold_left (λ m d, <[dd_SerialNumber d := default [] (m !! dd_SerialNumber d) ++ [d]]> m) devices ∅.

(** [errs] and [deferred] of the loop, and [collect]. *)
Definition EnsureState : Type := list error * bool.
(* [internal/controller/hsmpool_agent_controller.go:428-440 ensureAgentDeployments] *)
Definition collect (err : error) (msg serial : string) (s : EnsureState) : EnsureState :=
  if errors_Is err errDiscoveryNotReady then (s.1, true)
  else (s.1 ++ [wrapf (msg +:+ " " +:+ serial) err], s.2).

(** The grace period of a pool: 5 minutes unless it is set. *)
Definition grace_period (hsmPool : HSMPool) : Z := default (5 * Minute) (hp_GracePeriod (hp_Spec hsmPool)).

(** Whether a device is available, and the latest time one was seen before the first
    available one. *)
(* [internal/controller/hsmpool_agent_controller.go:326-338 cleanupStaleAgents] *)
Fixpoint last_seen (lastSeenTime : Time) (devices : list DiscoveredDevice) : bool * Time :=
  match devices with
  | [] => (false, lastSeenTime)
  | d :: rest =>
      if dd_Available d then (true, lastSeenTime)
      else last_seen (if t_unix lastSeenTime <? t_unix (dd_LastSeen d) then dd_LastSeen d else lastSeenTime) rest
  end.

Section Controller.
Context {W : Type} `{MapOrder} (k : KubeClient W) (time_Now : ST W Z) (r : HSMPoolAgentReconciler W).

Definition since (t : Time) : ST W Z := let* now := time_Now in st_ret (time_Since now t).
Definition pool_ns (hsmPool : HSMPool) : string := om_Namespace (hp_meta hsmPool).

(** [hsmPool.OwnerReferences[0].Name]; the callers have checked that there is one. *)
Definition owner_name (hsmPool : HSMPool) : result string :=
  match om_OwnerReferences (hp_meta hsmPool) with
  | owner :: _ => Ok (or_Name owner)
  | [] => Err index_out_of_range
  end.

(** [if err := r.Delete(ctx, o); err != nil && !errors.IsNotFound(err)]: the error left. *)
Definition delete_error {T} (api : ObjectApi W T) (o : T) : ST W (option error) :=
  let* d := api_Delete api o in
  st_ret match d with Err e => if IsNotFound e then None else Some e | Ok _ => None end.

(** [AgentImage], or the image the resolver finds. *)
(* [internal/controller/hsmpool_agent_controller.go:760-767 createAgentDeployment] *)
Definition agent_image : ST W string :=
  if bool_decide (AgentImage r ≠ "") then st_ret (AgentImage r)
  else if ImageResolver r then Images.GetImage k "" else st_ret "".

(* [internal/controller/hsmpool_agent_controller.go:1136-1179] *)
Definition buildAgentArgs (hsmPool : HSMPool) (deviceName : string) : ST W (list string) :=
  let* g := api_Get (HSMDevices k) (pool_ns hsmPool) deviceName in
  st_ret (basic_args r deviceName ++ match g with Err _ => [] | Ok hsmDevice => pkcs11_args hsmDevice end).

(* [internal/controller/hsmpool_agent_controller.go:732-987] *)
Definition createAgentDeployment (hsmPool : HSMPool) (specificDevice : DiscoveredDevice) (agentName : string) :
    ST W (result unit) :=
  if bool_decide (agentName = "") then st_ret (Err (errorf "agentName is required"))
  else
    st_try (st_ret (owner_name hsmPool)) (λ e, e) (λ deviceName,
    st_try (api_Get (HSMDevices k) (pool_ns hsmPool) deviceName) (wrapf ("failed to get HSMDevice " +:+ deviceName))
      (λ hsmDevice,
        let* image := agent_image in
        let* args := buildAgentArgs hsmPool deviceName in
        st_try (api_Create (Deployments k) (agent_deployment r hsmPool hsmDevice deviceName image args specificDevice agentName))
          (λ e, e) (λ _, st_ret (Ok ())))).

(* [internal/controller/hsmpool_agent_controller.go:1018-1068] *)
Definition agentNeedsUpdate (deployment : Deployment) : ST W (result bool) :=
  match ps_Containers (dp_PodSpec deployment) with
  | [] => st_ret (Err (errorf "deployment has no containers"))
  | container :: _ =>
      let* expectedImage := agent_image in
      st_ret (Ok
        (if bool_decide (expectedImage ≠ "") && bool_decide (ct_Image container ≠ expectedImage) then true
         else
           let hasTLSVolume := existsb (λ vol, bool_decide (vol_Name vol = agentTLSVolumeName))
                                 (ps_Volumes (dp_PodSpec deployment)) in
           if negb (Bool.eqb (want_tls r) hasTLSVolume) then true
           else securityContextNeedsUpdate (ct_SecurityContext container)))
  end.

(** What the first discovery pod on the node that is not being deleted says. *)
(* [internal/controller/hsmpool_agent_controller.go:576-598 discoveryCurrentOnNode] *)
Fixpoint discovery_verdict (generation : Z) (nodeName : string) (pods : list Pod) : bool * string :=
  match pods with
  | [] => (false, "no discovery pod on node")
  | pod :: rest =>
      if bool_decide (pod_NodeName pod ≠ nodeName) || bool_decide (om_DeletionTimestamp (pod_meta pod) ≠ None)
      then discovery_verdict generation nodeName rest
      else if bool_decide (default "" (om_Labels (pod_meta pod) !! "pod-template-generation") ≠ go_itoa generation)
      then (false, "discovery pod is running an outdated template")
      else if bool_decide (pod_Phase pod ≠ PodRunning) then (false, "discovery pod is " +:+ pod_Phase pod)
      else match filter (λ c, c.1 = PodReady) (pod_Conditions pod) with
           | (_, status) :: _ => if bool_decide (status = ConditionTrue) then (true, "")
                                 else (false, "discovery pod is not ready")
           | [] => (false, "discovery pod is not ready")
           end
  end.

(* [internal/controller/hsmpool_agent_controller.go:552-599] *)
Definition discoveryCurrentOnNode (hsmPool : HSMPool) (nodeName : string) : ST W (result (bool * string)) :=
  st_try (st_ret (owner_name hsmPool)) (λ e, e) (λ deviceName,
  let* g := api_Get (DaemonSets k) (pool_ns hsmPool) (deviceName +:+ "-discovery") in
  match g with
  | Err err =>
      st_ret (if IsNotFound err then Ok (true, "") else Err (wrapf "failed to get discovery DaemonSet" err))
  | Ok ds =>
      st_try (api_List (Pods k) (Some (pool_ns hsmPool))
                (<[labelAppComponent := componentDiscovery]> {[labelHSMDevice := deviceName]}))
        (wrapf "failed to list discovery pods") (λ pods,
        st_ret (Ok (discovery_verdict (om_Generation (ds_meta ds)) nodeName pods)))
  end).

(* [internal/controller/hsmpool_agent_controller.go:603-612] *)
Definition gateOnDiscovery (hsmPool : HSMPool) (nodeName : string) : ST W (result unit) :=
  st_try (discoveryCurrentOnNode hsmPool nodeName) (λ e, e) (λ '(current, reason),
    st_ret (if negb current
            then Err (wrap_after errDiscoveryNotReady (" " +:+ quoted nodeName +:+ ": " +:+ reason))
            else Ok ())).

(** The part of [ensureAgentOnNode] after the old deployment, if any, is gone. *)
(* [internal/controller/hsmpool_agent_controller.go:686-698 ensureAgentOnNode] *)
Definition gate_and_create (hsmPool : HSMPool) (device : DiscoveredDevice) (agentName : string) : ST W (result unit) :=
  st_try (gateOnDiscovery hsmPool (dd_NodeName device)) (λ e, e) (λ _,
    createAgentDeployment hsmPool device agentName).

(** Gate, delete the old deployment, and fall through to its creation. *)
(* [internal/controller/hsmpool_agent_controller.go:628-644 ensureAgentOnNode] *)
Definition recreate (hsmPool : HSMPool) (device : DiscoveredDevice) (agentName : string) (deployment : Deployment) :
    ST W (result unit) :=
  st_try (gateOnDiscovery hsmPool (dd_NodeName device)) (λ e, e) (λ _,
    let* d := delete_error (Deployments k) deployment in
    match d with
    | Some err => st_ret (Err (wrapf "failed to delete outdated agent" err))
    | None => gate_and_create hsmPool device agentName
    end).

(* [internal/controller/hsmpool_agent_controller.go:615-699] *)
Definition ensureAgentOnNode (hsmPool : HSMPool) (device : DiscoveredDevice) (agentName : string) : ST W (result unit) :=
  let* g := api_Get (Deployments k) (pool_ns hsmPool) agentName in
  match g with
  | Ok deployment =>
      if negb (isDeploymentOnNode deployment (dd_NodeName device))
      then recreate hsmPool device agentName deployment
      else
        st_try (agentNeedsUpdate deployment) (wrapf "failed to check if agent needs update") (λ needsUpdate,
          if needsUpdate || deploymentNeedsUpdateForDevice deployment device
          then recreate hsmPool device agentName deployment
          else st_ret (Ok ()))
  | Err err =>
      if negb (IsNotFound err) then st_ret (Err (wrapf "failed to check agent deployment" err))
      else gate_and_create hsmPool device agentName
  end.

(* [internal/controller/hsmpool_agent_controller.go:718-729] *)
Definition deleteAgent (name namespace : string) : ST W (result unit) :=
  let* d := delete_error (Deployments k)
              (mkDeployment (new_meta name namespace ∅) 0 "" ∅ ∅ (mkPodSpec None None None "" [] [] [])) in
  st_ret match d with
         | Some err => Err (wrapf ("failed to delete agent deployment " +:+ name) err)
         | None => Ok ()
         end.

(** [if err := r.ensureAgentOnNode(...); err != nil { collect(err, msg, serial) }] *)
Definition ensure_or_collect (hsmPool : HSMPool) (device : DiscoveredDevice) (agentName msg serial : string)
    (s : EnsureState) : ST W EnsureState :=
  let* e := ensureAgentOnNode hsmPool device agentName in
  st_ret match e with Ok _ => s | Err err => collect err msg serial s end.

(** The loop body for one serial number. *)
(* [internal/controller/hsmpool_agent_controller.go:442-528 ensureAgentDeployments] *)
Definition ensure_serial (hsmPool : HSMPool) (deviceName : string) (s : EnsureState)
    (sd : string * list DiscoveredDevice) : ST W EnsureState :=
  let (serial, devices) := sd in
  match Agents.AgentInstanceName deviceName serial with
  | None => st_ret s
  | Some agentName =>
      match active_and_lost devices with
      | (Some activeDevice, Some lostDevice) =>
          let* timeSinceLost := since (dd_LastSeen lostDevice) in
          let gracePeriod := grace_period hsmPool in
          if (timeSinceLost <? gracePeriod) && bool_decide (dd_NodeName activeDevice ≠ dd_NodeName lostDevice)
          then ensure_or_collect hsmPool activeDevice agentName "migration failed for" serial s
          else if timeSinceLost <? gracePeriod
          then ensure_or_collect hsmPool activeDevice agentName "reconnection failed for" serial s
          else st_ret s
      | (Some activeDevice, None) =>
          ensure_or_collect hsmPool activeDevice agentName "agent creation failed for" serial s
      | (None, Some lostDevice) =>
          let* timeSinceLost := since (dd_LastSeen lostDevice) in
          if grace_period hsmPool <? timeSinceLost then
            let* d := deleteAgent agentName (pool_ns hsmPool) in
            st_ret match d with
                   | Err err => (s.1 ++ [wrapf ("cleanup failed for " +:+ serial) err], s.2)
                   | Ok _ => s
                   end
          else st_ret s
      | (None, None) => st_ret s
      end
  end.

(* [internal/controller/hsmpool_agent_controller.go:415-543] *)
Definition ensureAgentDeployments (hsmPool : HSMPool) : ST W (result unit) :=
  st_try (st_ret (owner_name hsmPool)) (λ e, e) (λ deviceName,
  let* s := st_fold (ensure_serial hsmPool deviceName)
              (range (group_by_serial (ps_AggregatedDevices (hp_Status hsmPool)))) ([], false) in
  st_ret match s with
         | ([], deferred) => if deferred then Err errDiscoveryNotReady else Ok ()
         | (deploymentErrors, _) => Err (errorf ("deployment errors occurred: " +:+ print_errors deploymentErrors))
         end).

(** The names of the agents of all devices of the pool. *)
(* [internal/controller/hsmpool_agent_controller.go:249-254 reapOrphanedAgents] *)
Definition expected_agents (deviceName : string) (devices : list DiscoveredDevice) : gset string :=
  list_to_set (omap (λ d, Agents.AgentInstanceName deviceName (dd_SerialNumber d)) devices).

(* [internal/controller/hsmpool_agent_controller.go:241-291] *)
Definition reapOrphanedAgents (hsmPool : HSMPool) : ST W (option error) :=
  match owner_name hsmPool with
  | Err e => st_ret (Some e)
  | Ok deviceName =>
      let expected := expected_agents deviceName (ps_AggregatedDevices (hp_Status hsmPool)) in
      if bool_decide (expected = ∅) then st_ret None
      else
        let* l := api_List (Deployments k) (Some (pool_ns hsmPool))
                    (<[labelAppName := AgentNamePrefix]> {[labelHSMDevice := deviceName]}) in
        match l with
        | Err err => st_ret (Some (wrapf "failed to list agent deployments" err))
        | Ok deployments =>
            let* errs := st_fold (λ errs deployment,
              if bool_decide (om_Name (dp_meta deployment) ∈ expected) then st_ret errs
              else
                let* d := delete_error (Deployments k) deployment in
                st_ret match d with
                       | Some err => errs ++ [wrapf ("failed to delete orphaned agent " +:+ om_Name (dp_meta deployment)) err]
                       | None => errs
                       end) deployments [] in
            st_ret (join_errors errs)
        end
  end.

(* [internal/controller/hsmpool_agent_controller.go:380-409] *)
Definition cleanupAgentDeployments (hsmDevice : HSMDevice) : ST W (option error) :=
  let* l := api_List (Deployments k) (Some (om_Namespace (hd_meta hsmDevice))) ∅ in
  match l with
  | Err err => st_ret (Some (wrapf "failed to list deployments" err))
  | Ok deploymentList =>
      do! st_fold (λ _ deployment,
        if bool_decide (om_Labels (dp_meta deployment) !! labelHSMDevice = Some (om_Name (hd_meta hsmDevice)))
        then do! delete_error (Deployments k) deployment in st_ret ()
        else st_ret ()) deploymentList () in
      match AgentManager r with
      | Some m => do! mi_CleanupAgent m hsmDevice in st_ret None
      | None => st_ret None
      end
  end.

(* [internal/controller/hsmpool_agent_controller.go:295-376] *)
Definition cleanupStaleAgents (hsmPool : HSMPool) : ST W unit :=
  let absenceTimeout := if DeviceAbsenceTimeout r =? 0 then to_int64 (2 * grace_period hsmPool)
                        else DeviceAbsenceTimeout r in
  match om_OwnerReferences (hp_meta hsmPool) with
  | [] => st_ret ()
  | owner :: _ =>
      let* g := api_Get (HSMDevices k) (pool_ns hsmPool) (or_Name owner) in
      match g with
      | Err _ => st_ret ()
      | Ok hsmDevice =>
          let (deviceAvailable, lastSeenTime) := last_seen zero_time (ps_AggregatedDevices (hp_Status hsmPool)) in
          if deviceAvailable then st_ret ()
          else
            let* timeSinceLastSeen := since lastSeenTime in
            if IsZero lastSeenTime then
              let* poolAge := since (om_CreationTimestamp (hp_meta hsmPool)) in
              if absenceTimeout <? poolAge then do! cleanupAgentDeployments hsmDevice in st_ret () else st_ret ()
            else if absenceTimeout <? timeSinceLastSeen
            then do! cleanupAgentDeployments hsmDevice in st_ret ()
            else st_ret ()
      end
  end.

(* [internal/controller/hsmpool_agent_controller.go:192-215] *)
Definition cleanupRejectedAgentPods (namespace : string) : ST W (option error) :=
  let* l := api_List (Pods k) (Some namespace) {[labelAppName := AgentNamePrefix]} in
  match l with
  | Err err => st_ret (Some (wrapf "failed to list agent pods" err))
  | Ok pods =>
      let* errs := st_fold (λ errs pod,
        if bool_decide (pod_Phase pod ≠ PodFailed) || bool_decide (pod_Reason pod ≠ reasonUnexpectedAdmissionError)
        then st_ret errs
        else
          let* d := delete_error (Pods k) pod in
          st_ret match d with Some err => errs ++ [err] | None => errs end) pods [] in
      st_ret (join_errors errs)
  end.

(** The two cleanups that end every reconciliation. *)
(* [internal/controller/hsmpool_agent_controller.go:172-186 Reconcile] *)
Definition cleanups (hsmPool : HSMPool) : ST W Outcome :=
  do! cleanupStaleAgents hsmPool in
  do! cleanupRejectedAgentPods (pool_ns hsmPool) in
  st_ret done.

(* [internal/controller/hsmpool_agent_controller.go:108-187] *)
Definition Reconcile (ns name : string) : ST W Outcome :=
  let* g := api_Get (HSMPools k) ns name in
  match g with
  | Err err => st_ret match IgnoreNotFound err with Ok _ => done | Err e => failed e end
  | Ok hsmPool =>
      if bool_decide (ps_Phase (hp_Status hsmPool) = HSMPoolPhaseReady) &&
         bool_decide (ps_AggregatedDevices (hp_Status hsmPool) ≠ []) then
        match om_OwnerReferences (hp_meta hsmPool) with
        | [] => st_ret done
        | owner :: _ =>
            let* d := api_Get (HSMDevices k) (pool_ns hsmPool) (or_Name owner) in
            match d with
            | Err _ => st_ret done
            | Ok _ =>
                let* e := ensureAgentDeployments hsmPool in
                match e with
                | Err err => st_ret (if errors_Is err errDiscoveryNotReady
                                     then requeue_after discoveryNotReadyRequeue else failed err)
                | Ok _ =>
                    do! reapOrphanedAgents hsmPool in
                    do! match AgentManager r with
                        | Some m => do! mi_EnsureAgent m hsmPool in st_ret ()
                        | None => st_ret ()
                        end in
                    cleanups hsmPool
                end
            end
        end
      else cleanups hsmPool
  end.

(* [internal/controller/hsmpool_agent_controller.go:1226-1249] *)
Definition findPoolsForDeployment (deployment : Deployment) : list (string * string) :=
  match om_Labels (dp_meta deployment) !! labelHSMDevice with
  | None => []
  | Some deviceName => [(om_Namespace (dp_meta deployment), deviceName +:+ "-pool")]
  end.
End Controller.
