(* ===== verification/PoolAgentsSpec.v ===== *)
(** * What the pool agent controller guarantees

    A deployment it has made or accepted is not made again; no agent is taken away
    while its node cannot admit the replacement; reaping removes the agents of vanished
    devices only; and what an empty aggregation does to running agents. *)

From S2P Require Import Prelude GoStd Api Kube PoolController Agents PoolAgents.

Local Open Scope go_scope.

(** ** Lemmas: deleting the objects of a list *)
Section Deleting.
Context {W : Type} `{!ClusterView W} {T : Type} `{!Kind T, !LawfulKind T} (api : ObjectApi W T) `{!ApiLaws api}.

Lemma delete_error_run (t : T) w e w' :
  delete_error api t w = (e, w') →
  touches (T := T) (eq (key_of t)) w w' ∧ (e = None → gone (T := T) (objects w') (key_of t)) ∧
  ∀ key, gone (T := T) (objects w) key → gone (T := T) (objects w') key.
Proof.
  unfold delete_error, st_bind, st_ret. destruct (api_Delete api t w) as [[[]|e0] w1] eqn:E; intros [= <- <-];
    pose proof E as Ht; apply (Delete_touches _ (eq (key_of t))) in Ht; try done; apply api_Delete_law in E.
  - split; [done|]. split; [intros _|intros key Hg]; (eapply deleted_gone; [exact E|]); auto.
  - destruct E as [E Hnf]. split; [done|]. split.
    + destruct (IsNotFound e0); [|done]. intros _. destruct Hnf as [Ho Hl]; [done|]. unfold gone. by rewrite Ho, Hl.
    + intros key Hg. destruct E as [->|E]; [done|]. eapply deleted_gone; [exact E|]. auto.
Qed.

(** A loop whose steps delete the selected objects; [ok] says that no deletion of the
    loop has failed. *)
Lemma delete_loop_run {S} (f : S → T → ST W S) (sel : T → bool) (ok : S → Prop) l s w s' w' :
  (∀ s t w s' w', t ∈ l → f s t w = (s', w') → (ok s' → ok s) ∧
     if sel t then ∃ e, delete_error api t w = (e, w') ∧ (ok s' → e = None) else w' = w) →
  st_fold f l s w = (s', w') →
  touches (T := T) (λ key, ∃ t, t ∈ l ∧ sel t = true ∧ key = key_of t) w w' ∧
  (∀ key, gone (T := T) (objects w) key → gone (T := T) (objects w') key) ∧
  (ok s' → ok s ∧ ∀ t, t ∈ l → sel t = true → gone (T := T) (objects w') (key_of t)).
Proof.
  revert s w. induction l as [|t l IH]; intros s w Hf; cbn [st_fold].
  { unfold st_ret. intros [= <- <-]. split; [reflexivity|]. split; [done|]. intros Ho. split; [done|].
    intros t Ht. by apply not_elem_of_nil in Ht. }
  unfold st_bind. destruct (f s t w) as [s1 w1] eqn:E1. apply Hf in E1 as [Ho1 E1]; [|by left].
  intros (Ht' & Hm' & Hok)%IH; [|intros; eapply Hf; [by right|done]].
  assert (touches (T := T) (λ key, ∃ t', t' ∈ t :: l ∧ sel t' = true ∧ key = key_of t') w1 w') as Ht2.
  { eapply touches_mono; [|exact Ht']. intros key (t' & Hin & ?). exists t'. split; [by right|done]. }
  destruct (sel t) eqn:Es; [destruct E1 as (e & Ed & He); apply delete_error_run in Ed as (Ht & Hg & Hm)|subst w1].
  - split; [etrans; [|exact Ht2]; eapply touches_mono; [|exact Ht]|split; [by auto|]].
    + intros key <-. exists t. split; [by left|done].
    + intros [Ho Hl]%Hok. split; [by auto|]. intros t' [->|Hin]%elem_of_cons Hs; by auto.
  - split; [exact Ht2|]. split; [done|]. intros [Ho Hl]%Hok. split; [by auto|].
    intros t' [->|Hin]%elem_of_cons Hs; [congruence|by auto].
Qed.
End Deleting.

Section Spec.
Context {W : Type} `{!ClusterView W} `{MapOrder}.
Context (k : KubeClient W) (time_Now : ST W Z) (r : HSMPoolAgentReconciler W).
Context `{!ApiLaws (HSMPools k), !ApiLaws (HSMDevices k), !ApiLaws (Deployments k), !ApiLaws (DaemonSets k), !ApiLaws (Pods k)}.
Hypothesis time_objects : preserves same_objects time_Now.

(** ** Lemmas: reading *)

(** Decompose a run that only reads. *)
Ltac reads :=
  repeat first
    [ apply get_same; apply _ | apply list_same; apply _ | apply time_objects | apply preserves_ret; apply _
    | apply preserves_try; [apply _| |intros ?] | apply preserves_bind; [apply _| |intros ?]
    | case_match ].

Lemma agent_image_same : preserves same_objects (agent_image k r).
Proof. unfold agent_image, Images.GetImage, Images.GetManagerImage. reads. Qed.
Lemma buildAgentArgs_same p n : preserves same_objects (buildAgentArgs k r p n).
Proof. unfold buildAgentArgs. reads. Qed.
Lemma gate_same p n : preserves same_objects (gateOnDiscovery k p n).
Proof. unfold gateOnDiscovery, discoveryCurrentOnNode. reads. Qed.

(** ** The image of the agents *)

Definition manager_labels : gmap string string :=
  <["app.kubernetes.io/name" := "hsm-secrets-operator"]> {["control-plane" := "controller-manager"]}.

(** [c] is the manager container of a deployment of the operator other than [key]. *)
Definition manager_container (key : string * string) (o : Objects) (c : Container) : Prop :=
  ∃ d, o_Deployments o !! key_of d = Some d ∧ key_of d ≠ key ∧ selects None manager_labels (dp_meta d) ∧
    c ∈ ps_Containers (dp_PodSpec d) ∧ ct_Name c = "manager".

(** What sets the image of the agents: the configuration, or, as the manager starts the
    controller, the image that all managers of the cluster run. *)
Definition image_source (img : string) (key : string * string) (o : Objects) : Prop :=
  img ≠ "" ∧
  (AgentImage r = img ∨
   AgentImage r = "" ∧ ImageResolver r = true ∧ (∀ ns l w, is_Ok (api_List (Deployments k) ns l w).1 = true) ∧
   (∃ c, manager_container key o c) ∧ ∀ c, manager_container key o c → ct_Image c = img).

(** No deployment of the operator goes by the name of the agent. *)
Definition no_manager (key : string * string) (o : Objects) : Prop :=
  ∀ d, o_Deployments o !! key = Some d → ¬ selects None manager_labels (dp_meta d).

Lemma image_source_touches img key w w' :
  touches (T := Deployment) (eq key) w w' → image_source img key (objects w) → image_source img key (objects w').
Proof.
  intros (t & E & Ht) [Hne Hs]. split; [done|]. destruct Hs as [?|(H1 & H2 & H3 & [c Hc] & Hall)]; [by left|right].
  assert (∀ c, manager_container key (objects w') c ↔ manager_container key (objects w) c) as Hiff.
  { intros c'. unfold manager_container. rewrite E. cbn [k_set Deployment_kind o_Deployments].
    split; intros (d & Hd & Hk & Hrest); exists d; (split; [|done]); [|rewrite Ht by congruence; done].
    rewrite Ht in Hd by congruence. exact Hd. }
  split_and!; [done..|exists c; by apply Hiff|]. intros c' Hc'%Hiff. by apply Hall.
Qed.

(** The image of the first manager container, when they all run the same. *)
Lemma manager_image_all img deployments :
  (∃ d c, d ∈ deployments ∧ c ∈ ps_Containers (dp_PodSpec d) ∧ ct_Name c = "manager") →
  (∀ d c, d ∈ deployments → c ∈ ps_Containers (dp_PodSpec d) → ct_Name c = "manager" → ct_Image c = img) →
  Images.manager_image deployments = img.
Proof.
  intros (d & c & Hd & Hc & Hn) Hall. unfold Images.manager_image.
  destruct (filter _ _) as [|c0 cs] eqn:E.
  - exfalso. assert (c ∈ ([] : list Container)) as Hx; [|by apply not_elem_of_nil in Hx].
    rewrite <-E. apply list_elem_of_filter. split; [done|]. apply list_elem_of_bind. by exists d.
  - assert (c0 ∈ c0 :: cs) as Hx by left. rewrite <-E in Hx.
    apply list_elem_of_filter in Hx as [Hn0 (d0 & Hc0 & Hd0)%list_elem_of_bind]. by apply (Hall d0).
Qed.

Lemma agent_image_source img key w :
  image_source img key (objects w) → no_manager key (objects w) → (agent_image k r w).1 = img.
Proof.
  intros [Hne [Hi|(Hi & Hr & Hl & [c (d & Hd & Hk & Hsel & Hc)] & Hall)]] Hno; unfold agent_image.
  { rewrite bool_decide_eq_true_2 by congruence. exact Hi. }
  rewrite bool_decide_eq_false_2 by (intros Hx; by apply Hx). rewrite Hr.
  unfold Images.GetImage, Images.GetManagerImage, st_bind, st_ret. rewrite bool_decide_eq_false_2 by (intros Hx; by apply Hx).
  pose proof (Hl None manager_labels w) as Hok. fold manager_labels.
  destruct (api_List (Deployments k) None manager_labels w) as [[l|e] w1] eqn:El; [|done].
  apply api_List_law in El as [_ Hin]. specialize (Hin l eq_refl).
  assert (Images.manager_image l = img) as ->; [|cbn; by rewrite bool_decide_eq_true_2].
  apply manager_image_all; [exists d, c; split; [by apply Hin|done]|].
  intros d' c' [Hd' Hs']%Hin Hc' Hn. apply Hall. exists d'. split_and!; try done.
  intros Hk'. apply (Hno d'); [by rewrite <-Hk'|exact Hs'].
Qed.

(** ** Settled deployments *)

(** The deployment runs on the device's node and nothing about it is to be updated as
    long as the agents' image is [img]. *)
Definition settled (img : string) (device : DiscoveredDevice) (d : Deployment) : Prop :=
  isDeploymentOnNode d (dd_NodeName device) = true ∧
  (∀ w, (agent_image k r w).1 = img → (agentNeedsUpdate k r d w).1 = Ok false) ∧
  deploymentNeedsUpdateForDevice d device = false.

Lemma agentNeedsUpdate_run d w :
  objects (agentNeedsUpdate k r d w).2 = objects w ∧
  ∀ w', (agent_image k r w').1 = (agent_image k r w).1 → (agentNeedsUpdate k r d w').1 = (agentNeedsUpdate k r d w).1.
Proof.
  unfold agentNeedsUpdate, st_bind, st_ret. destruct (ps_Containers _); [done|].
  pose proof (agent_image_same w) as Hs. unfold same_objects in Hs. destruct (agent_image k r w) as [i w1]. split; [exact Hs|].
  intros w'. destruct (agent_image k r w') as [i' w1']. cbn. by intros ->.
Qed.

(** What is deployed is settled. *)
Lemma agent_deployment_settled pool hd dev img args device agentName d :
  k_same (agent_deployment r pool hd dev img args device agentName) d → settled img device d.
Proof.
  intros (_ & _ & _ & _ & _ & Hs). unfold settled, isDeploymentOnNode, deploymentNeedsUpdateForDevice, agentNeedsUpdate.
  rewrite Hs. cbn [agent_deployment dp_PodSpec]. unfold injectAgentTLS.
  assert (existsb (existsb (λ expr, bool_decide (nr_Key expr = labelHostname) && bool_decide (nr_Operator expr = "In") &&
      bool_decide (dd_NodeName device ∈ nr_Values expr))) [[mkRequirement labelHostname "In" [dd_NodeName device]]] = true) as Hn.
  { cbn [existsb nr_Key nr_Operator nr_Values]. rewrite !bool_decide_eq_true_2; [done|by left|done|done]. }
  destruct (AgentTLSEnabled r) eqn:Et, (bool_decide (AgentTLSSecretName r = "")) eqn:Es;
    cbn [negb orb]; cbn [agent_pod_spec ps_NodeSelector ps_RequiredTerms ps_Volumes ps_Containers fmap list_fmap];
    (split_and!; [rewrite lookup_singleton_eq; by apply bool_decide_eq_true_2
      |intros w; unfold st_bind, st_ret; destruct (agent_image k r w) as [i w1]; cbn [fst]; intros ->; cbn [fst ct_Image ct_SecurityContext];
       rewrite (bool_decide_eq_false_2 (img ≠ img)) by (intros Hx; by apply Hx);
       rewrite andb_false_r; unfold want_tls; rewrite Et, ?bool_decide_not, ?Es; vm_compute; done
      |unfold node_matches; rewrite (bool_decide_eq_false_2 (_ = [])) by done; rewrite Hn; vm_compute; done]).
Qed.

(** An agent is not a deployment of the operator. *)
Lemma agent_not_manager pool hd dev img args device agentName d :
  k_same (agent_deployment r pool hd dev img args device agentName) d → ¬ selects None manager_labels (dp_meta d).
Proof.
  intros (Hm & _) [_ Hs]. destruct Hm as (_ & _ & Hl & _). 
  pose proof (lookup_weaken _ _ "app.kubernetes.io/name" "hsm-secrets-operator" (lookup_insert_eq _ _ _) Hs) as Hn.
  revert Hn. rewrite Hl. cbn [agent_deployment dp_meta new_meta om_Labels]. unfold agent_deployment_labels.
  rewrite !lookup_insert_ne by done. rewrite lookup_insert_eq. done.
Qed.

(** ** Ensuring an agent *)

Lemma owner_name_ok pool n : owner_name pool = Ok n → ∃ o os, om_OwnerReferences (hp_meta pool) = o :: os ∧ or_Name o = n.
Proof. unfold owner_name. destruct (om_OwnerReferences _) as [|o os]; [done|]. intros [= <-]. by exists o, os. Qed.

(** The world was turned from [w] to [w'] by writing the agent's deployment at most, and
    on success that is there and settled. *)
Definition ensured (img : string) (pool : HSMPool) (device : DiscoveredDevice) (agentName : string) (w : W)
    (res : result unit) (w' : W) : Prop :=
  touches (T := Deployment) (eq (pool_ns pool, agentName)) w w' ∧
  (res = Ok () → image_source img (pool_ns pool, agentName) (objects w) →
   ∃ d, o_Deployments (objects w') !! (pool_ns pool, agentName) = Some d ∧ settled img device d ∧
        ¬ selects None manager_labels (dp_meta d)).

Lemma ensured_same img pool device agentName w e w' :
  objects w' = objects w → ensured img pool device agentName w (Err e) w'.
Proof. intros E. split; [by apply touches_refl|done]. Qed.

Lemma ensured_after img pool device agentName w w1 res w' :
  touches (T := Deployment) (eq (pool_ns pool, agentName)) w w1 →
  ensured img pool device agentName w1 res w' → ensured img pool device agentName w res w'.
Proof.
  intros Ht [Ht' Hd]. split; [by etrans|]. intros Hr Hs. apply Hd; [done|]. by eapply image_source_touches.
Qed.

Lemma createAgentDeployment_run img pool device agentName w res w' :
  createAgentDeployment k r pool device agentName w = (res, w') → ensured img pool device agentName w res w'.
Proof.
  unfold createAgentDeployment. destruct (bool_decide (agentName = "")).
  { intros [= <- <-]. by apply ensured_same. }
  unfold st_try, st_bind, st_ret. destruct (owner_name pool) as [n|e]; [|intros [= <- <-]; by apply ensured_same].
  destruct (api_Get (HSMDevices k) (pool_ns pool) n w) as [[hd|e] w1] eqn:Eg; apply Get_run in Eg; try apply _.
  2:{ intros [= <- <-]. by apply ensured_same. }
  pose proof (agent_image_same w1) as E2. pose proof (agent_image_source img (pool_ns pool, agentName) w1) as Hi.
  destruct (agent_image k r w1) as [i w2]. unfold same_objects in E2. cbn [fst snd] in *.
  destruct (buildAgentArgs k r pool n w2) as [args w3] eqn:Ea.
  pose proof (preserves_at same_objects _ _ _ _ (buildAgentArgs_same pool n) Ea) as E3. unfold same_objects in E3.
  set (D := agent_deployment r pool hd n i args device agentName).
  destruct (api_Create (Deployments k) D w3) as [c w4] eqn:Ec. pose proof Ec as Et.
  apply (Create_touches _ (eq (pool_ns pool, agentName))) in Et; [|done..].
  assert (touches (T := Deployment) (eq (pool_ns pool, agentName)) w w4) as Ht.
  { etrans; [|exact Et]. apply touches_refl. congruence. }
  destruct c as [t|e]; intros [= <- <-]; (split; [exact Ht|]); [intros _ Hsrc|done].
  apply api_Create_law in Ec as (Hnone & Hs & Hw). exists t.
  cbn [k_get Deployment_kind] in Hnone. rewrite E3, E2 in Hnone.
  assert (i = img) as ->. { apply Hi; [by rewrite Eg|]. intros d Hd. change (key_of D) with (pool_ns pool, agentName) in Hnone. congruence. }
  split; [|split; [by eapply agent_deployment_settled|by eapply agent_not_manager]].
  apply wrote_get in Hw. cbn [k_get Deployment_kind] in Hw. rewrite Hw. apply lookup_insert_eq.
Qed.

Lemma gate_and_create_run img pool device agentName w res w' :
  gate_and_create k r pool device agentName w = (res, w') → ensured img pool device agentName w res w'.
Proof.
  unfold gate_and_create, st_try, st_bind, st_ret. destruct (gateOnDiscovery k pool (dd_NodeName device) w) as [g w1] eqn:Eg.
  pose proof (preserves_at same_objects _ _ _ _ (gate_same pool _) Eg) as E1. unfold same_objects in E1.
  destruct g as [[]|e]; intros E; [|injection E as <- <-; by apply ensured_same].
  eapply ensured_after; [by apply touches_refl|]. by apply createAgentDeployment_run.
Qed.

Lemma recreate_run img pool device agentName d0 w res w' :
  key_of d0 = (pool_ns pool, agentName) →
  recreate k r pool device agentName d0 w = (res, w') → ensured img pool device agentName w res w'.
Proof.
  intros Hk. unfold recreate, delete_error, st_try, st_bind, st_ret.
  destruct (gateOnDiscovery k pool (dd_NodeName device) w) as [g w1] eqn:Eg.
  pose proof (preserves_at same_objects _ _ _ _ (gate_same pool _) Eg) as E1. unfold same_objects in E1.
  destruct g as [[]|e]; [|intros [= <- <-]; by apply ensured_same].
  destruct (api_Delete (Deployments k) d0 w1) as [del w2] eqn:Ed.
  apply (Delete_touches _ (eq (pool_ns pool, agentName))) in Ed; [|done].
  assert (touches (T := Deployment) (eq (pool_ns pool, agentName)) w w2) as Ht by (etrans; [by apply touches_refl|exact Ed]).
  destruct (match del with Ok _ => None | Err e => if IsNotFound e then None else Some e end) as [e|]; intros E.
  { injection E as <- <-. by split. }
  eapply ensured_after; [exact Ht|]. by apply gate_and_create_run.
Qed.

Lemma ensureAgentOnNode_run img pool device agentName w res w' :
  no_manager (pool_ns pool, agentName) (objects w) →
  ensureAgentOnNode k r pool device agentName w = (res, w') → ensured img pool device agentName w res w'.
Proof.
  intros Hno. unfold ensureAgentOnNode. unfold st_bind at 1.
  destruct (api_Get (Deployments k) (pool_ns pool) agentName w) as [[d0|e] w1] eqn:Eg; apply api_Get_law in Eg as [E1 Hg].
  2:{ destruct (IsNotFound e); [|intros [= <- <-]; by apply ensured_same]. intros E.
      eapply ensured_after; [by apply touches_refl|]. by apply gate_and_create_run. }
  destruct Hg as [Hl Hk].
  assert (∀ w2, objects w2 = objects w → recreate k r pool device agentName d0 w2 = (res, w') →
    ensured img pool device agentName w res w') as Hre.
  { intros w2 E2 E. eapply ensured_after; [by apply touches_refl|]. by eapply recreate_run. }
  destruct (negb (isDeploymentOnNode d0 (dd_NodeName device))) eqn:En; [by apply Hre|].
  unfold st_try, st_bind, st_ret. destruct (agentNeedsUpdate_run d0 w1) as [E2 Hsame].
  destruct (agentNeedsUpdate k r d0 w1) as [b w2]. cbn [fst snd] in *. rewrite E1 in E2.
  destruct b as [b|e]; [|intros [= <- <-]; by apply ensured_same].
  destruct (b || deploymentNeedsUpdateForDevice d0 device) eqn:Eb; [by apply Hre|]. intros [= <- <-].
  apply orb_false_iff in Eb as [-> Eb]. split; [by apply touches_refl|]. intros _ Hsrc. exists d0. rewrite E2.
  split; [exact Hl|]. split; [|by apply Hno]. split; [by apply negb_false_iff in En|]. split; [|done].
  intros w3 Hi. apply Hsame. rewrite Hi. symmetry. apply (agent_image_source img (pool_ns pool, agentName)); by rewrite E1.
Qed.

(** C17. The image of the agents being that of the configuration or, as the manager sets
    the controller up, the one image that the cluster's managers run: ensuring the agent
    of a device writes at most the deployment of that name, and when it succeeds the
    deployment is there, pinned to the device's node, and needs no update: ensuring it
    again writes nothing, so agents are not recreated over and over. *)
Theorem ensureAgentOnNode_settles img pool device agentName w w' :
  let key := (pool_ns pool, agentName) in
  image_source img key (objects w) → no_manager key (objects w) →
  ensureAgentOnNode k r pool device agentName w = (Ok (), w') →
  touches (T := Deployment) (eq key) w w' ∧
  (∃ d, o_Deployments (objects w') !! key = Some d ∧ settled img device d) ∧
  ∀ w2, objects w2 = objects w' → objects (ensureAgentOnNode k r pool device agentName w2).2 = objects w'.
Proof.
  cbn zeta. intros Hsrc Hno E. apply (ensureAgentOnNode_run img) in E as [Ht Hd]; [|done].
  destruct (Hd eq_refl Hsrc) as (d & Hl & Hs & Hm). split; [exact Ht|]. split; [by exists d|].
  intros w2 E2. unfold ensureAgentOnNode, st_bind.
  destruct (api_Get (Deployments k) (pool_ns pool) agentName w2) as [[d0|e] w3] eqn:Eg; apply api_Get_law in Eg as [E3 Hg].
  2:{ rewrite E2 in Hg. cbn [k_get Deployment_kind] in Hg. destruct (IsNotFound e); [by rewrite Hg in Hl|]. cbn. congruence. }
  destruct Hg as [Hl' _]. rewrite E2 in Hl'. cbn [k_get Deployment_kind] in Hl'. assert (d0 = d) as -> by congruence.
  destruct Hs as (-> & Hu & Hv). cbn [negb]. unfold st_try, st_bind, st_ret.
  destruct (agentNeedsUpdate_run d w3) as [E4 _]. specialize (Hu w3).
  destruct (agentNeedsUpdate k r d w3) as [b w4]. cbn [fst snd] in *. rewrite Hu, Hv; [cbn; congruence|].
  apply (agent_image_source img (pool_ns pool, agentName)).
  - rewrite E3, E2. by eapply image_source_touches.
  - rewrite E3, E2. intros d' Hd'. by assert (d' = d) as -> by congruence.
Qed.
(** ** The gate *)

(** A discovery pod that runs the current template on the node and is ready. *)
Definition discovery_ready (generation : Z) (nodeName : string) (pod : Pod) : Prop :=
  pod_NodeName pod = nodeName ∧ om_DeletionTimestamp (pod_meta pod) = None ∧
  om_Labels (pod_meta pod) !! "pod-template-generation" = Some (go_itoa generation) ∧
  pod_Phase pod = PodRunning ∧ (PodReady, ConditionTrue) ∈ pod_Conditions pod.

Lemma discovery_verdict_ready gen node pods :
  (discovery_verdict gen node pods).1 = true → ∃ pod, pod ∈ pods ∧ discovery_ready gen node pod.
Proof.
  induction pods as [|pod pods IH]; [done|]. cbn [discovery_verdict]. unfold discovery_ready.
  destruct (bool_decide (pod_NodeName pod ≠ node) || bool_decide (om_DeletionTimestamp (pod_meta pod) ≠ None)) eqn:E1.
  { intros (p & Hin & Hp)%IH. exists p. split; [by right|done]. }
  apply orb_false_iff in E1 as [E1%bool_decide_eq_false E2%bool_decide_eq_false].
  case_bool_decide as E3; [done|]. case_bool_decide as E4; [done|].
  destruct (filter _ _) as [|[c st] cs] eqn:E5; [done|]. case_bool_decide as E6; [|done]. intros _.
  exists pod. split; [by left|]. apply dec_stable in E1, E2.
  split_and!; [done|done| |done|].
  - destruct (om_Labels (pod_meta pod) !! "pod-template-generation") as [v|]; cbn in E3; [by subst|].
    by destruct (go_itoa_nonempty gen).
  - assert ((c, st) ∈ filter (λ c : string * string, c.1 = PodReady) (pod_Conditions pod)) as [Hc Hin]%list_elem_of_filter
      by (rewrite E5; by left). cbn in Hc. by subst.
Qed.

(** No discovery pod of the device on the node is ready for an agent. *)
Definition not_ready (pool : HSMPool) (deviceName nodeName : string) (o : Objects) : Prop :=
  ∃ ds, o_DaemonSets o !! (pool_ns pool, deviceName +:+ "-discovery") = Some ds ∧
  ∀ pod, o_Pods o !! key_of pod = Some pod →
    selects (Some (pool_ns pool)) (<[labelAppComponent := componentDiscovery]> {[labelHSMDevice := deviceName]}) (pod_meta pod) →
    ¬ discovery_ready (om_Generation (ds_meta ds)) nodeName pod.

Lemma gate_closed pool n node w res w' :
  owner_name pool = Ok n → not_ready pool n node (objects w) →
  gateOnDiscovery k pool node w = (res, w') → objects w' = objects w ∧ ∃ e, res = Err e.
Proof.
  intros Ho (ds & Hds & Hn). unfold gateOnDiscovery, discoveryCurrentOnNode, st_try, st_bind, st_ret. rewrite Ho.
  destruct (api_Get (DaemonSets k) (pool_ns pool) (n +:+ "-discovery") w) as [[ds'|e] w1] eqn:Eg; apply api_Get_law in Eg as [E1 Hg].
  2:{ destruct (IsNotFound e) eqn:Enf; [cbn [k_get DaemonSet_kind] in Hg; by rewrite Hg in Hds|].
      intros [= <- <-]. split; [done|]. by eexists. }
  destruct Hg as [Hg _]. cbn [k_get DaemonSet_kind] in Hg. assert (ds' = ds) as -> by congruence.
  destruct (api_List (Pods k) _ _ w1) as [[pods|e] w2] eqn:El; apply api_List_law in El as [E2 Hl].
  2:{ intros [= <- <-]. split; [congruence|by eexists]. }
  destruct (discovery_verdict (om_Generation (ds_meta ds)) node pods) as [v reason] eqn:Ev.
  assert (v = false) as ->.
  { destruct v; [|done]. destruct (discovery_verdict_ready (om_Generation (ds_meta ds)) node pods) as (pod & Hin & Hr); [by rewrite Ev|].
    apply (Hl pods eq_refl) in Hin as [Hpod Hsel]. rewrite E1 in Hpod. by destruct (Hn pod). }
  intros [= <- <-]. split; [congruence|by eexists].
Qed.

(** ** Reaping *)

Lemma join_errors_None errs : join_errors errs = None → errs = [].
Proof. by destruct errs. Qed.

(** An agent deployment of the device whose name is that of no aggregated device. *)
Definition orphan (pool : HSMPool) (deviceName : string) (d : Deployment) : Prop :=
  selects (Some (pool_ns pool)) (<[labelAppName := AgentNamePrefix]> {[labelHSMDevice := deviceName]}) (dp_meta d) ∧
  om_Name (dp_meta d) ∉ expected_agents deviceName (ps_AggregatedDevices (hp_Status pool)).

(** Reaping deletes agent deployments of the device whose name belongs to no
    aggregated device, and nothing else; without an error all of them are gone; and with
    no aggregated device at all it deletes nothing. *)
Theorem reapOrphanedAgents_spec pool n w e w' :
  owner_name pool = Ok n → reapOrphanedAgents k pool w = (e, w') →
  touches (T := Deployment) (λ key, ∃ d, o_Deployments (objects w) !! key = Some d ∧ orphan pool n d) w w' ∧
  (expected_agents n (ps_AggregatedDevices (hp_Status pool)) = ∅ → objects w' = objects w) ∧
  (expected_agents n (ps_AggregatedDevices (hp_Status pool)) ≠ ∅ → e = None →
   ∀ key d, o_Deployments (objects w) !! key = Some d → key = key_of d → orphan pool n d →
     gone (T := Deployment) (objects w') key).
Proof.
  intros Ho. unfold reapOrphanedAgents. rewrite Ho. case_bool_decide as Hx.
  { intros [= <- <-]. split; [reflexivity|]. split; [done|]. intros Hx'. by rewrite Hx in Hx'. }
  unfold st_bind at 1. destruct (api_List (Deployments k) _ _ w) as [[l|e0] w1] eqn:El; apply api_List_law in El as [E1 Hl].
  2:{ intros [= <- <-]. split; [by apply touches_refl|]. by split. }
  specialize (Hl l eq_refl). unfold st_bind at 1. destruct (st_fold _ l [] w1) as [errs w2] eqn:Ef.
  apply (delete_loop_run (Deployments k) _ (λ d, negb (bool_decide (om_Name (dp_meta d) ∈
    expected_agents n (ps_AggregatedDevices (hp_Status pool))))) (λ errs, errs = [])) in Ef as (Ht & _ & Hg).
  2:{ clear. intros errs d w errs' w' _. case_bool_decide; cbn [negb]; [by intros [= <- <-]|].
      unfold st_bind, st_ret. destruct (delete_error (Deployments k) d w) as [e w1] eqn:Ed.
      intros [= <- <-]. destruct e as [e|]; split; try (by destruct errs); eexists; (split; [done|]); by destruct errs. }
  intros [= <- <-]. split; [|split; [done|]].
  - etrans; [by apply touches_refl|]. eapply touches_mono; [|exact Ht]. cbn. intros key (d & [Hd Hs]%Hl & Hsel & ->).
    exists d. split; [done|]. split; [done|]. by apply negb_true_iff, bool_decide_eq_false in Hsel.
  - intros _ He%join_errors_None key d Hd -> [Hs Hn]. destruct (Hg He) as [_ Hgone]. apply Hgone.
    + by apply Hl.
    + by rewrite bool_decide_eq_false_2.
Qed.

(** ** An empty aggregation *)

(** The API server answers: what exists is read, lists and deletions succeed. *)
Class Responsive {T} `{!Kind T} (api : ObjectApi W T) : Prop := {
  responsive_Get ns n w t : k_get (objects w) !! (ns, n) = Some t → key_of t = (ns, n) → is_Ok (api_Get api ns n w).1 = true;
  responsive_List ns l w : is_Ok (api_List api ns l w).1 = true;
  responsive_Delete t w e w' : api_Delete api t w = (Err e, w') → IsNotFound e = true;
}.

Lemma responsive_get {T} `{!Kind T} (api : ObjectApi W T) `{!ApiLaws api, !Responsive api} ns n w t :
  k_get (objects w) !! (ns, n) = Some t → key_of t = (ns, n) → ∃ w', api_Get api ns n w = (Ok t, w') ∧ objects w' = objects w.
Proof.
  intros Hl Hk. pose proof (responsive_Get _ _ _ _ Hl Hk) as Ho. destruct (api_Get api ns n w) as [[t'|e] w'] eqn:E; [|done].
  apply api_Get_law in E as [Eo [Hl' _]]. exists w'. split; [|done]. congruence.
Qed.

(** The clock shows [t] or later. *)
Definition clock_from (t : Z) : Prop := ∀ w, t ≤ (time_Now w).1.

Lemma time_Since_mono now now' t : now ≤ now' → time_Since now t ≤ time_Since now' t.
Proof. unfold time_Since, saturate, int64_min, int64_max. lia. Qed.

Context `{!Responsive (HSMPools k), !Responsive (HSMDevices k), !Responsive (Deployments k)}.

Lemma cleanupAgentDeployments_run dev w e w' :
  (∀ m d, AgentManager r = Some m → preserves same_objects (mi_CleanupAgent m d)) →
  cleanupAgentDeployments k r dev w = (e, w') →
  ∀ d, o_Deployments (objects w) !! key_of d = Some d → om_Namespace (dp_meta d) = om_Namespace (hd_meta dev) →
    om_Labels (dp_meta d) !! labelHSMDevice = Some (om_Name (hd_meta dev)) → gone (T := Deployment) (objects w') (key_of d).
Proof.
  intros Hm. unfold cleanupAgentDeployments. unfold st_bind at 1.
  pose proof (responsive_List (api := Deployments k) (Some (om_Namespace (hd_meta dev))) ∅ w) as Hr.
  destruct (api_List (Deployments k) _ _ w) as [[l|e0] w1] eqn:El; [|done].
  apply api_List_law in El as [E1 Hl]. specialize (Hl l eq_refl). unfold st_bind at 1.
  destruct (st_fold _ l () w1) as [u w2] eqn:Ef. intros Em.
  assert (objects w' = objects w2) as ->.
  { destruct (AgentManager r) as [m|]; [|by injection Em as _ <-]. revert Em. unfold st_bind, st_ret.
    pose proof (Hm m dev eq_refl w2) as Hs. destruct (mi_CleanupAgent m dev w2) as [c w3]. by intros [= _ <-]. }
  apply (delete_loop_run (Deployments k) _ (λ d, bool_decide (om_Labels (dp_meta d) !! labelHSMDevice =
    Some (om_Name (hd_meta dev)))) (λ _, True)) in Ef as (_ & _ & Hg).
  2:{ intros [] d w0 [] w0' _. case_bool_decide; unfold st_bind, st_ret; [|by intros [= <-]].
      destruct (delete_error (Deployments k) d w0) as [e0 w3] eqn:Ed. intros [= <-]. split; [done|]. exists e0.
      split; [done|]. intros _. revert Ed. unfold delete_error, st_bind, st_ret.
      destruct (api_Delete (Deployments k) d w0) as [[|e1] w4] eqn:Edel; [by intros [= <- _]|].
      apply responsive_Delete in Edel as ->. by intros [= <- _]. }
  intros d Hd Hns Hlab. destruct (Hg I) as [_ Hgone]. apply Hgone; [|by apply bool_decide_eq_true_2].
  apply Hl. split; [done|]. split; [by intros ? [= <-]|apply map_empty_subseteq].
Qed.

Lemma cleanupRejectedAgentPods_deployments ns w :
  o_Deployments (objects (cleanupRejectedAgentPods k ns w).2) = o_Deployments (objects w).
Proof.
  assert (preserves (touches (T := Pod) (λ _, True)) (cleanupRejectedAgentPods k ns)) as Hp.
  { unfold cleanupRejectedAgentPods. apply preserves_bind; [apply _| |].
    - intros w0. apply touches_refl, list_same. apply _.
    - intros [pods|e]; [|apply preserves_ret, _]. apply preserves_bind; [apply _| |intros ?; apply preserves_ret, _].
      apply preserves_fold; [apply _|]. intros errs pod _. case_match; [apply preserves_ret, _|].
      apply preserves_bind; [apply _| |intros ?; apply preserves_ret, _].
      intros w0. destruct (delete_error (Pods k) pod w0) as [e w1] eqn:Ed. apply delete_error_run in Ed as [Ht _].
      eapply touches_mono; [|exact Ht]. all: done. }
  destruct (Hp w) as (t & -> & _). done.
Qed.

(** How long a device may be absent before its agents are removed. *)
Definition absence_timeout (pool : HSMPool) : Z :=
  if DeviceAbsenceTimeout r =? 0 then to_int64 (2 * grace_period pool) else DeviceAbsenceTimeout r.

(** A pool with no aggregated device loses every agent of its device as soon as the
    pool itself is older than the absence timeout, however recently the devices were
    seen: also when the aggregation is empty because the pods could not be listed. *)
Theorem empty_aggregation_removes_agents ns name pool owner dev now w w' out :
  (∀ m d, AgentManager r = Some m → preserves same_objects (mi_CleanupAgent m d)) →
  o_HSMPools (objects w) !! (ns, name) = Some pool → key_of pool = (ns, name) →
  ps_AggregatedDevices (hp_Status pool) = [] → head (om_OwnerReferences (hp_meta pool)) = Some owner →
  o_HSMDevices (objects w) !! (ns, or_Name owner) = Some dev → key_of dev = (ns, or_Name owner) →
  clock_from now → absence_timeout pool < time_Since now (om_CreationTimestamp (hp_meta pool)) →
  PoolAgents.Reconcile k time_Now r ns name w = (out, w') →
  ∀ d, o_Deployments (objects w) !! key_of d = Some d → om_Namespace (dp_meta d) = ns →
    om_Labels (dp_meta d) !! labelHSMDevice = Some (or_Name owner) → gone (T := Deployment) (objects w') (key_of d).
Proof.
  intros Hm Hp Hkey Hdevs Howner Hdev Hkd Hnow Hage. unfold PoolAgents.Reconcile. unfold st_bind at 1.
  destruct (responsive_get (HSMPools k) ns name w pool) as (w1 & Eg & E1); [exact Hp|done|]. rewrite Eg. clear Eg.
  assert (pool_ns pool = ns) as Hns by (by injection Hkey).
  rewrite Hdevs, andb_false_r. unfold cleanups, st_bind at 1, cleanupStaleAgents.
  destruct (om_OwnerReferences (hp_meta pool)) as [|o os]; [done|]. injection Howner as ->.
  unfold st_bind at 1. rewrite Hns.
  destruct (responsive_get (HSMDevices k) ns (or_Name owner) w1 dev) as (w2 & Eg & E2); [by rewrite E1|done|]. rewrite Eg.
  clear Eg. rewrite Hdevs. cbn [last_seen]. fold (absence_timeout pool).
  unfold since. unfold st_bind at 1 2, st_ret at 1. destruct (time_Now w2) as [now2 w3] eqn:Et.
  pose proof (preserves_at same_objects _ _ _ _ time_objects Et) as E3. unfold same_objects in E3.
  change (IsZero zero_time) with true. cbv iota. unfold st_bind at 1 2, st_ret at 1.
  pose proof (Hnow w3) as Hn. destruct (time_Now w3) as [now4 w4] eqn:Et4. cbn in Hn.
  pose proof (preserves_at same_objects _ _ _ _ time_objects Et4) as E4. unfold same_objects in E4.
  assert ((absence_timeout pool <? time_Since now4 (om_CreationTimestamp (hp_meta pool))) = true) as ->.
  { apply Z.ltb_lt. pose proof (time_Since_mono now now4 (om_CreationTimestamp (hp_meta pool)) Hn). lia. }
  unfold st_bind at 1, st_ret at 1. destruct (cleanupAgentDeployments k r dev w4) as [e w5] eqn:Ec.
  unfold st_bind, st_ret. pose proof (cleanupRejectedAgentPods_deployments ns w5) as E6.
  destruct (cleanupRejectedAgentPods k ns w5) as [c w6]. cbn in E6. intros [= _ <-] d Hd Hdn Hlab.
  unfold gone. cbn [k_get Deployment_kind]. rewrite E6. injection Hkd as Hk1 Hk2.
  apply (cleanupAgentDeployments_run dev w4 e w5 Hm Ec d); [congruence| |].
  - unfold key_of in Hk1. cbn in Hk1. congruence.
  - cbn in Hk2. congruence.
Qed.
End Spec.

(** The pods of an agent carry the labels by which its clients look for them, and its
    deployment those by which the reaper does. *)
Lemma agent_pods_found {W} (r : HSMPoolAgentReconciler W) pool hd dev image args device agentName :
  let d := agent_deployment r pool hd dev image args device agentName in
  agent_labels (dd_SerialNumber device) ⊆ dp_TemplateLabels d ∧
  selects (Some (pool_ns pool)) (<[labelAppName := AgentNamePrefix]> {[labelHSMDevice := dev]}) (dp_meta d).
Proof.
  cbn [agent_deployment dp_TemplateLabels dp_meta new_meta om_Labels]. unfold agent_deployment_labels, selects.
  cbn [om_Labels om_Namespace]. generalize (sanitizeLabelValue (dd_DevicePath device)) (dd_SerialNumber device). intros path serial.
  split; [|split; [by intros ? [= <-]|]]; unfold agent_labels;
    repeat (apply insert_subseteq_l; [vm_compute; reflexivity|]); apply map_empty_subseteq.
Qed.

(** ** Witnesses *)
Module PoolAgentsWitness.
Import PoolController.PoolWitness.
#[local] Existing Instance listed_order.
Definition r : HSMPoolAgentReconciler Objects := mkReconciler None false "agent:v1" "sa" true "tls" 0.
Definition agentName : string := "hsm-agent-pico-a1".
Definition ready_pool (devices : list DiscoveredDevice) : HSMPool :=
  mkHSMPool (hp_meta PoolWitness.pool) (hp_Spec PoolWitness.pool)
    (mkHSMPoolStatus devices (len devices) (len devices) [] 1 None [] HSMPoolPhaseReady None).
Definition agent (device : DiscoveredDevice) (name : string) : Deployment :=
  agent_deployment r (ready_pool [found]) PoolWitness.device "pico" "agent:v1" [] device name.
Definition w1 (deployments : Table Deployment) (daemons : Table DaemonSet) : Objects :=
  mkObjects {[key_of (ready_pool [found]) := ready_pool [found]]} {[key_of PoolWitness.device := PoolWitness.device]} ∅
    deployments daemons ∅ ∅.
Definition moved : DiscoveredDevice := mkDiscoveredDevice "/dev/1" "A1" "node-2" (mkTime 900 0) ∅ true "" "" "" None "".

(** The reconciler as the manager sets it up, without an image, and the manager. *)
Definition resolving : HSMPoolAgentReconciler Objects := mkReconciler None true "" "sa" true "tls" 0.
Definition manager : Deployment :=
  mkDeployment (new_meta "controller-manager" "hsm-system" manager_labels) 1 "" ∅ ∅
    (mkPodSpec None None None "" [mkContainer "manager" "operator:v2" [] [] [] None None ∅ ∅ None []] [] []).
Definition w_managed : Objects := w1 {[key_of manager := manager]} ∅.

Lemma managed_image : image_source Mem.kube resolving "operator:v2" ("hsm", agentName) (objects w_managed).
Proof.
  split; [done|]. right. split_and!; [done..| |].
  - exists (mkContainer "manager" "operator:v2" [] [] [] None None ∅ ∅ None []), manager.
    split_and!; [by vm_compute|done| |by left|done]. split; [done|reflexivity].
  - intros c (d & Hd & _ & _ & Hc & _). change (({[key_of manager := manager]} : Table Deployment) !! key_of d = Some d) in Hd.
    apply lookup_singleton_Some in Hd as [_ <-]. by apply list_elem_of_singleton in Hc as ->.
Qed.

Lemma managed_name : no_manager ("hsm", agentName) (objects w_managed).
Proof.
  intros d Hd. exfalso. change (({[key_of manager := manager]} : Table Deployment) !! ("hsm", agentName) = Some d) in Hd.
  by apply lookup_singleton_Some in Hd as [? _].
Qed.

Example ensureAgentOnNode_settles_witness :
  ∃ d, o_Deployments (ensureAgentOnNode Mem.kube resolving (ready_pool [found]) found agentName w_managed).2 !! ("hsm", agentName) = Some d ∧
       settled Mem.kube resolving "operator:v2" found d.
Proof.
  refine (proj1 (proj2 (ensureAgentOnNode_settles Mem.kube resolving "operator:v2" (ready_pool [found]) found agentName w_managed
    (ensureAgentOnNode Mem.kube resolving (ready_pool [found]) found agentName w_managed).2 managed_image managed_name _))).
  apply injective_projections; [vm_compute; reflexivity|reflexivity].
Defined.


Definition w2 : Objects :=
  w1 (<[("hsm", agentName) := agent found agentName]> {[("hsm", "hsm-agent-pico-0") := agent found "hsm-agent-pico-0"]}) ∅.

Example reapOrphanedAgents_spec_witness :
  gone (T := Deployment) (reapOrphanedAgents Mem.kube (ready_pool [found]) w2).2 ("hsm", "hsm-agent-pico-0").
Proof.
  refine (proj2 (proj2 (reapOrphanedAgents_spec Mem.kube (ready_pool [found]) "pico" w2
    (reapOrphanedAgents Mem.kube (ready_pool [found]) w2).1 (reapOrphanedAgents Mem.kube (ready_pool [found]) w2).2 eq_refl
    (injective_projections _ _ eq_refl eq_refl))) _ _ ("hsm", "hsm-agent-pico-0") (agent found "hsm-agent-pico-0") _ _ _).
  - intros Hx. assert (agentName ∈ (∅ : gset string)) as Hin by (rewrite <-Hx; vm_compute; done). by apply not_elem_of_empty in Hin.
  - vm_compute. reflexivity.
  - vm_compute. reflexivity.
  - vm_compute. reflexivity.
  - split; [apply agent_pods_found|]. vm_compute. by intros ?.
Defined.

(** The pods cannot be listed while the pool is aggregated: its devices are forgotten,
    and its agents removed, although their device is there. *)
Definition flaky_pods : ObjectApi Objects Pod :=
  let s := Mem.server in
  mkObjectApi (api_Get s) (λ _ _ o, (Err (errorf "timeout"), o)) (api_Create s) (api_Update s) (api_UpdateStatus s) (api_Delete s).
#[local] Instance flaky_laws : ApiLaws flaky_pods.
Proof. destruct (Mem.server_laws (T := Pod)). split; try done. by intros ns l w res w' [= <- <-]. Qed.
Definition flaky : KubeClient Objects :=
  mkKubeClient Mem.server Mem.server Mem.server Mem.server Mem.server flaky_pods Mem.server.
#[local] Instance server_responsive {T} `{!Kind T, !LawfulKind T} : Responsive (Mem.server (T := T)).
Proof.
  split; [|done|].
  - intros ns n o t Hl Hk. cbn. unfold objects, Mem.objects_cluster in Hl. rewrite Hl. by rewrite decide_True.
  - intros t o e o'. cbn. destruct (k_get o !! key_of t); by intros [= <- <-].
Qed.

Definition w3 : Objects :=
  mkObjects (o_HSMPools w0) (o_HSMDevices w0) ∅ {[("hsm", agentName) := agent found agentName]} (o_DaemonSets w0) (o_Pods w0) ∅.
Definition w4 : Objects := (PoolController.Reconcile flaky now decode "hsm" "pico-pool" w3).2.
Definition emptied : HSMPool :=
  mkHSMPool (hp_meta PoolWitness.pool) (hp_Spec PoolWitness.pool)
    (pool_status (metav1_Now (1000 * Second)) (hp_Status PoolWitness.pool) HSMPoolPhaseError [] [] 2
       "failed to list DaemonSet pods for device pico: timeout").

Example empty_aggregation_removes_agents_witness :
  gone (T := Deployment) (PoolAgents.Reconcile flaky now r "hsm" "pico-pool" w4).2 ("hsm", agentName).
Proof.
  refine (empty_aggregation_removes_agents flaky now r (λ _, eq_refl) "hsm" "pico-pool" emptied
    (mkOwnerRef "" "HSMDevice" "pico" "" true) PoolWitness.device (1000 * Second) w4
    (PoolAgents.Reconcile flaky now r "hsm" "pico-pool" w4).2 (PoolAgents.Reconcile flaky now r "hsm" "pico-pool" w4).1
    _ _ eq_refl eq_refl eq_refl _ eq_refl _ _ (injective_projections _ _ eq_refl eq_refl) (agent found agentName) _ eq_refl _).
  - done.
  - vm_compute. reflexivity.
  - vm_compute. reflexivity.
  - intros w. reflexivity.
  - vm_compute. reflexivity.
  - vm_compute. reflexivity.
  - vm_compute. reflexivity.
Defined.
End PoolAgentsWitness.
