(* ===== verification/Usb.v ===== *)
(** * internal/discovery: USB devices, the CCID allowlist, the device plugin

    [usb.go] and [usb_cgo.go] (enumeration, matching, events), [ccid_allowlist.go] (which
    devices the CCID driver knows) and [deviceplugin.go] (the devices offered to the
    kubelet).  libudev, the file system, the kubelet and the clock are arguments. *)

From Stdlib Require Import Ascii.
From S2P Require Import Prelude GoStd Api.

Local Open Scope go_scope.

(** ** ccid_allowlist.go *)

(* [internal/discovery/ccid_allowlist.go:34-40 ccidPlistGlobs] *)
Definition ccidPlistGlobs : list string :=
  ["/usr/lib/pcsc/drivers/ifd-ccid.bundle/Contents/Info.plist";
   "/usr/lib/*/pcsc/drivers/ifd-ccid.bundle/Contents/Info.plist";
   "/usr/lib64/pcsc/drivers/ifd-ccid.bundle/Contents/Info.plist";
   "/usr/local/lib/pcsc/drivers/ifd-ccid.bundle/Contents/Info.plist";
   "/etc/libccid_Info.plist"].

(* [internal/discovery/ccid_allowlist.go:70-75] *)
Definition normalizeID (s : string) : string :=
  to_lower (trim_prefix (trim_prefix (TrimSpace s) "0x") "0X").

(** The set of keys of the map [pairs]. *)
(* [internal/discovery/ccid_allowlist.go:46-48] *)
Record CCIDAllowlist := mkAllowlist { pairs : gset string }.
(** A vendor and a product as a key of the map. *)
Definition pair_key (vendorID productID : string) : string := normalizeID vendorID +:+ ":" +:+ normalizeID productID.

(* [internal/discovery/ccid_allowlist.go:52-57] *)
Definition Contains (a : option CCIDAllowlist) (vendorID productID : string) : bool :=
  match a with None => false | Some a => bool_decide (pair_key vendorID productID ∈ pairs a) end.
(* [internal/discovery/ccid_allowlist.go:60-65] *)
Definition Len (a : option CCIDAllowlist) : Z := match a with None => 0 | Some a => Z.of_nat (size (pairs a)) end.

(** A child of the plist's dict, as the XML decoder leaves it. *)
(* [internal/discovery/ccid_allowlist.go:122-126] *)
Record plistNode := mkPlistNode { pn_Local : string; pn_Key : string; pn_Strings : list string }.

(** [vendorIDs], [productIDs] and [lastKey] of the loop. *)
(* [internal/discovery/ccid_allowlist.go:142-158 loadCCIDAllowlistFromFile] *)
Definition plist_step (acc : list string * list string * string) (node : plistNode) : list string * list string * string :=
  let '(vendorIDs, productIDs, lastKey) := acc in
  if bool_decide (pn_Local node = "key") then (vendorIDs, productIDs, TrimSpace (pn_Key node))
  else if bool_decide (pn_Local node = "array") then
    if bool_decide (lastKey = "ifdVendorID") then (pn_Strings node, productIDs, "")
    else if bool_decide (lastKey = "ifdProductID") then (vendorIDs, pn_Strings node, "")
    else (vendorIDs, productIDs, "")
  else (vendorIDs, productIDs, "").

(** The allowlist of two parallel arrays: the shorter one decides how many pairs. *)
(* [internal/discovery/ccid_allowlist.go:160-172 loadCCIDAllowlistFromFile] *)
Definition allowlist_of (vendorIDs productIDs : list string) : CCIDAllowlist :=
  mkAllowlist (list_to_set (omap (λ '(v, p),
    if bool_decide (normalizeID v = "") || bool_decide (normalizeID p = "") then None else Some (pair_key v p))
    (zip vendorIDs productIDs))).

(* [internal/discovery/ccid_allowlist.go:140-172 loadCCIDAllowlistFromFile] *)
Definition loadCCIDAllowlist (nodes : list plistNode) : CCIDAllowlist :=
  let '(vendorIDs, productIDs, _) := fold_left plist_step nodes ([], [], "") in allowlist_of vendorIDs productIDs.

Section Files.
Context (Glob : string → result (list string)) (ReadFile : string → result string).
Context (xml_Unmarshal : string → result (list plistNode)).

(* [internal/discovery/ccid_allowlist.go:129-173] *)
Definition loadCCIDAllowlistFromFile (path : string) : result CCIDAllowlist :=
  match ReadFile path with
  | Err err => Err (wrapf "read Info.plist" err)
  | Ok data => match xml_Unmarshal data with
               | Err err => Err (wrapf "parse Info.plist xml" err)
               | Ok nodes => Ok (loadCCIDAllowlist nodes)
               end
  end.

(** The first match of the first pattern that has one. *)
(* [internal/discovery/ccid_allowlist.go:85-92 LoadCCIDAllowlist] *)
Fixpoint plist_path (globs : list string) : string :=
  match globs with
  | [] => ""
  | glob :: rest => match Glob glob with Ok (path :: _) => path | _ => plist_path rest end
  end.

(* [internal/discovery/ccid_allowlist.go:82-107] *)
Definition LoadCCIDAllowlist : CCIDAllowlist :=
  let path := plist_path ccidPlistGlobs in
  if bool_decide (path = "") then mkAllowlist ∅
  else match loadCCIDAllowlistFromFile path with Err _ => mkAllowlist ∅ | Ok allowlist => allowlist end.
End Files.

(** ** usb.go and usb_cgo.go *)

(* [internal/discovery/usb.go:35-43] *)
Record USBDevice := mkUSBDevice {
  ub_VendorID : string;
  ub_ProductID : string;
  ub_SerialNumber : string;
  ub_DevicePath : string;
  ub_Manufacturer : string;
  ub_Product : string;
  ub_DeviceInfo : gmap string string;
}.

(* [internal/discovery/usb.go:46-51] *)
Record USBEvent := mkUSBEvent {
  ue_Action : string;
  ue_Device : USBDevice;
  ue_Timestamp : Time;
  ue_HSMDeviceName : string;
}.

(* [internal/discovery/usb.go:58-61] *)
Record MatchCriteria := mkMatchCriteria { mc_AutoDiscovery : bool; mc_Specs : list USBDeviceSpec }.

(** A device of libudev: its properties, device node and, for an event, its action. *)
Record UDevDevice := mkUDevDevice { ud_Properties : gmap string string; ud_Devnode : string; ud_Action : string }.
Definition PropertyValue (d : UDevDevice) (name : string) : string := default "" (ud_Properties d !! name).

(* [internal/discovery/usb_cgo.go:33-56] *)
Definition convertUdevDevice (device : UDevDevice) : option USBDevice :=
  if bool_decide (PropertyValue device "DEVTYPE" ≠ "usb_device") then None
  else
    let vendorID := PropertyValue device "ID_VENDOR_ID" in
    let productID := PropertyValue device "ID_MODEL_ID" in
    if bool_decide (vendorID = "") || bool_decide (productID = "") then None
    else Some (mkUSBDevice vendorID productID (PropertyValue device "ID_SERIAL_SHORT") (ud_Devnode device)
                 (PropertyValue device "ID_VENDOR") (PropertyValue device "ID_MODEL") (ud_Properties device)).

(* [internal/discovery/usb.go:139-156] *)
Definition matchesSpec (device : USBDevice) (spec : USBDeviceSpec) : bool :=
  if bool_decide (us_VendorID spec ≠ "") && negb (EqualFold (ub_VendorID device) (us_VendorID spec)) then false
  else if bool_decide (us_ProductID spec ≠ "") && negb (EqualFold (ub_ProductID device) (us_ProductID spec)) then false
  else if bool_decide (us_SerialNumber spec ≠ "") && bool_decide (ub_SerialNumber device ≠ us_SerialNumber spec) then false
  else true.

(* [internal/discovery/usb.go:160-170] *)
Definition matchesCriteria (allowlist : option CCIDAllowlist) (device : USBDevice) (criteria : MatchCriteria) : bool :=
  if mc_AutoDiscovery criteria && Contains allowlist (ub_VendorID device) (ub_ProductID device) then true
  else existsb (matchesSpec device) (mc_Specs criteria).

(** [now] is [metav1.Now()]. *)
(* [internal/discovery/usb.go:274-293] *)
Definition ConvertToDiscoveredDevice (now : Time) (usbDevice : USBDevice) (nodeName : string) : DiscoveredDevice :=
  mkDiscoveredDevice (ub_DevicePath usbDevice) (ub_SerialNumber usbDevice) nodeName now
    (ub_DeviceInfo usbDevice ∪
     <["vendor-id" := ub_VendorID usbDevice]> (<["product-id" := ub_ProductID usbDevice]>
     (<["manufacturer" := ub_Manufacturer usbDevice]> {["product" := ub_Product usbDevice]})))
    true "" "" "" None "".

(* [internal/discovery/usb.go:296-309] *)
Definition IsSameDevice (device1 device2 : DiscoveredDevice) : bool :=
  if bool_decide (dd_SerialNumber device1 ≠ "") && bool_decide (dd_SerialNumber device2 ≠ "")
  then bool_decide (dd_SerialNumber device1 = dd_SerialNumber device2)
  else if bool_decide (dd_DevicePath device1 ≠ "") && bool_decide (dd_DevicePath device2 ≠ "")
  then bool_decide (dd_DevicePath device1 = dd_DevicePath device2)
  else false.

(** The discoverer: whether it has a monitor, its event channel (what it holds and
    whether it is closed) and the criteria by HSMDevice. *)
(* [internal/discovery/usb.go:64-74] *)
Record USBDiscoverer := mkDiscoverer {
  allowlist : option CCIDAllowlist;
  monitor : bool;
  eventChannel : list USBEvent;
  channel_closed : bool;
  activeSpecs : gmap string MatchCriteria;
}.
(** [make(chan USBEvent, 100)] *)
(* [internal/discovery/usb.go:86-86 NewUSBDiscoverer] *)
Definition event_capacity : nat := 100.
(* [internal/discovery/usb.go:77-89] *)
Definition NewUSBDiscoverer (allowlist : CCIDAllowlist) : USBDiscoverer := mkDiscoverer (Some allowlist) false [] false ∅.

Definition with_specs (f : gmap string MatchCriteria → gmap string MatchCriteria) (u : USBDiscoverer) : USBDiscoverer :=
  mkDiscoverer (allowlist u) (monitor u) (eventChannel u) (channel_closed u) (f (activeSpecs u)).
Definition with_monitor (b : bool) (u : USBDiscoverer) : USBDiscoverer :=
  mkDiscoverer (allowlist u) b (eventChannel u) (channel_closed u) (activeSpecs u).

(* [internal/discovery/usb.go:225-233] *)
Definition AddSpecForMonitoring (hsmDeviceName : string) (criteria : MatchCriteria) : USBDiscoverer → USBDiscoverer :=
  with_specs (insert hsmDeviceName criteria).
(* [internal/discovery/usb.go:236-241] *)
Definition RemoveSpecFromMonitoring (hsmDeviceName : string) : USBDiscoverer → USBDiscoverer :=
  with_specs (delete hsmDeviceName).
(* [internal/discovery/usb.go:245-253] *)
Definition MonitoredDeviceNames `{MapOrder} (u : USBDiscoverer) : list string := (range (activeSpecs u)).*1.
(* [internal/discovery/usb.go:261-266] *)
Definition StopEventMonitoring : USBDiscoverer → USBDiscoverer := with_monitor false.
(* [internal/discovery/usb.go:269-271] *)
Definition IsEventMonitoringActive (u : USBDiscoverer) : bool := monitor u.

(** The monitor loop ends: its deferred [close(u.eventChannel)]. *)
(* [internal/discovery/usb.go:193-193 monitorLoop] *)
Definition close_events (u : USBDiscoverer) : result USBDiscoverer :=
  if channel_closed u then Err close_of_closed_channel
  else Ok (mkDiscoverer (allowlist u) (monitor u) (eventChannel u) true (activeSpecs u)).

(** The non-blocking send. *)
(* [internal/discovery/usb_cgo.go:98-108 handleDeviceEvent] *)
Definition send_event (event : USBEvent) (u : USBDiscoverer) : result USBDiscoverer :=
  if channel_closed u then Err send_on_closed_channel
  else if (length (eventChannel u) <? event_capacity)%nat
  then Ok (mkDiscoverer (allowlist u) (monitor u) (eventChannel u ++ [event]) false (activeSpecs u))
  else Ok u.

Section Monitor.
Context `{MapOrder} (now : Time).

(** The names whose criteria a device matches, in the order of the iteration. *)
(* [internal/discovery/usb_cgo.go:82-87 handleDeviceEvent] *)
Definition matched_names (u : USBDiscoverer) (usbDev : USBDevice) : list string :=
  (filter (λ nc, matchesCriteria (allowlist u) usbDev nc.2 = true) (range (activeSpecs u))).*1.

Definition send_all (events : list USBEvent) (u : USBDiscoverer) : result USBDiscoverer :=
  fold_left (λ r e, match r with Ok u => send_event e u | Err e => Err e end) events (Ok u).

(* [internal/discovery/usb_cgo.go:59-110] *)
Definition handleDeviceEvent (device : UDevDevice) (u : USBDiscoverer) : result USBDiscoverer :=
  if bool_decide (ud_Action device ≠ "add") && bool_decide (ud_Action device ≠ "remove") then Ok u
  else match convertUdevDevice device with
  | None => Ok u
  | Some usbDev => send_all (mkUSBEvent (ud_Action device) usbDev now <$> matched_names u usbDev) u
  end.

(** What the monitor loop can receive. *)
Inductive MonitorInput :=
  | ContextDone
  | DeviceReceived (device : UDevDevice)
  | DeviceChannelClosed
  | ErrorReceived
  | ErrorChannelClosed.

(** The loop on the inputs so far; it still waits when they are used up. *)
(* [internal/discovery/usb.go:201-221 monitorLoop] *)
Fixpoint monitor_events (inputs : list MonitorInput) (u : USBDiscoverer) : result USBDiscoverer :=
  match inputs with
  | [] => Ok u
  | (ContextDone | DeviceChannelClosed | ErrorChannelClosed) :: _ => close_events u
  | ErrorReceived :: rest => monitor_events rest u
  | DeviceReceived device :: rest =>
      match handleDeviceEvent device u with Ok u => monitor_events rest u | Err e => Err e end
  end.

(** [opened] is the result of [DeviceChan]. *)
(* [internal/discovery/usb.go:192-222] *)
Definition monitorLoop (opened : result unit) (inputs : list MonitorInput) (u : USBDiscoverer) : result USBDiscoverer :=
  match opened with Err _ => close_events u | Ok _ => monitor_events inputs u end.
End Monitor.

(** libudev's enumeration and monitor. *)
Record Udev (W : Type) := mkUdev {
  AddMatchSubsystem : string → ST W (result unit);
  AddMatchProperty : string → string → ST W (result unit);
  Devices : ST W (result (list UDevDevice));
  FilterAddMatchSubsystem : string → ST W (result unit);
}.
Arguments mkUdev {W}.
Arguments AddMatchSubsystem {W}.
Arguments AddMatchProperty {W}.
Arguments Devices {W}.
Arguments FilterAddMatchSubsystem {W}.

Section Udev.
Context {W : Type} (udev : Udev W).

(* [internal/discovery/usb.go:92-136] *)
Definition DiscoverDevices (allowlist : option CCIDAllowlist) (criteria : MatchCriteria) : ST W (result (list USBDevice)) :=
  st_try (AddMatchSubsystem udev "usb") (wrapf "failed to add subsystem filter") (λ _,
  st_try (AddMatchProperty udev "DEVTYPE" "usb_device") (wrapf "failed to add device type filter") (λ _,
  st_try (Devices udev) (wrapf "failed to enumerate devices") (λ devices,
    st_ret (Ok (filter (λ d, matchesCriteria allowlist d criteria = true) (omap convertUdevDevice devices)))))).

(** The monitor is there even if its filter cannot be set. *)
(* [internal/discovery/usb.go:173-189] *)
Definition StartEventMonitoring (u : USBDiscoverer) : ST W (result unit * USBDiscoverer) :=
  let u := with_monitor true u in
  let* f := FilterAddMatchSubsystem udev "usb" in
  st_ret (match f with Err err => Err (wrapf "failed to add subsystem filter to monitor" err) | Ok _ => Ok () end, u).
End Udev.

(** ** deviceplugin.go *)

(* [internal/discovery/deviceplugin.go:40-40 ResourceNamePrefix] *)
Definition ResourceNamePrefix : string := "hsm.j5t.io".
(* [internal/discovery/deviceplugin.go:42-42 DevicePluginPath] *)
Definition DevicePluginPath : string := "/var/lib/kubelet/device-plugins/".

(* [internal/discovery/deviceplugin.go:48-55] *)
Record Device := mkDevice {
  dv_ID : string;
  dv_DevicePath : string;
  dv_SerialNumber : string;
  dv_Available : bool;
  dv_NodeName : string;
  dv_DeviceInfo : gmap string string;
}.

(** The server, its socket and its channels are I/O. *)
(* [internal/discovery/deviceplugin.go:59-73] *)
Record HSMDeviceManager := mkDeviceManager {
  resourceName : string;
  deviceType : string;
  devices : gmap string Device;
  p_socket : string;
}.

(* [internal/discovery/deviceplugin.go:76-93] *)
Definition NewHSMDeviceManager (deviceType : string) : HSMDeviceManager :=
  let fullResourceName := ResourceNamePrefix +:+ "/" +:+ to_lower deviceType in
  mkDeviceManager fullResourceName deviceType ∅ (DevicePluginPath +:+ str_replace1 "/"%char "_"%char fullResourceName +:+ ".sock").

(* [internal/discovery/deviceplugin.go:170-182] *)
Definition generateDeviceID (device : DiscoveredDevice) : string :=
  str_join "-" ([dd_NodeName device; str_replace1 "/"%char "_"%char (dd_DevicePath device)] ++
                (if bool_decide (dd_SerialNumber device ≠ "") then [dd_SerialNumber device] else [])).

(* [internal/discovery/deviceplugin.go:105-114 UpdateDevices] *)
Definition managed_device (discovered : DiscoveredDevice) : Device :=
  mkDevice (generateDeviceID discovered) (dd_DevicePath discovered) (dd_SerialNumber discovered) (dd_Available discovered)
    (dd_NodeName discovered) (dd_DeviceInfo discovered).

(* [internal/discovery/deviceplugin.go:96-123] *)
Definition UpdateDevices (discoveredDevices : list DiscoveredDevice) (m : HSMDeviceManager) : HSMDeviceManager :=
  mkDeviceManager (resourceName m) (deviceType m)
    (fold_left (λ ds d, <[generateDeviceID d := managed_device d]> ds) discoveredDevices ∅) (p_socket m).

(* [internal/discovery/deviceplugin.go:141-147] *)
Definition GetDevice (m : HSMDeviceManager) (deviceID : string) : option Device := devices m !! deviceID.
(* [internal/discovery/deviceplugin.go:165-167] *)
Definition GetResourceName (m : HSMDeviceManager) : string := resourceName m.

Section Plugin.
Context `{MapOrder}.
(* [internal/discovery/deviceplugin.go:126-138 GetAvailableDevices] *)
Definition available_devices (m : HSMDeviceManager) : list Device :=
  filter (λ d, dv_Available d = true) (range (devices m)).*2.
(* [internal/discovery/deviceplugin.go:150-162] *)
Definition GetDevicesForNode (m : HSMDeviceManager) (nodeName : string) : list Device :=
  filter (λ d, dv_NodeName d = nodeName) (range (devices m)).*2.
(** Identifiers and health, as sent to the kubelet. *)
(* [internal/discovery/deviceplugin.go:378-398] *)
Definition getPluginDevices (m : HSMDeviceManager) : list (string * string) :=
  (λ d, (dv_ID d, if dv_Available d then "Healthy" else "Unhealthy")) <$> (range (devices m)).*2.
End Plugin.

(** The device nodes and the environment of one container. *)
Record ContainerAllocateResponse := mkAllocateResponse {
  ar_Devices : list (string * string * string);
  ar_Envs : gmap string string;
}.

(* [internal/discovery/deviceplugin.go:283-316] *)
Definition Allocate (m : HSMDeviceManager) (requests : list (list string)) : list ContainerAllocateResponse :=
  (λ deviceIDs, fold_left (λ resp deviceID,
     match GetDevice m deviceID with
     | None => resp
     | Some device =>
         mkAllocateResponse (ar_Devices resp ++ [(dv_DevicePath device, dv_DevicePath device, "rw")])
           (<["HSM_SERIAL_" +:+ to_upper deviceID := dv_SerialNumber device]>
            (<["HSM_DEVICE_" +:+ to_upper deviceID := dv_DevicePath device]> (ar_Envs resp)))
     end) deviceIDs (mkAllocateResponse [] ∅)) <$> requests.

(** What the loop of [ListAndWatch] meets: the stop channel is closed, or the list is
    due (an event on the health channel, or the next turn) and sent with this result.
    The devices may change between two turns. *)
Inductive WatchTurn :=
  | WatchStopped
  | WatchSend (m : HSMDeviceManager) (sent : result unit).

(** The lists sent, and what is returned; nothing while the loop still runs. *)
(* [internal/discovery/deviceplugin.go:253-280] *)
Fixpoint ListAndWatch `{MapOrder} (turns : list WatchTurn) : list (list (string * string)) * option (result unit) :=
  match turns with
  | [] => ([], None)
  | WatchStopped :: _ => ([], Some (Ok ()))
  | WatchSend m (Err err) :: _ => ([getPluginDevices m], Some (Err err))
  | WatchSend m (Ok _) :: rest => let (lists, r) := ListAndWatch rest in (getPluginDevices m :: lists, r)
  end.

(** The plugin's socket and its registration; [Register socket endpoint resource]. *)
Record Kubelet (W : Type) := mkKubelet {
  os_Remove : string → ST W (result unit);
  MkdirAll : string → ST W (result unit);
  Listen : string → ST W (result unit);
  NewClient : string → ST W (result unit);
  Register : string → string → string → ST W (result unit);
  IsNotExist : error → bool;
}.
Arguments mkKubelet {W}.
Arguments os_Remove {W}.
Arguments MkdirAll {W}.
Arguments Listen {W}.
Arguments NewClient {W}.
Arguments Register {W}.
Arguments IsNotExist {W}.

Section Socket.
Context {W : Type} (k : Kubelet W).

(* [internal/discovery/deviceplugin.go:333-337 register] *)
Definition registrationSockets : list string :=
  ["/var/lib/kubelet/plugins_registry/kubelet.sock"; "/var/lib/kubelet/plugins/kubelet.sock"; DevicePluginPath +:+ "kubelet.sock"].

(** [err] is nil ([None]) before the first socket is tried. *)
(* [internal/discovery/deviceplugin.go:342-374 register] *)
Fixpoint register_on (m : HSMDeviceManager) (sockets : list string) (err : option error) : ST W (result unit) :=
  match sockets with
  | [] => st_ret (Err (errorf ("failed to register with kubelet on any socket path: " +:+
                               match err with Some e => error_string e | None => "<nil>" end)))
  | socket :: rest =>
      let* c := NewClient k ("unix://" +:+ socket) in
      match c with
      | Err e => register_on m rest (Some e)
      | Ok _ =>
          let* r := Register k socket (trim_prefix (p_socket m) DevicePluginPath) (resourceName m) in
          match r with Ok _ => st_ret (Ok ()) | Err e => register_on m rest (Some e) end
      end
  end.
(* [internal/discovery/deviceplugin.go:331-375] *)
Definition register (m : HSMDeviceManager) : ST W (result unit) := register_on m registrationSockets None.

(** The goroutine that serves is started whether or not the registration succeeds. *)
(* [internal/discovery/deviceplugin.go:185-225] *)
Definition Start (m : HSMDeviceManager) : ST W (result unit) :=
  let* r := os_Remove k (p_socket m) in
  match (match r with Err err => if IsNotExist k err then None else Some err | Ok _ => None end) with
  | Some err => st_ret (Err (errorf ("failed to remove existing socket: " +:+ error_string err)))
  | None =>
      st_try (MkdirAll k "/var/lib/kubelet/device-plugins") (λ err, errorf ("failed to create socket directory: " +:+ error_string err)) (λ _,
      st_try (Listen k (p_socket m))
        (λ err, errorf ("failed to listen on socket " +:+ p_socket m +:+ ": " +:+ error_string err)) (λ _,
      st_try (register m) (λ err, errorf ("failed to register with kubelet: " +:+ error_string err)) (λ _, st_ret (Ok ()))))
  end.

(** Ending the server and its streams is not part of the state. *)
(* [internal/discovery/deviceplugin.go:228-240] *)
Definition Stop (m : HSMDeviceManager) : ST W unit := let* _ := os_Remove k (p_socket m) in st_ret ().
End Socket.
