(* ===== verification/Discovery.v ===== *)
(** * internal/modes/discovery/discovery.go: the discovery agent of a node

    The agent scans the USB devices of its node for every HSMDevice, follows hotplug
    events and reports what it found in the annotation of its own pod, which the
    HSMPool controller reads.  The agent is an object next to the world; the
    Kubernetes API, libudev, the kubelet, the clock and the JSON codec are arguments.
    Times have the precision of a second, also in memory. *)

From S2P Require Import Prelude GoStd Api Kube PoolController Usb.

Local Open Scope go_scope.

(* [internal/modes/discovery/discovery.go:69-69] *)
Definition DeviceReportAnnotation : string := "hsm.j5t.io/device-report".
(* [internal/modes/discovery/discovery.go:72-72] *)
Definition keyVendorID : string := "vendor-id".
(* [internal/modes/discovery/discovery.go:74-74] *)
Definition keyProductID : string := "product-id".
(* [internal/modes/discovery/discovery.go:76-76] *)
Definition discoveryTypeUSB : string := "usb".

(** The goroutines that run [monitorLoop] are counted in [monitors]. *)
(* [internal/modes/discovery/discovery.go:140-158] *)
Record DiscoveryAgent := mkDiscoveryAgent {
  nodeName : string;
  podName : string;
  podNamespace : string;
  usbDiscoverer : USBDiscoverer;
  eventMonitoringActive : bool;
  deviceCache : gmap string (list DiscoveredDevice);
  deviceLookup : gmap string (gmap string nat);
  deviceTypes : gmap string string;
  devicePluginManagers : gmap string HSMDeviceManager;
  monitors : nat;
}.

Definition with_discoverer (f : USBDiscoverer → USBDiscoverer) (d : DiscoveryAgent) : DiscoveryAgent :=
  mkDiscoveryAgent (nodeName d) (podName d) (podNamespace d) (f (usbDiscoverer d)) (eventMonitoringActive d)
    (deviceCache d) (deviceLookup d) (deviceTypes d) (devicePluginManagers d) (monitors d).
Definition with_active (b : bool) (d : DiscoveryAgent) : DiscoveryAgent :=
  mkDiscoveryAgent (nodeName d) (podName d) (podNamespace d) (usbDiscoverer d) b
    (deviceCache d) (deviceLookup d) (deviceTypes d) (devicePluginManagers d) (monitors d).
Definition with_types (f : gmap string string → gmap string string) (d : DiscoveryAgent) : DiscoveryAgent :=
  mkDiscoveryAgent (nodeName d) (podName d) (podNamespace d) (usbDiscoverer d) (eventMonitoringActive d)
    (deviceCache d) (deviceLookup d) (f (deviceTypes d)) (devicePluginManagers d) (monitors d).
Definition with_plugins (f : gmap string HSMDeviceManager → gmap string HSMDeviceManager) (d : DiscoveryAgent) : DiscoveryAgent :=
  mkDiscoveryAgent (nodeName d) (podName d) (podNamespace d) (usbDiscoverer d) (eventMonitoringActive d)
    (deviceCache d) (deviceLookup d) (deviceTypes d) (f (devicePluginManagers d)) (monitors d).
Definition with_monitors (n : nat) (d : DiscoveryAgent) : DiscoveryAgent :=
  mkDiscoveryAgent (nodeName d) (podName d) (podNamespace d) (usbDiscoverer d) (eventMonitoringActive d)
    (deviceCache d) (deviceLookup d) (deviceTypes d) (devicePluginManagers d) n.

(** ** The device cache and its index *)

(* [internal/modes/discovery/discovery.go:831-838 updateDeviceCache] *)
Definition index_device (m : gmap string nat) (x : nat * DiscoveredDevice) : gmap string nat :=
  let m := if bool_decide (dd_SerialNumber x.2 ≠ "") then <["serial:" +:+ dd_SerialNumber x.2 := x.1]> m else m in
  if bool_decide (dd_DevicePath x.2 ≠ "") then <["path:" +:+ dd_DevicePath x.2 := x.1]> m else m.
(** The index is emptied first. *)
(* [internal/modes/discovery/discovery.go:819-839 updateDeviceCache] *)
Definition build_index (devices : list DiscoveredDevice) : gmap string nat :=
  fold_left index_device (imap pair devices) ∅.

(* [internal/modes/discovery/discovery.go:816-840] *)
Definition updateDeviceCache (hsmDeviceName : string) (devices : list DiscoveredDevice) (d : DiscoveryAgent) : DiscoveryAgent :=
  mkDiscoveryAgent (nodeName d) (podName d) (podNamespace d) (usbDiscoverer d) (eventMonitoringActive d)
    (<[hsmDeviceName := devices]> (deviceCache d)) (<[hsmDeviceName := build_index devices]> (deviceLookup d))
    (deviceTypes d) (devicePluginManagers d) (monitors d).

(** [None] is the index -1. *)
(* [internal/modes/discovery/discovery.go:843-864] *)
Definition findDeviceIndex (d : DiscoveryAgent) (hsmDeviceName : string) (device : DiscoveredDevice) : option nat :=
  match deviceLookup d !! hsmDeviceName with
  | None => None
  | Some lookupMap =>
      match (if bool_decide (dd_SerialNumber device ≠ "") then lookupMap !! ("serial:" +:+ dd_SerialNumber device) else None) with
      | Some idx => Some idx
      | None => if bool_decide (dd_DevicePath device ≠ "") then lookupMap !! ("path:" +:+ dd_DevicePath device) else None
      end
  end.

Definition set_available (b : bool) (d : DiscoveredDevice) : DiscoveredDevice :=
  mkDiscoveredDevice (dd_DevicePath d) (dd_SerialNumber d) (dd_NodeName d) (dd_LastSeen d) (dd_DeviceInfo d) b
    (dd_ResourceName d) (dd_Role d) (dd_MirroredFrom d) (dd_LastSyncTime d) (dd_Health d).
Definition set_last_seen (t : Time) (d : DiscoveredDevice) : DiscoveredDevice :=
  mkDiscoveredDevice (dd_DevicePath d) (dd_SerialNumber d) (dd_NodeName d) t (dd_DeviceInfo d) (dd_Available d)
    (dd_ResourceName d) (dd_Role d) (dd_MirroredFrom d) (dd_LastSyncTime d) (dd_Health d).
(** Marked as lost at [t]. *)
Definition mark_lost (t : Time) (d : DiscoveredDevice) : DiscoveredDevice := set_last_seen t (set_available false d).

(** The runtime error of [a[i]] on a slice of [n] elements. *)
Definition out_of_range (i n : nat) : error :=
  errorf ("runtime error: index out of range [" +:+ go_itoa (Z.of_nat i) +:+ "] with length " +:+ go_itoa (Z.of_nat n)).

(** ** Matching *)

(* [internal/modes/discovery/discovery.go:307-316] *)
Definition buildMatchCriteria (hsmDevice : HSMDevice) : MatchCriteria :=
  match hd_Discovery (hd_Spec hsmDevice) with
  | None => mkMatchCriteria true []
  | Some disc => mkMatchCriteria (ds_AutoDiscovery disc) (ds_USB disc)
  end.

(* [internal/modes/discovery/discovery.go:378-394] *)
Definition shouldDiscoverOnNode `{MapOrder} (d : DiscoveryAgent) (hsmDevice : HSMDevice) : bool :=
  if bool_decide (hd_NodeSelector (hd_Spec hsmDevice) = ∅) then true
  else existsb (λ '(key, value), bool_decide (key = labelHostname) && bool_decide (value = nodeName d))
         (range (hd_NodeSelector (hd_Spec hsmDevice))).

(** The name under which a scan and the cache are compared. *)
(* [internal/modes/discovery/discovery.go:694-699 mergeScanIntoCache] *)
Definition scan_key (dev : DiscoveredDevice) : string :=
  if bool_decide (dd_SerialNumber dev ≠ "") then "serial:" +:+ dd_SerialNumber dev else "path:" +:+ dd_DevicePath dev.

(* [internal/modes/discovery/discovery.go:701-704 mergeScanIntoCache] *)
Definition scanned_by_key (scanned : list DiscoveredDevice) : gmap string DiscoveredDevice :=
  fold_left (λ m dev, <[scan_key dev := dev]> m) scanned ∅.

(* [internal/modes/discovery/discovery.go:352-368 discoverUSBDevices] *)
Definition scanned_device (node : string) (now : Time) (usbDev : USBDevice) : DiscoveredDevice :=
  mkDiscoveredDevice (ub_DevicePath usbDev) (ub_SerialNumber usbDev) node now
    (ub_DeviceInfo usbDev ∪
     <[keyVendorID := ub_VendorID usbDev]> (<[keyProductID := ub_ProductID usbDev]>
     (<["manufacturer" := ub_Manufacturer usbDev]> (<["product" := ub_Product usbDev]>
     {["discovery-type" := discoveryTypeUSB]}))))
    true "" "" "" None "".

Section Discovery.
Context `{MapOrder} {W : Type} (client : KubeClient W) (Patch : Pod → Pod → ST W (result unit)).
Context (udev : Udev W) (kubelet : Kubelet W) (time_Now : ST W Z).
Context (json_Marshal : PodDiscoveryReport → result string).

(** The agent next to the world. *)
Definition on_world {A} (m : ST W A) : ST (DiscoveryAgent * W) A := lift_st snd (λ w x, (x.1, w)) m.
Definition get_agent : ST (DiscoveryAgent * W) DiscoveryAgent := λ x, (x.1, x).
Definition modify_agent (f : DiscoveryAgent → DiscoveryAgent) : ST (DiscoveryAgent * W) unit := λ x, ((), (f x.1, x.2)).
Definition Now : ST (DiscoveryAgent * W) Time := let* now := on_world time_Now in st_ret (metav1_Now now).

(** ** Device plugins *)

(* [internal/modes/discovery/discovery.go:867-888] *)
Definition ensureDevicePluginForType (deviceType : string) : ST (DiscoveryAgent * W) (result HSMDeviceManager) :=
  let* d := get_agent in
  match devicePluginManagers d !! deviceType with
  | Some manager => st_ret (Ok manager)
  | None =>
      let manager := NewHSMDeviceManager deviceType in
      st_try (on_world (Start kubelet manager)) (wrapf ("failed to start device plugin for " +:+ deviceType)) (λ _,
        do! modify_agent (with_plugins (insert deviceType manager)) in st_ret (Ok manager))
  end.

(** The manager is shared with the map: updating it updates its entry. *)
(* [internal/modes/discovery/discovery.go:907-927] *)
Definition updateDevicePluginByType (deviceType : string) (devices : list DiscoveredDevice) : ST (DiscoveryAgent * W) (result unit) :=
  st_try (ensureDevicePluginForType deviceType) id (λ manager,
    let* d := get_agent in
    let nodeDevices := filter (λ device, dd_NodeName device = nodeName d ∧ dd_Available device = true) devices in
    do! modify_agent (with_plugins (insert deviceType (UpdateDevices nodeDevices manager))) in
    st_ret (Ok ())).

(* [internal/modes/discovery/discovery.go:891-893] *)
Definition updateDevicePlugin (hsmDevice : HSMDevice) (devices : list DiscoveredDevice) : ST (DiscoveryAgent * W) (result unit) :=
  updateDevicePluginByType (hd_DeviceType (hd_Spec hsmDevice)) devices.

(* [internal/modes/discovery/discovery.go:896-904] *)
Definition updateDevicePluginByName (hsmDeviceName : string) (devices : list DiscoveredDevice) : ST (DiscoveryAgent * W) (result unit) :=
  let* d := get_agent in
  match deviceTypes d !! hsmDeviceName with
  | None => st_ret (Ok ())
  | Some deviceType => updateDevicePluginByType deviceType devices
  end.

(** The order of the map does not matter: each manager has its own socket. *)
(* [internal/modes/discovery/discovery.go:930-939] *)
Definition stopAllDevicePlugins : ST (DiscoveryAgent * W) unit :=
  let* d := get_agent in
  do! st_fold (λ _ '(_, manager), on_world (Stop kubelet manager)) (range (devicePluginManagers d)) () in
  modify_agent (with_plugins (λ _, ∅)).

(** ** The report *)

Definition with_annotations (f : gmap string string → gmap string string) (pod : Pod) : Pod :=
  let m := pod_meta pod in
  mkPod (mkObjectMeta (om_Name m) (om_Namespace m) (om_UID m) (om_ResourceVersion m) (om_Labels m) (f (om_Annotations m))
           (om_Finalizers m) (om_DeletionTimestamp m) (om_OwnerReferences m) (om_CreationTimestamp m) (om_Generation m))
    (pod_NodeName pod) (pod_Phase pod) (pod_Reason pod) (pod_PodIP pod) (pod_PodIPs pod) (pod_Conditions pod).

(** [Patch podCopy pod] is the merge patch from [pod] to [podCopy]. *)
(* [internal/modes/discovery/discovery.go:397-448] *)
Definition updatePodAnnotation (hsmDeviceName : string) (discoveredDevices : list DiscoveredDevice) : ST (DiscoveryAgent * W) (result unit) :=
  let* d := get_agent in
  let* now := Now in
  match json_Marshal (mkPodDiscoveryReport hsmDeviceName (nodeName d) discoveredDevices now "completed" "") with
  | Err err => st_ret (Err (wrapf "failed to marshal discovery report" err))
  | Ok reportJSON =>
      st_try (on_world (api_Get (Pods client) (podNamespace d) (podName d)))
        (wrapf ("failed to get pod " +:+ podNamespace d +:+ "/" +:+ podName d)) (λ pod,
      st_try (on_world (Patch (with_annotations (insert DeviceReportAnnotation reportJSON) pod) pod))
        (wrapf "failed to update pod annotation") (λ _, st_ret (Ok ())))
  end.

(** ** Scans *)

(** [u.allowlist] is the discoverer's; the clock is read for every device. *)
(* [internal/modes/discovery/discovery.go:342-375] *)
Definition discoverUSBDevices (hsmDevice : HSMDevice) : ST (DiscoveryAgent * W) (result (list DiscoveredDevice)) :=
  let* d := get_agent in
  st_try (on_world (DiscoverDevices udev (allowlist (usbDiscoverer d)) (buildMatchCriteria hsmDevice)))
    (wrapf "USB discovery failed") (λ usbDevices,
  let* devices := st_fold (λ devices usbDev,
    let* now := Now in st_ret (devices ++ [scanned_device (nodeName d) now usbDev])) usbDevices [] in
  st_ret (Ok devices)).

(* [internal/modes/discovery/discovery.go:319-339] *)
Definition discoverDevicesForSpec (hsmDevice : HSMDevice) : ST (DiscoveryAgent * W) (result (list DiscoveredDevice)) :=
  st_try (discoverUSBDevices hsmDevice) id (λ devices,
    let maxDevices := hd_MaxDevices (hd_Spec hsmDevice) in
    st_ret (Ok (if (0 <? maxDevices) && (maxDevices <? to_int32 (Z.of_nat (length devices)))
                then take (Z.to_nat maxDevices) devices else devices))).

(** One cached device against the scan: what replaces it, the keys matched so far and
    whether something changed. *)
(* [internal/modes/discovery/discovery.go:712-733 mergeScanIntoCache] *)
Definition merge_cached (scannedByKey : gmap string DiscoveredDevice)
    (acc : list DiscoveredDevice * gset string * bool) (old : DiscoveredDevice) :
    ST (DiscoveryAgent * W) (list DiscoveredDevice * gset string * bool) :=
  let '(merged, matched, changed) := acc in
  match scannedByKey !! scan_key old with
  | Some fresh =>
      let changed := changed || bool_decide (dd_DevicePath old ≠ dd_DevicePath fresh) || negb (dd_Available old) in
      st_ret (merged ++ [set_available true fresh], {[scan_key old]} ∪ matched, changed)
  | None =>
      if dd_Available old then let* now := Now in st_ret (merged ++ [mark_lost now old], matched, true)
      else st_ret (merged ++ [old], matched, changed)
  end.

(** The devices of the scan that the cache did not have. *)
(* [internal/modes/discovery/discovery.go:736-743 mergeScanIntoCache] *)
Definition unmatched (matched : gset string) (scanned : list DiscoveredDevice) : list DiscoveredDevice :=
  set_available true <$> filter (λ dev, scan_key dev ∉ matched) scanned.

(* [internal/modes/discovery/discovery.go:690-746] *)
Definition mergeScanIntoCache (hsmDeviceName : string) (scanned : list DiscoveredDevice) :
    ST (DiscoveryAgent * W) (list DiscoveredDevice * bool) :=
  let* d := get_agent in
  let existing := default [] (deviceCache d !! hsmDeviceName) in
  let* '(merged, matched, changed) := st_fold (merge_cached (scanned_by_key scanned)) existing ([], ∅, false) in
  let new := unmatched matched scanned in
  st_ret (merged ++ new, changed || bool_decide (new ≠ [])).

(* [internal/modes/discovery/discovery.go:657-681] *)
Definition reconcileHSMDeviceScan (hsmDevice : HSMDevice) : ST (DiscoveryAgent * W) (result unit) :=
  let name := om_Name (hd_meta hsmDevice) in
  st_try (discoverDevicesForSpec hsmDevice) id (λ scanned,
    let* '(merged, changed) := mergeScanIntoCache name scanned in
    if negb changed then st_ret (Ok ())
    else
      do! modify_agent (updateDeviceCache name merged) in
      do! updateDevicePlugin hsmDevice merged in
      st_try (updatePodAnnotation name merged)
        (wrapf ("failed to update pod annotation after periodic scan for " +:+ quoted name)) (λ _, st_ret (Ok ()))).

(** 5 minutes *)
(* [internal/modes/discovery/discovery.go:751-751 cleanupStaleDevices] *)
Definition cleanupThreshold : Z := 5 * Minute.

(** The devices of one HSMDevice that stay. *)
(* [internal/modes/discovery/discovery.go:753-768 cleanupStaleDevices] *)
Definition keep_active (devices : list DiscoveredDevice) : ST (DiscoveryAgent * W) (list DiscoveredDevice) :=
  st_fold (λ active device,
    if dd_Available device then st_ret (active ++ [device])
    else let* now := on_world time_Now in
         if cleanupThreshold <? time_Since now (dd_LastSeen device) then st_ret active
         else st_ret (active ++ [device])) devices [].

(* [internal/modes/discovery/discovery.go:750-782] *)
Definition cleanupStaleDevices : ST (DiscoveryAgent * W) unit :=
  let* d := get_agent in
  st_fold (λ _ '(hsmDeviceName, devices),
    let* activeDevices := keep_active devices in
    if (length activeDevices <? length devices)%nat then
      do! modify_agent (updateDeviceCache hsmDeviceName activeDevices) in
      do! updatePodAnnotation hsmDeviceName activeDevices in st_ret ()
    else st_ret ()) (range (deviceCache d)) ().

(* [internal/modes/discovery/discovery.go:785-797] *)
Definition registerSpecForMonitoring (hsmDevice : HSMDevice) : ST (DiscoveryAgent * W) unit :=
  let* d := get_agent in
  if negb (shouldDiscoverOnNode d hsmDevice) then st_ret ()
  else modify_agent (with_discoverer (AddSpecForMonitoring (om_Name (hd_meta hsmDevice)) (buildMatchCriteria hsmDevice))).

(* [internal/modes/discovery/discovery.go:800-813] *)
Definition reregisterAllSpecs : ST (DiscoveryAgent * W) (result unit) :=
  st_try (on_world (api_List (HSMDevices client) None ∅)) (wrapf "failed to list HSMDevice resources") (λ items,
  do! st_fold (λ _ hsmDevice, registerSpecForMonitoring hsmDevice) items () in st_ret (Ok ())).

(* [internal/modes/discovery/discovery.go:629-652] *)
Definition reconcileDevices : ST (DiscoveryAgent * W) (result unit) :=
  st_try (on_world (api_List (HSMDevices client) None ∅))
    (wrapf "failed to list HSMDevice resources during reconciliation") (λ items,
  do! st_fold (λ _ hsmDevice,
    do! registerSpecForMonitoring hsmDevice in
    let* d := get_agent in
    if negb (shouldDiscoverOnNode d hsmDevice) then st_ret ()
    else do! reconcileHSMDeviceScan hsmDevice in st_ret ()) items () in
  do! cleanupStaleDevices in
  st_ret (Ok ())).

(* [internal/modes/discovery/discovery.go:257-297] *)
Definition processHSMDevice (hsmDevice : HSMDevice) : ST (DiscoveryAgent * W) (result unit) :=
  let name := om_Name (hd_meta hsmDevice) in
  let* d := get_agent in
  if negb (shouldDiscoverOnNode d hsmDevice) then st_ret (Ok ())
  else
    do! modify_agent (with_types (insert name (hd_DeviceType (hd_Spec hsmDevice)))) in
    st_try (discoverDevicesForSpec hsmDevice) id (λ discoveredDevices,
      do! modify_agent (updateDeviceCache name discoveredDevices) in
      do! updateDevicePlugin hsmDevice discoveredDevices in
      st_try (updatePodAnnotation name discoveredDevices) id (λ _, st_ret (Ok ()))).

(** The criteria of HSMDevices that are gone are dropped. *)
(* [internal/modes/discovery/discovery.go:246-251 performDiscovery] *)
Definition prune_monitoring (current : list string) : ST (DiscoveryAgent * W) unit :=
  let* d := get_agent in
  st_fold (λ _ name,
    if bool_decide (name ∈ current) then st_ret ()
    else do! modify_agent (with_discoverer (RemoveSpecFromMonitoring name)) in
         modify_agent (with_types (delete name))) (MonitoredDeviceNames (usbDiscoverer d)) ().

(* [internal/modes/discovery/discovery.go:224-254] *)
Definition performDiscovery : ST (DiscoveryAgent * W) (result unit) :=
  st_try (on_world (api_List (HSMDevices client) None ∅)) (wrapf "failed to list HSMDevice resources") (λ items,
  do! st_fold (λ _ hsmDevice,
    do! processHSMDevice hsmDevice in registerSpecForMonitoring hsmDevice) items () in
  do! prune_monitoring ((λ hsmDevice, om_Name (hd_meta hsmDevice)) <$> items) in
  st_ret (Ok ())).

(** ** Events *)

(** The cache, then the report, then the device plugin; failures are logged. *)
(* [internal/modes/discovery/discovery.go:552-569 handleDeviceAdd] *)
Definition publish (hsmDeviceName : string) (devices : list DiscoveredDevice) : ST (DiscoveryAgent * W) unit :=
  do! modify_agent (updateDeviceCache hsmDeviceName devices) in
  do! updatePodAnnotation hsmDeviceName devices in
  do! updateDevicePluginByName hsmDeviceName devices in st_ret ().

(* [internal/modes/discovery/discovery.go:503-570] *)
Definition handleDeviceAdd (event : USBEvent) : ST (DiscoveryAgent * W) (result unit) :=
  let* d := get_agent in
  let* now := Now in
  let name := ue_HSMDeviceName event in
  let device := ConvertToDiscoveredDevice now (ue_Device event) (nodeName d) in
  let currentDevices := default [] (deviceCache d !! name) in
  match findDeviceIndex d name device with
  | Some existingIdx =>
      if (existingIdx <? length currentDevices)%nat
      then do! publish name (<[existingIdx := set_available true device]> currentDevices) in st_ret (Ok ())
      else st_ret (Err (out_of_range existingIdx (length currentDevices)))
  | None => do! publish name (currentDevices ++ [device]) in st_ret (Ok ())
  end.

(* [internal/modes/discovery/discovery.go:573-616] *)
Definition handleDeviceRemove (event : USBEvent) : ST (DiscoveryAgent * W) (result unit) :=
  let* d := get_agent in
  let name := ue_HSMDeviceName event in
  match deviceCache d !! name with
  | None => st_ret (Ok ())
  | Some currentDevices =>
      let* now := Now in
      let device := ConvertToDiscoveredDevice now (ue_Device event) (nodeName d) in
      match findDeviceIndex d name device with
      | None => st_ret (Ok ())
      | Some deviceIdx =>
          match currentDevices !! deviceIdx with
          | None => st_ret (Err (out_of_range deviceIdx (length currentDevices)))
          | Some old =>
              let* now := Now in
              do! publish name (<[deviceIdx := mark_lost now old]> currentDevices) in st_ret (Ok ())
          end
      end
  end.

(* [internal/modes/discovery/discovery.go:484-500] *)
Definition handleUSBEvent (event : USBEvent) : ST (DiscoveryAgent * W) (result unit) :=
  if bool_decide (ue_Action event = "add") then handleDeviceAdd event
  else if bool_decide (ue_Action event = "remove") then handleDeviceRemove event
  else st_ret (Ok ()).

(** [usbDiscoverer.StartEventMonitoring]: on success one more goroutine runs
    [monitorLoop]. *)
Definition start_monitor : ST (DiscoveryAgent * W) (result unit) :=
  let* d := get_agent in
  let* '(r, u) := on_world (StartEventMonitoring udev (usbDiscoverer d)) in
  do! modify_agent (with_discoverer (λ _, u)) in
  match r with
  | Err err => st_ret (Err err)
  | Ok _ => do! modify_agent (λ d, with_monitors (S (monitors d)) d) in st_ret (Ok ())
  end.

(* [internal/modes/discovery/discovery.go:451-459] *)
Definition startEventMonitoring : ST (DiscoveryAgent * W) (result unit) :=
  st_try start_monitor (wrapf "failed to start USB event monitoring") (λ _, st_ret (Ok ())).

(* [internal/modes/discovery/discovery.go:462-481] *)
Definition restartEventMonitoring : ST (DiscoveryAgent * W) (result unit) :=
  do! modify_agent (with_discoverer StopEventMonitoring) in
  st_try reregisterAllSpecs (wrapf "failed to re-register specs") (λ _,
  st_try start_monitor (wrapf "failed to restart USB event monitoring") (λ _,
  do! modify_agent (with_active true) in st_ret (Ok ()))).

(** ** The main loop

    Its turns, interleaved with those of the monitor goroutines: the context is done,
    the event channel is received from, the ticker fires, or a monitor gets an input.
    A monitor whose [DeviceChan] fails ends at once, as on [ContextDone].  A panic of
    either ends the process. *)
Inductive Turn :=
  | TurnDone
  | TurnEvent
  | TurnTick
  | TurnMonitor (input : MonitorInput).

Definition ends_monitor (input : MonitorInput) : bool :=
  match input with DeviceReceived _ | ErrorReceived => false | _ => true end.

(** A turn of a monitor, if one runs. *)
Definition monitor_turn (input : MonitorInput) : ST (DiscoveryAgent * W) (result unit) :=
  let* d := get_agent in
  match monitors d with
  | O => st_ret (Ok ())
  | S n =>
      let* now := Now in
      match monitorLoop now (Ok ()) [input] (usbDiscoverer d) with
      | Err panic => st_ret (Err panic)
      | Ok u => do! modify_agent (λ d, with_monitors (if ends_monitor input then n else S n) (with_discoverer (λ _, u) d)) in
                st_ret (Ok ())
      end
  end.

Definition with_channel (l : list USBEvent) (u : USBDiscoverer) : USBDiscoverer :=
  mkDiscoverer (allowlist u) (monitor u) l (channel_closed u) (activeSpecs u).

(** Receiving from the event channel; it blocks while the channel is open and empty. *)
(* [internal/modes/discovery/discovery.go:202-211 Run] *)
Definition event_turn : ST (DiscoveryAgent * W) (result unit) :=
  let* d := get_agent in
  match eventChannel (usbDiscoverer d) with
  | event :: rest => do! modify_agent (with_discoverer (with_channel rest)) in handleUSBEvent event
  | [] =>
      if channel_closed (usbDiscoverer d) then
        let* r := restartEventMonitoring in
        match r with
        | Err _ => do! modify_agent (with_active false) in st_ret (Ok ())
        | Ok _ => st_ret (Ok ())
        end
      else st_ret (Ok ())
  end.

(** The result: whether the loop goes on. *)
(* [internal/modes/discovery/discovery.go:194-220 Run] *)
Definition loop_turn (turn : Turn) : ST (DiscoveryAgent * W) (result bool) :=
  match turn with
  | TurnDone =>
      do! modify_agent (with_discoverer StopEventMonitoring) in
      do! stopAllDevicePlugins in st_ret (Ok false)
  | TurnEvent => st_try event_turn id (λ _, st_ret (Ok true))
  | TurnTick => do! reconcileDevices in st_ret (Ok true)
  | TurnMonitor input => st_try (monitor_turn input) id (λ _, st_ret (Ok true))
  end.

Fixpoint run_turns (turns : list Turn) : ST (DiscoveryAgent * W) (result bool) :=
  match turns with
  | [] => st_ret (Ok true)
  | turn :: rest =>
      st_try (loop_turn turn) id (λ go_on, if (go_on : bool) then run_turns rest else st_ret (Ok false))
  end.

(** The state [Run] starts from. *)
(* [internal/modes/discovery/discovery.go:163-168 Run] *)
Definition fresh_agent (d : DiscoveryAgent) : DiscoveryAgent :=
  mkDiscoveryAgent (nodeName d) (podName d) (podNamespace d) (usbDiscoverer d) (eventMonitoringActive d) ∅ ∅ ∅ ∅ (monitors d).

(* [internal/modes/discovery/discovery.go:161-221 Run] *)
Definition Run (turns : list Turn) : ST (DiscoveryAgent * W) (result bool) :=
  do! modify_agent fresh_agent in
  do! performDiscovery in
  let* r := startEventMonitoring in
  do! modify_agent (with_active (is_Ok r)) in
  run_turns turns.
End Discovery.
