(* ===== verification/DiscoverySpec.v ===== *)
(** * The discovery agent: what its operations guarantee

    Theorems on [Discovery]: the lookup index always describes the cache, merging a
    scan, the report the HSMPool controller reads, and the event channel. *)

From S2P Require Import Prelude GoStd Api Kube PoolController Usb Discovery.

Local Open Scope go_scope.

(** ** The index *)

Lemma fold_index_lookup l n m k i :
  fold_left index_device (imap (λ j, pair (n + j)%nat) l) m !! k = Some i →
  m !! k = Some i ∨
  ∃ x, l !! (i - n)%nat = Some x ∧ (n ≤ i)%nat ∧
       (k = "serial:" +:+ dd_SerialNumber x ∨ k = "path:" +:+ dd_DevicePath x).
Proof.
  revert n m. induction l as [|x l IH]; intros n m; [by left|]. cbn [imap fold_left]. rewrite Nat.add_0_r.
  rewrite (imap_ext _ (λ j, pair (S n + j)%nat)) by (intros; simpl; f_equal; lia).
  intros [Hm|(y & Hy & Hn & Hk)]%IH.
  - unfold index_device in Hm. simpl in Hm. repeat case_bool_decide; rewrite ?lookup_insert_Some in Hm.
    all: destruct_or?; destruct_and?; subst; rewrite ?lookup_insert_Some in *; destruct_or?; destruct_and?; subst; auto.
    all: right; exists x; rewrite Nat.sub_diag; naive_solver.
  - right. exists y. split; [|split; [lia|done]]. replace (i - n)%nat with (S (i - S n)) by lia. done.
Qed.

(** An index entry names a device with that serial number or path. *)
Lemma build_index_lookup devices k i :
  build_index devices !! k = Some i →
  ∃ x, devices !! i = Some x ∧ (k = "serial:" +:+ dd_SerialNumber x ∨ k = "path:" +:+ dd_DevicePath x).
Proof.
  unfold build_index. rewrite (imap_ext _ (λ j, pair (0 + j)%nat)) by done.
  intros [E|(x & Hx & _ & Hk)]%fold_index_lookup; [done|]. rewrite Nat.sub_0_r in Hx. by exists x.
Qed.

(** The index is that of the cache. *)
Definition index_ok (d : DiscoveryAgent) : Prop :=
  ∀ name, deviceLookup d !! name = build_index <$> deviceCache d !! name.

Lemma index_ok_update name devices d : index_ok d → index_ok (updateDeviceCache name devices d).
Proof.
  intros Hd n. cbn [updateDeviceCache deviceLookup deviceCache].
  destruct (decide (n = name)) as [->|Hn]; [by rewrite !lookup_insert_eq|]. rewrite !lookup_insert_ne by done. apply Hd.
Qed.

Lemma findDeviceIndex_in_range d name device i :
  index_ok d → findDeviceIndex d name device = Some i →
  ∃ devices x, deviceCache d !! name = Some devices ∧ devices !! i = Some x ∧
    (dd_SerialNumber x = dd_SerialNumber device ∨ dd_DevicePath x = dd_DevicePath device).
Proof.
  intros Hd. unfold findDeviceIndex. rewrite Hd. destruct (deviceCache d !! name) as [devices|]; [simpl|done].
  assert (∀ k, build_index devices !! k = Some i →
    k = "serial:" +:+ dd_SerialNumber device ∨ k = "path:" +:+ dd_DevicePath device →
    ∃ x, devices !! i = Some x ∧ (dd_SerialNumber x = dd_SerialNumber device ∨ dd_DevicePath x = dd_DevicePath device)) as Hx.
  { intros k (x & Hx & Hk)%build_index_lookup Hk'. exists x. split; [done|].
    destruct Hk as [-> | ->], Hk' as [E|E]; try done; injection E; auto. }
  intros Hi. exists devices. destruct (bool_decide (dd_SerialNumber device ≠ "")).
  - destruct (build_index devices !! _) as [j|] eqn:E; [injection Hi as ->; destruct (Hx _ E) as (x & ? & ?); [by left|by exists x]|].
    case_bool_decide; [|done]. destruct (Hx _ Hi) as (x & ? & ?); [by right|by exists x].
  - case_bool_decide; [|done]. destruct (Hx _ Hi) as (x & ? & ?); [by right|by exists x].
Qed.

Lemma Now_run {W} (time_Now : ST W Z) (d : DiscoveryAgent) w : ∃ now w', Now time_Now (d, w) = (now, (d, w')).
Proof.
  unfold Now, on_world, lift_st, st_bind, st_ret. simpl. destruct (time_Now w) as [n w']. by exists (metav1_Now n), w'.
Qed.

Lemma Now_clock {W} (time_Now : ST W Z) (d : DiscoveryAgent) w :
  Now time_Now (d, w) = (metav1_Now (time_Now w).1, (d, (time_Now w).2)).
Proof. unfold Now, on_world, lift_st, st_bind, st_ret. simpl. by destruct (time_Now w). Qed.

(** ** Relations every operation respects

    A relation between agents that each elementary change respects is respected by
    every operation, whatever the world does. *)
Class Respected (R : relation DiscoveryAgent) : Prop := {
  respected_order :: PreOrder R;
  respected_cache name devices d : R d (updateDeviceCache name devices d);
  respected_plugins f d : R d (with_plugins f d);
  respected_types f d : R d (with_types f d);
  respected_active b d : R d (with_active b d);
  respected_monitors n d : R d (with_monitors n d);
  respected_discoverer f d :
    channel_closed (f (usbDiscoverer d)) = channel_closed (usbDiscoverer d) → R d (with_discoverer f d);
}.

Section Respected.
Context `{MapOrder} {W : Type} (client : KubeClient W) (Patch : Pod → Pod → ST W (result unit)).
Context (udev : Udev W) (kubelet : Kubelet W) (time_Now : ST W Z).
Context (json_Marshal : PodDiscoveryReport → result string).
Context (R : relation DiscoveryAgent) `{!Respected R}.

Definition on_agent (x x' : DiscoveryAgent * W) : Prop := R x.1 x'.1.
#[export] Instance on_agent_PreOrder : PreOrder on_agent.
Proof. split; [intros x|intros x y z]; unfold on_agent; [reflexivity|apply transitivity]. Qed.

Lemma on_world_respects {A} (m : ST W A) : preserves on_agent (on_world m).
Proof. intros x. unfold on_world, lift_st, on_agent. by destruct (m x.2). Qed.
Lemma get_agent_respects : preserves on_agent get_agent.
Proof. intros x. unfold on_agent. simpl. reflexivity. Qed.
Lemma modify_respects f : (∀ d, R d (f d)) → preserves on_agent (modify_agent f).
Proof. intros Hf x. apply Hf. Qed.
Lemma Now_respects : preserves on_agent (Now time_Now).
Proof. apply (preserves_bind on_agent); [apply on_world_respects|]. intros. apply (preserves_ret on_agent). Qed.

Create HintDb respects discriminated.
(** Walk through the operations, one constructor of the monad at a time. *)
Ltac respect :=
  repeat first
    [ solve [auto 1 with respects nocore]
    | match goal with
      | |- preserves _ (st_ret _) => apply (preserves_ret on_agent)
      | |- preserves _ (on_world _) => apply on_world_respects
      | |- preserves _ get_agent => apply get_agent_respects
      | |- preserves _ (Now _) => apply Now_respects
      | |- preserves _ (modify_agent _) => apply modify_respects; intros
      | |- preserves _ (st_try _ _ _) => apply (preserves_try on_agent); [|intros]
      | |- preserves _ (st_bind _ _) => apply (preserves_bind on_agent); [|intros]
      | |- preserves _ (st_fold _ _ _) => apply (preserves_fold on_agent); intros
      | |- preserves _ (match ?x with _ => _ end) => destruct x
      end
    | solve [apply respected_cache | apply respected_plugins | apply respected_types | apply respected_active
            | apply respected_monitors | apply respected_discoverer; done] ].

Lemma updateDevicePluginByType_respects ty l : preserves on_agent (updateDevicePluginByType kubelet ty l).
Proof. unfold updateDevicePluginByType, ensureDevicePluginForType. respect. Qed.
#[local] Hint Resolve updateDevicePluginByType_respects : respects.
Lemma updateDevicePluginByName_respects n l : preserves on_agent (updateDevicePluginByName kubelet n l).
Proof. unfold updateDevicePluginByName. respect. Qed.
#[local] Hint Resolve updateDevicePluginByName_respects : respects.
Lemma stopAllDevicePlugins_respects : preserves on_agent (stopAllDevicePlugins kubelet).
Proof. unfold stopAllDevicePlugins. respect. Qed.
#[local] Hint Resolve stopAllDevicePlugins_respects : respects.
Lemma updatePodAnnotation_respects n l : preserves on_agent (updatePodAnnotation client Patch time_Now json_Marshal n l).
Proof. unfold updatePodAnnotation. respect. Qed.
#[local] Hint Resolve updatePodAnnotation_respects : respects.
Lemma discoverDevicesForSpec_respects h : preserves on_agent (discoverDevicesForSpec udev time_Now h).
Proof. unfold discoverDevicesForSpec, discoverUSBDevices. respect. Qed.
#[local] Hint Resolve discoverDevicesForSpec_respects : respects.
Lemma mergeScanIntoCache_respects n l : preserves on_agent (mergeScanIntoCache time_Now n l).
Proof. unfold mergeScanIntoCache, merge_cached. respect. Qed.
#[local] Hint Resolve mergeScanIntoCache_respects : respects.
Lemma publish_respects n l : preserves on_agent (publish client Patch kubelet time_Now json_Marshal n l).
Proof. unfold publish. respect. Qed.
#[local] Hint Resolve publish_respects : respects.
Lemma registerSpecForMonitoring_respects h : preserves on_agent (@registerSpecForMonitoring _ W h).
Proof. unfold registerSpecForMonitoring. respect. Qed.
#[local] Hint Resolve registerSpecForMonitoring_respects : respects.

Lemma handleUSBEvent_respects e : preserves on_agent (handleUSBEvent client Patch kubelet time_Now json_Marshal e).
Proof. unfold handleUSBEvent, handleDeviceAdd, handleDeviceRemove. respect. Qed.
#[local] Hint Resolve handleUSBEvent_respects : respects.

Lemma reconcileDevices_respects : preserves on_agent (reconcileDevices client Patch udev kubelet time_Now json_Marshal).
Proof.
  unfold reconcileDevices, reconcileHSMDeviceScan, updateDevicePlugin, cleanupStaleDevices, keep_active. respect.
Qed.
#[local] Hint Resolve reconcileDevices_respects : respects.

Lemma performDiscovery_respects : preserves on_agent (performDiscovery client Patch udev kubelet time_Now json_Marshal).
Proof.
  unfold performDiscovery, processHSMDevice, updateDevicePlugin, prune_monitoring. respect.
Qed.
#[local] Hint Resolve performDiscovery_respects : respects.

(** The monitor starts on the discoverer it was given. *)
Lemma start_monitor_respects : preserves on_agent (start_monitor udev).
Proof.
  intros x. unfold start_monitor, StartEventMonitoring, get_agent, on_world, modify_agent, lift_st, on_agent.
  unfold st_bind, st_ret. cbn -[with_discoverer]. destruct (FilterAddMatchSubsystem udev "usb" x.2) as [[[]|e] w']; cbn -[with_discoverer].
  - etrans; [apply (respected_discoverer (λ _, with_monitor true (usbDiscoverer x.1)))|apply respected_monitors]. done.
  - apply (respected_discoverer (λ _, with_monitor true (usbDiscoverer x.1))). done.
Qed.
#[local] Hint Resolve start_monitor_respects : respects.

Lemma startEventMonitoring_respects : preserves on_agent (startEventMonitoring udev).
Proof. unfold startEventMonitoring. respect. Qed.
Lemma restartEventMonitoring_respects : preserves on_agent (restartEventMonitoring client udev).
Proof.
  unfold restartEventMonitoring, reregisterAllSpecs. respect.
Qed.
#[local] Hint Resolve restartEventMonitoring_respects : respects.

(** The turns, given what a monitor may do to the discoverer. *)
Context (monitor_respects : ∀ now input d u n, monitorLoop now (Ok ()) [input] (usbDiscoverer d) = Ok u →
           R d (with_monitors n (with_discoverer (λ _, u) d))).

Lemma loop_turn_respects turn : preserves on_agent (loop_turn client Patch udev kubelet time_Now json_Marshal turn).
Proof.
  destruct turn as [| | |input]; unfold loop_turn, event_turn; respect.
  intros [d w]. unfold monitor_turn, on_agent. rewrite (st_bind_eq get_agent _ _ d (d, w)) by done.
  destruct (monitors d) as [|n]; [simpl; reflexivity|]. destruct (Now_run time_Now d w) as (now & w' & E). rewrite (st_bind_eq _ _ _ _ _ E).
  destruct (monitorLoop now (Ok ()) [input] (usbDiscoverer d)) as [u|e] eqn:Em; [|simpl; reflexivity].
  exact (monitor_respects now input d u _ Em).
Qed.
#[local] Hint Resolve loop_turn_respects : respects.

Lemma run_turns_respects turns : preserves on_agent (run_turns client Patch udev kubelet time_Now json_Marshal turns).
Proof. induction turns as [|turn turns IH]; cbn [run_turns]; respect. Qed.
End Respected.

#[global] Instance index_respected : Respected (λ d d', index_ok d → index_ok d').
Proof. split; try (by intros; assumption); [split; [by intros ?|intros ?????; auto]|]. intros. by apply index_ok_update. Qed.

(** A closed channel stays closed. *)
#[global] Instance closed_respected :
  Respected (λ d d', channel_closed (usbDiscoverer d) = true → channel_closed (usbDiscoverer d') = true).
Proof.
  split; try (by intros; assumption); [split; [by intros ?|intros ?????; auto]|].
  intros f d Hf Hd. cbn [with_discoverer usbDiscoverer]. congruence.
Qed.

(** ** The main loop *)
Definition channel_panic (e : error) : Prop := e = close_of_closed_channel ∨ e = send_on_closed_channel.

Lemma send_all_closed events u :
  channel_closed u = true → send_all events u = match events with [] => Ok u | _ => Err send_on_closed_channel end.
Proof.
  intros Hu. destruct events as [|e l]; [done|]. unfold send_all. cbn [fold_left]. unfold send_event at 2. rewrite Hu.
  induction l as [|e' l IH]; [done|exact IH].
Qed.

Lemma send_all_open events u : channel_closed u = false → ∃ u', send_all events u = Ok u' ∧ channel_closed u' = false.
Proof.
  unfold send_all. revert u. induction events as [|e l IH]; intros u Hu; [by exists u|]. cbn [fold_left].
  unfold send_event at 2. rewrite Hu. destruct (_ <? _)%nat; by apply IH.
Qed.

Section Monitors.
Context `{MapOrder}.

Lemma handleDeviceEvent_panics now device u e : handleDeviceEvent now device u = Err e → e = send_on_closed_channel ∧ channel_closed u = true.
Proof.
  unfold handleDeviceEvent. destruct (_ && _); [done|]. destruct (convertUdevDevice device) as [dev|]; [|done].
  set (events := _ <$> _). destruct (channel_closed u) eqn:Hu.
  - rewrite send_all_closed by done. destruct events; [done|]. by intros [= <-].
  - by destruct (send_all_open events u Hu) as (u' & -> & _).
Qed.

Lemma monitorLoop_panics now input u e : monitorLoop now (Ok ()) [input] u = Err e → channel_panic e.
Proof.
  unfold channel_panic. destruct input as [|device| | |]; cbn; unfold close_events.
  2: { destruct (handleDeviceEvent now device u) as [u'|e'] eqn:E; [done|]. intros [= <-].
       apply handleDeviceEvent_panics in E as [-> _]. by right. }
  all: try done; destruct (channel_closed u); try done; intros [= <-]; by left.
Qed.

(** On a closed channel a monitor only survives what it ignores. *)
Lemma monitorLoop_closed now input u u' :
  channel_closed u = true → monitorLoop now (Ok ()) [input] u = Ok u' → u' = u ∧ ends_monitor input = false.
Proof.
  intros Hu. destruct input as [|device| | |]; cbn; unfold close_events; rewrite ?Hu; try done; [|by intros [= <-]].
  unfold handleDeviceEvent. destruct (_ && _); [by intros [= <-]|].
  destruct (convertUdevDevice device) as [dev|]; [|by intros [= <-]].
  rewrite send_all_closed by done. destruct (_ <$> _); [by intros [= <-]|done].
Qed.
End Monitors.

Section Loop.
Context `{MapOrder} {W : Type} (client : KubeClient W) (Patch : Pod → Pod → ST W (result unit)).
Context (udev : Udev W) (kubelet : Kubelet W) (time_Now : ST W Z).
Context (json_Marshal : PodDiscoveryReport → result string).
Local Abbreviation loop_turn := (loop_turn client Patch udev kubelet time_Now json_Marshal).
Local Abbreviation run_turns := (run_turns client Patch udev kubelet time_Now json_Marshal).
Local Abbreviation handleUSBEvent := (handleUSBEvent client Patch kubelet time_Now json_Marshal).

(** The index given to a slice is always within it. *)
Lemma handleUSBEvent_returns event x : index_ok x.1 → (handleUSBEvent event x).1 = Ok ().
Proof.
  destruct x as [d w]. simpl. intros Hd. unfold Discovery.handleUSBEvent, handleDeviceAdd, handleDeviceRemove.
  destruct (Now_run time_Now d w) as (now & w1 & E1). destruct (Now_run time_Now d w1) as (now' & w2 & E2).
  repeat case_bool_decide; [| |done]; rewrite (st_bind_eq get_agent _ _ d (d, w)) by done.
  - rewrite (st_bind_eq _ _ _ _ _ E1). set (device := ConvertToDiscoveredDevice _ _ _).
    destruct (findDeviceIndex d (ue_HSMDeviceName event) device) as [i|] eqn:Ei; cbv zeta.
    + destruct (findDeviceIndex_in_range _ _ _ _ Hd Ei) as (l & y & -> & Hy & _). simpl.
      apply lookup_lt_Some in Hy. apply Nat.ltb_lt in Hy as ->. unfold st_bind. by destruct (publish _ _ _ _ _ _ _ _).
    + unfold st_bind. by destruct (publish _ _ _ _ _ _ _ _).
  - destruct (deviceCache d !! ue_HSMDeviceName event) as [l|] eqn:El; [|done].
    rewrite (st_bind_eq _ _ _ _ _ E1). set (device := ConvertToDiscoveredDevice _ _ _).
    destruct (findDeviceIndex d (ue_HSMDeviceName event) device) as [i|] eqn:Ei; [|done].
    destruct (findDeviceIndex_in_range _ _ _ _ Hd Ei) as (l' & y & El' & Hy & _).
    rewrite El in El'. injection El' as <-. rewrite Hy, (st_bind_eq _ _ _ _ _ E2).
    unfold st_bind. by destruct (publish _ _ _ _ _ _ _ _).
Qed.

Lemma event_turn_panics x :
  index_ok x.1 → (event_turn client Patch udev kubelet time_Now json_Marshal x).1 = Ok ().
Proof.
  destruct x as [d w]. intros Hd. unfold event_turn. rewrite (st_bind_eq get_agent _ _ d (d, w)) by done.
  destruct (eventChannel (usbDiscoverer d)) as [|event rest].
  - destruct (channel_closed (usbDiscoverer d)); [|done]. unfold st_bind.
    destruct (restartEventMonitoring _ _ _) as [[[]|e] x']; done.
  - apply (handleUSBEvent_returns event (_, w)). exact Hd.
Qed.

Lemma monitor_turn_panics input x e : (monitor_turn time_Now input x).1 = Err e → channel_panic e.
Proof.
  destruct x as [d w]. unfold monitor_turn. rewrite (st_bind_eq get_agent _ _ d (d, w)) by done.
  destruct (monitors d) as [|n]; [done|]. destruct (Now_run time_Now d w) as (now & w' & E). rewrite (st_bind_eq _ _ _ _ _ E).
  destruct (monitorLoop now (Ok ()) [input] (usbDiscoverer d)) as [u|e'] eqn:Em; [done|].
  intros [= <-]. by eapply monitorLoop_panics.
Qed.

Lemma loop_turn_panics turn x e : index_ok x.1 → (loop_turn turn x).1 = Err e → channel_panic e.
Proof.
  intros Hx. destruct turn as [| | |input]; cbn [Discovery.loop_turn]; unfold st_try, st_bind; simpl.
  - by destruct (stopAllDevicePlugins _ _).
  - pose proof (event_turn_panics x Hx) as He. destruct (event_turn _ _ _ _ _ _ x) as [r x']. simpl in He. by subst r.
  - by destruct (reconcileDevices _ _ _ _ _ _ x).
  - pose proof (monitor_turn_panics input x) as He. destruct (monitor_turn _ _ x) as [[[]|e'] x']; [done|].
    intros [= <-]. by apply He.
Qed.

Lemma loop_turn_index turn x : index_ok x.1 → index_ok (loop_turn turn x).2.1.
Proof. refine (loop_turn_respects client Patch udev kubelet time_Now json_Marshal _ _ turn x). done. Qed.

Lemma run_turns_panics turns x :
  index_ok x.1 → index_ok (run_turns turns x).2.1 ∧ ∀ e, (run_turns turns x).1 = Err e → channel_panic e.
Proof.
  revert x. induction turns as [|turn turns IH]; intros x Hx; [done|]. cbn [Discovery.run_turns]. unfold st_try, st_bind.
  pose proof (loop_turn_index turn x Hx) as Hx'. pose proof (loop_turn_panics turn x) as He.
  destruct (loop_turn turn x) as [[[]|e] x']; [by apply IH|done|]. split; [done|]. intros e' [= <-]. by apply He.
Qed.

(** C26. However events, ticks and monitors interleave, and whatever the API server,
    libudev, the kubelet and the clock answer, the lookup index of the agent is that of
    its cache when the loop stops, and no handler indexes a device list outside its
    bounds: the only panics that can end the process are those of the closed event
    channel. *)
Theorem Run_keeps_index turns x :
  index_ok (Run client Patch udev kubelet time_Now json_Marshal turns x).2.1 ∧
  match (Run client Patch udev kubelet time_Now json_Marshal turns x).1 with
  | Err panic => channel_panic panic
  | Ok _ => True
  end.
Proof.
  unfold Run. rewrite (st_bind_eq (modify_agent fresh_agent) _ x () (fresh_agent x.1, x.2)) by done.
  assert (index_ok (fresh_agent x.1, x.2).1) as Hy by done. revert Hy. generalize (fresh_agent x.1, x.2) as y. intros y Hy.
  pose proof (performDiscovery_respects client Patch udev kubelet time_Now json_Marshal (λ d d', index_ok d → index_ok d') y Hy) as H1.
  unfold st_bind. destruct (performDiscovery _ _ _ _ _ _ y) as [r1 y1]. cbn [fst snd] in H1.
  pose proof (startEventMonitoring_respects udev (λ d d', index_ok d → index_ok d') y1 H1) as H2.
  destruct (startEventMonitoring _ y1) as [r2 y2]. cbn [fst snd] in H2.
  pose proof (run_turns_panics turns (with_active (is_Ok r2) y2.1, y2.2) H2) as [H3 He]. cbn [modify_agent].
  destruct (run_turns _ _) as [[b|e] y3]; [done|]. split; [done|]. by apply He.
Qed.

(** C27. Once a monitor has ended, and with it closed the event channel, restarting the
    monitoring does not bring events back: in every later state the channel is closed
    still, and the next end of a monitor, or its next event for a registered HSMDevice,
    panics and takes the process down. *)
Theorem restarted_monitor_panics turns x x' input :
  channel_closed (usbDiscoverer x.1) = true →
  run_turns turns x = (Ok true, x') →
  monitors x'.1 ≠ O →
  (ends_monitor input = true ∨
   ∃ device usbDev, input = DeviceReceived device ∧ convertUdevDevice device = Some usbDev ∧
     (ud_Action device = "add" ∨ ud_Action device = "remove") ∧ matched_names (usbDiscoverer x'.1) usbDev ≠ []) →
  channel_closed (usbDiscoverer x'.1) = true ∧
  ∃ panic, channel_panic panic ∧ (loop_turn (TurnMonitor input) x').1 = Err panic.
Proof.
  intros Hx Hrun Hm Hi.
  assert (channel_closed (usbDiscoverer x'.1) = true) as Hc.
  { pose proof (run_turns_respects client Patch udev kubelet time_Now json_Marshal
      (λ d d', channel_closed (usbDiscoverer d) = true → channel_closed (usbDiscoverer d') = true)) as HR.
    specialize (λ X, HR X turns x Hx). unfold Discovery.run_turns in *. rewrite Hrun in HR. apply HR.
    intros now inp d u n Eu Hd. by apply monitorLoop_closed in Eu as [-> _]. }
  split; [done|]. destruct x' as [d w]. cbn [fst] in *. cbn [Discovery.loop_turn]. unfold st_try, st_bind at 1.
  unfold monitor_turn. rewrite (st_bind_eq get_agent _ _ d (d, w)) by done. destruct (monitors d) as [|n]; [done|].
  destruct (Now_run time_Now d w) as (now & w' & E). rewrite (st_bind_eq _ _ _ _ _ E).
  destruct (monitorLoop now (Ok ()) [input] (usbDiscoverer d)) as [u|e] eqn:Em.
  - exfalso. pose proof (monitorLoop_closed _ _ _ _ Hc Em) as [_ Hn].
    destruct Hi as [Hi|(device & usbDev & -> & Hconv & Hact & Hmt)]; [congruence|].
    cbn in Em. unfold handleDeviceEvent in Em. rewrite Hconv in Em.
    destruct (_ && _) eqn:Ea in Em; [rewrite ?andb_true_iff, !bool_decide_eq_true in Ea; naive_solver|].
    rewrite send_all_closed in Em by done. by destruct (matched_names (usbDiscoverer d) usbDev).
  - exists e. split; [by eapply monitorLoop_panics|done].
Qed.
End Loop.

(** ** Merging a scan *)

Lemma list_filter_iff_on {A} (P Q : A → Prop) {HP : ∀ x, base.Decision (P x)} {HQ : ∀ x, base.Decision (Q x)} (l : list A) :
  (∀ x, x ∈ l → P x ↔ Q x) → filter P l = filter Q l.
Proof.
  induction l as [|x l IH]; intros Hl; [done|]. rewrite !filter_cons, IH by (intros; apply Hl; by right).
  pose proof (Hl x (list_elem_of_here _ _)). repeat case_decide; tauto.
Qed.

Lemma scanned_by_key_lookup scanned k dev :
  scanned_by_key scanned !! k = Some dev → dev ∈ scanned ∧ scan_key dev = k.
Proof.
  unfold scanned_by_key. induction scanned as [|x l IH] using rev_ind; [done|]. rewrite fold_left_app. cbn [fold_left].
  rewrite lookup_insert_Some. intros [[<- <-]|[_ [Hin Hk]%IH]]; split; try done; apply elem_of_app; [right; by left|by left].
Qed.

Lemma scanned_by_key_is_Some scanned k : is_Some (scanned_by_key scanned !! k) ↔ k ∈ scan_key <$> scanned.
Proof.
  split; [intros [dev [Hin <-]%scanned_by_key_lookup]; by apply list_elem_of_fmap_2|].
  unfold scanned_by_key. induction scanned as [|x l IH] using rev_ind; [by intros ?%not_elem_of_nil|].
  rewrite fmap_app, elem_of_app, fold_left_app. cbn [fold_left].
  destruct (decide (k = scan_key x)) as [->|Hk]; [rewrite lookup_insert_eq; eauto|].
  rewrite lookup_insert_ne by done. intros [?|Hx]; [by apply IH|]. simpl in Hx. apply list_elem_of_singleton in Hx. done.
Qed.

(** What becomes of a cached device: the scanned one of its key, or it is lost (from
    now on, or since when it was). *)
Definition merge_of (scanned : list DiscoveredDevice) (old new : DiscoveredDevice) : Prop :=
  match scanned_by_key scanned !! scan_key old with
  | Some fresh => new = set_available true fresh
  | None => if dd_Available old then ∃ t, new = mark_lost t old else new = old
  end.

(** Same path and availability: nothing to publish. *)
Definition unchanged_device (old new : DiscoveredDevice) : Prop :=
  dd_DevicePath old = dd_DevicePath new ∧ dd_Available old = dd_Available new.

Section Merge.
Context {W : Type} (time_Now : ST W Z) (scanned : list DiscoveredDevice).

Lemma merge_cached_run acc matched changed old d w :
  ∃ new matched' changed' w',
    merge_cached time_Now (scanned_by_key scanned) (acc, matched, changed) old (d, w) =
      ((acc ++ [new], matched', changed'), (d, w')) ∧
    merge_of scanned old new ∧
    (∀ k, k ∈ matched' ↔ k ∈ matched ∨ k = scan_key old ∧ k ∈ scan_key <$> scanned) ∧
    (changed' = false ↔ changed = false ∧ unchanged_device old new).
Proof.
  unfold merge_cached, merge_of, unchanged_device. pose proof (scanned_by_key_is_Some scanned (scan_key old)) as Hk.
  destruct (scanned_by_key scanned !! scan_key old) as [fresh|].
  - exists (set_available true fresh). do 3 eexists. split; [done|]. split; [done|]. split; [set_solver|].
    simpl. destruct (dd_Available old); rewrite ?orb_false_r, ?orb_true_r; [|naive_solver].
    rewrite orb_false_iff, bool_decide_eq_false.
    destruct (decide (dd_DevicePath old = dd_DevicePath fresh)); naive_solver.
  - assert (scan_key old ∉ scan_key <$> scanned) by (intros Hc; apply Hk in Hc as [? ?]; done).
    destruct (dd_Available old) eqn:Ha.
    + destruct (Now_run time_Now d w) as (now & w' & E). exists (mark_lost now old), matched, true, w'.
      rewrite (st_bind_eq _ _ _ _ _ E). split; [done|]. split; [by exists now|]. split; [naive_solver|]. simpl. naive_solver.
    + exists old, matched, changed, w. split; [done|]. split; [done|]. split; [naive_solver|]. naive_solver.
Qed.

Lemma merge_fold existing acc matched changed d w :
  ∃ kept matched' changed' w',
    st_fold (merge_cached time_Now (scanned_by_key scanned)) existing (acc, matched, changed) (d, w) =
      ((acc ++ kept, matched', changed'), (d, w')) ∧
    Forall2 (merge_of scanned) existing kept ∧
    (∀ k, k ∈ matched' ↔ k ∈ matched ∨ k ∈ scan_key <$> existing ∧ k ∈ scan_key <$> scanned) ∧
    (changed' = false ↔ changed = false ∧ Forall2 unchanged_device existing kept).
Proof.
  revert acc matched changed w. induction existing as [|old existing IH]; intros acc matched changed w.
  { exists [], matched, changed, w. simpl. rewrite app_nil_r. split; [done|]. split; [done|]. split; [set_solver|].
    split; [by intros|naive_solver]. }
  destruct (merge_cached_run acc matched changed old d w) as (new & m1 & c1 & w1 & E1 & Hn & Hm1 & Hc1).
  destruct (IH (acc ++ [new]) m1 c1 w1) as (kept & m2 & c2 & w2 & E2 & Hk & Hm2 & Hc2).
  exists (new :: kept), m2, c2, w2. cbn [st_fold]. rewrite (st_bind_eq _ _ _ _ _ E1), E2, <-app_assoc.
  split; [done|]. split; [by constructor|]. split.
  - intros k. rewrite Hm2, Hm1, fmap_cons, elem_of_cons. naive_solver.
  - rewrite Hc2, Hc1, Forall2_cons. naive_solver.
Qed.

(** Merging a scan into the cache: every cached device stays in its place, replaced
    by the device the scan found under its key and marked available, or, when the scan
    did not find it, marked lost, at once if it was available and since when it was
    lost otherwise; then the devices the cache did not know follow in the order of the
    scan.  The merge reports a change exactly when the path or the availability of a
    device or the number of devices changed. *)
Theorem mergeScanIntoCache_spec name d w merged changed x' :
  mergeScanIntoCache time_Now name scanned (d, w) = ((merged, changed), x') →
  let existing := default [] (deviceCache d !! name) in
  x'.1 = d ∧
  (∃ kept, Forall2 (merge_of scanned) existing kept ∧
     merged = kept ++ (set_available true <$> filter (λ dev, scan_key dev ∉ scan_key <$> existing) scanned)) ∧
  (changed = false ↔ Forall2 unchanged_device existing merged).
Proof.
  intros E existing. unfold mergeScanIntoCache in E. rewrite (st_bind_eq get_agent _ _ d (d, w)) in E by done.
  cbv zeta in E. fold existing in E.
  destruct (merge_fold existing [] ∅ false d w) as (kept & m & c & w' & Ef & Hk & Hm & Hc).
  rewrite (st_bind_eq _ _ _ _ _ Ef) in E. cbn [app] in E. unfold st_ret in E. injection E as <- <- <-.
  split; [done|].
  assert (unmatched m scanned = set_available true <$> filter (λ dev, scan_key dev ∉ scan_key <$> existing) scanned) as ->.
  { unfold unmatched. f_equal. apply list_filter_iff_on. intros dev Hdev. rewrite Hm.
    pose proof (list_elem_of_fmap_2 scan_key _ _ Hdev). set_solver. }
  split; [by exists kept|]. set (new := _ <$> _). rewrite orb_false_iff, Hc, bool_decide_eq_false. split.
  - intros [[_ Hu] Hnew]. destruct new; [by rewrite app_nil_r|]. by destruct Hnew.
  - intros Hu. pose proof (Forall2_length _ _ _ Hu) as Hl. rewrite length_app, <-(Forall2_length _ _ _ Hk) in Hl.
    destruct new; [|simpl in Hl; lia]. rewrite app_nil_r in Hu. naive_solver.
Qed.
End Merge.

(** ** The report *)

(** A JSON merge patch from [old] to [new] sets the annotations that differ and leaves
    the others as the server has them. *)
Definition patched (old new stored : Pod) (m : gmap string string) : Prop :=
  ∀ k, m !! k = if decide (om_Annotations (pod_meta old) !! k = om_Annotations (pod_meta new) !! k)
                then om_Annotations (pod_meta stored) !! k else om_Annotations (pod_meta new) !! k.

(** [Patch new old] for pods that differ in their annotations only. *)
Class PatchLaws {W} `{!ClusterView W} (Patch : Pod → Pod → ST W (result unit)) : Prop :=
  Patch_law f pod w r w' : Patch (with_annotations f pod) pod w = (r, w') →
    let stored_patched := ∃ t0 m, k_get (objects w) !! key_of pod = Some t0 ∧ patched pod (with_annotations f pod) t0 m ∧
      wrote (insert (key_of pod) (with_annotations (λ _, m) t0)) w w' in
    match r with Ok _ => stored_patched | Err _ => objects w' = objects w ∨ stored_patched end.

Section Report.
Context `{MapOrder} {W : Type} `{!ClusterView W} (client : KubeClient W) `{!ApiLaws (Pods client)}.
Context (Patch : Pod → Pod → ST W (result unit)) `{!PatchLaws Patch}.
Context (udev : Udev W) (kubelet : Kubelet W) (time_Now : ST W Z).
Context (json_Marshal : PodDiscoveryReport → result string) (json_Unmarshal : string → result PodDiscoveryReport).
Lemma on_world_eq {A} (m : ST W A) (d : DiscoveryAgent) w : on_world m (d, w) = ((m w).1, (d, (m w).2)).
Proof. unfold on_world, lift_st. simpl. by destruct (m w). Qed.

(** The pod's annotation holds the encoding of this report, made at some reading of the
    clock; the pool controller reads the report again if the codec does. *)
Definition reported (d : DiscoveryAgent) (w : W) (name : string) (devices : list DiscoveredDevice) : Prop :=
  ∃ pod v s, let report := mkPodDiscoveryReport name (nodeName d) devices (metav1_Now (time_Now v).1) "completed" "" in
    k_get (objects w) !! (podNamespace d, podName d) = Some pod ∧
    json_Marshal report = Ok s ∧ om_Annotations (pod_meta pod) !! "hsm.j5t.io/device-report" = Some s ∧
    (json_Unmarshal s = Ok report → device_report json_Unmarshal pod = Some report).

Lemma updatePodAnnotation_reported name devices d w r x' :
  updatePodAnnotation client Patch time_Now json_Marshal name devices (d, w) = (r, x') →
  x'.1 = d ∧ (r = Ok () → reported d x'.2 name devices).
Proof.
  unfold updatePodAnnotation. rewrite (st_bind_eq get_agent _ _ d (d, w)) by done.
  rewrite (st_bind_eq _ _ _ _ _ (Now_clock time_Now d w)).
  destruct (json_Marshal _) as [s|e] eqn:Ej; [|by intros [= <- <-]].
  unfold st_try, st_bind. rewrite on_world_eq. destruct (api_Get _ _ _ _) as [[pod|e] w2] eqn:Eg; cbn [fst snd];
    [|by intros [= <- <-]].
  rewrite on_world_eq. destruct (Patch _ pod w2) as [[[]|e] w3] eqn:Ep; cbn [fst snd]; intros [= <- <-]; [|done].
  split; [done|]. intros _. apply api_Get_law in Eg as [Hw2 [Hget Hkey]]. apply Patch_law in Ep as (t0 & m & Ht0 & Hm & Hw3).
  rewrite Hkey, Hw2, Hget in Ht0. injection Ht0 as <-. exists (with_annotations (λ _, m) pod), w, s. unfold wrote in Hw3. cbn [snd].
  rewrite Hw3, Hkey, k_get_set, lookup_insert_eq. split; [done|]. split; [exact Ej|]. unfold device_report. simpl.
  specialize (Hm DeviceReportAnnotation). simpl in Hm. rewrite lookup_insert_eq in Hm.
  assert (m !! "hsm.j5t.io/device-report" = Some s) as Hs.
  { change "hsm.j5t.io/device-report" with DeviceReportAnnotation. rewrite Hm. by case_decide. }
  split; [exact Hs|]. intros Hu. change deviceReportAnnotation with "hsm.j5t.io/device-report". by rewrite Hs, Hu.
Qed.

Lemma updateDevicePlugin_run h devices d w :
  ∃ r f w', updateDevicePlugin kubelet h devices (d, w) = (r, (with_plugins f d, w')).
Proof.
  unfold updateDevicePlugin, updateDevicePluginByType, ensureDevicePluginForType, st_try, st_bind, get_agent. simpl.
  destruct (devicePluginManagers d !! _) as [m|]; simpl; [by do 3 eexists|].
  rewrite on_world_eq. destruct (Start _ _ w) as [[[]|e] w1]; simpl; [by eexists _, (λ x, <[_:=_]> (<[_:=_]> x)), _|].
  exists (Err (wrapf ("failed to start device plugin for " +:+ hd_DeviceType (hd_Spec h)) e)), id, w1. by destruct d.
Qed.

(** ** What a scan is to find *)

(** An explicit specification selects a device by those IDs it gives. *)
Definition specified (e : UDevDevice) (spec : USBDeviceSpec) : Prop :=
  (us_VendorID spec = "" ∨ to_lower (us_VendorID spec) = to_lower (PropertyValue e "ID_VENDOR_ID")) ∧
  (us_ProductID spec = "" ∨ to_lower (us_ProductID spec) = to_lower (PropertyValue e "ID_MODEL_ID")) ∧
  (us_SerialNumber spec = "" ∨ us_SerialNumber spec = PropertyValue e "ID_SERIAL_SHORT").

(** A USB device with IDs, and one the HSMDevice asks for: on the allowlist, unless
    auto-discovery is off, or specified. *)
Definition wanted (d : DiscoveryAgent) (h : HSMDevice) (e : UDevDevice) : Prop :=
  PropertyValue e "DEVTYPE" = "usb_device" ∧ PropertyValue e "ID_VENDOR_ID" ≠ "" ∧ PropertyValue e "ID_MODEL_ID" ≠ "" ∧
  (from_option ds_AutoDiscovery true (hd_Discovery (hd_Spec h)) = true ∧
     Contains (allowlist (usbDiscoverer d)) (PropertyValue e "ID_VENDOR_ID") (PropertyValue e "ID_MODEL_ID") = true ∨
   Exists (specified e) (from_option ds_USB [] (hd_Discovery (hd_Spec h)))).
#[global] Instance wanted_dec d h e : Decision (wanted d h e).
Proof. unfold wanted, specified. apply _. Defined.

(** How a device is reported: as available on this node, seen now, with the properties
    that udev has and its IDs. *)
Definition seen_as (d : DiscoveryAgent) (e : UDevDevice) (x : DiscoveredDevice) : Prop :=
  dd_DevicePath x = ud_Devnode e ∧ dd_SerialNumber x = PropertyValue e "ID_SERIAL_SHORT" ∧ dd_NodeName x = nodeName d ∧
  dd_Available x = true ∧ (∃ v, dd_LastSeen x = metav1_Now (time_Now v).1) ∧
  (∀ k p, ud_Properties e !! k = Some p → dd_DeviceInfo x !! k = Some p) ∧
  (ud_Properties e !! "vendor-id" = None → dd_DeviceInfo x !! "vendor-id" = Some (PropertyValue e "ID_VENDOR_ID")) ∧
  (ud_Properties e !! "product-id" = None → dd_DeviceInfo x !! "product-id" = Some (PropertyValue e "ID_MODEL_ID")) ∧
  dd_ResourceName x = "" ∧ dd_Role x = "" ∧ dd_MirroredFrom x = "" ∧ dd_LastSyncTime x = None ∧ dd_Health x = "".

(** The USB devices of the node, as udev enumerates them from [w]. *)
Definition enumerated (w : W) (entries : list UDevDevice) : Prop :=
  ∃ w1 w2 w3, AddMatchSubsystem udev "usb" w = (Ok (), w1) ∧ AddMatchProperty udev "DEVTYPE" "usb_device" w1 = (Ok (), w2) ∧
    Devices udev w2 = (Ok entries, w3).

(** Of the devices that are wanted, the first [maxDevices], if that is set. *)
Definition scanned (d : DiscoveryAgent) (h : HSMDevice) (entries : list UDevDevice) (devices : list DiscoveredDevice) : Prop :=
  Forall2 (seen_as d)
    (if decide (0 < hd_MaxDevices (hd_Spec h)) then take (Z.to_nat (hd_MaxDevices (hd_Spec h))) (filter (wanted d h) entries)
     else filter (wanted d h) entries) devices.

(** The code's filter selects what is wanted. *)
Lemma matchesSpec_specified e u spec :
  convertUdevDevice e = Some u → matchesSpec u spec = true ↔ specified e spec.
Proof.
  unfold convertUdevDevice. case_bool_decide; [done|]. destruct (_ || _); [done|]. intros [= <-].
  unfold matchesSpec, specified, EqualFold. cbn [ub_VendorID ub_ProductID ub_SerialNumber].
  repeat case_bool_decide; cbn [andb negb]; naive_solver.
Qed.

Lemma convertUdevDevice_fields e u :
  convertUdevDevice e = Some u →
  PropertyValue e "DEVTYPE" = "usb_device" ∧ PropertyValue e "ID_VENDOR_ID" ≠ "" ∧ PropertyValue e "ID_MODEL_ID" ≠ "" ∧
  u = mkUSBDevice (PropertyValue e "ID_VENDOR_ID") (PropertyValue e "ID_MODEL_ID") (PropertyValue e "ID_SERIAL_SHORT")
        (ud_Devnode e) (PropertyValue e "ID_VENDOR") (PropertyValue e "ID_MODEL") (ud_Properties e).
Proof.
  unfold convertUdevDevice. case_bool_decide as E1; [done|].
  destruct (_ || _) eqn:E2; [done|]. apply orb_false_iff in E2 as [E2%bool_decide_eq_false E3%bool_decide_eq_false].
  by intros [= <-].
Qed.

Lemma matches_wanted d h e u :
  convertUdevDevice e = Some u → matchesCriteria (allowlist (usbDiscoverer d)) u (buildMatchCriteria h) = true ↔ wanted d h e.
Proof.
  intros Hc. pose proof (convertUdevDevice_fields e u Hc) as (H1 & H2 & H3 & Hu). unfold matchesCriteria, wanted.
  assert (existsb (matchesSpec u) (mc_Specs (buildMatchCriteria h)) = true ↔
    Exists (specified e) (from_option ds_USB [] (hd_Discovery (hd_Spec h)))) as Hex.
  { rewrite existsb_exists, Exists_exists. unfold buildMatchCriteria. destruct (hd_Discovery (hd_Spec h)); cbn [mc_Specs from_option];
      split; intros (x & Hx & Hs); exists x; (split; [by apply list_elem_of_In|]); by eapply matchesSpec_specified. }
  assert (mc_AutoDiscovery (buildMatchCriteria h) = from_option ds_AutoDiscovery true (hd_Discovery (hd_Spec h))) as ->
    by (unfold buildMatchCriteria; by destruct (hd_Discovery (hd_Spec h))).
  rewrite <-Hex. assert (ub_VendorID u = PropertyValue e "ID_VENDOR_ID" ∧ ub_ProductID u = PropertyValue e "ID_MODEL_ID")
    as [-> ->] by (by rewrite Hu).
  generalize (existsb (matchesSpec u) (mc_Specs (buildMatchCriteria h))) as b. clear -H1 H2 H3. intros b.
  generalize (from_option ds_AutoDiscovery true (hd_Discovery (hd_Spec h))) as a.
  generalize (Contains (allowlist (usbDiscoverer d)) (PropertyValue e "ID_VENDOR_ID") (PropertyValue e "ID_MODEL_ID")) as c.
  intros [] []; cbn [andb]; destruct b; tauto || naive_solver.
Qed.

Lemma filter_wanted d h entries :
  Forall2 (λ e u, convertUdevDevice e = Some u) (filter (wanted d h) entries)
    (filter (λ u, matchesCriteria (allowlist (usbDiscoverer d)) u (buildMatchCriteria h) = true) (omap convertUdevDevice entries)).
Proof.
  induction entries as [|e entries IH]; [constructor|]. cbn [omap list_omap]. rewrite filter_cons.
  destruct (convertUdevDevice e) as [u|] eqn:Ec.
  - pose proof (matches_wanted d h e u Ec) as Hm. cbn [omap list_omap]. rewrite filter_cons. repeat case_decide; try tauto.
    by constructor.
  - rewrite decide_False; [exact IH|]. intros (H1 & H2 & H3 & _). revert Ec. unfold convertUdevDevice.
    rewrite bool_decide_eq_false_2 by (intros Hx; by apply Hx). by rewrite !bool_decide_eq_false_2 by done.
Qed.

Lemma scanned_device_seen d e u v :
  convertUdevDevice e = Some u → seen_as d e (scanned_device (nodeName d) (metav1_Now (time_Now v).1) u).
Proof.
  intros (_ & _ & _ & ->)%convertUdevDevice_fields. unfold seen_as, scanned_device.
  cbn [dd_DevicePath dd_SerialNumber dd_NodeName dd_Available dd_LastSeen dd_DeviceInfo dd_ResourceName dd_Role dd_MirroredFrom
    dd_LastSyncTime dd_Health ub_DevicePath ub_SerialNumber ub_DeviceInfo ub_VendorID ub_ProductID].
  split_and!; try done; [by exists v|..].
  - intros k p Hk. by rewrite (lookup_union_Some_l _ _ _ _ Hk).
  - intros Hn. rewrite lookup_union_r by done. apply lookup_insert_eq.
  - intros Hn. rewrite lookup_union_r by done. rewrite lookup_insert_ne by done. apply lookup_insert_eq.
Qed.

(** ** What a scan finds *)
Lemma scan_fold d usbs es acc w :
  Forall2 (λ e u, convertUdevDevice e = Some u) es usbs →
  ∃ l w', st_fold (λ devices usbDev, let* now := Now time_Now in st_ret (devices ++ [scanned_device (nodeName d) now usbDev]))
            usbs acc (d, w) = (acc ++ l, (d, w')) ∧ Forall2 (seen_as d) es l.
Proof.
  intros Hall. revert acc w. induction Hall as [|e u es usbs Hu Hall IH]; intros acc w; [exists [], w; by rewrite app_nil_r|].
  cbn [st_fold]. unfold st_bind at 1. rewrite (st_bind_eq _ _ _ _ _ (Now_clock time_Now d w)). unfold st_ret at 1.
  destruct (IH (acc ++ [scanned_device (nodeName d) (metav1_Now (time_Now w).1) u]) (time_Now w).2) as (l & w' & E & Hl).
  eexists (_ :: l), w'. rewrite E, <-app_assoc. split; [done|]. constructor; [by apply scanned_device_seen|done].
Qed.

Lemma DiscoverDevices_Ok d h w usbs w' :
  DiscoverDevices udev (allowlist (usbDiscoverer d)) (buildMatchCriteria h) w = (Ok usbs, w') →
  ∃ entries, enumerated w entries ∧ Forall2 (λ e u, convertUdevDevice e = Some u) (filter (wanted d h) entries) usbs.
Proof.
  unfold DiscoverDevices, st_try, st_bind, st_ret, enumerated.
  destruct (AddMatchSubsystem udev "usb" w) as [[[]|?] w1] eqn:E1; [|done].
  destruct (AddMatchProperty udev "DEVTYPE" "usb_device" w1) as [[[]|?] w2] eqn:E2; [|done].
  destruct (Devices udev w2) as [[entries|?] w3] eqn:E3; [|done]. intros [= <- <-].
  exists entries. split; [by exists w1, w2, w3|]. apply filter_wanted.
Qed.

Lemma discoverDevicesForSpec_run h d w r x' :
  discoverDevicesForSpec udev time_Now h (d, w) = (r, x') →
  x'.1 = d ∧ ∀ devices, r = Ok devices →
    ∃ entries, enumerated w entries ∧ (Z.of_nat (length entries) < 2 ^ 31 → scanned d h entries devices).
Proof.
  unfold discoverDevicesForSpec, discoverUSBDevices, st_try, st_bind at 1. rewrite (st_bind_eq get_agent _ _ d (d, w)) by done.
  unfold st_bind at 1. rewrite on_world_eq. destruct (DiscoverDevices _ _ _ w) as [[usbs|e] w1] eqn:Ed; cbn [fst snd];
    [|by intros [= <- <-]].
  apply DiscoverDevices_Ok in Ed as (entries & Hen & Hall).
  destruct (scan_fold d usbs _ [] w1 Hall) as (l & w2 & E & Hl).
  rewrite (st_bind_eq _ _ _ _ _ E). intros [= <- <-]. split; [done|]. intros devices [= <-]. exists entries. split; [done|].
  intros Hlen. unfold scanned. pose proof (Forall2_length _ _ _ Hl) as Hll. pose proof (length_filter (wanted d h) entries) as Hlf.
  rewrite to_int32_id by (cbn [app]; rewrite <-Hll; lia). cbn [app].
  destruct (decide (0 < hd_MaxDevices (hd_Spec h))) as [Hpos|Hpos];
    [rewrite (proj2 (Z.ltb_lt _ _)) by lia|rewrite (proj2 (Z.ltb_ge _ _)) by lia; exact Hl]. cbn [andb].
  destruct (Z.ltb_spec (hd_MaxDevices (hd_Spec h)) (Z.of_nat (length l))) as [Hm|Hm]; [by apply Forall2_take|].
  rewrite take_ge by lia. exact Hl.
Qed.

(** C25. When an HSMDevice is meant for the node and is processed without an error, the
    devices of its cache are those of the scan: udev enumerates the USB devices of the
    node, and of those that the HSMDevice asks for, in that order, the first
    [maxDevices], where that is set, are recorded as available on this node under the
    path, serial number and properties udev gives. The annotation of the agent's pod holds
    the encoding of a report of exactly these, which the HSMPool controller decodes. *)
Theorem processHSMDevice_reports h d w x' :
  shouldDiscoverOnNode d h = true →
  processHSMDevice client Patch udev kubelet time_Now json_Marshal h (d, w) = (Ok (), x') →
  ∃ entries devices,
    enumerated w entries ∧ (Z.of_nat (length entries) < 2 ^ 31 → scanned d h entries devices) ∧
    deviceCache x'.1 !! om_Name (hd_meta h) = Some devices ∧
    reported d x'.2 (om_Name (hd_meta h)) devices.
Proof.
  intros Hon. unfold processHSMDevice. rewrite (st_bind_eq get_agent _ _ d (d, w)) by done. rewrite Hon. cbn [negb].
  set (name := om_Name (hd_meta h)). set (d1 := with_types (insert name (hd_DeviceType (hd_Spec h))) d).
  rewrite (st_bind_eq (modify_agent _) _ (d, w) () (d1, w)) by done. unfold st_try at 1, st_bind at 1.
  destruct (discoverDevicesForSpec _ _ h (d1, w)) as [r [d1' w1]] eqn:Ed.
  apply discoverDevicesForSpec_run in Ed as [Hd1 Hdev]. simpl in Hd1. subst d1'.
  destruct r as [devices|e]; [|done]. destruct (Hdev _ eq_refl) as (entries & Hen & Hsc).
  set (d2 := updateDeviceCache name devices d1).
  rewrite (st_bind_eq (modify_agent _) _ (d1, w1) () (d2, w1)) by done.
  destruct (updateDevicePlugin_run h devices d2 w1) as (r & f & w2 & Ep). rewrite (st_bind_eq _ _ _ _ _ Ep).
  unfold st_try, st_bind. destruct (updatePodAnnotation _ _ _ _ _ _ _) as [r' x2] eqn:Er.
  apply updatePodAnnotation_reported in Er as [Hx Hrep]. destruct r' as [[]|e]; [|done]. intros [= <-].
  exists entries, devices. split; [exact Hen|]. split; [exact Hsc|]. split; [|exact (Hrep eq_refl)].
  rewrite Hx. cbn. by rewrite lookup_insert_eq.
Qed.
End Report.

(** ** A concrete agent *)
Module Witness.
#[local] Existing Instance listed_order.

Definition Patch (new old : Pod) : ST Objects (result unit) := λ o,
  match k_get o !! key_of old with
  | None => (Err (api_NotFound (om_Name (pod_meta old))), o)
  | Some stored =>
      let a := om_Annotations (pod_meta old) in
      let b := om_Annotations (pod_meta new) in
      let m := filter (λ kv, a !! kv.1 = b !! kv.1) (om_Annotations (pod_meta stored)) ∪ filter (λ kv, a !! kv.1 ≠ b !! kv.1) b in
      (Ok (), Mem.put (insert (key_of old) (with_annotations (λ _, m) stored)) o)
  end.
#[global] Instance Patch_laws : PatchLaws Patch.
Proof.
  intros f pod w r w'. unfold Patch. destruct (k_get w !! key_of pod) as [t0|] eqn:E; intros [= <- <-]; [|by left].
  eexists t0, _. split; [done|]. split; [|done]. intros k. simpl.
  generalize (f (om_Annotations (pod_meta pod))) as b. generalize (om_Annotations (pod_meta pod)) as a.
  generalize (om_Annotations (pod_meta t0)) as m. intros m a b. destruct (decide (a !! k = b !! k)) as [Hab|Hab].
  - rewrite lookup_union_l; [|apply map_lookup_filter_None; right; simpl; intros ?? Hn; by apply Hn].
    destruct (m !! k) eqn:Em; [by apply map_lookup_filter_Some|apply map_lookup_filter_None; by left].
  - rewrite lookup_union_r; [|apply map_lookup_filter_None; right; simpl; intros ??; congruence].
    destruct (b !! k) eqn:Eb; [apply map_lookup_filter_Some; split; [done|simpl; congruence]|apply map_lookup_filter_None; by left].
Qed.

Definition now : ST Objects Z := st_ret (1000 * Second).
Definition key_device (serial devnode : string) : UDevDevice :=
  mkUDevDevice (<["DEVTYPE" := "usb_device"]> (<["ID_VENDOR_ID" := "20a0"]> (<["ID_MODEL_ID" := "4230"]>
    {["ID_SERIAL_SHORT" := serial]}))) devnode "add".
Definition two_keys : Udev Objects :=
  mkUdev (λ _, st_ret (Ok ())) (λ _ _, st_ret (Ok ())) (st_ret (Ok [key_device "S1" "/dev/a"; key_device "S2" "/dev/b"]))
    (λ _, st_ret (Ok ())).
Definition kubelet : Kubelet Objects :=
  mkKubelet (λ _, st_ret (Ok ())) (λ _, st_ret (Ok ())) (λ _, st_ret (Ok ())) (λ _, st_ret (Ok ())) (λ _ _ _, st_ret (Ok ()))
    (λ _, false).
(** One of the two devices is wanted. *)
Definition pico : HSMDevice :=
  mkHSMDevice (PoolWitness.meta "pico" ∅ [])
    (mkHSMDeviceSpec "PicoHSM" (Some (mkDiscoverySpec [mkUSBDeviceSpec "20A0" "" ""] None false)) ∅ None 1 None).
Definition agent : DiscoveryAgent :=
  mkDiscoveryAgent "node-1" "p1" "hsm" (NewUSBDiscoverer (mkAllowlist ∅)) false ∅ ∅ ∅ ∅ 0.
Definition w0 : Objects :=
  mkObjects ∅ {[key_of pico := pico]} ∅ ∅ ∅ {[("hsm", "p1") := PoolWitness.pod "p1" ""]} ∅.

(** A stand-in for the JSON codec: it knows the reports of the first of the two devices. *)
Definition first_device : DiscoveredDevice :=
  scanned_device "node-1" (mkTime 1000 0)
    (mkUSBDevice "20a0" "4230" "S1" "/dev/a" "" "" (ud_Properties (key_device "S1" "/dev/a"))).
Definition report : PodDiscoveryReport := mkPodDiscoveryReport "pico" "node-1" [first_device] (mkTime 1000 0) "completed" "".
#[local] Instance report_eq_dec : EqDecision PodDiscoveryReport.
Proof. assert (EqDecision DiscoveredDevice) by solve_decision. solve_decision. Defined.
Definition encode (r : PodDiscoveryReport) : result string := if decide (r = report) then Ok "one" else Err (errorf "not known").
Definition decode (s : string) : result PodDiscoveryReport := Ok report.
Definition processed : result unit * (DiscoveryAgent * Objects) :=
  processHSMDevice Mem.kube Patch two_keys kubelet now encode pico (agent, w0).
Example processHSMDevice_reports_witness :
  processed.1 = Ok () ∧
  ∃ entries devices, enumerated two_keys w0 entries ∧ scanned now agent pico entries devices ∧
    deviceCache processed.2.1 !! "pico" = Some devices ∧ reported now encode decode agent processed.2.2 "pico" devices.
Proof.
  assert (processed.1 = Ok ()) as E by (vm_compute; reflexivity). split; [exact E|].
  destruct (processHSMDevice_reports Mem.kube Patch two_keys kubelet now encode decode pico agent w0 processed.2)
    as (entries & devices & He & Hs & Hc & Hr).
  - vm_compute. reflexivity.
  - rewrite <-E. apply surjective_pairing.
  - exists entries, devices. split; [exact He|]. split; [|by split]. apply Hs.
    destruct He as (w1 & w2 & w3 & [= <-] & [= <-] & [= <- _]). reflexivity.
Defined.

(** S1 has a new path, S2 is gone, S3 is new. *)
Definition dev (serial path : string) : DiscoveredDevice :=
  mkDiscoveredDevice path serial "node-1" (mkTime 900 0) ∅ true "" "" "" None "".
Definition scan : list DiscoveredDevice := [dev "S3" "/dev/c"; dev "S1" "/dev/b"].
Definition cached : DiscoveryAgent := updateDeviceCache "pico" [dev "S1" "/dev/a"; dev "S2" "/dev/d"] agent.
Definition merged : (list DiscoveredDevice * bool) * (DiscoveryAgent * Objects) := mergeScanIntoCache now "pico" scan (cached, w0).
Example mergeScanIntoCache_spec_witness :
  ((λ x, (dd_SerialNumber x, dd_DevicePath x, dd_Available x)) <$> merged.1.1) =
    [("S1", "/dev/b", true); ("S2", "/dev/d", false); ("S3", "/dev/c", true)] ∧
  merged.2.1 = cached ∧ (merged.1.2 = false ↔ Forall2 unchanged_device [dev "S1" "/dev/a"; dev "S2" "/dev/d"] merged.1.1).
Proof.
  split; [vm_compute; reflexivity|].
  destruct (mergeScanIntoCache_spec now scan "pico" cached w0 merged.1.1 merged.1.2 merged.2) as (Hd & _ & Hc).
  - rewrite <-surjective_pairing. apply surjective_pairing.
  - split; [exact Hd|exact Hc].
Defined.

(** The first monitor ends, the loop restarts it, and the second one ends. *)
Local Abbreviation run := (Run Mem.kube Patch two_keys kubelet now encode).
Local Abbreviation turn := (loop_turn Mem.kube Patch two_keys kubelet now encode).
Definition after_end : result bool * (DiscoveryAgent * Objects) := run [TurnMonitor DeviceChannelClosed] (agent, w0).
Definition after_restart : result bool * (DiscoveryAgent * Objects) :=
  run_turns Mem.kube Patch two_keys kubelet now encode [TurnEvent] after_end.2.
Example restarted_monitor_panics_witness :
  after_restart.1 = Ok true ∧ eventMonitoringActive after_restart.2.1 = true ∧
  ∃ panic, channel_panic panic ∧ (turn (TurnMonitor DeviceChannelClosed) after_restart.2).1 = Err panic.
Proof.
  assert (after_restart.1 = Ok true) as E by (vm_compute; reflexivity). split; [exact E|]. split; [vm_compute; reflexivity|].
  apply (restarted_monitor_panics Mem.kube Patch two_keys kubelet now encode [TurnEvent] after_end.2 after_restart.2
           DeviceChannelClosed).
  - vm_compute. reflexivity.
  - rewrite <-E. apply surjective_pairing.
  - vm_compute. discriminate.
  - left. reflexivity.
Defined.
End Witness.
