(* ===== verification/UsbStub.v ===== *)
(** * internal/discovery/usb_nocgo.go: the build without udev

    What takes libudev's place in a build without the tag udev, which is what go build
    makes: no device is ever found, and the channels of the monitor are closed from the
    start.  The discovery agent does not survive them. *)

From S2P Require Import Prelude GoStd Api Kube PoolController Usb Discovery DiscoverySpec.

Local Open Scope go_scope.

(** The types of the stub hold nothing; its channels are made and closed at once, so the
    monitor loop can receive that from either. *)
Section Stub.
Context {W : Type}.
(* [internal/discovery/usb_nocgo.go:49-51 AddMatchSubsystem] *)
Definition stub_AddMatchSubsystem (_ : string) : ST W (result unit) := st_ret (Ok ()).
(* [internal/discovery/usb_nocgo.go:54-56 AddMatchProperty] *)
Definition stub_AddMatchProperty (_ _ : string) : ST W (result unit) := st_ret (Ok ()).
(* [internal/discovery/usb_nocgo.go:59-61 Devices] *)
Definition stub_Devices : ST W (result (list UDevDevice)) := st_ret (Ok []).
(* [internal/discovery/usb_nocgo.go:76-78 FilterAddMatchSubsystem] *)
Definition stub_FilterAddMatchSubsystem (_ : string) : ST W (result unit) := st_ret (Ok ()).
(* [internal/discovery/usb_nocgo.go:36-43 NewEnumerate] *)
Definition stub_udev : Udev W := mkUdev stub_AddMatchSubsystem stub_AddMatchProperty stub_Devices stub_FilterAddMatchSubsystem.
End Stub.
(** What a receive can find. *)
(* [internal/discovery/usb_nocgo.go:64-73 DeviceChan] *)
Definition stub_DeviceChan : result (list MonitorInput) := Ok [DeviceChannelClosed; ErrorChannelClosed].
(* [internal/discovery/usb_nocgo.go:81-83 convertUdevDevice] *)
Definition stub_convertUdevDevice (device : UDevDevice) : option USBDevice := None.
(* [internal/discovery/usb_nocgo.go:86-88 handleDeviceEvent] *)
Definition stub_handleDeviceEvent (device : UDevDevice) (u : USBDiscoverer) : USBDiscoverer := u.
Definition stub_input (input : MonitorInput) : Prop := ∃ inputs, stub_DeviceChan = Ok inputs ∧ input ∈ inputs.

Lemma stub_input_ends input : stub_input input → ends_monitor input = true.
Proof. intros (inputs & [= <-] & Hin). set_unfold in Hin. naive_solver. Qed.

(** ** No device is found *)
Lemma stub_finds_nothing {W} allowlist criteria (w : W) : DiscoverDevices stub_udev allowlist criteria w = (Ok [], w).
Proof. reflexivity. Qed.

(** ** The agent *)
Section Agent.
Context `{MapOrder} {W : Type} (client : KubeClient W) (Patch : Pod → Pod → ST W (result unit)).
Context (kubelet : Kubelet W) (time_Now : ST W Z) (json_Marshal : PodDiscoveryReport → result string).
Local Abbreviation run_turns := (run_turns client Patch stub_udev kubelet time_Now json_Marshal).

(** What registering specs does not change. *)
Definition same_channel (d d' : DiscoveryAgent) : Prop :=
  eventChannel (usbDiscoverer d') = eventChannel (usbDiscoverer d) ∧
  channel_closed (usbDiscoverer d') = channel_closed (usbDiscoverer d) ∧ monitors d' = monitors d.
#[local] Instance same_channel_PreOrder : PreOrder (on_agent (W := W) same_channel).
Proof. split; [intros x; by split_and!|intros x y z (?&?&?) (?&?&?); split_and!; congruence]. Qed.

Lemma register_same_channel h : preserves (on_agent same_channel) (registerSpecForMonitoring (W := W) h).
Proof. intros [d w]. unfold registerSpecForMonitoring, on_agent, st_bind. cbn. destruct (shouldDiscoverOnNode _ _); by split_and!. Qed.
Lemma reregister_same_channel : preserves (on_agent same_channel) (reregisterAllSpecs client).
Proof.
  unfold reregisterAllSpecs. apply (preserves_try (on_agent same_channel)).
  - intros [d w]. unfold on_agent, on_world, lift_st. simpl. destruct (api_List _ _ _ w). by split_and!.
  - intros items. apply (preserves_bind (on_agent same_channel)); [|intros; by apply (preserves_ret (on_agent same_channel))].
    apply (preserves_fold (on_agent same_channel)). intros. apply register_same_channel.
Qed.

(** The first monitor, on a channel that is open. *)
Lemma first_monitor_ends input d w n :
  stub_input input → monitors d = S n → channel_closed (usbDiscoverer d) = false →
  ∃ d' w', loop_turn client Patch stub_udev kubelet time_Now json_Marshal (TurnMonitor input) (d, w) = (Ok true, (d', w')) ∧
    monitors d' = n ∧ channel_closed (usbDiscoverer d') = true ∧ eventChannel (usbDiscoverer d') = eventChannel (usbDiscoverer d).
Proof.
  intros Hi Hm Hc. cbn [loop_turn]. unfold st_try, st_bind at 1, monitor_turn.
  rewrite (st_bind_eq get_agent _ _ d (d, w)), Hm by done. destruct (Now_run time_Now d w) as (now & w1 & E).
  rewrite (st_bind_eq _ _ _ _ _ E). destruct Hi as (inputs & [= <-] & Hi). set_unfold in Hi.
  destruct Hi as [->|[->|[]]]; cbn; unfold close_events; rewrite Hc; by eexists _, _.
Qed.
(** Any monitor on a closed one. *)
Lemma second_monitor_panics input d w n :
  stub_input input → monitors d = S n → channel_closed (usbDiscoverer d) = true →
  (loop_turn client Patch stub_udev kubelet time_Now json_Marshal (TurnMonitor input) (d, w)).1 = Err close_of_closed_channel.
Proof.
  intros Hi Hm Hc. cbn [loop_turn]. unfold st_try, st_bind at 1, monitor_turn.
  rewrite (st_bind_eq get_agent _ _ d (d, w)), Hm by done. destruct (Now_run time_Now d w) as (now & w1 & E).
  rewrite (st_bind_eq _ _ _ _ _ E). destruct Hi as (inputs & [= <-] & Hi). set_unfold in Hi.
  destruct Hi as [->|[->|[]]]; cbn; unfold close_events; by rewrite Hc.
Qed.

(** The closed channel is noticed: a second monitor is started, unless the HSMDevices cannot
    be listed. *)
Lemma closed_channel_restarts d w :
  channel_closed (usbDiscoverer d) = true → eventChannel (usbDiscoverer d) = [] →
  ∃ d' w', loop_turn client Patch stub_udev kubelet time_Now json_Marshal TurnEvent (d, w) = (Ok true, (d', w')) ∧
    channel_closed (usbDiscoverer d') = true ∧
    (monitors d' = S (monitors d) ∧ eventMonitoringActive d' = true ∨ monitors d' = monitors d ∧ eventMonitoringActive d' = false).
Proof.
  intros Hc He. cbn [loop_turn]. unfold st_try, st_bind at 1, event_turn. rewrite (st_bind_eq get_agent _ _ d (d, w)), He, Hc by done.
  unfold restartEventMonitoring, st_try. unfold st_bind at 1 2. cbn [modify_agent].
  set (d1 := with_discoverer StopEventMonitoring d). pose proof (reregister_same_channel (d1, w)) as (Hs1 & Hs2 & Hs3).
  unfold st_bind at 1. change (with_discoverer StopEventMonitoring (d, w).1, (d, w).2) with (d1, w).
  destruct (reregisterAllSpecs client (d1, w)) as [[[]|e] [d2 w2]]; cbn in Hs1, Hs2, Hs3.
  - eexists _, _. split; [reflexivity|]. cbn. rewrite Hs2, Hs3. split; [done|]. by left.
  - eexists _, _. split; [reflexivity|]. cbn. rewrite Hs2, Hs3. split; [done|]. by right.
Qed.

(** Started in this build, with its monitor running and nothing received yet, the agent
    panics at the second monitor, or has given up monitoring because the HSMDevices could
    not be listed. *)
Lemma stub_build_crashes input input' d w :
  stub_input input → stub_input input' →
  monitors d = 1%nat → channel_closed (usbDiscoverer d) = false → eventChannel (usbDiscoverer d) = [] →
  let '(r, (d', _)) := run_turns [TurnMonitor input; TurnEvent; TurnMonitor input'] (d, w) in
  r = Err close_of_closed_channel ∨ (r = Ok true ∧ eventMonitoringActive d' = false).
Proof.
  intros Hi Hi' Hm Hc He. cbn [Discovery.run_turns]. unfold st_try.
  destruct (first_monitor_ends input d w 0 Hi Hm Hc) as (d1 & w1 & E1 & Hm1 & Hc1 & He1). rewrite (st_bind_eq _ _ _ _ _ E1).
  destruct (closed_channel_restarts d1 w1 Hc1 ltac:(congruence)) as (d2 & w2 & E2 & Hc2 & Hr). rewrite (st_bind_eq _ _ _ _ _ E2).
  destruct Hr as [[Hm2 _]|[Hm2 Ha2]].
  - pose proof (second_monitor_panics input' d2 w2 (monitors d1) Hi' Hm2 Hc2) as Hp. unfold st_bind.
    destruct (loop_turn _ _ _ _ _ _ _ (d2, w2)) as [r [d3 w3]]. cbn in Hp. subst r. by left.
  - rewrite Hm1 in Hm2. unfold st_bind. cbn [loop_turn]. unfold st_try, st_bind, monitor_turn. cbn. rewrite Hm2. by right.
Qed.
End Agent.

(** From its start. *)
Module StubWitness.
Import DiscoverySpec.Witness.
#[local] Existing Instance listed_order.
Example started_agent_panics :
  (Run Mem.kube Patch stub_udev kubelet now encode [TurnTick; TurnMonitor ErrorChannelClosed; TurnEvent; TurnMonitor DeviceChannelClosed]
     (agent, w0)).1 = Err close_of_closed_channel.
Proof. vm_compute. reflexivity. Qed.
End StubWitness.
