(* ===== verification/Trigger.v ===== *)
(** * internal/trigger and the mirror runnable of the manager mode

    Requests for a mirror sync ([trigger.go]) and the event loop that batches them and
    runs the sweeps ([runnable.go]).  The loop, the senders, the callbacks of the
    debounce timer and the clock interleave: a step relation whose steps are the
    accesses to the shared variables.  A sweep is an operation on a world; it takes
    effect when it ends.  Times are nanoseconds. *)

From S2P Require Import Prelude GoStd Hsm MockClient Api Kube Mirror.

Local Open Scope go_scope.

(* [internal/trigger/trigger.go:29-31] *)
Record MirrorTrigger (W : Type) := mkMirrorTrigger {
  TriggerMirror : string → string → bool → ST W unit;
}.
Arguments mkMirrorTrigger {W}.
Arguments TriggerMirror {W}.

(** The process-wide trigger, a variable that holds one once it is set. *)
(* [internal/trigger/trigger.go:35-35 global] *)
Definition Registry (W : Type) : Type := option (MirrorTrigger W).
(* [internal/trigger/trigger.go:39-41 Set] *)
Definition trigger_Set {W} (t : MirrorTrigger W) (_ : Registry W) : Registry W := Some t.
(* [internal/trigger/trigger.go:44-49 Get] *)
Definition trigger_Get {W} (global : Registry W) : option (MirrorTrigger W) := global.

(** ** Agent pods *)

(* [internal/modes/manager/runnable.go:149-155] *)
Definition isAgentPod (pod : Pod) : bool :=
  bool_decide (om_Labels (pod_meta pod) !! "app.kubernetes.io/component" = Some "hsm-agent").

(** The first condition of type Ready decides. *)
(* [internal/modes/manager/runnable.go:158-165] *)
Definition isPodReady (pod : Pod) : bool :=
  match filter (λ c, c.1 = PodReady) (pod_Conditions pod) with
  | (_, status) :: _ => bool_decide (status = ConditionTrue)
  | [] => false
  end.

(* [internal/modes/manager/runnable.go:168-170] *)
Definition wasPodReady (pod : Pod) : bool := isPodReady pod.

(* [internal/modes/manager/runnable.go:69-73] *)
Record MirrorTriggerEvent := mkEvent { ev_Reason : string; ev_Force : bool; ev_Source : string }.
#[global] Instance MirrorTriggerEvent_eq_dec : EqDecision MirrorTriggerEvent.
Proof. solve_decision. Defined.

(** The event an update of a pod sends, if any. *)
(* [internal/modes/manager/runnable.go:119-138 setupAgentPodWatcher] *)
Definition pod_updated (oldPod pod : Pod) : option MirrorTriggerEvent :=
  if negb (isAgentPod pod) then None
  else if isPodReady pod && negb (wasPodReady oldPod) then Some (mkEvent "agent_ready" false (om_Name (pod_meta pod)))
  else None.

(** ** Batches *)

(** [time.Since(lastSyncTime)]. *)
Definition since_sync (now lastSyncTime : Z) : Z := saturate (now - lastSyncTime).

(** What a batch asks for: no sync, or one with this reason and source. *)
(* [internal/modes/manager/runnable.go:272-309] *)
Definition processPendingEvents (events : list MirrorTriggerEvent) (now lastSyncTime : Z) : option (string * string) :=
  match events with
  | [] => None
  | first :: _ =>
      let force := existsb ev_Force events in
      if negb force && (since_sync now lastSyncTime <? 30 * Second) then None
      else Some (match events with
                 | [_] => "batched(" +:+ ev_Reason first +:+ ")"
                 | _ => "batched(" +:+ go_itoa (Z.of_nat (length events)) +:+ " events)"
                 end, "[" +:+ str_join " " (ev_Source <$> events) +:+ "]")
  end.

(** ** The loop *)

(** A callback of the debounce timer: started, or past the reading of the pending events
    and its decision. *)
Inductive Callback :=
  | Fired
  | Processing (events : list MirrorTriggerEvent) (sync : option (string * string)).

(** The channel, the variables of [Start] and what runs: the callbacks, whether the loop
    is inside a periodic sync, whether it has stopped. *)
(* [internal/modes/manager/runnable.go:76-87] *)
Record MirrorManagerRunnable (W : Type) := mkRunnable {
  mirrorTrigger : list MirrorTriggerEvent;
  pendingEvents : list MirrorTriggerEvent;
  debounceTimer : option Z;
  lastSyncTime : Z;
  callbacks : list Callback;
  in_periodic : bool;
  stopped : bool;
  clock : Z;
  world : W;
}.
Arguments mkRunnable {W}.
Arguments mirrorTrigger {W}.
Arguments pendingEvents {W}.
Arguments debounceTimer {W}.
Arguments lastSyncTime {W}.
Arguments callbacks {W}.
Arguments in_periodic {W}.
Arguments stopped {W}.
Arguments clock {W}.
Arguments world {W}.

(** [make(chan MirrorTriggerEvent, 10)] *)
(* [internal/modes/manager/runnable.go:97-97 NewMirrorManagerRunnable] *)
Definition channel_capacity : nat := 10.

(** What is seen of a step. *)
Inductive Label :=
  | Accepted (e : MirrorTriggerEvent)
  | Dropped (e : MirrorTriggerEvent)
  | Received (e : MirrorTriggerEvent)
  | Batch (events : list MirrorTriggerEvent) (sync : bool)
  | Periodic (sync : bool)
  | Silent.

Section Loop.
Context {W : Type} (mirror : ST W (result MirrorResult)) (periodicInterval debounceWindow : Z).
Abbreviation State := (MirrorManagerRunnable W).

(** The state in which the loop starts. *)
(* [internal/modes/manager/runnable.go:214-225 Start] *)
Definition start_loop (now : Z) (w : W) : State := mkRunnable [] [] None (nanos zero_time) [] false false now w.

(* [internal/modes/manager/runnable.go:173-184 TriggerMirror] *)
Definition send (e : MirrorTriggerEvent) (s : State) : Label * State :=
  if (length (mirrorTrigger s) <? channel_capacity)%nat
  then (Accepted e, mkRunnable (mirrorTrigger s ++ [e]) (pendingEvents s) (debounceTimer s) (lastSyncTime s) (callbacks s)
          (in_periodic s) (stopped s) (clock s) (world s))
  else (Dropped e, s).

(* [internal/modes/manager/runnable.go:229-242 Start] *)
Definition receive (event : MirrorTriggerEvent) (rest : list MirrorTriggerEvent) (s : State) : State :=
  mkRunnable rest (pendingEvents s ++ [event]) (Some (clock s + debounceWindow)) (lastSyncTime s) (callbacks s)
    (in_periodic s) (stopped s) (clock s) (world s).

(** The timer fires: its callback is started, the timer is no longer armed. *)
(* [internal/modes/manager/runnable.go:242-242 Start] *)
Definition fire (s : State) : State :=
  mkRunnable (mirrorTrigger s) (pendingEvents s) None (lastSyncTime s) (callbacks s ++ [Fired]) (in_periodic s) (stopped s)
    (clock s) (world s).

(** The callback evaluates [pendingEvents] and decides. *)
(* [internal/modes/manager/runnable.go:244-244 Start] *)
Definition read_pending (before after : list Callback) (s : State) : Label * State :=
  let sync := processPendingEvents (pendingEvents s) (clock s) (lastSyncTime s) in
  (Batch (pendingEvents s) (bool_decide (sync ≠ None)),
   mkRunnable (mirrorTrigger s) (pendingEvents s) (debounceTimer s) (lastSyncTime s)
     (before ++ Processing (pendingEvents s) sync :: after) (in_periodic s) (stopped s) (clock s) (world s)).

(* [internal/modes/manager/runnable.go:312-342] *)
Definition performMirrorSync (s : State) : State :=
  match mirror (world s) with
  | (Ok _, w) => mkRunnable (mirrorTrigger s) (pendingEvents s) (debounceTimer s) (clock s) (callbacks s) (in_periodic s)
                   (stopped s) (clock s) w
  | (Err _, w) => mkRunnable (mirrorTrigger s) (pendingEvents s) (debounceTimer s) (lastSyncTime s) (callbacks s) (in_periodic s)
                    (stopped s) (clock s) w
  end.

(** The callback ends: [pendingEvents = nil], whatever it is by now. *)
(* [internal/modes/manager/runnable.go:244-246 Start] *)
Definition finish_callback (before after : list Callback) (sync : option (string * string)) (s : State) : State :=
  let s := match sync with Some _ => performMirrorSync s | None => s end in
  mkRunnable (mirrorTrigger s) [] (debounceTimer s) (lastSyncTime s) (before ++ after) (in_periodic s) (stopped s) (clock s) (world s).

Definition with_periodic (b : bool) (s : State) : State :=
  mkRunnable (mirrorTrigger s) (pendingEvents s) (debounceTimer s) (lastSyncTime s) (callbacks s) b (stopped s) (clock s) (world s).

(* [internal/modes/manager/runnable.go:248-259 Start] *)
Definition tick (s : State) : Label * State :=
  let sync := periodicInterval <? since_sync (clock s) (lastSyncTime s) in
  (Periodic sync, if sync then with_periodic true s else s).

(* [internal/modes/manager/runnable.go:261-266 Start] *)
Definition stop (s : State) : State :=
  mkRunnable (mirrorTrigger s) (pendingEvents s) None (lastSyncTime s) (callbacks s) (in_periodic s) true (clock s) (world s).

(** Time passes. *)
Definition at_time (t : Z) (s : State) : State :=
  mkRunnable (mirrorTrigger s) (pendingEvents s) (debounceTimer s) (lastSyncTime s) (callbacks s) (in_periodic s) (stopped s) t (world s).

(** The loop waits in its [select]. *)
Definition waiting (s : State) : Prop := in_periodic s = false ∧ stopped s = false.

Inductive step : State → Label → State → Prop :=
  | step_send e s : step s (send e s).1 (send e s).2
  | step_receive e rest s : waiting s → mirrorTrigger s = e :: rest → step s (Received e) (receive e rest s)
  | step_fire deadline s : debounceTimer s = Some deadline → deadline ≤ clock s → step s Silent (fire s)
  | step_read before after s : callbacks s = before ++ Fired :: after →
      step s (read_pending before after s).1 (read_pending before after s).2
  | step_finish before after events sync s : callbacks s = before ++ Processing events sync :: after →
      step s Silent (finish_callback before after sync s)
  | step_tick s : waiting s → step s (tick s).1 (tick s).2
  | step_periodic s : in_periodic s = true → step s Silent (with_periodic false (performMirrorSync s))
  | step_stop s : waiting s → step s Silent (stop s)
  | step_time t s : clock s ≤ t → step s Silent (at_time t s).

(** Runs, with what is seen of them, latest first. *)
Inductive run (P : State → Label → Prop) : State → list Label → State → Prop :=
  | run_nil s : run P s [] s
  | run_step s l s' ls s'' : run P s ls s' → step s' l s'' → P s' l → run P s (l :: ls) s''.
End Loop.
Arguments finish_callback : simpl never.
Arguments performMirrorSync : simpl never.

(** ** Lemmas: runs *)
Section Spec.
Context {W : Type} (mirror : ST W (result MirrorResult)) (periodicInterval debounceWindow : Z) (start : Z) (w0 : W).
Abbreviation State := (MirrorManagerRunnable W).
Abbreviation step := (step mirror periodicInterval debounceWindow).
Abbreviation run := (run mirror periodicInterval debounceWindow).
Abbreviation start_state := (start_loop start w0).

Lemma performMirrorSync_fields (s : State) :
  let s' := performMirrorSync mirror s in
  mirrorTrigger s' = mirrorTrigger s ∧ pendingEvents s' = pendingEvents s ∧ debounceTimer s' = debounceTimer s ∧
  callbacks s' = callbacks s ∧ stopped s' = stopped s.
Proof. unfold performMirrorSync. by destruct (mirror (world s)) as [[r|e] w]. Qed.

Lemma finish_callback_fields before after sync (s : State) :
  let s' := finish_callback mirror before after sync s in
  mirrorTrigger s' = mirrorTrigger s ∧ pendingEvents s' = [] ∧ debounceTimer s' = debounceTimer s ∧
  callbacks s' = before ++ after ∧ stopped s' = stopped s.
Proof.
  unfold finish_callback. destruct sync as [x|]; [|done].
  destruct (performMirrorSync_fields s) as (? & ? & ? & ? & ?). by split_and!.
Qed.

(** Invariants of runs hold of reachable states. *)
Lemma run_ind_inv (P : State → Label → Prop) (I : list Label → State → Prop) s0 ls s :
  I [] s0 → (∀ ls s l s', I ls s → step s l s' → P s l → I (l :: ls) s') → run P s0 ls s → I ls s.
Proof. intros H0 Hstep Hr. induction Hr; eauto. Qed.

(** Pending events have an armed timer or a callback that will see them, until the loop
    is stopped; the channel keeps within its capacity. *)
Definition attended (s : State) : Prop :=
  (length (mirrorTrigger s) ≤ channel_capacity)%nat ∧
  (stopped s = false → pendingEvents s ≠ [] → debounceTimer s ≠ None ∨ callbacks s ≠ []).

Lemma step_attended s l s' : attended s → step s l s' → attended s'.
Proof.
  intros [Hc Hp] Hs. inversion Hs; subst; unfold attended; cbn in *.
  - unfold send. destruct (length (mirrorTrigger s) <? channel_capacity)%nat eqn:E; cbn; [|done].
    apply Nat.ltb_lt in E. rewrite length_app. cbn. split; [lia|done].
  - match goal with H : mirrorTrigger s = _ |- _ => rewrite H in Hc end. cbn in Hc. split; [lia|]. intros _ _. by left.
  - split; [done|]. intros _ _. right. by destruct (callbacks s).
  - split; [done|]. intros _ _. right. by destruct before.
  - destruct (finish_callback_fields before after sync s) as (-> & -> & _ & _ & _). split; [done|]. by intros _ [].
  - unfold tick. by destruct (_ <? _).
  - destruct (performMirrorSync_fields s) as (-> & -> & -> & -> & ->). done.
  - done.
  - done.
Qed.

(** ** Calm runs: no event is received while a callback is at work *)
Definition calm (s : State) (l : Label) : Prop := ∀ e, l = Received e → callbacks s = [].

Definition accepted (ls : list Label) (e : MirrorTriggerEvent) : Prop := Accepted e ∈ ls.
Definition batched (ls : list Label) (e : MirrorTriggerEvent) : Prop := ∃ events sync, Batch events sync ∈ ls ∧ e ∈ events.

(** What a calm run maintains: an accepted event is somewhere; a callback is alone, with
    the timer disarmed, and what it processes is all that is pending. *)
Definition calm_inv (ls : list Label) (s : State) : Prop :=
  (∀ e, accepted ls e → e ∈ mirrorTrigger s ∨ e ∈ pendingEvents s ∨ batched ls e) ∧
  (callbacks s = [] ∨ debounceTimer s = None ∧
     (callbacks s = [Fired] ∨ ∃ events sync, callbacks s = [Processing events sync] ∧ pendingEvents s = events ∧
        ∀ e, e ∈ events → batched ls e)) ∧
  (∀ events sync, Batch events sync ∈ ls → existsb ev_Force events = true → sync = true).

Lemma processPendingEvents_forced events now last :
  existsb ev_Force events = true → processPendingEvents events now last ≠ None.
Proof. destruct events as [|e events]; [done|]. intros Hf. cbn [processPendingEvents]. by rewrite Hf. Qed.

Lemma batched_cons l ls e : batched ls e → batched (l :: ls) e.
Proof. intros (events & sync & Hin & He). exists events, sync. split; [by right|done]. Qed.

Lemma calm_inv_silent ls s s' l :
  (∀ e, l ≠ Accepted e) → (∀ events sync, l ≠ Batch events sync) →
  mirrorTrigger s' = mirrorTrigger s → pendingEvents s' = pendingEvents s → callbacks s' = callbacks s →
  (debounceTimer s = None → debounceTimer s' = None) → calm_inv ls s → calm_inv (l :: ls) s'.
Proof.
  unfold calm_inv. intros Ha Hb -> -> -> Ht (H1 & H2 & H3). split_and!.
  - intros e [Hl|Hin]%elem_of_cons; [by destruct (Ha e)|]. destruct (H1 e Hin) as [?|[?|?]]; auto using batched_cons.
  - destruct H2 as [?|(Hn & Hc)]; [by left|right]. split; [by apply Ht|].
    destruct Hc as [?|(events & sync & ? & ? & Hin)]; [by left|right]. exists events, sync. split_and!; auto using batched_cons.
  - intros events sync [Hl|Hin]%elem_of_cons; [by destruct (Hb events sync)|by apply H3].
Qed.

Lemma calm_step ls s l s' : calm_inv ls s → step s l s' → calm s l → calm_inv (l :: ls) s'.
Proof.
  intros HI Hs Hcalm. pose proof HI as (H1 & H2 & H3). inversion Hs; subst.
  - unfold send. destruct (length (mirrorTrigger s) <? channel_capacity)%nat; [|by apply (calm_inv_silent _ s)].
    cbn [fst snd]. split_and!.
    + intros e' [[= ->]|Hin]%elem_of_cons; [left; apply elem_of_app; right; by left|].
      destruct (H1 e' Hin) as [?|[?|?]]; [left; apply elem_of_app; by left|by right; left|right; right; by apply batched_cons].
    + destruct H2 as [?|(Hn & [?|(events & sync & ? & ? & Hin)])]; [by left|right; split; [done|by left]|].
      right. split; [done|]. right. exists events, sync. split_and!; auto using batched_cons.
    + intros events sync [?|Hin]%elem_of_cons; [done|by apply H3].
  - specialize (Hcalm e eq_refl). split_and!.
    + intros e' [?|Hin]%elem_of_cons; [done|]. cbn. destruct (H1 e' Hin) as [Hch|[?|?]].
      * match goal with H : mirrorTrigger s = _ |- _ => rewrite H in Hch end. apply elem_of_cons in Hch as [->|?]; [|by left].
        right. left. apply elem_of_app. right. by left.
      * right. left. apply elem_of_app. by left.
      * right. right. by apply batched_cons.
    + by left.
    + intros events sync [?|Hin]%elem_of_cons; [done|by apply H3].
  - assert (callbacks s = []) as Hc by (destruct H2 as [?|[? _]]; [done|congruence]). split_and!.
    + intros e [?|Hin]%elem_of_cons; [done|]. cbn. destruct (H1 e Hin) as [?|[?|?]]; auto using batched_cons.
    + right. split; [done|]. left. cbn. by rewrite Hc.
    + intros events sync [?|Hin]%elem_of_cons; [done|by apply H3].
  - assert (debounceTimer s = None ∧ before = [] ∧ after = []) as (Ht & -> & ->).
    { match goal with H : callbacks s = before ++ _ |- _ => rewrite H in H2 end.
      destruct H2 as [Hn|(Ht & [Hn|(events & sync & Hn & _)])]; destruct before as [|b [|b' before]]; try done; by injection Hn as ->. }
    unfold read_pending. cbn [fst snd]. split_and!.
    + intros e [?|Hin]%elem_of_cons; [done|]. cbn. destruct (H1 e Hin) as [?|[?|?]]; auto using batched_cons.
    + right. split; [done|]. right. eexists _, _. cbn. split; [done|]. split; [done|]. intros e He.
      eexists _, _. split; [by left|done].
    + intros events sync [[= -> ->]|Hin]%elem_of_cons; [|by apply H3]. intros Hf. apply bool_decide_eq_true.
      by apply processPendingEvents_forced.
  - destruct (finish_callback_fields before after sync s) as (E1 & E2 & E3 & E4 & _).
    assert (before = [] ∧ after = [] ∧ pendingEvents s = events ∧ ∀ e, e ∈ events → batched ls e) as (-> & -> & Hp & Hb).
    { match goal with H : callbacks s = before ++ _ |- _ => rewrite H in H2 end.
      destruct H2 as [Hn|(Ht & [Hn|(events' & sync' & Hn & Hp & Hb)])]; destruct before as [|b [|b' before]]; try done;
        injection Hn; intros; subst; done. }
    split_and!.
    + intros e [?|Hin]%elem_of_cons; [done|]. rewrite E1, E2. destruct (H1 e Hin) as [?|[Hpe|?]]; auto using batched_cons.
      right. right. apply batched_cons, Hb. by rewrite <-Hp.
    + left. by rewrite E4.
    + intros events' sync' [?|Hin]%elem_of_cons; [done|by apply H3].
  - unfold tick. apply (calm_inv_silent _ s); try done; by destruct (_ <? _).
  - destruct (performMirrorSync_fields s) as (E1 & E2 & E3 & E4 & E5).
    apply (calm_inv_silent _ s); try done. cbn. by rewrite E3.
  - by apply (calm_inv_silent _ s).
  - by apply (calm_inv_silent _ s).
Qed.

(** Nothing is left to do until somebody sends an event. *)
Definition at_rest (s : State) : Prop :=
  stopped s = false ∧ mirrorTrigger s = [] ∧ debounceTimer s = None ∧ callbacks s = [].

(** C22. If no event is received while a batch is being processed, then once the loop is at
    rest every event that was accepted has been in a processed batch, and every batch
    with a forced event has started a sync, however recent the last one. *)
Theorem calm_run_serves ls s :
  run calm start_state ls s → at_rest s →
  (∀ e, accepted ls e → batched ls e) ∧
  (∀ events sync, Batch events sync ∈ ls → existsb ev_Force events = true → sync = true).
Proof.
  intros Hr (Hst & Hch & Ht & Hcb).
  assert (calm_inv ls s) as (H1 & _ & H3).
  { revert Hr. apply run_ind_inv; [|intros; by eapply calm_step]. split_and!; [|by left|].
    - intros e He. by apply not_elem_of_nil in He.
    - intros events sync He. by apply not_elem_of_nil in He. }
  assert (attended s) as [_ Hatt].
  { refine (run_ind_inv calm (λ _, attended) _ _ _ _ _ Hr); [|intros; by eapply step_attended]. split; [cbn; lia|done]. }
  assert (pendingEvents s = []) as Hp by (destruct (pendingEvents s); [done|]; by destruct Hatt).
  split; [|exact H3]. intros e He. destruct (H1 e He) as [Hin|[Hin|?]]; [|..|done].
  - rewrite Hch in Hin. by apply not_elem_of_nil in Hin.
  - rewrite Hp in Hin. by apply not_elem_of_nil in Hin.
Qed.

(** A forced request that is received while a batch is being processed can be lost: the
    callback then clears the pending events, the new one included, and the loop comes to
    rest although no batch has contained the request. *)
Theorem overlapping_request_lost :
  0 ≤ debounceWindow →
  ∃ ls s e, run (λ _ _, True) start_state ls s ∧ at_rest s ∧ ev_Force e = true ∧ accepted ls e ∧ ¬ batched ls e.
Proof.
  intros Hd. set (e0 := mkEvent "agent_ready" false "agent"). set (e := mkEvent "controller_divergence" true "app").
  set (t := start + debounceWindow).
  set (sync := processPendingEvents [e0] t (nanos zero_time)).
  (** The first event is being processed when the forced one arrives. *)
  set (s1 := mkRunnable [] [e0] None (nanos zero_time) [Processing [e0] sync] false false t w0).
  set (s2 := mkRunnable [] [e0; e] (Some (t + debounceWindow)) (nanos zero_time) [Processing [e0] sync] false false t w0).
  set (s3 := finish_callback mirror [] [] sync s2).
  destruct (finish_callback_fields [] [] sync s2) as (F1 & F2 & F3 & F4 & F5). fold s3 in F1, F2, F3, F4, F5.
  set (s4 := at_time (Z.max (clock s3) (t + debounceWindow)) s3). set (s5 := fire s4). set (s6 := (read_pending [] [] s5).2).
  assert (run (λ _ _, True) start_state [Batch [e0] (bool_decide (sync ≠ None)); Silent; Silent; Received e0; Accepted e0] s1) as R1.
  { eapply run_step; [|exact (step_read _ _ _ [] [] (mkRunnable [] [e0] None (nanos zero_time) [Fired] false false t w0) eq_refl)|done].
    eapply run_step; [|apply (step_fire _ _ _ t (mkRunnable [] [e0] (Some t) (nanos zero_time) [] false false t w0)); [done|apply Z.le_refl]|done].
    eapply run_step; [|apply (step_time _ _ _ t (mkRunnable [] [e0] (Some t) (nanos zero_time) [] false false start w0)); cbn; lia|done].
    eapply run_step; [|by apply (step_receive _ _ _ e0 [] (mkRunnable [e0] [] None (nanos zero_time) [] false false start w0))|done].
    eapply run_step; [apply run_nil|apply (step_send _ _ _ e0 start_state)|done]. }
  assert (run (λ _ _, True) start_state [Received e; Accepted e; Batch [e0] (bool_decide (sync ≠ None)); Silent; Silent; Received e0; Accepted e0] s2) as R2.
  { eapply run_step; [|by apply (step_receive _ _ _ e [] (mkRunnable [e] [e0] None (nanos zero_time) [Processing [e0] sync] false false t w0))|done].
    eapply run_step; [exact R1|apply (step_send _ _ _ e s1)|done]. }
  eexists _, (finish_callback mirror [] [] None s6), e. split_and!.
  - eapply run_step; [|apply (step_finish _ _ _ [] [] [] None s6)|done].
    2:{ unfold s6, read_pending, s5, s4. cbn [fst snd callbacks fire at_time pendingEvents]. by rewrite F2. }
    eapply run_step; [|apply (step_read _ _ _ [] [] s5)|done]; [|unfold s5, s4; cbn; by rewrite F4].
    eapply run_step; [|apply (step_fire _ _ _ (t + debounceWindow) s4)|done]; [|unfold s4; cbn; by rewrite F3|unfold s4; cbn; lia].
    eapply run_step; [|apply (step_time _ _ _ _ s3); apply Z.le_max_l|done].
    eapply run_step; [exact R2|by apply (step_finish _ _ _ [] [] [e0] sync s2)|done].
  - destruct (finish_callback_fields [] [] None s6) as (G1 & _ & G3 & G4 & G5).
    unfold at_rest. rewrite G1, G3, G4, G5. unfold s6, s5, s4. cbn. by rewrite F1, F5.
  - done.
  - unfold accepted. do 6 right. by left.
  - intros (events & sy & Hin & He). cbn [read_pending fst] in Hin. replace (pendingEvents s5) with (@nil MirrorTriggerEvent) in Hin.
    assert (events = [] ∨ events = [e0]) as [-> | ->].
    { rewrite !elem_of_cons in Hin. destruct_or! Hin; try discriminate Hin; [injection Hin as -> _; by left| |by apply not_elem_of_nil in Hin].
      injection Hin as -> _. by right. }
    + by apply not_elem_of_nil in He.
    + by apply list_elem_of_singleton in He.
Qed.

(** A request on its own runs its course. *)
Lemma lone_request e : 0 ≤ debounceWindow →
  ∃ ls s, run calm start_state ls s ∧ at_rest s ∧ accepted ls e.
Proof.
  intros Hd. set (t := start + debounceWindow). set (sync := processPendingEvents [e] t (nanos zero_time)).
  set (state pending timer cbs now := mkRunnable [] pending timer (nanos zero_time) cbs false false now w0).
  set (s1 := state [e] None [Processing [e] sync] t).
  exists [Silent; Batch [e] (bool_decide (sync ≠ None)); Silent; Silent; Received e; Accepted e], (finish_callback mirror [] [] sync s1).
  split_and!.
  - eapply run_step; [|by apply (step_finish _ _ _ [] [] [e] sync s1)|by intros ?].
    eapply run_step; [|exact (step_read _ _ _ [] [] (state [e] None [Fired] t) eq_refl)|by intros ?].
    eapply run_step; [|apply (step_fire _ _ _ t (state [e] (Some t) [] t)); [done|apply Z.le_refl]|by intros ?].
    eapply run_step; [|apply (step_time _ _ _ t (state [e] (Some t) [] start)); cbn; lia|by intros ?].
    eapply run_step; [|by apply (step_receive _ _ _ e [] (mkRunnable [e] [] None (nanos zero_time) [] false false start w0))|by intros ? [= ->]].
    eapply run_step; [apply run_nil|apply (step_send _ _ _ e start_state)|by intros ?].
  - destruct (finish_callback_fields [] [] sync s1) as (E1 & _ & E3 & E4 & E5). unfold at_rest. by rewrite E1, E3, E4, E5.
  - unfold accepted. do 5 right. by left.
Qed.
End Spec.

(** ** Before the loop *)
Section BeforeLoop.
Context {W : Type} (am : AgentManagerInterface W) (operatorNamespace : string).

(** [Start] up to its loop: the trigger is set, then agents are waited for, for [ticks] ticks.
    [Ok true] is that the loop follows, [Ok false] that nothing does until the end. *)
(* [internal/modes/manager/runnable.go:187-213 Start] *)
Definition before_loop (mmr : MirrorTrigger W) (ticks : nat) : ST (Registry W * W) (result bool) := λ '(global, w),
  let '((ready, err), w') := WaitForAgentsReady am operatorNamespace ticks w in
  (match err with
   | Some err => Err (wrapf "failed to wait for agents to be ready" err)
   | None => Ok ready
   end, (trigger_Set mmr global, w')).

Lemma WaitForAgentsReady_result ticks w :
  (WaitForAgentsReady am operatorNamespace ticks w).1 = (true, None) ∨
  (WaitForAgentsReady am operatorNamespace ticks w).1 = (false, Some (errorf "context deadline exceeded")).
Proof.
  revert w. induction ticks as [|ticks IH]; intros w; [by right|]. cbn [WaitForAgentsReady]. unfold st_bind.
  destruct (GetAvailableDevices am operatorNamespace w) as [[devices|e] w1]; [|apply IH].
  destruct (some_agent_ready am devices w1) as [[|] w2]; [by left|apply IH].
Qed.
(** The branch that only disables the mirror is never taken: without an agent in time, [Start]
    fails, and with it the manager.  The trigger is set in any case. *)
Lemma before_loop_result mmr ticks global w :
  let '(r, (global', _)) := before_loop mmr ticks (global, w) in
  (r = Ok true ∨ ∃ err, r = Err err) ∧ trigger_Get global' = Some mmr.
Proof.
  unfold before_loop. pose proof (WaitForAgentsReady_result ticks w) as H.
  destruct (WaitForAgentsReady am operatorNamespace ticks w) as [[ready err] w']. cbn [fst] in H. split; [|done].
  destruct H as [[= -> ->]|[= -> ->]]; [by left|right; by eexists].
Qed.
End BeforeLoop.

(** ** Witness: the loop over the mirror manager of two mock devices *)
Module TriggerWitness.
#[local] Existing Instance listed_order.
Definition mirror : ST Fleet (result MirrorResult) := MirrorAllSecrets MirrorWitness.am fleet_clock "hsm".
Definition forced : MirrorTriggerEvent := mkEvent "manual" true "api".

Example calm_run_serves_witness :
  ∃ ls s, run mirror (300 * Second) 5 calm (start_loop 0 MirrorWitness.w0) ls s ∧ at_rest s ∧ batched ls forced.
Proof.
  destruct (lone_request mirror (300 * Second) 5 0 MirrorWitness.w0 forced) as (ls & s & Hr & Hrest & Ha); [lia|].
  exists ls, s. split; [exact Hr|]. split; [exact Hrest|].
  exact (proj1 (calm_run_serves mirror (300 * Second) 5 0 MirrorWitness.w0 ls s Hr Hrest) forced Ha).
Defined.

Example overlapping_request_lost_witness :
  ∃ ls s e, run mirror (300 * Second) 5 (λ _ _, True) (start_loop 0 MirrorWitness.w0) ls s ∧ at_rest s ∧ ev_Force e = true ∧
            accepted ls e ∧ ¬ batched ls e.
Proof. apply overlapping_request_lost. lia. Defined.
End TriggerWitness.
