(* ===== verification/DiscoveryController.v ===== *)
(** * internal/controller/discovery_daemonset_controller.go: discovery of a device

    One reconciliation of an HSMDevice keeps its HSMPool and the DaemonSet of its
    discovery pods as they should be.  The API, SetControllerReference of
    controller-runtime and the comparison of apimachinery are arguments. *)

From S2P Require Import Prelude GoStd Api Kube PoolController PoolAgents.

Local Open Scope go_scope.

(* [internal/controller/discovery_daemonset_controller.go:54-54] *)
Definition trueValue : string := "true".

(* [internal/controller/discovery_daemonset_controller.go:45-51] *)
Record DiscoveryDaemonSetReconciler := mkDiscoveryReconciler {
  DiscoveryImage : string;
  dr_ServiceAccountName : string;
}.

(** ** The desired objects *)

(* [internal/controller/discovery_daemonset_controller.go:441-452] *)
Definition isTestEnvironment (hsmDevice : HSMDevice) : bool :=
  bool_decide (default "" (om_Annotations (hd_meta hsmDevice) !! "hsm.j5t.io/test-mode") = trueValue).

(* [internal/controller/discovery_daemonset_controller.go:455-518] *)
Definition getVolumes (isTestEnvironment : bool) : list Volume :=
  if isTestEnvironment then [mkVolume volumeNameSys EmptyDir; mkVolume volumeNameRunUdev EmptyDir]
  else
    [mkVolume volumeNameSys (HostPath "/sys" (Some "Directory"));
     mkVolume volumeNameRunUdev (HostPath "/run/udev" (Some "Directory"));
     mkVolume volumeNameDevicePlugins (HostPath "/var/lib/kubelet/device-plugins" (Some "DirectoryOrCreate"));
     mkVolume volumeNamePluginsRegistry (HostPath "/var/lib/kubelet/plugins_registry" (Some "Directory"))].

(* [internal/controller/discovery_daemonset_controller.go:521-547] *)
Definition getSecurityContext (isTestEnvironment : bool) : SecurityContext :=
  if isTestEnvironment
  then mkSecurityContext None (Some false) (Some [capabilityAll]) (Some false) (Some true) None (Some "RuntimeDefault")
  else mkSecurityContext None (Some false) (Some [capabilityAll]) (Some false) (Some false) None None.

(* [internal/controller/discovery_daemonset_controller.go:550-568] *)
Definition getPodSecurityContext (isTestEnvironment : bool) : PodSecurityContext :=
  if isTestEnvironment then mkPodSecurityContext (Some 65534) (Some 65534) (Some true) (Some 65534)
  else mkPodSecurityContext (Some 0) (Some 0) (Some false) None.

(** The labels of the pool, and those of the DaemonSet, its selector and its pods. *)
Definition owned_labels (component deviceName : string) : gmap string string :=
  <[labelAppName := appNameHSMOperator]> (<[labelAppComponent := component]> {[labelHSMDevice := deviceName]}).

(* [internal/controller/discovery_daemonset_controller.go:206-268 ensureDiscoveryDaemonSet] *)
Definition discovery_container (image : string) (isTestEnvironment : bool) : Container :=
  mkContainer componentDiscovery image ["--mode=discovery"]
    [mkEnvVar "NODE_NAME" "spec.nodeName"; mkEnvVar "POD_NAMESPACE" "metadata.namespace"; mkEnvVar "POD_NAME" "metadata.name"]
    [] None None
    (<["cpu" := "50m"]> {["memory" := "64Mi"]}) (<["cpu" := "100m"]> {["memory" := "128Mi"]})
    (Some (getSecurityContext isTestEnvironment))
    [mkMount volumeNameSys "/sys" true; mkMount volumeNameRunUdev "/run/udev" true;
     mkMount volumeNameDevicePlugins "/var/lib/kubelet/device-plugins" false;
     mkMount volumeNamePluginsRegistry "/var/lib/kubelet/plugins_registry" false].

(* [internal/controller/discovery_daemonset_controller.go:187-290 ensureDiscoveryDaemonSet] *)
Definition desired_spec (r : DiscoveryDaemonSetReconciler) (hsmDevice : HSMDevice) (image : string) : DaemonSetSpec :=
  let test := isTestEnvironment hsmDevice in
  let labels := owned_labels componentDiscovery (om_Name (hd_meta hsmDevice)) in
  mkDaemonSetSpec labels labels
    (mkPodSpec (Some (hd_NodeSelector (hd_Spec hsmDevice))) None (Some (getPodSecurityContext test)) (dr_ServiceAccountName r)
       [discovery_container image test] (getVolumes test) [mkToleration "hsm-node" "Exists" "NoSchedule"])
    "RollingUpdate" "50%".

Definition with_owners (m : ObjectMeta) (owners : list OwnerReference) : ObjectMeta :=
  mkObjectMeta (om_Name m) (om_Namespace m) (om_UID m) (om_ResourceVersion m) (om_Labels m) (om_Annotations m)
    (om_Finalizers m) (om_DeletionTimestamp m) owners (om_CreationTimestamp m) (om_Generation m).
Definition with_labels (m : ObjectMeta) (labels : gmap string string) : ObjectMeta :=
  mkObjectMeta (om_Name m) (om_Namespace m) (om_UID m) (om_ResourceVersion m) labels (om_Annotations m)
    (om_Finalizers m) (om_DeletionTimestamp m) (om_OwnerReferences m) (om_CreationTimestamp m) (om_Generation m).

Definition empty_pool_status : HSMPoolStatus := mkHSMPoolStatus [] 0 0 [] 0 None [] "" None.
(* [internal/controller/discovery_daemonset_controller.go:104-104 ensureHSMPool] *)
Definition default_grace : Z := 5 * Minute.

(** The labels an existing pool lacks; whether there are some. *)
(* [internal/controller/discovery_daemonset_controller.go:141-146 ensureHSMPool] *)
Definition merge_label (acc : gmap string string * bool) (kv : string * string) : gmap string string * bool :=
  let '(labels, needsUpdate) := acc in
  if bool_decide (default "" (labels !! kv.1) ≠ kv.2) then (<[kv.1 := kv.2]> labels, true) else (labels, needsUpdate).

Section Controller.
Context {W : Type} `{MapOrder} (k : KubeClient W) (r : DiscoveryDaemonSetReconciler).
Context (SetControllerReference : ObjectMeta → ObjectMeta → result (list OwnerReference)).
Context (DeepEqual : DaemonSetSpec → DaemonSetSpec → bool).

(** Update an existing pool if something is missing. *)
(* [internal/controller/discovery_daemonset_controller.go:128-155 ensureHSMPool] *)
Definition update_pool (labels : gmap string string) (existing : HSMPool) : ST W (result unit) :=
  let needsGrace := bool_decide (hp_GracePeriod (hp_Spec existing) = None) in
  let spec := if needsGrace then mkHSMPoolSpec (Some default_grace) (hp_Mirroring (hp_Spec existing)) else hp_Spec existing in
  let (labels, needsUpdate) := fold_left merge_label (range labels) (om_Labels (hp_meta existing), needsGrace) in
  if needsUpdate then
    st_try (api_Update (HSMPools k) (mkHSMPool (with_labels (hp_meta existing) labels) spec (hp_Status existing)))
      (wrapf "failed to update HSMPool") (λ _, st_ret (Ok ()))
  else st_ret (Ok ()).

(* [internal/controller/discovery_daemonset_controller.go:87-156] *)
Definition ensureHSMPool (hsmDevice : HSMDevice) : ST W (result unit) :=
  let name := om_Name (hd_meta hsmDevice) in
  let ns := om_Namespace (hd_meta hsmDevice) in
  let labels := owned_labels componentPool name in
  let meta := new_meta (name +:+ "-pool") ns labels in
  match SetControllerReference (hd_meta hsmDevice) meta with
  | Err err => st_ret (Err (wrapf "failed to set controller reference on HSMPool" err))
  | Ok owners =>
      let* g := api_Get (HSMPools k) ns (name +:+ "-pool") in
      match g with
      | Err err =>
          if IsNotFound err then
            st_try (api_Create (HSMPools k) (mkHSMPool (with_owners meta owners) (mkHSMPoolSpec (Some default_grace) None) empty_pool_status))
              (wrapf "failed to create HSMPool") (λ _, st_ret (Ok ()))
          else st_ret (Err (wrapf "failed to get HSMPool" err))
      | Ok existing => update_pool labels existing
      end
  end.

Definition discovery_image : ST W string :=
  if bool_decide (DiscoveryImage r ≠ "") then st_ret (DiscoveryImage r) else Images.GetImage k "".

(** Create the DaemonSet, or update it if it is not what is desired. *)
(* [internal/controller/discovery_daemonset_controller.go:298-338 ensureDiscoveryDaemonSet] *)
Definition apply_daemonset (ns name : string) (labels : gmap string string) (meta : ObjectMeta) (spec : DaemonSetSpec) : ST W Outcome :=
  let* g := api_Get (DaemonSets k) ns (name +:+ "-discovery") in
  match g with
  | Err err =>
      if IsNotFound err then
        let* c := api_Create (DaemonSets k) (mkDaemonSet meta spec 0) in
        st_ret match c with Err err => failed (wrapf "failed to create discovery DaemonSet" err) | Ok _ => done end
      else st_ret (failed (wrapf "failed to get discovery DaemonSet" err))
  | Ok existing =>
      let specChanged := negb (DeepEqual (ds_Spec existing) spec) in
      let labelsChanged := negb (bool_decide (om_Labels (ds_meta existing) = labels)) in
      if negb specChanged && negb labelsChanged then st_ret done
      else
        let* u := api_Update (DaemonSets k) (mkDaemonSet (with_labels (ds_meta existing) labels) spec (ds_DesiredNumberScheduled existing)) in
        st_ret match u with Err err => failed (wrapf "failed to update discovery DaemonSet" err) | Ok _ => done end
  end.

(* [internal/controller/discovery_daemonset_controller.go:159-338] *)
Definition ensureDiscoveryDaemonSet (hsmDevice : HSMDevice) : ST W Outcome :=
  let name := om_Name (hd_meta hsmDevice) in
  let ns := om_Namespace (hd_meta hsmDevice) in
  let* image := discovery_image in
  let labels := owned_labels componentDiscovery name in
  let meta := new_meta (name +:+ "-discovery") ns labels in
  let spec := desired_spec r hsmDevice image in
  match SetControllerReference (hd_meta hsmDevice) meta with
  | Err err => st_ret (failed (wrapf "failed to set controller reference" err))
  | Ok owners =>
      apply_daemonset ns name labels (with_owners meta owners) spec
  end.

(* [internal/controller/discovery_daemonset_controller.go:341-361] *)
Definition cleanupDiscoveryDaemonSet (ns name : string) : ST W Outcome :=
  let* g := api_Get (DaemonSets k) ns (name +:+ "-discovery") in
  match g with
  | Err err => st_ret (if IsNotFound err then done else failed (wrapf "failed to get discovery DaemonSet for cleanup" err))
  | Ok daemonSet =>
      let* d := api_Delete (DaemonSets k) daemonSet in
      st_ret match d with Err err => failed (wrapf "failed to delete discovery DaemonSet" err) | Ok _ => done end
  end.

(* [internal/controller/discovery_daemonset_controller.go:62-84] *)
Definition Reconcile (ns name : string) : ST W Outcome :=
  let* g := api_Get (HSMDevices k) ns name in
  match g with
  | Err err => if IsNotFound err then cleanupDiscoveryDaemonSet ns name else st_ret (failed err)
  | Ok hsmDevice =>
      let* e := ensureHSMPool hsmDevice in
      match e with
      | Err err => st_ret (failed err)
      | Ok _ => ensureDiscoveryDaemonSet hsmDevice
      end
  end.
End Controller.

(** The device an object with these labels belongs to. *)
Definition device_request (component : string) (m : ObjectMeta) : list (string * string) :=
  match om_Labels m !! labelHSMDevice with
  | None => []
  | Some deviceName =>
      if bool_decide (om_Labels m !! labelAppComponent = Some component) then [(om_Namespace m, deviceName)] else []
  end.
(* [internal/controller/discovery_daemonset_controller.go:364-391] *)
Definition findDevicesForDaemonSet (daemonSet : DaemonSet) : list (string * string) :=
  device_request componentDiscovery (ds_meta daemonSet).
(* [internal/controller/discovery_daemonset_controller.go:394-421] *)
Definition findDevicesForHSMPool (hsmPool : HSMPool) : list (string * string) :=
  device_request componentPool (hp_meta hsmPool).

(** ** Lemmas: the desired objects *)

(** In production every mount of the discovery container has its volume; in the test
    environment two of them have none. *)
Lemma production_mounts_have_volumes image :
  Forall (λ m, vm_Name m ∈ (vol_Name <$> getVolumes false)) (ct_VolumeMounts (discovery_container image false)).
Proof. repeat constructor; cbn; set_solver. Qed.
Lemma test_mounts_lack_volumes image :
  ∃ m, m ∈ ct_VolumeMounts (discovery_container image true) ∧ vm_Name m ∉ (vol_Name <$> getVolumes true).
Proof. eexists. split; [do 2 right; by left|]. cbn. rewrite !elem_of_cons. by intros [?|[?|?%not_elem_of_nil]]. Qed.

(** The DaemonSet selects its pods, and they carry the labels by which the gate of the
    agent controller looks for them. *)
Lemma discovery_pods_found r dev image :
  let spec := desired_spec r dev image in
  dss_Selector spec = dss_TemplateLabels spec ∧
  <[labelAppComponent := componentDiscovery]> {[labelHSMDevice := om_Name (hd_meta dev)]} ⊆ dss_TemplateLabels spec.
Proof. split; [done|]. cbn. unfold owned_labels. apply insert_subseteq. by vm_compute. Qed.

Lemma merge_labels_fold l acc :
  NoDup l.*1 →
  let res := fold_left merge_label l acc in
  (∀ key v, (key, v) ∈ l → default "" (res.1 !! key) = v) ∧
  (∀ key, key ∉ l.*1 → res.1 !! key = acc.1 !! key) ∧
  (res.2 = false → res.1 = acc.1 ∧ acc.2 = false).
Proof.
  revert acc. induction l as [|[k v] l IH]; intros [labels b] Hnd; cbn [fold_left].
  { split_and!; [by intros ? ? ?%not_elem_of_nil|done|done]. }
  apply NoDup_cons in Hnd as [Hk Hnd]. destruct (IH (merge_label (labels, b) (k, v)) Hnd) as (H1 & H2 & H3).
  assert (default "" ((merge_label (labels, b) (k, v)).1 !! k) = v ∧
    ∀ key, key ≠ k → (merge_label (labels, b) (k, v)).1 !! key = labels !! key) as [Hv Hne].
  { unfold merge_label. cbn. case_bool_decide as E; cbn.
    - rewrite lookup_insert_eq. split; [done|]. intros key Hn. by rewrite lookup_insert_ne.
    - split; [|done]. destruct (decide (default "" (labels !! k) = v)); [done|by destruct E]. }
  split_and!.
  - intros key v' [[= -> ->]|Hin]%elem_of_cons; [|by apply H1]. by rewrite H2.
  - intros key [Hn Hnl]%not_elem_of_cons. rewrite H2 by done. by apply Hne.
  - intros Hf. destruct (H3 Hf) as [E1 E2]. rewrite E1. revert E2. unfold merge_label. cbn. by case_bool_decide.
Qed.

Section Spec.
Context {W : Type} `{!ClusterView W} `{MapOrder} (k : KubeClient W) (r : DiscoveryDaemonSetReconciler).
Context (SetControllerReference : ObjectMeta → ObjectMeta → result (list OwnerReference)).
Context (DeepEqual : DaemonSetSpec → DaemonSetSpec → bool).
Context `{!ApiLaws (HSMDevices k), !ApiLaws (HSMPools k), !ApiLaws (DaemonSets k), !ApiLaws (Deployments k)}.
(** What is equal down to the fields the server fills in is equal in those of the model. *)
Hypothesis DeepEqual_eq : ∀ a b, DeepEqual a b = true → a = b.

(** An object with [P] is there, or the one that was is being deleted. *)
Definition established {T} `{Kind T} (P : T → Prop) (key : string * string) (w w' : W) : Prop :=
  (∃ t, k_get (objects w') !! key = Some t ∧ P t) ∨
  ∃ t0, k_get (objects w) !! key = Some t0 ∧ om_DeletionTimestamp (k_meta t0) ≠ None.

Lemma Update_established {T} `{!Kind T, !LawfulKind T} (api : ObjectApi W T) `{!ApiLaws api} (P : T → Prop) t w t' w' :
  api_Update api t w = (Ok t', w') → (∀ t0 t', k_same (k_merge t0 t) t' → P t') → established P (key_of t) w w'.
Proof.
  intros (t0 & [Hl Hr] & _)%api_Update_law HP. rewrite merge_key in Hl, Hr.
  destruct Hr as [(t1 & Hs & Hw)|(Hd & _)]; [left|right; by exists t0]. exists t1. split; [|by eapply HP].
  apply wrote_get in Hw. rewrite Hw. apply lookup_insert_eq.
Qed.

Lemma Create_established {T} `{!Kind T, !LawfulKind T} (api : ObjectApi W T) `{!ApiLaws api} (P : T → Prop) t w t' w' :
  api_Create api t w = (Ok t', w') → (∀ t', k_same t t' → P t') → established P (key_of t) w w'.
Proof.
  intros (_ & Hs & Hw)%api_Create_law HP. left. exists t'. split; [|by apply HP].
  apply wrote_get in Hw. rewrite Hw. apply lookup_insert_eq.
Qed.

Abbreviation pool_key ns name := (ns, name +:+ "-pool").
Abbreviation daemon_key ns name := (ns, name +:+ "-discovery").

(** The pool of a device: a grace period is set, the labels are there, and an existing
    pool keeps its grace period and its owners. *)
Definition pool_ok (name : string) (old : option HSMPool) (p : HSMPool) : Prop :=
  hp_GracePeriod (hp_Spec p) ≠ None ∧
  (∀ key v, owned_labels componentPool name !! key = Some v → default "" (om_Labels (hp_meta p) !! key) = v) ∧
  match old with
  | Some p0 => om_OwnerReferences (hp_meta p) = om_OwnerReferences (hp_meta p0) ∧
               (hp_GracePeriod (hp_Spec p0) ≠ None → hp_GracePeriod (hp_Spec p) = hp_GracePeriod (hp_Spec p0))
  | None => True
  end.

Lemma update_pool_spec name p w res w' :
  o_HSMPools (objects w) !! key_of p = Some p → update_pool k (owned_labels componentPool name) p w = (res, w') →
  touches (T := HSMPool) (λ key, key = key_of p) w w' ∧
  (res = Ok () → established (pool_ok name (Some p)) (key_of p) w w').
Proof.
  intros Hl. unfold update_pool. set (needsGrace := bool_decide (hp_GracePeriod (hp_Spec p) = None)).
  set (spec := if needsGrace then _ else _).
  assert (hp_GracePeriod spec ≠ None ∧ (hp_GracePeriod (hp_Spec p) ≠ None → hp_GracePeriod spec = hp_GracePeriod (hp_Spec p)) ∧
    (needsGrace = false → spec = hp_Spec p)) as (Hg & Hg' & Hsp).
  { unfold spec, needsGrace. by case_bool_decide. }
  pose proof (merge_labels_fold (range (owned_labels componentPool name)) (om_Labels (hp_meta p), needsGrace) (range_keys_NoDup _))
    as (H1 & _ & H3).
  destruct (fold_left merge_label _ _) as [labels b]. cbn [fst snd] in *.
  assert (∀ key v, owned_labels componentPool name !! key = Some v → default "" (labels !! key) = v) as Hlab.
  { intros key v Hkv. apply H1. by apply elem_of_range. }
  destruct b.
  - unfold st_try, st_bind, st_ret. set (q := mkHSMPool _ _ _). assert (key_of q = key_of p) as Hk by done.
    destruct (api_Update (HSMPools k) q w) as [u w1] eqn:Eu. pose proof Eu as Ht.
    apply (Update_touches _ (λ key, key = key_of p)) in Ht; [|done]. destruct u as [p'|e]; intros [= <- <-]; (split; [done|]); [|done].
    intros _. rewrite <-Hk. eapply Update_established; [apply _|exact Eu|]. intros t0 t' ((_ & _ & Hlb & _ & _ & Ho) & Hs & _).
    unfold pool_ok. cbn in Hlb, Ho, Hs. rewrite Hs, Hlb, Ho. done.
  - destruct (H3 eq_refl) as [-> Hn]. specialize (Hsp Hn). rewrite Hsp in Hg, Hg'. intros [= <- <-]. split; [reflexivity|].
    intros _. left. exists p. done.
Qed.

Lemma ensureHSMPool_spec dev w res w' :
  let name := om_Name (hd_meta dev) in let ns := om_Namespace (hd_meta dev) in
  ensureHSMPool k SetControllerReference dev w = (res, w') →
  touches (T := HSMPool) (λ key, key = pool_key ns name) w w' ∧
  (res = Ok () → established (pool_ok name (o_HSMPools (objects w) !! pool_key ns name)) (pool_key ns name) w w').
Proof.
  intros name ns. unfold ensureHSMPool. fold name. fold ns.
  destruct (SetControllerReference _ _) as [owners|e]; [|intros [= <- <-]; by split; [reflexivity|]].
  unfold st_bind. destruct (api_Get (HSMPools k) ns (name +:+ "-pool") w) as [g w1] eqn:Eg. apply api_Get_law in Eg as [S1 Hg].
  destruct g as [p|e].
  - destruct Hg as [Hl Hk]. cbn [k_get HSMPool_kind] in Hl. rewrite Hl. intros E. apply update_pool_spec in E as [Ht He]; [|by rewrite S1, Hk].
    rewrite Hk in Ht, He. split; [etrans; [by apply touches_refl|exact Ht]|]. intros Hr. specialize (He Hr).
    unfold established in *. by rewrite <-S1.
  - destruct (IsNotFound e) eqn:En; [|intros [= <- <-]; by split; [apply touches_refl|]].
    cbn [k_get HSMPool_kind] in Hg. rewrite Hg by done. unfold st_try, st_bind, st_ret. set (q := mkHSMPool _ _ _).
    destruct (api_Create (HSMPools k) q w1) as [c w2] eqn:Ec. pose proof Ec as Ht.
    apply (Create_touches _ (λ key, key = pool_key ns name)) in Ht; [|done].
    assert (touches (T := HSMPool) (λ key, key = pool_key ns name) w w2) as Ht' by (etrans; [by apply touches_refl|exact Ht]).
    destruct c as [p'|e']; intros [= <- <-]; (split; [done|]); [|done]. intros _.
    assert (established (pool_ok name None) (key_of q) w1 w2) as He.
    { eapply Create_established; [apply _|exact Ec|]. intros t' ((_ & _ & Hlb & _) & Hs & _). unfold pool_ok.
      cbn in Hlb, Hs. rewrite Hs, Hlb. split_and!; [done| |done].
      intros key v Hkv. transitivity (default "" (Some v)); [f_equal; exact Hkv|done]. }
    unfold established in *. by rewrite <-S1.
Qed.

Lemma discovery_image_same : preserves same_objects (discovery_image k r).
Proof.
  unfold discovery_image, Images.GetImage, Images.GetManagerImage. case_match; [apply preserves_ret, _|].
  case_match; [apply preserves_ret, _|].
  repeat first [apply preserves_ret, _|apply preserves_bind; [apply _| |intros ?]]. apply list_same. apply _.
Qed.

(** The DaemonSet of a device: the desired one for some image. *)
Definition daemon_ok (dev : HSMDevice) (d : DaemonSet) : Prop :=
  om_Labels (ds_meta d) = owned_labels componentDiscovery (om_Name (hd_meta dev)) ∧ ∃ image, ds_Spec d = desired_spec r dev image.

Lemma ensureDiscoveryDaemonSet_spec dev w out w' :
  let name := om_Name (hd_meta dev) in let ns := om_Namespace (hd_meta dev) in
  ensureDiscoveryDaemonSet k r SetControllerReference DeepEqual dev w = (out, w') →
  touches (T := DaemonSet) (λ key, key = daemon_key ns name) w w' ∧
  (out.2 = None → established (daemon_ok dev) (daemon_key ns name) w w').
Proof.
  intros name ns. unfold ensureDiscoveryDaemonSet. fold name. fold ns. unfold st_bind at 1.
  destruct (discovery_image k r w) as [image w0] eqn:Ei.
  pose proof (preserves_at same_objects _ _ _ _ discovery_image_same Ei) as S0. unfold same_objects in S0.
  destruct (SetControllerReference _ _) as [owners|e]; [|intros [= <- <-]; by split; [apply touches_refl|]].
  unfold apply_daemonset, st_bind, st_ret. destruct (api_Get (DaemonSets k) ns (name +:+ "-discovery") w0) as [g w1] eqn:Eg.
  apply api_Get_law in Eg as [S1 Hg]. assert (objects w1 = objects w) as S2 by congruence.
  destruct g as [d|e].
  - destruct Hg as [Hl Hk]. cbn [k_get DaemonSet_kind] in Hl. rewrite S0 in Hl.
    destruct (DeepEqual (ds_Spec d) (desired_spec r dev image)) eqn:Ed; cbn [negb andb];
      [case_bool_decide as El; cbn [negb]|].
    { intros [= <- <-]. split; [by apply touches_refl|]. intros _. left. exists d. rewrite S2. split; [done|].
      split; [done|]. exists image. by apply DeepEqual_eq. }
    all: set (q := mkDaemonSet _ _ _); destruct (api_Update (DaemonSets k) q w1) as [u w2] eqn:Eu; pose proof Eu as Ht;
      apply (Update_touches _ (λ key, key = daemon_key ns name)) in Ht; [|by rewrite <-Hk];
      intros [= <- <-]; (split; [etrans; [by apply touches_refl|exact Ht]|]);
      (destruct u as [d'|e']; [|done]); intros _;
      (assert (established (daemon_ok dev) (key_of q) w1 w2) as He;
        [eapply Update_established; [apply _|exact Eu|]; intros t0 t' ((_ & _ & Hlb & _) & Hs & _); cbn in Hlb, Hs;
         split; [exact Hlb|by exists image]|]);
      replace (key_of q) with (daemon_key ns name) in He by (rewrite <-Hk; done); unfold established in *; by rewrite <-S2.
  - destruct (IsNotFound e) eqn:En; [|intros [= <- <-]; by split; [apply touches_refl|]].
    set (q := mkDaemonSet _ _ _). destruct (api_Create (DaemonSets k) q w1) as [c w2] eqn:Ec. pose proof Ec as Ht.
    apply (Create_touches _ (λ key, key = daemon_key ns name)) in Ht; [|done]. intros [= <- <-].
    split; [etrans; [by apply touches_refl|exact Ht]|]. destruct c as [d'|e']; [|done]. intros _.
    assert (established (daemon_ok dev) (key_of q) w1 w2) as He.
    { eapply Create_established; [apply _|exact Ec|]. intros t' ((_ & _ & Hlb & _) & Hs & _). cbn in Hlb, Hs.
      split; [exact Hlb|by exists image]. }
    unfold established in *. by rewrite <-S2.
Qed.

Lemma cleanupDiscoveryDaemonSet_spec ns name w out w' :
  cleanupDiscoveryDaemonSet k ns name w = (out, w') →
  touches (T := DaemonSet) (λ key, key = daemon_key ns name) w w' ∧
  (out.2 = None → gone (T := DaemonSet) (objects w') (daemon_key ns name)).
Proof.
  unfold cleanupDiscoveryDaemonSet, st_bind, st_ret.
  destruct (api_Get (DaemonSets k) ns (name +:+ "-discovery") w) as [[d|e] w1] eqn:Eg; apply api_Get_law in Eg as [S1 Hg].
  - destruct Hg as [_ Hk]. destruct (api_Delete (DaemonSets k) d w1) as [x w2] eqn:Ed. pose proof Ed as Ht.
    apply (Delete_touches _ (λ key, key = daemon_key ns name)) in Ht; [|done]. intros [= <- <-].
    split; [etrans; [by apply touches_refl|exact Ht]|]. destruct x as [[]|e]; [|done]. intros _.
    apply api_Delete_law in Ed. rewrite <-Hk. eapply deleted_gone; [exact Ed|by left].
  - intros [= <- <-]. split; [by apply touches_refl|]. destruct (IsNotFound e) eqn:En; [|done]. intros _.
    unfold gone. rewrite S1, Hg; done.
Qed.

(** C24. A reconciliation of a device changes at most its pool and its discovery DaemonSet;
    when it reports no error, a device that exists has a pool with a grace period and
    the labels (an existing pool keeps its own grace period and its owners) and a
    DaemonSet as desired, and one that is gone has no DaemonSet any more. *)
Theorem Reconcile_establishes ns name w out w' :
  Reconcile k r SetControllerReference DeepEqual ns name w = (out, w') →
  (∃ w1, touches (T := HSMPool) (λ key, key = pool_key ns name) w w1 ∧
         touches (T := DaemonSet) (λ key, key = daemon_key ns name) w1 w') ∧
  (out.2 = None →
   match o_HSMDevices (objects w) !! (ns, name) with
   | Some dev => established (pool_ok name (o_HSMPools (objects w) !! pool_key ns name)) (pool_key ns name) w w' ∧
                 established (daemon_ok dev) (daemon_key ns name) w w'
   | None => gone (T := DaemonSet) (objects w') (daemon_key ns name)
   end).
Proof.
  unfold Reconcile. unfold st_bind at 1. destruct (api_Get (HSMDevices k) ns name w) as [g w1] eqn:Eg.
  apply api_Get_law in Eg as [S1 Hg]. destruct g as [dev|e].
  2:{ destruct (IsNotFound e) eqn:En; [|intros [= <- <-]; split; [exists w; split; [reflexivity|by apply touches_refl]|done]].
      cbn [k_get HSMDevice_kind] in Hg. rewrite Hg by done. intros [Ht Hgone]%cleanupDiscoveryDaemonSet_spec.
      split; [|done]. exists w1. split; [by apply touches_refl|done]. }
  destruct Hg as [Hl Hk]. cbn [k_get HSMDevice_kind] in Hl. rewrite Hl. injection Hk as Hns Hname. cbn in Hns, Hname.
  unfold st_bind. destruct (ensureHSMPool k SetControllerReference dev w1) as [res w2] eqn:Ep.
  apply ensureHSMPool_spec in Ep as [Tp Hp]. rewrite Hns, Hname in Tp, Hp.
  assert (touches (T := HSMPool) (λ key, key = pool_key ns name) w w2) as Tp' by (etrans; [by apply touches_refl|exact Tp]).
  destruct res as [[]|e]; [|intros [= <- <-]; split; [exists w2; by split|done]].
  intros E. apply ensureDiscoveryDaemonSet_spec in E as [Td Hd]. rewrite Hns, Hname in Td, Hd.
  split; [by exists w2|]. intros Hn. specialize (Hp eq_refl). specialize (Hd Hn). rewrite S1 in Hp. split.
  - destruct Td as (t & Et & _). unfold established in *. rewrite Et. rewrite S1 in Hp. exact Hp.
  - unfold established in *. destruct Hd as [?|(t0 & Ht0 & Hdel)]; [by left|right]. exists t0. split; [|done].
    destruct Tp' as (t & Et & _). rewrite Et in Ht0. exact Ht0.
Qed.
End Spec.

(** ** Witness: a new device, then one whose DaemonSet is out of date *)
Module DiscoveryWitness.
Import PoolController.PoolWitness.
#[local] Existing Instance listed_order.
Definition r : DiscoveryDaemonSetReconciler := mkDiscoveryReconciler "discovery:v1" "sa".
Definition owner (m _ : ObjectMeta) : result (list OwnerReference) := Ok [mkOwnerRef "" "HSMDevice" (om_Name m) "" true].
(** A comparison that never finds two specs equal, as when the server fills in fields. *)
Definition never_equal (_ _ : DaemonSetSpec) : bool := false.
Definition w1 : Objects := mkObjects ∅ {[key_of device := device]} ∅ ∅ {[key_of daemon := daemon]} ∅ ∅.
Definition reconciled : Outcome * Objects := Reconcile Mem.kube r owner never_equal "hsm" "pico" w1.

Example Reconcile_establishes_witness :
  ∃ p d, o_HSMPools reconciled.2 !! ("hsm", "pico-pool") = Some p ∧ pool_ok "pico" None p ∧
         o_DaemonSets reconciled.2 !! ("hsm", "pico-discovery") = Some d ∧ daemon_ok r device d.
Proof.
  destruct (Reconcile_establishes Mem.kube r owner never_equal ltac:(discriminate) "hsm" "pico" w1 reconciled.1 reconciled.2
    (surjective_pairing _)) as [_ H]. specialize (H eq_refl).
  change (o_HSMDevices (objects w1) !! ("hsm", "pico")) with (Some device) in H.
  destruct H as [[(p & Hp & Hok)|(p & Hp & _)] [(d & Hd & Hdok)|(d & Hd & Hdel)]].
  - exists p, d. split; [exact Hp|]. split; [exact Hok|]. by split.
  - exfalso. change (k_get (objects w1) !! ("hsm", "pico" +:+ "-discovery")) with (Some daemon) in Hd. by injection Hd as <-.
  - discriminate Hp.
  - discriminate Hp.
Defined.
End DiscoveryWitness.
