(* ===== verification/SecretController.v ===== *)
(** * internal/controller/hsmsecret_controller.go: HSM secrets as Kubernetes Secrets

    One reconciliation of an HSMSecret: read the secret from every device, let
    [Resolve] choose the authoritative copy, write it to a Kubernetes Secret and the
    outcome to the status; or, on deletion, remove the Kubernetes Secret.  The API, the
    agent manager, the clock, the mirror trigger and the owner reference of
    controller-runtime are arguments; logging is left out. *)

From Stdlib Require Import Ascii.
From S2P Require Import Prelude GoStd Reconcile Hsm Api Kube Mirror PoolController Trigger.

Local Open Scope go_scope.

(* [internal/controller/hsmsecret_controller.go:47-47] *)
Definition HSMSecretFinalizer : string := "hsmsecret.hsm.j5t.io/finalizer".
(* [internal/controller/hsmsecret_controller.go:50-50] *)
Definition DefaultSyncInterval : Z := 30.
(* [internal/controller/hsmsecret_controller.go:53-53] *)
Definition StartupGracePeriod : Z := 2 * Minute.

(** [controllerutil.ContainsFinalizer], [AddFinalizer] and [RemoveFinalizer]. *)
Definition ContainsFinalizer (m : ObjectMeta) (f : string) : bool := bool_decide (f ∈ om_Finalizers m).
Definition with_finalizers (fs : list string) (m : ObjectMeta) : ObjectMeta :=
  mkObjectMeta (om_Name m) (om_Namespace m) (om_UID m) (om_ResourceVersion m) (om_Labels m) (om_Annotations m) fs
    (om_DeletionTimestamp m) (om_OwnerReferences m) (om_CreationTimestamp m) (om_Generation m).
Definition AddFinalizer (f : string) (m : ObjectMeta) : ObjectMeta :=
  if ContainsFinalizer m f then m else with_finalizers (om_Finalizers m ++ [f]) m.
Definition RemoveFinalizer (f : string) (m : ObjectMeta) : ObjectMeta :=
  with_finalizers (filter (λ x, x ≠ f) (om_Finalizers m)) m.

Definition with_meta (f : ObjectMeta → ObjectMeta) (s : HSMSecret) : HSMSecret :=
  mkHSMSecret (f (hs_meta s)) (hs_Spec s) (hs_Status s).
Definition with_status (st : HSMSecretStatus) (s : HSMSecret) : HSMSecret :=
  mkHSMSecret (hs_meta s) (hs_Spec s) st.
Definition hs_ns (s : HSMSecret) : string := om_Namespace (hs_meta s).
Definition hs_name (s : HSMSecret) : string := om_Name (hs_meta s).

(** The name of the Kubernetes Secret: that of the HSMSecret unless one is given. *)
(* [internal/controller/hsmsecret_controller.go:295-299 reconcileSecret] *)
Definition secret_name (s : HSMSecret) : string :=
  if bool_decide (sp_SecretName (hs_Spec s) = "") then hs_name s else sp_SecretName (hs_Spec s).

(** ** Labels *)

Definition label_char (c : ascii) : bool :=
  is_alnum c || bool_decide (c = "-"%char) || bool_decide (c = "_"%char) || bool_decide (c = "."%char).

(** The loop over the characters of a key or value: all allowed, the first and the
    last alphanumeric.  An allowed character is one byte, so bytes are looked at. *)
(* [internal/controller/hsmsecret_controller.go:520-530 isValidKubernetesLabelKey] *)
Fixpoint label_chars (first : bool) (s : string) : bool :=
  match s with
  | EmptyString => true
  | String c rest =>
      label_char c && (is_alnum c || negb (first || bool_decide (rest = ""))) && label_chars false rest
  end.

(* [internal/controller/hsmsecret_controller.go:514-532] *)
Definition isValidKubernetesLabelKey (key : string) : bool :=
  if (str_len key =? 0) || (63 <? str_len key) then false else label_chars true key.

(* [internal/controller/hsmsecret_controller.go:535-556] *)
Definition isValidKubernetesLabelValue (value : string) : bool :=
  if 63 <? str_len value then false
  else if str_len value =? 0 then true
  else label_chars true value.

Section Labels.
Context `{MapOrder}.

(** The loop over the labels of the metadata. *)
(* [internal/controller/hsmsecret_controller.go:485-493 applyMetadataToLabelsAndAnnotations] *)
Definition apply_labels (metadata : SecretMetadata) (labels : gmap string string) : gmap string string :=
  match m_Labels metadata with
  | None => labels
  | Some ls => fold_left (λ acc '(key, value),
      if isValidKubernetesLabelKey key && isValidKubernetesLabelValue value then <[key := value]> acc else acc)
      (range ls) labels
  end.

Definition annotate (key value : string) (annotations : gmap string string) : gmap string string :=
  if bool_decide (value ≠ "") then <[key := value]> annotations else annotations.

(* [internal/controller/hsmsecret_controller.go:480-511] *)
Definition applyMetadataToLabelsAndAnnotations (labels annotations : gmap string string)
    (hsmMetadata : option SecretMetadata) : gmap string string * gmap string string :=
  match hsmMetadata with
  | None => (labels, annotations)
  | Some md =>
      (apply_labels md labels,
       annotate "hsm.j5t.io/created-at" (m_CreatedAt md)
       (annotate "hsm.j5t.io/source" (m_Source md)
       (annotate "hsm.j5t.io/data-type" (m_DataType md)
       (annotate "hsm.j5t.io/format" (m_Format md)
       (annotate "hsm.j5t.io/description" (m_Description md) annotations)))))
  end.

(** [labels["managed-by"]] and [labels["hsm-path"]]. *)
Definition operator_labels (s : HSMSecret) (labels : gmap string string) : gmap string string :=
  <["hsm-path" := str_replace1 "/"%char "_"%char (hs_name s)]> (<["managed-by" := appNameHSMOperator]> labels).

(** [SetControllerReference owner controlled]: the owner references it sets. *)
Context (SetControllerReference : ObjectMeta → ObjectMeta → result (list OwnerReference)).

(* [internal/controller/hsmsecret_controller.go:559-563] *)
Definition convertHSMDataToSecretData (hsmData : SecretData) : gmap string string := hsmData.
(* [internal/controller/hsmsecret_controller.go:566-570] *)
Definition convertSecretDataToHSMData (secretData : gmap string string) : SecretData := secretData.

(* [internal/controller/hsmsecret_controller.go:419-454] *)
Definition buildSecret (s : HSMSecret) (secretName : string) (hsmData : SecretData)
    (hsmMetadata : option SecretMetadata) : Secret :=
  let secretType := if bool_decide (sp_SecretType (hs_Spec s) = "") then "Opaque" else sp_SecretType (hs_Spec s) in
  let (labels, annotations) := applyMetadataToLabelsAndAnnotations (operator_labels s ∅) ∅ hsmMetadata in
  let meta owners := mkObjectMeta secretName (hs_ns s) "" 0 labels annotations [] None owners zero_time 0 in
  mkSecret (meta match SetControllerReference (hs_meta s) (meta []) with Ok owners => owners | Err _ => [] end)
    secretType (convertHSMDataToSecretData hsmData).

(* [internal/controller/hsmsecret_controller.go:457-477] *)
Definition updateSecretWithMetadata (secret : Secret) (s : HSMSecret) (hsmData : SecretData)
    (hsmMetadata : option SecretMetadata) : Secret :=
  let m := se_meta secret in
  let (labels, annotations) :=
    applyMetadataToLabelsAndAnnotations (operator_labels s (om_Labels m)) (om_Annotations m) hsmMetadata in
  mkSecret (mkObjectMeta (om_Name m) (om_Namespace m) (om_UID m) (om_ResourceVersion m) labels annotations
              (om_Finalizers m) (om_DeletionTimestamp m) (om_OwnerReferences m) (om_CreationTimestamp m) (om_Generation m))
    (se_Type secret) (convertHSMDataToSecretData hsmData).
End Labels.

(** ** Status *)

(** The first condition of the type is replaced, or the condition is appended. *)
(* [internal/controller/hsmsecret_controller.go:661-672 updateStatus] *)
Fixpoint set_condition (condition : Condition) (conditions : list Condition) : list Condition :=
  match conditions with
  | [] => [condition]
  | cond :: rest => if bool_decide (cd_Type cond = cd_Type condition) then condition :: rest
                    else cond :: set_condition condition rest
  end.

(* [internal/controller/hsmsecret_controller.go:639-673] *)
Definition updateStatus (now : Time) (status errorMsg : string) (s : HSMSecret) : HSMSecret :=
  let st := hs_Status s in
  let condition := mkCondition "Ready"
    (if bool_decide (status = SyncStatusError) then ConditionFalse else ConditionTrue) now status errorMsg in
  with_status (mkHSMSecretStatus
    (if bool_decide (status = SyncStatusInSync) then Some now else ss_LastSyncTime st)
    (ss_HSMChecksum st) (ss_SecretChecksum st) status errorMsg (set_condition condition (ss_Conditions st))
    (ss_SecretRef st) (ss_DeviceSyncStatus st) (ss_PrimaryDevice st) (ss_SyncConflict st)) s.

(** ** The reconciler *)

(* [internal/controller/hsmsecret_controller.go:85-88] *)
Record HSMDeviceClients (W : Type) := mkDeviceClients { dc_Devices : list HSMDevice; dc_Clients : list (option (Client W)) }.
Arguments dc_Clients {W}.

(* [internal/controller/hsmsecret_controller.go:91-104 Close] *)
Definition close_clients {W} (hdc : HSMDeviceClients W) : ST W (result unit) :=
  let* errs := st_fold (λ errs hsmClient,
    match hsmClient with
    | Some c => let* e := c_Close c in st_ret match e with Err err => errs ++ [err] | Ok _ => errs end
    | None => st_ret errs
    end) (dc_Clients hdc) [] in
  st_ret (if bool_decide (errs = []) then Ok ()
          else Err (errorf ("failed to close " +:+ go_itoa (len errs) +:+ " clients: " +:+ print_errors errs))).

(* [internal/controller/hsmsecret_controller.go:57-70] *)
Record HSMSecretReconciler (W : Type) := mkSecretReconciler {
  OperatorNamespace : string;
  OperatorName : string;
  StartupTime : Time;
  r_MirrorTrigger : option (MirrorTrigger W);
}.
Arguments mkSecretReconciler {W}.
Arguments OperatorNamespace {W}.
Arguments OperatorName {W}.
Arguments StartupTime {W}.
Arguments r_MirrorTrigger {W}.

(* [internal/controller/hsmsecret_controller.go:676-696] *)
Definition shouldHandleSecret {W} (r : HSMSecretReconciler W) (s : HSMSecret) : bool :=
  match sp_ParentRef (hs_Spec s) with
  | None => false
  | Some parentRef =>
      if bool_decide (pf_Name parentRef ≠ OperatorName r) then false
      else bool_decide (default (OperatorNamespace r) (pf_Namespace parentRef) = OperatorNamespace r)
  end.

(* [internal/controller/hsmsecret_controller.go:229-232] *)
Record deviceRead := mkDeviceRead { rd_data : SecretData; rd_metadata : option SecretMetadata }.

Section Controller.
Context {W : Type} `{MapOrder} (k : KubeClient W) (am : AgentManagerInterface W) (time_Now : ST W Z).
Context (SetControllerReference : ObjectMeta → ObjectMeta → result (list OwnerReference)).
Context (trigger_Get : ST W (option (MirrorTrigger W))) (r : HSMSecretReconciler W).

(* [internal/controller/hsmsecret_controller.go:74-82] *)
Definition triggerMirror (reason source : string) (force : bool) : ST W unit :=
  let* t := match r_MirrorTrigger r with Some t => st_ret (Some t) | None => trigger_Get end in
  match t with
  | Some t => TriggerMirror t reason source force
  | None => st_ret ()
  end.

(** What one device contributes to the observations and the reads. *)
(* [internal/controller/hsmsecret_controller.go:251-287 gatherSecretObservations] *)
Definition read_device (deviceID secretName : string) (grpcClient : Client W) :
    ST W (option (DeviceObservation * option deviceRead)) :=
  let* secrets := c_ListSecrets grpcClient "" in
  match secrets with
  | Err _ => do! c_Close grpcClient in st_ret None
  | Ok secrets =>
      if negb (bool_decide (secretName ∈ secrets)) then
        do! c_Close grpcClient in st_ret (Some (mkObs deviceID false false "" 0 0, None))
      else
        let* data := c_ReadSecret grpcClient secretName in
        match data with
        | Err _ => do! c_Close grpcClient in st_ret None
        | Ok data =>
            let* md := c_ReadMetadata grpcClient secretName in
            let metadata := match md with Ok metadata => metadata | Err _ => None end in
            do! c_Close grpcClient in
            let tombstone := MetadataDeleted metadata in
            st_ret (Some (mkObs deviceID (negb tombstone) tombstone (CalculateChecksum data)
                            (MetadataVersion metadata) (MetadataTimestamp metadata),
                          Some (mkDeviceRead data metadata)))
        end
  end.

Definition Gathered : Type := list DeviceObservation * gmap string deviceRead.

(* [internal/controller/hsmsecret_controller.go:242-288 gatherSecretObservations] *)
Definition gather_device (secretName : string) (acc : Gathered) (device : DiscoveredDevice) : ST W Gathered :=
  let deviceID := dd_SerialNumber device in
  let* c := CreateGRPCClient am device in
  match c with
  | Err _ => st_ret acc
  | Ok grpcClient =>
      let* o := read_device deviceID secretName grpcClient in
      st_ret match o with
             | None => acc
             | Some (obs, rd) =>
                 (acc.1 ++ [obs], match rd with Some rd => <[deviceID := rd]> acc.2 | None => acc.2 end)
             end
  end.

(* [internal/controller/hsmsecret_controller.go:238-291] *)
Definition gatherSecretObservations (devices : list DiscoveredDevice) (secretName : string) : ST W Gathered :=
  st_fold (gather_device secretName) devices ([], ∅).

(** [attempts] attempts are left. *)
(* [internal/controller/hsmsecret_controller.go:575-601 updateWithRetry] *)
Fixpoint update_attempts (attempts : nat) (s : HSMSecret) : ST W (result unit) :=
  match attempts with
  | O => st_ret (Err (errorf "failed to update after 3 attempts"))
  | S attempts' =>
      let* u := api_Update (HSMSecrets k) s in
      match u with
      | Ok _ => st_ret (Ok ())
      | Err err =>
          if IsConflict err && negb (bool_decide (attempts' = 0%nat)) then
            let* g := api_Get (HSMSecrets k) (hs_ns s) (hs_name s) in
            match g with
            | Err err => st_ret (if IsNotFound err then Ok () else Err (wrapf "failed to get fresh HSMSecret" err))
            | Ok freshSecret => update_attempts attempts' (with_meta (with_finalizers (om_Finalizers (hs_meta s))) freshSecret)
            end
          else st_ret (Err err)
      end
  end.

(* [internal/controller/hsmsecret_controller.go:573-602] *)
Definition updateWithRetry (s : HSMSecret) : ST W (result unit) := update_attempts 3 s.

(* [internal/controller/hsmsecret_controller.go:607-635 updateStatusWithRetry] *)
Fixpoint update_status_attempts (attempts : nat) (s : HSMSecret) : ST W (result unit) :=
  match attempts with
  | O => st_ret (Err (errorf "failed to update status after 3 attempts"))
  | S attempts' =>
      let* g := api_Get (HSMSecrets k) (hs_ns s) (hs_name s) in
      match g with
      | Err err => st_ret (if IsNotFound err then Ok () else Err (wrapf "failed to get fresh HSMSecret" err))
      | Ok freshSecret =>
          let* u := api_UpdateStatus (HSMSecrets k) (with_status (hs_Status s) freshSecret) in
          match u with
          | Ok _ => st_ret (Ok ())
          | Err err =>
              if IsConflict err && negb (bool_decide (attempts' = 0%nat)) then update_status_attempts attempts' s
              else st_ret (Err err)
          end
      end
  end.

(* [internal/controller/hsmsecret_controller.go:605-636] *)
Definition updateStatusWithRetry (s : HSMSecret) : ST W (result unit) := update_status_attempts 3 s.

(** Create or update the Kubernetes Secret; the object the server answered with. *)
(* [internal/controller/hsmsecret_controller.go:317-345 updateKubernetesSecret] *)
Definition write_secret (s : HSMSecret) (secretName : string) (hsmData : SecretData)
    (hsmMetadata : option SecretMetadata) : ST W (result Secret) :=
  let* g := api_Get (Secrets k) (hs_ns s) secretName in
  match g with
  | Err err =>
      if IsNotFound err then api_Create (Secrets k) (buildSecret SetControllerReference s secretName hsmData hsmMetadata)
      else st_ret (Err err)
  | Ok k8sSecret => api_Update (Secrets k) (updateSecretWithMetadata k8sSecret s hsmData hsmMetadata)
  end.

Definition secret_ref (k8sSecret : Secret) : ObjectReference :=
  let m := se_meta k8sSecret in mkObjectReference "v1" "Secret" (om_Name m) (om_Namespace m) (om_UID m).

(** The status after a successful write. *)
(* [internal/controller/hsmsecret_controller.go:347-365 updateKubernetesSecret] *)
Definition synced_status (now : Time) (s : HSMSecret) (hsmData : SecretData) (k8sSecret : Secret) : HSMSecret :=
  let hsmChecksum := CalculateChecksum hsmData in
  let secretChecksum := CalculateChecksum (convertSecretDataToHSMData (se_Data k8sSecret)) in
  let syncStatus := if bool_decide (hsmChecksum ≠ secretChecksum) then SyncStatusOutOfSync else SyncStatusInSync in
  let s := updateStatus now syncStatus "" s in
  let st := hs_Status s in
  with_status (mkHSMSecretStatus (ss_LastSyncTime st) hsmChecksum secretChecksum (ss_SyncStatus st) (ss_LastError st)
    (ss_Conditions st) (Some (secret_ref k8sSecret)) (ss_DeviceSyncStatus st) (ss_PrimaryDevice st) (ss_SyncConflict st)) s.

(* [internal/controller/hsmsecret_controller.go:310-378] *)
Definition updateKubernetesSecret (s : HSMSecret) (secretName : string) (hsmData : SecretData)
    (hsmMetadata : option SecretMetadata) (syncInterval : Z) : ST W Outcome :=
  let* k8sSecret := write_secret s secretName hsmData hsmMetadata in
  match k8sSecret with
  | Err err => st_ret (failed err)
  | Ok k8sSecret =>
      let* now := time_Now in
      let* u := updateStatusWithRetry (synced_status (metav1_Now now) s hsmData k8sSecret) in
      match u with
      | Err err => st_ret (failed err)
      | Ok _ => st_ret (if sp_AutoSync (hs_Spec s) then requeue_after (to_int64 (Second * syncInterval)) else done)
      end
  end.

(* [internal/controller/hsmsecret_controller.go:294-307] *)
Definition reconcileSecret (s : HSMSecret) (hsmData : SecretData) (hsmMetadata : option SecretMetadata) : ST W Outcome :=
  let syncInterval := if sp_SyncInterval (hs_Spec s) =? 0 then DefaultSyncInterval else sp_SyncInterval (hs_Spec s) in
  updateKubernetesSecret s (secret_name s) hsmData hsmMetadata syncInterval.

(* [internal/controller/hsmsecret_controller.go:381-416] *)
Definition reconcileDelete (s : HSMSecret) : ST W (option error) :=
  if ContainsFinalizer (hs_meta s) HSMSecretFinalizer then
    let* g := api_Get (Secrets k) (hs_ns s) (secret_name s) in
    let* d := match g with
              | Ok k8sSecret => api_Delete (Secrets k) k8sSecret
              | Err _ => st_ret (Ok ())
              end in
    match d with
    | Err err => st_ret (Some err)
    | Ok _ =>
        let* u := updateWithRetry (with_meta (RemoveFinalizer HSMSecretFinalizer) s) in
        st_ret match u with Err err => Some err | Ok _ => None end
    end
  else st_ret None.

(** An HSMSecret of this operator that is not being deleted and has its finalizer. *)
(* [internal/controller/hsmsecret_controller.go:165-226 Reconcile] *)
Definition reconcile_live (s : HSMSecret) : ST W Outcome :=
  let* d := GetAvailableDevices am (OperatorNamespace r) in
  match d with
  | Err _ => st_ret (requeue_after (2 * Minute))
  | Ok devices =>
      if bool_decide (devices = []) then st_ret (requeue_after (2 * Minute))
      else
        let* g := gatherSecretObservations devices (hs_name s) in
        let (observations, reads) := g in
        let decision := Resolve observations (len devices) in
        if negb (d_Found decision) || d_Deleted decision then st_ret (requeue_after (5 * Minute))
        else match reads !! d_WinningDeviceID decision with
        | None => st_ret (requeue_after (2 * Minute))
        | Some winner =>
            do! if d_Diverged decision then triggerMirror "controller_divergence" (hs_name s) true else st_ret () in
            reconcileSecret s (rd_data winner) (rd_metadata winner)
        end
  end.

(* [internal/controller/hsmsecret_controller.go:126-226] *)
Definition Reconcile (ns name : string) : ST W Outcome :=
  let* g := api_Get (HSMSecrets k) ns name in
  match g with
  | Err err => st_ret (if IsNotFound err then done else failed err)
  | Ok hsmSecret =>
      if negb (shouldHandleSecret r hsmSecret) then st_ret done
      else if bool_decide (om_DeletionTimestamp (hs_meta hsmSecret) ≠ None) then
        let* e := reconcileDelete hsmSecret in st_ret (no_result, e)
      else if negb (ContainsFinalizer (hs_meta hsmSecret) HSMSecretFinalizer) then
        let* u := updateWithRetry (with_meta (AddFinalizer HSMSecretFinalizer) hsmSecret) in
        st_ret match u with Err err => failed err | Ok _ => (mkResult true 0, None) end
      else reconcile_live hsmSecret
  end.
End Controller.
