(* ===== verification/Watches.v ===== *)
(** * internal/controller: what wakes the controllers

    The registrations of the four controllers as values of the controller runtime's builder,
    and what follows for them from what is documented of the runtime: that the drift of what
    a controller has established wakes it for the right object, that a discovery report
    wakes the pools of its device, and which controllers are woken by their own status. *)

From S2P Require Import Prelude GoStd Api Kube PoolController PoolAgents DiscoveryController SecretController.

Local Open Scope go_scope.

(** ** The controller runtime's builder *)
Inductive Object :=
  | PoolObject (p : HSMPool) | DeviceObject (d : HSMDevice) | HSMSecretObject (s : HSMSecret) | DeploymentObject (d : Deployment)
  | DaemonSetObject (d : DaemonSet) | PodObject (p : Pod) | SecretObject (s : Secret).
Inductive ObjectKind := PoolKind | DeviceKind | HSMSecretKind | DeploymentKind | DaemonSetKind | PodKind | SecretKind.
#[global] Instance ObjectKind_eq_dec : EqDecision ObjectKind.
Proof. solve_decision. Defined.
Definition kind_of (o : Object) : ObjectKind :=
  match o with
  | PoolObject _ => PoolKind | DeviceObject _ => DeviceKind | HSMSecretObject _ => HSMSecretKind | DeploymentObject _ => DeploymentKind
  | DaemonSetObject _ => DaemonSetKind | PodObject _ => PodKind | SecretObject _ => SecretKind
  end.
Definition object_meta (o : Object) : ObjectMeta :=
  match o with
  | PoolObject p => hp_meta p | DeviceObject d => hd_meta d | HSMSecretObject s => hs_meta s | DeploymentObject d => dp_meta d
  | DaemonSetObject d => ds_meta d | PodObject p => pod_meta p | SecretObject s => se_meta s
  end.
(** A request for a reconciliation: namespace and name. *)
Definition Request : Type := string * string.
Definition object_request (o : Object) : Request := (om_Namespace (object_meta o), om_Name (object_meta o)).

Inductive Predicate := GenerationChangedPredicate | AnnotationChangedPredicate.
Inductive Handler (W : Type) :=
  | EnqueueRequestForObject
  | EnqueueRequestForOwner (kind : string)
  | EnqueueRequestsFromMapFunc (f : Object → ST W (list Request)).
Arguments EnqueueRequestForObject {W}.
Arguments EnqueueRequestForOwner {W}.
Arguments EnqueueRequestsFromMapFunc {W}.
Record Source (W : Type) := mkSource { so_Kind : ObjectKind; so_Handler : Handler W; so_Predicates : list Predicate }.
Arguments mkSource {W}.
Arguments so_Kind {W}.
Arguments so_Handler {W}.
Arguments so_Predicates {W}.
Record Builder (W : Type) := mkBuilder { b_Sources : list (Source W); b_Name : string }.
Arguments mkBuilder {W}.
Arguments b_Sources {W}.
Arguments b_Name {W}.
Definition watch {W} (s : Source W) (b : Builder W) : Builder W := mkBuilder (b_Sources b ++ [s]) (b_Name b).
Definition NewController {W} : Builder W := mkBuilder [] "".
Definition For {W} (kind : ObjectKind) (ps : list Predicate) : Builder W → Builder W := watch (mkSource kind EnqueueRequestForObject ps).
Definition Owns {W} (kind : ObjectKind) (owner : string) : Builder W → Builder W := watch (mkSource kind (EnqueueRequestForOwner owner) []).
Definition Watches {W} (kind : ObjectKind) (f : Object → ST W (list Request)) (ps : list Predicate) : Builder W → Builder W :=
  watch (mkSource kind (EnqueueRequestsFromMapFunc f) ps).
Definition Named {W} (name : string) (b : Builder W) : Builder W := mkBuilder (b_Sources b) name.

(** ** The registrations *)
Section Setup.
Context {W : Type} (k : KubeClient W) (json_Unmarshal : string → result PodDiscoveryReport).

(** The function is only called with pods; a panic otherwise is left out. *)
(* [internal/controller/hsmpool_controller.go:365-365 SetupWithManager] *)
Definition pools_for_pod (o : Object) : ST W (list Request) :=
  match o with PodObject p => findPoolsForPod k json_Unmarshal p | _ => st_ret [] end.
(* [internal/controller/hsmpool_controller.go:359-370 SetupWithManager] *)
Definition HSMPool_controller : Builder W :=
  Named "hsmpool" (Watches PodKind pools_for_pod [AnnotationChangedPredicate] (For PoolKind [GenerationChangedPredicate] NewController)).

(* [internal/controller/hsmpool_agent_controller.go:1226-1230 findPoolsForDeployment] *)
Definition pools_for_deployment (o : Object) : ST W (list Request) :=
  st_ret match o with DeploymentObject d => findPoolsForDeployment d | _ => [] end.
(* [internal/controller/hsmpool_agent_controller.go:1214-1223 SetupWithManager] *)
Definition HSMPoolAgent_controller : Builder W :=
  Named "hsmpool-agent" (Watches DeploymentKind pools_for_deployment [] (For PoolKind [] NewController)).

(* [internal/controller/discovery_daemonset_controller.go:364-368 findDevicesForDaemonSet] *)
Definition devices_for_daemonset (o : Object) : ST W (list Request) :=
  st_ret match o with DaemonSetObject d => findDevicesForDaemonSet d | _ => [] end.
(* [internal/controller/discovery_daemonset_controller.go:394-398 findDevicesForHSMPool] *)
Definition devices_for_pool (o : Object) : ST W (list Request) :=
  st_ret match o with PoolObject p => findDevicesForHSMPool p | _ => [] end.
(* [internal/controller/discovery_daemonset_controller.go:424-437 SetupWithManager] *)
Definition DiscoveryDaemonSet_controller : Builder W :=
  Named "discovery-daemonset"
    (Watches PoolKind devices_for_pool [] (Watches DaemonSetKind devices_for_daemonset [] (For DeviceKind [] NewController))).

(* [internal/controller/hsmsecret_controller.go:699-705 SetupWithManager] *)
Definition HSMSecret_controller : Builder W := Named "hsmsecret" (Owns SecretKind "HSMSecret" (For HSMSecretKind [] NewController)).
End Setup.

(** ** What is documented of the runtime *)
Inductive Event := CreateEvent (o : Object) | UpdateEvent (old new : Object) | DeleteEvent (o : Object).
(** The objects a handler is given: of an update both. *)
Definition event_objects (e : Event) : list Object :=
  match e with CreateEvent o | DeleteEvent o => [o] | UpdateEvent old new => [old; new] end.
(** The predicates only hold back updates. *)
Definition passes (e : Event) (p : Predicate) : bool :=
  match e with
  | UpdateEvent old new =>
      match p with
      | GenerationChangedPredicate => negb (bool_decide (om_Generation (object_meta new) = om_Generation (object_meta old)))
      | AnnotationChangedPredicate => negb (bool_decide (om_Annotations (object_meta new) = om_Annotations (object_meta old)))
      end
  | _ => true
  end.
Definition concerns {W} (e : Event) (s : Source W) : Prop :=
  Forall (λ o, kind_of o = so_Kind s) (event_objects e) ∧ forallb (passes e) (so_Predicates s) = true.
(** The owner for whom an object is controlled. *)
Definition owner_requests (kind : string) (m : ObjectMeta) : list Request :=
  (λ r, (om_Namespace m, or_Name r)) <$> filter (λ r, or_Controller r = true ∧ or_Kind r = kind) (om_OwnerReferences m).

(** The functions of a builder only read. *)
Definition reads {W} `{!ClusterView W} (b : Builder W) : Prop :=
  ∀ s f o, s ∈ b_Sources b → so_Handler s = EnqueueRequestsFromMapFunc f → preserves same_objects (f o).

(** [deliver b e] gives the requests an event leads to. *)
Class RuntimeLaws {W} `{!ClusterView W} (deliver : Builder W → Event → ST W (list Request)) : Prop := {
  deliver_object b e w s o : s ∈ b_Sources b → concerns e s → o ∈ event_objects e → so_Handler s = EnqueueRequestForObject →
    object_request o ∈ (deliver b e w).1;
  deliver_owner b e w s o kind r : s ∈ b_Sources b → concerns e s → o ∈ event_objects e → so_Handler s = EnqueueRequestForOwner kind →
    r ∈ owner_requests kind (object_meta o) → r ∈ (deliver b e w).1;
  deliver_map b e w s o f : reads b → s ∈ b_Sources b → concerns e s → o ∈ event_objects e →
    so_Handler s = EnqueueRequestsFromMapFunc f → ∃ w1, objects w1 = objects w ∧ ∀ r, r ∈ (f o w1).1 → r ∈ (deliver b e w).1;
  deliver_only b e w r : r ∈ (deliver b e w).1 → ∃ s o, s ∈ b_Sources b ∧ concerns e s ∧ o ∈ event_objects e ∧
    match so_Handler s with
    | EnqueueRequestForObject => r = object_request o
    | EnqueueRequestForOwner kind => r ∈ owner_requests kind (object_meta o)
    | EnqueueRequestsFromMapFunc f => ∃ w1, r ∈ (f o w1).1
    end;
}.

(** An event on an object: it is created, changes from or into the given one, or is deleted. *)
Definition event_on (o : Object) (e : Event) : Prop := o ∈ event_objects e ∧ Forall (λ o', kind_of o' = kind_of o) (event_objects e).

(** ** A delivery that keeps to it *)
Section Deliver.
Context {W : Type} `{!ClusterView W}.
Definition handle (h : Handler W) (o : Object) : ST W (list Request) :=
  match h with
  | EnqueueRequestForObject => st_ret [object_request o]
  | EnqueueRequestForOwner kind => st_ret (owner_requests kind (object_meta o))
  | EnqueueRequestsFromMapFunc f => f o
  end.
Definition concerns_dec (e : Event) (s : Source W) : bool :=
  forallb (λ o, bool_decide (kind_of o = so_Kind s)) (event_objects e) && forallb (passes e) (so_Predicates s).
Lemma concerns_dec_spec e s : concerns_dec e s = true ↔ concerns e s.
Proof.
  unfold concerns_dec, concerns. rewrite andb_true_iff, forallb_forall, Forall_forall.
  setoid_rewrite bool_decide_eq_true. setoid_rewrite list_elem_of_In. done.
Qed.
Fixpoint deliver_each (pairs : list (Handler W * Object)) : ST W (list Request) :=
  match pairs with
  | [] => st_ret []
  | (h, o) :: rest => let* l := handle h o in let* l' := deliver_each rest in st_ret (l ++ l')
  end.
Definition pairs_of (b : Builder W) (e : Event) : list (Handler W * Object) :=
  s ← List.filter (concerns_dec e) (b_Sources b); (so_Handler s,.) <$> event_objects e.
Definition deliver_all (b : Builder W) (e : Event) : ST W (list Request) := deliver_each (pairs_of b e).

Lemma elem_of_pairs b e h o :
  (h, o) ∈ pairs_of b e ↔ ∃ s, s ∈ b_Sources b ∧ concerns e s ∧ o ∈ event_objects e ∧ so_Handler s = h.
Proof.
  unfold pairs_of. rewrite list_elem_of_bind. setoid_rewrite list_elem_of_fmap. setoid_rewrite list_elem_of_In.
  setoid_rewrite filter_In. setoid_rewrite concerns_dec_spec. naive_solver.
Qed.

(** What one of the handlers gives is delivered. *)
Lemma deliver_each_in pairs h o w :
  (h, o) ∈ pairs → (∀ h' o', (h', o') ∈ pairs → preserves same_objects (handle h' o')) →
  ∃ w1, objects w1 = objects w ∧ ∀ r, r ∈ (handle h o w1).1 → r ∈ (deliver_each pairs w).1.
Proof.
  revert w. induction pairs as [|[h' o'] rest IH]; intros w Hin Hr; [by apply not_elem_of_nil in Hin|]. cbn. unfold st_bind.
  pose proof (Hr h' o' (list_elem_of_here _ _) w) as Hw. destruct (handle h' o' w) as [l w'] eqn:E. unfold same_objects in Hw. cbn in Hw.
  destruct (deliver_each rest w') as [l' w''] eqn:E'. cbn. apply elem_of_cons in Hin as [[= -> ->]|Hin].
  - exists w. split; [done|]. intros r. rewrite E. cbn. set_solver.
  - destruct (IH w' Hin ltac:(intros; apply Hr; by right)) as (w1 & Hw1 & H1). exists w1. split; [congruence|].
    intros r Hr'. specialize (H1 r Hr'). rewrite E' in H1. cbn in H1. set_solver.
Qed.
Lemma deliver_each_from pairs w r : r ∈ (deliver_each pairs w).1 → ∃ h o w1, (h, o) ∈ pairs ∧ r ∈ (handle h o w1).1.
Proof.
  revert w. induction pairs as [|[h o] rest IH]; intros w; cbn; [intros []%not_elem_of_nil|]. unfold st_bind.
  destruct (handle h o w) as [l w'] eqn:E, (deliver_each rest w') as [l' w''] eqn:E'. cbn. rewrite elem_of_app. intros [Hl|Hl].
  - exists h, o, w. rewrite E. split; [by left|done].
  - destruct (IH w') as (h1 & o1 & w1 & H1 & H2); [by rewrite E'|]. exists h1, o1, w1. split; [by right|done].
Qed.
(** A handler that does not look at the world gives its requests whatever the others do. *)
Lemma deliver_each_pure pairs h o w r :
  (h, o) ∈ pairs → (∀ w1, r ∈ (handle h o w1).1) → r ∈ (deliver_each pairs w).1.
Proof.
  revert w. induction pairs as [|[h' o'] rest IH]; intros w Hin Hr; [by apply not_elem_of_nil in Hin|]. cbn. unfold st_bind.
  destruct (handle h' o' w) as [l w'] eqn:E, (deliver_each rest w') as [l' w''] eqn:E'. cbn. apply elem_of_app.
  apply elem_of_cons in Hin as [[= -> ->]|Hin].
  - left. specialize (Hr w). by rewrite E in Hr.
  - right. specialize (IH w' Hin Hr). by rewrite E' in IH.
Qed.

#[export] Instance deliver_all_laws : RuntimeLaws deliver_all.
Proof.
  split; unfold deliver_all.
  - intros b e w s o Hs Hc Ho Hh. apply (deliver_each_pure _ EnqueueRequestForObject o); [apply elem_of_pairs; naive_solver|].
    intros w1. by apply list_elem_of_singleton.
  - intros b e w s o kind r Hs Hc Ho Hh Hr. apply (deliver_each_pure _ (EnqueueRequestForOwner kind) o); [apply elem_of_pairs; naive_solver|].
    intros w1. exact Hr.
  - intros b e w s o f Hb Hs Hc Ho Hh. apply (deliver_each_in _ (EnqueueRequestsFromMapFunc f) o); [apply elem_of_pairs; naive_solver|].
    intros h' o' (s' & Hs' & _ & _ & <-)%elem_of_pairs w1. destruct (so_Handler s') as [| |f'] eqn:Ef; [done..|]. by apply (Hb s' f' o').
  - intros b e w r (h & o & w1 & (s & Hs & Hc & Ho & <-)%elem_of_pairs & Hr)%deliver_each_from. exists s, o. split_and!; [done..|].
    destruct (so_Handler s) as [|kind|f]; cbn in Hr; [by apply list_elem_of_singleton in Hr|done|by exists w1].
Qed.
End Deliver.

(** ** What wakes whom *)
Section Woken.
Context {W : Type} `{MapOrder} `{!ClusterView W}.
Context (deliver : Builder W → Event → ST W (list Request)) `{!RuntimeLaws deliver}.

Lemma event_on_concerns (o : Object) e (s : Source W) : event_on o e → kind_of o = so_Kind s → so_Predicates s = [] → concerns e s.
Proof. intros [_ Hk] E Hp. unfold concerns. rewrite <-E, Hp. by split. Qed.

(** A source whose function only computes. *)
Lemma woken_by_function b e w s o f l r :
  event_on o e → s ∈ b_Sources b → so_Kind s = kind_of o → so_Predicates s = [] → so_Handler s = EnqueueRequestsFromMapFunc f →
  reads b → (∀ w1, f o w1 = (l, w1)) → r ∈ l → r ∈ (deliver b e w).1.
Proof.
  intros Ho Hs Hk Hp Hh Hb Hf Hr. destruct (deliver_map b e w s o f) as (w1 & _ & H1); [done|done|by eapply event_on_concerns|apply Ho|done|].
  apply H1. by rewrite Hf.
Qed.
Ltac source := unfold NewController, For, Owns, Watches, Named, watch; cbn; set_solver.
Ltac only_reads :=
  let s := fresh in let f := fresh in let o := fresh in
  intros s f o; cbn; rewrite !elem_of_cons; intros Hs Hh;
  repeat destruct Hs as [->|Hs]; try (injection Hh as <-); try discriminate; try (by apply not_elem_of_nil in Hs); intros w; try reflexivity.

Lemma agent_controller_reads : reads (W := W) HSMPoolAgent_controller.
Proof. only_reads. Qed.
Lemma daemonset_controller_reads : reads (W := W) DiscoveryDaemonSet_controller.
Proof. only_reads. Qed.
(** The label of a device leads back to it. *)
Lemma device_request_of component name m :
  om_Labels m !! labelHSMDevice = Some name → om_Labels m !! labelAppComponent = Some component →
  device_request component m = [(om_Namespace m, name)].
Proof. intros H1 H2. unfold device_request. by rewrite H1, bool_decide_eq_true_2. Qed.

(** C23. The drift of what the controllers establish is noticed: whatever happens to a discovery DaemonSet or a pool
    as desired for a device, to an agent's deployment as created for one, or to a Secret as built for
    an HSMSecret that it can own, even if an update takes its labels or owners away, wakes the
    controller that restores it, for the device, for the pool named after it, and for the HSMSecret. *)
Theorem drift_wakes r (ar : HSMPoolAgentReconciler W) SetControllerReference dev w e :
  (∀ d, daemon_ok r dev d → event_on (DaemonSetObject d) e →
     (om_Namespace (ds_meta d), om_Name (hd_meta dev)) ∈ (deliver DiscoveryDaemonSet_controller e w).1) ∧
  (∀ old p, om_Name (hd_meta dev) ≠ "" → pool_ok (om_Name (hd_meta dev)) old p → event_on (PoolObject p) e →
     (om_Namespace (hp_meta p), om_Name (hd_meta dev)) ∈ (deliver DiscoveryDaemonSet_controller e w).1) ∧
  (∀ pool deviceName image args device agentName,
     event_on (DeploymentObject (agent_deployment ar pool dev deviceName image args device agentName)) e →
     (om_Namespace (hp_meta pool), deviceName +:+ "-pool") ∈ (deliver HSMPoolAgent_controller e w).1) ∧
  (∀ s name data md owners uid version,
     (∀ m, SetControllerReference (hs_meta s) m = Ok owners) → mkOwnerRef version "HSMSecret" (om_Name (hs_meta s)) uid true ∈ owners →
     event_on (SecretObject (buildSecret SetControllerReference s name data md)) e →
     object_request (HSMSecretObject s) ∈ (deliver HSMSecret_controller e w).1).
Proof.
  split_and!.
  - intros d [Hl _] He. eapply (woken_by_function _ _ _ (mkSource DaemonSetKind (EnqueueRequestsFromMapFunc devices_for_daemonset) []));
      [exact He|source|done..|apply daemonset_controller_reads|intros; reflexivity|].
    unfold findDevicesForDaemonSet. rewrite (device_request_of _ (om_Name (hd_meta dev))); [by left|by rewrite Hl..].
  - intros old p Hn (_ & Hl & _) He. eapply (woken_by_function _ _ _ (mkSource PoolKind (EnqueueRequestsFromMapFunc devices_for_pool) []));
      [exact He|source|done..|apply daemonset_controller_reads|intros; reflexivity|].
    unfold findDevicesForHSMPool.
    assert (∀ key v, v ≠ "" → owned_labels componentPool (om_Name (hd_meta dev)) !! key = Some v → om_Labels (hp_meta p) !! key = Some v) as Hs.
    { intros key v Hv Hk. specialize (Hl key v Hk). destruct (om_Labels (hp_meta p) !! key); cbn in Hl; congruence. }
    rewrite (device_request_of _ (om_Name (hd_meta dev))); [by left|by apply Hs|by apply Hs].
  - intros pool deviceName image args device agentName He.
    eapply (woken_by_function _ _ _ (mkSource DeploymentKind (EnqueueRequestsFromMapFunc pools_for_deployment) []));
      [exact He|source|done..|apply agent_controller_reads|intros; reflexivity|]. by left.
  - intros s name data md owners uid version HS Ho He.
    eapply (deliver_owner _ _ _ (mkSource SecretKind (EnqueueRequestForOwner "HSMSecret") []));
      [source|by eapply event_on_concerns|apply He|done|].
    unfold owner_requests, buildSecret. destruct (applyMetadataToLabelsAndAnnotations _ _ _) as [labels annotations]. cbn. rewrite HS.
    apply list_elem_of_fmap. eexists (mkOwnerRef _ _ _ _ _). split; [|apply list_elem_of_filter; split; [by split|exact Ho]]. done.
Qed.

Context (k : KubeClient W) (json_Unmarshal : string → result PodDiscoveryReport) `{!ApiLaws (HSMPools k)}.
Lemma findPoolsForPod_reads p : preserves same_objects (findPoolsForPod k json_Unmarshal p).
Proof.
  unfold findPoolsForPod. repeat case_bool_decide; try (intros w; reflexivity). destruct (device_report _ p) as [rep|]; [|intros w; reflexivity].
  intros w. unfold st_bind. destruct (api_List (HSMPools k) _ _ w) as [l w'] eqn:E. apply api_List_law in E as [E _]. exact E.
Qed.
Lemma pool_controller_reads : reads (HSMPool_controller k json_Unmarshal).
Proof.
  intros s f o. cbn. rewrite !elem_of_cons. intros [->|[->|Hs%not_elem_of_nil]] Hh; [discriminate| |done]. injection Hh as <-.
  destruct o; try (intros w; reflexivity). apply findPoolsForPod_reads.
Qed.

(** A discovery report that changes wakes the pools of its device in the pod's namespace, if they
    can be listed. *)
Lemma report_wakes old new rep p w :
  om_Labels (pod_meta new) !! labelAppComponent = Some componentDiscovery →
  default "" (om_Annotations (pod_meta new) !! deviceReportAnnotation) ≠ "" →
  om_Annotations (pod_meta new) ≠ om_Annotations (pod_meta old) →
  device_report json_Unmarshal new = Some rep →
  o_HSMPools (objects w) !! key_of p = Some p → om_Namespace (hp_meta p) = om_Namespace (pod_meta new) →
  or_Name <$> head (om_OwnerReferences (hp_meta p)) = Some (HSMDeviceName rep) →
  (∀ w1, objects w1 = objects w → is_Ok (api_List (HSMPools k) (Some (om_Namespace (pod_meta new))) ∅ w1).1 = true) →
  object_request (PoolObject p) ∈ (deliver (HSMPool_controller k json_Unmarshal) (UpdateEvent (PodObject old) (PodObject new)) w).1.
Proof.
  intros Hlab Hann Hch Hrep Hp Hns Hown HL.
  destruct (deliver_map (HSMPool_controller k json_Unmarshal) (UpdateEvent (PodObject old) (PodObject new)) w
    (mkSource PodKind (EnqueueRequestsFromMapFunc (pools_for_pod k json_Unmarshal)) [AnnotationChangedPredicate]) (PodObject new)
    (pools_for_pod k json_Unmarshal)) as (w1 & Hw1 & H1); [apply pool_controller_reads|source| |cbn; set_solver|done|].
  { split; [by repeat constructor|]. cbn. by rewrite bool_decide_eq_false_2. }
  apply H1. cbn. unfold findPoolsForPod. rewrite Hlab, (bool_decide_eq_false_2 (default _ _ ≠ _)) by (cbn; congruence).
  rewrite bool_decide_eq_false_2, Hrep by done. specialize (HL w1 Hw1). unfold st_bind.
  destruct (api_List (HSMPools k) _ _ w1) as [[l|err] w2] eqn:E; [|done]. apply api_List_law in E as [_ Hl]. cbn.
  apply list_elem_of_fmap. exists p. split; [done|]. apply list_elem_of_filter. split; [done|].
  apply (Hl l eq_refl). rewrite Hw1. split; [exact Hp|]. split; [by intros ns [= <-]|]. apply map_empty_subseteq.
Qed.

(** Its own status writes do not wake the pool controller: they leave the generation alone.  They do
    wake the agent controller, and every write of an HSMSecret, that of its status included, wakes
    the HSMSecret controller for it. *)
Lemma status_write_is_quiet p p' w r :
  om_Generation (hp_meta p') = om_Generation (hp_meta p) →
  r ∉ (deliver (HSMPool_controller k json_Unmarshal) (UpdateEvent (PoolObject p) (PoolObject p')) w).1.
Proof.
  intros Hg (s & o & Hs & [Hk Hps] & Ho & _)%deliver_only. cbn in Hs. rewrite !elem_of_cons in Hs.
  destruct Hs as [->|[->|[]%not_elem_of_nil]].
  - cbn in Hps. by rewrite bool_decide_eq_true_2 in Hps.
  - apply Forall_inv in Hk. done.
Qed.
Lemma status_write_wakes_agents p p' w :
  object_request (PoolObject p') ∈ (deliver HSMPoolAgent_controller (UpdateEvent (PoolObject p) (PoolObject p')) w).1.
Proof. apply (deliver_object _ _ _ (mkSource PoolKind EnqueueRequestForObject [])); [source|split; [by repeat constructor|done]|cbn; set_solver|done]. Qed.
Lemma status_write_wakes_itself s s' w :
  object_request (HSMSecretObject s') ∈ (deliver HSMSecret_controller (UpdateEvent (HSMSecretObject s) (HSMSecretObject s')) w).1.
Proof. apply (deliver_object _ _ _ (mkSource HSMSecretKind EnqueueRequestForObject [])); [source|split; [by repeat constructor|done]|cbn; set_solver|done]. Qed.
End Woken.

(** ** Witness *)
Module WatchesWitness.
Import DiscoveryWitness PoolController.PoolWitness.
#[local] Existing Instance listed_order.
Definition drifted : DaemonSet :=
  mkDaemonSet (new_meta "pico-discovery" "hsm" (owned_labels componentDiscovery "pico")) (desired_spec r device "img") 0.
(** Somebody takes the labels away. *)
Definition unlabelled : DaemonSet := mkDaemonSet (new_meta "pico-discovery" "hsm" ∅) (desired_spec r device "img") 0.
Definition taken : Event := UpdateEvent (DaemonSetObject drifted) (DaemonSetObject unlabelled).
Example drift_wakes_witness :
  (deliver_all (W := Objects) DiscoveryDaemonSet_controller taken w1).1 = [("hsm", "pico")] ∧
  ("hsm", "pico") ∈ (deliver_all (W := Objects) DiscoveryDaemonSet_controller taken w1).1.
Proof.
  split; [vm_compute; reflexivity|].
  destruct (drift_wakes deliver_all r (mkReconciler None false "" "" false "" 0) owner device w1 taken) as [H _]. apply (H drifted).
  - split; [reflexivity|]. exists "img". reflexivity.
  - split; [left|]. repeat constructor.
Defined.
End WatchesWitness.
