(* ===== verification/SecretControllerSpec.v ===== *)
(** * What the HSMSecret controller guarantees

    The Kubernetes Secret it delivers holds the data of the device that [Resolve]'s
    policy makes authoritative; a reconciliation touches only its own HSMSecret and
    Secret, and no device. *)

From S2P Require Import Prelude GoStd Reconcile Hsm MockClient Api Kube Mirror PoolController Trigger SecretController.

Local Open Scope go_scope.

Section Spec.
Context {W : Type} `{!ClusterView W, !StoreView W} `{MapOrder}.
Context (k : KubeClient W) (am : AgentManagerInterface W) (time_Now : ST W Z).
Context (SetControllerReference : ObjectMeta → ObjectMeta → result (list OwnerReference)).
Context (trigger_Get : ST W (option (MirrorTrigger W))) (r : HSMSecretReconciler W).

(** Neither an object of the cluster nor a secret of a device changed. *)
Definition quiet (w w' : W) : Prop := same_objects w w' ∧ unchanged w w'.
#[local] Instance quiet_PreOrder : PreOrder quiet.
Proof. split; [by intros w|]. intros w1 w2 w3 [? ?] [? ?]. split; by etrans. Qed.

Lemma quiet_sym w w' : quiet w w' → quiet w' w.
Proof. intros [S U]. split; [by symmetry|]. intros s p. by destruct (U s p) as [-> ->]. Qed.

(** A client whose reads leave the cluster alone. *)
Definition reads_quietly (c : Client W) (name : string) : Prop :=
  preserves same_objects (c_ListSecrets c "") ∧ preserves same_objects (c_ReadSecret c name) ∧
  preserves same_objects (c_ReadMetadata c name) ∧ preserves same_objects (c_Close c).

(** The devices and the cluster are apart: the agent manager, its clients' reads, the
    clock and the trigger change neither an object nor a secret; the API no secret. *)
Class Apart : Prop := {
  apart_create d : preserves quiet (CreateGRPCClient am d);
  apart_devices ns : preserves quiet (GetAvailableDevices am ns);
  apart_client d w c name : (CreateGRPCClient am d w).1 = Ok c → ClientLaws (dd_SerialNumber d) c ∧ reads_quietly c name;
  apart_clock : preserves quiet time_Now;
  apart_trigger reason source force : preserves quiet (triggerMirror trigger_Get r reason source force);
  apart_get_secret ns n : preserves unchanged (api_Get (Secrets k) ns n);
  apart_create_secret t : preserves unchanged (api_Create (Secrets k) t);
  apart_update_secret t : preserves unchanged (api_Update (Secrets k) t);
  apart_delete_secret t : preserves unchanged (api_Delete (Secrets k) t);
  apart_get_hsmsecret ns n : preserves unchanged (api_Get (HSMSecrets k) ns n);
  apart_update_hsmsecret t : preserves unchanged (api_Update (HSMSecrets k) t);
  apart_status_hsmsecret t : preserves unchanged (api_UpdateStatus (HSMSecrets k) t);
}.
Context `{!Apart, !ApiLaws (HSMSecrets k), !ApiLaws (Secrets k)}.

(** ** Lemmas: gathering *)

(** The agent manager hands out [c] for the device. *)
Definition handed (w : W) (d : DiscoveredDevice) (c : Client W) : Prop :=
  ∃ w1 w2, quiet w w1 ∧ CreateGRPCClient am d w1 = (Ok c, w2).

(** What a device answers about the secret [name]: nothing if there is no client of it,
    or its list or the secret cannot be read; that it lacks the secret if its list does
    not have it; and otherwise a vote for the data it holds, by the metadata it holds
    if that could be read. *)
Inductive answer (w : W) (name : string) (d : DiscoveredDevice) : option (DeviceObservation * option deviceRead) → Prop :=
  | no_client w1 e w2 :
      quiet w w1 → CreateGRPCClient am d w1 = (Err e, w2) → answer w name d None
  | unlisted c w1 e w2 :
      handed w d c → quiet w w1 → c_ListSecrets c "" w1 = (Err e, w2) → answer w name d None
  | unread c w1 e w2 :
      handed w d c → quiet w w1 → c_ReadSecret c name w1 = (Err e, w2) → answer w name d None
  | absent c w1 l w2 :
      handed w d c → quiet w w1 → c_ListSecrets c "" w1 = (Ok l, w2) → name ∉ l →
      answer w name d (Some (mkObs (dd_SerialNumber d) false false "" 0 0, None))
  | holds c w1 l w2 data md :
      handed w d c → quiet w w1 → c_ListSecrets c "" w1 = (Ok l, w2) → name ∈ l →
      sec_at w (dd_SerialNumber d) name = Some data →
      md = md_at w (dd_SerialNumber d) name ∨
        (md = None ∧ ∃ w3 e w4, quiet w w3 ∧ c_ReadMetadata c name w3 = (Err e, w4)) →
      answer w name d
        (Some (mkObs (dd_SerialNumber d) (negb (MetadataDeleted md)) (MetadataDeleted md) (CalculateChecksum data)
                 (MetadataVersion md) (MetadataTimestamp md), Some (mkDeviceRead data md))).

Lemma handed_quiet w w' d c : quiet w w' → handed w' d c → handed w d c.
Proof. intros Q (w1 & w2 & Q1 & E). exists w1, w2. split; [by etrans|done]. Qed.

Lemma answer_quiet w w' name d a : quiet w w' → answer w' name d a → answer w name d a.
Proof.
  intros Q. assert (∀ w1, quiet w' w1 → quiet w w1) as HQ by (intros; by etrans).
  destruct 1 as [w1 e w2 Q1 E|c w1 e w2 Hc Q1 E|c w1 e w2 Hc Q1 E|c w1 l w2 Hc Q1 E Hn|c w1 l w2 data md Hc Q1 E Hin Hs Hmd];
    try (apply (handed_quiet w w') in Hc; [|done]).
  - eapply no_client; [|exact E]. by apply HQ.
  - eapply unlisted; [exact Hc| |exact E]. by apply HQ.
  - eapply unread; [exact Hc| |exact E]. by apply HQ.
  - eapply absent; [exact Hc| |exact E|done]. by apply HQ.
  - destruct Q as [_ U]. destruct (U (dd_SerialNumber d) name) as [U1 U2].
    eapply holds; [exact Hc|by apply HQ|exact E|done|congruence|]. rewrite <-U2.
    destruct Hmd as [?|(? & w3 & e & w4 & Q3 & E3)]; [by left|right]. split; [done|].
    exists w3, e, w4. split; [by apply HQ|done].
Qed.

Lemma quiet_run {A} (m : ST W A) w a w' : preserves same_objects m → preserves unchanged m → m w = (a, w') → quiet w w'.
Proof. intros H1 H2 E. by split; eapply preserves_at. Qed.

Lemma read_device_spec d name c w res w' :
  handed w d c → read_device (dd_SerialNumber d) name c w = (res, w') →
  quiet w w' ∧ answer w name d res.
Proof.
  intros Hh. pose proof Hh as (wa & wb & Qa & Ec).
  destruct (apart_client d wa c name) as [Hc (Q1 & Q2 & Q3 & Q4)]; [by rewrite Ec|].
  unfold read_device, st_bind, st_ret.
  destruct (c_ListSecrets c "" w) as [l w1] eqn:E1.
  assert (quiet w w1) as H1 by (eapply quiet_run; [exact Q1| |exact E1]; intros ?; apply ListSecrets_unchanged).
  assert (∀ w0 w2 e, c_Close c w0 = (e, w2) → quiet w w0 → quiet w w2) as Hclose.
  { intros w0 w2 e E Hq. etrans; [exact Hq|]. eapply quiet_run; [exact Q4| |exact E]. intros ?; apply Close_unchanged. }
  destruct l as [l|e].
  2:{ destruct (c_Close c w1) as [e' w2] eqn:E2. intros [= <- <-]. split; [by eapply Hclose|].
      eapply unlisted; [exact Hh|reflexivity|exact E1]. }
  case_bool_decide as Hin; cbn [negb].
  2:{ destruct (c_Close c w1) as [e' w2] eqn:E2. intros [= <- <-]. split; [by eapply Hclose|].
      eapply absent; [exact Hh|reflexivity|exact E1|done]. }
  destruct (c_ReadSecret c name w1) as [data w2] eqn:E2.
  pose proof E2 as [_ Hd]%(ReadSecret_run (dd_SerialNumber d)); [|done].
  assert (quiet w w2) as H2.
  { etrans; [exact H1|]. eapply quiet_run; [exact Q2| |exact E2]. intros ?; apply ReadSecret_unchanged. }
  destruct data as [data|e].
  2:{ destruct (c_Close c w2) as [e' w3] eqn:E3. intros [= <- <-]. split; [by eapply Hclose|].
      eapply unread; [exact Hh|exact H1|exact E2]. }
  destruct (c_ReadMetadata c name w2) as [md w3] eqn:E3.
  pose proof E3 as [_ Hmd]%(ReadMetadata_run (dd_SerialNumber d)); [|done].
  assert (quiet w w3) as H3.
  { etrans; [exact H2|]. eapply quiet_run; [exact Q3| |exact E3]. intros ?; apply ReadMetadata_unchanged. }
  destruct (c_Close c w3) as [e' w4] eqn:E4. intros [= <- <-]. split; [by eapply Hclose|].
  pose proof H1 as [_ U1]. pose proof H2 as [_ U2].
  destruct (U1 (dd_SerialNumber d) name) as [Hs1 _], (U2 (dd_SerialNumber d) name) as [_ Hm2].
  eapply holds; [exact Hh|reflexivity|exact E1|done|specialize (Hd data eq_refl); congruence|].
  destruct md as [md|e]; [left; rewrite <-Hm2; symmetry; by apply Hmd|right].
  split; [done|]. by exists w2, e, w3.
Qed.

(** What the loop has collected from the answers of the devices. *)
Definition collected (answers : list (option (DeviceObservation * option deviceRead))) (g : Gathered) : Prop :=
  g.1 = fst <$> omap id answers ∧
  (∀ o rd, Some (o, Some rd) ∈ answers → is_Some (g.2 !! o_DeviceID o)) ∧
  ∀ i rd, g.2 !! i = Some rd → ∃ o, Some (o, Some rd) ∈ answers ∧ o_DeviceID o = i.

Lemma answer_serial w name d o rd : answer w name d (Some (o, rd)) → o_DeviceID o = dd_SerialNumber d.
Proof. intros Ha. by inversion Ha. Qed.

Lemma collected_None answers g : collected answers g → collected (answers ++ [None]) g.
Proof.
  intros (H1 & H2 & H3). split_and!.
  - rewrite omap_app. cbn. by rewrite app_nil_r.
  - intros o rd [Hin|[=]%list_elem_of_singleton]%elem_of_app. by eapply H2.
  - intros i rd (o & Hin & Hid)%H3. exists o. split; [|done]. apply elem_of_app. by left.
Qed.

Lemma collected_Some answers g o rd i :
  o_DeviceID o = i → collected answers g →
  collected (answers ++ [Some (o, rd)]) (g.1 ++ [o], match rd with Some rd => <[i := rd]> g.2 | None => g.2 end).
Proof.
  intros Hid (H1 & H2 & H3). split_and!; cbn [fst snd].
  - rewrite H1, omap_app, fmap_app. done.
  - intros o' rd' [Hin|Hin%list_elem_of_singleton]%elem_of_app.
    + apply H2 in Hin. destruct rd as [rd|]; [|done]. apply lookup_insert_is_Some'. by right.
    + injection Hin as <- <-. rewrite Hid. apply lookup_insert_is_Some'. by left.
  - intros j rd' Hl. assert ((∃ rd0, rd = Some rd0 ∧ j = i ∧ rd' = rd0) ∨ g.2 !! j = Some rd') as [(rd0 & -> & -> & ->)|Hl'].
    { destruct rd as [rd|]; [|by right]. apply lookup_insert_Some in Hl as [[<- <-]|[_ Hl]]; [left; by exists rd|by right]. }
    + exists o. split; [|done]. apply elem_of_app. right. by left.
    + destruct (H3 j rd' Hl') as (o' & Hin & Hid'). exists o'. split; [|done]. apply elem_of_app. by left.
Qed.

Lemma gather_device_spec w0 name acc d w acc' w' answers :
  quiet w0 w → collected answers acc → gather_device am name acc d w = (acc', w') →
  quiet w0 w' ∧ ∃ a, answer w0 name d a ∧ collected (answers ++ [a]) acc'.
Proof.
  intros Hq Hcol. unfold gather_device, st_bind, st_ret.
  destruct (CreateGRPCClient am d w) as [c w1] eqn:E1.
  pose proof (preserves_at quiet _ _ _ _ (apart_create d) E1) as Q1.
  destruct c as [c|e].
  2:{ intros [= <- <-]. split; [by etrans|]. exists None. split; [by apply (no_client _ _ _ w e w1)|by apply collected_None]. }
  destruct (read_device (dd_SerialNumber d) name c w1) as [res w2] eqn:E2.
  assert (quiet w0 w1) as Q01 by by etrans.
  apply read_device_spec in E2 as [Q2 Ha].
  2:{ apply (handed_quiet _ w); [by apply quiet_sym|by exists w, w1]. }
  apply (answer_quiet w0) in Ha; [|done].
  destruct res as [[o rd]|]; intros [= <- <-]; (split; [by etrans|]).
  - exists (Some (o, rd)). split; [done|]. apply collected_Some; [by eapply answer_serial|done].
  - exists None. split; [done|by apply collected_None].
Qed.

Lemma gatherSecretObservations_spec devices name w g w' :
  gatherSecretObservations am devices name w = (g, w') →
  quiet w w' ∧ ∃ answers, Forall2 (answer w name) devices answers ∧ collected answers g.
Proof.
  unfold gatherSecretObservations.
  assert (∀ devices acc answers w1 g w', quiet w w1 → collected answers acc →
    st_fold (gather_device am name) devices acc w1 = (g, w') →
    quiet w w' ∧ ∃ more, Forall2 (answer w name) devices more ∧ collected (answers ++ more) g) as Hloop.
  { clear devices g w'. intros devices. induction devices as [|d devices IH]; intros acc answers w1 g w' Hq Hg; cbn [st_fold].
    - intros [= <- <-]. split; [done|]. exists []. by rewrite app_nil_r.
    - unfold st_bind. destruct (gather_device am name acc d w1) as [acc1 w2] eqn:E.
      apply (gather_device_spec w name _ _ _ _ _ answers) in E as (Hq' & a & Ha & Hg'); [|done|done].
      intros E. destruct (IH _ _ _ _ _ Hq' Hg' E) as (Hq2 & more & Hm & Hc). split; [done|].
      exists (a :: more). split; [by constructor|]. by rewrite cons_middle, app_assoc. }
  intros E. apply (Hloop devices ([], ∅) []) in E as (Hq & more & ? & ?); [|done|].
  - split; [done|]. by exists more.
  - split_and!; [done|by intros o rd ?%not_elem_of_nil|by intros i rd Hl; cbn in Hl; rewrite lookup_empty in Hl].
Qed.

(** ** Lemmas: the authoritative copy *)

(** The observations among the answers. *)
Definition votes_of (answers : list (option (DeviceObservation * option deviceRead))) : list DeviceObservation :=
  fst <$> omap id answers.

Lemma answers_serials w name devices answers :
  Forall2 (answer w name) devices answers → (o_DeviceID <$> votes_of answers) `sublist_of` (dd_SerialNumber <$> devices).
Proof.
  unfold votes_of. induction 1 as [|d [[o rd]|] devices answers Ha _ IH]; cbn; [done| |by constructor].
  rewrite (answer_serial _ _ _ _ _ Ha). by constructor.
Qed.

Lemma answers_distinct w name devices answers :
  Forall2 (answer w name) devices answers →
  NoDup (dd_SerialNumber <$> devices) → Forall (λ s, s ≠ "") (dd_SerialNumber <$> devices) →
  distinct_devices (votes_of answers).
Proof.
  intros Ha%answers_serials Hnd Hne. split; [by eapply sublist_NoDup|].
  apply Forall_forall. intros o Ho. rewrite Forall_forall in Hne. apply Hne.
  eapply elem_of_sublist; [|exact Ha]. by apply list_elem_of_fmap_2.
Qed.

Lemma votes_of_elem answers o : o ∈ votes_of answers ↔ ∃ rd, Some (o, rd) ∈ answers.
Proof.
  unfold votes_of. rewrite list_elem_of_fmap. split.
  - intros ([o' rd] & -> & (a & Ha & Hid)%list_elem_of_omap). exists rd. cbn in Hid. by subst.
  - intros [rd Hin]. exists (o, rd). split; [done|]. apply list_elem_of_omap. by exists (Some (o, rd)).
Qed.

(** A vote was cast with the data that was read. *)
Lemma answer_vote w name d o rd : answer w name d (Some (o, rd)) → hasOpinion o = true →
  ∃ data md, rd = Some (mkDeviceRead data md) ∧ sec_at w (dd_SerialNumber d) name = Some data ∧
    o = mkObs (dd_SerialNumber d) (negb (MetadataDeleted md)) (MetadataDeleted md) (CalculateChecksum data)
          (MetadataVersion md) (MetadataTimestamp md).
Proof. intros Ha Hop. inversion Ha; subst; [done|]. by exists data, md. Qed.

(** The code's decision, in the terms of the policy. *)
Lemma decision_authoritative answers n :
  Forall (λ o, o_DeviceID o ≠ "") (votes_of answers) →
  let decision := Resolve (votes_of answers) n in
  (d_Found decision = false ∧ ∀ o, o ∈ votes_of answers → ballot o = None) ∨
  (d_Found decision = true ∧ authoritative (votes_of answers) n (d_WinningChecksum decision) ∧
   d_Deleted decision = bool_decide (d_WinningChecksum decision = TombstoneChecksum) ∧
   (∃ o, o ∈ votes_of answers ∧ o_DeviceID o = d_WinningDeviceID decision ∧ ballot o = Some (d_WinningChecksum decision)) ∧
   ∀ o, o ∈ votes_of answers → ballot o = Some (d_WinningChecksum decision) →
     String.le (d_WinningDeviceID decision) (o_DeviceID o)).
Proof.
  intros Hne decision. destruct (Resolve_facts (votes_of answers) n Hne) as [Hf Hdec]. fold decision in Hf, Hdec.
  destruct (voters_cases (votes_of answers)) as [He|(v0 & vs & He)].
  - left. split; [destruct (d_Found decision); [|done]; by apply Hf in He|]. intros o Ho.
    destruct (ballot o) eqn:Eb; [|done]. assert (o ∈ filter hasOpinion (votes_of answers)) as Hin.
    { apply list_elem_of_filter. split; [|done]. apply Is_true_true, ballot_opinion. by eexists. }
    rewrite He in Hin. by apply elem_of_nil in Hin.
  - right. assert (d_Found decision = true) as Hfound by (apply Hf; by rewrite He). split; [done|].
    destruct (Hdec Hfound) as (((v & Hv & Hvc & Hvid) & Hleast) & _ & _ & _ & Hdel'). split_and!.
    + destruct (Resolve_some (votes_of answers) n v0 vs He) as (c & s & Hc & Hres). unfold decision. rewrite Hres.
      by eapply chosen_authoritative.
    + case_bool_decide as Hb; [by apply Hdel'|]. destruct (d_Deleted decision); [|done]. by destruct Hb; apply Hdel'.
    + apply list_elem_of_filter in Hv as [Hop Hin]. exists v. split_and!; [done|done|].
      apply ballot_checksum. split; [by apply Is_true_true|done].
    + intros o Ho [Hb1 Hb2]%ballot_checksum. apply Hleast; [|done].
      apply list_elem_of_filter. split; [by apply Is_true_true|done].
Qed.

(** ** Lemmas: writing *)

(** Only this HSMSecret and this Secret may have changed. *)
Definition own_only (hs se : string * string) (w w' : W) : Prop :=
  let o := objects w in let o' := objects w' in
  o_HSMPools o' = o_HSMPools o ∧ o_HSMDevices o' = o_HSMDevices o ∧ o_Deployments o' = o_Deployments o ∧
  o_DaemonSets o' = o_DaemonSets o ∧ o_Pods o' = o_Pods o ∧
  (∀ key, key ≠ hs → o_HSMSecrets o' !! key = o_HSMSecrets o !! key) ∧
  (∀ key, key ≠ se → o_Secrets o' !! key = o_Secrets o !! key).
#[local] Instance own_only_PreOrder hs se : PreOrder (own_only hs se).
Proof.
  split; [by intros w|]. intros w1 w2 w3 (? & ? & ? & ? & ? & A & B) (? & ? & ? & ? & ? & A' & B').
  split_and!; try congruence; intros key Hk; [rewrite A'|rewrite B']; auto.
Qed.
Lemma own_only_same hs se w w' : same_objects w w' → own_only hs se w w'.
Proof. unfold same_objects, own_only. by intros ->. Qed.
Lemma own_only_hs hs se w w' : touches (T := HSMSecret) (λ key, key = hs) w w' → own_only hs se w w'.
Proof. intros (t & E & Ht). unfold own_only. rewrite E. cbn. by split_and!. Qed.
Lemma own_only_se hs se w w' : touches (T := Secret) (λ key, key = se) w w' → own_only hs se w w'.
Proof. intros (t & E & Ht). unfold own_only. rewrite E. cbn. by split_and!. Qed.

(** What a retried update of an HSMSecret may leave at its key. *)
Definition hs_written (key : string * string) (P : option HSMSecret → Prop) (w w' : W) : Prop :=
  touches (T := HSMSecret) (λ key', key' = key) w w' ∧ unchanged w w' ∧
  (o_HSMSecrets (objects w') !! key = o_HSMSecrets (objects w) !! key ∨ P (o_HSMSecrets (objects w') !! key)).

Lemma hs_written_refl key P w w' : quiet w w' → hs_written key P w w'.
Proof. intros [Hs Hu]. split; [by apply touches_refl|]. split; [done|]. left. by rewrite Hs. Qed.
Lemma hs_written_trans key P w1 w2 w3 : hs_written key P w1 w2 → hs_written key P w2 w3 → hs_written key P w1 w3.
Proof.
  intros (T1 & U1 & C1) (T2 & U2 & C2). split; [by etrans|]. split; [by etrans|].
  destruct C2 as [->|?]; [done|by right].
Qed.

(** The HSMSecret there has this status; it has these finalizers, or is gone without any. *)
Definition has_status (st : HSMSecretStatus) (o : option HSMSecret) : Prop := ∃ s, o = Some s ∧ hs_Status s = st.
Definition has_finalizers (fs : list string) (o : option HSMSecret) : Prop :=
  match o with Some s => om_Finalizers (hs_meta s) = fs | None => fs = [] end.

Lemma update_status_attempts_spec n s w res w' :
  update_status_attempts k n s w = (res, w') →
  hs_written (key_of s) (has_status (hs_Status s)) w w' ∧
  (res = Ok () → o_HSMSecrets (objects w') !! key_of s = None ∨ has_status (hs_Status s) (o_HSMSecrets (objects w') !! key_of s)).
Proof.
  revert w. induction n as [|n IH]; intros w; cbn [update_status_attempts]; unfold st_bind, st_ret.
  { intros [= <- <-]. split; [by apply hs_written_refl|done]. }
  destruct (api_Get (HSMSecrets k) (hs_ns s) (hs_name s) w) as [g w1] eqn:Eg.
  pose proof (preserves_at unchanged _ _ _ _ (apart_get_hsmsecret _ _) Eg) as U1. apply api_Get_law in Eg as [S1 Hg].
  assert (quiet w w1) as Q1 by done.
  destruct g as [f|e].
  2:{ intros [= <- <-]. split; [by apply hs_written_refl|]. destruct (IsNotFound e) eqn:En; [|done]. intros _. left.
      rewrite S1. by apply Hg. }
  destruct Hg as [_ Hk]. set (f' := with_status (hs_Status s) f).
  assert (key_of f' = key_of s) as Hk' by (transitivity (key_of f); [done|by rewrite Hk]).
  destruct (api_UpdateStatus (HSMSecrets k) f' w1) as [u w2] eqn:Eu.
  pose proof (preserves_at unchanged _ _ _ _ (apart_status_hsmsecret _) Eu) as U2.
  pose proof Eu as Ht. apply (UpdateStatus_touches _ (λ key, key = key_of s)) in Ht; [|done].
  apply api_UpdateStatus_law in Eu.
  assert (∀ t0 t', k_same (k_merge f' t0) t' → wrote (insert (key_of f') t') w1 w2 →
    has_status (hs_Status s) (o_HSMSecrets (objects w2) !! key_of s)) as Hst.
  { intros t0 t' (_ & _ & Hst) Hw. apply wrote_get in Hw. cbn [k_get HSMSecret_kind] in Hw. rewrite Hw, Hk'.
    exists t'. split; [apply lookup_insert_eq|exact Hst]. }
  assert (hs_written (key_of s) (has_status (hs_Status s)) w w2) as Hw2.
  { split; [etrans; [by apply touches_refl|exact Ht]|]. split; [by etrans|]. rewrite <-S1.
    destruct u as [t'|e]; [|destruct Eu as [->|(t0 & t' & _ & Hs & Hw)]; [by left|]].
    - destruct Eu as (t0 & _ & Hs & Hw). right. by eapply Hst.
    - right. by eapply Hst. }
  destruct u as [t'|e].
  - intros [= <- <-]. split; [done|]. intros _. right. destruct Eu as (t0 & _ & Hs & Hw). by eapply Hst.
  - destruct (IsConflict e && _); [|by intros [= <- <-]]. intros [Hw Hok]%IH. split; [by eapply hs_written_trans|done].
Qed.

Lemma update_attempts_spec n s w res w' :
  update_attempts k n s w = (res, w') →
  hs_written (key_of s) (has_finalizers (om_Finalizers (hs_meta s))) w w' ∧
  (res = Ok () → o_HSMSecrets (objects w') !! key_of s = None ∨
     has_finalizers (om_Finalizers (hs_meta s)) (o_HSMSecrets (objects w') !! key_of s)).
Proof.
  revert s w. induction n as [|n IH]; intros s w; cbn [update_attempts]; unfold st_bind, st_ret.
  { intros [= <- <-]. split; [by apply hs_written_refl|done]. }
  destruct (api_Update (HSMSecrets k) s w) as [u w1] eqn:Eu.
  pose proof (preserves_at unchanged _ _ _ _ (apart_update_hsmsecret _) Eu) as U1.
  pose proof Eu as Ht. apply (Update_touches _ (λ key, key = key_of s)) in Ht; [|done].
  apply api_Update_law in Eu.
  assert (∀ t0, replaced t0 (k_merge t0 s) w w1 →
    has_finalizers (om_Finalizers (hs_meta s)) (o_HSMSecrets (objects w1) !! key_of s)) as Hst.
  { intros t0 [_ [(t' & (Hm & _) & Hw)|(_ & Hf & Hw)]]; apply wrote_get in Hw; cbn [k_get HSMSecret_kind] in Hw;
      rewrite Hw, merge_key; unfold has_finalizers.
    - rewrite lookup_insert_eq. by destruct Hm as (_ & _ & _ & _ & ? & _).
    - by rewrite lookup_delete_eq. }
  assert (hs_written (key_of s) (has_finalizers (om_Finalizers (hs_meta s))) w w1) as Hw1.
  { split; [done|]. split; [done|]. destruct u as [t'|e].
    - destruct Eu as (t0 & Hr & _). right. by eapply Hst.
    - destruct Eu as [->|(t0 & Hr)]; [by left|right; by eapply Hst]. }
  destruct u as [t'|e].
  { intros [= <- <-]. split; [done|]. intros _. right. destruct Eu as (t0 & Hr & _). by eapply Hst. }
  destruct (IsConflict e && _); [|by intros [= <- <-]].
  destruct (api_Get (HSMSecrets k) (hs_ns s) (hs_name s) w1) as [g w2] eqn:Eg.
  pose proof (preserves_at unchanged _ _ _ _ (apart_get_hsmsecret _ _) Eg) as U2. apply api_Get_law in Eg as [S2 Hg].
  destruct g as [f|e'].
  - destruct Hg as [_ Hk]. intros E. apply IH in E. revert E.
    change (key_of (with_meta (with_finalizers (om_Finalizers (hs_meta s))) f)) with (key_of f). rewrite Hk.
    intros [Hw Hok]. split; [|exact Hok]. eapply hs_written_trans; [exact Hw1|].
    apply (hs_written_trans _ _ _ w2); [by apply hs_written_refl|exact Hw].
  - intros [= <- <-]. split; [eapply hs_written_trans; [exact Hw1|by apply hs_written_refl]|].
    destruct (IsNotFound e') eqn:En; [|done]. intros _. left. rewrite S2. by apply Hg.
Qed.
(** ** Lemmas: the Kubernetes Secret *)

Lemma write_secret_spec s data md w res w' :
  write_secret k SetControllerReference s (secret_name s) data md w = (res, w') →
  let key := (hs_ns s, secret_name s) in
  touches (T := Secret) (λ key', key' = key) w w' ∧ unchanged w w' ∧
  (∀ se, o_Secrets (objects w') !! key = Some se → se_Data se = data ∨ o_Secrets (objects w) !! key = Some se) ∧
  (∀ se, res = Ok se → se_Data se = data ∧
     ((∃ se', o_Secrets (objects w') !! key = Some se' ∧ se_Data se' = data) ∨
      ∃ se0, o_Secrets (objects w) !! key = Some se0 ∧ om_DeletionTimestamp (se_meta se0) ≠ None)).
Proof.
  intros E key. revert E. unfold write_secret, st_bind. destruct (api_Get (Secrets k) (hs_ns s) (secret_name s) w) as [g w1] eqn:Eg.
  pose proof (preserves_at unchanged _ _ _ _ (apart_get_secret _ _) Eg) as U1. apply api_Get_law in Eg as [S1 Hg].
  destruct g as [se0|e].
  - intros E. destruct Hg as [Hl Hk]. cbn [k_get Secret_kind] in Hl.
    pose proof (preserves_at unchanged _ _ _ _ (apart_update_secret _) E) as U2.
    set (se1 := updateSecretWithMetadata se0 s data md) in *.
    assert (key_of se1 = key ∧ se_Data se1 = data) as [Hk1 Hd1].
    { unfold se1, updateSecretWithMetadata. by destruct (applyMetadataToLabelsAndAnnotations _ _ _). }
    pose proof E as Ht. apply (Update_touches _ (λ key', key' = key)) in Ht; [|done].
    split; [etrans; [by apply touches_refl|exact Ht]|]. split; [by etrans|]. apply api_Update_law in E. rewrite <-S1 in Hl |- *.
    assert (∀ t0, replaced t0 (k_merge t0 se1) w1 w' →
      (∃ se', o_Secrets (objects w') !! key = Some se' ∧ se_Data se' = data) ∨
      o_Secrets (objects w') !! key = None ∧ om_DeletionTimestamp (se_meta se0) ≠ None) as Hrep.
    { intros t0 [Hl0 Hr]. rewrite merge_key, Hk1 in Hl0, Hr. cbn [k_get Secret_kind] in Hl0.
      destruct Hr as [(t' & (_ & _ & Hd) & Hw)|(Hdel & _ & Hw)]; apply wrote_get in Hw; cbn [k_get Secret_kind] in Hw;
        rewrite Hw; [left|right].
      - exists t'. rewrite lookup_insert_eq. split; [done|]. rewrite Hd. exact Hd1.
      - rewrite lookup_delete_eq. split; [done|]. assert (se0 = t0) as -> by (unfold key in Hl0; congruence). exact Hdel. }
    split.
    + intros se Hse. destruct res as [t'|e]; [destruct E as (t0 & Hr & _)|destruct E as [E|(t0 & Hr)]; [right; by rewrite <-E|]];
        destruct (Hrep t0 Hr) as [(se' & Hs' & Hd)|[Hn _]]; try congruence; left; congruence.
    + intros se ->. destruct E as (t0 & Hr & Hs). split.
      * destruct Hs as (_ & _ & Hd). rewrite Hd. exact Hd1.
      * destruct (Hrep t0 Hr) as [?|[_ ?]]; [by left|right; by exists se0].
  - destruct (IsNotFound e) eqn:En; intros E.
    2:{ injection E as <- <-. split; [by apply touches_refl|]. split; [done|]. rewrite S1. split; [|done]. intros se Hse. by right. }
    pose proof (preserves_at unchanged _ _ _ _ (apart_create_secret _) E) as U2.
    set (se1 := buildSecret SetControllerReference s (secret_name s) data md) in *.
    assert (key_of se1 = key ∧ se_Data se1 = data) as [Hk1 Hd1].
    { unfold se1, buildSecret. by destruct (applyMetadataToLabelsAndAnnotations _ _ _). }
    pose proof E as Ht. apply (Create_touches _ (λ key', key' = key)) in Ht; [|done].
    split; [etrans; [by apply touches_refl|exact Ht]|]. split; [by etrans|]. apply api_Create_law in E. rewrite <-S1.
    assert (∀ t', k_same se1 t' → wrote (insert (key_of se1) t') w1 w' →
      o_Secrets (objects w') !! key = Some t' ∧ se_Data t' = data) as Hcr.
    { intros t' (_ & _ & Hd) Hw. apply wrote_get in Hw. cbn [k_get Secret_kind] in Hw. rewrite Hw, Hk1, lookup_insert_eq.
      split; [done|]. rewrite Hd. exact Hd1. }
    split.
    + intros se Hse. destruct res as [t'|e']; [destruct E as (_ & Hs & Hw)|destruct E as [E|(_ & t' & Hs & Hw)]; [right; by rewrite <-E|]];
        destruct (Hcr t' Hs Hw) as [Hl Hd]; left; congruence.
    + intros se ->. destruct E as (_ & Hs & Hw). destruct (Hcr se Hs Hw) as [Hl Hd]. split; [done|]. left. by exists se.
Qed.
(** The status says that the Secret holds [data]. *)
Definition in_sync (data : SecretData) (s : HSMSecret) : Prop :=
  let st := hs_Status s in
  ss_SyncStatus st = SyncStatusInSync ∧ ss_LastError st = "" ∧
  ss_HSMChecksum st = CalculateChecksum data ∧ ss_SecretChecksum st = CalculateChecksum data.

(** The Secret of [s] was not overwritten with anything but [data]; if the run reports no
    error it holds [data] (unless it was being deleted), and the status says so. *)
Definition delivered (s : HSMSecret) (data : SecretData) (out : Outcome) (w w' : W) : Prop :=
  let key := (hs_ns s, secret_name s) in
  (∀ se, o_Secrets (objects w') !! key = Some se → se_Data se = data ∨ o_Secrets (objects w) !! key = Some se) ∧
  (out.2 = None →
     ((∃ se, o_Secrets (objects w') !! key = Some se ∧ se_Data se = data) ∨
      ∃ se0, o_Secrets (objects w) !! key = Some se0 ∧ om_DeletionTimestamp (se_meta se0) ≠ None) ∧
     (o_HSMSecrets (objects w') !! key_of s = None ∨ ∃ s', o_HSMSecrets (objects w') !! key_of s = Some s' ∧ in_sync data s')).

Lemma synced_status_in_sync now s data se : se_Data se = data →
  in_sync data (synced_status now s data se) ∧ key_of (synced_status now s data se) = key_of s.
Proof.
  intros Hd. unfold in_sync, synced_status, convertSecretDataToHSMData. rewrite Hd.
  rewrite (bool_decide_eq_false_2 (CalculateChecksum data ≠ CalculateChecksum data)) by (intros Hx; by apply Hx). done.
Qed.

Lemma touches_hs_secrets P w w' : touches (T := HSMSecret) P w w' → o_Secrets (objects w') = o_Secrets (objects w).
Proof. by intros (t & -> & _). Qed.
Lemma touches_se_hs P w w' : touches (T := Secret) P w w' → o_HSMSecrets (objects w') = o_HSMSecrets (objects w).
Proof. by intros (t & -> & _). Qed.

Lemma reconcileSecret_spec s data md w out w' :
  reconcileSecret k time_Now SetControllerReference s data md w = (out, w') →
  own_only (key_of s) (hs_ns s, secret_name s) w w' ∧ unchanged w w' ∧ delivered s data out w w'.
Proof.
  unfold reconcileSecret, updateKubernetesSecret, st_bind, st_ret.
  destruct (write_secret k SetControllerReference s (secret_name s) data md w) as [res w1] eqn:E1.
  apply write_secret_spec in E1 as (T1 & U1 & Hse & Hok). pose proof (own_only_se (key_of s) _ _ _ T1) as O1.
  destruct res as [se|e]; [|intros [= <- <-]; by split_and!].
  destruct (Hok se eq_refl) as [Hd Hpres]. destruct (time_Now w1) as [now w2] eqn:E2.
  pose proof (preserves_at quiet _ _ _ _ apart_clock E2) as [S2 U2]. unfold same_objects in S2.
  destruct (synced_status_in_sync (metav1_Now now) s data se Hd) as (Hsync & Hkey).
  set (s1 := synced_status (metav1_Now now) s data se) in *. unfold updateStatusWithRetry.
  destruct (update_status_attempts k 3 s1 w2) as [u w3] eqn:E3. apply update_status_attempts_spec in E3 as ((T3 & U3 & _) & Hst).
  rewrite Hkey in T3, Hst. pose proof (own_only_hs (key_of s) (hs_ns s, secret_name s) _ _ T3) as O3.
  pose proof (touches_hs_secrets _ _ _ T3) as Hs3. rewrite S2 in Hs3.
  intros E. assert (w' = w3 ∧ (out.2 = None → u = Ok ())) as [-> Hu].
  { destruct u as [[]|e]; [|by injection E as <- <-]. split; [|done]. destruct (sp_AutoSync _); by injection E as _ <-. }
  split; [etrans; [exact O1|etrans; [by apply own_only_same|exact O3]]|]. split; [etrans; [exact U1|by etrans]|].
  split; [by rewrite Hs3|]. intros Hn. split; [by rewrite Hs3|]. destruct (Hst (Hu Hn)) as [?|(s' & Hl & Heq)]; [by left|right].
  exists s'. split; [done|]. unfold in_sync. rewrite Heq. exact Hsync.
Qed.

(** ** Reconciliation *)
Abbreviation reconcile := (SecretController.Reconcile k am time_Now SetControllerReference trigger_Get r).

(** A survey of the devices: those that the agent manager lists, and their answers. *)
Definition survey (w : W) (name : string) (devices : list DiscoveredDevice)
    (answers : list (option (DeviceObservation * option deviceRead))) : Prop :=
  (∃ w1 w2, quiet w w1 ∧ GetAvailableDevices am (OperatorNamespace r) w1 = (Ok devices, w2)) ∧
  Forall2 (answer w name) devices answers.

(** The devices a survey can meet are told apart by non-empty, distinct serial numbers. *)
Definition told_apart (w : W) : Prop :=
  ∀ w1 w2 devices, quiet w w1 → GetAvailableDevices am (OperatorNamespace r) w1 = (Ok devices, w2) →
    NoDup (dd_SerialNumber <$> devices) ∧ Forall (λ s, s ≠ "") (dd_SerialNumber <$> devices).

(** [data] is the copy to deliver by a survey: the policy makes its checksum
    authoritative among the answers, and it is what the device of the smallest serial
    number that votes for this checksum holds. *)
Definition chosen_copy (w : W) (name : string) (data : SecretData) : Prop :=
  ∃ devices answers o md,
    survey w name devices answers ∧
    authoritative (votes_of answers) (len devices) (CalculateChecksum data) ∧
    Some (o, Some (mkDeviceRead data md)) ∈ answers ∧
    sec_at w (o_DeviceID o) name = Some data ∧ ballot o = Some (CalculateChecksum data) ∧
    ∀ o', o' ∈ votes_of answers → ballot o' = Some (CalculateChecksum data) → String.le (o_DeviceID o) (o_DeviceID o').

(** Why there is nothing to deliver: the devices cannot be listed, there are none, none
    of them votes, or the policy says that the secret is deleted. *)
Definition nothing_chosen (w : W) (name : string) : Prop :=
  (∃ w1 e w2, quiet w w1 ∧ GetAvailableDevices am (OperatorNamespace r) w1 = (Err e, w2)) ∨
  ∃ devices answers, survey w name devices answers ∧
    (devices = [] ∨ (∀ o, o ∈ votes_of answers → ballot o = None) ∨
     authoritative (votes_of answers) (len devices) "__deleted__").

Lemma survey_quiet w w1 name devices answers : quiet w w1 → survey w1 name devices answers → survey w name devices answers.
Proof.
  intros Q ((w2 & w3 & Q2 & E) & Ha). split; [exists w2, w3; split; [by etrans|done]|].
  eapply Forall2_impl; [exact Ha|]. intros d a. by apply answer_quiet.
Qed.

Lemma chosen_copy_quiet w w1 name data : quiet w w1 → chosen_copy w1 name data → chosen_copy w name data.
Proof.
  intros Q (devices & answers & o & md & Hs & Ha & Hin & Hsec & Hrest). exists devices, answers, o, md.
  split_and!; [by apply (survey_quiet w w1)|done|done| |by apply Hrest..].
  destruct Q as [_ U]. by destruct (U (o_DeviceID o) name) as [<- _].
Qed.

Lemma nothing_chosen_quiet w w1 name : quiet w w1 → nothing_chosen w1 name → nothing_chosen w name.
Proof.
  intros Q [(w2 & e & w3 & Q2 & E)|(devices & answers & Hs & Hr)].
  - left. exists w2, e, w3. split; [by etrans|done].
  - right. exists devices, answers. split; [by apply (survey_quiet w w1)|done].
Qed.

Lemma told_apart_quiet w w1 : quiet w w1 → told_apart w → told_apart w1.
Proof. intros Q Ht w2 w3 devices Q2. apply Ht. by etrans. Qed.

(** What the resolution of a survey comes to. *)
Lemma survey_decides w name devices answers g :
  survey w name devices answers → told_apart w → collected answers g →
  let decision := Resolve g.1 (len devices) in
  if negb (d_Found decision) || d_Deleted decision then nothing_chosen w name
  else ∃ rd, g.2 !! d_WinningDeviceID decision = Some rd ∧ chosen_copy w name (rd_data rd).
Proof.
  intros Hs Ht (Hg1 & Hg2 & Hg3) decision. pose proof Hs as ((w1 & w2 & Q1 & E) & Ha).
  destruct (Ht _ _ _ Q1 E) as [Hnd Hne]. pose proof (answers_distinct _ _ _ _ Ha Hnd Hne) as [Hdist Hids].
  change (fst <$> omap id answers) with (votes_of answers) in Hg1. unfold decision. rewrite Hg1.
  destruct (decision_authoritative answers (len devices) Hids)
    as [[Hf Hno]|(Hf & Hauth & Hdel & (o & Ho & Hid & Hb) & Hleast)].
  { rewrite Hf. cbn. right. exists devices, answers. split; [done|]. right. by left. }
  rewrite Hf, Hdel. cbn [negb orb]. case_bool_decide as Hc.
  { right. exists devices, answers. split; [done|]. right. right. rewrite Hc in Hauth. exact Hauth. }
  apply votes_of_elem in Ho as [rd Hin].
  assert (∃ d, d ∈ devices ∧ answer w name d (Some (o, rd))) as (d & _ & Hans).
  { apply list_elem_of_lookup in Hin as [i Hi]. destruct (Forall2_lookup_r _ _ _ _ _ Ha Hi) as (d & Hd & ?).
    exists d. split; [by eapply list_elem_of_lookup_2|done]. }
  destruct (answer_vote _ _ _ _ _ Hans) as (data & md & -> & Hsec & Hoeq).
  { by apply ballot_checksum in Hb as [? _]. }
  assert (CalculateChecksum data = d_WinningChecksum (Resolve (votes_of answers) (len devices))) as Hsum.
  { rewrite Hoeq in Hb. revert Hb. unfold ballot. cbn. destruct (MetadataDeleted md); [|by intros [= ->]].
    intros [= Hx]. by destruct Hc. }
  assert (∃ rd, g.2 !! o_DeviceID o = Some rd ∧ rd_data rd = data) as (rd & Hl & Hrd).
  { destruct (Hg2 _ _ Hin) as [rd Hl]. exists rd. split; [done|]. destruct (Hg3 _ _ Hl) as (o' & Hin' & Hid').
    assert (o' = o) as ->.
    { eapply (NoDup_fmap_inj_on o_DeviceID); [exact Hdist|apply votes_of_elem; by eexists..|done]. }
    apply list_elem_of_lookup in Hin' as [i Hi]. destruct (Forall2_lookup_r _ _ _ _ _ Ha Hi) as (d' & _ & Hans').
    destruct (answer_vote _ _ _ _ _ Hans') as (data' & md' & [= ->] & Hsec' & Ho').
    { by apply ballot_checksum in Hb as [? _]. }
    cbn. rewrite Ho' in Hoeq. injection Hoeq as Hserial. rewrite <-Hserial in Hsec. congruence. }
  exists rd. rewrite <-Hid. split; [done|]. rewrite Hrd.
  exists devices, answers, o, md. rewrite Hsum. split_and!; [done|done|done| |done|].
  - by rewrite (answer_serial _ _ _ _ _ Hans).
  - intros o' Ho' Hb'. rewrite Hid. by apply Hleast.
Qed.

Lemma quiet_delivered s data out w w1 w' : quiet w w1 → delivered s data out w1 w' → delivered s data out w w'.
Proof. intros [Hs _]. unfold delivered. by rewrite Hs. Qed.

Lemma reconcile_live_spec s w out w' :
  reconcile_live k am time_Now SetControllerReference trigger_Get r s w = (out, w') →
  own_only (key_of s) (hs_ns s, secret_name s) w w' ∧ unchanged w w' ∧
  (told_apart w →
   (objects w' = objects w ∧ nothing_chosen w (hs_name s)) ∨
   ∃ data, chosen_copy w (hs_name s) data ∧ delivered s data out w w').
Proof.
  unfold reconcile_live. unfold st_bind at 1. destruct (GetAvailableDevices am (OperatorNamespace r) w) as [d w1] eqn:E1.
  pose proof (preserves_at quiet _ _ _ _ (apart_devices _) E1) as Q1.
  assert (∀ w2 out, quiet w w2 → (told_apart w → nothing_chosen w (hs_name s)) → st_ret (W := W) out w2 = (out, w') →
    own_only (key_of s) (hs_ns s, secret_name s) w w' ∧ unchanged w w' ∧
    (told_apart w → (objects w' = objects w ∧ nothing_chosen w (hs_name s)) ∨
     ∃ data, chosen_copy w (hs_name s) data ∧ delivered s data out w w')) as Hquiet.
  { intros w2 o [Hs Hu] Hno [= <-]. split; [by apply own_only_same|]. split; [done|]. left. by split; [|apply Hno]. }
  destruct d as [devices|e].
  2:{ intros E; injection E as <- E; eapply Hquiet; [exact Q1| |by rewrite E]. intros _. left. by exists w, e, w1. }
  case_bool_decide as Hd.
  { intros E; injection E as <- E; eapply Hquiet; [exact Q1| |by rewrite E]. intros _. right. exists [], [].
    split; [|by left]. subst devices. split; [by exists w, w1|constructor]. }
  unfold st_bind at 1. destruct (gatherSecretObservations am devices (hs_name s) w1) as [g w2] eqn:E2.
  apply gatherSecretObservations_spec in E2 as (Q2 & answers & Ha & Hg). assert (quiet w w2) as Q by by etrans.
  assert (survey w (hs_name s) devices answers) as Hs.
  { split; [by exists w, w1|]. eapply Forall2_impl; [exact Ha|]. intros d a. by apply answer_quiet. }
  pose proof (λ Ht, survey_decides w (hs_name s) devices answers g Hs Ht Hg) as Hdec.
  destruct g as [observations reads]. cbn [fst snd] in *. set (decision := Resolve observations (len devices)) in *.
  destruct (negb (d_Found decision) || d_Deleted decision) eqn:Ef.
  { intros E; injection E as <- E; eapply Hquiet; [exact Q|done|by rewrite E]. }
  destruct (reads !! d_WinningDeviceID decision) as [winner|] eqn:Ew.
  2:{ intros E; injection E as <- E; eapply Hquiet; [exact Q| |by rewrite E]. intros Ht. by destruct (Hdec Ht) as (? & ? & _). }
  unfold st_bind. destruct ((if d_Diverged decision then triggerMirror trigger_Get r "controller_divergence" (hs_name s) true else st_ret ()) w2) as [[] w3] eqn:E3.
  assert (quiet w w3) as Q3.
  { etrans; [exact Q|]. destruct (d_Diverged decision); [exact (preserves_at quiet _ _ _ _ (apart_trigger _ _ _) E3)|by injection E3 as <-]. }
  intros (O & U & D)%reconcileSecret_spec. pose proof Q3 as [S3 U3].
  split; [etrans; [by apply own_only_same|exact O]|]. split; [by etrans|]. intros Ht. right. exists (rd_data winner).
  split; [|by apply (quiet_delivered _ _ _ w w3)]. by destruct (Hdec Ht) as (rd & [= <-] & ?).
Qed.

Lemma hs_written_own key P se w w' : hs_written key P w w' → own_only key se w w' ∧ unchanged w w' ∧
  o_Secrets (objects w') = o_Secrets (objects w).
Proof. intros (T & U & _). split_and!; [by apply own_only_hs|done|by eapply touches_hs_secrets]. Qed.

Lemma reconcileDelete_spec s w e w' :
  reconcileDelete k s w = (e, w') →
  own_only (key_of s) (hs_ns s, secret_name s) w w' ∧ unchanged w w' ∧
  (ContainsFinalizer (hs_meta s) HSMSecretFinalizer = true → e = None →
   (is_Some (o_Secrets (objects w) !! (hs_ns s, secret_name s)) → is_Ok (api_Get (Secrets k) (hs_ns s) (secret_name s) w).1 = true) →
   (match o_Secrets (objects w') !! (hs_ns s, secret_name s) with
    | Some se => om_DeletionTimestamp (se_meta se) ≠ None | None => True end) ∧
   match o_HSMSecrets (objects w') !! key_of s with
   | Some s' => ContainsFinalizer (hs_meta s') HSMSecretFinalizer = false | None => True end).
Proof.
  unfold reconcileDelete. destruct (ContainsFinalizer (hs_meta s) HSMSecretFinalizer); [|intros [= <- <-]; by split_and!].
  unfold st_bind. destruct (api_Get (Secrets k) (hs_ns s) (secret_name s) w) as [g w1] eqn:Eg.
  pose proof (preserves_at unchanged _ _ _ _ (apart_get_secret _ _) Eg) as U1. pose proof Eg as [S1 Hg]%api_Get_law.
  set (key := (hs_ns s, secret_name s)) in *.
  destruct (match g with Ok k8sSecret => api_Delete (Secrets k) k8sSecret | Err _ => st_ret (Ok ()) end w1) as [d w2] eqn:Ed.
  assert (touches (T := Secret) (λ key', key' = key) w w2 ∧ unchanged w w2 ∧
    (d = Ok () → is_Ok g = true ∨ o_Secrets (objects w) !! key = None →
     match o_Secrets (objects w2) !! key with Some se => om_DeletionTimestamp (se_meta se) ≠ None | None => True end)) as (T2 & U2 & Hse).
  { destruct g as [se|e'].
    - destruct Hg as [Hl Hk]. pose proof (preserves_at unchanged _ _ _ _ (apart_delete_secret _) Ed) as U2.
      pose proof Ed as Ht. apply (Delete_touches _ (λ key', key' = key)) in Ht; [|done].
      split; [etrans; [by apply touches_refl|exact Ht]|]. split; [by etrans|]. intros -> _. apply api_Delete_law in Ed.
      destruct Ed as [Hw|(t' & _ & Hd & Hw)]; apply wrote_get in Hw; cbn [k_get Secret_kind] in Hw; rewrite Hw, Hk.
      + by rewrite lookup_delete_eq.
      + by rewrite lookup_insert_eq.
    - injection Ed as <- <-. split; [by apply touches_refl|]. split; [done|]. intros _ [?|Hn]; [done|]. by rewrite S1, Hn. }
  pose proof (own_only_se (key_of s) _ _ _ T2) as O2.
  destruct d as [[]|err]; [|intros [= <- <-]; by split_and!].
  set (s1 := with_meta (RemoveFinalizer HSMSecretFinalizer) s). unfold updateWithRetry.
  destruct (update_attempts k 3 s1 w2) as [u w3] eqn:Eu. apply update_attempts_spec in Eu as [Hw Hok].
  change (key_of s1) with (key_of s) in Hw, Hok. apply (hs_written_own _ _ key) in Hw as (O3 & U3 & S3).
  unfold st_ret. intros E. assert (w' = w3 ∧ (e = None → u = Ok ())) as [-> Hu] by (destruct u as [[]|]; by injection E as <- <-).
  split; [by etrans|]. split; [by etrans|]. intros _ Hn Hresp. split.
  - rewrite S3. apply Hse; [done|]. destruct (o_Secrets (objects w) !! key) as [se|] eqn:El; [left|by right].
    apply Hresp. by exists se.
  - destruct (Hok (Hu Hn)) as [->|Hf]; [done|]. unfold has_finalizers in Hf.
    destruct (o_HSMSecrets (objects w3) !! key_of s) as [s'|]; [|done]. unfold ContainsFinalizer. rewrite Hf.
    apply bool_decide_eq_false. cbn. intros Hin%list_elem_of_filter. by destruct Hin.
Qed.

Lemma Reconcile_cases ns name w out w' :
  reconcile ns name w = (out, w') →
  objects w' = objects w ∧ unchanged w w' ∨
  ∃ s w1, o_HSMSecrets (objects w) !! (ns, name) = Some s ∧ key_of s = (ns, name) ∧ shouldHandleSecret r s = true ∧ quiet w w1 ∧
    ((om_DeletionTimestamp (hs_meta s) ≠ None ∧ ∃ e, reconcileDelete k s w1 = (e, w') ∧ out = (no_result, e)) ∨
     (om_DeletionTimestamp (hs_meta s) = None ∧ own_only (ns, name) (ns, secret_name s) w w' ∧ unchanged w w' ∧
      o_Secrets (objects w') = o_Secrets (objects w)) ∨
     (om_DeletionTimestamp (hs_meta s) = None ∧ ContainsFinalizer (hs_meta s) HSMSecretFinalizer = true ∧
      reconcile_live k am time_Now SetControllerReference trigger_Get r s w1 = (out, w'))).
Proof.
  unfold SecretController.Reconcile. unfold st_bind at 1. destruct (api_Get (HSMSecrets k) ns name w) as [g w1] eqn:Eg.
  pose proof (preserves_at unchanged _ _ _ _ (apart_get_hsmsecret _ _) Eg) as U1. apply api_Get_law in Eg as [S1 Hg].
  destruct g as [s|e]; [|intros [= _ <-]; by left]. destruct Hg as [Hl Hk].
  destruct (shouldHandleSecret r s) eqn:Eh; cbn [negb]; [|intros [= _ <-]; by left].
  intros E. right. exists s, w1. split_and!; [done|done|done|done|]. revert E.
  case_bool_decide as Hd; unfold st_bind, st_ret.
  - left. split; [done|]. destruct (reconcileDelete k s w1) as [e w2]. exists e. by injection E as <- <-.
  - destruct (ContainsFinalizer (hs_meta s) HSMSecretFinalizer) eqn:Ec; cbn [negb].
    + intros E. right. right. done.
    + set (s1 := with_meta (AddFinalizer HSMSecretFinalizer) s). unfold updateWithRetry.
      destruct (update_attempts k 3 s1 w1) as [u w2] eqn:Eu. apply update_attempts_spec in Eu as [Hw _].
      intros [= _ <-]. right. left. assert (key_of s1 = (ns, name)) as Hk1.
      { rewrite <-Hk. unfold s1, with_meta, AddFinalizer, key_of. cbn. by destruct (ContainsFinalizer _ _). }
      rewrite Hk1 in Hw. apply (hs_written_own _ _ (ns, secret_name s)) in Hw as (O & U & S). rewrite S1 in S.
      split_and!; [done|etrans; [by apply own_only_same|exact O]|by etrans|done].
Qed.

(** C21. A reconciliation changes no device, and of the cluster at most the HSMSecret it
    is about and the Secret that one names; and nothing at all when the HSMSecret does
    not name this operator as its parent. *)
Theorem Reconcile_confined ns name w out w' :
  reconcile ns name w = (out, w') →
  unchanged w w' ∧
  (objects w' = objects w ∨
   ∃ s, o_HSMSecrets (objects w) !! (ns, name) = Some s ∧ shouldHandleSecret r s = true ∧
        own_only (ns, name) (ns, secret_name s) w w').
Proof.
  intros [[? ?]|(s & w1 & Hl & Hk & Hh & [S1 U1] & Hc)]%Reconcile_cases; [by split; [|left]|].
  assert (hs_ns s = ns) as Hns by (by injection Hk).
  assert (own_only (ns, name) (ns, secret_name s) w w' ∧ unchanged w w') as [? ?]; [|split; [done|right; by exists s]].
  destruct Hc as [(_ & e & E & _)|[(_ & O & U & _)|(_ & _ & E)]]; [|done|].
  - apply reconcileDelete_spec in E as (O & U & _). rewrite Hk, Hns in O.
    split; [etrans; [by apply own_only_same|exact O]|by etrans].
  - apply reconcile_live_spec in E as (O & U & _). rewrite Hk, Hns in O.
    split; [etrans; [by apply own_only_same|exact O]|by etrans].
Qed.

(** C20. What a live HSMSecret of this operator, once it has its finalizer, does to the
    Kubernetes Secret, if the devices listed have distinct serial numbers.  Either
    nothing, because the HSMSecret or the devices could not be read, no device votes
    for a copy, or the policy says that the secret is deleted; or it gets exactly the
    copy that the policy makes authoritative among the answers of the devices the
    agent manager lists, as the first of the devices that vote for it holds it; and
    when the reconciliation then reports no error the Secret holds it and the status
    says so. *)
Theorem Reconcile_delivers ns name w out w' s :
  reconcile ns name w = (out, w') → told_apart w →
  o_HSMSecrets (objects w) !! (ns, name) = Some s → om_DeletionTimestamp (hs_meta s) = None →
  shouldHandleSecret r s = true → ContainsFinalizer (hs_meta s) HSMSecretFinalizer = true →
  (objects w' = objects w ∧
    (is_Ok (api_Get (HSMSecrets k) ns name w).1 = false ∨ nothing_chosen w name)) ∨
  ∃ data, chosen_copy w name data ∧ delivered s data out w w'.
Proof.
  intros E Ht Hs Hd Hh Hf. revert E. unfold SecretController.Reconcile. unfold st_bind at 1.
  destruct (api_Get (HSMSecrets k) ns name w) as [g w1] eqn:Eg.
  pose proof (preserves_at unchanged _ _ _ _ (apart_get_hsmsecret _ _) Eg) as U1. apply api_Get_law in Eg as [S1 Hg].
  destruct g as [s'|e]; [|intros [= _ <-]; left; split; [done|by left]].
  destruct Hg as [Hl Hk]. cbn [k_get HSMSecret_kind] in Hl. assert (s' = s) as -> by congruence.
  assert (quiet w w1) as Q1 by done. assert (hs_name s = name) as Hn by (by injection Hk).
  rewrite Hh, (bool_decide_eq_false_2 (om_DeletionTimestamp (hs_meta s) ≠ None)), Hf by (by rewrite Hd; intros []).
  cbn [negb]. intros (_ & _ & Hcase)%reconcile_live_spec. rewrite Hn in Hcase.
  destruct (Hcase (told_apart_quiet _ _ Q1 Ht)) as [[E Hno]|(data & Hc & Hdel)].
  - left. split; [by rewrite E, S1|]. right. by apply (nothing_chosen_quiet w w1).
  - right. exists data. split; [by apply (chosen_copy_quiet w w1)|by apply (quiet_delivered _ _ _ w w1)].
Qed.

(** The deletion of an HSMSecret of this operator that still has its finalizer, when it
    reports no error and the API can read the Secret, leaves the Secret deleted (or being
    deleted) and the HSMSecret without the finalizer. *)
Theorem Reconcile_deletes ns name w out w' s :
  reconcile ns name w = (out, w') →
  o_HSMSecrets (objects w) !! (ns, name) = Some s → om_DeletionTimestamp (hs_meta s) ≠ None →
  shouldHandleSecret r s = true → ContainsFinalizer (hs_meta s) HSMSecretFinalizer = true → out.2 = None →
  (∀ w1, objects w1 = objects w → is_Some (o_Secrets (objects w) !! (ns, secret_name s)) →
     is_Ok (api_Get (Secrets k) ns (secret_name s) w1).1 = true) →
  is_Ok (api_Get (HSMSecrets k) ns name w).1 = true →
  (match o_Secrets (objects w') !! (ns, secret_name s) with
   | Some se => om_DeletionTimestamp (se_meta se) ≠ None | None => True end) ∧
  match o_HSMSecrets (objects w') !! (ns, name) with
  | Some s' => ContainsFinalizer (hs_meta s') HSMSecretFinalizer = false | None => True end.
Proof.
  intros E Hs Hd Hh Hf Hn Hr1 Hok. revert E. unfold SecretController.Reconcile. unfold st_bind at 1.
  destruct (api_Get (HSMSecrets k) ns name w) as [[s'|e] w1] eqn:Eg; [|done].
  apply api_Get_law in Eg as [S1 [Hl Hk]]. cbn [k_get HSMSecret_kind] in Hl. assert (s' = s) as -> by congruence.
  assert (hs_ns s = ns) as Hns by (by injection Hk).
  rewrite Hh. cbn [negb]. rewrite (bool_decide_eq_true_2 _ Hd). unfold st_bind, st_ret.
  destruct (reconcileDelete k s w1) as [e w2] eqn:Ed. intros [= <- <-]. apply reconcileDelete_spec in Ed as (_ & _ & Hdel).
  rewrite Hns, Hk in Hdel. apply Hdel; [done|done|]. intros Hse. apply Hr1; [done|]. by rewrite <-S1.
Qed.
End Spec.

(** ** Witness: two mock devices beside an in-memory cluster, and a secret only one holds *)
Module SecretWitness.
Import Mirror.MirrorWitness.
#[local] Existing Instance listed_order.
Definition World : Type := Objects * Fleet.
Definition k : KubeClient World := kube_beside Mem.kube.
Definition manager : AgentManagerInterface World :=
  mkAgentManager World
    (λ d x, (match x.2 !! dd_SerialNumber d with
             | Some _ => Ok (beside (keep_open (mock_of (dd_SerialNumber d))))
             | None => Err (errorf "no agent pod found")
             end, x))
    (λ _ x, (Ok devices, x)).
Definition now : ST World Z := st_ret (1000 * Second).
Definition owner (m m' : ObjectMeta) : result (list OwnerReference) := Ok [mkOwnerRef "" "HSMSecret" (om_Name m) (om_UID m) true].
Definition no_trigger : ST World (option (MirrorTrigger World)) := st_ret None.
Definition r : HSMSecretReconciler World := mkSecretReconciler "hsm" "operator" zero_time None.
Definition hsmsecret (deleting : option Time) : HSMSecret :=
  mkHSMSecret (mkObjectMeta "app" "team" "" 1 ∅ ∅ [HSMSecretFinalizer] deleting [] (mkTime 0 0) 1)
    (mkHSMSecretSpec (Some (mkParentReference "operator" None None None)) "" true "" 0)
    (mkHSMSecretStatus None "" "" "" "" [] None [] "" false).
Definition w1 (deleting : option Time) (secrets : Table Secret) : World :=
  (mkObjects ∅ ∅ {[("team", "app") := hsmsecret deleting]} ∅ ∅ ∅ secrets, w0).

Lemma beside_quiet s name : reads_quietly (beside (keep_open (mock_of s)) : Client World) name.
Proof.
  unfold reads_quietly, beside, lift_client. cbn [c_ListSecrets c_ReadSecret c_ReadMetadata c_Close].
  split_and!; intros x; by rewrite lift_beside.
Qed.

Lemma on_fst_unchanged {A} (m : ST Objects A) : preserves (unchanged (W := World)) (on_fst m).
Proof. intros x s p. unfold on_fst, lift_st. by destruct (m x.1). Qed.

#[local] Instance apart : Apart k manager now no_trigger r.
Proof.
  split; try (intros; apply on_fst_unchanged); try (by intros; intros x; split).
  intros d w c name. cbn. destruct (w.2 !! dd_SerialNumber d); [|done]. intros [= <-].
  split; [apply beside_laws, keep_open_laws, mock_laws|apply beside_quiet].
Qed.

Definition reconciled (w : World) : Outcome * World :=
  SecretController.Reconcile k manager now owner no_trigger r "team" "app" w.

Lemma witness_told_apart w : told_apart manager r w.
Proof. intros x y ds _ [= <- _]. split; decide_goal. Qed.

Example Reconcile_delivers_witness :
  ∃ data, chosen_copy manager r (w1 None ∅) "app" data ∧
    delivered (hsmsecret None) data (reconciled (w1 None ∅)).1 (w1 None ∅) (reconciled (w1 None ∅)).2.
Proof.
  destruct (Reconcile_delivers k manager now owner no_trigger r "team" "app" (w1 None ∅) (reconciled (w1 None ∅)).1
    (reconciled (w1 None ∅)).2 (hsmsecret None) (surjective_pairing _) (witness_told_apart _)) as [[E _]|?];
    [done|done|vm_compute; reflexivity|vm_compute; reflexivity| |done].
  exfalso. assert (size (o_Secrets (objects (reconciled (w1 None ∅)).2)) = 0%nat) as Hs by (rewrite E; done).
  revert Hs. vm_compute. discriminate.
Defined.

Example Reconcile_confined_witness :
  unchanged (w1 None ∅) (reconciled (w1 None ∅)).2.
Proof.
  exact (proj1 (Reconcile_confined k manager now owner no_trigger r "team" "app" (w1 None ∅) (reconciled (w1 None ∅)).1
    (reconciled (w1 None ∅)).2 (surjective_pairing _))).
Defined.

Definition existing : Secret :=
  mkSecret (mkObjectMeta "app" "team" "" 1 ∅ ∅ [] None [] (mkTime 0 0) 0) "Opaque" {["key" := "value"]}.
Definition w2 : World := w1 (Some (mkTime 5 0)) {[("team", "app") := existing]}.

Example Reconcile_deletes_witness :
  match o_Secrets (objects (reconciled w2).2) !! ("team", "app") with
  | Some se => om_DeletionTimestamp (se_meta se) ≠ None | None => True end.
Proof.
  refine (proj1 (Reconcile_deletes k manager now owner no_trigger r "team" "app" w2 (reconciled w2).1 (reconciled w2).2
    (hsmsecret (Some (mkTime 5 0))) (surjective_pairing _) eq_refl _ eq_refl _ _ _ _)).
  - done.
  - vm_compute. reflexivity.
  - vm_compute. reflexivity.
  - intros w E _. cbn. unfold on_fst, lift_st. cbn. assert (w.1 = w2.1) as -> by exact E. vm_compute. reflexivity.
  - vm_compute. reflexivity.
Defined.
End SecretWitness.
