(* ===== verification/Auth.v ===== *)
(** * internal/security/api_auth.go: tokens of the REST API

    A Kubernetes service account token is exchanged for a JWT signed with the server's
    secret; the middleware asks for one.  TokenReviews, service accounts, the JWT
    library and the clock are arguments; an [AuthReply] is what [c.JSON] sends. *)

From Stdlib Require Import Ascii.
From S2P Require Import Prelude GoStd.

Local Open Scope go_scope.

(** 30 minutes, in seconds as the claims have it. *)
(* [internal/security/api_auth.go:37-37] *)
Definition TokenValidityPeriod : Z := 30 * 60.
(* [internal/security/api_auth.go:39-39] *)
Definition JWTSecretSize : Z := 32.
(* [internal/security/api_auth.go:41-41] *)
Definition TokenHeader : string := "Authorization".
(* [internal/security/api_auth.go:43-43] *)
Definition BearerPrefix : string := "Bearer ".

(** The embedded [jwt.RegisteredClaims], dates in seconds. *)
(* [internal/security/api_auth.go:56-60] *)
Record Claims := mkClaims {
  cl_ServiceAccount : string;
  cl_Namespace : string;
  cl_ExpiresAt : Z;
  cl_IssuedAt : Z;
  cl_NotBefore : Z;
  cl_Issuer : string;
  cl_Subject : string;
}.

(** What the JSON encoding keeps: [ServiceAccount] and the embedded [Subject] have the
    same name [sub], and the field of the lesser depth wins. *)
Definition json_Claims (c : Claims) : Claims :=
  mkClaims (cl_ServiceAccount c) (cl_Namespace c) (cl_ExpiresAt c) (cl_IssuedAt c) (cl_NotBefore c) (cl_Issuer c) "".

(** The method in a token's header. *)
Inductive SigningMethod :=
  | SigningMethodHMAC (alg : string)
  | SigningMethodOther (alg : string).
Definition SigningMethodHS256 : SigningMethod := SigningMethodHMAC "HS256".

(** github.com/golang-jwt/jwt: signing with HS256, and parsing with a function that
    chooses the key; the second component of its result is [token.Valid]. *)
Record JWT (W : Type) := mkJWT {
  SignedString : Claims → string → result string;
  ParseWithClaims : string → (SigningMethod → result string) → ST W (result (Claims * bool));
}.
Arguments mkJWT {W}.
Arguments SignedString {W}.
Arguments ParseWithClaims {W}.

(** The status of a TokenReview, and the parts of the API it is sent to. *)
Record TokenReviewStatus := mkReview {
  tr_Authenticated : bool;
  tr_Error : string;
  tr_Username : string;
  tr_UID : string;
  tr_Groups : list string;
}.
Record AuthApi (W : Type) := mkAuthApi {
  TokenReviews_Create : string → ST W (result TokenReviewStatus);
  ServiceAccounts_Get : string → string → ST W (result unit);
}.
Arguments mkAuthApi {W}.
Arguments TokenReviews_Create {W}.
Arguments ServiceAccounts_Get {W}.

(* [internal/security/api_auth.go:63-67] *)
Record APIAuthenticator := mkAuthenticator { jwtSecret : string }.
(** [rand] is what [rand.Read] leaves in the secret. *)
(* [internal/security/api_auth.go:70-82] *)
Definition NewAPIAuthenticator (rand : result string) : result APIAuthenticator :=
  match rand with
  | Err err => Err (wrapf "failed to generate JWT secret" err)
  | Ok secret => Ok (mkAuthenticator secret)
  end.

(* [internal/security/api_auth.go:192-197] *)
Record ServiceAccountInfo := mkServiceAccountInfo {
  sa_ServiceAccount : string;
  sa_Namespace : string;
  sa_Groups : list string;
  sa_UID : string;
}.

(** A JSON error of the authenticator: its status code, code, message and details. *)
Record AuthReply := mkAuthReply {
  au_Status : Z;
  au_Code : string;
  au_Message : string;
  au_Details : list (string * string);
}.

(* [internal/security/api_auth.go:303-307] *)
Record TokenResponse := mkTokenResponse { tk_Token : string; tk_ExpiresAt : Z; tk_TokenType : string }.

(** The account of a user name system:serviceaccount:namespace:name. *)
(* [internal/security/api_auth.go:160-172 validateServiceAccountToken] *)
Definition service_account (status : TokenReviewStatus) : result ServiceAccountInfo :=
  match str_split ":"%char (tr_Username status) with
  | [system; kind; namespace; name] =>
      if bool_decide (system ≠ "system") || bool_decide (kind ≠ "serviceaccount")
      then Err (errorf ("token is not for a service account: " +:+ tr_Username status))
      else Ok (mkServiceAccountInfo name namespace (tr_Groups status) (tr_UID status))
  | _ => Err (errorf ("token is not for a service account: " +:+ tr_Username status))
  end.

(** The key for a token: only HMAC methods are accepted. *)
(* [internal/security/api_auth.go:123-129 ValidateToken] *)
Definition token_key (a : APIAuthenticator) (method : SigningMethod) : result string :=
  match method with
  | SigningMethodHMAC _ => Ok (jwtSecret a)
  | SigningMethodOther alg => Err (errorf ("unexpected signing method: " +:+ alg))
  end.

(** The paths that need no token. *)
(* [internal/security/api_auth.go:204-220 AuthMiddleware] *)
Definition skips_auth (path : string) : bool :=
  has_suffix path "/health" || has_suffix path "/healthz" || has_suffix path "/auth/token" ||
  bool_decide (path = "/") || has_prefix path "/web/".

(** What the middleware decides: the request goes on, with the claims it stored in the
    context, or it is answered and aborted. *)
Inductive Verdict :=
  | Next (claims : option Claims)
  | Aborted (reply : AuthReply).

Definition Unauthorized (code message : string) (details : list (string * string)) : AuthReply := mkAuthReply 401 code message details.

Section Auth.
Context {W : Type} (k8s : AuthApi W) (jwt : JWT W) (time_Now : ST W Time).

(* [internal/security/api_auth.go:143-173] *)
Definition validateServiceAccountToken (token : string) : ST W (result ServiceAccountInfo) :=
  st_try (TokenReviews_Create k8s token) (wrapf "failed to review token") (λ status,
    if negb (tr_Authenticated status) then st_ret (Err (errorf ("token authentication failed: " +:+ tr_Error status)))
    else st_ret (service_account status)).

(* [internal/security/api_auth.go:176-189] *)
Definition validateHSMPermissions (serviceAccount namespace : string) : ST W (result unit) :=
  st_try (ServiceAccounts_Get k8s namespace serviceAccount) (wrapf "service account not found") (λ _, st_ret (Ok ())).

(* [internal/security/api_auth.go:85-119] *)
Definition GenerateToken (a : APIAuthenticator) (k8sToken : string) : ST W (result string) :=
  st_try (validateServiceAccountToken k8sToken) (wrapf "invalid service account token") (λ saInfo,
  st_try (validateHSMPermissions (sa_ServiceAccount saInfo) (sa_Namespace saInfo))
    (wrapf "service account lacks HSM permissions") (λ _,
  let* expires := time_Now in
  let* issued := time_Now in
  let* notBefore := time_Now in
  let claims := mkClaims (sa_ServiceAccount saInfo) (sa_Namespace saInfo) (t_unix expires + TokenValidityPeriod)
    (t_unix issued) (t_unix notBefore) "hsm-secrets-operator" (sa_ServiceAccount saInfo +:+ "." +:+ sa_Namespace saInfo) in
  st_ret (match SignedString jwt claims (jwtSecret a) with
          | Err err => Err (wrapf "failed to sign token" err)
          | Ok tokenString => Ok tokenString
          end))).

(* [internal/security/api_auth.go:122-140] *)
Definition ValidateToken (a : APIAuthenticator) (tokenString : string) : ST W (result Claims) :=
  st_try (ParseWithClaims jwt tokenString (token_key a)) (wrapf "failed to parse token") (λ '(claims, valid),
    st_ret (if (valid : bool) then Ok claims else Err (errorf "invalid token claims"))).

(** The path of the request and its authorization header, empty if it has none. *)
(* [internal/security/api_auth.go:200-284] *)
Definition AuthMiddleware (a : APIAuthenticator) (path authHeader : string) : ST W Verdict :=
  if skips_auth path then st_ret (Next None)
  else if bool_decide (authHeader = "")
  then st_ret (Aborted (Unauthorized "MISSING_AUTH_HEADER" "missing authorization header" []))
  else if negb (has_prefix authHeader BearerPrefix)
  then st_ret (Aborted (Unauthorized "INVALID_AUTH_FORMAT" "invalid authorization header format, expected 'Bearer <token>'" []))
  else
    let* r := ValidateToken a (trim_prefix authHeader BearerPrefix) in
    st_ret (match r with
            | Err _ => Aborted (Unauthorized "INVALID_TOKEN" "authentication token is invalid or expired"
                         [("hint", "token may have expired, try clearing cache with: kubectl hsm auth clear")])
            | Ok claims => Next (Some claims)
            end).

(** The claims the middleware stored. *)
(* [internal/security/api_auth.go:287-295] *)
Definition GetClaimsFromContext (v : Verdict) : option Claims := match v with Next claims => claims | Aborted _ => None end.

(** [req] is what gin bound from the body. *)
(* [internal/security/api_auth.go:310-353] *)
Definition HandleTokenGeneration (a : APIAuthenticator) (req : result string) : ST W (AuthReply + TokenResponse) :=
  match req with
  | Err err => st_ret (inl (mkAuthReply 400 "INVALID_REQUEST" "invalid request body" [("error", error_string err)]))
  | Ok k8sToken =>
      let* r := GenerateToken a k8sToken in
      match r with
      | Err err => st_ret (inl (Unauthorized "TOKEN_GENERATION_FAILED" "failed to generate authentication token"
                                  [("error", error_string err)]))
      | Ok token => let* now := time_Now in st_ret (inr (mkTokenResponse token (t_unix now + TokenValidityPeriod) "Bearer"))
      end
  end.
End Auth.

(** ** What the authenticator guarantees *)

(** Signatures of a JWT library: [verifies m key t c], the token [t] has claims [c] and
    a signature by the method [m] under [key]. *)
Class JWTLaws {W} (jwt : JWT W) (clock : W → Z) (verifies : SigningMethod → string → string → Claims → Prop) : Prop := {
  SignedString_law c key t : SignedString jwt c key = Ok t → verifies SigningMethodHS256 key t (json_Claims c);
  ParseWithClaims_law t keyfunc w c w' : ParseWithClaims jwt t keyfunc w = (Ok (c, true), w') →
    ∃ m key, keyfunc m = Ok key ∧ verifies m key t c ∧ cl_NotBefore c ≤ clock w < cl_ExpiresAt c;
  ParseWithClaims_accepts t keyfunc w m key c : keyfunc m = Ok key → verifies m key t c →
    cl_NotBefore c ≤ clock w < cl_ExpiresAt c → (ParseWithClaims jwt t keyfunc w).1 = Ok (c, true);
}.

Section Tokens.
Context {W : Type} (k8s : AuthApi W) (jwt : JWT W) (time_Now : ST W Time).
Context (clock : W → Z) (verifies : SigningMethod → string → string → Claims → Prop) `{!JWTLaws jwt clock verifies}.

Lemma ValidateToken_run a t w : ∃ r w', ParseWithClaims jwt t (token_key a) w = (r, w') ∧
  ValidateToken jwt a t w = (match r with
                             | Ok (c, true) => Ok c
                             | Ok (_, false) => Err (errorf "invalid token claims")
                             | Err e => Err (wrapf "failed to parse token" e)
                             end, w').
Proof.
  unfold ValidateToken, st_try, st_bind. destruct (ParseWithClaims jwt t (token_key a) w) as [[[c []]|e] w']; by do 2 eexists.
Qed.

(** A token is accepted exactly when it is signed with an HMAC method under the
    server's secret (so neither unsigned, nor signed with a public key method), and the
    time is within its validity. *)
Theorem ValidateToken_spec a t w c :
  (ValidateToken jwt a t w).1 = Ok c ↔
  (∃ alg, verifies (SigningMethodHMAC alg) (jwtSecret a) t c) ∧ cl_NotBefore c ≤ clock w < cl_ExpiresAt c.
Proof.
  destruct (ValidateToken_run a t w) as (r & w' & E & ->). split.
  - destruct r as [[c' []]|e]; [|done|done]. intros [= ->].
    apply ParseWithClaims_law in E as ([alg|alg] & key & [= <-] & Hv & Ht). split; [by exists alg|done].
  - intros [[alg Hv] Ht]. pose proof (ParseWithClaims_accepts t (token_key a) w (SigningMethodHMAC alg) _ c eq_refl Hv Ht) as Ha.
    rewrite E in Ha. simpl in Ha. by subst r.
Qed.

(** C29. A token is issued only for a Kubernetes token that a TokenReview authenticates as
    an existing service account, and for the next 30 minutes it is accepted and names
    that account. *)
Theorem GenerateToken_accepted a k8sToken w token w' :
  (∀ w, t_unix (time_Now w).1 = clock w ∧ clock w ≤ clock (time_Now w).2) →
  GenerateToken k8s jwt time_Now a k8sToken w = (Ok token, w') →
  ∃ status w1 sa w2 c,
    TokenReviews_Create k8s k8sToken w = (Ok status, w1) ∧ tr_Authenticated status = true ∧
    service_account status = Ok sa ∧ ServiceAccounts_Get k8s (sa_Namespace sa) (sa_ServiceAccount sa) w1 = (Ok (), w2) ∧
    cl_ServiceAccount c = sa_ServiceAccount sa ∧ cl_Namespace c = sa_Namespace sa ∧
    ∀ v, clock w' ≤ clock v < clock w2 + TokenValidityPeriod → (ValidateToken jwt a token v).1 = Ok c.
Proof.
  intros Htime. unfold GenerateToken, validateServiceAccountToken, validateHSMPermissions, st_try.
  unfold st_bind at 1. unfold st_bind at 1. destruct (TokenReviews_Create k8s k8sToken w) as [[status|e] w1] eqn:Er; [|done].
  destruct (tr_Authenticated status) eqn:Ea; [|done]. cbn [negb st_ret].
  destruct (service_account status) as [sa|e] eqn:Es; [|done].
  unfold st_bind at 1. unfold st_bind at 1. destruct (ServiceAccounts_Get k8s _ _ w1) as [[[]|e] w2] eqn:Eg; [|done]. cbn [st_ret].
  unfold st_bind at 1. destruct (Htime w2) as [T2 L2]. destruct (time_Now w2) as [t2 w3].
  unfold st_bind at 1. destruct (Htime w3) as [T3 L3]. destruct (time_Now w3) as [t3 w4].
  unfold st_bind at 1. destruct (Htime w4) as [T4 L4]. destruct (time_Now w4) as [t4 w5]. cbn [fst snd] in *.
  destruct (SignedString jwt _ _) as [t|e] eqn:Et; [|done]. intros [= <- <-]. apply SignedString_law in Et.
  eexists status, w1, sa, w2, _. do 4 (split; [done|]). split; [|split; [|intros v Hv]].
  3:{ destruct (ValidateToken_run a t v) as (r & v' & E & ->).
      eassert (Ha : (ParseWithClaims jwt t (token_key a) v).1 = Ok (_, true)).
      { refine (ParseWithClaims_accepts t (token_key a) v SigningMethodHS256 _ _ eq_refl Et _). simpl. lia. }
      rewrite E in Ha. simpl in Ha. by subst r. }
  all: done.
Qed.
End Tokens.

(** ** A library whose tokens are lists of fields, for witnesses *)
Module AuthWitness.
(** The world is the time in seconds. *)
Definition clock (w : Z) : Z := w.
Definition time_Now : ST Z Time := λ w, (mkTime w 0, w).
Definition sign (m : SigningMethod) (c : Claims) (key : string) : string :=
  str_join "." [match m with SigningMethodHMAC alg | SigningMethodOther alg => alg end; key; cl_ServiceAccount c; cl_Namespace c].
Definition the_claims : Claims := mkClaims "deployer" "prod" 2800 1000 1000 "hsm-secrets-operator" "".
Definition token : string := sign SigningMethodHS256 the_claims "secret".
(** It signs and accepts these claims only. *)
Definition jwt : JWT Z := mkJWT
  (λ c key, if bool_decide (key = "secret") && bool_decide (cl_ExpiresAt c = 2800) && bool_decide (cl_IssuedAt c = 1000) &&
               bool_decide (cl_NotBefore c = 1000) && bool_decide (cl_ServiceAccount c = "deployer") &&
               bool_decide (cl_Namespace c = "prod") && bool_decide (cl_Issuer c = "hsm-secrets-operator")
            then Ok token else Err (errorf "not known"))
  (λ t keyfunc w, (match keyfunc SigningMethodHS256 with
                   | Err e => Err e
                   | Ok key => if bool_decide (t = token) && bool_decide (key = "secret") && (1000 <=? w) && (w <? 2800)
                               then Ok (the_claims, true) else Err (errorf "token is invalid")
                   end, w)).
Definition verifies (m : SigningMethod) (key t : string) (c : Claims) : Prop :=
  m = SigningMethodHS256 ∧ key = "secret" ∧ t = token ∧ c = the_claims.
#[global] Instance jwt_laws : JWTLaws jwt clock verifies.
Proof.
  split.
  - intros [] key t. cbn. repeat (case_bool_decide; [|done]). cbn. intros [= <-]. subst. done.
  - intros t keyfunc w c w'. cbn. destruct (keyfunc SigningMethodHS256) as [key|e] eqn:E; [|done].
    destruct (_ && _) eqn:B; [|done]. intros [= <- _]. rewrite !andb_true_iff, !bool_decide_eq_true in B.
    destruct B as [[[-> ->] ?%Z.leb_le] ?%Z.ltb_lt]. exists SigningMethodHS256, "secret". done.
  - intros t keyfunc w m key c Hk (-> & -> & -> & ->) [H1 H2]. cbn. rewrite Hk, !bool_decide_true by done.
    cbn in *. unfold clock in *. by rewrite (proj2 (Z.leb_le _ _) H1), (proj2 (Z.ltb_lt _ _) H2).
Qed.

Definition k8s : AuthApi Z := mkAuthApi
  (λ t w, (Ok (mkReview (bool_decide (t = "k8s")) "" "system:serviceaccount:prod:deployer" "u1" []), w))
  (λ ns name w, (Ok (), w)).
Definition server : APIAuthenticator := mkAuthenticator "secret".

Example ValidateToken_spec_witness : (ValidateToken jwt server token 2799).1 = Ok the_claims ∧ clock 2799 < cl_ExpiresAt the_claims.
Proof.
  assert ((ValidateToken jwt server token 2799).1 = Ok the_claims) as E by (vm_compute; reflexivity).
  split; [exact E|]. apply (ValidateToken_spec jwt clock verifies server token 2799 the_claims). exact E.
Defined.

Example GenerateToken_accepted_witness :
  GenerateToken k8s jwt time_Now server "k8s" 1000 = (Ok token, 1000) ∧
  ∃ c, cl_ServiceAccount c = "deployer" ∧ ∀ v, 1000 ≤ v < 2800 → (ValidateToken jwt server token v).1 = Ok c.
Proof.
  assert (GenerateToken k8s jwt time_Now server "k8s" 1000 = (Ok token, 1000)) as E by (vm_compute; reflexivity).
  split; [exact E|].
  destruct (GenerateToken_accepted k8s jwt time_Now clock verifies server "k8s" 1000 token 1000)
    as (status & w1 & sa & w2 & c & Hr & _ & Hs & Hg & Ha & _ & Hv).
  - intros w. split; [reflexivity|apply Z.le_refl].
  - exact E.
  - exists c. injection Hr as <- <-. injection Hs as <-. injection Hg as <-. split; [exact Ha|exact Hv].
Defined.
End AuthWitness.
