(* ===== verification/Proxy.v ===== *)
(** * internal/api/proxy_client.go: the REST API over all devices

    A handler gets what gin parsed from the request as arguments and returns the
    response.  The proxy's state is its cache of gRPC clients; the goroutines of a
    request are a fan-out of [Parallel] under an arbitrary scheduler.  Logging and
    locks are not modelled. *)

From S2P Require Import Prelude GoStd Reconcile Hsm MockClient Api Mirror Parallel.

Local Open Scope go_scope.

(** ** Responses *)

(** [map[string]any{"success": b, "error": msg}] per device. *)
Definition DeviceResults : Type := gmap string (bool * string).

(* [internal/api/types.go:179-194] *)
Record HealthStatus := mkHealthStatus {
  he_Status : string;
  he_HSMConnected : bool;
  he_ReplicationEnabled : bool;
  he_ActiveNodes : Z;
  he_Timestamp : Time;
}.

(** The values the handlers put in [APIResponse.Data]. *)
Inductive Payload :=
  | HealthResponse (health : HealthStatus)
  | InfoResponse (fields : gmap string string)
  | MirrorSyncResponse (Triggered : bool) (Reason : string) (Force : bool) (Message : string)
  | GetInfoResponse (DeviceInfos : gmap string HSMInfo)
  | ListSecretsResponse (Secrets : list string) (Count : Z) (Prefix : string)
  | ReadSecretResponse (Path : string) (Data : SecretData) (Checksum : string) (DeviceCount : Z)
  | WriteSecretResponse (Path : string) (Keys : Z)
  | DeleteSecretResponse (Path : string) (Devices : Z) (Results : DeviceResults) (Warnings : list string)
  | DeleteKeyResponse (Path Key : string) (Devices : Z) (Results : DeviceResults) (Warnings : list string)
  | ReadMetadataResponse (Path : string) (Metadata : option SecretMetadata)
  | GetChecksumResponse (Path Checksum : string)
  | IsConnectedResponse (Devices : gmap string bool) (TotalDevices : Z)
  | ChangePINResponse (SuccessCount TotalCount : Z) (Errors : list string) (Message : string).

(** The values of [APIError.Details]. *)
Inductive Detail := DStr (s : string) | DStrs (l : list string) | DResults (r : DeviceResults).

(* [internal/api/types.go:167-176] *)
Record APIError := mkAPIError {
  ae_Code : string;
  ae_Message : string;
  ae_Details : list (string * Detail);
}.

(* [internal/api/types.go:152-164] *)
Record APIResponse := mkAPIResponse {
  ar_Success : bool;
  ar_Message : string;
  ar_Data : option Payload;
  ar_Error : option APIError;
}.

(** What [c.JSON] sends: the status code and the response. *)
Definition HTTP : Type := Z * APIResponse.

Definition StatusOK : Z := 200.
Definition StatusCreated : Z := 201.
Definition StatusPartialContent : Z := 206.
Definition StatusBadRequest : Z := 400.
Definition StatusNotFound : Z := 404.
Definition StatusInternalServerError : Z := 500.
Definition StatusServiceUnavailable : Z := 503.

(* [internal/api/server.go:200-207] *)
Definition sendResponse (statusCode : Z) (message : string) (data : Payload) : HTTP :=
  (statusCode, mkAPIResponse true message (Some data) None).
(* [internal/api/server.go:210-220] *)
Definition sendError (statusCode : Z) (code message : string) (details : list (string * Detail)) : HTTP :=
  (statusCode, mkAPIResponse false "" None (Some (mkAPIError code message details))).

(** ** Constants *)
(* [internal/api/constants.go:24-24] *)
Definition keyTrue : string := "true".
(* [internal/api/constants.go:25-25] *)
Definition keyError : string := "error".
(* [internal/api/constants.go:27-27] *)
Definition keyErrors : string := "errors".
(* [internal/api/constants.go:28-28] *)
Definition keyDeviceResults : string := "deviceResults".
(* [internal/api/constants.go:29-29] *)
Definition keyPath : string := "path".
(* [internal/api/constants.go:30-30] *)
Definition keyKey : string := "key".
(* [internal/api/constants.go:35-35] *)
Definition metaSyncDeleted : string := "sync.deleted".
(* [internal/api/constants.go:36-36] *)
Definition metaSyncTimestamp : string := "sync.timestamp".
(* [internal/api/constants.go:37-37] *)
Definition metaSyncVersion : string := "sync.version".

(** ** Results of one device *)
(* [internal/api/proxy_client.go:34-37] *)
Record WriteResult := mkWriteResult { wr_DeviceName : string; wr_Error : option error }.

(* [internal/api/proxy_client.go:40-44] *)
Record checksumResult := mkChecksumResult {
  cr_deviceName : string;
  cr_checksum : string;
  cr_err : option error;
}.

(* [internal/api/proxy_client.go:47-52] *)
Record secretResult := mkSecretAnswer {
  sr_deviceName : string;
  sr_data : SecretData;
  sr_metadata : option SecretMetadata;
  sr_err : option error;
}.

(* [internal/api/proxy_client.go:55-59] *)
Record metadataResult := mkMetadataResult {
  mr_deviceName : string;
  mr_metadata : option SecretMetadata;
  mr_err : option error;
}.

(** ** Reading metadata *)
(* [internal/api/proxy_client.go:80-101] *)
Definition parseTimestampFromMetadata (metadata : option SecretMetadata) : Z :=
  match md_label metadata metaSyncTimestamp ≫= parse_RFC3339 with
  | Some parsedTime => parsedTime
  | None =>
      match md_label metadata metaSyncVersion with
      | Some syncVersion => default 0 (scan_int64 syncVersion)
      | None => 0
      end
  end.

(* [internal/api/proxy_client.go:104-109] *)
Definition isSecretDeleted (metadata : option SecretMetadata) : bool :=
  bool_decide (default "" (md_label metadata metaSyncDeleted) = keyTrue).

(* [internal/api/proxy_client.go:112-123] *)
Definition parseVersionFromMetadata (metadata : option SecretMetadata) : Z :=
  match md_label metadata metaSyncVersion with
  | Some syncVersion => default 0 (scan_int64 syncVersion)
  | None => 0
  end.

(** ** Choosing among the answers *)
Definition len {A} (l : list A) : Z := Z.of_nat (length l).

(* [internal/api/proxy_client.go:146-178] *)
Definition findConsensusChecksum (results : list checksumResult) (deviceCount : Z) : result string :=
  if len results =? 0 then Err (errorf "checksum not found on any HSM device")
  else
    let obs := (λ r, mkObs (cr_deviceName r) true false (cr_checksum r) 0 0) <$> results in
    let decision := Resolve obs deviceCount in
    if negb (d_Found decision) then Err (errorf "checksum not found on any HSM device")
    else Ok (d_WinningChecksum decision).

Section Choose.
Context `{MapOrder}.

(* [internal/api/proxy_client.go:203-211 findMostRecentSecretResult] *)
Definition secret_observation (result : secretResult) : DeviceObservation :=
  let tombstone := isSecretDeleted (sr_metadata result) in
  mkObs (sr_deviceName result) (negb tombstone) tombstone (CalculateChecksum (sr_data result))
    (parseVersionFromMetadata (sr_metadata result)) (parseTimestampFromMetadata (sr_metadata result)).

(* [internal/api/proxy_client.go:192-227] *)
Definition findMostRecentSecretResult (results : list secretResult) (deviceCount : Z) : result SecretData :=
  if len results =? 0 then Err (errorf "secret not found on any HSM device")
  else
    let dataByDevice : gmap string SecretData :=
      fold_left (λ m r, <[sr_deviceName r := sr_data r]> m) results ∅ in
    let obs := secret_observation <$> results in
    let decision := Resolve obs deviceCount in
    if negb (d_Found decision) || d_Deleted decision
    then Err (errorf "secret not found on any HSM device")
    else Ok (default ∅ (dataByDevice !! d_WinningDeviceID decision)).
End Choose.

(* [internal/api/proxy_client.go:230-259] *)
Definition findMostRecentMetadataResult (results : list metadataResult) : result (option SecretMetadata) :=
  match results with
  | [] => Err (errorf "metadata not found on any HSM device")
  | first :: rest =>
      let '(bestResult, _) :=
        fold_left (λ '(bestResult, bestTimestamp) result,
          let timestamp := parseTimestampFromMetadata (mr_metadata result) in
          if bestTimestamp <? timestamp then (result, timestamp) else (bestResult, bestTimestamp))
          rest (first, parseTimestampFromMetadata (mr_metadata first)) in
      Ok (mr_metadata bestResult)
  end.

(** ** The proxy *)
Section Proxy.
Context {W : Type} `{MapOrder} `{Scheduler} (am : option (AgentManagerInterface W)) (time_Now : ST W Time).
Context (operatorNamespace : string).

(** The cache of clients, by serial number, and the world. *)
(* [internal/api/proxy_client.go:63-68] *)
Definition ProxyClient : Type := gmap string (Client W).
Definition PState : Type := ProxyClient * W.

Definition on_world {A} (m : ST W A) : ST PState A := λ v, let (a, w) := m v.2 in (a, (v.1, w)).
Definition get_cache : ST PState ProxyClient := λ v, (v.1, v).
Definition put_cache (c : ProxyClient) : ST PState unit := λ v, ((), (c, v.2)).

(* [internal/api/proxy_client.go:71-77] *)
Definition NewProxyClient : ProxyClient := ∅.

(* [internal/api/server.go:256-262] *)
Definition getAllAvailableAgents : ST W (result (list DiscoveredDevice)) :=
  match am with
  | None => st_ret (Err (errorf "agent manager not available"))
  | Some am => GetAvailableDevices am operatorNamespace
  end.

(* [internal/api/server.go:265-278] *)
Definition createGRPCClient (device : DiscoveredDevice) : ST W (result (Client W)) :=
  match am with
  | None => st_ret (Err (errorf "agent manager not available"))
  | Some am =>
      st_try (CreateGRPCClient am device)
        (wrapf ("failed to create gRPC client for node " +:+ dd_NodeName device)) (λ c, st_ret (Ok c))
  end.

(* [internal/api/proxy_client.go:129-141] *)
Definition nextVersion (clients : gmap string (Client W)) (path : string) : ST W Z :=
  let* maxVersion := st_fold (λ maxVersion '(_, grpcClient),
    let* r := c_ReadMetadata grpcClient path in
    st_ret match r with
           | Err _ => maxVersion
           | Ok metadata =>
               let v := parseVersionFromMetadata metadata in
               if maxVersion <? v then v else maxVersion
           end) (range clients) 0 in
  st_ret (to_int64 (maxVersion + 1)).

(* [internal/api/proxy_client.go:263-270] *)
Definition validatePathParam {A} (path : string) (k : ST A HTTP) : ST A HTTP :=
  if bool_decide (path = "")
  then st_ret (sendError StatusBadRequest "missing_path" "Secret path is required" [])
  else k.

(** The body of the loop over the available devices. *)
(* [internal/api/proxy_client.go:291-317 getAllAvailableGRPCClients] *)
Definition cached_client (clients : gmap string (Client W)) (device : DiscoveredDevice) :
    ST PState (gmap string (Client W)) :=
  let serial := dd_SerialNumber device in
  let* cache := get_cache in
  let* connected := match cache !! serial with
                    | Some client => on_world (c_IsConnected client)
                    | None => st_ret false
                    end in
  match cache !! serial with
  | Some client =>
      if connected : bool then st_ret (<[serial := client]> clients)
      else
        do! on_world (c_Close client) in
        do! put_cache (delete serial cache) in
        let* r := on_world (createGRPCClient device) in
        match r with
        | Err _ => st_ret clients
        | Ok grpcClient =>
            do! put_cache (<[serial := grpcClient]> (delete serial cache)) in
            st_ret (<[serial := grpcClient]> clients)
        end
  | None =>
      let* r := on_world (createGRPCClient device) in
      match r with
      | Err _ => st_ret clients
      | Ok grpcClient =>
          do! put_cache (<[serial := grpcClient]> cache) in
          st_ret (<[serial := grpcClient]> clients)
      end
  end.

(* [internal/api/proxy_client.go:274-325] *)
Definition getAllAvailableGRPCClients (k : gmap string (Client W) → ST PState HTTP) : ST PState HTTP :=
  let* r := on_world getAllAvailableAgents in
  match r with
  | Err err =>
      st_ret (sendError StatusServiceUnavailable "no_agents" "No HSM agents available"
        [(keyError, DStr (error_string err))])
  | Ok devices =>
      let* clients := st_fold cached_client devices ∅ in
      if bool_decide (clients = ∅)
      then st_ret (sendError StatusServiceUnavailable "no_agents" "No HSM agents available" [])
      else k clients
  end.

(** Start a goroutine per client, of at most [n] calls. *)
Definition for_all_clients {A} (n : nat) (clients : gmap string (Client W))
    (body : string → Client W → Proc W A) : ST W (list (string * A)) :=
  fan_out n ((λ kc, (kc.1, body kc.1 kc.2)) <$> range clients).

Definition num_clients (clients : gmap string (Client W)) : Z := Z.of_nat (size clients).

(** ** Reading *)
(* [internal/api/proxy_client.go:328-366] *)
Definition GetInfo : ST PState HTTP :=
  getAllAvailableGRPCClients (λ clients,
    let* results := on_world (for_all_clients 1 clients (λ _ c, go_then (c_GetInfo c) Done)) in
    let deviceInfos := fold_left (λ m '(deviceName, r),
      match r with Ok info => <[deviceName := info]> m | Err _ => m end) results ∅ in
    st_ret (if bool_decide (deviceInfos = ∅)
            then sendError StatusInternalServerError "info_failed" "Failed to get info from any HSM device" []
            else sendResponse StatusOK "HSM info retrieved successfully" (GetInfoResponse deviceInfos))).

(* [internal/api/proxy_client.go:369-417] *)
Definition ListSecrets (prefix : string) : ST PState HTTP :=
  getAllAvailableGRPCClients (λ clients,
    let* results := on_world (for_all_clients 1 clients (λ _ c, go_then (c_ListSecrets c prefix) Done)) in
    let secretsSet : gmap string unit := fold_left (λ m '(_, r),
      match r with
      | Ok secrets => fold_left (λ m secretPath, <[secretPath := tt]> m) secrets m
      | Err _ => m
      end) results ∅ in
    let allSecrets := (range secretsSet).*1 in
    st_ret (sendResponse StatusOK "Secrets listed successfully"
              (ListSecretsResponse allSecrets (len allSecrets) prefix))).

(** The goroutine of [ReadSecret]. *)
(* [internal/api/proxy_client.go:434-453 ReadSecret] *)
Definition read_both (path : string) (deviceName : string) (c : Client W) : Proc W secretResult :=
  go_then (c_ReadSecret c path) (λ r,
    match r with
    | Err err => Done (mkSecretAnswer deviceName ∅ None (Some err))
    | Ok data =>
        go_then (c_ReadMetadata c path) (λ rm,
          Done (mkSecretAnswer deviceName data (match rm with Ok md => md | Err _ => None end) None))
    end).

(** The first checksum some client answers, in map order. *)
(* [internal/api/proxy_client.go:477-483 ReadSecret] *)
Fixpoint any_checksum (path : string) (clients : list (string * Client W)) : ST W string :=
  match clients with
  | [] => st_ret ""
  | (_, c) :: clients' =>
      let* r := c_GetChecksum c path in
      match r with Ok checksum => st_ret checksum | Err _ => any_checksum path clients' end
  end.

(* [internal/api/proxy_client.go:420-493] *)
Definition ReadSecret (path : string) : ST PState HTTP :=
  validatePathParam path (getAllAvailableGRPCClients (λ clients,
    let* results := on_world (for_all_clients 2 clients (read_both path)) in
    let successfulResults := filter (λ r, sr_err r = None) results.*2 in
    match findMostRecentSecretResult successfulResults (num_clients clients) with
    | Err err => st_ret (sendError StatusNotFound "secret_not_found" (error_string err) [])
    | Ok data =>
        let* checksum := (if 0 <? len successfulResults then on_world (any_checksum path (range clients))
                          else st_ret "") in
        st_ret (sendResponse StatusOK "Secret read successfully"
                  (ReadSecretResponse path data checksum (len successfulResults)))
    end)).

(* [internal/api/proxy_client.go:749-793] *)
Definition ReadMetadata (path : string) : ST PState HTTP :=
  validatePathParam path (getAllAvailableGRPCClients (λ clients,
    let* results := on_world (for_all_clients 1 clients (λ deviceName c, go_then (c_ReadMetadata c path) (λ r,
      Done match r with
           | Ok metadata => mkMetadataResult deviceName metadata None
           | Err err => mkMetadataResult deviceName None (Some err)
           end))) in
    let successfulResults := filter (λ r, mr_err r = None) results.*2 in
    st_ret match findMostRecentMetadataResult successfulResults with
           | Err err => sendError StatusNotFound "metadata_not_found" (error_string err) []
           | Ok metadata => sendResponse StatusOK "Metadata read successfully" (ReadMetadataResponse path metadata)
           end)).

(* [internal/api/proxy_client.go:796-840] *)
Definition GetChecksum (path : string) : ST PState HTTP :=
  validatePathParam path (getAllAvailableGRPCClients (λ clients,
    let* results := on_world (for_all_clients 1 clients (λ deviceName c, go_then (c_GetChecksum c path) (λ r,
      Done match r with
           | Ok checksum => mkChecksumResult deviceName checksum None
           | Err err => mkChecksumResult deviceName "" (Some err)
           end))) in
    let successfulResults := filter (λ r, cr_err r = None) results.*2 in
    st_ret match findConsensusChecksum successfulResults (num_clients clients) with
           | Err err => sendError StatusNotFound "checksum_not_found" (error_string err) []
           | Ok checksum => sendResponse StatusOK "Checksum retrieved successfully" (GetChecksumResponse path checksum)
           end)).

(* [internal/api/proxy_client.go:843-876] *)
Definition IsConnected : ST PState HTTP :=
  getAllAvailableGRPCClients (λ clients,
    let* devices := on_world (st_fold (λ (devices : gmap string bool) '(deviceName, grpcClient),
      let* connected := c_IsConnected grpcClient in
      st_ret (<[deviceName := connected]> devices)) (range clients) ∅) in
    st_ret (sendResponse StatusOK "HSM connection status retrieved"
              (IsConnectedResponse devices (num_clients clients)))).

(** ** Writing *)

(** The goroutine that sends its result as a [WriteResult]. *)
Definition report (deviceName : string) (r : result unit) : Proc W WriteResult :=
  Done (mkWriteResult deviceName match r with Ok _ => None | Err err => Some err end).

(** [results[deviceName] = WriteResult{...}], as the goroutines finish. *)
Definition result_map (results : list (string * WriteResult)) : gmap string WriteResult :=
  fold_left (λ m '(deviceName, r), <[deviceName := r]> m) results ∅.

(* [internal/api/proxy_client.go:920-946] *)
Definition writeToAllDevices (clients : gmap string (Client W)) (path : string) (data : SecretData)
    (metadata : option SecretMetadata) : ST W (gmap string WriteResult) :=
  let* results := for_all_clients 1 clients (λ deviceName c,
    match metadata with
    | Some _ => go_then (c_WriteSecret c path data metadata) (report deviceName)
    | None => report deviceName (Ok ())
    end) in
  st_ret (result_map results).

(* [internal/api/proxy_client.go:956-962 tombstoneDeleteFromAllDevices] *)
Definition tombstoneMetadata (now : Time) : SecretMetadata :=
  labelled (<[metaSyncDeleted := keyTrue]>
           (<[metaSyncTimestamp := format_RFC3339 now]>
           (<[metaSyncVersion := "0"]> ∅))).

(* [internal/api/proxy_client.go:950-993] *)
Definition tombstoneDeleteFromAllDevices (clients : gmap string (Client W)) (path : string) :
    ST W (gmap string WriteResult) :=
  let* now := time_Now in
  let* results := for_all_clients 2 clients (λ deviceName c,
    go_then (c_DeleteSecret c path) (λ _,
      go_then (c_WriteSecret c path ∅ (Some (tombstoneMetadata now))) (report deviceName))) in
  st_ret (result_map results).

(* [internal/api/proxy_client.go:723-746] *)
Definition deleteKeyFromAllDevices (clients : gmap string (Client W)) (path key : string) :
    ST W (gmap string WriteResult) :=
  let* results := for_all_clients 1 clients (λ deviceName c,
    go_then (c_DeleteSecretKey c path key) (report deviceName)) in
  st_ret (result_map results).

(* [internal/api/proxy_client.go:1073-1096] *)
Definition changePINOnAllDevices (clients : gmap string (Client W)) (oldPIN newPIN : string) :
    ST W (gmap string WriteResult) :=
  let* results := for_all_clients 1 clients (λ deviceName c,
    go_then (c_ChangePIN c oldPIN newPIN) (report deviceName)) in
  st_ret (result_map results).

(** [successful]: how many devices report no error. *)
Definition successes (results : gmap string WriteResult) : Z :=
  Z.of_nat (size (filter (λ kr : string * WriteResult, wr_Error kr.2 = None) results)).

(** [deviceResults], the outcome of every device. *)
(* [internal/api/proxy_client.go:597-606 DeleteSecret] *)
Definition device_results (results : gmap string WriteResult) : DeviceResults :=
  (λ r, match wr_Error r with None => (true, "") | Some err => (false, error_string err) end) <$> results.

(** [errors]: a line per failed device, in the order in which the map is ranged over. *)
(* [internal/api/proxy_client.go:608-613 DeleteSecret] *)
Definition error_lines (results : gmap string WriteResult) : list string :=
  omap (λ '(deviceName, r), (λ err, deviceName +:+ ": " +:+ error_string err) <$> wr_Error r) (range results).

(** The request body of [WriteSecret]. *)
(* [internal/api/proxy_client.go:503-507 WriteSecret] *)
Record WriteRequest := mkWriteRequest {
  rq_Data : gmap string string;
  rq_Metadata : option SecretMetadata;
  rq_Mirror : option bool;
}.

(** The metadata written: the caller's, with the version and the timestamp set. *)
(* [internal/api/proxy_client.go:528-540 WriteSecret] *)
Definition stamp (metadata : option SecretMetadata) (version : Z) (now : Time) : SecretMetadata :=
  let metadata := default (labelled ∅) metadata in
  let labels := default ∅ (m_Labels metadata) in
  mkMetadata (m_Description metadata)
    (Some (<[metaSyncTimestamp := format_RFC3339 now]> (<[metaSyncVersion := go_itoa version]> labels)))
    (m_Format metadata) (m_DataType metadata) (m_CreatedAt metadata) (m_Source metadata).

(** [req] is what gin makes of the request body. *)
(* [internal/api/proxy_client.go:496-574] *)
Definition WriteSecret (path : string) (req : result WriteRequest) : ST PState HTTP :=
  validatePathParam path
    match req with
    | Err err =>
        st_ret (sendError StatusBadRequest "parse_error" "Failed to parse request body"
          [(keyError, DStr (error_string err))])
    | Ok req =>
        let data := rq_Data req in
        getAllAvailableGRPCClients (λ clients,
          let* version := on_world (nextVersion clients path) in
          let* now := on_world time_Now in
          let* results := on_world (writeToAllDevices clients path data (Some (stamp (rq_Metadata req) version now))) in
          st_ret (if 0 <? successes results
                  then sendResponse StatusCreated "Secret written successfully"
                         (WriteSecretResponse path (Z.of_nat (size data)))
                  else sendError StatusInternalServerError "write_failed"
                         "Failed to write secret to any HSM device" []))
    end.

(* [internal/api/proxy_client.go:577-643] *)
Definition DeleteSecret (path : string) : ST PState HTTP :=
  validatePathParam path (getAllAvailableGRPCClients (λ clients,
    let* results := on_world (tombstoneDeleteFromAllDevices clients path) in
    let successful := successes results in
    let errors := error_lines results in
    st_ret (if 0 <? successful then
              let response := DeleteSecretResponse path (num_clients clients) (device_results results) errors in
              if successful <? num_clients clients
              then sendResponse StatusPartialContent
                     ("Secret deleted from " +:+ go_itoa successful +:+ "/" +:+
                      go_itoa (num_clients clients) +:+ " devices") response
              else sendResponse StatusOK "Secret deleted successfully" response
            else sendError StatusInternalServerError "delete_failed" "Failed to delete secret from any HSM device"
                   [(keyErrors, DStrs errors); (keyDeviceResults, DResults (device_results results));
                    (keyPath, DStr path)]))).

(* [internal/api/proxy_client.go:646-720] *)
Definition DeleteSecretKey (path key : string) : ST PState HTTP :=
  validatePathParam path
    (if bool_decide (key = "")
     then st_ret (sendError StatusBadRequest "missing_key" "Key parameter is required" [])
     else getAllAvailableGRPCClients (λ clients,
       let* results := on_world (deleteKeyFromAllDevices clients path key) in
       let successful := successes results in
       let errors := error_lines results in
       st_ret (if 0 <? successful then
                 let response := DeleteKeyResponse path key (num_clients clients) (device_results results) errors in
                 if successful <? num_clients clients
                 then sendResponse StatusPartialContent
                        ("Key deleted from " +:+ go_itoa successful +:+ "/" +:+
                         go_itoa (num_clients clients) +:+ " devices") response
                 else sendResponse StatusOK "Key deleted successfully" response
               else sendError StatusInternalServerError "delete_key_failed" "Failed to delete key from any HSM device"
                      [(keyErrors, DStrs errors); (keyDeviceResults, DResults (device_results results));
                       (keyPath, DStr path); (keyKey, DStr key)]))).

(* [internal/api/proxy_client.go:996-1070] *)
Definition ChangePIN (req : result (string * string)) : ST PState HTTP :=
  match req with
  | Err err =>
      st_ret (sendError StatusBadRequest "invalid_request" "Invalid request format" [(keyError, DStr (error_string err))])
  | Ok (oldPIN, newPIN) =>
      if bool_decide (oldPIN = "") then
        st_ret (sendError StatusBadRequest "missing_old_pin" "Missing old PIN" [(keyError, DStr "old_pin is required")])
      else if bool_decide (newPIN = "") then
        st_ret (sendError StatusBadRequest "missing_new_pin" "Missing new PIN" [(keyError, DStr "new_pin is required")])
      else if bool_decide (oldPIN = newPIN) then
        st_ret (sendError StatusBadRequest "invalid_pin_change" "Invalid PIN change"
          [(keyError, DStr "new PIN must be different from old PIN")])
      else getAllAvailableGRPCClients (λ clients,
        let* results := on_world (changePINOnAllDevices clients oldPIN newPIN) in
        let errors := error_lines results in
        let successCount := successes results in
        st_ret (if 0 <? len errors then
                  if successCount =? 0
                  then sendError StatusInternalServerError "pin_change_failed" "PIN change failed on all devices"
                         [(keyErrors, DStrs errors)]
                  else sendResponse StatusPartialContent "Partial PIN change success"
                         (ChangePINResponse successCount (num_clients clients) errors
                            "PIN changed successfully on some devices, but failed on others. Manual intervention may be required.")
                else sendResponse StatusOK "PIN changed successfully"
                       (ChangePINResponse successCount (num_clients clients) []
                          "PIN changed successfully on all HSM devices")))
  end.

(** ** The cache *)
(* [internal/api/proxy_client.go:879-894] *)
Definition Close : ST PState (option error) :=
  let* cache := get_cache in
  let* lastErr := on_world (st_fold (λ lastErr '(_, client),
    let* r := c_Close client in
    st_ret match r with Ok _ => lastErr | Err err => Some err end) (range cache) None) in
  do! put_cache ∅ in st_ret lastErr.

(* [internal/api/proxy_client.go:897-910] *)
Definition CleanupDisconnectedClients : ST PState unit :=
  let* cache := get_cache in
  st_fold (λ _ '(deviceName, client),
    let* connected := on_world (c_IsConnected client) in
    if connected : bool then st_ret ()
    else
      do! on_world (c_Close client) in
      let* cache := get_cache in
      put_cache (delete deviceName cache)) (range cache) ().

(* [internal/api/proxy_client.go:913-917] *)
Definition GetClientCount : ST PState Z := let* cache := get_cache in st_ret (num_clients cache).

(* [internal/api/proxy_client.go:1099-1099] *)
Definition Initialize (config : Config W) : ST PState (result unit) := st_ret (Ok ()).
End Proxy.

(** ** The routes of the HSM group *)
Inductive APICall :=
  | GET_info
  | GET_status
  | GET_secrets (prefix : string)
  | GET_secret (path : string)
  | PUT_secret (path : string) (req : result WriteRequest)
  | DELETE_secret (path : string)
  | DELETE_key (path key : string)
  | GET_metadata (path : string)
  | GET_checksum (path : string)
  | POST_change_pin (req : result (string * string)).

(* [internal/api/proxy_handlers.go:45-70 setupProxyRoutes] *)
Definition handle {W} `{MapOrder} `{Scheduler} (am : option (AgentManagerInterface W)) (time_Now : ST W Time)
    (operatorNamespace : string) (call : APICall) : ST (PState (W := W)) HTTP :=
  match call with
  | GET_info => GetInfo am operatorNamespace
  | GET_status => IsConnected am operatorNamespace
  | GET_secrets prefix => ListSecrets am operatorNamespace prefix
  | GET_secret path => ReadSecret am operatorNamespace path
  | PUT_secret path req => WriteSecret am time_Now operatorNamespace path req
  | DELETE_secret path => DeleteSecret am time_Now operatorNamespace path
  | DELETE_key path key => DeleteSecretKey am operatorNamespace path key
  | GET_metadata path => ReadMetadata am operatorNamespace path
  | GET_checksum path => GetChecksum am operatorNamespace path
  | POST_change_pin req => ChangePIN am operatorNamespace req
  end.
