(* ===== verification/ProxySpec.v ===== *)
(** * What the REST API guarantees

    Rules for the fan-out over the clients of distinct devices, and the properties
    of the handlers of [Proxy]: reads change nothing, writes are confined to their
    path, an accepted write is what a later read answers (when enough of the
    devices that accepted it take part), and what deletion does and does not
    guarantee.  Everything holds under every scheduler. *)

From S2P Require Import Prelude GoStd Reconcile Hsm MockClient Api Mirror Parallel Proxy.

(** ** Rules for the fan-out over clients *)
Section Rules.
Context {W : Type} `{!StoreView W} `{MapOrder} `{Scheduler}.

(** Device [k] holds the same in both worlds. *)
Definition agree (k : string) (w w' : W) : Prop :=
  ∀ p, sec_at w' k p = sec_at w k p ∧ md_at w' k p = md_at w k p.

(** An assertion about device [k] only. *)
Definition local (k : string) (L : W → Prop) : Prop := ∀ w w', agree k w w' → L w → L w'.

(** Device [k]'s goroutine [p] is at an assertion about its device, every action
    changes the world by [R], and it ends with [Q]. *)
#[warnings="-register-all"]
Inductive proc_spec {A} (R : relation W) (k : string) (Q : A → W → Prop) : Proc W A → W → Prop :=
  | spec_done a w : Q a w → proc_spec R k Q (Done a) w
  | spec_step (L : W → Prop) act w : local k L → L w →
      (∀ w p w', L w → act w = (p, w') → R w w' ∧ proc_spec R k Q p w') →
      proc_spec R k Q (Step act) w.

Lemma spec_go_then {A B} R k (Q : A → W → Prop) (L : W → Prop) (m : ST W B) (g : B → Proc W A) w :
  local k L → L w →
  (∀ w b w', L w → m w = (b, w') → R w w' ∧ proc_spec R k Q (g b) w') →
  proc_spec R k Q (go_then m g) w.
Proof.
  intros HL Hw Hm. apply (spec_step _ _ _ L); [done|done|]. intros w1 p w2 HL1 E.
  destruct (m w1) as [b w3] eqn:Em. injection E as <- <-. by apply Hm.
Qed.

Lemma proc_spec_stable {A} R k (Q : A → W → Prop) p w w' :
  (∀ a, local k (Q a)) → agree k w w' → proc_spec R k Q p w → proc_spec R k Q p w'.
Proof.
  intros HQ Ha Hp. inversion Hp as [a w0 Hq|L act w0 HL Hw Hstep]; subst; [constructor; by eapply HQ|].
  apply (spec_step _ _ _ L); [done| |done]. by eapply HL.
Qed.

Lemma steps_go_then {A B} n (m : ST W B) (g : B → Proc W A) :
  (∀ b, steps_le n (g b)) → steps_le (S n) (go_then m g).
Proof. intros Hg. constructor. intros w. destruct (m w). apply Hg. Qed.

Lemma fmap_pair_keys {A B} (g : string → A → B) (l : list (string * A)) :
  ((λ kc, (kc.1, g kc.1 kc.2)) <$> l).*1 = l.*1.
Proof. rewrite <-list_fmap_compose. by apply list_fmap_ext. Qed.

(** Goroutines that each touch their own device only. *)
Lemma clients_fan_out {A} n clients (body : string → Client W → Proc W A) (R : string → relation W)
    (G : relation W) `{!PreOrder G} (Q : string → A → W → Prop) w res w' :
  (∀ k a, local k (Q k a)) →
  (∀ k k' w w', k ≠ k' → R k w w' → agree k' w w') → (∀ k w w', is_Some (clients !! k) → R k w w' → G w w') →
  (∀ k c, clients !! k = Some c → steps_le n (body k c) ∧ proc_spec (R k) k (Q k) (body k c) w) →
  for_all_clients n clients body w = (res, w') →
  res.*1 ≡ₚ (range clients).*1 ∧ (∀ k a, (k, a) ∈ res → Q k a w') ∧ G w w'.
Proof.
  intros HQ HR HG Hb. unfold for_all_clients. intros Hrun.
  apply (fan_out_spec (λ k p w, is_Some (clients !! k) ∧ proc_spec (R k) k (Q k) p w) G) in Hrun as (Hk & Hr & Hg).
  - rewrite fmap_pair_keys in Hk. split_and!; [done| |done].
    intros k a Hin. destruct (Hr k a Hin) as [_ Hs]. by inversion Hs.
  - intros k act w1 p w2 [Hin Hs] E. inversion Hs as [|L act' w0 HL Hw Hstep]; subst.
    destruct (Hstep _ _ _ Hw E) as [Hr Hp]. split; [done|by eapply HG].
  - intros k k' act p q w1 w2 Hne [_ Hs] E [Hin Hq]. inversion Hs as [|L act' w0 HL Hw Hstep]; subst.
    destruct (Hstep _ _ _ Hw E) as [Hr _]. split; [done|]. eapply proc_spec_stable; [done|by eapply HR|done].
  - rewrite fmap_pair_keys. apply range_keys_NoDup.
  - apply Forall_fmap, Forall_forall. intros [k c] Hin%elem_of_range. by apply Hb.
  - intros k p ([k' c] & [= -> ->] & Hin%elem_of_range)%list_elem_of_fmap. split; [by exists c|]. by apply Hb.
Qed.

Lemma unchanged_agree k w w' : unchanged w w' → agree k w w'.
Proof. intros Hu p. apply Hu. Qed.

Lemma only_changed_agree s p k w w' : s ≠ k → only_changed s p w w' → agree k w w'.
Proof. intros Hne Ho p'. apply Ho. left. congruence. Qed.

(** What the world holds at [k] and [path], as an assertion. *)
Lemma local_holds k path (P : option SecretData → option SecretMetadata → Prop) :
  local k (λ w, P (sec_at w k path) (md_at w k path)).
Proof. intros w w' Ha HP. destruct (Ha path) as [-> ->]. done. Qed.

(** Clients of distinct devices, each keeping its contract. *)
Definition clients_ok (clients : gmap string (Client W)) : Prop := map_Forall (λ s c, ClientLaws s c) clients.

Lemma agree_local k w : local k (agree k w).
Proof. intros w1 w2 H12 H1 p. destruct (H1 p), (H12 p). split; congruence. Qed.

Lemma agree_refl k w : agree k w w.
Proof. by intros p. Qed.
#[local] Hint Resolve agree_local agree_refl : core.

(** Goroutines of one read-only call. *)
Lemma read_fan_out {A B} clients (op : Client W → ST W (result B)) (post : string → result B → A)
    (P : string → result B → Prop) w res w' :
  clients_ok clients →
  (∀ s c w1, ClientLaws s c → unchanged w1 (op c w1).2) →
  (∀ s c w1, ClientLaws s c → agree s w w1 → P s (op c w1).1) →
  for_all_clients 1 clients (λ k c, go_then (op c) (λ r, Done (post k r))) w = (res, w') →
  res.*1 ≡ₚ (range clients).*1 ∧ (∀ k a, (k, a) ∈ res → ∃ r, a = post k r ∧ P k r) ∧ unchanged w w'.
Proof.
  intros Hc Hu HP.
  apply (clients_fan_out _ _ _ (λ _, unchanged) unchanged (λ k a _, ∃ r, a = post k r ∧ P k r)).
  - by intros k a w1 w2.
  - intros. by apply unchanged_agree.
  - done.
  - intros k c Hkc. specialize (Hc k c Hkc). split; [apply steps_go_then; intros; constructor|].
    apply (spec_go_then _ _ _ (agree k w)); [done|done|]. intros w1 r w2 Ha E. split.
    + pose proof (Hu k c w1 Hc) as Hu1. by rewrite E in Hu1.
    + constructor. exists r. split; [done|]. specialize (HP k c w1 Hc Ha). by rewrite E in HP.
Qed.

(** The goroutines of [ReadSecret]: nothing changes, and an answer without an error
    carries what the device holds. *)
Definition truthful_answer (path : string) (w : W) (k : string) (a : secretResult) : Prop :=
  sr_deviceName a = k ∧
  (sr_err a = None → sec_at w k path = Some (sr_data a) ∧
                     (sr_metadata a = None ∨ sr_metadata a = md_at w k path)).

Lemma read_both_fan_out clients path w res w' :
  clients_ok clients →
  for_all_clients 2 clients (read_both path) w = (res, w') →
  res.*1 ≡ₚ (range clients).*1 ∧ (∀ k a, (k, a) ∈ res → truthful_answer path w k a) ∧ unchanged w w'.
Proof.
  intros Hc.
  apply (clients_fan_out _ _ _ (λ _, unchanged) unchanged (λ k a _, truthful_answer path w k a)).
  - by intros k a w1 w2.
  - intros. by apply unchanged_agree.
  - done.
  - intros k c Hkc. specialize (Hc k c Hkc). split.
    { apply steps_go_then. intros [d|e]; [|constructor]. apply steps_go_then. intros. constructor. }
    apply (spec_go_then _ _ _ (agree k w)); [done|done|]. intros w1 r w2 Ha E.
    apply (ReadSecret_run _ _ _ _ _ _ Hc) in E as [Hu Hd]. split; [done|].
    destruct r as [d|e]; [|constructor; by split].
    apply (spec_go_then _ _ _ (agree k w)); [done|by eapply agree_local; [apply unchanged_agree|]|].
    intros w3 rm w4 Ha3 E. apply (ReadMetadata_run _ _ _ _ _ _ Hc) in E as [Hu' Hm].
    split; [done|]. constructor. split; [done|]. intros _. simpl. split.
    + rewrite <-(proj1 (Ha path)). by apply Hd.
    + destruct rm as [md|]; [|by left]. right. rewrite <-(proj2 (Ha3 path)). symmetry. by apply Hm.
Qed.

(** [result_map] of a fan-out. *)
Lemma result_map_lookup (res : list (string * WriteResult)) k r :
  NoDup res.*1 → result_map res !! k = Some r ↔ (k, r) ∈ res.
Proof.
  intros Hnd. unfold result_map.
  assert (∀ m : gmap string WriteResult, (∀ k, k ∈ res.*1 → m !! k = None) →
    (fold_left (λ m '(deviceName, r), <[deviceName := r]> m) res m !! k = Some r ↔
     (k, r) ∈ res ∨ m !! k = Some r)) as Hgen.
  { induction res as [|[k1 r1] res IH]; intros m Hm; simpl; [set_solver|].
    apply NoDup_cons in Hnd as [Hk1 Hnd]. rewrite IH; [|done|].
    - rewrite elem_of_cons, lookup_insert_Some. split; [|intros [[[= -> ->]|?]|Hmk]; [by right; left|by left|]].
      + intros [?|[[-> ->]|[Hne ?]]]; [left; by right|left; by left|by right].
      + destruct (decide (k1 = k)) as [->|]; [|by right; right]. rewrite Hm in Hmk; [done|left].
    - intros k' Hk'. rewrite lookup_insert_ne; [apply Hm; by right|]. intros ->. done. }
  rewrite Hgen; [|by intros; rewrite lookup_empty]. rewrite lookup_empty. split; [by intros [?|?]|by left].
Qed.

(** Devices that reported success. *)
Definition accepted (results : gmap string WriteResult) (k : string) : Prop :=
  ∃ r, results !! k = Some r ∧ wr_Error r = None.

(** Goroutines that write: the world changes on the clients' devices at [path] only,
    every client has one result, and one without error left [Q] behind. *)
Lemma write_fan_out n clients path (body : string → Client W → Proc W WriteResult)
    (Q : string → option SecretData → option SecretMetadata → Prop) w results w' :
  (∀ k c, clients !! k = Some c → steps_le n (body k c) ∧
     proc_spec (only_changed k path) k
       (λ r w, wr_DeviceName r = k ∧ (wr_Error r = None → Q k (sec_at w k path) (md_at w k path))) (body k c) w) →
  (let* res := for_all_clients n clients body in st_ret (result_map res))%go w = (results, w') →
  only_on (range clients).*1 path w w' ∧ dom results = dom clients ∧
  (∀ k r, results !! k = Some r → wr_DeviceName r = k) ∧
  (∀ k, accepted results k → Q k (sec_at w' k path) (md_at w' k path)).
Proof.
  intros Hb. unfold st_bind, st_ret.
  destruct (for_all_clients n clients body w) as [res w1] eqn:E. intros [= <- <-].
  pose proof E as Ek.
  apply (clients_fan_out _ _ _ (λ k, only_changed k path) (only_on (range clients).*1 path)
    (λ k r w, wr_DeviceName r = k ∧ (wr_Error r = None → Q k (sec_at w k path) (md_at w k path)))) in E
    as (Hk & Hr & Hg); [| | | |done].
  - assert (NoDup res.*1) as Hnd by (rewrite Hk; apply range_keys_NoDup). split_and!; [done| | |].
    + apply set_eq. intros k. rewrite !elem_of_dom, <-(elem_of_range_keys clients), <-Hk, list_elem_of_fmap. split.
      * intros [r Hkr%result_map_lookup]; [|done]. by exists (k, r).
      * intros ([k' r] & -> & Hin). exists r. by apply result_map_lookup.
    + intros k r Hkr%result_map_lookup; [|done]. by apply Hr.
    + intros k (r & Hkr%result_map_lookup & He); [|done]. by apply (Hr k r Hkr).
  - intros k r wa wb Ha [H1 H2]. split; [done|]. intros He. destruct (Ha path) as [-> ->]. by apply H2.
  - intros k k' wa wb Hne. by apply only_changed_agree.
  - intros k wa wb Hin. apply only_changed_on. by apply elem_of_range_keys.
Qed.

Lemma write_all_spec clients path data md w results w' :
  clients_ok clients →
  writeToAllDevices clients path data (Some md) w = (results, w') →
  only_on (range clients).*1 path w w' ∧ dom results = dom clients ∧
  (∀ k r, results !! k = Some r → wr_DeviceName r = k) ∧
  (storable path data →
   ∀ k, accepted results k → sec_at w' k path = Some data ∧ (keepable md → md_at w' k path = Some md)).
Proof.
  intros Hc E. cut (only_on (range clients).*1 path w w' ∧ dom results = dom clients ∧
    (∀ k r, results !! k = Some r → wr_DeviceName r = k) ∧
    (∀ k, accepted results k → storable path data → sec_at w' k path = Some data ∧ (keepable md → md_at w' k path = Some md)));
    [naive_solver|]. revert E. apply (write_fan_out 1 clients path _
    (λ _ sec m, storable path data → sec = Some data ∧ (keepable md → m = Some md))).
  intros k c Hkc. specialize (Hc k c Hkc). split; [apply steps_go_then; intros; constructor|].
  apply (spec_go_then _ _ _ (λ _, True)); [done|done|]. intros w1 r w2 _ E.
  apply (WriteSecret_run _ _ _ _ _ _ _ _ Hc) in E as [Ho Hw]. split; [done|]. constructor.
  split; [done|]. simpl. destruct r as [[]|e]; [|done]. intros _ Hsto. by apply Hw.
Qed.

(** A tombstone can be told apart from everything else. *)
Definition buriable (path : string) : Prop := storable path ∅ ∧ ∀ now, keepable (tombstoneMetadata now).

Lemma delete_all_spec (time_Now : ST W Time) clients path w results w' :
  clients_ok clients → preserves unchanged time_Now →
  tombstoneDeleteFromAllDevices time_Now clients path w = (results, w') →
  only_on (range clients).*1 path w w' ∧ dom results = dom clients ∧
  (buriable path → ∀ k, accepted results k →
     sec_at w' k path = Some ∅ ∧ ∃ now, md_at w' k path = Some (tombstoneMetadata now)).
Proof.
  intros Hc Hn. unfold tombstoneDeleteFromAllDevices. unfold st_bind at 1.
  specialize (Hn w). destruct (time_Now w) as [now w0]. simpl in Hn.
  intros (Ho & Hd & _ & Ha)%(write_fan_out 2 clients path _
    (λ _ sec m, buriable path → sec = Some ∅ ∧ m = Some (tombstoneMetadata now))).
  - split_and!; [by etrans; [apply unchanged_on|]|done|]. intros Hsto k Hk. destruct (Ha k Hk Hsto). split; [done|]. by exists now.
  - intros k c Hkc. specialize (Hc k c Hkc). split.
    { apply steps_go_then. intros. apply steps_go_then. intros. constructor. }
    apply (spec_go_then _ _ _ (λ _, True)); [done|done|]. intros w1 r w2 _ E.
    apply (DeleteSecret_run _ _ _ _ _ _ Hc) in E as [Ho _]. split; [done|].
    apply (spec_go_then _ _ _ (λ _, True)); [done|done|]. intros w3 r' w4 _ E'.
    apply (WriteSecret_run _ _ _ _ _ _ _ _ Hc) in E' as [Ho' Hw]. split; [done|]. constructor.
    split; [done|]. simpl. destruct r' as [[]|e]; [|done]. intros _.
    intros [Hsto Hkeep]. destruct (Hw Hsto eq_refl) as [-> Hm]. split; [done|]. by apply Hm.
Qed.

Lemma delete_key_spec clients path key w results w' :
  clients_ok clients → deleteKeyFromAllDevices clients path key w = (results, w') →
  only_on (range clients).*1 path w w' ∧ dom results = dom clients.
Proof.
  intros Hc. intros (Ho & Hd & _)%(write_fan_out 1 clients path _ (λ _ _ _, True)); [done|].
  intros k c Hkc. specialize (Hc k c Hkc). split; [apply steps_go_then; intros; constructor|].
  apply (spec_go_then _ _ _ (λ _, True)); [done|done|]. intros w1 r w2 _ E.
  apply (DeleteSecretKey_run _ _ _ _ _ _ _ Hc) in E. split; [done|]. by constructor.
Qed.

#[global] Instance accepted_dec results k : base.Decision (accepted results k).
Proof.
  destruct (results !! k) as [r|] eqn:E; [destruct (wr_Error r) eqn:Er|].
  - right. intros (r' & ? & ?). congruence.
  - left. by exists r.
  - right. intros (r' & ? & ?). congruence.
Defined.

(** ** Lemmas: the version counter *)
Lemma parseVersion_eq md : parseVersionFromMetadata md = MetadataVersion md.
Proof. reflexivity. Qed.

(** [op] answers in every world where the devices hold what they hold in [w]. *)
Definition answers {A} (op : ST W (result A)) (w : W) : Prop :=
  ∀ w', unchanged w w' → is_Ok (op w').1 = true.

Lemma nextVersion_spec clients path w v w' :
  clients_ok clients → nextVersion clients path w = (v, w') →
  unchanged w w' ∧ ∃ m, v = to_int64 (m + 1) ∧ 0 ≤ m ≤ int64_max ∧
    (∀ k c, clients !! k = Some c → answers (c_ReadMetadata c path) w → MetadataVersion (md_at w k path) ≤ m) ∧
    (m = 0 ∨ ∃ k, is_Some (clients !! k) ∧ m = MetadataVersion (md_at w k path)).
Proof.
  intros Hc. unfold nextVersion, st_bind at 1.
  assert (∀ l (m0 : Z) w0 m w1, (∀ k c, (k, c) ∈ l → clients !! k = Some c) → unchanged w w0 →
    st_fold (λ maxVersion '(_, grpcClient),
      st_bind (c_ReadMetadata grpcClient path) (λ r, st_ret match r with
        | Err _ => maxVersion
        | Ok metadata => if maxVersion <? parseVersionFromMetadata metadata
                         then parseVersionFromMetadata metadata else maxVersion
        end)) l m0 w0 = (m, w1) →
    unchanged w w1 ∧ m0 ≤ m ∧
    (∀ k c, (k, c) ∈ l → answers (c_ReadMetadata c path) w → MetadataVersion (md_at w k path) ≤ m) ∧
    (m = m0 ∨ ∃ k, is_Some (clients !! k) ∧ m = MetadataVersion (md_at w k path))) as Hloop.
  { induction l as [|[k c] l IH]; intros m0 w0 m w1 Hl Hu; cbn [st_fold].
    { intros [= <- <-]. split_and!; [done|lia|set_solver|by left]. }
    unfold st_bind at 1 2. destruct (c_ReadMetadata c path w0) as [r w2] eqn:E.
    assert (clients !! k = Some c) as Hkc by (apply Hl; by left).
    pose proof E as Er. apply (ReadMetadata_run _ _ _ _ _ _ (Hc k c Hkc)) in Er as [Hu2 Hm].
    cbn [st_ret]. intros Hrun. apply IH in Hrun as (Hu3 & Hle & Hall & Hmax);
      [|intros k' c' Hin; apply Hl; by right|by etrans].
    assert (∀ md, r = Ok md → md_at w k path = md) as Hmd.
    { intros md ->. rewrite <-(proj2 (Hu k path)). by apply Hm. }
    split_and!; [done| | |].
    - destruct r; [|done]. destruct (m0 <? _) eqn:El; [apply Z.ltb_lt in El; lia|done].
    - intros k' c' [[= -> ->]|Hin]%elem_of_cons Ha; [|by eapply Hall].
      specialize (Ha w0 Hu). rewrite E in Ha. destruct r as [md|e]; [|done].
      rewrite (Hmd md eq_refl), <-parseVersion_eq. destruct (m0 <? _) eqn:El; [done|apply Z.ltb_ge in El; lia].
    - destruct Hmax as [->|?]; [|by right]. destruct r as [md|e]; [|by left].
      destruct (m0 <? parseVersionFromMetadata md); [right|by left].
      exists k. rewrite (Hmd md eq_refl). split; [by exists c|done]. }
  destruct (st_fold _ (range clients) 0 w) as [m w1] eqn:E. intros [= <- <-].
  apply Hloop in E as (Hu & Hle & Hall & Hmax); [|by intros k c ?%elem_of_range|reflexivity].
  split; [done|]. exists m. split_and!; [done|done| | |done].
  - destruct Hmax as [->|(k & _ & ->)]; [done|]. apply MetadataVersion_range.
  - intros k c Hkc. apply (Hall k c). by apply elem_of_range.
Qed.

(** ** Lemmas: the answer of a read *)
Lemma observation_opinion a : hasOpinion (secret_observation a) = true.
Proof. unfold hasOpinion, secret_observation. simpl. by destruct (isSecretDeleted _). Qed.

Lemma observations_voters (l : list secretResult) :
  filter hasOpinion (secret_observation <$> l) = secret_observation <$> l.
Proof.
  induction l as [|a l IH]; [done|]. cbn [fmap list_fmap]. rewrite filter_cons.
  rewrite decide_True by (rewrite observation_opinion; done). by f_equal.
Qed.

Lemma data_by_device (l : list secretResult) a :
  NoDup (sr_deviceName <$> l) → a ∈ l →
  fold_left (λ (m : gmap string SecretData) r, <[sr_deviceName r := sr_data r]> m) l ∅ !! sr_deviceName a = Some (sr_data a).
Proof.
  generalize (∅ : gmap string SecretData). induction l as [|b l IH]; intros m Hnd Hin; [by apply elem_of_nil in Hin|].
  apply NoDup_cons in Hnd as [Hb Hnd]. simpl. apply elem_of_cons in Hin as [->|Hin]; [|by apply IH].
  assert (∀ m : gmap string SecretData, fold_left (λ m r, <[sr_deviceName r := sr_data r]> m) l m !! sr_deviceName b =
    m !! sr_deviceName b) as ->; [|by rewrite lookup_insert_eq].
  clear -Hb. induction l as [|c l IH]; intros m; [done|]. simpl. rewrite IH by set_solver.
  apply lookup_insert_ne. set_solver.
Qed.

(** The observation's effective checksum: a live copy's data, or the tombstone. *)
Lemma observation_effective a :
  effectiveChecksum (secret_observation a) =
  if isSecretDeleted (sr_metadata a) then TombstoneChecksum else CalculateChecksum (sr_data a).
Proof. reflexivity. Qed.

Definition winner (l : list secretResult) (n : Z) : string := d_WinningChecksum (Resolve (secret_observation <$> l) n).

Lemma find_spec l n :
  NoDup (sr_deviceName <$> l) → Forall (λ a, sr_deviceName a ≠ "") l → l ≠ [] →
  (winner l n = TombstoneChecksum ∧
     findMostRecentSecretResult l n = Err (errorf "secret not found on any HSM device")) ∨
  (∃ a, a ∈ l ∧ isSecretDeleted (sr_metadata a) = false ∧ CalculateChecksum (sr_data a) = winner l n ∧
     findMostRecentSecretResult l n = Ok (sr_data a)).
Proof.
  intros Hnd Hne Hl. unfold findMostRecentSecretResult, winner.
  assert (Forall (λ o, o_DeviceID o ≠ "") (secret_observation <$> l)) as Hids.
  { apply Forall_fmap. eapply Forall_impl; [exact Hne|]. by intros a Ha. }
  destruct (Resolve_facts (secret_observation <$> l) n Hids) as [Hfound Hrest].
  rewrite observations_voters in Hfound, Hrest.
  assert (d_Found (Resolve (secret_observation <$> l) n) = true) as Hf by (apply Hfound; by destruct l).
  destruct (Hrest Hf) as ([(o & Ho & Hoc & Hoid) _] & _ & _ & _ & Hdel).
  assert ((len l =? 0) = false) as -> by (destruct l; [done|apply Z.eqb_neq; unfold len; simpl; lia]).
  rewrite Hf. cbn [negb orb].
  destruct (d_Deleted (Resolve (secret_observation <$> l) n)) eqn:Ed.
  { left. split; [by apply Hdel|done]. }
  right. apply list_elem_of_fmap in Ho as (a & -> & Ha). exists a.
  rewrite observation_effective in Hoc. destruct (isSecretDeleted (sr_metadata a)) eqn:Et.
  { symmetry in Hoc. apply Hdel in Hoc. congruence. }
  split_and!; [done|done|done|]. rewrite <-Hoid.
  change (o_DeviceID (secret_observation a)) with (sr_deviceName a). by rewrite data_by_device.
Qed.

Lemma winner_newest l n : n < 3 → l ≠ [] → ∃ best, best ∈ l ∧
  (∀ a, a ∈ l → outranked (secret_observation a) (secret_observation best)) ∧
  winner l n = effectiveChecksum (secret_observation best).
Proof.
  intros Hn Hl. destruct l as [|a0 l]; [done|]. unfold winner.
  pose proof (observations_voters (a0 :: l)) as Hv. cbn [fmap list_fmap] in Hv.
  destruct (Resolve_some _ n _ _ Hv) as (c & s & Hc & Hd). cbn [fmap list_fmap]. rewrite Hd. cbn [d_WinningChecksum decision_for].
  destruct Hc as [[? _]|[[? _]|(_ & -> & _)]]; [lia|lia|].
  destruct (lastWriteWins_newest (secret_observation a0) (secret_observation <$> l)) as [Hin Hmax].
  change (secret_observation a0 :: (secret_observation <$> l)) with (secret_observation <$> (a0 :: l)) in Hin, Hmax.
  apply list_elem_of_fmap in Hin as (best & Hb & Hin). exists best. split_and!; [done| |].
  - intros a Ha. rewrite <-Hb. apply Hmax. by apply list_elem_of_fmap_2.
  - by rewrite <-Hb.
Qed.

Lemma winner_majority l n c : 3 ≤ n → len l ≤ n → has_majority c (secret_observation <$> l) n → winner l n = c.
Proof.
  intros Hn Hl Hm. unfold winner. destruct l as [|a0 l]; [unfold has_majority, votes in Hm; simpl in Hm; lia|].
  pose proof (observations_voters (a0 :: l)) as Hv. cbn [fmap list_fmap] in Hv, Hm |- *.
  destruct (Resolve_some _ n _ _ Hv) as (c' & s & Hc & ->). cbn [d_WinningChecksum decision_for].
  destruct Hc as [(_ & Hm' & _)|[(_ & Hno & _)|(? & _)]]; [|by destruct (Hno c)|lia].
  eapply majority_unique; [|exact Hm'|exact Hm]. unfold len in Hl. simpl in *. by rewrite length_fmap.
Qed.

(** Older copies lose against a copy of a greater version. *)
Lemma newer_version a b : o_Version b < o_Version a → ¬ outranked a b.
Proof. unfold outranked. lia. Qed.

(** ** The answers of a read after writes *)

(** The answers without error of a read's goroutines. *)
Definition successful (res : list (string * secretResult)) : list secretResult :=
  filter (λ r, sr_err r = None) res.*2.

Lemma successful_spec clients path w res w' :
  clients_ok clients → clients !! "" = None →
  for_all_clients 2 clients (read_both path) w = (res, w') →
  unchanged w w' ∧ NoDup (sr_deviceName <$> successful res) ∧
  Forall (λ a, sr_deviceName a ≠ "") (successful res) ∧ len (successful res) ≤ num_clients clients ∧
  ∀ a, a ∈ successful res → sec_at w (sr_deviceName a) path = Some (sr_data a) ∧
    (sr_metadata a = None ∨ sr_metadata a = md_at w (sr_deviceName a) path).
Proof.
  intros Hc Hne (Hk & Hr & Hu)%read_both_fan_out; [|done].
  assert (sr_deviceName <$> res.*2 = res.*1) as Hnames.
  { clear Hk. induction res as [|[k a] res IH]; [done|]. cbn [fmap list_fmap fst snd] in *.
    rewrite (proj1 (Hr k a ltac:(by left))), IH; [done|]. intros k' a' Hin. apply Hr. by right. }
  assert (sublist (sr_deviceName <$> successful res) (sr_deviceName <$> res.*2)) as Hsub
    by apply fmap_sublist, sublist_filter.
  assert (NoDup res.*1) as Hnd by (rewrite Hk; apply range_keys_NoDup).
  split_and!; [done| | | |].
  - eapply sublist_NoDup; [|exact Hsub]. by rewrite Hnames.
  - apply Forall_forall. intros a Ha. assert (sr_deviceName a ∈ res.*1) as Hin.
    { rewrite <-Hnames. apply (elem_of_submseteq (sr_deviceName <$> successful res)).
      - by apply list_elem_of_fmap_2.
      - by apply sublist_submseteq. }
    rewrite Hk in Hin. apply elem_of_range_keys in Hin as [c Hc']. intros He. by rewrite He, Hne in Hc'.
  - apply sublist_length in Hsub. rewrite Hnames, (Permutation_length Hk), !length_fmap in Hsub.
    unfold len, num_clients. rewrite <-length_map_to_list, <-(range_perm clients). lia.
  - intros a [He ([k a'] & -> & Hin)%list_elem_of_fmap]%list_elem_of_filter. cbn [snd] in *.
    destruct (Hr k a' Hin) as [-> Ht]. by apply Ht.
Qed.

(** ** Lemmas: stamped copies *)
Lemma stamp_label md v now k :
  k ≠ metaSyncVersion → k ≠ metaSyncTimestamp → md_label (Some (stamp md v now)) k = md_label md k.
Proof.
  intros H1 H2. destruct md as [[d l f t c s]|]; simpl; rewrite !lookup_insert_ne by done; [|done].
  by destruct l.
Qed.

Lemma stamp_version md v now : in_int64 v → MetadataVersion (Some (stamp md v now)) = v.
Proof.
  intros Hv. unfold MetadataVersion, stamp, md_label. cbn [m_Labels].
  rewrite lookup_insert_ne, lookup_insert_eq by done. by rewrite scan_itoa.
Qed.

Lemma tombstone_deleted now : isSecretDeleted (Some (tombstoneMetadata now)) = true.
Proof. unfold isSecretDeleted. rewrite bool_decide_true; [done|]. simpl. by rewrite lookup_insert_eq. Qed.

Lemma tombstone_version now : parseVersionFromMetadata (Some (tombstoneMetadata now)) = 0.
Proof.
  unfold parseVersionFromMetadata, tombstoneMetadata. simpl. rewrite !lookup_insert_ne, lookup_insert_eq by done. done.
Qed.

Lemma checksum_not_tombstone data : CalculateChecksum data ≠ TombstoneChecksum.
Proof. rewrite CalculateChecksum_eq. discriminate. Qed.

(** Enough of the devices that accepted a write of version [v] are among the [l]
    answers of a read over [n] devices: with fewer than three devices one of them
    suffices, if the other answers are older; otherwise a strict majority. *)
Definition enough (results : gmap string WriteResult) (v : Z) (l : list secretResult) (n : Z) : Prop :=
  (n < 3 ∧ (∃ a, a ∈ l ∧ accepted results (sr_deviceName a) ∧ sr_metadata a ≠ None) ∧
   ∀ a, a ∈ l → ¬ accepted results (sr_deviceName a) → parseVersionFromMetadata (sr_metadata a) < v) ∨
  (3 ≤ n ∧ n < 2 * len (filter (λ a, accepted results (sr_deviceName a)) l)).

(** A winner that is the checksum of [data] is answered with data of that checksum. *)
Lemma find_winner l n data :
  NoDup (sr_deviceName <$> l) → Forall (λ a, sr_deviceName a ≠ "") l → l ≠ [] →
  winner l n = CalculateChecksum data →
  ∃ d, findMostRecentSecretResult l n = Ok d ∧ CalculateChecksum d = CalculateChecksum data.
Proof.
  intros Hnd Hne Hl Hw. destruct (find_spec l n Hnd Hne Hl) as [[Ht _]|(a & _ & _ & Hc & ->)].
  - rewrite Hw in Ht. by apply checksum_not_tombstone in Ht.
  - exists (sr_data a). split; [done|]. congruence.
Qed.

Lemma majority_votes results l c n :
  (∀ a, a ∈ l → accepted results (sr_deviceName a) → effectiveChecksum (secret_observation a) = c) →
  n < 2 * len (filter (λ a, accepted results (sr_deviceName a)) l) → has_majority c (secret_observation <$> l) n.
Proof.
  intros Hacc Hn. unfold has_majority, votes.
  assert (len (filter (λ a, accepted results (sr_deviceName a)) l) ≤
    Z.of_nat (length (filter (λ v, effectiveChecksum v = c) (secret_observation <$> l)))); [|lia].
  clear Hn. unfold len. induction l as [|a l IH]; [done|]. cbn [fmap list_fmap]. rewrite !filter_cons.
  assert (∀ a, a ∈ l → accepted results (sr_deviceName a) → effectiveChecksum (secret_observation a) = c) as Hacc'
    by (intros b Hb; apply Hacc; by right).
  specialize (IH Hacc'). destruct (decide (accepted results (sr_deviceName a))) as [Ha|Ha].
  - rewrite (decide_True (P := effectiveChecksum (secret_observation a) = c)) by (apply Hacc; [by left|done]).
    cbn [length]. lia.
  - case_decide; cbn [length]; lia.
Qed.

(** C3. Read your writes: when a write has gone out to the devices and a later read
    gets answers from enough of those that accepted it, the read answers what was
    written (up to a collision of checksums), if the devices can tell it apart again:
    the version the proxy stamps beats every older copy, and a majority cannot be
    outvoted.  This holds under every
    interleaving of the goroutines, whatever else failed. *)
Theorem write_then_read (clients rclients : gmap string (Client W)) (path : string) (data : SecretData)
    (md : option SecretMetadata) (v : Z) (now : Time) (w1 w2 w3 w4 : W)
    (results : gmap string WriteResult) (res : list (string * secretResult)) :
  clients_ok clients → clients_ok rclients → rclients !! "" = None → in_int64 v →
  md_label md metaSyncDeleted ≠ Some "true" → storable path data → keepable (stamp md v now) →
  writeToAllDevices clients path data (Some (stamp md v now)) w1 = (results, w2) → unchanged w2 w3 →
  for_all_clients 2 rclients (read_both path) w3 = (res, w4) →
  enough results v (successful res) (num_clients rclients) →
  ∃ d, findMostRecentSecretResult (successful res) (num_clients rclients) = Ok d ∧
       CalculateChecksum d = CalculateChecksum data.
Proof.
  intros Hc Hrc Hne Hv Hdel Hsto Hkeep (_ & _ & _ & Hacc)%write_all_spec Hu Hres Henough; [|done].
  specialize (Hacc Hsto).
  destruct (successful_spec _ _ _ _ _ Hrc Hne Hres) as (_ & Hnd & Hids & Hlen & Ht).
  assert (∀ a, a ∈ successful res → accepted results (sr_deviceName a) →
    effectiveChecksum (secret_observation a) = CalculateChecksum data ∧
    (sr_metadata a ≠ None → parseVersionFromMetadata (sr_metadata a) = v)) as Hval.
  { intros a Ha Hk. destruct (Hacc _ Hk) as [Hs Hm]. destruct (Ht a Ha) as [Hs' Hm'].
    destruct (Hu (sr_deviceName a) path) as [Hu1 Hu2]. rewrite Hu1, Hs in Hs'. injection Hs' as Hs'.
    rewrite Hu2, (Hm Hkeep) in Hm'. rewrite observation_effective, <-Hs'.
    destruct Hm' as [->| ->]; [by split|]. unfold isSecretDeleted. rewrite stamp_label by done. split.
    - rewrite bool_decide_false; [done|]. intros He. apply Hdel. destruct (md_label md _); [by simpl in He; subst|done].
    - intros _. by apply stamp_version. }
  assert (successful res ≠ [] ∧ winner (successful res) (num_clients rclients) = CalculateChecksum data)
    as [Hl Hw]; [|by apply find_winner].
  destruct Henough as [(Hn & (a & Ha & Hka & Hma) & Hold)|(Hn & Hmaj)].
  - assert (successful res ≠ []) as Hl by (intros E; rewrite E in Ha; by apply elem_of_nil in Ha). split; [done|].
    destruct (winner_newest _ _ Hn Hl) as (best & Hb & Hmax & ->).
    destruct (decide (accepted results (sr_deviceName best))) as [Hkb|Hkb]; [by apply Hval|].
    specialize (Hold best Hb Hkb). specialize (Hmax a Ha).
    apply newer_version in Hmax; [done|]. simpl. by rewrite (proj2 (Hval a Ha Hka) Hma).
  - split; [intros E; rewrite E in Hmaj; unfold len in Hmaj; simpl in Hmaj; lia|].
    apply winner_majority; [done|done|]. eapply majority_votes; [|exact Hmaj]. intros a Ha Hk. by apply Hval.
Qed.

(** C15. The version counter: it changes nothing, and exceeds the version of every
    device that answers, unless one of them already holds the greatest int64, when
    it wraps around to the least. *)
Theorem nextVersion_fresh (clients : gmap string (Client W)) (path : string) (w w' : W) (v : Z) :
  clients_ok clients → nextVersion clients path w = (v, w') →
  unchanged w w' ∧
  ((∀ k, is_Some (clients !! k) → MetadataVersion (md_at w k path) < int64_max) →
     0 < v ∧ ∀ k c, clients !! k = Some c → answers (c_ReadMetadata c path) w → MetadataVersion (md_at w k path) < v) ∧
  ((∃ k c, clients !! k = Some c ∧ answers (c_ReadMetadata c path) w ∧ MetadataVersion (md_at w k path) = int64_max) →
     v = int64_min).
Proof.
  intros Hc (Hu & m & -> & Hm & Hall & Hmax)%nextVersion_spec; [|done]. split_and!; [done| |].
  - intros Hlt. assert (m < int64_max) as Hm'.
    { destruct Hmax as [->|(k & Hk & ->)]; [done|by apply Hlt]. }
    rewrite to_int64_id by (unfold in_int64, int64_min, int64_max in *; lia).
    split; [lia|]. intros k c Hk Ha. specialize (Hall k c Hk Ha). lia.
  - intros (k & c & Hk & Ha & He). specialize (Hall k c Hk Ha).
    assert (m = int64_max) as -> by lia. done.
Qed.

(** C16. Read after delete: if every answer of a later read comes, with its metadata,
    from a device that accepted the deletion, the secret is not found. *)
Theorem delete_then_read (time_Now : ST W Time) (clients rclients : gmap string (Client W)) (path : string)
    (w1 w2 w3 w4 : W) (results : gmap string WriteResult) (res : list (string * secretResult)) :
  clients_ok clients → clients_ok rclients → rclients !! "" = None → preserves unchanged time_Now → buriable path →
  tombstoneDeleteFromAllDevices time_Now clients path w1 = (results, w2) → unchanged w2 w3 →
  for_all_clients 2 rclients (read_both path) w3 = (res, w4) →
  (∀ a, a ∈ successful res → accepted results (sr_deviceName a) ∧ sr_metadata a ≠ None) →
  findMostRecentSecretResult (successful res) (num_clients rclients) =
  Err (errorf "secret not found on any HSM device").
Proof.
  intros Hc Hrc Hne Hn Hsto (_ & _ & Hacc)%delete_all_spec Hu Hres Hall; [|done|done].
  specialize (Hacc Hsto).
  destruct (successful_spec _ _ _ _ _ Hrc Hne Hres) as (_ & Hnd & Hids & _ & Ht).
  destruct (decide (successful res = [])) as [->|Hl]; [done|].
  destruct (find_spec _ (num_clients rclients) Hnd Hids Hl) as [[_ ->]|(a & Ha & Hlive & _)]; [done|].
  destruct (Hall a Ha) as [Hk Hm]. destruct (Hacc _ Hk) as [_ [now Hmd]]. destruct (Ht a Ha) as [_ [?|Hma]]; [done|].
  rewrite (proj2 (Hu _ _)), Hmd in Hma. rewrite Hma, tombstone_deleted in Hlive. done.
Qed.

(** A tombstone does not outlive a live copy: its version is 0, so with fewer
    than three devices a device that missed the deletion and still holds a copy of
    positive version brings the secret back: the read answers it. *)
Theorem tombstone_loses (time_Now : ST W Time) (clients rclients : gmap string (Client W)) (path : string)
    (w1 w2 w3 w4 : W) (results : gmap string WriteResult) (res : list (string * secretResult)) (a : secretResult) :
  clients_ok clients → clients_ok rclients → rclients !! "" = None → preserves unchanged time_Now → buriable path →
  tombstoneDeleteFromAllDevices time_Now clients path w1 = (results, w2) → unchanged w2 w3 →
  for_all_clients 2 rclients (read_both path) w3 = (res, w4) → num_clients rclients < 3 →
  (∀ a, a ∈ successful res → ¬ accepted results (sr_deviceName a) → isSecretDeleted (sr_metadata a) = false) →
  a ∈ successful res → ¬ accepted results (sr_deviceName a) → 0 < parseVersionFromMetadata (sr_metadata a) →
  ∃ d b, b ∈ successful res ∧ ¬ accepted results (sr_deviceName b) ∧
    findMostRecentSecretResult (successful res) (num_clients rclients) = Ok d ∧
    CalculateChecksum d = CalculateChecksum (sr_data b).
Proof.
  intros Hc Hrc Hne Hn Hsto (_ & _ & Hacc)%delete_all_spec Hu Hres Hlt Hlive Ha Hka Hva; [|done|done].
  specialize (Hacc Hsto).
  destruct (successful_spec _ _ _ _ _ Hrc Hne Hres) as (_ & Hnd & Hids & _ & Ht).
  assert (successful res ≠ []) as Hl by (intros E; rewrite E in Ha; by apply elem_of_nil in Ha).
  destruct (winner_newest _ _ Hlt Hl) as (best & Hb & Hmax & Hw).
  assert (¬ accepted results (sr_deviceName best)) as Hkb.
  { intros Hk. destruct (Hacc _ Hk) as [_ [now Hmd]]. destruct (Ht best Hb) as [_ Hmb].
    rewrite (proj2 (Hu _ _)), Hmd in Hmb. specialize (Hmax a Ha). apply newer_version in Hmax; [done|]. simpl.
    destruct Hmb as [-> | ->]; [done|]. by rewrite tombstone_version. }
  rewrite observation_effective, (Hlive best Hb Hkb) in Hw.
  destruct (find_winner _ _ _ Hnd Hids Hl Hw) as (d & Hd & Hcd). by exists d, best.
Qed.
End Rules.

(** ** The handlers *)
Section Handlers.
Context {W : Type} `{!StoreView W} `{MapOrder} `{Scheduler}.
Context (am : option (AgentManagerInterface W)) (time_Now : ST W Time) (operatorNamespace : string).
Hypothesis am_laws : ∀ a, am = Some a → AgentLaws a time_Now.
Hypothesis clock : preserves unchanged time_Now.

(** Nothing changed outside of the paths that path [o] overlaps (nothing at all, if
    [None]). *)
Definition stays (o : option string) (w w' : W) : Prop :=
  ∀ s p, (∀ path, o = Some path → ¬ overlaps path p) → sec_at w' s p = sec_at w s p ∧ md_at w' s p = md_at w s p.

#[global] Instance stays_PreOrder o : PreOrder (stays o).
Proof.
  split; [by intros w s p|]. intros w1 w2 w3 H1 H2 s p Hp. destruct (H1 s p Hp), (H2 s p Hp). split; congruence.
Qed.

Lemma unchanged_stays o w w' : unchanged w w' → stays o w w'.
Proof. intros Hu s p _. apply Hu. Qed.

Lemma only_on_stays devs path w w' : only_on devs path w w' → stays (Some path) w w'.
Proof. intros Ho s p Hne. apply Ho. right. by apply Hne. Qed.

Lemma createGRPCClient_spec d w r w' :
  createGRPCClient am d w = (r, w') → unchanged w w' ∧ ∀ c, r = Ok c → ClientLaws (dd_SerialNumber d) c.
Proof.
  unfold createGRPCClient. destruct am as [a|] eqn:E; [|by intros [= <- <-]].
  pose proof (am_laws a eq_refl) as Ha. unfold st_try, st_bind.
  pose proof (CreateGRPCClient_unchanged a time_Now d w) as Hu.
  destruct (CreateGRPCClient a d w) as [[c|e] w1] eqn:Ec; intros [= <- <-]; (split; [done|]); [|done].
  intros c' [= <-]. apply (CreateGRPCClient_Ok a time_Now d w). by rewrite Ec.
Qed.

Lemma cached_client_spec clients d cache w clients' cache' w' :
  clients_ok clients → clients_ok cache →
  cached_client am clients d (cache, w) = (clients', (cache', w')) →
  clients_ok clients' ∧ clients_ok cache' ∧ unchanged w w'.
Proof.
  intros Hc Hca. unfold cached_client, st_bind, get_cache, put_cache, on_world, st_ret, PState, ProxyClient. cbn [fst snd].
  assert (∀ (ca : gmap string (Client W)) w1 r w2, clients_ok ca → createGRPCClient am d w1 = (r, w2) →
    ∀ x, match r with Err _ => (clients, (ca, w2))
         | Ok c => (<[dd_SerialNumber d := c]> clients, (<[dd_SerialNumber d := c]> ca, w2)) end = (clients', (cache', x)) →
    clients_ok clients' ∧ clients_ok cache' ∧ unchanged w1 x) as Hnew.
  { intros ca w1 r w2 Hok [Hu Hr]%createGRPCClient_spec x.
    destruct r as [c|e]; intros [= <- <- <-]; [|done].
    split_and!; [apply map_Forall_insert_2; [by apply Hr|done]..|done]. }
  destruct (cache !! dd_SerialNumber d) as [c|] eqn:Ec; cbn [fst snd].
  - assert (ClientLaws (dd_SerialNumber d) c) as Hcl by exact (Hca _ _ Ec).
    pose proof (IsConnected_unchanged (c := c) w) as Hu1.
    destruct (c_IsConnected c w) as [[|] w1]; cbn [fst snd] in *.
    { intros [= <- <- <-]. split_and!; [by apply map_Forall_insert_2|done|done]. }
    pose proof (Close_unchanged (c := c) w1) as Hu2. destruct (c_Close c w1) as [rc w2]; cbn [fst snd] in *.
    destruct (createGRPCClient am d w2) as [r w3] eqn:Er; cbn [fst snd].
    intros Hrun.
    assert (clients_ok clients' ∧ clients_ok cache' ∧ unchanged w2 w') as (? & ? & ?).
    { eapply (Hnew (delete (dd_SerialNumber d) cache) w2 r w3); [by apply map_Forall_delete|done|by destruct r]. }
    split_and!; [done|done|]. by repeat (etrans; [eassumption|]).
  - destruct (createGRPCClient am d w) as [r w3] eqn:Er; cbn [fst snd].
    intros Hrun. eapply (Hnew cache w r w3); [done|done|by destruct r].
Qed.

Lemma with_clients k cache w resp cache' w' :
  clients_ok cache →
  getAllAvailableGRPCClients am operatorNamespace k (cache, w) = (resp, (cache', w')) →
  (clients_ok cache' ∧ unchanged w w' ∧ resp.1 = StatusServiceUnavailable) ∨
  ∃ clients cache1 w1, clients_ok clients ∧ clients_ok cache1 ∧ unchanged w w1 ∧ clients ≠ ∅ ∧
    k clients (cache1, w1) = (resp, (cache', w')).
Proof.
  intros Hca. unfold getAllAvailableGRPCClients. unfold st_bind at 1, on_world at 1. cbn [fst snd].
  assert (unchanged w (getAllAvailableAgents am operatorNamespace w).2) as Hu1.
  { unfold getAllAvailableAgents. destruct am as [a|] eqn:E; [|done].
    pose proof (am_laws a eq_refl) as Ha. apply (GetAvailableDevices_unchanged a time_Now operatorNamespace w). }
  destruct (getAllAvailableAgents am operatorNamespace w) as [[devices|e] w1]; cbn [fst snd] in *.
  2:{ intros [= <- <- <-]. by left. }
  unfold st_bind. match goal with |- context [st_fold ?f ?l ?s ?v] =>
    pose proof (st_fold_inv f (λ cl v', clients_ok cl ∧ clients_ok v'.1 ∧ unchanged w1 v'.2) l s v) as Hinv;
    destruct (st_fold f l s v) as [clients [cache1 w2]] end.
  cbn [fst snd] in Hinv. destruct Hinv as (Hc & Hc1 & Hu2).
  { split_and!; [apply map_Forall_empty|done|done]. }
  { intros cl [ca wx] d _ (H1 & H2 & H3). destruct (cached_client am cl d (ca, wx)) as [cl' [ca' wx']] eqn:E.
    cbn [fst snd] in *. apply cached_client_spec in E as (? & ? & ?); [|done..].
    split_and!; [done|done|by etrans]. }
  case_bool_decide as He.
  - intros [= <- <- <-]. left. split_and!; [done|by etrans|done].
  - intros Hk. right. exists clients, cache1, w2. split_and!; [done|done|by etrans|done|done].
Qed.

(** A handler over the clients that keeps the cache and stays within [o]. *)
Definition within (o : option string) (k : gmap string (Client W) → ST (PState (W := W)) HTTP) : Prop :=
  ∀ clients cache w resp cache' w', clients_ok clients →
    k clients (cache, w) = (resp, (cache', w')) → cache' = cache ∧ stays o w w'.

Lemma within_getAll o k cache w resp cache' w' :
  within o k → clients_ok cache →
  getAllAvailableGRPCClients am operatorNamespace k (cache, w) = (resp, (cache', w')) →
  clients_ok cache' ∧ stays o w w'.
Proof.
  intros Hk Hca [(Hc & Hu & _)|(clients & cache1 & w1 & Hc & Hc1 & Hu & _ & E)]%with_clients; [| |done].
  - split; [done|by apply unchanged_stays].
  - destruct (Hk _ _ _ _ _ _ Hc E) as [-> Hs]. split; [done|]. etrans; [by apply unchanged_stays|done].
Qed.

(** The shape of most handlers: one action of the world, then the response. *)
Lemma within_action {A} o (m : gmap string (Client W) → ST W A) (f : gmap string (Client W) → A → HTTP) :
  (∀ clients w, clients_ok clients → stays o w (m clients w).2) →
  within o (λ clients, st_bind (on_world (m clients)) (λ a, st_ret (f clients a))).
Proof.
  intros Hm clients cache w resp cache' w' Hc. unfold st_bind, on_world, st_ret. cbn [fst snd].
  specialize (Hm clients w Hc). destruct (m clients w) as [a w1]. cbn [fst snd] in *. by intros [= <- <- <-].
Qed.

Lemma read_action {A B} (op : Client W → ST W (result B)) (post : string → result B → A) clients w :
  (∀ s c w, ClientLaws s c → unchanged w (op c w).2) → clients_ok clients →
  unchanged w (for_all_clients 1 clients (λ k c, go_then (op c) (λ r, Done (post k r))) w).2.
Proof.
  intros Hop Hc. destruct (for_all_clients 1 clients _ w) as [res w'] eqn:E.
  by apply (read_fan_out _ op post (λ _ _, True)) in E as (_ & _ & Hu).
Qed.

Lemma IsConnected_loop (l : list (string * Client W)) (devices : gmap string bool) w :
  Forall (λ kc, ClientLaws kc.1 kc.2) l →
  unchanged w (st_fold (λ (devices : gmap string bool) '(deviceName, grpcClient),
    st_bind (c_IsConnected grpcClient) (λ connected, st_ret (<[deviceName := connected]> devices))) l devices w).2.
Proof.
  intros Hl. revert devices w. induction Hl as [|[k c] l Hc Hl IH]; intros devices w; cbn [st_fold]; [done|].
  cbn [fst snd] in Hc. unfold st_bind at 1 2. pose proof (IsConnected_unchanged (c := c) w) as Hu.
  destruct (c_IsConnected c w) as [b w1]. cbn [fst snd] in Hu. etrans; [exact Hu|]. apply IH.
Qed.

Lemma any_checksum_unchanged path (l : list (string * Client W)) w :
  Forall (λ kc, ClientLaws kc.1 kc.2) l → unchanged w (any_checksum path l w).2.
Proof.
  intros Hl. revert w. induction Hl as [|[k c] l Hc Hl IH]; intros w; cbn [any_checksum]; [done|].
  cbn [fst snd] in Hc. unfold st_bind. pose proof (GetChecksum_unchanged (c := c) path w) as Hu.
  destruct (c_GetChecksum c path w) as [[x|e] w1]; cbn [fst snd] in Hu; [done|]. etrans; [exact Hu|]. apply IH.
Qed.

Lemma clients_ok_range clients : clients_ok clients → Forall (λ kc, ClientLaws kc.1 kc.2) (range clients).
Proof. intros Hc. apply Forall_forall. intros [k c] Hin%elem_of_range. by apply Hc. Qed.

(** The path a call may write. *)
Definition touched (call : APICall) : option string :=
  match call with
  | PUT_secret path _ | DELETE_secret path | DELETE_key path _ => Some path
  | _ => None
  end.

Lemma within_ReadSecret path : within None (λ clients,
  (let* results := on_world (for_all_clients 2 clients (read_both path)) in
   match findMostRecentSecretResult (filter (λ r, sr_err r = None) results.*2) (num_clients clients) with
   | Err err => st_ret (sendError StatusNotFound "secret_not_found" (error_string err) [])
   | Ok data =>
       let* checksum := (if 0 <? len (filter (λ r, sr_err r = None) results.*2)
                         then on_world (any_checksum path (range clients)) else st_ret "") in
       st_ret (sendResponse StatusOK "Secret read successfully"
         (ReadSecretResponse path data checksum (len (filter (λ r, sr_err r = None) results.*2))))
   end)%go).
Proof.
  intros clients cache w resp cache' w' Hc. unfold st_bind at 1, on_world at 1. cbn [fst snd].
  destruct (for_all_clients 2 clients (read_both path) w) as [res w1] eqn:E.
  apply read_both_fan_out in E as (_ & _ & Hu); [|done].
  destruct (findMostRecentSecretResult _ _) as [data|e]; [|by intros [= <- <- <-]; split; [|apply unchanged_stays]].
  destruct (0 <? len _); unfold st_bind, on_world, st_ret; cbn [fst snd].
  - pose proof (any_checksum_unchanged path (range clients) w1 (clients_ok_range _ Hc)) as Hu2.
    destruct (any_checksum path (range clients) w1) as [ck w2]. cbn [snd] in Hu2. intros [= <- <- <-].
    split; [done|]. apply unchanged_stays. by etrans.
  - intros [= <- <- <-]. split; [done|]. by apply unchanged_stays.
Qed.

Lemma within_WriteSecret path (req : WriteRequest) : within (Some path) (λ clients,
  (let* version := on_world (nextVersion clients path) in
   let* now := on_world time_Now in
   let* results := on_world (writeToAllDevices clients path (rq_Data req) (Some (stamp (rq_Metadata req) version now))) in
   st_ret (if 0 <? successes results
           then sendResponse StatusCreated "Secret written successfully"
                  (WriteSecretResponse path (Z.of_nat (size (rq_Data req))))
           else sendError StatusInternalServerError "write_failed"
                  "Failed to write secret to any HSM device" []))%go).
Proof.
  intros clients cache w resp cache' w' Hc. unfold st_bind, on_world, st_ret. cbn [fst snd].
  destruct (nextVersion clients path w) as [v w1] eqn:E1. apply nextVersion_spec in E1 as [Hu1 _]; [|done].
  cbn [fst snd]. pose proof (clock w1) as Hu2. destruct (time_Now w1) as [now w2]. cbn [fst snd] in *.
  destruct (writeToAllDevices clients path _ _ w2) as [results w3] eqn:E3.
  apply write_all_spec in E3 as (Ho & _); [|done]. intros [= <- <- <-]. split; [done|].
  etrans; [apply unchanged_stays; by etrans|by eapply only_on_stays].
Qed.

(** Every call, as a guard on its parameters before a handler over the clients. *)
Definition isolated (o : option string) (m : ST (PState (W := W)) HTTP) : Prop :=
  ∀ cache w resp cache' w', clients_ok cache → m (cache, w) = (resp, (cache', w')) →
    clients_ok cache' ∧ stays o w w'.

Lemma isolated_getAll o k : within o k → isolated o (getAllAvailableGRPCClients am operatorNamespace k).
Proof. intros Hk cache w resp cache' w'. by apply within_getAll. Qed.

Lemma isolated_ret o r : isolated o (st_ret r).
Proof. intros cache w resp cache' w' Hc [= <- <- <-]. done. Qed.

Lemma isolated_path o path m : isolated o m → isolated o (validatePathParam path m).
Proof. intros Hm. unfold validatePathParam. case_bool_decide; [apply isolated_ret|done]. Qed.

Lemma handle_isolated call :
  (∀ req, call ≠ POST_change_pin req) → isolated (touched call) (handle am time_Now operatorNamespace call).
Proof.
  intros Hpin. destruct call as [| |prefix|path|path req|path|path key|path|path|req]; cbn [handle touched].
  - apply isolated_getAll, (within_action None (λ clients, for_all_clients 1 clients (λ _ c, go_then (c_GetInfo c) Done))).
    intros clients w Hc. apply unchanged_stays. apply (read_action c_GetInfo (λ _ r, r)); [|done].
    intros. apply GetInfo_unchanged.
  - apply isolated_getAll, (within_action None (λ clients, st_fold (λ (devices : gmap string bool) '(deviceName, grpcClient),
      st_bind (c_IsConnected grpcClient) (λ connected, st_ret (<[deviceName := connected]> devices))) (range clients) ∅)).
    intros clients w Hc. apply unchanged_stays, IsConnected_loop. by apply clients_ok_range.
  - apply isolated_getAll, (within_action None (λ clients, for_all_clients 1 clients (λ _ c, go_then (c_ListSecrets c prefix) Done))).
    intros clients w Hc. apply unchanged_stays. apply (read_action (λ c, c_ListSecrets c prefix) (λ _ r, r)); [|done].
    intros. apply ListSecrets_unchanged.
  - apply isolated_path, isolated_getAll, within_ReadSecret.
  - apply isolated_path. destruct req as [req|e]; [|apply isolated_ret]. apply isolated_getAll, within_WriteSecret.
  - apply isolated_path, isolated_getAll, (within_action (Some path) (λ clients, tombstoneDeleteFromAllDevices time_Now clients path)).
    intros clients w Hc. destruct (tombstoneDeleteFromAllDevices time_Now clients path w) as [results w'] eqn:E.
    apply delete_all_spec in E as (Ho & _); [by eapply only_on_stays|done|done].
  - apply isolated_path. case_bool_decide; [apply isolated_ret|].
    apply isolated_getAll, (within_action (Some path) (λ clients, deleteKeyFromAllDevices clients path key)).
    intros clients w Hc. destruct (deleteKeyFromAllDevices clients path key w) as [results w'] eqn:E.
    apply delete_key_spec in E as (Ho & _); [by eapply only_on_stays|done].
  - apply isolated_path, isolated_getAll.
    apply (within_action None (λ clients, for_all_clients 1 clients (λ deviceName c, go_then (c_ReadMetadata c path) (λ r,
      Done match r with
           | Ok metadata => mkMetadataResult deviceName metadata None
           | Err err => mkMetadataResult deviceName None (Some err)
           end)))).
    intros clients w Hc. apply unchanged_stays. apply read_action; [|done]. intros. apply ReadMetadata_unchanged.
  - apply isolated_path, isolated_getAll.
    apply (within_action None (λ clients, for_all_clients 1 clients (λ deviceName c, go_then (c_GetChecksum c path) (λ r,
      Done match r with
           | Ok checksum => mkChecksumResult deviceName checksum None
           | Err err => mkChecksumResult deviceName "" (Some err)
           end)))).
    intros clients w Hc. apply unchanged_stays. apply read_action; [|done]. intros. apply GetChecksum_unchanged.
  - by destruct (Hpin req).
Qed.


(** ** Lemmas: counting the successes *)
Lemma successes_pos results : 0 < successes results ↔ ∃ k, accepted results k.
Proof.
  unfold successes. rewrite <-Nat2Z.inj_0, <-Nat2Z.inj_lt, <-Nat.neq_0_lt_0, map_size_non_empty_iff. split.
  - intros (k & r & Hk)%map_choose. apply map_lookup_filter_Some in Hk as [Hk He]. by exists k, r.
  - intros (k & r & Hk & He) Hnil. assert (filter (λ kr : string * WriteResult, wr_Error kr.2 = None) results !! k = Some r)
      as Hf by by apply map_lookup_filter_Some.
    by rewrite Hnil, lookup_empty in Hf.
Qed.

Lemma successes_all results k : Z.of_nat (size results) ≤ successes results → is_Some (results !! k) → accepted results k.
Proof.
  unfold successes. intros Hle [r Hk]. exists r. split; [done|].
  set (f := filter (λ kr : string * WriteResult, wr_Error kr.2 = None) results) in *.
  assert (f = results) as Hf by (apply map_subseteq_size_eq; [apply map_filter_subseteq|lia]).
  assert (f !! k = Some r) as Hfk by by rewrite Hf. by apply map_lookup_filter_Some in Hfk as [_ ?].
Qed.

Lemma size_dom_eq (clients : gmap string (Client W)) (results : gmap string WriteResult) :
  dom results = dom clients → num_clients clients = Z.of_nat (size results).
Proof. intros Hd. unfold num_clients. by rewrite <-!size_dom, Hd. Qed.

(** The data and the stamped metadata of a request can be told apart again. *)
Definition sendable (path : string) (req : WriteRequest) : Prop :=
  storable path (rq_Data req) ∧ ∀ v now, keepable (stamp (rq_Metadata req) v now).

Lemma put_status cache cache' w w' path code resp req :
  clients_ok cache →
  handle am time_Now operatorNamespace (PUT_secret path (Ok req)) (cache, w) = ((code, resp), (cache', w')) →
  sendable path req → code = StatusCreated →
  ∃ k v now, sec_at w' k path = Some (rq_Data req) ∧ md_at w' k path = Some (stamp (rq_Metadata req) v now).
Proof.
  intros Hca. cbn [handle]. unfold WriteSecret, validatePathParam. case_bool_decide as Hp; [by intros [= <- <- _ _]|].
  intros [(_ & _ & H5)|(clients & cache1 & w1 & Hc & _ & _ & _ & E)]%with_clients [Hsto Hkeep] Hcode; [by simpl in H5; subst| |done].
  revert E. unfold st_bind, on_world, st_ret. cbn [fst snd].
  destruct (nextVersion clients path w1) as [v w2]. cbn [fst snd].
  destruct (time_Now w2) as [now w3]. cbn [fst snd].
  destruct (writeToAllDevices clients path _ _ w3) as [results w4] eqn:Ew.
  apply write_all_spec in Ew as (_ & _ & _ & Ha); [|done].
  destruct (0 <? successes results) eqn:Es; intros [= Hcd _ _ <-]; [|by subst].
  apply Z.ltb_lt, successes_pos in Es as [k Hk]. destruct (Ha Hsto k Hk) as [Hs Hm].
  exists k, v, now. split; [done|]. by apply Hm.
Qed.

(** Device [k] holds the tombstone of [path]. *)
Definition deleted (path : string) (w : W) (k : string) : Prop :=
  sec_at w k path = Some ∅ ∧ ∃ now, md_at w k path = Some (tombstoneMetadata now).

Lemma delete_status cache cache' w w' path code resp :
  clients_ok cache → buriable path →
  handle am time_Now operatorNamespace (DELETE_secret path) (cache, w) = ((code, resp), (cache', w')) →
  (code = StatusPartialContent → ∃ k, deleted path w' k) ∧
  (code = StatusOK → ∃ devs results, devs ≠ [] ∧ NoDup devs ∧ (∀ k, k ∈ devs → deleted path w' k) ∧
     ar_Data resp = Some (DeleteSecretResponse path (len devs) results [])).
Proof.
  intros Hca Hsto. cbn [handle]. unfold DeleteSecret, validatePathParam. case_bool_decide as Hp; [intros [= <- <- _ _]; by split|].
  intros [(_ & _ & H5)|(clients & cache1 & w1 & Hc & _ & _ & Hne & E)]%with_clients; [simpl in H5; subst; by split| |done].
  revert E. unfold st_bind, on_world, st_ret. cbn [fst snd].
  destruct (tombstoneDeleteFromAllDevices time_Now clients path w1) as [results w2] eqn:Ed.
  apply delete_all_spec in Ed as (_ & Hd & Ha); [|done|done]. specialize (Ha Hsto).
  destruct (0 <? successes results) eqn:Es; [|intros [= <- <- _ <-]; by split].
  apply Z.ltb_lt in Es. pose proof Es as [k Hk]%successes_pos.
  destruct (successes results <? num_clients clients) eqn:El; intros [= <- <- _ <-]; (split; [|try done]); [|done|].
  + intros _. exists k. by apply Ha.
  + intros _. apply Z.ltb_ge in El. rewrite (size_dom_eq _ _ Hd) in El.
    exists (range clients).*1, (device_results results). split_and!.
    * intros Hnil. apply Hne. apply map_eq. intros k'. rewrite lookup_empty.
      apply eq_None_not_Some. rewrite <-elem_of_range_keys, Hnil. apply not_elem_of_nil.
    * apply range_keys_NoDup.
    * intros k' Hk'%elem_of_range_keys. apply Ha, successes_all; [done|].
      apply elem_of_dom. rewrite Hd. by apply elem_of_dom.
    * simpl. assert (error_lines results = []) as ->.
      { unfold error_lines. apply elem_of_nil_inv. intros x (kr & Hin & Hx)%list_elem_of_omap.
        destruct kr as [k' r]. apply elem_of_range in Hin.
        destruct (successes_all results k' El) as (r' & Hr' & He); [by exists r|].
        assert (r' = r) as -> by congruence. by rewrite He in Hx. }
      unfold len, num_clients. by rewrite length_fmap, (range_perm clients), length_map_to_list.
Qed.

(** C14. The status codes of the writing calls tell the truth about the devices: 201
    means that at least one device holds exactly the data sent, stamped; 200 for a
    deletion means that every device the request reached holds the tombstone (and
    how many they are); 206 that at least one does; all this for data the devices can
    tell apart again. *)
Theorem status_truthful (cache cache' : gmap string (Client W)) (w w' : W) (path : string) (code : Z) (resp : APIResponse) :
  clients_ok cache →
  (∀ req, handle am time_Now operatorNamespace (PUT_secret path (Ok req)) (cache, w) = ((code, resp), (cache', w')) →
     sendable path req → code = StatusCreated →
     ∃ k v now, sec_at w' k path = Some (rq_Data req) ∧ md_at w' k path = Some (stamp (rq_Metadata req) v now)) ∧
  (handle am time_Now operatorNamespace (DELETE_secret path) (cache, w) = ((code, resp), (cache', w')) →
     buriable path →
     (code = StatusPartialContent → ∃ k, deleted path w' k) ∧
     (code = StatusOK → ∃ devs results, devs ≠ [] ∧ NoDup devs ∧ (∀ k, k ∈ devs → deleted path w' k) ∧
        ar_Data resp = Some (DeleteSecretResponse path (len devs) results []))).
Proof. intros Hca. split; [intros req; by apply put_status|intros E Hsto; by eapply delete_status]. Qed.
End Handlers.

(** ** Witnesses: two mock devices *)
Module ProxyWitness.
#[local] Existing Instance listed_order.
#[local] Instance round_robin : Scheduler := λ t, t.
Definition empty_mock (connected : bool) : MockClient := mkMock connected false ∅ ∅ (mkConfig "" 0 false "" 0 0 0 None).
Definition old : SecretData := {["k" := "old"]}.
(** Device A holds version 5 of the secret, device B nothing. *)
Definition w0 : Fleet :=
  <["A" := mkMock true false {["app" := old]} {["app" := labelled {["sync.version" := "5"]}]} (mkConfig "" 0 false "" 0 0 0 None)]>
  (<["B" := empty_mock true]> ∅).
Definition clients : gmap string (Client Fleet) := <["A" := mock_of "A"]> (<["B" := mock_of "B"]> ∅).

Lemma clients_are_ok : clients_ok clients.
Proof. apply map_Forall_insert_2; [apply mock_laws|]. apply map_Forall_insert_2; [apply mock_laws|]. apply map_Forall_empty. Qed.

Lemma clock_ok : preserves unchanged fleet_clock.
Proof. intros w. reflexivity. Qed.

Definition fresh : SecretData := <["k" := "new"]> (<["u" := "v"]> ∅).
Definition now : Time := mkTime 1767225600 0.
Definition wr : gmap string WriteResult * Fleet := writeToAllDevices clients "app" fresh (Some (stamp None 6 now)) w0.
Definition rd : list (string * secretResult) * Fleet := for_all_clients 2 clients (read_both "app") wr.2.

Lemma wr_enough : enough wr.1 6 (successful rd.1) (num_clients clients).
Proof.
  left. split; [vm_compute; reflexivity|]. split.
  - exists (mkSecretAnswer "A" fresh (Some (stamp None 6 now)) None).
    split; [vm_compute; left|]. split; [decide_goal|discriminate].
  - intros a Ha Hn. destruct Hn. revert a Ha. apply Forall_forall. decide_goal.
Qed.

Example write_then_read_witness :
  ∃ d, findMostRecentSecretResult (successful rd.1) (num_clients clients) = Ok d ∧
       CalculateChecksum d = CalculateChecksum fresh.
Proof.
  refine (write_then_read clients clients "app" fresh None 6 now w0 wr.2 wr.2 rd.2 wr.1 rd.1
    clients_are_ok clients_are_ok _ _ _ I I (surjective_pairing wr) _ (surjective_pairing rd) wr_enough).
  - vm_compute. reflexivity.
  - split; vm_compute; discriminate.
  - discriminate.
  - reflexivity.
Defined.

Example nextVersion_fresh_witness : 0 < (nextVersion clients "app" w0).1.
Proof.
  refine (proj1 (proj1 (proj2 (nextVersion_fresh clients "app" w0 (nextVersion clients "app" w0).2
    (nextVersion clients "app" w0).1 clients_are_ok (surjective_pairing _))) _)).
  intros k _. rewrite fleet_md. unfold fleet_get, w0, Fleet.
  destruct (decide (k = "A")) as [->|HA]; [vm_compute; reflexivity|].
  destruct (decide (k = "B")) as [->|HB]; [vm_compute; reflexivity|].
  rewrite !lookup_insert_ne, lookup_empty by done. vm_compute. reflexivity.
Defined.

(** The deletion of the old copy, on both devices. *)
Definition del : gmap string WriteResult * Fleet := tombstoneDeleteFromAllDevices fleet_clock clients "app" w0.
Definition rd_del : list (string * secretResult) * Fleet := for_all_clients 2 clients (read_both "app") del.2.

Example delete_then_read_witness :
  findMostRecentSecretResult (successful rd_del.1) (num_clients clients) =
  Err (errorf "secret not found on any HSM device").
Proof.
  refine (delete_then_read fleet_clock clients clients "app" w0 del.2 del.2 rd_del.2 del.1 rd_del.1
    clients_are_ok clients_are_ok _ clock_ok (conj I (λ _, I)) (surjective_pairing del) _ (surjective_pairing rd_del) _).
  - vm_compute. reflexivity.
  - reflexivity.
  - apply Forall_forall. decide_goal.
Defined.

(** Device B is away while A's copy is deleted, and comes back. *)
Definition reconnect (m : MockClient) : unit * MockClient :=
  (tt, mkMock true (mc_tokenLost m) (mc_secrets m) (mc_metadata m) (mc_config m)).
Definition w_away : Fleet :=
  <["B" := mkMock false false {["app" := old]} {["app" := labelled {["sync.version" := "5"]}]} (mkConfig "" 0 false "" 0 0 0 None)]> w0.
Definition del_away : gmap string WriteResult * Fleet := tombstoneDeleteFromAllDevices fleet_clock clients "app" w_away.
Definition back : Fleet := (lift_st (fleet_get "B") (fleet_put "B") reconnect del_away.2).2.
Definition rd_back : list (string * secretResult) * Fleet := for_all_clients 2 clients (read_both "app") back.

Example tombstone_loses_witness :
  findMostRecentSecretResult (successful rd_back.1) (num_clients clients) = Ok old ∧
  ∃ d b, b ∈ successful rd_back.1 ∧ ¬ accepted del_away.1 (sr_deviceName b) ∧
    findMostRecentSecretResult (successful rd_back.1) (num_clients clients) = Ok d ∧
    CalculateChecksum d = CalculateChecksum (sr_data b).
Proof.
  split; [vm_compute; reflexivity|].
  refine (tombstone_loses fleet_clock clients clients "app" w_away del_away.2 back rd_back.2 del_away.1 rd_back.1
    (mkSecretAnswer "B" old (Some (labelled {["sync.version" := "5"]})) None)
    clients_are_ok clients_are_ok _ clock_ok (conj I (λ _, I)) (surjective_pairing del_away) _ (surjective_pairing rd_back) _ _ _ _ _).
  - vm_compute. reflexivity.
  - apply lift_unchanged. by split.
  - vm_compute. reflexivity.
  - assert (Forall (λ a, accepted del_away.1 (sr_deviceName a) ∨ isSecretDeleted (sr_metadata a) = false)
      (successful rd_back.1)) as HF by decide_goal.
    intros a Ha Hn. by destruct (proj1 (Forall_forall _ _) HF a Ha).
  - vm_compute. first [left | right; left].
  - decide_goal.
  - vm_compute. reflexivity.
Defined.

Definition dev (s : string) : DiscoveredDevice :=
  mkDiscoveredDevice "" s "node" (mkTime 0 0) ∅ true "" "" "" None "".
Definition am : AgentManagerInterface Fleet := fleet_manager [dev "A"; dev "B"].

Lemma am_ok : ∀ a, Some am = Some a → AgentLaws a fleet_clock.
Proof. intros a [= <-]. apply fleet_manager_laws. Qed.

Definition put : HTTP * PState := handle (Some am) fleet_clock "ns" (PUT_secret "app" (Ok (mkWriteRequest fresh None None))) (∅, w0).
Definition delete_all : HTTP * PState := handle (Some am) fleet_clock "ns" (DELETE_secret "app") (∅, w0).


Example status_truthful_witness :
  ∃ k v t, sec_at put.2.2 k "app" = Some fresh ∧ md_at put.2.2 k "app" = Some (stamp None v t).
Proof.
  refine (proj1 (status_truthful (Some am) fleet_clock "ns" am_ok clock_ok ∅ put.2.1 w0 put.2.2 "app" put.1.1 put.1.2 _)
    (mkWriteRequest fresh None None) _ (conj I (λ _ _, I)) _).
  - apply map_Forall_empty.
  - unfold put. destruct (handle _ _ _ _ _) as [[cd r] [c w]]. reflexivity.
  - vm_compute. reflexivity.
Defined.
End ProxyWitness.
