(* ===== verification/Server.v ===== *)
(** * internal/api/server.go and proxy_handlers.go: the REST server

    The middleware chain and the route table in front of the proxy's handlers, and the
    handlers the server answers itself.  gin's router is an argument with its law;
    recovery, logging and listening are not modelled. *)

From Stdlib Require Import Ascii.
From S2P Require Import Prelude GoStd Reconcile Hsm MockClient Api Kube Mirror Parallel Proxy ProxySpec Auth Trigger.

Local Open Scope go_scope.

(** ** Routes *)

(** The entries of the route table with their parameters. *)
Inductive Route :=
  | Rt_web (filepath : string)
  | Rt_root
  | Rt_token
  | Rt_hsm_info
  | Rt_status
  | Rt_secrets
  | Rt_read (path : string)
  | Rt_write (path : string)
  | Rt_delete (path : string)
  | Rt_delete_key (path key : string)
  | Rt_metadata (path : string)
  | Rt_checksum (path : string)
  | Rt_change_pin
  | Rt_mirror_sync
  | Rt_health
  | Rt_info.

Definition hsm_prefix : string := "/api/v1/hsm".
Definition secret_path (path : string) : string := hsm_prefix +:+ "/secrets" +:+ "/" +:+ path.

(** The methods and the pattern of a route, with its parameters filled in. *)
(* [internal/api/proxy_handlers.go:27-77 setupProxyRoutes] *)
Definition route_entry (r : Route) : list string * string :=
  match r with
  | Rt_web filepath => (["GET"; "HEAD"], "/web/" +:+ filepath)
  | Rt_root => (["GET"], "/")
  | Rt_token => (["POST"], "/api/v1/auth/token")
  | Rt_hsm_info => (["GET"], hsm_prefix +:+ "/info")
  | Rt_status => (["GET"], hsm_prefix +:+ "/status")
  | Rt_secrets => (["GET"], hsm_prefix +:+ "/secrets")
  | Rt_read path => (["GET"], secret_path path)
  | Rt_write path => (["POST"; "PUT"], secret_path path)
  | Rt_delete path => (["DELETE"], secret_path path)
  | Rt_delete_key path key => (["DELETE"], secret_path path +:+ "/" +:+ key)
  | Rt_metadata path => (["GET"], secret_path path +:+ "/metadata")
  | Rt_checksum path => (["GET"], secret_path path +:+ "/checksum")
  | Rt_change_pin => (["POST"], hsm_prefix +:+ "/change-pin")
  | Rt_mirror_sync => (["POST"], hsm_prefix +:+ "/mirror/sync")
  | Rt_health => (["GET"], "/api/v1/health")
  | Rt_info => (["GET"], "/api/v1/info")
  end.

(** A [:param] matches one segment of the path. *)
Fixpoint no_slash (s : string) : bool :=
  match s with EmptyString => true | String c s' => negb (bool_decide (c = "/"%char)) && no_slash s' end.
Definition is_segment (s : string) : bool := bool_decide (s ≠ "") && no_slash s.
Definition params_ok (r : Route) : bool :=
  match r with
  | Rt_read p | Rt_write p | Rt_delete p | Rt_metadata p | Rt_checksum p => is_segment p
  | Rt_delete_key p k => is_segment p && is_segment k
  | _ => true
  end.
(** The token endpoint is only there with an authenticator. *)
(* [internal/api/proxy_handlers.go:37-42 setupProxyRoutes] *)
Definition registered (authenticator : option APIAuthenticator) (r : Route) : bool :=
  match r with Rt_token => match authenticator with Some _ => true | None => false end | _ => true end.

(** gin's router: a request is dispatched to a registered route whose method and pattern
    it has; [None] is answered by 404. *)
Definition Router : Type := option APIAuthenticator → string → string → option Route.
Class RouterLaws (router : Router) : Prop :=
  router_law a m p r : router a m p = Some r →
    registered a r = true ∧ params_ok r = true ∧ m ∈ (route_entry r).1 ∧ p = (route_entry r).2.

(** ** Requests and replies *)

(** Method, decoded path, authorization header (empty if missing), the query parameter
    [prefix], and the body as gin binds it for the handler that wants it. *)
Record Request := mkRequest {
  rq_Method : string;
  rq_URLPath : string;
  rq_Authorization : string;
  rq_prefix : string;
  bind_write : result WriteRequest;
  bind_pin : result (string * string);
  bind_token : result string;
  bind_sync : result bool;
}.

Inductive Reply :=
  | Answer (response : HTTP)
  | AuthError (reply : AuthReply)
  | TokenIssued (response : TokenResponse)
  | Redirect (location : string)
  | StaticFile (filepath : string)
  | NoContent
  | NotFound.

(* [internal/api/constants.go:40-40] *)
Definition methodOptions : string := "OPTIONS".

(** The proxy handler of a route of the HSM group. *)
Definition api_call (req : Request) (r : Route) : option APICall :=
  match r with
  | Rt_hsm_info => Some GET_info
  | Rt_status => Some GET_status
  | Rt_secrets => Some (GET_secrets (rq_prefix req))
  | Rt_read path => Some (GET_secret path)
  | Rt_write path => Some (PUT_secret path (bind_write req))
  | Rt_delete path => Some (DELETE_secret path)
  | Rt_delete_key path key => Some (DELETE_key path key)
  | Rt_metadata path => Some (GET_metadata path)
  | Rt_checksum path => Some (GET_checksum path)
  | Rt_change_pin => Some (POST_change_pin (bind_pin req))
  | _ => None
  end.

(** ** The server *)
(* [internal/api/server.go:39-49] *)
Record Server (W : Type) := mkServer {
  sv_agentManager : option (AgentManagerInterface W);
  sv_operatorNamespace : string;
  sv_authenticator : option APIAuthenticator;
  sv_port : Z;
}.
Arguments mkServer {W}.
Arguments sv_agentManager {W}.
Arguments sv_operatorNamespace {W}.
Arguments sv_authenticator {W}.
Arguments sv_port {W}.

(** Without randomness for the secret the server runs without authentication. *)
(* [internal/api/server.go:52-77] *)
Definition NewServer {W} (agentManager : option (AgentManagerInterface W)) (operatorNamespace : string)
    (rand : result string) (port : Z) : Server W :=
  mkServer agentManager operatorNamespace
    (match NewAPIAuthenticator rand with Ok a => Some a | Err _ => None end) port.

Section Server.
Context {W : Type} `{MapOrder} `{Scheduler} (s : Server W) (router : Router).
Context (k8s : AuthApi W) (jwt : JWT W) (time_Now : ST W Time) (global : Registry W).

(* [internal/api/server.go:131-152] *)
Definition handleHealth : ST (PState (W := W)) HTTP :=
  let* r := on_world (getAllAvailableAgents (sv_agentManager s) (sv_operatorNamespace s)) in
  let agents := match r with Ok l => l | Err _ => [] end in
  let activeNodes := Z.of_nat (length agents) in
  let hsmConnected := 0 <? activeNodes in
  let* now := on_world time_Now in
  st_ret (sendResponse StatusOK "Health check completed" (HealthResponse
    (mkHealthStatus (if negb hsmConnected then "degraded" else "healthy") hsmConnected (1 <? activeNodes) activeNodes now))).

(* [internal/api/proxy_handlers.go:83-92] *)
Definition handleInfo : HTTP :=
  sendResponse StatusOK "API information" (InfoResponse
    (<["service" := "HSM Secrets Operator API"]> (<["version" := "v1alpha1"]> (<["mode" := "proxy"]>
     {["description" := "Proxies HSM operations to agent pods"]})))).

(** An empty body, of which gin says EOF, is no error. *)
(* [internal/api/server.go:155-195] *)
Definition handleMirrorSync (req : result bool) : ST (PState (W := W)) HTTP :=
  match (match req with Ok force => Ok force | Err err => if bool_decide (error_string err = "EOF") then Ok false else Err err end) with
  | Err err => st_ret (sendError StatusBadRequest "invalid_request" "Invalid request body" [(keyError, DStr (error_string err))])
  | Ok force =>
      match trigger_Get global with
      | None => st_ret (sendError StatusServiceUnavailable "mirror_unavailable" "Mirror service not available" [])
      | Some mirrorTrigger =>
          let reason := if (force : bool) then "manual_api_force" else "manual_api" in
          do! on_world (TriggerMirror mirrorTrigger reason "api_endpoint" force) in
          st_ret (sendResponse StatusOK "Mirror sync triggered"
            (MirrorSyncResponse true reason force "Mirror synchronization triggered successfully"))
      end
  end.

(** The handler of a route. *)
(* [internal/api/proxy_handlers.go:27-77 setupProxyRoutes] *)
Definition run_route (req : Request) (r : Route) : ST (PState (W := W)) Reply :=
  match api_call req r with
  | Some call => let* h := handle (sv_agentManager s) time_Now (sv_operatorNamespace s) call in st_ret (Answer h)
  | None =>
      match r with
      | Rt_web filepath => st_ret (StaticFile filepath)
      | Rt_root => st_ret (Redirect "/web/")
      | Rt_token =>
          match sv_authenticator s with
          | Some a =>
              let* t := on_world (HandleTokenGeneration k8s jwt time_Now a (bind_token req)) in
              st_ret (match t with inl e => AuthError e | inr t => TokenIssued t end)
          | None => st_ret NotFound
          end
      | Rt_mirror_sync => let* h := handleMirrorSync (bind_sync req) in st_ret (Answer h)
      | Rt_health => let* h := handleHealth in st_ret (Answer h)
      | _ => st_ret (Answer handleInfo)
      end
  end.

(** Routing a request the middleware let through. *)
Definition dispatch (req : Request) : ST (PState (W := W)) Reply :=
  match router (sv_authenticator s) (rq_Method req) (rq_URLPath req) with
  | Some r => run_route req r
  | None => st_ret NotFound
  end.

(** The rest of the chain behind the CORS middleware. *)
(* [internal/api/server.go:92-96 setupRouter] *)
Definition authenticated (req : Request) (next : ST (PState (W := W)) Reply) : ST (PState (W := W)) Reply :=
  match sv_authenticator s with
  | None => next
  | Some a =>
      let* v := on_world (AuthMiddleware jwt a (rq_URLPath req) (rq_Authorization req)) in
      match v with Aborted reply => st_ret (AuthError reply) | Next _ => next end
  end.

(* [internal/api/server.go:240-253] *)
Definition corsMiddleware (req : Request) (next : ST (PState (W := W)) Reply) : ST (PState (W := W)) Reply :=
  if bool_decide (rq_Method req = methodOptions) then st_ret NoContent else next.

(** A request through the whole chain. *)
(* [internal/api/server.go:80-100 setupRouter] *)
Definition serve (req : Request) : ST (PState (W := W)) Reply := corsMiddleware req (authenticated req (dispatch req)).
End Server.

(** ** Which routes need a token *)

Definition open_name (s : string) : bool := bool_decide (s = "health") || bool_decide (s = "healthz").

(** The routes the middleware lets through without one: the public ones, and those whose
    last parameter makes the path look like one of these. *)
Definition exempt (r : Route) : bool :=
  match r with
  | Rt_web _ | Rt_root | Rt_token | Rt_health => true
  | Rt_read p | Rt_write p | Rt_delete p => open_name p
  | Rt_delete_key p k => open_name k || (bool_decide (p = "auth") && bool_decide (k = "token"))
  | _ => false
  end.

Lemma no_slash_app a b : no_slash (a +:+ b) = no_slash a && no_slash b.
Proof. induction a as [|c a IH]; [done|]. simpl. by rewrite IH, andb_assoc. Qed.

(** The last segment of a path is determined. *)
Lemma last_segment a b p q :
  no_slash p = true → no_slash q = true → a +:+ "/" +:+ p = b +:+ "/" +:+ q → a = b ∧ p = q.
Proof.
  intros Hp Hq. revert b. induction a as [|c a IH]; intros [|c' b] E; simpl in E.
  - by injection E.
  - injection E as _ Ep. change (p = b +:+ "/" +:+ q) in Ep. rewrite Ep, no_slash_app in Hp. simpl in Hp. by rewrite andb_false_r in Hp.
  - injection E as _ Eq. change (a +:+ "/" +:+ p = q) in Eq. rewrite <-Eq, no_slash_app in Hq. simpl in Hq. by rewrite andb_false_r in Hq.
  - injection E as Ec Er. destruct (IH b Er) as [? ?]. by subst.
Qed.

Lemma ends_with a p q :
  no_slash p = true → no_slash q = true → has_suffix (a +:+ "/" +:+ p) ("/" +:+ q) = bool_decide (p = q).
Proof.
  intros Hp Hq. case_bool_decide as E; [subst; apply has_suffix_app|].
  destruct (has_suffix _ _) eqn:Hs; [|done]. apply has_suffix_spec in Hs as [b Hb].
  by apply last_segment in Hb as [_ ?].
Qed.

Lemma ends_with2 a p q r :
  no_slash p = true → no_slash r = true →
  has_suffix (a +:+ "/" +:+ p) ("/" +:+ q +:+ "/" +:+ r) = bool_decide (p = r) && has_suffix a ("/" +:+ q).
Proof.
  intros Hp Hr. destruct (has_suffix a ("/" +:+ q)) eqn:Ha.
  - apply has_suffix_spec in Ha as [b ->]. case_bool_decide as E; simpl.
    + subst. replace ((b +:+ "/" +:+ q) +:+ "/" +:+ r) with (b +:+ "/" +:+ q +:+ "/" +:+ r); [apply has_suffix_app|].
      by rewrite !str_app_assoc.
    + destruct (has_suffix _ _) eqn:Hs; [|done]. apply has_suffix_spec in Hs as [b' Hb].
      change ("/" +:+ q +:+ "/" +:+ r) with (("/" +:+ q) +:+ "/" +:+ r) in Hb. rewrite <-(str_app_assoc b' ("/" +:+ q)) in Hb.
      by apply last_segment in Hb as [_ ?].
  - rewrite andb_false_r. destruct (has_suffix (a +:+ _) _) eqn:Hs; [|done]. apply has_suffix_spec in Hs as [b Hb].
    change ("/" +:+ q +:+ "/" +:+ r) with (("/" +:+ q) +:+ "/" +:+ r) in Hb. rewrite <-(str_app_assoc b ("/" +:+ q)) in Hb.
    apply last_segment in Hb as [-> _]; [|done..]. by rewrite has_suffix_app in Ha.
Qed.

Lemma skips_auth_segment a p :
  no_slash p = true → has_prefix (a +:+ "/" +:+ p) "/web/" = false → a ≠ "" →
  skips_auth (a +:+ "/" +:+ p) = open_name p || (bool_decide (p = "token") && has_suffix a "/auth").
Proof.
  intros Hp Hw Ha. unfold skips_auth, open_name. change "/health" with ("/" +:+ "health"). change "/healthz" with ("/" +:+ "healthz").
  change "/auth/token" with ("/" +:+ "auth" +:+ "/" +:+ "token"). rewrite !ends_with, ends_with2, Hw, orb_false_r by done.
  rewrite (bool_decide_eq_false_2 (a +:+ _ = "/")), orb_false_r; [done|]. destruct a as [|c a]; [done|].
  intros [= _ E]. apply (f_equal String.length) in E. rewrite str_length_app in E. simpl in E. lia.
Qed.

Lemma skips_auth_route r : params_ok r = true → skips_auth (route_entry r).2 = exempt r.
Proof.
  unfold params_ok, is_segment. set (a := hsm_prefix +:+ "/secrets").
  assert (∀ p, no_slash p = true → has_suffix (a +:+ "/" +:+ p) "/auth" = bool_decide (p = "auth")) as Hauth.
  { intros p Hp. exact (ends_with a p "auth" Hp eq_refl). }
  destruct r as [f| | | | | |p|p|p|p k|p|p| | | |]; simpl params_ok; intros Hr; try (vm_compute; reflexivity);
    rewrite ?andb_true_iff in Hr; destruct_and?.
  - cbn [route_entry snd exempt]. unfold skips_auth. rewrite has_prefix_app. by rewrite orb_true_r.
  - change (route_entry (Rt_read p)).2 with (a +:+ "/" +:+ p). rewrite skips_auth_segment; [|done..].
    cbn [exempt]. by rewrite andb_false_r, orb_false_r.
  - change (route_entry (Rt_write p)).2 with (a +:+ "/" +:+ p). rewrite skips_auth_segment; [|done..].
    cbn [exempt]. by rewrite andb_false_r, orb_false_r.
  - change (route_entry (Rt_delete p)).2 with (a +:+ "/" +:+ p). rewrite skips_auth_segment; [|done..].
    cbn [exempt]. by rewrite andb_false_r, orb_false_r.
  - change (route_entry (Rt_delete_key p k)).2 with ((a +:+ "/" +:+ p) +:+ "/" +:+ k). rewrite skips_auth_segment; [|done..].
    cbn [exempt]. rewrite Hauth by done. by rewrite (andb_comm (bool_decide (k = _))).
  - change (route_entry (Rt_metadata p)).2 with ((a +:+ "/" +:+ p) +:+ "/" +:+ "metadata"). by rewrite skips_auth_segment.
  - change (route_entry (Rt_checksum p)).2 with ((a +:+ "/" +:+ p) +:+ "/" +:+ "checksum"). by rewrite skips_auth_segment.
Qed.

Section Gate.
Context {W : Type} `{MapOrder} `{Scheduler} (s : Server W) (router : Router) `{!RouterLaws router}.
Context (k8s : AuthApi W) (jwt : JWT W) (time_Now : ST W Time) (global : Registry W).
Local Abbreviation serve := (serve s router k8s jwt time_Now global).
Local Abbreviation run_route := (run_route s k8s jwt time_Now global).

(** The answers of the middleware to a path that needs a token. *)
Lemma AuthMiddleware_cases a path header w :
  skips_auth path = false →
  (∃ token claims w', header = BearerPrefix +:+ token ∧ ValidateToken jwt a token w = (Ok claims, w') ∧
     AuthMiddleware jwt a path header w = (Next (Some claims), w')) ∨
  (∃ reply w', AuthMiddleware jwt a path header w = (Aborted reply, w') ∧ au_Status reply = 401 ∧
     (w' = w ∨ ∃ token e, header = BearerPrefix +:+ token ∧ ValidateToken jwt a token w = (Err e, w'))).
Proof.
  intros Hp. unfold AuthMiddleware. rewrite Hp. case_bool_decide; [right; by eexists _, w; split; [done|]; split; [|left]|].
  destruct (has_prefix header BearerPrefix) eqn:Hb; cbn [negb]; [|right; by eexists _, w; split; [done|]; split; [|left]].
  apply has_prefix_spec in Hb as [token ->]. rewrite trim_prefix_app. unfold st_bind.
  destruct (ValidateToken jwt a token w) as [[claims|e] w'] eqn:E; [left|right].
  - by exists token, claims, w'.
  - eexists _, w'. split; [done|]. split; [done|]. right. by exists token, e.
Qed.

(** C28. With an authenticator, a request for a route outside the exempt ones is handled
    only with a bearer token that validates, and is otherwise answered 401 without
    touching the clients, the devices or the cluster.  The exempt routes are handled
    without a token; besides the public ones these are the secrets named health and
    healthz, the keys of these names of every secret, and the key token of a secret auth. *)
Theorem serve_gate a r req x :
  sv_authenticator s = Some a → rq_Method req ≠ methodOptions →
  router (Some a) (rq_Method req) (rq_URLPath req) = Some r →
  (exempt r = true → serve req x = run_route req r x) ∧
  (exempt r = false →
    (∃ token claims w', rq_Authorization req = BearerPrefix +:+ token ∧
       ValidateToken jwt a token x.2 = (Ok claims, w') ∧ serve req x = run_route req r (x.1, w')) ∨
    (∃ reply w', serve req x = (AuthError reply, (x.1, w')) ∧ au_Status reply = 401 ∧
       (w' = x.2 ∨ ∃ token e, rq_Authorization req = BearerPrefix +:+ token ∧ ValidateToken jwt a token x.2 = (Err e, w')))).
Proof.
  intros Ha Hm Hr. destruct (router_law _ _ _ _ Hr) as (_ & Hok & _ & Hpath).
  pose proof (skips_auth_route r Hok) as Hs. rewrite <-Hpath in Hs.
  unfold Server.serve, corsMiddleware. rewrite bool_decide_eq_false_2 by done. unfold authenticated, dispatch.
  rewrite Ha, Hr. destruct x as [c w]. unfold st_bind, on_world. cbn [fst snd]. split; intros Hex; rewrite Hex in Hs.
  - unfold AuthMiddleware. by rewrite Hs.
  - destruct (AuthMiddleware_cases a (rq_URLPath req) (rq_Authorization req) w Hs)
      as [(token & claims & w' & Hh & Hv & ->)|(reply & w' & -> & Hst & Hw)]; [left|right].
    + by exists token, claims, w'.
    + by exists reply, w'.
Qed.
End Gate.

(** ** Witness: a server over two mock devices *)
Module ServerWitness.
#[local] Existing Instance listed_order.
#[local] Existing Instance ProxyWitness.round_robin.

(** A router: the candidates for a path, then the first that fits. *)
Definition candidates (p : string) : list Route :=
  [Rt_root; Rt_token; Rt_hsm_info; Rt_status; Rt_secrets; Rt_change_pin; Rt_mirror_sync; Rt_health; Rt_info;
   Rt_web (str_drop 5 p)] ++
  match str_split "/"%char p with
  | [_; _; _; _; _; s] => [Rt_read s; Rt_write s; Rt_delete s]
  | [_; _; _; _; _; s; k] => [Rt_metadata s; Rt_checksum s; Rt_delete_key s k]
  | _ => []
  end.
Definition fits (a : option APIAuthenticator) (m p : string) (r : Route) : bool :=
  registered a r && params_ok r && bool_decide (m ∈ (route_entry r).1) && bool_decide (p = (route_entry r).2).
Definition router : Router := λ a m p, List.find (fits a m p) (candidates p).
#[global] Instance router_laws : RouterLaws router.
Proof.
  intros a m p r [_ Hf]%List.find_some. unfold fits in Hf. rewrite !andb_true_iff, !bool_decide_eq_true in Hf. tauto.
Qed.

(** Only the token of [AuthWitness] is accepted. *)
Definition jwt : JWT Fleet := mkJWT (λ _ _, Err (errorf "not used"))
  (λ t keyfunc w, (if bool_decide (t = AuthWitness.token) then Ok (AuthWitness.the_claims, true) else Err (errorf "token is invalid"), w)).
Definition k8s : AuthApi Fleet := mkAuthApi (λ _ w, (Err (errorf "not used"), w)) (λ _ _ w, (Err (errorf "not used"), w)).
Definition s : Server Fleet := mkServer (Some ProxyWitness.am) "ns" (Some (mkAuthenticator "secret")) 8090.
Definition get (name token : string) : Request :=
  mkRequest "GET" (secret_path name) token "" (Err (errorf "EOF")) (Err (errorf "EOF")) (Err (errorf "EOF")) (Err (errorf "EOF")).
(** Device A also holds a secret named health. *)
Definition w0 : Fleet :=
  <["A" := mkMock true false {["app" := ProxyWitness.old; "health" := ProxyWitness.old]} ∅ (mkConfig "" 0 false "" 0 0 0 None)]>
  (<["B" := ProxyWitness.empty_mock true]> ∅).
Definition answer (req : Request) : Reply := (serve s router k8s jwt fleet_clock None req (∅, w0)).1.
Definition status (r : Reply) : Z := match r with Answer h => h.1 | AuthError e => au_Status e | _ => 0 end.

Example serve_gate_witness :
  status (answer (get "app" ("Bearer " +:+ AuthWitness.token))) = 200 ∧
  status (answer (get "health" "")) = 200 ∧
  status (answer (get "app" "")) = 401 ∧
  ∃ reply w', serve s router k8s jwt fleet_clock None (get "app" "") (∅, w0) = (AuthError reply, (∅, w')) ∧ au_Status reply = 401.
Proof.
  split; [vm_compute; reflexivity|]. split; [vm_compute; reflexivity|]. split; [vm_compute; reflexivity|].
  destruct (serve_gate s router k8s jwt fleet_clock None (mkAuthenticator "secret") (Rt_read "app") (get "app" "") (∅, w0))
    as [_ Hgate].
  - reflexivity.
  - discriminate.
  - vm_compute. reflexivity.
  - destruct (Hgate eq_refl) as [(token & c & w' & Hh & _)|(reply & w' & E & Hs & _)]; [discriminate Hh|].
    exists reply, w'. split; [exact E|exact Hs].
Defined.
End ServerWitness.
