(* ===== verification/KubectlClient.v ===== *)
(** * kubectl-hsm/pkg/client and pkg/auth: the command line's client of the REST API

    A request to the operator's API with its token, which is kept in memory and in a file.
    HTTP, JSON, files, the clock (nanoseconds) and the Kubernetes API are arguments;
    time-outs and contexts are left out. *)

From Stdlib Require Import Ascii.
From S2P Require Import Prelude GoStd Base64.

Local Open Scope go_scope.

(** ** Values *)

(** A JSON value in a Go variable of type [any]; a number is kept as its text. *)
#[warnings="-register-all"]
Inductive any :=
  | AnyNil
  | AnyBool (b : bool)
  | AnyNumber (text : string)
  | AnyString (s : string)
  | AnyList (l : list any)
  | AnyMap (m : list (string * any)).

(** [json.Marshal] of a type and [json.Unmarshal] into its zero value. *)
Class Json (T : Type) := { json_Marshal : T → result string; json_Unmarshal : string → result T }.

(* [kubectl-hsm/pkg/client/types.go:32-36] *)
Record APIError := mkAPIError { ae_Code : string; ae_Message : string; ae_Details : gmap string any }.
(* [kubectl-hsm/pkg/client/types.go:24-29] *)
Record APIResponse := mkAPIResponse { ar_Success : bool; ar_Message : string; ar_Data : any; ar_Error : option APIError }.
(** Without [Metadata], which the server never sends. *)
(* [kubectl-hsm/pkg/client/types.go:39-45] *)
Record SecretData := mkSecretData { sd_Path : string; sd_Data : gmap string any; sd_Checksum : string; sd_DeviceCount : Z }.
(* [kubectl-hsm/pkg/client/types.go:62-70] *)
Record SecretList := mkSecretList {
  sl_Secrets : list string;
  sl_Paths : list string;
  sl_Count : Z;
  sl_Total : Z;
  sl_Page : Z;
  sl_PageSize : Z;
  sl_Prefix : string;
}.
(* [kubectl-hsm/pkg/client/types.go:73-77] *)
Record CreateSecretRequest := mkCreateSecretRequest { cs_Data : gmap string any; cs_Description : string; cs_Tags : gmap string string }.
(** The time stamp is left as text. *)
(* [kubectl-hsm/pkg/client/types.go:80-86] *)
Record HealthStatus := mkHealthStatus {
  hs_Status : string;
  hs_HSMConnected : bool;
  hs_ReplicationEnabled : bool;
  hs_ActiveNodes : Z;
  hs_Timestamp : string;
}.
(* [kubectl-hsm/pkg/client/types.go:89-92] *)
Record DeviceStatusResponse := mkDeviceStatusResponse { ds_Devices : gmap string bool; ds_TotalDevices : Z }.
(* [kubectl-hsm/pkg/client/types.go:95-104] *)
Record HSMInfo := mkHSMInfo {
  hi_Manufacturer : string;
  hi_Model : string;
  hi_SerialNumber : string;
  hi_FirmwareInfo : string;
  hi_LibraryInfo : string;
  hi_SlotID : Z;
  hi_TokenPresent : bool;
  hi_TokenLabel : string;
}.
(* [kubectl-hsm/pkg/client/types.go:107-109] *)
Record DeviceInfoResponse := mkDeviceInfoResponse { di_DeviceInfos : gmap string (option HSMInfo) }.
(* [kubectl-hsm/pkg/client/types.go:112-115] *)
Record ChangePINRequest := mkChangePINRequest { cp_OldPIN : string; cp_NewPIN : string }.
(* [kubectl-hsm/pkg/client/types.go:118-123] *)
Record ChangePINResponse := mkChangePINResponse { cp_SuccessCount : Z; cp_TotalCount : Z; cp_Errors : list string; cp_Message : string }.
(* [kubectl-hsm/pkg/client/types.go:126-128] *)
Record MirrorSyncRequest := mkMirrorSyncRequest { ms_Force : bool }.
(* [kubectl-hsm/pkg/client/types.go:131-136] *)
Record MirrorSyncResult := mkMirrorSyncResult { mr_Triggered : bool; mr_Reason : string; mr_Force : bool; mr_Message : string }.

(** ** Tokens *)
(* [kubectl-hsm/pkg/auth/jwt_auth.go:38-38] *)
Definition TokenCacheDir : string := ".kube".
(* [kubectl-hsm/pkg/auth/jwt_auth.go:39-39] *)
Definition TokenCacheFile : string := "hsm-cache".
(* [kubectl-hsm/pkg/auth/jwt_auth.go:41-41] *)
Definition TokenRefreshThreshold : Z := 5 * Minute.

(* [kubectl-hsm/pkg/auth/jwt_auth.go:55-59] *)
Record CachedToken := mkCachedToken { ct_Token : string; ct_ExpiresAt : Z; ct_TokenType : string }.
(* [kubectl-hsm/pkg/auth/jwt_auth.go:62-64] *)
Record TokenRequest := mkTokenRequest { tq_K8sToken : string }.
(* [kubectl-hsm/pkg/auth/jwt_auth.go:67-71] *)
Record TokenResponse := mkTokenResponse { tr_Token : string; tr_ExpiresAt : Z; tr_TokenType : string }.
(* [kubectl-hsm/pkg/auth/jwt_auth.go:45-52] *)
Record TokenManager := mkTokenManager {
  tm_baseURL : string;
  tm_serviceAccount : string;
  tm_namespace : string;
  tm_cachedToken : option CachedToken;
}.

(** A request: the headers that are set, and the body. *)
Record HttpRequest := mkHttpRequest {
  hr_Method : string;
  hr_URL : string;
  hr_ContentType : option string;
  hr_Authorization : option string;
  hr_Body : option string;
}.

(** What the kubeconfig says: the current context's namespace, if there is such a context. *)
Record RawConfig := mkRawConfig { rc_Namespace : option string }.

(** The machine the command runs on.  [http_Do] gives the status and the result of reading
    the body; [ClientConfig] is that and [NewForConfig]. *)
Record Desktop (W : Type) := mkDesktop {
  http_NewRequest : string → string → result unit;
  http_Do : HttpRequest → ST W (result (Z * result string));
  time_Now : ST W Z;
  os_UserHomeDir : ST W (result string);
  os_ReadFile : string → ST W (result string);
  os_MkdirAll : string → ST W (result unit);
  os_WriteFile : string → string → ST W (result unit);
  os_Remove : string → ST W (result unit);
  filepath_Join : list string → string;
  CreateToken : string → string → ST W (result string);
  ClientConfig : ST W (result unit);
  GetRawConfig : ST W (result RawConfig);
}.
Arguments mkDesktop {W}.
Arguments http_NewRequest {W}.
Arguments http_Do {W}.
Arguments time_Now {W}.
Arguments os_UserHomeDir {W}.
Arguments os_ReadFile {W}.
Arguments os_MkdirAll {W}.
Arguments os_WriteFile {W}.
Arguments os_Remove {W}.
Arguments filepath_Join {W}.
Arguments CreateToken {W}.
Arguments ClientConfig {W}.
Arguments GetRawConfig {W}.

Section Tokens.
Context {W : Type} (dt : Desktop W) `{!Json CachedToken, !Json TokenRequest, !Json TokenResponse}.

Definition cacheFile (homeDir : string) : string := filepath_Join dt [homeDir; TokenCacheDir; TokenCacheFile].
Definition set_token (t : option CachedToken) (tm : TokenManager) : TokenManager :=
  mkTokenManager (tm_baseURL tm) (tm_serviceAccount tm) (tm_namespace tm) t.

(** The token of the file, if there is one. *)
(* [kubectl-hsm/pkg/auth/jwt_auth.go:246-264] *)
Definition loadCachedToken (tm : TokenManager) : ST W TokenManager :=
  let* h := os_UserHomeDir dt in
  match h with
  | Err _ => st_ret tm
  | Ok homeDir =>
      let* data := os_ReadFile dt (cacheFile homeDir) in
      st_ret (match data with
              | Err _ => tm
              | Ok data => match json_Unmarshal data with Err _ => tm | Ok cached => set_token (Some cached) tm end
              end)
  end.

(* [kubectl-hsm/pkg/auth/jwt_auth.go:267-289] *)
Definition saveCachedToken (tm : TokenManager) : ST W unit :=
  match tm_cachedToken tm with
  | None => st_ret ()
  | Some t =>
      let* h := os_UserHomeDir dt in
      match h with
      | Err _ => st_ret ()
      | Ok homeDir =>
          let* d := os_MkdirAll dt (filepath_Join dt [homeDir; TokenCacheDir]) in
          match d with
          | Err _ => st_ret ()
          | Ok _ =>
              match json_Marshal t with
              | Err _ => st_ret ()
              | Ok data => do! os_WriteFile dt (filepath_Join dt [filepath_Join dt [homeDir; TokenCacheDir]; TokenCacheFile]) data in st_ret ()
              end
          end
      end
  end.

(** Without a current context in the kubeconfig the look-up of its namespace panics. *)
(* [kubectl-hsm/pkg/auth/jwt_auth.go:74-117] *)
Definition NewTokenManager (baseURL : string) : ST W (result TokenManager) :=
  st_try (ClientConfig dt) (wrapf "failed to load kubeconfig") (λ _,
  st_try (GetRawConfig dt) (wrapf "failed to get raw kubeconfig") (λ rawConfig,
    match rc_Namespace rawConfig with
    | None => st_ret (Err nil_dereference)
    | Some ns =>
        let* tm := loadCachedToken (mkTokenManager baseURL "kubectl-hsm" (if bool_decide (ns = "") then "default" else ns) None) in
        st_ret (Ok tm)
    end)).

(* [kubectl-hsm/pkg/auth/jwt_auth.go:136-143] *)
Definition isTokenValid (tm : TokenManager) : ST W bool :=
  match tm_cachedToken tm with
  | None => st_ret false
  | Some t => let* now := time_Now dt in st_ret (now + TokenRefreshThreshold <? ct_ExpiresAt t)
  end.

(** The fall back to the service account default stays. *)
(* [kubectl-hsm/pkg/auth/jwt_auth.go:173-199] *)
Definition getK8sServiceAccountToken (tm : TokenManager) : ST W (result string * TokenManager) :=
  let failure tm err := (Err (wrapf ("failed to create token for service account " +:+ tm_namespace tm +:+ "/" +:+ tm_serviceAccount tm) err), tm) in
  let* r := CreateToken dt (tm_namespace tm) (tm_serviceAccount tm) in
  match r with
  | Ok token => st_ret (Ok token, tm)
  | Err err =>
      if bool_decide (tm_serviceAccount tm ≠ "default") then
        let tm := mkTokenManager (tm_baseURL tm) "default" (tm_namespace tm) (tm_cachedToken tm) in
        let* r := CreateToken dt (tm_namespace tm) (tm_serviceAccount tm) in
        st_ret (match r with Ok token => (Ok token, tm) | Err err => failure tm err end)
      else st_ret (failure tm err)
  end.

(* [kubectl-hsm/pkg/auth/jwt_auth.go:202-243] *)
Definition exchangeForHSMToken (tm : TokenManager) (k8sToken : string) : ST W (result TokenResponse) :=
  match json_Marshal (mkTokenRequest k8sToken) with
  | Err err => st_ret (Err (wrapf "failed to marshal token request" err))
  | Ok jsonData =>
      let url := tm_baseURL tm +:+ "/api/v1/auth/token" in
      match http_NewRequest dt "POST" url with
      | Err err => st_ret (Err (wrapf "failed to create request" err))
      | Ok _ =>
          st_try (http_Do dt (mkHttpRequest "POST" url (Some "application/json") None (Some jsonData)))
            (wrapf "failed to make token request") (λ '(statusCode, body),
            st_ret (match body with
                    | Err err => Err (wrapf "failed to read response" err)
                    | Ok body =>
                        if bool_decide (statusCode ≠ 200)
                        then Err (errorf ("token request failed with status " +:+ go_itoa statusCode +:+ ": " +:+ body))
                        else match json_Unmarshal body with
                             | Err err => Err (wrapf "failed to parse token response" err)
                             | Ok tokenResp => Ok tokenResp
                             end
                    end))
      end
  end.

(* [kubectl-hsm/pkg/auth/jwt_auth.go:146-170] *)
Definition generateNewToken (tm : TokenManager) : ST W (result string * TokenManager) :=
  let* '(r, tm) := getK8sServiceAccountToken tm in
  match r with
  | Err err => st_ret (Err (wrapf "failed to get Kubernetes token" err), tm)
  | Ok k8sToken =>
      let* x := exchangeForHSMToken tm k8sToken in
      match x with
      | Err err => st_ret (Err (wrapf "failed to exchange for HSM token" err), tm)
      | Ok hsmToken =>
          let tm := set_token (Some (mkCachedToken (tr_Token hsmToken) (tr_ExpiresAt hsmToken) (tr_TokenType hsmToken))) tm in
          do! saveCachedToken tm in st_ret (Ok (tr_Token hsmToken), tm)
      end
  end.

(* [kubectl-hsm/pkg/auth/jwt_auth.go:120-133] *)
Definition GetValidToken (tm : TokenManager) : ST W (result string * TokenManager) :=
  let* valid := isTokenValid tm in
  match tm_cachedToken tm with
  | Some t => if (valid : bool) then st_ret (Ok (ct_Token t), tm) else
      let* '(r, tm) := generateNewToken tm in
      st_ret (match r with Err err => Err (wrapf "failed to generate new token" err) | Ok token => Ok token end, tm)
  | None =>
      let* '(r, tm) := generateNewToken tm in
      st_ret (match r with Err err => Err (wrapf "failed to generate new token" err) | Ok token => Ok token end, tm)
  end.

(* [kubectl-hsm/pkg/auth/jwt_auth.go:292-294 SetServiceAccount] *)
Definition tm_SetServiceAccount (serviceAccount : string) (tm : TokenManager) : TokenManager :=
  mkTokenManager (tm_baseURL tm) serviceAccount (tm_namespace tm) (tm_cachedToken tm).
(* [kubectl-hsm/pkg/auth/jwt_auth.go:297-299 SetNamespace] *)
Definition tm_SetNamespace (namespace : string) (tm : TokenManager) : TokenManager :=
  mkTokenManager (tm_baseURL tm) (tm_serviceAccount tm) namespace (tm_cachedToken tm).

(* [kubectl-hsm/pkg/auth/jwt_auth.go:302-312] *)
Definition ClearCache (tm : TokenManager) : ST W (result unit * TokenManager) :=
  let tm := set_token None tm in
  let* h := os_UserHomeDir dt in
  match h with
  | Err err => st_ret (Err err, tm)
  | Ok homeDir => let* r := os_Remove dt (cacheFile homeDir) in st_ret (r, tm)
  end.
End Tokens.

(** ** The client *)
(* [kubectl-hsm/pkg/client/client.go:37-41] *)
Record Client := mkClient { cl_baseURL : string; cl_tokenManager : option TokenManager }.

(** [decodeBase64Data] on one value: what does not decode is kept. *)
(* [kubectl-hsm/pkg/client/client.go:88-99 decodeBase64Data] *)
Definition decode_value (value : any) : any :=
  match value with
  | AnyString strValue => match DecodeString strValue with Some decodedBytes => AnyString decodedBytes | None => value end
  | _ => value
  end.
(* [kubectl-hsm/pkg/client/client.go:86-101] *)
Definition decodeBase64Data (data : gmap string any) : gmap string any := decode_value <$> data.

Section Client.
Context {W : Type} (dt : Desktop W) `{!Json CachedToken, !Json TokenRequest, !Json TokenResponse}.
Context `{!Json APIResponse, !Json any, !Json SecretData, !Json SecretList, !Json CreateSecretRequest, !Json HealthStatus,
          !Json DeviceStatusResponse, !Json DeviceInfoResponse, !Json ChangePINRequest, !Json ChangePINResponse,
          !Json MirrorSyncRequest, !Json MirrorSyncResult}.

(** The client is an object next to the world. *)
Definition CState : Type := Client * W.
Definition on_world {A} (m : ST W A) : ST CState A := λ v, let (a, w) := m v.2 in (a, (v.1, w)).
Definition with_tokens {A} (f : TokenManager → ST W (A * TokenManager)) (none : A) : ST CState A := λ '(c, w),
  match cl_tokenManager c with
  | None => (none, (c, w))
  | Some tm => let '((a, tm'), w') := f tm w in (a, (mkClient (cl_baseURL c) (Some tm'), w'))
  end.
Definition get_client : ST CState Client := λ v, (v.1, v).

(** Without a token manager the client goes on without authentication. *)
(* [kubectl-hsm/pkg/client/client.go:44-60] *)
Definition NewClient (baseURL : string) : ST W (result Client) :=
  let* tm := NewTokenManager dt baseURL in
  st_ret (match tm with
          | Ok tm => Ok (mkClient baseURL (Some tm))
          | Err err => if bool_decide (err = nil_dereference) then Err err else Ok (mkClient baseURL None)
          end).

(* [kubectl-hsm/pkg/client/client.go:63-67] *)
Definition SetServiceAccount (serviceAccount : string) : ST CState unit :=
  with_tokens (λ tm, st_ret ((), tm_SetServiceAccount serviceAccount tm)) ().
(* [kubectl-hsm/pkg/client/client.go:70-74] *)
Definition SetNamespace (namespace : string) : ST CState unit := with_tokens (λ tm, st_ret ((), tm_SetNamespace namespace tm)) ().
(* [kubectl-hsm/pkg/client/client.go:77-82] *)
Definition ClearAuthCache : ST CState (result unit) := with_tokens (ClearCache dt) (Ok ()).

(** What the response says, decoded into [responseData] if there is one. *)
(* [kubectl-hsm/pkg/client/client.go:286-316 doRequest] *)
Definition read_response {Res} `{!Json Res} (statusCode : Z) (respBody : string) (responseData : option Res) : result (option Res) :=
  match (json_Unmarshal respBody : result APIResponse) with
  | Err err => Err (wrapf "failed to parse API response" err)
  | Ok apiResp =>
      if negb (ar_Success apiResp) then
        match ar_Error apiResp with
        | Some e =>
            Err (errorf ("API error (" +:+ ae_Code e +:+ "): " +:+ ae_Message e +:+
              (if statusCode =? 401
               then String "010"%char (String "010"%char "Authentication token was invalid or expired. The cached token has been cleared.") +:+
                    String "010"%char "Please retry your command to authenticate with a fresh token."
               else "")))
        | None => Err (errorf ("API request failed: " +:+ ar_Message apiResp))
        end
      else
        match responseData, ar_Data apiResp with
        | None, _ | _, AnyNil => Ok responseData
        | Some _, data =>
            match json_Marshal data with
            | Err err => Err (wrapf "failed to marshal response data" err)
            | Ok dataBytes =>
                match json_Unmarshal dataBytes with
                | Err err => Err (wrapf "failed to unmarshal response data" err)
                | Ok r => Ok (Some r)
                end
            end
        end
  end.

(** The authorization header, for the paths that get one. *)
(* [kubectl-hsm/pkg/client/client.go:257-264 doRequest] *)
Definition authorize (path : string) : ST CState (result (option string)) :=
  let* c := get_client in
  match cl_tokenManager c with
  | Some _ =>
      if negb (has_suffix path "/health") && negb (has_suffix path "/healthz") then
        st_try (with_tokens (GetValidToken dt) (Err nil_dereference)) (wrapf "failed to get authentication token") (λ token,
          st_ret (Ok (Some ("Bearer " +:+ token))))
      else st_ret (Ok None)
  | None => st_ret (Ok None)
  end.

(* [kubectl-hsm/pkg/client/client.go:237-317] *)
Definition doRequest {Req Res} `{!Json Req, !Json Res} (method path : string) (requestBody : option Req) (responseData : option Res) :
    ST CState (result (option Res)) :=
  let* c := get_client in
  let url := cl_baseURL c +:+ path in
  match (match requestBody with
         | Some b => match json_Marshal b with Err err => Err (wrapf "failed to marshal request body" err) | Ok t => Ok (Some t) end
         | None => Ok None
         end) with
  | Err err => st_ret (Err err)
  | Ok body =>
      match http_NewRequest dt method url with
      | Err err => st_ret (Err (wrapf "failed to create request" err))
      | Ok _ =>
          st_try (authorize path) id (λ header,
          let req := mkHttpRequest method url (match body with Some _ => Some "application/json" | None => None end) header body in
          st_try (on_world (http_Do dt req)) (wrapf "request failed") (λ '(statusCode, respBody),
          match respBody with
          | Err err => st_ret (Err (wrapf "failed to read response body" err))
          | Ok respBody =>
              do! (if statusCode =? 401 then ClearAuthCache else st_ret (Ok ())) in
              st_ret (read_response statusCode respBody responseData)
          end))
      end
  end.

(** A request whose result is wanted, which starts as the zero value [zero]. *)
Definition fetch {Req Res} `{!Json Req, !Json Res} (method path : string) (requestBody : option Req) (zero : Res) : ST CState (result Res) :=
  st_try (doRequest method path requestBody (Some zero)) id (λ r, st_ret (Ok (default zero r))).
(** One whose result is not. *)
Definition send {Req} `{!Json Req} (method path : string) (requestBody : option Req) : ST CState (result unit) :=
  st_try (doRequest (Res := any) method path requestBody None) id (λ _, st_ret (Ok ())).
Definition no_body : option any := None.
Definition api_path (name : string) : string := "/api/v1/hsm/secrets/" +:+ name.

(* [kubectl-hsm/pkg/client/client.go:142-153] *)
Definition GetSecret (name : string) : ST CState (result SecretData) :=
  st_try (fetch "GET" (api_path name) no_body (mkSecretData "" ∅ "" 0)) id (λ result,
    st_ret (Ok (mkSecretData (sd_Path result) (decodeBase64Data (sd_Data result)) (sd_Checksum result) (sd_DeviceCount result)))).

(** The data that is sent: without [replace] what could be read of the secret, decoded, under
    the new data. *)
(* [kubectl-hsm/pkg/client/client.go:110-132 CreateSecretWithOptions] *)
Definition merged_data (name : string) (data : gmap string any) (replace : bool) : ST CState (gmap string any) :=
  if replace then st_ret data
  else
    let* existing := GetSecret name in
    st_ret (match existing with
            | Ok existing => data ∪ decodeBase64Data (sd_Data existing)
            | Err _ => data
            end).
(* [kubectl-hsm/pkg/client/client.go:109-139] *)
Definition CreateSecretWithOptions (name : string) (data : gmap string any) (replace : bool) : ST CState (result unit) :=
  let* data := merged_data name data replace in
  send "POST" (api_path name) (Some (mkCreateSecretRequest data "" ∅)).
(* [kubectl-hsm/pkg/client/client.go:104-106] *)
Definition CreateSecret (name : string) (data : gmap string any) : ST CState (result unit) :=
  CreateSecretWithOptions name data false.

(** [url.Values.Encode] sorts by key. *)
(* [kubectl-hsm/pkg/client/client.go:157-171 ListSecrets] *)
Definition list_path (page pageSize : Z) : string :=
  let params := (if 0 <? page then ["page=" +:+ go_itoa page] else []) ++
                (if 0 <? pageSize then ["page_size=" +:+ go_itoa pageSize] else []) in
  match params with [] => "/api/v1/hsm/secrets" | _ => "/api/v1/hsm/secrets?" +:+ str_join "&" params end.
(* [kubectl-hsm/pkg/client/client.go:156-179] *)
Definition ListSecrets (page pageSize : Z) : ST CState (result SecretList) :=
  fetch "GET" (list_path page pageSize) no_body (mkSecretList [] [] 0 0 0 0 "").

(* [kubectl-hsm/pkg/client/client.go:182-184] *)
Definition DeleteSecret (name : string) : ST CState (result unit) := send "DELETE" (api_path name) no_body.
(* [kubectl-hsm/pkg/client/client.go:187-189] *)
Definition DeleteSecretKey (name key : string) : ST CState (result unit) := send "DELETE" (api_path name +:+ "/" +:+ key) no_body.
(* [kubectl-hsm/pkg/client/client.go:192-199] *)
Definition GetHealth : ST CState (result HealthStatus) := fetch "GET" "/api/v1/health" no_body (mkHealthStatus "" false false 0 "").
(* [kubectl-hsm/pkg/client/client.go:202-209] *)
Definition GetDeviceStatus : ST CState (result DeviceStatusResponse) := fetch "GET" "/api/v1/hsm/status" no_body (mkDeviceStatusResponse ∅ 0).
(* [kubectl-hsm/pkg/client/client.go:212-219] *)
Definition GetDeviceInfo : ST CState (result DeviceInfoResponse) := fetch "GET" "/api/v1/hsm/info" no_body (mkDeviceInfoResponse ∅).
(* [kubectl-hsm/pkg/client/client.go:222-234] *)
Definition ChangePIN (oldPIN newPIN : string) : ST CState (result ChangePINResponse) :=
  fetch "POST" "/api/v1/hsm/change-pin" (Some (mkChangePINRequest oldPIN newPIN)) (mkChangePINResponse 0 0 [] "").
(* [kubectl-hsm/pkg/client/client.go:320-332] *)
Definition TriggerMirrorSync (force : bool) : ST CState (result MirrorSyncResult) :=
  st_try (fetch "POST" "/api/v1/hsm/mirror/sync" (Some (mkMirrorSyncRequest force)) (mkMirrorSyncResult false "" false ""))
    (wrapf "failed to trigger mirror sync") (λ r, st_ret (Ok r)).
End Client.
