(* ===== verification/KubectlCommands.v ===== *)
(** * kubectl-hsm/pkg/commands and pkg/util: the commands that change secrets

    Reaching the operator's API ([kubectl.go]), the input of secret data ([common.go]) and
    the commands create (and update), delete, rename-key and rotate-pin.  What they print is
    left out, the parsing of flags too.  Terminal input is the list of what is still to be
    read, each item a line or a failure; it ends with the end of file. *)

From Stdlib Require Import Ascii.
From S2P Require Import Prelude GoStd Base64 KubectlClient.

Local Open Scope go_scope.

(** ** Reaching the operator *)
(* [kubectl-hsm/pkg/util/kubectl.go:40-40] *)
Definition operatorServiceName : string := "hsm-secrets-operator-api".
(* [kubectl-hsm/pkg/util/kubectl.go:41-41] *)
Definition operatorServicePort : Z := 8090.
(* [kubectl-hsm/pkg/util/kubectl.go:46-46] *)
Definition defaultOperatorNamespace : string := "hsm-secrets-operator-system".
(* [kubectl-hsm/pkg/util/kubectl.go:50-50] *)
Definition operatorNamespaceEnvVar : string := "HSM_OPERATOR_NAMESPACE".

(** The pods are those with the operator's labels: name and phase. *)
Record Cluster (W : Type) := mkCluster {
  os_Getenv : string → string;
  InClusterConfig : ST W (result unit);
  BuildConfigFromFlags : string → ST W (result unit);
  NewForConfig : ST W (result unit);
  svc_List : string → ST W (result (list string));
  svc_Get : string → string → ST W (result (list Z));
  pod_List : string → ST W (result (list (string * string)));
  pf_New : string → string → Z → Z → ST W (result unit);
  pf_Wait : ST W (option (result unit));
}.
Arguments mkCluster {W}.
Arguments os_Getenv {W}.
Arguments InClusterConfig {W}.
Arguments BuildConfigFromFlags {W}.
Arguments NewForConfig {W}.
Arguments svc_List {W}.
Arguments svc_Get {W}.
Arguments pod_List {W}.
Arguments pf_New {W}.
Arguments pf_Wait {W}.

(** [pf_stopped]: whether [stopCh] has been closed. *)
(* [kubectl-hsm/pkg/util/kubectl.go:220-230] *)
Record PortForward := mkPortForward {
  pf_namespace : string;
  pf_podName : string;
  pf_localPort : Z;
  pf_remotePort : Z;
  pf_verbose : bool;
  pf_stopped : bool;
}.
(* [kubectl-hsm/pkg/util/kubectl.go:54-58] *)
Record KubectlUtil := mkKubectlUtil { ku_namespace : string }.

Section Kubectl.
Context {W : Type} (cl : Cluster W) (filepath_Join : list string → string).

(* [kubectl-hsm/pkg/util/kubectl.go:294-312] *)
Definition getKubeConfig : ST W (result unit) :=
  let* r := InClusterConfig cl in
  match r with
  | Ok _ => st_ret (Ok ())
  | Err _ =>
      let kubeconfig := os_Getenv cl "KUBECONFIG" in
      let kubeconfig := if bool_decide (kubeconfig = "") then filepath_Join [os_Getenv cl "HOME"; ".kube"; "config"] else kubeconfig in
      st_try (BuildConfigFromFlags cl kubeconfig) (wrapf ("failed to load kubeconfig from " +:+ kubeconfig)) (λ _, st_ret (Ok ()))
  end.

(** The namespaces of every service of the operator's name. *)
(* [kubectl-hsm/pkg/util/kubectl.go:127-144] *)
Definition discoverOperatorNamespaces : ST W (result (list string)) := svc_List cl operatorServiceName.

(* [kubectl-hsm/pkg/util/kubectl.go:99-122] *)
Definition resolveOperatorNamespace : ST W (result string) :=
  let ns := os_Getenv cl operatorNamespaceEnvVar in
  if bool_decide (ns ≠ "") then st_ret (Ok ns)
  else
    let* namespaces := discoverOperatorNamespaces in
    st_ret (match namespaces with
            | Err _ | Ok [] => Ok defaultOperatorNamespace
            | Ok [ns] => Ok ns
            | Ok namespaces =>
                Err (errorf ("HSM operator found in multiple namespaces: " +:+ str_join ", " namespaces +:+
                  String "010"%char (String "010"%char "Please specify which one with --namespace/-n (or set ") +:+ operatorNamespaceEnvVar +:+ ")"))
            end).

(* [kubectl-hsm/pkg/util/kubectl.go:61-91] *)
Definition NewKubectlUtil (namespace : string) : ST W (result KubectlUtil) :=
  st_try getKubeConfig (wrapf "failed to get kubernetes config") (λ _,
  st_try (NewForConfig cl) (wrapf "failed to create kubernetes clientset") (λ _,
    if bool_decide (namespace = "") then st_try resolveOperatorNamespace id (λ ns, st_ret (Ok (mkKubectlUtil ns)))
    else st_ret (Ok (mkKubectlUtil namespace)))).

(* [kubectl-hsm/pkg/util/kubectl.go:152-173] *)
Definition FindOperatorService (k : KubectlUtil) : ST W (result unit) :=
  let ns := ku_namespace k in
  st_try (svc_Get cl ns operatorServiceName)
    (λ err, wrap_after (wrapf ("HSM secrets operator service not found in namespace '" +:+ ns +:+ "'") err)
       (String "010"%char (String "010"%char "Please check:") +:+
        String "010"%char "  - Is the operator installed? Try: kubectl get deploy -n " +:+ ns +:+
        String "010"%char "  - Are you in the correct namespace? Try: kubens <operator-namespace>"))
    (λ ports,
      st_ret (if existsb (Z.eqb operatorServicePort) ports then Ok ()
              else Err (errorf ("operator service '" +:+ operatorServiceName +:+ "' does not expose port " +:+ go_itoa operatorServicePort)))).

(* [kubectl-hsm/pkg/util/kubectl.go:284-286 Stop] *)
Definition pf_Stop (pf : PortForward) : result PortForward :=
  if pf_stopped pf then Err close_of_closed_channel
  else Ok (mkPortForward (pf_namespace pf) (pf_podName pf) (pf_localPort pf) (pf_remotePort pf) (pf_verbose pf) true).

(** [pf_New] is the transport and the forwarder with their wrapped errors, [pf_Wait] the first of being ready
    ([Some (Ok _)]), ten seconds ([None]) and the end of the context. *)
(* [kubectl-hsm/pkg/util/kubectl.go:233-281 Start] *)
Definition pf_Start (pf : PortForward) : ST W (result PortForward) :=
  st_try (pf_New cl (pf_namespace pf) (pf_podName pf) (pf_localPort pf) (pf_remotePort pf)) id (λ _,
  let* ready := pf_Wait cl in
  st_ret (match ready with
          | Some (Ok _) => Ok pf
          | None => match pf_Stop pf with
                    | Ok _ => Err (errorf "port forward did not become ready within 10 seconds")
                    | Err err => Err err
                    end
          | Some (Err err) => match pf_Stop pf with Ok _ => Err err | Err panic => Err panic end
          end)).

(* [kubectl-hsm/pkg/util/kubectl.go:176-217] *)
Definition CreatePortForward (k : KubectlUtil) (localPort : Z) (verbose : bool) : ST W (result PortForward) :=
  let ns := ku_namespace k in
  st_try (FindOperatorService k) id (λ _,
  st_try (pod_List cl ns) (wrapf "failed to list operator pods") (λ pods,
  match pods with
  | [] => st_ret (Err (errorf ("no operator manager pods found in namespace '" +:+ ns +:+ "'")))
  | (name, phase) :: _ =>
      if bool_decide (phase ≠ "Running")
      then st_ret (Err (errorf ("operator pod '" +:+ name +:+ "' is not running (status: " +:+ phase +:+ ")")))
      else st_try (pf_Start (mkPortForward ns name localPort operatorServicePort verbose false))
             (wrapf "failed to start port forward") (λ pf, st_ret (Ok pf))
  end)).
End Kubectl.

(** ** Input of secret data *)

(** What is still to be read from the terminal. *)
Abbreviation Input := (list (result string)).
Definition EOF : error := errorf "EOF".

(** [strings.TrimRight(line, "\r\n")] *)
Fixpoint trim_line_end (s : string) : string :=
  match s with
  | EmptyString => ""
  | String c s' => let t := trim_line_end s' in if is_newline c && bool_decide (t = "") then "" else String c t
  end.
(** [strings.SplitN(s, "=", 2)]: what is before and after the first sign, if there is one. *)
Fixpoint split_equal (s : string) : option (string * string) :=
  match s with
  | EmptyString => None
  | String c s' =>
      if bool_decide (c = "="%char) then Some ("", s')
      else (λ '(k, v), (String c k, v)) <$> split_equal s'
  end.
(** The last element of a path with its trailing slashes removed ([filepath.Base]), and the
    suffix of the name from its last dot ([filepath.Ext]). *)
Definition filepath_Base (path : string) : string :=
  if bool_decide (path = "") then "."
  else match List.filter (λ p, negb (bool_decide (p = ""))) (str_split "/"%char path) with
       | [] => "/"
       | p :: ps => List.last (p :: ps) ""
       end.
Fixpoint ext_of (s : string) : string :=
  match s with
  | EmptyString => ""
  | String c s' => if bool_decide (c = "."%char) && negb (str_contains s' ".") then s else ext_of s'
  end.
Definition filepath_Ext (path : string) : string := ext_of (List.last (str_split "/"%char path) "").

(** The line feed is not part of hidden input. *)
(* [kubectl-hsm/pkg/commands/common.go:106-128] *)
Definition readSecretValue (hidden : bool) (input : Input) : result string * Input :=
  match input with
  | [] => (if hidden then Err (wrapf "failed to read hidden input" EOF) else Ok "", [])
  | Err err :: rest => (Err (wrapf (if hidden then "failed to read hidden input" else "failed to read input") err), rest)
  | Ok line :: rest => (Ok (if hidden then trim_suffix line (String "010"%char "") else trim_line_end line), rest)
  end.

(** The loop over the literals. *)
(* [kubectl-hsm/pkg/commands/common.go:134-140 parseFromLiteral] *)
Fixpoint literal_loop (data : gmap string any) (literals : list string) : result (gmap string any) :=
  match literals with
  | [] => Ok data
  | literal :: rest =>
      match split_equal literal with
      | None => Err (errorf ("invalid --from-literal format: " +:+ literal +:+ " (expected key=value)"))
      | Some (k, v) => literal_loop (<[k := AnyString v]> data) rest
      end
  end.
(* [kubectl-hsm/pkg/commands/common.go:131-143] *)
Definition parseFromLiteral (literals : list string) : result (gmap string any) := literal_loop ∅ literals.

(** Whether a key's value is read without echo. *)
(* [kubectl-hsm/pkg/commands/common.go:162-165 promptForInteractiveInput] *)
Definition isPassword (key : string) : bool :=
  let k := to_lower key in
  str_contains k "password" || str_contains k "secret" || str_contains k "token" || str_contains k "key".

(** The loop, of at most [fuel] rounds: the keys and their values until an empty key. *)
(* [kubectl-hsm/pkg/commands/common.go:151-173 promptForInteractiveInput] *)
Fixpoint prompt_loop (fuel : nat) (data : gmap string any) (input : Input) : result (gmap string any) * Input :=
  match fuel with
  | O => (Err (errorf "out of fuel"), input)
  | S fuel =>
      let '(key, input) := readSecretValue false input in
      match key with
      | Err err => (Err err, input)
      | Ok key =>
          if bool_decide (key = "") then (Ok data, input)
          else
            let '(value, input) := readSecretValue (isPassword key) input in
            match value with
            | Err err => (Err err, input)
            | Ok value => prompt_loop fuel (<[key := AnyString value]> data) input
            end
      end
  end.
(** A round reads a line or is the last ([prompt_loop_enough]). *)
(* [kubectl-hsm/pkg/commands/common.go:146-180] *)
Definition promptForInteractiveInput (input : Input) : result (gmap string any) * Input :=
  let '(r, rest) := prompt_loop (S (length input)) ∅ input in
  (match r with
   | Err err => Err err
   | Ok data => if bool_decide (data = ∅) then Err (errorf "no secret data provided") else Ok data
   end, rest).

(** The lines of [bufio.Scanner], up to the first of 64 KiB or more, which is an error. *)
Definition MaxScanTokenSize : Z := 65536.
Definition drop_cr (line : string) : string := trim_suffix line (String "013"%char "").
Fixpoint lines_of (pieces : list string) : list string * option error :=
  match pieces with
  | [] | [""] => ([], None)
  | p :: rest =>
      if MaxScanTokenSize <=? str_len p then ([], Some (errorf "bufio.Scanner: token too long"))
      else let '(l, e) := lines_of rest in (drop_cr p :: l, e)
  end.
Definition scan_lines (content : string) : list string * option error := lines_of (str_split "010"%char content).

Definition is_comment (line : string) : bool := bool_decide (line = "") || has_prefix line "#".
Definition double_quote : string := String "034"%char "".
(** The quotes around a value are removed. *)
(* [kubectl-hsm/pkg/commands/common.go:293-299 readFromEnvContent] *)
Definition unquote (value : string) : string :=
  if (2 <=? str_len value) &&
     ((has_prefix value double_quote && has_suffix value double_quote) || (has_prefix value "'" && has_suffix value "'"))
  then str_take (String.length value - 2) (str_drop 1 value) else value.

(** The loop over the lines; [lineNum] is the number of the line before. *)
(* [kubectl-hsm/pkg/commands/common.go:275-311 readFromEnvContent] *)
Fixpoint env_loop (filename : string) (lineNum : Z) (data : gmap string any) (lines : list string) : result (gmap string any) :=
  match lines with
  | [] => Ok data
  | text :: rest =>
      let lineNum := lineNum + 1 in
      let line := TrimSpace text in
      if is_comment line then env_loop filename lineNum data rest
      else
        let at_line := " at line " +:+ go_itoa lineNum +:+ " in " +:+ filename in
        match split_equal line with
        | None => Err (errorf ("invalid format" +:+ at_line +:+ ": expected KEY=VALUE, got: " +:+ line))
        | Some (k, v) =>
            let key := TrimSpace k in
            let value := unquote (TrimSpace v) in
            if bool_decide (key = "") then Err (errorf ("empty key" +:+ at_line))
            else match data !! key with
                 | Some _ => Err (errorf ("duplicate key '" +:+ key +:+ "' found" +:+ at_line))
                 | None => env_loop filename lineNum (<[key := AnyString value]> data) rest
                 end
        end
  end.
(* [kubectl-hsm/pkg/commands/common.go:270-322] *)
Definition readFromEnvContent (filename content : string) : result (gmap string any) :=
  let '(lines, scan_err) := scan_lines content in
  match env_loop filename 0 ∅ lines with
  | Err err => Err err
  | Ok data =>
      match scan_err with
      | Some err => Err (wrapf ("error reading env content from " +:+ filename) err)
      | None => if bool_decide (data = ∅) then Err (errorf ("no valid key-value pairs found in " +:+ filename)) else Ok data
      end
  end.

(* [kubectl-hsm/pkg/commands/common.go:247-267] *)
Definition tryParseAsEnv (filename content : string) : result (gmap string any) :=
  let pair_line line := let line := TrimSpace line in negb (is_comment line) && str_contains line "=" in
  if existsb pair_line (str_split "010"%char content) then readFromEnvContent filename content
  else Err (errorf "no KEY=VALUE pairs found").

Section Files.
Context {W : Type} `{MapOrder} `{!Json (gmap string any)} (sprint_v : any → string).
Context (os_ReadFile : string → ST W (result string)).

(** [fmt.Sprintf("%v", v)], with null as the empty string. *)
(* [kubectl-hsm/pkg/commands/common.go:336-346 readFromJsonContent] *)
Definition stringified (v : any) : any :=
  match v with AnyString s => AnyString s | AnyNil => AnyString "" | v => AnyString (sprint_v v) end.

(** The values are replaced while the map is ranged over. *)
(* [kubectl-hsm/pkg/commands/common.go:216-244] *)
Definition tryParseAsJson (content : string) : result (gmap string any) :=
  match json_Unmarshal content with
  | Err err => Err err
  | Ok data =>
      fold_left (λ r '(key, value),
        match r with
        | Err err => Err err
        | Ok data =>
            if bool_decide (key = "") then Err (errorf "empty key found")
            else match value with
                 | AnyMap _ | AnyList _ => Err (errorf "nested structures not supported, expected simple key-value format")
                 | _ => Ok (<[key := stringified value]> data)
                 end
        end) (range data) (Ok data)
  end.

(* [kubectl-hsm/pkg/commands/common.go:325-354] *)
Definition readFromJsonContent (filename content : string) : result (gmap string any) :=
  match json_Unmarshal content with
  | Err err => Err (wrapf ("failed to parse JSON file " +:+ filename +:+ ": expected simple key-value format {" +:+
                           double_quote +:+ "key" +:+ double_quote +:+ ":" +:+ double_quote +:+ "value" +:+ double_quote +:+ "}") err)
  | Ok data =>
      match fold_left (λ r '(key, value),
        match r with
        | Err err => Err err
        | Ok data => if bool_decide (key = "") then Err (errorf ("empty key found in JSON file " +:+ filename))
                     else Ok (<[key := stringified value]> data)
        end) (range data) (Ok data) with
      | Err err => Err err
      | Ok data => if bool_decide (data = ∅) then Err (errorf ("no key-value pairs found in JSON file " +:+ filename)) else Ok data
      end
  end.

(* [kubectl-hsm/pkg/commands/common.go:357-374] *)
Definition readAsSingleKeyValue (key filename content : string) : gmap string any :=
  let key := if bool_decide (key = "")
             then let base := filepath_Base filename in
                  let ext := filepath_Ext base in if bool_decide (ext ≠ "") then trim_suffix base ext else base
             else key in
  {[key := AnyString content]}.

(* [kubectl-hsm/pkg/commands/common.go:187-213] *)
Definition readFromFile (key filename : string) : ST W (result (gmap string any)) :=
  st_try (os_ReadFile filename) (wrapf ("failed to read file " +:+ filename)) (λ content,
    let ext := to_lower (filepath_Ext filename) in
    st_ret (if bool_decide (ext = ".env") then readFromEnvContent filename content
            else if bool_decide (ext = ".json") then readFromJsonContent filename content
            else match tryParseAsJson content with
                 | Ok data => Ok data
                 | Err _ =>
                     match tryParseAsEnv filename content with
                     | Ok data => Ok data
                     | Err _ => Ok (readAsSingleKeyValue key filename content)
                     end
                 end)).

(** The files of the flag, each under its own key or as [key=file]; a later file wins. *)
(* [kubectl-hsm/pkg/commands/create.go:138-163 RunWithCommandName] *)
Definition read_files (specs : list string) : ST W (result (gmap string any)) :=
  st_fold (λ r fileSpec,
    match r with
    | Err err => st_ret (Err err)
    | Ok secretData =>
        let '(key, filename) := match split_equal fileSpec with Some (k, f) => (k, f) | None => ("", fileSpec) end in
        st_try (readFromFile key filename) id (λ fileData, st_ret (Ok (fileData ∪ secretData)))
    end) specs (Ok ∅).
End Files.

(** ** What a write would change *)

(* [kubectl-hsm/pkg/commands/common.go:377-382] *)
Definition truncateString (s : string) (maxLen : nat) : string :=
  if str_len s <=? Z.of_nat maxLen then s else str_take (maxLen - 3) s +:+ "...".

(** The three kinds of lines of a diff. *)
Inductive Change := KeyAdded (v : any) | KeyRemoved (v : any) | KeyChanged (old new : any).

(** The lines of [showSecretDiff], in the order of its map of all keys; the values are
    printed truncated to 100 bytes. *)
(* [kubectl-hsm/pkg/commands/common.go:385-425] *)
Definition showSecretDiff `{MapOrder} (sprint_v : any → string) (existing new : gmap string any) : list (string * Change) :=
  omap (λ '(key, _),
    match existing !! key, new !! key with
    | None, Some newValue => Some (key, KeyAdded newValue)
    | Some existingValue, None => Some (key, KeyRemoved existingValue)
    | Some existingValue, Some newValue =>
        if bool_decide (sprint_v existingValue ≠ sprint_v newValue) then Some (key, KeyChanged existingValue newValue) else None
    | None, None => None
    end) (range (existing ∪ new)).

(** The numbers of keys to be added, modified and removed, for an existing secret. *)
(* [kubectl-hsm/pkg/commands/common.go:445-464 showDryRunSummary] *)
Definition count_changes `{MapOrder} (sprint_v : any → string) (existing final : gmap string any) (isReplace : bool) : Z * Z * Z :=
  let count (P : string * any → bool) m := Z.of_nat (length (List.filter P (range m))) in
  (count (λ '(key, _), match existing !! key with None => true | Some _ => false end) final,
   count (λ '(key, newValue), match existing !! key with
                               | Some existingValue => bool_decide (sprint_v existingValue ≠ sprint_v newValue)
                               | None => false end) final,
   if isReplace then count (λ '(key, _), match final !! key with None => true | Some _ => false end) existing else 0).

(** ** The commands *)

(* [kubectl-hsm/pkg/commands/common.go:38-42] *)
Record CommonOptions := mkCommonOptions { co_Namespace : string; co_Output : string; co_Verbose : bool }.
(* [kubectl-hsm/pkg/commands/create.go:28-36] *)
Record CreateOptions := mkCreateOptions {
  cr_Common : CommonOptions;
  cr_FromLiteral : list string;
  cr_FromFile : list string;
  cr_Interactive : bool;
  cr_Replace : bool;
  cr_DryRun : bool;
  cr_ShowDiff : bool;
}.
(* [kubectl-hsm/pkg/commands/delete.go:28-32] *)
Record DeleteOptions := mkDeleteOptions { do_Common : CommonOptions; do_Key : string; do_Force : bool }.
(* [kubectl-hsm/pkg/commands/rename_key.go:27-29] *)
Definition RenameKeyOptions : Type := CommonOptions.

(** [cm_hsmClient] is the client object, kept in the state. *)
(* [kubectl-hsm/pkg/commands/common.go:45-50] *)
Record ClientManager := mkClientManager { cm_kubectl : KubectlUtil; cm_portForward : option PortForward; cm_verbose : bool }.

(* [kubectl-hsm/pkg/commands/rename_key.go:116-126 Run] *)
Definition rename_data `{MapOrder} (oldKey newKey : string) (data : gmap string any) : gmap string any :=
  fold_left (λ newData '(k, v), if bool_decide (k = oldKey) then <[newKey := v]> newData else <[k := v]> newData) (range data) ∅.

(* [kubectl-hsm/pkg/commands/rotate_pin.go:235-240] *)
Definition maskPIN (pin : string) : string :=
  if str_len pin <=? 2 then "***" else str_take 1 pin +:+ "***" +:+ str_drop (String.length pin - 1) pin.
(* [kubectl-hsm/pkg/commands/rotate_pin.go:243-246] *)
Definition encodePINForSecret (pin : string) : string := EncodeToString pin.
(* [kubectl-hsm/pkg/commands/rotate_pin.go:220-232] *)
Definition readPIN (input : Input) : result string * Input :=
  match input with
  | [] => (Err (wrapf "failed to read PIN" EOF), [])
  | Err err :: rest => (Err (wrapf "failed to read PIN" err), rest)
  | Ok line :: rest => (Ok (trim_suffix line (String "010"%char "")), rest)
  end.
(* [kubectl-hsm/pkg/commands/rotate_pin.go:249-256] *)
Definition confirmOperation (input : Input) : bool :=
  match (readSecretValue false input).1 with
  | Err _ => false
  | Ok response => bool_decide (TrimSpace response ∈ ["y"; "Y"; "yes"; "Yes"])
  end.

(** The secret's name has to be typed in. *)
(* [kubectl-hsm/pkg/commands/delete.go:126-149] *)
Definition confirmDeletion (secretName : string) (input : Input) : result unit :=
  match (readSecretValue false input).1 with
  | Err err => Err (wrapf "failed to read confirmation" err)
  | Ok input => if bool_decide (TrimSpace input ≠ secretName) then Err (errorf "confirmation failed - deletion cancelled") else Ok ()
  end.

(** The current and the new PIN, asked for where they are not given, and the input that is left. *)
(* [kubectl-hsm/pkg/commands/rotate_pin.go:124-158 runRotatePin] *)
Definition ask_pins (oldPin newPin : string) (input : Input) : result (string * string) * Input :=
  let '(old, input) := if bool_decide (oldPin = "") then readPIN input else (Ok oldPin, input) in
  match old with
  | Err err => (Err (wrapf "failed to read current PIN" err), input)
  | Ok oldPin =>
      let '(new, input) :=
        (if bool_decide (newPin = "") then
           let '(n, input) := readPIN input in
           match n with
           | Err err => (Err (wrapf "failed to read new PIN" err), input)
           | Ok newPin =>
               let '(c, input) := readPIN input in
               (match c with
                | Err err => Err (wrapf "failed to read PIN confirmation" err)
                | Ok confirmPin => if bool_decide (newPin ≠ confirmPin) then Err (errorf "new PIN and confirmation do not match") else Ok newPin
                end, input)
           end
         else (Ok newPin, input)) in
      (match new with
       | Err err => Err err
       | Ok newPin =>
           if bool_decide (oldPin = "") then Err (errorf "old PIN cannot be empty")
           else if bool_decide (newPin = "") then Err (errorf "new PIN cannot be empty")
           else if bool_decide (oldPin = newPin) then Err (errorf "new PIN must be different from old PIN")
           else Ok (oldPin, newPin)
       end, input)
  end.

Section Commands.
Context {W : Type} (dt : Desktop W) (cl : Cluster W) `{MapOrder} (sprint_v : any → string).
Context `{!Json CachedToken, !Json TokenRequest, !Json TokenResponse, !Json (gmap string any)}.
Context `{!Json APIResponse, !Json any, !Json SecretData, !Json CreateSecretRequest, !Json DeviceStatusResponse,
          !Json ChangePINRequest, !Json ChangePINResponse}.

(* [kubectl-hsm/pkg/commands/common.go:53-63] *)
Definition NewClientManager (namespace : string) (verbose : bool) : ST W (result ClientManager) :=
  st_try (NewKubectlUtil cl (filepath_Join dt) namespace) (wrapf "failed to initialize kubectl utilities") (λ kubectl,
    st_ret (Ok (mkClientManager kubectl None verbose))).

(** The first call; later ones give the client back. *)
(* [kubectl-hsm/pkg/commands/common.go:66-85] *)
Definition GetClient (cm : ClientManager) : ST W (result (ClientManager * Client)) :=
  st_try (CreatePortForward cl (cm_kubectl cm) 8090 (cm_verbose cm)) id (λ pf,
  st_try (NewClient dt ("http://localhost:" +:+ go_itoa (pf_localPort pf))) id (λ c,
    st_ret (Ok (mkClientManager (cm_kubectl cm) (Some pf) (cm_verbose cm), c)))).

(** Stopping the port forward ends it; the result is not used. *)
(* [kubectl-hsm/pkg/commands/common.go:88-92 Close] *)
Definition cm_Close (cm : ClientManager) : result unit :=
  match cm_portForward cm with
  | Some pf => match pf_Stop pf with Ok _ => Ok () | Err panic => Err panic end
  | None => Ok ()
  end.

(** Run [k], which gets the namespace in use, with a client of the operator, and close. *)
(* [kubectl-hsm/pkg/commands/create.go:171-182 RunWithCommandName] *)
Definition with_client_in {A} (namespace : string) (verbose : bool) (no_manager no_client : error → error)
    (k : string → ST (CState (W := W)) (result A)) : ST W (result A) :=
  st_try (NewClientManager namespace verbose) no_manager (λ cm,
  st_try (GetClient cm) no_client (λ '(cm, c), λ w,
    let '(r, (_, w)) := k (ku_namespace (cm_kubectl cm)) (c, w) in (match cm_Close cm with Ok _ => r | Err panic => Err panic end, w))).
Definition with_client {A} (namespace : string) (verbose : bool) (no_manager no_client : error → error)
    (k : ST (CState (W := W)) (result A)) : ST W (result A) := with_client_in namespace verbose no_manager no_client (λ _, k).

(** The data of the one input method that is given. *)
(* [kubectl-hsm/pkg/commands/create.go:128-169 RunWithCommandName] *)
Definition collect_data (opts : CreateOptions) (input : Input) : ST W (result (gmap string any)) :=
  if bool_decide (cr_FromLiteral opts ≠ []) then st_ret (parseFromLiteral (cr_FromLiteral opts))
  else if bool_decide (cr_FromFile opts ≠ []) then read_files sprint_v (os_ReadFile dt) (cr_FromFile opts)
  else st_ret (promptForInteractiveInput input).1.

(** How many input methods are given. *)
(* [kubectl-hsm/pkg/commands/create.go:105-114 RunWithCommandName] *)
Definition methods (opts : CreateOptions) : Z :=
  (if bool_decide (cr_FromLiteral opts ≠ []) then 1 else 0) + (if bool_decide (cr_FromFile opts ≠ []) then 1 else 0) +
  (if cr_Interactive opts then 1 else 0).

(** Behind the input: the reads that only serve messages, then the write. *)
(* [kubectl-hsm/pkg/commands/create.go:184-226 RunWithCommandName] *)
Definition write_data (opts : CreateOptions) (secretName commandName : string) (secretData : gmap string any) :
    ST (CState (W := W)) (result unit) :=
  st_try (if bool_decide (commandName = "update") then
            st_try (GetSecret dt secretName)
              (wrapf ("secret '" +:+ secretName +:+ "' does not exist. Use 'kubectl hsm create' to create a new secret"))
              (λ _, st_ret (Ok ()))
          else st_ret (Ok ())) id (λ _,
  do! (if cr_ShowDiff opts && negb (cr_Replace opts)
       then let* _ := GetSecret dt secretName in st_ret () else st_ret ()) in
  if cr_DryRun opts then let* _ := GetSecret dt secretName in st_ret (Ok ())
  else st_try (CreateSecretWithOptions dt secretName secretData (cr_Replace opts))
         (wrapf ("failed to " +:+ commandName +:+ " secret")) (λ _, st_ret (Ok ()))).

(* [kubectl-hsm/pkg/commands/create.go:98-244] *)
Definition RunWithCommandName (opts : CreateOptions) (secretName commandName : string) (input : Input) : ST W (result unit) :=
  if bool_decide (secretName = "") then st_ret (Err (errorf "secret name is required"))
  else if methods opts =? 0 then st_ret (Err (errorf "must specify one of --from-literal, --from-file, or --interactive"))
  else if 1 <? methods opts
  then st_ret (Err (errorf "cannot specify multiple input methods (--from-literal, --from-file, --interactive)"))
  else if bool_decide (commandName = "update") && cr_Replace opts
  then st_ret (Err (errorf "--replace flag cannot be used with update command. Use 'kubectl hsm create --replace' for full secret replacement"))
  else
    st_try (collect_data opts input) id (λ secretData,
      with_client (co_Namespace (cr_Common opts)) (co_Verbose (cr_Common opts)) id id
        (write_data opts secretName commandName secretData)).

(* [kubectl-hsm/pkg/commands/delete.go:72-123 Run] *)
Definition delete_Run (opts : DeleteOptions) (secretName : string) (input : Input) : ST W (result unit) :=
  if bool_decide (secretName = "") then st_ret (Err (errorf "secret name is required"))
  else
    with_client (co_Namespace (do_Common opts)) (co_Verbose (do_Common opts)) id id
      (match (if do_Force opts then Ok () else confirmDeletion secretName input) with
       | Err err => st_ret (Err err)
       | Ok _ =>
           if bool_decide (do_Key opts ≠ "")
           then st_try (DeleteSecretKey dt secretName (do_Key opts)) (wrapf "failed to delete key") (λ _, st_ret (Ok ()))
           else st_try (DeleteSecret dt secretName) (wrapf "failed to delete secret") (λ _, st_ret (Ok ()))
       end).

(** Reading the secret and writing it back under the new keys. *)
(* [kubectl-hsm/pkg/commands/rename_key.go:96-132 Run] *)
Definition rename_in_place (secretName oldKey newKey : string) : ST (CState (W := W)) (result unit) :=
  st_try (GetSecret dt secretName) (wrapf ("failed to read secret '" +:+ secretName +:+ "'")) (λ existing,
    match sd_Data existing !! oldKey with
    | None => st_ret (Err (errorf ("key '" +:+ oldKey +:+ "' does not exist in secret '" +:+ secretName +:+ "'")))
    | Some _ =>
        match sd_Data existing !! newKey with
        | Some _ => st_ret (Err (errorf ("key '" +:+ newKey +:+ "' already exists in secret '" +:+ secretName +:+ "'. Cannot rename to existing key")))
        | None =>
            st_try (CreateSecretWithOptions dt secretName (rename_data oldKey newKey (sd_Data existing)) true)
              (wrapf "failed to rename key in secret") (λ _, st_ret (Ok ()))
        end
    end).
(* [kubectl-hsm/pkg/commands/rename_key.go:68-94 Run] *)
Definition rename_Run (opts : RenameKeyOptions) (secretName oldKey newKey : string) : ST W (result unit) :=
  if bool_decide (secretName = "") then st_ret (Err (errorf "secret name is required"))
  else if bool_decide (oldKey = "") then st_ret (Err (errorf "old key name is required"))
  else if bool_decide (newKey = "") then st_ret (Err (errorf "new key name is required"))
  else if bool_decide (oldKey = newKey) then st_ret (Err (errorf "old key and new key must be different"))
  else with_client (co_Namespace opts) (co_Verbose opts) id id (rename_in_place secretName oldKey newKey).

(** With the connection: how many devices are there, the PINs, the confirmation, the change. *)
(* [kubectl-hsm/pkg/commands/rotate_pin.go:96-194 runRotatePin] *)
Definition rotate_pins (oldPin newPin : string) (dryRun : bool) (input : Input) : ST (CState (W := W)) (result (option ChangePINResponse)) :=
  st_try (GetDeviceStatus dt) (wrapf "failed to get device status") (λ deviceStatus,
    if bool_decide (ds_Devices deviceStatus = ∅)
    then st_ret (Err (errorf "no HSM devices found - ensure HSM agents are running and devices are connected"))
    else if bool_decide (filter (λ kc, kc.2 = true) (ds_Devices deviceStatus) = ∅)
    then st_ret (Err (errorf "no HSM devices are currently connected"))
    else
      let '(pins, input) := ask_pins oldPin newPin input in
      match pins with
      | Err err => st_ret (Err err)
      | Ok (oldPin, newPin) =>
          if dryRun then st_ret (Ok None)
          else if negb (confirmOperation input) then st_ret (Ok None)
          else st_try (ChangePIN dt oldPin newPin) (wrapf "PIN rotation failed") (λ response, st_ret (Ok (Some response)))
      end).
(* [kubectl-hsm/pkg/commands/rotate_pin.go:76-217] *)
Definition runRotatePin (oldPin newPin : string) (dryRun : bool) (namespace : string) (verbose : bool) (input : Input) : ST W (result unit) :=
  st_try (with_client namespace verbose (wrapf "failed to initialize client manager") (wrapf "failed to connect to HSM operator")
            (rotate_pins oldPin newPin dryRun input)) id (λ _, st_ret (Ok ())).
End Commands.
