(* ===== verification/KubectlShow.v ===== *)
(** * kubectl-hsm/pkg/commands: the commands that show

    get, list, devices, health, mirror sync and auth.  What they print is a list of lines; a
    row of a table is the list of its cells, which text/tabwriter aligns.  The JSON and YAML
    encoders and the [%v] verb are arguments; warnings on standard error are left out. *)

From Stdlib Require Import Ascii.
From S2P Require Import Prelude GoStd Base64 KubectlClient KubectlCommands.

Local Open Scope go_scope.

(** ** Text *)
Inductive Output := Line (s : string) | Row (cells : list string).
Definition lines (l : list string) : list Output := Line <$> l.
Definition newline : string := String "010"%char "".
Definition go_bool (b : bool) : string := if b then "true" else "false".

(** [utf8.RuneCountInString], and the padding of [%-ns], which counts runes. *)
Fixpoint rune_count_from (skip : nat) (s : string) : nat :=
  match s, skip with
  | EmptyString, _ => 0
  | String _ s', S skip' => rune_count_from skip' s'
  | String c s', O => S (rune_count_from (rune_width c s' - 1) s')
  end.
Fixpoint spaces (n : nat) : string := match n with O => "" | S n => " " +:+ spaces n end.
Definition pad (n : nat) (s : string) : string := s +:+ spaces (n - rune_count_from 0 s).

(** [strings.Fields] *)
Fixpoint field (s : string) : string :=
  match s with
  | EmptyString => ""
  | String c s' => if existsb (has_prefix s) go_spaces then "" else String c (field s')
  end.
Fixpoint fields_fuel (fuel : nat) (s : string) : list string :=
  match fuel with
  | O => []
  | S fuel =>
      match skip_space s with
      | EmptyString => []
      | t => field t :: fields_fuel fuel (str_drop (String.length (field t)) t)
      end
  end.
(** Every turn consumes a byte, so the length is fuel enough. *)
Definition Fields (s : string) : list string := fields_fuel (String.length s) s.
Example Fields_example : Fields "  created at " = ["created"; "at"] ∧ Fields " " = [].
Proof. split; reflexivity. Qed.

(** ** get *)

(** [strings.ToUpper] of a string of one byte: what is not ASCII is no rune, and replaced. *)
Definition upper_byte (c : ascii) : string :=
  if byte_val c <? 128 then to_upper (String c "") else String "239" (String "191" (String "189" "")).
(* [kubectl-hsm/pkg/commands/get.go:293-306] *)
Definition formatMetadataKey (key : string) : string :=
  str_join " " ((λ w, match w with EmptyString => "" | String c s => upper_byte c +:+ s end) <$>
    Fields (str_replace1 "_" " " key)).

(* [kubectl-hsm/pkg/commands/get.go:34-37] *)
Record GetOptions := mkGetOptions { go_Common : CommonOptions; go_Key : string }.

(** [sprint_v] and [sprint_s] are what the verbs [%v] and [%s] print, [type_name] is [%T], [corrupt]
    the error of the base64 decoder. *)
Record Fmt := mkFmt {
  sprint_v : any → string;
  sprint_s : any → string;
  type_name : any → string;
  corrupt : string → error;
}.

Definition sorted_names {A} (m : gmap string A) : list string := sort_Strings (map_to_list m).*1.

Section Get.
Context (f : Fmt) `{!Json (gmap string any)}.

(* [kubectl-hsm/pkg/commands/get.go:254-290] *)
Definition displayMetadataFields (data : gmap string any) (indent : string) : list string :=
  flat_map (λ key,
    let displayKey := indent +:+ pad 13 (formatMetadataKey key +:+ ":") in
    match data !! key with
    | Some (AnyMap nested) =>
        let nested : gmap string any := list_to_map nested in
        displayKey :: ((λ nestedKey, indent +:+ "  " +:+ pad 11 (nestedKey +:+ ":") +:+ " " +:+
                          sprint_v f (default AnyNil (nested !! nestedKey))) <$> sorted_names nested)
    | v => [displayKey +:+ " " +:+ sprint_v f (default AnyNil v)]
    end) (sorted_names data).

(* [kubectl-hsm/pkg/commands/get.go:223-251] *)
Definition parseAndDisplayMetadata (metadataValue : any) : result (list string) :=
  match metadataValue with
  | AnyString v =>
      match DecodeString v with
      | None =>
          match (json_Unmarshal v : result (gmap string any)) with
          | Err jsonErr => Err (errorf ("failed to parse metadata (not base64: " +:+ error_string (corrupt f v) +:+
                                        ", not JSON: " +:+ error_string jsonErr +:+ ")"))
          | Ok metadataMap => Ok (displayMetadataFields metadataMap "")
          end
      | Some decoded =>
          match (json_Unmarshal decoded : result (gmap string any)) with
          | Err err => Err (wrapf "failed to parse base64-decoded metadata JSON" err)
          | Ok metadataMap => Ok (displayMetadataFields metadataMap "")
          end
      end
  | AnyMap metadataMap => Ok (displayMetadataFields (list_to_map metadataMap) "")
  | v => Err (errorf ("unexpected metadata type: " +:+ type_name f v))
  end.

(* [kubectl-hsm/pkg/commands/get.go:158-220] *)
Definition displaySecretText (secretName : string) (secretData : SecretData) (namespace : string) : list string :=
  let count := sd_DeviceCount secretData in
  let deviceBadge := if 1 <? count then " 🔗 " +:+ go_itoa count +:+ " devices" else if count =? 1 then " 📱 1 device" else "" in
  let keys := List.filter (λ k, negb (bool_decide (k = "_metadata"))) (map_to_list (sd_Data secretData)).*1 in
  ["Name:         " +:+ secretName +:+ deviceBadge; "Namespace:    " +:+ namespace] ++
  (if bool_decide (sd_Path secretData ≠ "") && bool_decide (sd_Path secretData ≠ secretName)
   then ["Path:         " +:+ sd_Path secretData] else []) ++
  (if bool_decide (sd_Checksum secretData ≠ "") then ["Checksum:     " +:+ sd_Checksum secretData] else []) ++
  (if 0 <? count then ["Device Count: " +:+ go_itoa count; if 1 <? count then "Replication:  ✅ Enabled" else "Replication:  ⚠️  Single device"]
   else []) ++
  match sd_Data secretData !! "_metadata" with
  | Some metadataValue =>
      match parseAndDisplayMetadata metadataValue with
      | Ok l => l
      | Err err => ["Metadata:     <parse error: " +:+ error_string err +:+ ">"]
      end
  | None => []
  end ++
  [match keys with
   | [] => "Keys:         <none>"
   | _ => "Keys:         " +:+ str_join ", " (sort_Strings keys) +:+ " (" +:+ go_itoa (Z.of_nat (length keys)) +:+ " total)"
   end] ++
  (if count =? 1 then [""; "💡 Recommendation: Consider adding more HSM devices for high availability"]
   else if 1 <? count then [""; "🎉 Secret is replicated across " +:+ go_itoa count +:+ " devices for high availability"]
   else []).
End Get.

(** ** Encoders *)

(** [json.MarshalIndent] and [yaml.Marshal]. *)
Class Encoded (T : Type) := { json_MarshalIndent : T → result string; yaml_Marshal : T → result string }.
(** The maps that list, devices and health encode. *)
Record ListOutput := mkListOutput { lo_count : Z; lo_secrets : list string; lo_deviceStatus : option DeviceStatusResponse }.
Record DevicesOutput := mkDevicesOutput {
  do_devices : gmap string bool;
  do_totalDevices : Z;
  do_deviceInfos : option (gmap string (option HSMInfo));
}.
Record HealthOutput := mkHealthOutput {
  ho_health : HealthStatus;
  ho_deviceStatus : option DeviceStatusResponse;
  ho_deviceInfo : option DeviceInfoResponse;
}.
(** In the format that is asked for, with the nouns of the error messages. *)
Definition encode_output {T} `{!Encoded T} (output noun : string) (x : T) (text : list Output) : result (list Output) :=
  if bool_decide (output = "json") then
    match json_MarshalIndent x with Err err => Err (wrapf ("failed to marshal " +:+ noun +:+ " to JSON") err) | Ok t => Ok [Line t] end
  else if bool_decide (output = "yaml") then
    match yaml_Marshal x with Err err => Err (wrapf ("failed to marshal " +:+ noun +:+ " to YAML") err) | Ok t => Ok [Line t] end
  else Ok text.

Definition connected_count (devices : gmap string bool) : Z := Z.of_nat (length (List.filter snd (map_to_list devices))).
Definition status_icon (connected : bool) : string := if connected then "🟢" else "🔴".
Definition status_text (connected : bool) : string := if connected then "Connected" else "Disconnected".
Definition info_of (infoResponse : option DeviceInfoResponse) (deviceName : string) : option HSMInfo :=
  match infoResponse with Some r => default None (di_DeviceInfos r !! deviceName) | None => None end.

(** ** list *)
(* [kubectl-hsm/pkg/commands/list.go:34-38] *)
Record ListOptions := mkListOptions { lo_Common : CommonOptions; lo_AllNamespaces : bool; lo_ShowDevices : bool }.

(** The device columns, the same for every secret. *)
(* [kubectl-hsm/pkg/commands/list.go:191-213 displaySecretsText] *)
Definition device_cells (deviceStatus : option DeviceStatusResponse) : list string :=
  match deviceStatus with
  | Some s =>
      if 0 <? ds_TotalDevices s then
        let connectedCount := connected_count (ds_Devices s) in
        if 1 <? connectedCount then ["🔗 " +:+ go_itoa connectedCount; "synced"]
        else if connectedCount =? 1 then ["📱 1"; "single"]
        else ["❌ 0"; "unavailable"]
      else ["?"; "unknown"]
  | None => ["?"; "unknown"]
  end.
(* [kubectl-hsm/pkg/commands/list.go:150-252] *)
Definition displaySecretsText (opts : ListOptions) (secretList : SecretList) (deviceStatus : option DeviceStatusResponse)
    (currentNamespace : string) : list Output :=
  match sl_Secrets secretList with
  | [] => [Line "No secrets found"]
  | _ =>
      let ns (s : string) := if lo_AllNamespaces opts then [s] else [] in
      let devs l := if lo_ShowDevices opts then l else [] in
      Row (ns "NAMESPACE" ++ ["NAME"] ++ devs ["DEVICES"; "STATUS"]) ::
      ((λ secret, Row (ns currentNamespace ++ [secret] ++ devs (device_cells deviceStatus))) <$> sort_Strings (sl_Secrets secretList)) ++
      [Line ""; Line ("Total: " +:+ go_itoa (sl_Count secretList) +:+ " secrets" +:+
         match deviceStatus with
         | Some s =>
             if lo_ShowDevices opts then
               let connectedCount := connected_count (ds_Devices s) in
               " • " +:+ go_itoa connectedCount +:+ "/" +:+ go_itoa (ds_TotalDevices s) +:+ " devices connected" +:+
               (if 1 <? connectedCount then " • ✅ Replication enabled"
                else if connectedCount =? 1 then " • ⚠️  Single device mode"
                else " • ❌ No devices available")
             else ""
         | None => ""
         end)]
  end.

(** Not called by anything. *)
(* [kubectl-hsm/pkg/commands/list.go:255-291] *)
Definition displaySecretPaths (opts : ListOptions) (secretList : SecretList) (currentNamespace : string) : list Output :=
  match sl_Paths secretList with
  | [] => [Line "No secrets found"]
  | _ =>
      let ns (s : string) := if lo_AllNamespaces opts then [s] else [] in
      Row (ns "NAMESPACE" ++ ["NAME"]) :: ((λ path, Row (ns currentNamespace ++ [path])) <$> sort_Strings (sl_Paths secretList)) ++
      [Line ""; Line ("Total: " +:+ go_itoa (sl_Count secretList) +:+ " secrets")]
  end.

(** ** devices *)
(* [kubectl-hsm/pkg/commands/devices.go:34-37] *)
Record DevicesOptions := mkDevicesOptions { dv_Common : CommonOptions; dv_Detailed : bool }.

(* [kubectl-hsm/pkg/commands/devices.go:244-281] *)
Definition displayDetailedDevice (deviceName : string) (connected : bool) (infoResponse : option DeviceInfoResponse) : list string :=
  let given (label s : string) := if bool_decide (s ≠ "") then [label +:+ s] else [] in
  ["Device: " +:+ status_icon connected +:+ " " +:+ deviceName +:+ " " +:+ status_text connected; "Status: " +:+ status_text connected] ++
  match info_of infoResponse deviceName with
  | Some info =>
      given "Manufacturer: " (hi_Manufacturer info) ++ given "Model: " (hi_Model info) ++ given "Serial Number: " (hi_SerialNumber info) ++
      given "Firmware: " (hi_FirmwareInfo info) ++ given "Library: " (hi_LibraryInfo info) ++
      ["Slot ID: " +:+ go_itoa (hi_SlotID info); "Token Present: " +:+ go_bool (hi_TokenPresent info)] ++
      given "Token Label: " (hi_TokenLabel info)
  | None => ["Device information: Not available"]
  end.

(** The row of a device. *)
(* [kubectl-hsm/pkg/commands/devices.go:183-209 displayDevicesText] *)
Definition device_row (statusResponse : DeviceStatusResponse) (infoResponse : option DeviceInfoResponse) (deviceName : string) : Output :=
  let connected := default false (ds_Devices statusResponse !! deviceName) in
  let shown (field : HSMInfo → string) :=
    match info_of infoResponse deviceName with Some info => if bool_decide (field info ≠ "") then field info else "Unknown" | None => "Unknown" end in
  Row [deviceName; status_icon connected +:+ " " +:+ status_text connected; shown hi_Manufacturer; shown hi_Model; shown hi_SerialNumber].

(* [kubectl-hsm/pkg/commands/devices.go:215-238 displayDevicesText] *)
Definition devices_summary (statusResponse : DeviceStatusResponse) : list string :=
  let connectedCount := connected_count (ds_Devices statusResponse) in
  [""; "Summary: " +:+ go_itoa connectedCount +:+ "/" +:+ go_itoa (ds_TotalDevices statusResponse) +:+ " devices connected"] ++
  (if connectedCount =? 0 then
     [""; "⚠️  All devices are disconnected!"; "   • Check HSM device connections";
      "   • Verify agent pods are running: kubectl get pods -l app.kubernetes.io/name=hsm-agent";
      "   • Check agent logs for connection errors"]
   else if connectedCount <? ds_TotalDevices statusResponse then
     [""; "⚠️  Some devices are disconnected"; "   • Check disconnected device connections"; "   • Verify agent pods are healthy"]
   else if 1 <? connectedCount then [""; "🎉 All devices connected - replication enabled!"]
   else [""; "💡 Consider adding more devices for high availability"]).

(** With a blank line between the devices of the detailed view. *)
(* [kubectl-hsm/pkg/commands/devices.go:147-241] *)
Definition displayDevicesText (opts : DevicesOptions) (statusResponse : DeviceStatusResponse) (infoResponse : option DeviceInfoResponse)
    (namespace : string) : list Output :=
  lines ["HSM Devices"; "==========="; ""; "Namespace:     " +:+ namespace; "Total Devices: " +:+ go_itoa (ds_TotalDevices statusResponse); ""] ++
  if ds_TotalDevices statusResponse =? 0 then
    lines ["No HSM devices found."; ""; "💡 Recommendations:"; "   • Check if HSM devices are connected and accessible";
           "   • Verify discovery pods are running: kubectl get pods -l app.kubernetes.io/component=discovery";
           "   • Check HSMPool status: kubectl get hsmpool"]
  else
    let deviceNames := sorted_names (ds_Devices statusResponse) in
    (if dv_Detailed opts then
       lines (concat (imap (λ i deviceName, (if (0 <? i)%nat then [""] else []) ++
         displayDetailedDevice deviceName (default false (ds_Devices statusResponse !! deviceName)) infoResponse) deviceNames))
     else Row ["NAME"; "STATUS"; "MANUFACTURER"; "MODEL"; "SERIAL"] :: (device_row statusResponse infoResponse <$> deviceNames)) ++
    lines (devices_summary statusResponse).

(** ** health *)

(** The time stamp as [2006-01-02 15:04:05 UTC]. *)
(* [kubectl-hsm/pkg/commands/health.go:150-269] *)
Definition displayHealthText (format_time : string → string) (health : HealthStatus) (deviceStatus : option DeviceStatusResponse)
    (deviceInfo : option DeviceInfoResponse) (namespace : string) : list string :=
  let statusEmoji := if bool_decide (hs_Status health = "degraded") then "⚠️"
                     else if bool_decide (hs_Status health = "unhealthy") then "❌" else "✅" in
  let mark (b : bool) (no : string) := if b then "✅" else no in
  let basic := ["HSM Connected:     " +:+ mark (hs_HSMConnected health) "❌" +:+ " " +:+ go_bool (hs_HSMConnected health)] in
  let operational := "🎉 All systems operational!" in
  ["HSM Operator Health Status"; "=========================="; "";
   "Overall Status:    " +:+ statusEmoji +:+ " " +:+ hs_Status health;
   "Namespace:         " +:+ namespace; "Check Time:        " +:+ format_time (hs_Timestamp health); ""] ++
  match deviceStatus with
  | Some s =>
      if 0 <? ds_TotalDevices s then
        "Device Status:" ::
        ((λ deviceName,
           let connected := default false (ds_Devices s !! deviceName) in
           "  " +:+ status_icon connected +:+ " " +:+ pad 15 deviceName +:+ " " +:+ status_text connected +:+
           match info_of deviceInfo deviceName with
           | Some info =>
               if bool_decide (hi_Manufacturer info ≠ "") && bool_decide (hi_Model info ≠ "")
               then "    (" +:+ hi_Manufacturer info +:+ " " +:+ hi_Model info +:+ ")" else ""
           | None => ""
           end) <$> sorted_names (ds_Devices s)) ++
        [""; "Device Summary:    " +:+ go_itoa (connected_count (ds_Devices s)) +:+ "/" +:+ go_itoa (ds_TotalDevices s) +:+ " connected"]
      else basic
  | None => basic
  end ++
  ["Replication:       " +:+ mark (hs_ReplicationEnabled health) "⚠️" +:+ " " +:+ go_bool (hs_ReplicationEnabled health) +:+
   " (" +:+ go_itoa (hs_ActiveNodes health) +:+ " nodes)"; ""] ++
  match deviceStatus with
  | Some s =>
      let connectedCount := connected_count (ds_Devices s) in
      if connectedCount =? 0 then
        ["⚠️  Recommendations:"; "   • All devices are disconnected - check device connections";
         "   • Verify HSM agent pods are running: kubectl get pods -l app.kubernetes.io/name=hsm-agent";
         "   • Check agent logs for connection errors"]
      else if connectedCount <? ds_TotalDevices s then
        ["⚠️  Recommendations:"; "   • Some devices are disconnected - check device connections"; "   • Verify all agent pods are healthy"]
      else if connectedCount =? 1 then
        ["💡 Recommendations:"; "   • Consider adding more HSM devices for high availability";
         "   • Multiple devices enable automatic replication and failover"]
      else []
  | None =>
      if negb (hs_HSMConnected health) then
        ["⚠️  Recommendations:"; "   • Check if HSM devices are connected and accessible";
         "   • Verify HSM agent pods are running: kubectl get pods -l app.kubernetes.io/component=agent";
         "   • Check agent logs for connection errors"]
      else []
  end ++
  (if bool_decide (hs_Status health = "healthy") then
     match deviceStatus with
     | Some s =>
         if 1 <? connected_count (ds_Devices s)
         then ["🎉 All systems operational with " +:+ go_itoa (connected_count (ds_Devices s)) +:+ " devices providing high availability!"]
         else [operational]
     | None => [operational]
     end
   else []).

(** ** mirror *)
(* [kubectl-hsm/pkg/commands/mirror.go:32-35] *)
Record MirrorOptions := mkMirrorOptions { mi_Common : CommonOptions; mi_Force : bool }.
(** The default format of this command is the empty one. *)
(* [kubectl-hsm/pkg/commands/mirror.go:143-178] *)
Definition outputMirrorSyncResult `{!Encoded MirrorSyncResult} (result : MirrorSyncResult) (outputFormat : string) : Prelude.result (list Output) :=
  if bool_decide (outputFormat = "json") then
    match json_MarshalIndent result with Err err => Err err | Ok t => Ok [Line t] end
  else if bool_decide (outputFormat = "yaml") then
    match yaml_Marshal result with Err err => Err (wrapf "failed to marshal result to YAML" err) | Ok t => Ok [Line t] end
  else if bool_decide (outputFormat = "table") || bool_decide (outputFormat = "") then
    Ok (lines ["Mirror Sync Triggered Successfully"; ""; "Reason:    " +:+ mr_Reason result; "Forced:    " +:+ go_bool (mr_Force result);
               "Status:    " +:+ mr_Message result; "Triggered: " +:+ go_bool (mr_Triggered result); "";
               if mr_Force result then "ℹ️  Force flag used - sync will run immediately regardless of recent syncs"
               else "ℹ️  Normal sync triggered - may be debounced with other recent events"])
  else Err (errorf ("unsupported output format: " +:+ outputFormat)).

(** ** The commands *)
Section Show.
Context {W : Type} (dt : Desktop W) (cl : Cluster W) (f : Fmt) (format_time : string → string).
Context `{!Json CachedToken, !Json TokenRequest, !Json TokenResponse, !Json (gmap string any)}.
Context `{!Json APIResponse, !Json any, !Json SecretData, !Json SecretList, !Json HealthStatus, !Json DeviceStatusResponse,
          !Json DeviceInfoResponse, !Json MirrorSyncRequest, !Json MirrorSyncResult}.
Context `{!Encoded SecretData, !Encoded (gmap string any), !Encoded ListOutput, !Encoded DevicesOutput, !Encoded HealthOutput,
          !Encoded MirrorSyncResult}.

(** What the client object is asked for, and how an error of a request that is not needed is
    dropped. *)
Definition optional {A} (m : ST (CState (W := W)) (result A)) : ST (CState (W := W)) (option A) :=
  let* r := m in st_ret (match r with Ok a => Some a | Err _ => None end).

(* [kubectl-hsm/pkg/commands/get.go:102-155 Run] *)
Definition get_secret (opts : GetOptions) (secretName namespace : string) : ST (CState (W := W)) (result (list Output)) :=
  let output := co_Output (go_Common opts) in
  st_try (GetSecret dt secretName) (wrapf "failed to get secret") (λ secretData,
  st_ret (
    if bool_decide (go_Key opts ≠ "") then
      match sd_Data secretData !! go_Key opts with
      | None => Err (errorf ("key '" +:+ go_Key opts +:+ "' not found in secret '" +:+ secretName +:+ "'"))
      | Some value => encode_output output "key data" ({[go_Key opts := value]} : gmap string any) [Line (sprint_s f value)]
      end
    else encode_output output "secret data" secretData (lines (displaySecretText f secretName secretData namespace)))).
(* [kubectl-hsm/pkg/commands/get.go:83-155 Run] *)
Definition get_Run (opts : GetOptions) (secretName : string) : ST W (result (list Output)) :=
  if bool_decide (secretName = "") then st_ret (Err (errorf "secret name is required"))
  else with_client_in dt cl (co_Namespace (go_Common opts)) (co_Verbose (go_Common opts)) id id (get_secret opts secretName).

(* [kubectl-hsm/pkg/commands/list.go:97-147 Run] *)
Definition list_secrets (opts : ListOptions) (namespace : string) : ST (CState (W := W)) (result (list Output)) :=
  let output := co_Output (lo_Common opts) in
  st_try (ListSecrets dt 0 0) (wrapf "failed to list secrets") (λ secretList,
  let* deviceStatus := (if lo_ShowDevices opts || bool_decide (output ≠ "text") then optional (GetDeviceStatus dt) else st_ret None) in
  st_ret (encode_output output "secrets" (mkListOutput (sl_Count secretList) (sl_Secrets secretList) deviceStatus)
            (displaySecretsText opts secretList deviceStatus namespace))).
(* [kubectl-hsm/pkg/commands/list.go:83-147 Run] *)
Definition list_Run (opts : ListOptions) : ST W (result (list Output)) :=
  with_client_in dt cl (co_Namespace (lo_Common opts)) (co_Verbose (lo_Common opts)) id id (list_secrets opts).

(* [kubectl-hsm/pkg/commands/devices.go:97-144 Run] *)
Definition show_devices (opts : DevicesOptions) (namespace : string) : ST (CState (W := W)) (result (list Output)) :=
  let output := co_Output (dv_Common opts) in
  st_try (GetDeviceStatus dt) (wrapf "failed to get device status") (λ statusResponse,
  st_try (if dv_Detailed opts || bool_decide (output ≠ "text")
          then st_try (GetDeviceInfo dt) (wrapf "failed to get device info") (λ i, st_ret (Ok (Some i)))
          else st_ret (Ok None)) id (λ infoResponse,
  st_ret (encode_output output "device data"
            (mkDevicesOutput (ds_Devices statusResponse) (ds_TotalDevices statusResponse) (di_DeviceInfos <$> infoResponse))
            (displayDevicesText opts statusResponse infoResponse namespace)))).
(* [kubectl-hsm/pkg/commands/devices.go:83-144 Run] *)
Definition devices_Run (opts : DevicesOptions) : ST W (result (list Output)) :=
  with_client_in dt cl (co_Namespace (dv_Common opts)) (co_Verbose (dv_Common opts)) id (wrapf "failed to connect to HSM operator")
    (show_devices opts).

(* [kubectl-hsm/pkg/commands/health.go:86-147 Run] *)
Definition show_health (opts : CommonOptions) (namespace : string) : ST (CState (W := W)) (result (list Output)) :=
  st_try (GetHealth dt) (wrapf "failed to get health status") (λ health,
  let* deviceStatus := optional (GetDeviceStatus dt) in
  let* deviceInfo := optional (GetDeviceInfo dt) in
  st_ret (encode_output (co_Output opts) "health status" (mkHealthOutput health deviceStatus deviceInfo)
            (lines (displayHealthText format_time health deviceStatus deviceInfo namespace)))).
(* [kubectl-hsm/pkg/commands/health.go:72-147 Run] *)
Definition health_Run (opts : CommonOptions) : ST W (result (list Output)) :=
  with_client_in dt cl (co_Namespace opts) (co_Verbose opts) id (wrapf "failed to connect to HSM operator") (show_health opts).

(* [kubectl-hsm/pkg/commands/mirror.go:116-140] *)
Definition runMirrorSync (opts : MirrorOptions) : ST W (result (list Output)) :=
  with_client_in dt cl (co_Namespace (mi_Common opts)) (co_Verbose (mi_Common opts)) (wrapf "failed to initialize client manager")
    (wrapf "failed to get HSM client") (λ _,
    st_try (TriggerMirrorSync dt (mi_Force opts)) (wrapf "failed to trigger mirror sync") (λ result,
    st_ret (outputMirrorSyncResult result (co_Output (mi_Common opts))))).

(** *** auth *)

(** The fixed address is tried first; whether the port can be forwarded does not matter. *)
(* [kubectl-hsm/pkg/util/kubectl.go:315-355] *)
Definition CreateClient : ST W (result Client) :=
  let baseURL := "http://localhost:8090" in
  st_try (NewClient dt baseURL) id (λ testClient, λ w,
    let '(r, (testClient, w)) := GetHealth dt (testClient, w) in
    match r with
    | Ok _ => (Ok testClient, w)
    | Err _ =>
        st_try (NewKubectlUtil cl (filepath_Join dt) "") (wrapf "failed to create kubectl util for port forwarding") (λ kubectlUtil,
        st_try (FindOperatorService cl kubectlUtil) (wrapf "HSM operator not found") (λ _,
        do! CreatePortForward cl kubectlUtil 8090 false in
        NewClient dt baseURL)) w
    end).
(** A command with a client of its own. *)
Definition with_created {A} (k : ST (CState (W := W)) (result A)) : ST W (result A) :=
  st_try CreateClient (wrapf "failed to create client") (λ c, λ w, let '(r, (_, w)) := k (c, w) in (r, w)).

(* [kubectl-hsm/pkg/commands/auth.go:67-89 NewAuthStatusCmd] *)
Definition auth_status : ST (CState (W := W)) (result (list string)) :=
  let* r := GetHealth dt in
  st_ret (Ok (["HSM API Authentication Status"; "============================"] ++
    match r with
    | Err err =>
        ["❌ Authentication: FAILED"; "   Error: " +:+ error_string err; ""; "To troubleshoot:";
         "1. Ensure you have a valid service account with HSM permissions"; "2. Check that the HSM API server is running";
         "3. Verify your kubeconfig is correctly configured"; "4. Run 'kubectl hsm auth clear' to clear cached credentials"]
    | Ok health =>
        ["✅ Authentication: SUCCESS"; "   API Status: " +:+ hs_Status health; "   HSM Connected: " +:+ go_bool (hs_HSMConnected health);
         "   Active Nodes: " +:+ go_itoa (hs_ActiveNodes health); "   Replication: " +:+ go_bool (hs_ReplicationEnabled health)]
    end)).
(* [kubectl-hsm/pkg/commands/auth.go:58-90 NewAuthStatusCmd] *)
Definition auth_status_Run : ST W (result (list string)) := with_created auth_status.

(* [kubectl-hsm/pkg/commands/auth.go:105-119 NewAuthClearCmd] *)
Definition auth_clear_Run : ST W (result (list string)) :=
  with_created (st_try (ClearAuthCache dt) id (λ _,
    st_ret (Ok ["✅ Authentication cache cleared successfully"; "Next API request will re-authenticate automatically"]))).

(** The settings are those of the client object, which ends with the command. *)
(* [kubectl-hsm/pkg/commands/auth.go:137-160 NewAuthConfigCmd] *)
Definition auth_config_Run (serviceAccount namespace : string) : ST W (result (list string)) :=
  with_created (
    do! (if bool_decide (serviceAccount ≠ "") then SetServiceAccount serviceAccount else st_ret ()) in
    do! (if bool_decide (namespace ≠ "") then SetNamespace namespace else st_ret ()) in
    st_ret (Ok ((if bool_decide (serviceAccount ≠ "") then ["✅ Service account set to: " +:+ serviceAccount] else []) ++
                (if bool_decide (namespace ≠ "") then ["✅ Namespace set to: " +:+ namespace] else []) ++
                (if bool_decide (serviceAccount = "") && bool_decide (namespace = "")
                 then ["No configuration changes made."; ""; "Usage:"; "  kubectl hsm auth config --service-account=my-sa --namespace=my-ns"]
                 else [])))).
End Show.
