(* ===== verification/KubectlShowSpec.v ===== *)
(** * What the showing commands guarantee

    The text of get hides the values; auth status does not authenticate; the columns of
    devices. *)

From S2P Require Import Prelude GoStd KubectlClient KubectlCommands KubectlShow.

Local Open Scope go_scope.

Lemma keys_same {A B} (m : gmap string A) (m' : gmap string B) :
  dom m = dom m' → (map_to_list m).*1 ≡ₚ (map_to_list m').*1.
Proof.
  intros Hd. apply NoDup_Permutation; [apply NoDup_fst_map_to_list..|]. intros k.
  assert (∀ C (m : gmap string C), k ∈ (map_to_list m).*1 ↔ k ∈ dom m) as Hk.
  { intros C m0. rewrite elem_of_dom. split.
    - intros ([k' x] & -> & Hx)%list_elem_of_fmap. exists x. by apply elem_of_map_to_list.
    - intros [x Hx]. apply list_elem_of_fmap. exists (k, x). split; [done|]. by apply elem_of_map_to_list. }
  by rewrite !Hk, Hd.
Qed.

Lemma filter_perm {A} (P : A → bool) (l l' : list A) : l ≡ₚ l' → List.filter P l ≡ₚ List.filter P l'.
Proof.
  induction 1 as [|x l l' _ IH|x y l|l l' l'' _ IH1 _ IH2]; cbn; [done|by destruct (P x); rewrite IH| |etrans; [exact IH1|exact IH2]].
  destruct (P x), (P y); try done. apply perm_swap.
Qed.

Section Text.
Context (f : Fmt) `{!Json (gmap string any)}.

(** The text of a secret shows its keys but no value: two secrets with the same keys, and the
    same path, checksum, number of devices and metadata, are shown alike. *)
Theorem displaySecretText_hides_values secretName (d d' : SecretData) namespace :
  dom (sd_Data d) = dom (sd_Data d') → sd_Data d !! "_metadata" = sd_Data d' !! "_metadata" →
  sd_Path d = sd_Path d' → sd_Checksum d = sd_Checksum d' → sd_DeviceCount d = sd_DeviceCount d' →
  displaySecretText f secretName d namespace = displaySecretText f secretName d' namespace.
Proof.
  intros Hd Hm Hp Hc Hn. unfold displaySecretText. rewrite Hm, Hp, Hc, Hn.
  pose proof (filter_perm (λ k, negb (bool_decide (k = "_metadata"))) _ _ (keys_same _ _ Hd)) as Hk.
  pose proof (Permutation_length Hk) as Hl. pose proof (sort_Strings_proper _ _ Hk) as Hs.
  destruct (List.filter _ (map_to_list (sd_Data d)).*1) as [|k l], (List.filter _ (map_to_list (sd_Data d')).*1) as [|k' l']; try done.
  by rewrite Hs, Hl.
Qed.
End Text.

(** Without --detailed the table does not ask for what its columns show. *)
Lemma device_row_unknown s name : ∃ status, device_row s None name = Row [name; status; "Unknown"; "Unknown"; "Unknown"].
Proof. by eexists. Qed.

Section Auth.
Context {W : Type} (dt : Desktop W).
Context `{!Json CachedToken, !Json TokenRequest, !Json TokenResponse, !Json APIResponse, !Json any, !Json HealthStatus}.

(** The request of the health check: no header is set. *)
Lemma GetHealth_request c w :
  (GetHealth dt (c, w)).1 =
  match http_NewRequest dt "GET" (cl_baseURL c +:+ "/api/v1/health") with
  | Err err => Err (wrapf "failed to create request" err)
  | Ok _ =>
      match (http_Do dt (mkHttpRequest "GET" (cl_baseURL c +:+ "/api/v1/health") None None None) w).1 with
      | Err err => Err (wrapf "request failed" err)
      | Ok (_, Err err) => Err (wrapf "failed to read response body" err)
      | Ok (code, Ok body) =>
          match read_response code body (Some (mkHealthStatus "" false false 0 "")) with Ok r => Ok (default (mkHealthStatus "" false false 0 "") r) | Err err => Err err end
      end
  end.
Proof.
  destruct c as [url tm]. unfold GetHealth, fetch, doRequest, authorize, get_client, ClearAuthCache, with_tokens.
  unfold st_try, st_bind, st_ret, on_world, no_body. cbn [fst snd cl_baseURL cl_tokenManager].
  destruct (http_NewRequest dt "GET" _) as [[]|e]; [|done]. replace (has_suffix "/api/v1/health" "/health") with true by reflexivity.
  set (req := mkHttpRequest "GET" (url +:+ "/api/v1/health") None None None).
  destruct tm as [tm|]; cbn [fst snd cl_baseURL cl_tokenManager negb andb]; fold req;
    (destruct (http_Do dt req w) as [[[code [body|e]]|e] w1]; [|done|done]); cbn [fst snd];
    (destruct (code =? 401); [|by destruct (read_response code body _)]).
  - cbn [cl_tokenManager]. destruct (ClearCache dt tm w1) as [[a tm'] w2]. by destruct (read_response code body _).
  - by destruct (read_response code body _).
Qed.

(** [auth status] says the same whatever token the client has, or none: it does not
    authenticate. *)
Theorem auth_status_ignores_token baseURL tm tm' w :
  (auth_status dt (mkClient baseURL tm, w)).1 = (auth_status dt (mkClient baseURL tm', w)).1.
Proof.
  assert (∀ t, (auth_status dt (mkClient baseURL t, w)).1 = (auth_status dt (mkClient baseURL None, w)).1) as Hall; [|by rewrite !Hall].
  intros t. unfold auth_status, st_bind, st_ret. pose proof (GetHealth_request (mkClient baseURL t) w) as H1.
  pose proof (GetHealth_request (mkClient baseURL None) w) as H2. cbn [cl_baseURL] in H1, H2. rewrite <-H2 in H1.
  destruct (GetHealth dt (mkClient baseURL t, w)) as [r x], (GetHealth dt (mkClient baseURL None, w)) as [r' x']. cbn in H1. by subst.
Qed.
End Auth.
