(* ===== verification/KubectlSpec.v ===== *)
(** * What the command line guarantees

    The data it collects, and what its writes do when they go through the REST server of
    [Server] to the devices: renaming a key, and merging into a secret, with the values
    that a merge spoils. *)

From Stdlib Require Import Ascii.
From S2P Require Import KubectlClient KubectlCommands KubectlShow.
From S2P Require Import Prelude GoStd Base64 Hsm MockClient Api Mirror Parallel Proxy ProxySpec Auth Trigger Server.

Local Open Scope go_scope.

(** ** Lemmas: values *)
Definition is_string (v : any) : Prop := ∃ s, v = AnyString s.
Abbreviation strings := (fmap (M := gmap string) AnyString).

Lemma strings_inj (m m' : gmap string string) : strings m = strings m' → m = m'.
Proof. apply map_fmap_inj. by intros ? ? [= ->]. Qed.

Lemma decode_strings (d : gmap string string) : decodeBase64Data (AnyString ∘ EncodeToString <$> d) = strings d.
Proof.
  unfold decodeBase64Data. rewrite <-map_fmap_compose. apply map_fmap_ext. intros k v _. simpl.
  by rewrite decode_encode.
Qed.

(** Decoding once more. *)
Definition decoded_again (v : string) : string := default v (DecodeString v).
Lemma decode_twice (d : gmap string string) : decodeBase64Data (strings d) = strings (decoded_again <$> d).
Proof.
  unfold decodeBase64Data. rewrite <-!map_fmap_compose. apply map_fmap_ext. intros k v _. simpl.
  unfold decoded_again. by destruct (DecodeString v).
Qed.
Lemma decoded_again_fixed v : decoded_again v = v ↔ v = "" ∨ DecodeString v = None.
Proof.
  unfold decoded_again. destruct (DecodeString v) as [b|] eqn:E; simpl; [|tauto]. split.
  - intros ->. left. by apply decode_fixed.
  - intros [->|]; [|done]. by injection E.
Qed.

(** What a merge with the decoded values gives. *)
Lemma merge_intended (m d : gmap string string) :
  m ∪ (decoded_again <$> d) = m ∪ d ↔ ∀ k v, d !! k = Some v → m !! k = None → v = "" ∨ DecodeString v = None.
Proof.
  split.
  - intros E k v Hk Hm. apply decoded_again_fixed. apply (f_equal (lookup k)) in E.
    rewrite !lookup_union_r, lookup_fmap, Hk in E by done. by injection E.
  - intros Hd. apply map_eq. intros k. destruct (m !! k) as [x|] eqn:Hm; [by rewrite !(lookup_union_Some_l _ _ _ x)|].
    rewrite !lookup_union_r, lookup_fmap by done. destruct (d !! k) as [v|] eqn:Hk; [|done]. simpl.
    f_equal. apply decoded_again_fixed. by apply (Hd k).
Qed.

(** ** The data that is collected *)
Section Collected.
Context `{MapOrder} (sprint_v : any → string).

Lemma insert_is_string k s (m : gmap string any) : map_Forall (λ _ v, is_string v) m → map_Forall (λ _ v, is_string v) (<[k := AnyString s]> m).
Proof. intros Hm. apply map_Forall_insert_2; [by exists s|exact Hm]. Qed.

Lemma literal_loop_strings l data m :
  map_Forall (λ _ v, is_string v) data → literal_loop data l = Ok m → map_Forall (λ _ v, is_string v) m.
Proof.
  revert data. induction l as [|x l IH]; intros data Hd; simpl; [by intros [= <-]|].
  destruct (split_equal x) as [[k v]|]; [|done]. apply IH. by apply insert_is_string.
Qed.

Lemma prompt_loop_strings n data input m rest :
  map_Forall (λ _ v, is_string v) data → prompt_loop n data input = (Ok m, rest) → map_Forall (λ _ v, is_string v) m.
Proof.
  revert data input. induction n as [|n IH]; intros data input Hd; simpl; [done|].
  destruct (readSecretValue false input) as [[key|] input1]; [|done].
  case_bool_decide; [by intros [= <- _]|].
  destruct (readSecretValue _ input1) as [[v|] input2]; [|done]. apply IH. by apply insert_is_string.
Qed.

Lemma env_loop_strings f n data l m :
  map_Forall (λ _ v, is_string v) data → env_loop f n data l = Ok m → map_Forall (λ _ v, is_string v) m.
Proof.
  revert n data. induction l as [|x l IH]; intros n data Hd; simpl; [by intros [= <-]|].
  destruct (is_comment _); [by apply IH|]. destruct (split_equal _) as [[k v]|]; [|done].
  case_bool_decide; [done|]. destruct (data !! _); [done|]. apply IH. by apply insert_is_string.
Qed.
Lemma env_strings f content m : readFromEnvContent f content = Ok m → map_Forall (λ _ v, is_string v) m.
Proof.
  unfold readFromEnvContent. destruct (scan_lines content) as [l e].
  destruct (env_loop f 0 ∅ l) as [data|] eqn:E; [|done]. destruct e; [done|]. case_bool_decide; [done|].
  intros [= <-]. eapply env_loop_strings; [|exact E]. apply map_Forall_empty.
Qed.

Lemma fold_left_ext {A B} (f g : A → B → A) l a : (∀ a x, f a x = g a x) → fold_left f l a = fold_left g l a.
Proof. intros E. revert a. induction l as [|x l IH]; intros a; simpl; [done|]. by rewrite E, IH. Qed.

(** Ranging over a map and replacing every value with a string. *)
Lemma replace_all_strings (g : string → any → option error) (data m : gmap string any) :
  fold_left (λ r '(key, value),
    match r with
    | Err err => Err err
    | Ok data => match g key value with Some err => Err err | None => Ok (<[key := stringified sprint_v value]> data) end
    end) (range data) (Ok data) = Ok m → map_Forall (λ _ v, is_string v) m.
Proof.
  assert (∀ l r m, fold_left (λ (r : result (gmap string any)) '(key, value),
    match r with
    | Err err => Err err
    | Ok data => match g key value with Some err => Err err | None => Ok (<[key := stringified sprint_v value]> data) end
    end) l r = Ok m → ∃ data, r = Ok data ∧ ∀ k, (k ∈ l.*1 → ∃ s, m !! k = Some (AnyString s)) ∧ (k ∉ l.*1 → m !! k = data !! k)) as Hfold.
  { induction l as [|[k v] l IH]; intros r m'; simpl; [intros ->; exists m'; split; [done|]; intros k; split; [by intros ?%elem_of_nil|done]|].
    intros Hf. destruct r as [data0|]; [|by destruct (IH _ _ Hf) as (? & [=] & _)].
    destruct (g k v); [by destruct (IH _ _ Hf) as (? & [=] & _)|]. destruct (IH _ _ Hf) as (data1 & [= <-] & Hm).
    exists data0. split; [done|]. intros k'. destruct (Hm k') as [Hin Hout]. destruct (decide (k' ∈ l.*1)) as [Hk|Hk].
    - split; [by intros _; apply Hin|]. intros Hn. destruct Hn. by right.
    - rewrite Hout by done. destruct (decide (k' = k)) as [->|Hne].
      + split; [|intros Hn; destruct Hn; left]. intros _. rewrite lookup_insert_eq. destruct v; simpl; eauto.
      + rewrite lookup_insert_ne by done. split; [|done]. intros [?|?]%elem_of_cons; done. }
  intros Hf. destruct (Hfold _ _ _ Hf) as (d & [= <-] & Hm). intros k v Hkv. destruct (Hm k) as [Hin Hout].
  destruct (decide (k ∈ (range data).*1)) as [Hk|Hk].
  - destruct (Hin Hk) as [s Hs]. exists s. congruence.
  - rewrite Hout in Hkv by done. destruct Hk. apply elem_of_range_keys. by eexists.
Qed.

Context `{!Json (gmap string any)}.

Lemma json_strings content m : tryParseAsJson sprint_v content = Ok m → map_Forall (λ _ v, is_string v) m.
Proof.
  unfold tryParseAsJson. destruct (json_Unmarshal content) as [data|]; [|done]. intros Hf.
  apply (replace_all_strings (λ key value,
    if bool_decide (key = "") then Some (errorf "empty key found")
    else match value with
         | AnyMap _ | AnyList _ => Some (errorf "nested structures not supported, expected simple key-value format")
         | _ => None end) data). rewrite <-Hf. apply fold_left_ext. intros [r|] [k v]; [|done]. case_bool_decide; [done|]. by destruct v.
Qed.

Lemma json_file_strings f content m : readFromJsonContent sprint_v f content = Ok m → map_Forall (λ _ v, is_string v) m.
Proof.
  unfold readFromJsonContent. destruct (json_Unmarshal content) as [data|]; [|done].
  match goal with |- context [fold_left ?g ?l ?a] => destruct (fold_left g l a) as [m'|] eqn:Hf end; [|done].
  case_bool_decide; [done|]. intros [= <-].
  apply (replace_all_strings (λ key value, if bool_decide (key = "") then Some (errorf ("empty key found in JSON file " +:+ f)) else None) data).
  rewrite <-Hf. apply fold_left_ext. intros [r|] [k v]; [|done]. by case_bool_decide.
Qed.

Context {W : Type} (dt : Desktop W).

Lemma readFromFile_strings key f w m w' :
  readFromFile sprint_v (os_ReadFile dt) key f w = (Ok m, w') → map_Forall (λ _ v, is_string v) m.
Proof.
  unfold readFromFile, st_try, st_bind. destruct (os_ReadFile dt f w) as [[content|] w1]; [|done].
  case_bool_decide; [intros [= E _]; by eapply env_strings|]. case_bool_decide; [intros [= E _]; by eapply json_file_strings|].
  destruct (tryParseAsJson sprint_v content) as [d|] eqn:Ej; [intros [= <- _]; by eapply json_strings|].
  unfold tryParseAsEnv. destruct (existsb _ _).
  - destruct (readFromEnvContent f content) as [d|] eqn:Ee; [intros [= <- _]; by eapply env_strings|].
    intros [= <- _]. apply map_Forall_singleton. by eexists.
  - intros [= <- _]. apply map_Forall_singleton. by eexists.
Qed.

(** C34. Whatever the input, the data that create and update collect is a map of strings, so
    the type assertions on its values cannot panic and no number, list or object reaches
    the server. *)
Theorem collected_are_strings opts input w m w' :
  collect_data dt sprint_v opts input w = (Ok m, w') → map_Forall (λ _ v, is_string v) m.
Proof.
  unfold collect_data. case_bool_decide; [|case_bool_decide].
  - intros [= E _]. eapply literal_loop_strings; [|exact E]. apply map_Forall_empty.
  - unfold read_files. set (f := λ r fileSpec, _).
    assert (∀ l r w, (∀ d, r = Ok d → map_Forall (λ _ v, is_string v) d) →
      ∀ m w', st_fold f l r w = (Ok m, w') → map_Forall (λ _ v, is_string v) m) as Hfold.
    { induction l as [|x l IH]; intros r v Hr m' v'; simpl; [intros [= -> _]; by apply Hr|].
      unfold st_bind. destruct (f r x v) as [r1 v1] eqn:Ef. apply IH. intros d ->. revert Ef. unfold f.
      destruct r as [d0|]; [|by intros [= ? _]]. destruct (match split_equal x with Some (k, fn) => (k, fn) | None => ("", x) end) as [key fn].
      unfold st_try, st_bind. destruct (readFromFile sprint_v (os_ReadFile dt) key fn v) as [[fd|] v2] eqn:Er; [|done].
      intros [= <- _]. apply map_Forall_union_2; [by eapply readFromFile_strings|by apply Hr]. }
    apply Hfold. intros d [= <-]. apply map_Forall_empty.
  - unfold promptForInteractiveInput. destruct (prompt_loop _ _ _) as [[d|] rest] eqn:Ep; [|done].
    case_bool_decide; [done|]. intros [= <- _]. eapply prompt_loop_strings; [|exact Ep]. apply map_Forall_empty.
Qed.
End Collected.

(** The input always suffices for the prompt's loop. *)
Lemma prompt_loop_enough n m data input :
  (length input < n)%nat → (length input < m)%nat → prompt_loop n data input = prompt_loop m data input.
Proof.
  revert m data input. induction n as [|n IH]; intros [|m] data input Hn Hm; try lia. simpl.
  destruct input as [|[line|e] input]; simpl; try done. case_bool_decide; [done|].
  destruct input as [|[v|e] input]; simpl; try done.
  - destruct (isPassword _); [done|]. apply IH; simpl in *; lia.
  - apply IH; simpl in *; lia.
Qed.

(** Renaming a key of a map: where the loop puts a key, then what it has built. *)
Definition renamed (old new k : string) : string := if bool_decide (k = old) then new else k.
Lemma rename_loop old new (data : gmap string any) (l : list (string * any)) (acc : gmap string any) k v :
  NoDup l.*1 → (∀ k x, (k, x) ∈ l → data !! k = Some x) → (∀ k, k ∈ l.*1 → k ≠ new) → data !! k = Some v → k ∈ l.*1 →
  fold_left (λ newData '(k, v), if bool_decide (k = old) then <[new := v]> newData else <[k := v]> newData) l acc !! renamed old new k = Some v.
Proof.
  intros Hnd Hl Hnew Hk. assert (∀ l (acc : gmap string any) k', (∀ k, k ∈ l.*1 → k ≠ new) → k' ∉ renamed old new <$> l.*1 →
    fold_left (λ newData '(k, v), if bool_decide (k = old) then <[new := v]> newData else <[k := v]> newData) l acc !! k' = acc !! k') as Hout.
  { clear. induction l as [|[k x] l IH]; intros acc k' Hn Hk'; simpl; [done|]. cbn in Hk'. apply not_elem_of_cons in Hk' as [Hne Hk'].
    rewrite IH; [|intros; apply Hn; by right|done]. unfold renamed in Hne. case_bool_decide; by rewrite lookup_insert_ne. }
  revert acc. induction l as [|[k0 x0] l IH]; intros acc Hin; [by apply elem_of_nil in Hin|]. simpl. apply NoDup_cons in Hnd as [Hk0 Hnd].
  assert (∀ k, k ∈ l.*1 → k ≠ new) as Hnew' by (intros; apply Hnew; by right).
  apply elem_of_cons in Hin as [->|Hin]; [|apply IH; [done|intros; apply Hl; by right|done|done]].
  assert (x0 = v) as -> by (pose proof (Hl k0 x0 ltac:(by left)) as Hx; simpl in Hk; congruence).
  assert (k0 ≠ new) as Hkn by (apply Hnew; by left). simpl in Hk0. rewrite Hout; [|done|].
  - simpl. unfold renamed. case_bool_decide; by rewrite lookup_insert_eq.
  - simpl. intros (k' & E & Hk')%list_elem_of_fmap. specialize (Hnew' k' Hk'). unfold renamed in E.
    repeat case_bool_decide; subst; first [done | congruence | by destruct Hk0].
Qed.

Lemma rename_data_eq `{MapOrder} old new (data : gmap string any) v :
  data !! old = Some v → data !! new = None → rename_data old new data = <[new := v]> (delete old data).
Proof.
  intros Ho Hn. unfold rename_data. set (f := λ (newData : gmap string any) '(k, v), _).
  assert (∀ k, k ∈ (range data).*1 → k ≠ new) as Hnew by (intros k [x Hx]%elem_of_range_keys ->; by rewrite Hn in Hx).
  assert (∀ k x, data !! k = Some x → fold_left f (range data) ∅ !! renamed old new k = Some x) as Hin.
  { intros k x Hk. apply (rename_loop old new data); [apply range_keys_NoDup|intros ? ? ?; by apply elem_of_range|done|done|].
    apply elem_of_range_keys. by exists x. }
  assert (∀ l (acc : gmap string any) k, is_Some (fold_left f l acc !! k) → k ∈ renamed old new <$> l.*1 ∨ is_Some (acc !! k)) as Hout.
  { induction l as [|[k0 x0] l IH]; intros acc k; simpl; [by right|]. intros [?|Hs]%IH; [by left; right|].
    destruct (decide (k = renamed old new k0)) as [->|Hne]; [by left; left|right]. unfold renamed in Hne.
    case_bool_decide; by rewrite lookup_insert_ne in Hs by done. }
  apply map_eq. intros k. destruct (decide (k = new)) as [->|Hkn].
  - rewrite lookup_insert_eq. specialize (Hin old v Ho). unfold renamed in Hin. by rewrite bool_decide_eq_true_2 in Hin.
  - rewrite lookup_insert_ne by done. destruct (decide (k = old)) as [->|Hko].
    + rewrite lookup_delete_eq. apply eq_None_not_Some. intros Hs. apply Hout in Hs as [(k' & E & _)%list_elem_of_fmap|[x Hx]].
      * unfold renamed in E. case_bool_decide; congruence.
      * by rewrite lookup_empty in Hx.
    + rewrite lookup_delete_ne by done. destruct (data !! k) as [x|] eqn:Ek.
      * specialize (Hin k x Ek). unfold renamed in Hin. by rewrite bool_decide_eq_false_2 in Hin.
      * apply eq_None_not_Some. intros Hs. apply Hout in Hs as [(k' & E & Hk')%list_elem_of_fmap|[x Hx]]; [|by rewrite lookup_empty in Hx].
        apply elem_of_range_keys in Hk' as [x Hx]. unfold renamed in E. case_bool_decide; congruence.
Qed.

(** ** Through the REST server *)

(** Valid UTF-8: what JSON carries unchanged. *)
Fixpoint utf8 (skip : nat) (s : string) : bool :=
  match s, skip with
  | EmptyString, _ => true
  | String _ s', S skip' => utf8 skip' s'
  | String c s', O => ((byte_val c <? 128) || (1 <? rune_width c s')%nat) && utf8 (rune_width c s' - 1) s'
  end.
Definition valid_utf8 (s : string) : bool := utf8 0 s.
Definition text_data (d : gmap string string) : Prop := map_Forall (λ k v, valid_utf8 k = true ∧ valid_utf8 v = true) d.

Definition text_keys (d : gmap string string) : Prop := map_Forall (λ k _, valid_utf8 k = true) d.

(** A name without the characters that mean something in a URL. *)
Definition plain_char (c : ascii) : bool := is_alnum c || bool_decide (c = "-"%char) || bool_decide (c = "_"%char) || bool_decide (c = "."%char).
Definition plain (name : string) : bool := bool_decide (name ≠ "") && str_forallb plain_char name.

(** gin's binding of a body, for each handler that wants one. *)
Record Binders := mkBinders {
  b_write : string → result WriteRequest;
  b_pin : string → result (string * string);
  b_token : string → result string;
  b_sync : string → result bool;
}.
(** The request as the server's router and handlers see it. *)
Definition to_request (bind : Binders) (baseURL : string) (req : HttpRequest) : Request :=
  let bound {A} (b : string → result A) : result A := match hr_Body req with Some t => b t | None => Err EOF end in
  mkRequest (hr_Method req) (trim_prefix (hr_URL req) baseURL) (default "" (hr_Authorization req)) ""
    (bound (b_write bind)) (bound (b_pin bind)) (bound (b_token bind)) (bound (b_sync bind)).

(** The JSON both sides speak: the body of a write whose data is text, a secret (whose
    bytes are sent in base64), and that only an answer says it was successful. *)
Class Wire `{!Json CreateSecretRequest, !Json KubectlClient.APIResponse, !Json any, !Json KubectlClient.SecretData}
    (bind : Binders) (render : Reply → Z * string) : Prop := {
  wire_write (d : gmap string string) t :
    text_data d → json_Marshal (mkCreateSecretRequest (strings d) "" ∅) = Ok t → b_write bind t = Ok (mkWriteRequest d None None);
  wire_secret msg path (d : gmap string string) ck n :
    text_keys d →
    ∃ v b, json_Unmarshal (render (Answer (sendResponse StatusOK msg (ReadSecretResponse path d ck n)))).2 =
             Ok (KubectlClient.mkAPIResponse true msg v None) ∧ v ≠ AnyNil ∧ json_Marshal v = Ok b ∧
           json_Unmarshal b = Ok (mkSecretData path (AnyString ∘ EncodeToString <$> d) ck n);
  wire_success reply resp :
    json_Unmarshal (render reply).2 = Ok resp → KubectlClient.ar_Success resp = true →
    ∃ code h, reply = Answer (code, h) ∧ Proxy.ar_Success h = true;
}.

(** The files, the clock and the Kubernetes API of the machine have nothing to do with what
    [keeps] looks at. *)
Class DesktopLaws {W} (dt : Desktop W) (keeps : W → W → Prop) : Prop := {
  dt_now : preserves keeps (KubectlClient.time_Now dt);
  dt_home : preserves keeps (os_UserHomeDir dt);
  dt_mkdir d : preserves keeps (os_MkdirAll dt d);
  dt_write f t : preserves keeps (os_WriteFile dt f t);
  dt_remove f : preserves keeps (os_Remove dt f);
  dt_create ns sa : preserves keeps (CreateToken dt ns sa);
}.

Section Served.
Context {W : Type} `{!StoreView W} `{MapOrder} `{Scheduler} (s : Server W) (router : Router) `{!RouterLaws router}.
Context (k8s : AuthApi W) (jwt : JWT W) (time_Now : ST W Time) (global : Registry W).
Hypothesis am_laws : ∀ a, sv_agentManager s = Some a → AgentLaws a time_Now.
Hypothesis clock : preserves unchanged time_Now.
Hypothesis parse_keeps : ∀ t f, preserves unchanged (ParseWithClaims jwt t f).
Hypothesis review_keeps : ∀ t, preserves unchanged (TokenReviews_Create k8s t).
Hypothesis account_keeps : ∀ ns n, preserves unchanged (ServiceAccounts_Get k8s ns n).

Local Abbreviation serve := (serve s router k8s jwt time_Now global).
Local Abbreviation run_route := (run_route s k8s jwt time_Now global).
Local Abbreviation handle := (handle (sv_agentManager s) time_Now (sv_operatorNamespace s)).

Lemma AuthMiddleware_keeps a path header : preserves unchanged (AuthMiddleware jwt a path header).
Proof.
  unfold AuthMiddleware, ValidateToken. repeat case_match; try apply (preserves_ret unchanged).
  apply (preserves_bind unchanged); [|intros; apply (preserves_ret unchanged)].
  apply (preserves_try unchanged); [apply parse_keeps|]. intros [c v]. apply (preserves_ret unchanged).
Qed.

(** A request is handled by its route's handler, or is answered without one. *)
Lemma request_cases req cache w reply cache' w' :
  rq_Method req ≠ methodOptions → serve req (cache, w) = (reply, (cache', w')) →
  (∃ r w1, router (sv_authenticator s) (rq_Method req) (rq_URLPath req) = Some r ∧ unchanged w w1 ∧
     run_route req r (cache, w1) = (reply, (cache', w'))) ∨
  (cache' = cache ∧ unchanged w w' ∧ ∀ h, reply ≠ Answer h).
Proof.
  intros Hm. unfold Server.serve, corsMiddleware. rewrite bool_decide_eq_false_2 by done. unfold authenticated, dispatch.
  assert (∀ w1, unchanged w w1 →
    match router (sv_authenticator s) (rq_Method req) (rq_URLPath req) with Some r => run_route req r | None => st_ret NotFound end
      (cache, w1) = (reply, (cache', w')) →
    (∃ r w1, router (sv_authenticator s) (rq_Method req) (rq_URLPath req) = Some r ∧ unchanged w w1 ∧
     run_route req r (cache, w1) = (reply, (cache', w'))) ∨ (cache' = cache ∧ unchanged w w' ∧ ∀ h, reply ≠ Answer h)) as Hd.
  { intros w1 Hu. destruct (router _ _ _) as [r|]; [intros E; left; by exists r, w1|]. intros [= <- <- <-]. by right. }
  destruct (sv_authenticator s) as [a|]; [|by apply Hd].
  unfold st_bind, on_world. cbn [fst snd]. pose proof (AuthMiddleware_keeps a (rq_URLPath req) (rq_Authorization req) w) as Hu.
  destruct (AuthMiddleware _ _ _ _ w) as [[claims|rep] w1]; cbn [fst snd] in *; [by apply Hd|]. intros [= <- <- <-]. by right.
Qed.

(** The routes of a secret's path. *)
Lemma secret_routes name a m r :
  no_slash name = true → router a m (secret_path name) = Some r →
  r = Rt_read name ∧ m = "GET" ∨ (r = Rt_write name ∧ m ∈ ["POST"; "PUT"]) ∨ r = Rt_delete name ∧ m = "DELETE".
Proof.
  intros Hn Hr. destruct (router_law _ _ _ _ Hr) as (_ & Hok & Hm & Hp). 
  assert (∀ x y, hsm_prefix +:+ "/secrets" +:+ "/" +:+ x = hsm_prefix +:+ "/secrets" +:+ "/" +:+ y → x = y) as Hinj.
  { intros x y E. by injection E. }
  destruct r; cbn [route_entry fst snd] in *; try discriminate Hp.
  - apply Hinj in Hp as ->. left. split; [done|]. by apply list_elem_of_singleton in Hm.
  - apply Hinj in Hp as ->. by right; left.
  - apply Hinj in Hp as ->. right; right. split; [done|]. by apply list_elem_of_singleton in Hm.
  - change (secret_path name = secret_path (path +:+ "/" +:+ key)) in Hp. by rewrite (Hinj _ _ Hp), no_slash_app, andb_false_r in Hn.
  - change (secret_path name = secret_path (path +:+ "/metadata")) in Hp. by rewrite (Hinj _ _ Hp), no_slash_app, andb_false_r in Hn.
  - change (secret_path name = secret_path (path +:+ "/checksum")) in Hp. by rewrite (Hinj _ _ Hp), no_slash_app, andb_false_r in Hn.
Qed.

Lemma plain_segment name : plain name = true → no_slash name = true.
Proof.
  unfold plain. intros [_ Hp]%andb_true_iff. induction name as [|c name IH]; [done|]. simpl in *.
  apply andb_true_iff in Hp as [Hc Hp]. rewrite IH, andb_true_r by done. apply negb_true_iff, bool_decide_eq_false.
  intros ->. discriminate Hc.
Qed.

(** ** The client on a machine that reaches the server *)
Context (dt : Desktop (PState (W := W))) `{!Json CachedToken, !Json TokenRequest, !Json KubectlClient.TokenResponse}.
Context `{!Json CreateSecretRequest, !Json KubectlClient.APIResponse, !Json any, !Json KubectlClient.SecretData}.
Context (bind : Binders) (render : Reply → Z * string) `{!Wire bind render} (baseURL : string).

(** Neither the cache of the proxy nor a device is touched. *)
Definition untouched (x x' : PState (W := W)) : Prop := x'.1 = x.1 ∧ unchanged x.2 x'.2.
#[local] Instance untouched_PreOrder : PreOrder untouched.
Proof. split; [by split|]. intros x y z [H1 H2] [H3 H4]. split; [congruence|by etrans]. Qed.

(** Every request reaches the server, and its reply the client; what else happens on the
    machine leaves the devices alone. *)
Hypothesis reaches : ∀ req x, http_Do dt req x =
  let '(reply, x') := serve (to_request bind baseURL req) x in (Ok ((render reply).1, Ok (render reply).2), x').
Context `{!DesktopLaws dt untouched}.

(** Asking the server for a token. *)
Lemma token_route a r : router a "POST" "/api/v1/auth/token" = Some r → r = Rt_token.
Proof.
  intros Hr. destruct (router_law _ _ _ _ Hr) as (_ & Hok & Hm & Hp).
  destruct r; cbn [route_entry fst snd] in *; try discriminate Hp; try done.
Qed.
Lemma token_keeps a req : preserves unchanged (HandleTokenGeneration k8s jwt time_Now a req).
Proof.
  unfold HandleTokenGeneration, GenerateToken, validateServiceAccountToken, validateHSMPermissions.
  repeat first [ progress cbv zeta | case_match | apply (preserves_ret unchanged) | exact clock | apply review_keeps | apply account_keeps
    | apply (preserves_try unchanged); [|intros ?] | apply (preserves_bind unchanged); [|intros ?] ].
Qed.
Lemma token_request_free url ct header t :
  url = baseURL +:+ "/api/v1/auth/token" → preserves untouched (http_Do dt (mkHttpRequest "POST" url ct header t)).
Proof.
  intros -> [cache w]. rewrite reaches. destruct (serve _ (cache, w)) as [reply [cache' w']] eqn:E. simpl.
  apply request_cases in E as [(r & w1 & Hr & Hu & Er)|(-> & Hu & _)]; [|done|done].
  cbn [to_request rq_Method rq_URLPath hr_URL hr_Method] in Hr. rewrite trim_prefix_app in Hr. apply token_route in Hr as ->.
  revert Er. unfold Server.run_route. cbn [api_call]. destruct (sv_authenticator s) as [a|]; [|by intros [= <- <- <-]].
  unfold st_bind, on_world, st_ret. cbn [fst snd].
  pose proof (token_keeps a (bind_token (to_request bind baseURL (mkHttpRequest "POST" (baseURL +:+ "/api/v1/auth/token") ct header t))) w1) as Hk.
  destruct (HandleTokenGeneration _ _ _ _ _ w1) as [rt w2]. intros [= <- <- <-]. split; [done|]. simpl in *. by etrans.
Qed.

(** The operations of the token manager: they keep to the server's base URL. *)
Definition for_base (c : KubectlClient.Client) : Prop :=
  cl_baseURL c = baseURL ∧ ∀ tm, cl_tokenManager c = Some tm → tm_baseURL tm = baseURL.
Definition token_op {A} (f : TokenManager → ST (PState (W := W)) (A * TokenManager)) : Prop :=
  ∀ tm x, tm_baseURL tm = baseURL → untouched x (f tm x).2 ∧ tm_baseURL (f tm x).1.2 = baseURL.

Lemma save_free tm : preserves untouched (saveCachedToken dt tm).
Proof.
  unfold saveCachedToken. repeat first [ case_match | apply (preserves_ret untouched) | apply dt_home | apply dt_mkdir | apply dt_write
    | apply (preserves_bind untouched); [|intros ?] ].
Qed.
Lemma exchange_free tm k8sToken : tm_baseURL tm = baseURL → preserves untouched (exchangeForHSMToken dt tm k8sToken).
Proof.
  intros Hb. unfold exchangeForHSMToken. cbv zeta. repeat first [ case_match | apply (preserves_ret untouched)
    | apply (preserves_try untouched); [|intros ?] | apply token_request_free; by rewrite Hb ].
Qed.
Lemma account_token_free : token_op (getK8sServiceAccountToken dt).
Proof.
  intros tm x Hb. unfold getK8sServiceAccountToken, st_bind, st_ret.
  pose proof (dt_create (tm_namespace tm) (tm_serviceAccount tm) x) as U1. destruct (CreateToken _ _ _ x) as [[t|e] x1]; [done|]. simpl in *.
  case_bool_decide; [|done]. pose proof (dt_create (tm_namespace tm) "default" x1) as U2.
  destruct (CreateToken _ _ "default" x1) as [[t|e'] x2]; (split; [by etrans|done]).
Qed.
Lemma generate_free : token_op (generateNewToken dt).
Proof.
  intros tm x Hb. unfold generateNewToken. unfold st_bind at 1 4. destruct (account_token_free tm x Hb) as [U1 B1].
  destruct (getK8sServiceAccountToken dt tm x) as [[[t|e] tm1] x1]; [|done]. simpl in U1, B1. unfold st_bind.
  pose proof (exchange_free tm1 t B1 x1) as U2. destruct (exchangeForHSMToken dt tm1 t x1) as [[hsm|e] x2]; simpl in U2.
  - set (tm2 := set_token _ tm1). pose proof (save_free tm2 x2) as U3. destruct (saveCachedToken dt tm2 x2) as [[] x3].
    split; [|done]. by repeat (etrans; [eassumption|]).
  - split; [by etrans|done].
Qed.
Lemma token_free : token_op (GetValidToken dt).
Proof.
  intros tm x Hb. unfold GetValidToken, isTokenValid. unfold st_bind at 1 5.
  set (valid := match tm_cachedToken tm with None => _ | Some _ => _ end).
  assert (untouched x (valid x).2) as Hv.
  { unfold valid. destruct (tm_cachedToken tm); [|done]. unfold st_bind. pose proof (dt_now x) as U1. by destruct (KubectlClient.time_Now dt x). }
  destruct (valid x) as [v x1]. simpl in Hv. destruct (generate_free tm x1 Hb) as [U1 B1].
  destruct (tm_cachedToken tm); [destruct v; [done|]|]; unfold st_bind;
    destruct (generateNewToken dt tm x1) as [[rt tm1] x2]; (split; [by etrans|done]).
Qed.
Lemma drop_free : token_op (KubectlClient.ClearCache dt).
Proof.
  intros tm x Hb. unfold KubectlClient.ClearCache, st_bind. pose proof (dt_home x) as U1. destruct (os_UserHomeDir dt x) as [[h|e] x1]; [|done].
  simpl in U1. pose proof (dt_remove (cacheFile dt h) x1) as U2. destruct (os_Remove dt _ x1) as [ro x2]. split; [by etrans|done].
Qed.

Lemma with_tokens_free {A} (f : TokenManager → ST (PState (W := W)) (A * TokenManager)) none c x a c' x' :
  token_op f → for_base c → with_tokens f none (c, x) = (a, (c', x')) → untouched x x' ∧ for_base c'.
Proof.
  intros Hf [Hc Htm]. unfold with_tokens. destruct (cl_tokenManager c) as [tm|] eqn:E.
  - destruct (Hf tm x (Htm tm eq_refl)) as [Hu Hb]. destruct (f tm x) as [[b tm'] x1]. intros [= <- <- <-]. split; [done|].
    split; [done|]. by intros ? [= <-].
  - intros [= <- <- <-]. split; [done|]. split; [done|]. by rewrite E.
Qed.

Lemma authorize_free path c x r c' x' :
  for_base c → authorize dt path (c, x) = (r, (c', x')) → untouched x x' ∧ for_base c'.
Proof.
  intros Hb. unfold authorize, get_client, st_try. unfold st_bind at 1. cbn [fst snd]. destruct (cl_tokenManager c); [|by intros [= <- <- <-]].
  destruct (_ && _); [|by intros [= <- <- <-]]. unfold st_bind.
  destruct (with_tokens (GetValidToken dt) (Err nil_dereference) (c, x)) as [a [c1 x1]] eqn:E.
  apply with_tokens_free in E; [|exact token_free|exact Hb]. by destruct a; intros [= <- <- <-].
Qed.

(** A request either fails before it is sent, or gets what the server replies. *)
Lemma doRequest_served {Req Res} `{!Json Req, !Json Res} method path (body : option Req) (res : option Res) c x r c' x' :
  doRequest dt method path body res (c, x) = (r, (c', x')) → for_base c →
  for_base c' ∧
  ((∃ e, r = Err e ∧ untouched x x') ∨
   ∃ ct header t x1 reply x2,
     match body with Some b => ∃ t', json_Marshal b = Ok t' ∧ t = Some t' | None => t = None end ∧ untouched x x1 ∧
     serve (to_request bind baseURL (mkHttpRequest method (baseURL +:+ path) ct header t)) x1 = (reply, x2) ∧
     untouched x2 x' ∧ r = read_response (render reply).1 (render reply).2 res).
Proof.
  intros E Hb. revert E. unfold doRequest, get_client. unfold st_bind at 1. cbn [fst snd]. rewrite (proj1 Hb).
  destruct (match body with Some b => _ | None => _ end) as [t|e] eqn:Et; [|intros [= <- <- <-]; split; [done|left; by eexists]].
  destruct (http_NewRequest dt method (baseURL +:+ path)) as [[]|e]; [|intros [= <- <- <-]; split; [done|left; by eexists]].
  unfold st_try at 1. unfold st_bind at 1. destruct (authorize dt path (c, x)) as [h [c1 x1]] eqn:Ea.
  apply authorize_free in Ea as [U1 B1]; [|exact Hb].
  destruct h as [header|e]; [|intros [= <- <- <-]; split; [done|left; by eexists]].
  set (ct := match t with Some _ => _ | None => None end). unfold st_try, st_bind. unfold KubectlClient.on_world at 1. cbn [fst snd]. rewrite reaches.
  destruct (serve (to_request bind baseURL (mkHttpRequest method (baseURL +:+ path) ct header t)) x1) as [reply x2] eqn:Es.
  cbn [fst snd]. set (clear := if (render reply).1 =? 401 then _ else _).
  destruct (clear (c1, x2)) as [u [c3 x3]] eqn:Ec. intros [= <- <- <-].
  assert (untouched x2 x3 ∧ for_base c3) as [U3 B3].
  { revert Ec. unfold clear. destruct (_ =? 401); [|by intros [= <- <- <-]]. by apply with_tokens_free; [exact drop_free|]. }
  split; [done|]. right. exists ct, header, t, x1, reply, x2. split; [|done].
  destruct body as [b|]; [|by injection Et]. destruct (json_Marshal b) as [t'|]; [|done]. exists t'. by injection Et.
Qed.

Lemma to_request_path method path ct header t :
  rq_URLPath (to_request bind baseURL (mkHttpRequest method (baseURL +:+ path) ct header t)) = path.
Proof. apply trim_prefix_app. Qed.

(** A reply that the client takes for a success is an answer that says so. *)
Lemma read_response_success {Res} `{!Json Res} reply (res : option Res) v :
  read_response (render reply).1 (render reply).2 res = Ok v → ∃ code h, reply = Answer (code, h) ∧ Proxy.ar_Success h = true.
Proof.
  unfold read_response. destruct (json_Unmarshal (render reply).2) as [resp|] eqn:Eu; [|done].
  destruct (KubectlClient.ar_Success resp) eqn:Hs; simpl; [|by destruct (KubectlClient.ar_Error resp)].
  intros _. by eapply wire_success.
Qed.

(** ** Reading a secret *)

(** What the server answers to a read of [name] in the state [x]. *)
Definition read_answer (name : string) (x : PState (W := W)) (d : gmap string string) : Prop :=
  ∃ msg ck n x', handle (GET_secret name) x = (sendResponse StatusOK msg (ReadSecretResponse name d ck n), x').

Lemma GET_success path x code h x' :
  handle (GET_secret path) x = ((code, h), x') → Proxy.ar_Success h = true →
  ∃ msg d ck n, (code, h) = sendResponse StatusOK msg (ReadSecretResponse path d ck n).
Proof.
  cbn [Proxy.handle]. unfold ReadSecret, validatePathParam, getAllAvailableGRPCClients. case_bool_decide; [by intros [= <- <- _]|].
  unfold st_bind at 1. destruct (on_world _ x) as [[devices|e] x1]; [|by intros [= <- <- _]].
  unfold st_bind at 1. destruct (st_fold _ devices ∅ x1) as [clients x2]. case_bool_decide; [by intros [= <- <- _]|].
  unfold st_bind at 1. destruct (Proxy.on_world _ x2) as [results x3].
  destruct (findMostRecentSecretResult _ _) as [d|e]; [|by intros [= <- <- _]].
  unfold st_bind at 1. destruct (0 <? _); [destruct (Proxy.on_world _ x3) as [ck x4]|];
    intros [= <- <- _] _; eexists _, d, _, _; reflexivity.
Qed.

Lemma serve_get name req cache w reply x' :
  plain name = true → rq_Method req = "GET" → rq_URLPath req = secret_path name → clients_ok cache →
  serve req (cache, w) = (reply, x') →
  clients_ok x'.1 ∧ unchanged w x'.2 ∧
  ∀ code h, reply = Answer (code, h) → ∃ w1, unchanged w w1 ∧ handle (GET_secret name) (cache, w1) = ((code, h), x').
Proof.
  intros Hn Hm Hp Hc. destruct x' as [cache' w']. intros [(r & w1 & Hr & Hu & E)|(-> & Hu & Hna)]%request_cases; [|by split_and!; [| |intros ? ? ?%Hna]|by rewrite Hm].
  rewrite Hp, Hm in Hr. apply secret_routes in Hr as [[-> _]|[[-> Hin]|[_ ?]]]; [|by rewrite !elem_of_cons, elem_of_nil in Hin; naive_solver|done|by apply plain_segment].
  revert E. unfold Server.run_route. cbn [api_call]. unfold st_bind, st_ret. 
  match goal with |- context [Proxy.handle ?a ?b ?c ?d ?x] => destruct (Proxy.handle a b c d x) as [h [cache1 w2]] eqn:Eh end.
  intros [= <- <- <-]. destruct (handle_isolated _ _ _ am_laws clock (GET_secret name) ltac:(done) _ _ _ _ _ Hc Eh) as [Hc' Hs].
  split; [done|]. split.
  - etrans; [exact Hu|]. intros k p. by apply Hs.
  - intros code h' [= ->]. by exists w1.
Qed.

Lemma GetSecret_served name c cache w r c' x' :
  plain name = true → for_base c → clients_ok cache →
  GetSecret dt name (c, (cache, w)) = (r, (c', x')) →
  for_base c' ∧ clients_ok x'.1 ∧ unchanged w x'.2 ∧
  ∀ sd, r = Ok sd → ∃ d, (∃ w1, unchanged w w1 ∧ read_answer name (cache, w1) d) ∧ (text_keys d → sd_Data sd = strings d).
Proof.
  intros Hn Hb Hc. unfold GetSecret, fetch, st_try. unfold st_bind at 1. unfold st_bind at 1.
  destruct (doRequest dt "GET" (api_path name) no_body _ (c, (cache, w))) as [rd [c1 x1]] eqn:E.
  apply doRequest_served in E as (B1 & [(e & -> & [U1 U2])|(ct & header & t & x0 & reply & x2 & _ & [C0 U0] & Es & [C2 U2] & Er)]); [| |done].
  { intros [= <- <- <-]. simpl in U1. rewrite U1. by split_and!. }
  destruct x0 as [cache0 w0]. simpl in C0, U0. subst cache0.
  apply (serve_get name) in Es as (Hc2 & Hu2 & Ha); [|done|done|apply to_request_path|done].
  assert (clients_ok x1.1 ∧ unchanged w x1.2) as [Hc1 Hu1] by (rewrite C2; split; [done|by repeat (etrans; [eassumption|])]).
  destruct rd as [rd|e]; intros [= <- <- <-]; [|by split_and!]. split_and!; [done..|]. intros sd [= <-]. symmetry in Er.
  destruct (read_response_success _ _ _ Er) as (code & h & -> & Hs). destruct (Ha code h eq_refl) as (w1 & Hu & Hg).
  destruct (GET_success _ _ _ _ _ Hg Hs) as (msg & d & ck & n & Ed). exists d. split.
  { exists w1. split; [etrans; [exact U0|exact Hu]|]. exists msg, ck, n, x2. by rewrite Hg, Ed. }
  intros Hk. destruct (wire_secret msg name d ck n Hk) as (v & b & Hv1 & Hv2 & Hv3 & Hv4). revert Er. unfold read_response.
  rewrite Ed, Hv1. cbn [KubectlClient.ar_Success KubectlClient.ar_Data negb]. destruct v; [done|..]; rewrite Hv3, Hv4; intros [= <-]; apply decode_strings.
Qed.

(** ** Writing a secret *)
Lemma PUT_success path req x code h x' :
  handle (PUT_secret path (Ok req)) x = ((code, h), x') → Proxy.ar_Success h = true → code = StatusCreated.
Proof.
  cbn [Proxy.handle]. unfold WriteSecret, validatePathParam, getAllAvailableGRPCClients. case_bool_decide; [by intros [= <- <- _]|].
  unfold st_bind at 1. destruct (Proxy.on_world _ x) as [[devices|e] x1]; [|by intros [= <- <- _]].
  unfold st_bind at 1. destruct (st_fold _ devices ∅ x1) as [clients x2]. case_bool_decide; [by intros [= <- <- _]|].
  unfold st_bind. destruct (Proxy.on_world _ x2) as [v x3]. destruct (Proxy.on_world _ x3) as [now x4].
  destruct (Proxy.on_world _ x4) as [results x5]. unfold st_ret. destruct (0 <? _); by intros [= <- <- _].
Qed.

(** The devices can tell [d] at [name], stamped by the server, apart again. *)
Definition writable (name : string) (d : gmap string string) : Prop := sendable name (mkWriteRequest d None None).

(** The device [k] holds [d] at [name], stamped by the server. *)
Definition stored_at (name : string) (d : gmap string string) (w : W) : Prop :=
  ∃ k v now, sec_at w k name = Some d ∧ md_at w k name = Some (stamp None v now).

Lemma serve_post name req cache w reply x' :
  plain name = true → rq_Method req = "POST" → rq_URLPath req = secret_path name → clients_ok cache →
  serve req (cache, w) = (reply, x') →
  clients_ok x'.1 ∧ stays (Some name) w x'.2 ∧
  ∀ d code h, bind_write req = Ok (mkWriteRequest d None None) → reply = Answer (code, h) → Proxy.ar_Success h = true →
    writable name d → stored_at name d x'.2.
Proof.
  intros Hn Hm Hp Hc. destruct x' as [cache' w'].
  intros [(r & w1 & Hr & Hu & E)|(-> & Hu & Hna)]%request_cases;
    [|by split_and!; [|apply unchanged_stays|intros ? ? ? _ ?%Hna]|by rewrite Hm].
  rewrite Hp, Hm in Hr. apply secret_routes in Hr as [[_ ?]|[[-> Hin]|[_ ?]]]; [done| |done|by apply plain_segment].
  revert E. unfold Server.run_route. cbn [api_call]. unfold st_bind, st_ret.
  match goal with |- context [Proxy.handle ?a ?b ?c ?d ?x] => destruct (Proxy.handle a b c d x) as [h [cache1 w2]] eqn:Eh end.
  intros [= <- <- <-]. destruct (handle_isolated _ _ _ am_laws clock (PUT_secret name (bind_write req)) ltac:(done) _ _ _ _ _ Hc Eh) as [Hc' Hs].
  split; [done|]. split; [etrans; [by apply unchanged_stays|exact Hs]|].
  intros d code h' Hb [= ->] Hsucc Hsto. rewrite Hb in Eh. pose proof (PUT_success _ _ _ _ _ _ Eh Hsucc) as Hcode.
  destruct (put_status _ _ _ am_laws cache cache1 w1 w2 name code h' (mkWriteRequest d None None) Hc Eh Hsto Hcode) as (k & v & now & H1 & H2).
  by exists k, v, now.
Qed.

Lemma post_served name data c cache w r c' x' :
  plain name = true → for_base c → clients_ok cache →
  KubectlClient.send dt "POST" (api_path name) (Some (mkCreateSecretRequest data "" ∅)) (c, (cache, w)) = (r, (c', x')) →
  stays (Some name) w x'.2 ∧ ∀ d, data = strings d → text_data d → writable name d → r = Ok () → stored_at name d x'.2.
Proof.
  intros Hn Hb Hc. unfold KubectlClient.send, st_try. unfold st_bind at 1.
  destruct (doRequest dt "POST" (api_path name) _ _ (c, (cache, w))) as [rd [c1 x1]] eqn:E.
  apply doRequest_served in E as (B1 & [(e & -> & [U1 U2])|(ct & header & t & x0 & reply & x2 & Hbody & [C0 U0] & Es & [C2 U2] & Er)]); [| |done].
  { intros [= <- <- <-]. split; [by apply unchanged_stays|done]. }
  destruct x0 as [cache0 w0]. simpl in C0, U0. subst cache0. destruct Hbody as (t' & Hmar & ->).
  apply (serve_post name) in Es as (Hc2 & Hs2 & Ha); [|done|done|apply to_request_path|done].
  assert (stays (Some name) w x1.2) as Hs1.
  { etrans; [by apply unchanged_stays|]. etrans; [exact Hs2|]. by apply unchanged_stays. }
  destruct rd as [rd|e]; intros [= <- <- <-]; [|by split]. split; [done|]. intros d -> Ht Hsto _. symmetry in Er.
  destruct (read_response_success _ _ _ Er) as (code & h & -> & Hs).
  destruct (Ha d code h) as (k & v & now & Hk & Hmd); [exact (wire_write (bind := bind) d t' Ht Hmar)|done|done|done|].
  exists k, v, now. destruct (U2 k name) as [-> ->]. done.
Qed.

(** ** The commands *)
Lemma strings_rename old new (d : gmap string string) v :
  strings (<[new := v]> (delete old d)) = <[new := AnyString v]> (delete old (strings d)).
Proof. by rewrite fmap_insert, fmap_delete. Qed.
Lemma strings_union (m d : gmap string string) : strings m ∪ strings d = strings (m ∪ d).
Proof. symmetry. apply map_fmap_union. Qed.
Lemma text_data_keys d : text_data d → text_keys d.
Proof. intros Ht k v Hk. by apply (Ht k v). Qed.



(** Showing a secret changes nothing on any device, and shows what the server answered: with
    --key exactly the value of the key, without it the whole of the data (as text: its
    keys). *)
Theorem get_end_to_end (f : Fmt) `{!Json (gmap string any), !Encoded KubectlClient.SecretData, !Encoded (gmap string any)}
    opts name namespace c cache w r c' x' :
  plain name = true → for_base c → clients_ok cache →
  get_secret dt f opts name namespace (c, (cache, w)) = (r, (c', x')) →
  unchanged w x'.2 ∧
  ∀ out, r = Ok out → co_Output (go_Common opts) = "text" → ∃ d, (∃ w1, unchanged w w1 ∧ read_answer name (cache, w1) d) ∧
    (text_keys d →
      if bool_decide (go_Key opts ≠ "") then ∃ v, d !! go_Key opts = Some v ∧ out = [Line (sprint_s f (AnyString v))]
      else ∃ sd, sd_Data sd = strings d ∧ out = lines (displaySecretText f name sd namespace)).
Proof.
  intros Hn Hb Hc. unfold get_secret, st_try. unfold st_bind at 1.
  destruct (GetSecret dt name (c, (cache, w))) as [[sd|e] [c1 [cache1 w1]]] eqn:Eg;
    destruct (GetSecret_served _ _ _ _ _ _ _ Hn Hb Hc Eg) as (B1 & Hc1 & Hu1 & Hsd); cbn [fst snd] in *; [|by intros [= <- <- <-]].
  intros [= <- <- <-]. split; [done|]. intros out Hout Ht. destruct (Hsd sd eq_refl) as (d & Hd & Hstr). exists d. split; [exact Hd|].
  intros Hk. specialize (Hstr Hk). revert Hout. unfold encode_output. rewrite Ht. case_bool_decide as Hkey.
  - rewrite Hstr, lookup_fmap. destruct (d !! go_Key opts) as [v|]; [|done]. intros [= <-]. by exists v.
  - intros [= <-]. by exists sd.
Qed.
End Served.

(** ** Witnesses *)
Module KubectlWitness.
#[local] Existing Instance listed_order.
#[local] Existing Instance ProxyWitness.round_robin.

(** A wire format: the successful answers to reads are sent as a text of their parts. *)
Definition answered : Type := bool * string * option (string * gmap string string * string * Z).
Definition parse {A} `{Countable A} (s : string) : result A := match of_text s with Some a => Ok a | None => Err (errorf "malformed") end.
Definition body_of (h : Proxy.APIResponse) : answered :=
  (Proxy.ar_Success h, Proxy.ar_Message h,
   match Proxy.ar_Data h with Some (ReadSecretResponse path d ck n) => Some (path, d, ck, n) | _ => None end).
Definition render (r : Reply) : Z * string := match r with Answer (code, h) => (code, text_of (body_of h)) | _ => (500, "") end.
Definition string_of (v : any) : option string := match v with AnyString s => Some s | _ => None end.

Definition no_json {T} : Json T := {| json_Marshal _ := Err (errorf "not used"); json_Unmarshal _ := Err (errorf "not used") |}.
#[local] Instance json_cached : Json CachedToken := no_json.
#[local] Instance json_token_request : Json TokenRequest := no_json.
#[local] Instance json_token_response : Json KubectlClient.TokenResponse := no_json.
#[local] Instance json_request : Json CreateSecretRequest :=
  {| json_Marshal q := Ok (text_of (omap string_of (cs_Data q))); json_Unmarshal _ := Err (errorf "not used") |}.
#[local] Instance json_response : Json KubectlClient.APIResponse := {|
  json_Marshal _ := Err (errorf "not used");
  json_Unmarshal t := match (parse t : result answered) with
                      | Ok (success, msg, data) =>
                          Ok (KubectlClient.mkAPIResponse success msg (match data with Some q => AnyString (text_of q) | None => AnyNil end) None)
                      | Err e => Err e
                      end |}.
#[local] Instance json_any : Json any :=
  {| json_Marshal v := match v with AnyString s => Ok s | _ => Err (errorf "not used") end; json_Unmarshal _ := Err (errorf "not used") |}.
#[local] Instance json_secret : Json KubectlClient.SecretData := {|
  json_Marshal _ := Err (errorf "not used");
  json_Unmarshal t := match (parse t : result (string * gmap string string * string * Z)) with
                      | Ok (path, d, ck, n) => Ok (KubectlClient.mkSecretData path (AnyString ∘ EncodeToString <$> d) ck n)
                      | Err e => Err e
                      end |}.
Definition bind : Binders := mkBinders
  (λ t, match parse t with Ok d => Ok (mkWriteRequest d None None) | Err e => Err e end)
  (λ _, Err EOF) (λ _, Err EOF) (λ _, Err EOF).

Lemma parse_text {A} `{Countable A} (a : A) : parse (text_of a) = Ok a.
Proof. unfold parse. by rewrite of_text_of. Qed.

#[local] Instance wire : Wire bind render.
Proof.
  split.
  - intros d t _ [= <-]. cbn [bind b_write]. rewrite parse_text. do 2 f_equal. apply map_eq. intros k.
    rewrite lookup_omap, lookup_fmap. by destruct (d !! k).
  - intros msg path d ck n _. eexists (AnyString (text_of (path, d, ck, n))), _. split_and!.
    + unfold render, sendResponse. cbn [json_Unmarshal json_response fst snd]. by rewrite parse_text.
    + done.
    + reflexivity.
    + cbn [json_Unmarshal json_secret]. by rewrite parse_text.
  - intros reply resp. destruct reply as [[code h]|tok| | | | |]; try discriminate.
    unfold render. cbn [json_Unmarshal json_response fst snd]. rewrite parse_text. intros [= <-] Hs. by exists code, h.
Qed.

(** The server and router of [ServerWitness]; the machine has a token that is not about to
    expire. *)
#[local] Abbreviation serve := (Server.serve ServerWitness.s ServerWitness.router ServerWitness.k8s ServerWitness.jwt fleet_clock None).
Definition base : string := "http://127.0.0.1:8090".
Definition dt : Desktop (PState (W := Fleet)) := mkDesktop
  (λ _ _, Ok ())
  (λ req x, let '(reply, x') := serve (to_request bind base req) x in (Ok ((render reply).1, Ok (render reply).2), x'))
  (st_ret 1000) (st_ret (Ok "/home/u")) (λ _, st_ret (Ok "A=1")) (λ _, st_ret (Ok ())) (λ _ _, st_ret (Ok ())) (λ _, st_ret (Ok ()))
  (str_join "/") (λ _ _, st_ret (Err (errorf "not used"))) (st_ret (Ok ())) (st_ret (Err (errorf "not used"))).
#[local] Instance desktop_laws : DesktopLaws dt untouched.
Proof. by split. Qed.
Definition client : KubectlClient.Client :=
  KubectlClient.mkClient base (Some (mkTokenManager base "kubectl-hsm" "prod" (Some (mkCachedToken AuthWitness.token (2 * Hour) "Bearer")))).
Lemma client_base : for_base base client.
Proof. split; [done|]. by intros tm [= <-]. Qed.
Lemma laws : ∀ a, sv_agentManager ServerWitness.s = Some a → AgentLaws a fleet_clock.
Proof. intros a [= <-]. apply _. Qed.

(** Renaming the key of device A's secret. *)
Definition run_rename := rename_in_place dt "app" "k" "key" (client, (∅, ServerWitness.w0)).

(** The secret's password happens to be valid base64: adding a key spoils it. *)
Definition w64 : Fleet :=
  {["A" := mkMock true false {["app" := {["password" := "YWJjZA=="]}]} ∅ (mkConfig "" 0 false "" 0 0 0 None)]}.
Definition run_merge := CreateSecretWithOptions dt "app" (strings {["user" := "root"]}) false (client, (∅, w64)).

#[local] Instance json_map : Json (gmap string any) := no_json.
Definition from_file : CreateOptions := mkCreateOptions (mkCommonOptions "" "" false) [] ["conf=app.env"] false false false false.
Definition sprint_v (v : any) : string := "value".
Example collected_are_strings_witness :
  ∃ m, collect_data dt sprint_v from_file [] (∅, w64) = (Ok m, (∅, w64)) ∧ m !! "A" = Some (AnyString "1") ∧ map_Forall (λ _ v, is_string v) m.
Proof.
  eexists. split; [vm_compute; reflexivity|]. split; [vm_compute; reflexivity|].
  apply (collected_are_strings sprint_v dt from_file [] (∅, w64) _ (∅, w64)). vm_compute. reflexivity.
Defined.
End KubectlWitness.
