(* ===== verification/Flags.v ===== *)
(** * The command line: Go's flag package, cmd/hsm-operator/main.go, the flags of the modes

    [flag.FlagSet.Parse] on flags of the four types the program uses, with the parsing of
    their values ([strconv.ParseInt] with base 0, [strconv.ParseBool]; [time.ParseDuration]
    is an argument), the split of the arguments into global ones and those of the mode, and
    the flag set of each mode.  Usage messages are left out. *)

From Stdlib Require Import Ascii.
From Stdlib Require Import DecimalString DecimalZ DecimalFacts.
From S2P Require Import Prelude GoStd.
From S2P Require Import EnvConfig Pki Provision.

Local Open Scope go_scope.

(** ** strconv *)
Definition ErrSyntax : error := errorf "parse error".
Definition ErrRange : error := errorf "value out of range".
Definition max_uint64 : Z := 2 ^ 64 - 1.
Definition lower (c : ascii) : ascii := if is_upper c then byte_of (byte_val c + 32) else c.

Definition digit_value (c : ascii) : option Z :=
  if is_digit c then Some (byte_val c - 48)
  else if is_lower (lower c) then Some (byte_val (lower c) - 97 + 10)
  else None.

(** The digits of a number, its underscores skipped. *)
Fixpoint parse_digits (base : Z) (s : string) (n : Z) : result Z :=
  match s with
  | EmptyString => Ok n
  | String c s' =>
      if bool_decide (c = "_"%char) then parse_digits base s' n
      else match digit_value c with
           | None => Err ErrSyntax
           | Some d =>
               if base <=? d then Err ErrSyntax
               else if max_uint64 <? n * base + d then Err ErrRange
               else parse_digits base s' (n * base + d)
           end
  end.

(** [underscoreOK]: underscores must separate digits, one more may follow the prefix of the
    base.  [last] is what was seen last, as in the code. *)
Fixpoint underscores_ok (hex : bool) (last : ascii) (s : string) : bool :=
  match s with
  | EmptyString => negb (bool_decide (last = "_"%char))
  | String c s' =>
      if is_digit c || (hex && (97 <=? byte_val (lower c)) && (byte_val (lower c) <=? 102)) then underscores_ok hex "0" s'
      else if bool_decide (c = "_"%char) then bool_decide (last = "0"%char) && underscores_ok hex "_" s'
      else negb (bool_decide (last = "_"%char)) && underscores_ok hex "!" s'
  end.
Definition base_of (c : ascii) : option Z :=
  if bool_decide (lower c = "b"%char) then Some 2
  else if bool_decide (lower c = "o"%char) then Some 8
  else if bool_decide (lower c = "x"%char) then Some 16
  else None.
(** The prefix of the base is taken off as soon as two characters are there, unlike in the
    parsing of the number. *)
Definition underscoreOK (s : string) : bool :=
  match s with
  | String "0" (String c s') =>
      match base_of c with Some b => underscores_ok (b =? 16) "0" s' | None => underscores_ok false "^" s end
  | _ => underscores_ok false "^" s
  end.
Fixpoint has_underscore (s : string) : bool :=
  match s with EmptyString => false | String c s' => bool_decide (c = "_"%char) || has_underscore s' end.

(** [strconv.ParseUint(s, 0, 64)] *)
Definition ParseUint (s : string) : result Z :=
  let '(base, digits) :=
    match s with
    | String "0" (String c (String c' s')) =>
        match base_of c with Some b => (b, String c' s') | None => (8, String c (String c' s')) end
    | String "0" s' => (8, s')
    | _ => (10, s)
    end in
  match s with
  | EmptyString => Err ErrSyntax
  | _ =>
      match parse_digits base digits 0 with
      | Err err => Err err
      | Ok n => if has_underscore digits && negb (underscoreOK s) then Err ErrSyntax else Ok n
      end
  end.

(** [strconv.ParseInt(s, 0, 64)] *)
Definition ParseInt (s : string) : result Z :=
  let '(neg, digits) :=
    match s with
    | String c s' => if bool_decide (c = "+"%char) then (false, s') else if bool_decide (c = "-"%char) then (true, s') else (false, s)
    | EmptyString => (false, s)
    end in
  match ParseUint digits with
  | Err err => Err err
  | Ok un =>
      if (negb neg && (2 ^ 63 <=? un)) || (neg && (2 ^ 63 <? un)) then Err ErrRange
      else Ok (if (neg : bool) then - un else un)
  end.

Example ParseInt_examples :
  map ParseInt ["0"; "-1"; "9090"; "0x1F"; "017"; "1_000"; "1__0"; "0_7"; "08"; ""; "9223372036854775807"; "9223372036854775808"] =
  [Ok 0; Ok (-1); Ok 9090; Ok 31; Ok 15; Ok 1000; Err ErrSyntax; Ok 7; Err ErrSyntax; Err ErrSyntax;
   Ok 9223372036854775807; Err ErrRange].
Proof. reflexivity. Qed.

(** [strconv.ParseBool] *)
Definition ParseBool (s : string) : result bool :=
  if bool_decide (s ∈ ["1"; "t"; "T"; "true"; "TRUE"; "True"]) then Ok true
  else if bool_decide (s ∈ ["0"; "f"; "F"; "false"; "FALSE"; "False"]) then Ok false
  else Err ErrSyntax.

(** ** Package flag *)

(** A flag has the type of its default. *)
Inductive FlagVal := VString (s : string) | VBool (b : bool) | VInt (n : Z) | VDuration (d : Z).
(** The flags that are defined, each with its default; the variables they are bound to are
    a map by the flags' names. *)
Definition FlagSet : Type := list (string * FlagVal).
Definition Variables : Type := gmap string FlagVal.
Definition formal (fs : FlagSet) (name : string) : option FlagVal := snd <$> List.find (λ f, bool_decide (f.1 = name)) fs.
Definition defaults (fs : FlagSet) : Variables := list_to_map fs.
Definition str_of (v : Variables) (name : string) : string := match v !! name with Some (VString s) => s | _ => "" end.
Definition bool_of (v : Variables) (name : string) : bool := match v !! name with Some (VBool b) => b | _ => false end.
Definition int_of (v : Variables) (name : string) : Z := match v !! name with Some (VInt n) => n | _ => 0 end.
Definition duration_of (v : Variables) (name : string) : Z := match v !! name with Some (VDuration d) => d | _ => 0 end.

(** One argument: not a flag, the terminator, ill-formed, or a flag with the value behind its
    first equals sign. *)
Inductive Arg := NotFlag | Terminator | BadSyntax | FlagArg (name : string) (value : option string).
Fixpoint split_value (name : string) : string * option string :=
  match name with
  | EmptyString => ("", None)
  | String c s => if bool_decide (c = "="%char) then ("", Some s) else let '(n, v) := split_value s in (String c n, v)
  end.
Definition flag_arg (s : string) : Arg :=
  let named (name : string) :=
    match name with
    | EmptyString => BadSyntax
    | String c s' =>
        if bool_decide (c = "-"%char) || bool_decide (c = "="%char) then BadSyntax
        else let '(n, v) := split_value s' in FlagArg (String c n) v
    end in
  match s with
  | String "-" (String c s') =>
      if bool_decide (c = "-"%char) then (if bool_decide (s' = "") then Terminator else named s')
      else named (String c s')
  | _ => NotFlag
  end.

Definition ErrHelp : error := errorf "flag: help requested".

Section Parse.
Context (ParseDuration : string → result Z) (fs : FlagSet).

Definition invalid (name value : string) (err : error) : error :=
  errorf ("invalid value " +:+ quoted value +:+ " for flag -" +:+ name +:+ ": " +:+ error_string err).
(** [flag.Value.Set] for a flag of the type of [d]. *)
Definition set_value (d : FlagVal) (name value : string) : result FlagVal :=
  match d with
  | VString _ => Ok (VString value)
  | VBool _ =>
      match ParseBool value with
      | Ok b => Ok (VBool b)
      | Err err => Err (errorf ("invalid boolean value " +:+ quoted value +:+ " for -" +:+ name +:+ ": " +:+ error_string err))
      end
  | VInt _ => match ParseInt value with Ok n => Ok (VInt n) | Err err => Err (invalid name value err) end
  | VDuration _ => match ParseDuration value with Ok n => Ok (VDuration n) | Err _ => Err (invalid name value ErrSyntax) end
  end.

(** [fs.Parse(args)] with [ContinueOnError]: the variables and the arguments that are left,
    from the first that is not a flag.  Only a boolean flag goes without a value. *)
Fixpoint flag_Parse (args : list string) (vars : Variables) : result (Variables * list string) :=
  match args with
  | [] => Ok (vars, [])
  | s :: rest =>
      match flag_arg s with
      | NotFlag => Ok (vars, args)
      | Terminator => Ok (vars, rest)
      | BadSyntax => Err (errorf ("bad flag syntax: " +:+ s))
      | FlagArg name value =>
          match formal fs name with
          | None =>
              Err (if bool_decide (name = "help") || bool_decide (name = "h") then ErrHelp
                   else errorf ("flag provided but not defined: -" +:+ name))
          | Some d =>
              match (match value, d with None, VBool _ => Some "true" | _, _ => value end) with
              | Some v => match set_value d name v with Ok x => flag_Parse rest (<[name := x]> vars) | Err err => Err err end
              | None =>
                  match rest with
                  | [] => Err (errorf ("flag needs an argument: -" +:+ name))
                  | v :: rest' => match set_value d name v with Ok x => flag_Parse rest' (<[name := x]> vars) | Err err => Err err end
                  end
              end
          end
      end
  end.
End Parse.

(** ** cmd/hsm-operator/main.go *)

(** The global arguments with the mode they name, and those of the mode. *)
(* [cmd/hsm-operator/main.go:45-48 main] *)
Record Split := mkSplit { modeArg : string; globalArgs : list string; modeSpecificArgs : list string }.
Definition add_global (mode : option string) (l : list string) (s : Split) : Split :=
  mkSplit (default (modeArg s) mode) (globalArgs s ++ l) (modeSpecificArgs s).
Definition add_specific (arg : string) (s : Split) : Split := mkSplit (modeArg s) (globalArgs s) (modeSpecificArgs s ++ [arg]).
(* [cmd/hsm-operator/main.go:50-75 main] *)
Fixpoint split_args (args : list string) (s : Split) : Split :=
  match args with
  | [] => s
  | arg :: rest =>
      let specific := split_args rest (add_specific arg s) in
      if has_prefix arg "--mode=" then split_args rest (add_global (Some (trim_prefix arg "--mode=")) [arg] s)
      else if bool_decide (arg = "--mode") then
        match rest with
        | mode :: rest' => split_args rest' (add_global (Some mode) [arg; mode] s)
        | [] => specific
        end
      else if bool_decide (arg = "--log-level") then
        match rest with
        | level :: rest' =>
            if negb (has_prefix level "--") then split_args rest' (add_global None [arg; level] s)
            else split_args rest (add_global None [arg] s)
        | [] => split_args rest (add_global None [arg] s)
        end
      else if has_prefix arg "--log-level=" || has_prefix arg "--help" then split_args rest (add_global None [arg] s)
      else specific
  end.
Definition split (args : list string) : Split := split_args args (mkSplit "" [] []).

(* [cmd/hsm-operator/main.go:39-42 main] *)
Definition global_flags : FlagSet := [("mode", VString ""); ("log-level", VString "info"); ("help", VBool false)].

(** The exit status; [args] is without the name of the program. *)
(* [cmd/hsm-operator/main.go:33-143] *)
Definition main {W} (ParseDuration : string → result Z) (manager_Run : list string → ST W (result unit))
    (agent_Run : list string → string → ST W (result unit)) (discovery_Run : list string → ST W (result unit))
    (args : list string) : ST W Z :=
  let status (m : ST W (result unit)) : ST W Z := let* r := m in st_ret (match r with Ok _ => 0 | Err _ => 1 end) in
  let s := split args in
  match flag_Parse ParseDuration global_flags (globalArgs s) (defaults global_flags) with
  | Err _ => st_ret 1
  | Ok (vars, _) =>
      let mode := modeArg s in
      if bool_of vars "help" then st_ret 0
      else if bool_decide (mode = "") then st_ret 1
      else if bool_decide (mode = "manager") then status (manager_Run (modeSpecificArgs s))
      else if bool_decide (mode = "agent") then status (agent_Run (modeSpecificArgs s) (str_of vars "log-level"))
      else if bool_decide (mode = "discovery") then status (discovery_Run (modeSpecificArgs s))
      else st_ret 1
  end.

(** ** The flags of the modes *)

(** [pin] is bound to a variable that nothing reads. *)
(* [internal/modes/agent/agent.go:55-79 Run] *)
Definition agent_flags : FlagSet :=
  [("device-name", VString ""); ("port", VInt 9090); ("health-port", VInt 8093); ("pkcs11-library", VString "");
   ("slot-id", VInt (-1)); ("token-label", VString ""); ("pin", VString ""); ("require-hardware", VBool true);
   ("tls-cert-file", VString ""); ("tls-key-file", VString ""); ("tls-client-ca-file", VString "")].
Definition agent_variables (v : Variables) : AgentFlags :=
  mkAgentFlags (str_of v "device-name") (int_of v "port") (int_of v "health-port") (str_of v "pkcs11-library")
    (int_of v "slot-id") (str_of v "token-label") (bool_of v "require-hardware") (str_of v "tls-cert-file")
    (str_of v "tls-key-file") (str_of v "tls-client-ca-file").
(* [internal/modes/agent/agent.go:82-84 Run] *)
Definition parse_agent_flags (ParseDuration : string → result Z) (args : list string) : result AgentFlags :=
  match flag_Parse ParseDuration agent_flags args (defaults agent_flags) with
  | Ok (v, _) => Ok (agent_variables v)
  | Err err => Err err
  end.

(* [internal/modes/discovery/discovery.go:90-99 Run] *)
Definition discovery_flags : FlagSet := [("sync-interval", VDuration (30 * Second))].
Definition parse_discovery_flags (ParseDuration : string → result Z) (args : list string) : result Z :=
  match flag_Parse ParseDuration discovery_flags args (defaults discovery_flags) with
  | Ok (v, _) => Ok (duration_of v "sync-interval")
  | Err err => Err err
  end.

(** The fields for agent mutual TLS but for the first are those of [TLSFlags]. *)
(* [internal/modes/manager/manager.go:60-89] *)
Record managerConfig := mkManagerConfig {
  metricsAddr : string;
  metricsCertPath : string;
  metricsCertName : string;
  metricsCertKey : string;
  webhookCertPath : string;
  webhookCertName : string;
  webhookCertKey : string;
  enableLeaderElection : bool;
  probeAddr : string;
  secureMetrics : bool;
  enableHTTP2 : bool;
  enableAPI : bool;
  apiPort : Z;
  agentImage : string;
  discoveryImage : string;
  mirrorPeriodicInterval : string;
  mirrorDebounceWindow : string;
  agentTLSEnabled : bool;
  tlsFlags : TLSFlags;
}.
(* [internal/modes/manager/manager.go:93-142 parseFlags] *)
Definition manager_flags : FlagSet :=
  [("metrics-bind-address", VString "0"); ("health-probe-bind-address", VString ":8081"); ("leader-elect", VBool false);
   ("metrics-secure", VBool true); ("webhook-cert-path", VString ""); ("webhook-cert-name", VString "tls.crt");
   ("webhook-cert-key", VString "tls.key"); ("metrics-cert-path", VString ""); ("metrics-cert-name", VString "tls.crt");
   ("metrics-cert-key", VString "tls.key"); ("enable-http2", VBool false); ("enable-api", VBool true); ("api-port", VInt 8090);
   ("agent-image", VString ""); ("discovery-image", VString ""); ("mirror-periodic-interval", VString "5m");
   ("mirror-debounce-window", VString "5s"); ("agent-tls-enabled", VBool true); ("agent-tls-ca-secret", VString "hsm-mtls-ca");
   ("agent-tls-server-secret", VString "hsm-agent-server-tls"); ("agent-tls-client-secret", VString "hsm-manager-client-tls");
   ("agent-tls-leaf-validity", VString "2160h"); ("agent-tls-renew-before", VString "720h"); ("agent-tls-cert-manager", VBool false)].
Definition manager_variables (v : Variables) : managerConfig :=
  mkManagerConfig (str_of v "metrics-bind-address") (str_of v "metrics-cert-path") (str_of v "metrics-cert-name")
    (str_of v "metrics-cert-key") (str_of v "webhook-cert-path") (str_of v "webhook-cert-name") (str_of v "webhook-cert-key")
    (bool_of v "leader-elect") (str_of v "health-probe-bind-address") (bool_of v "metrics-secure") (bool_of v "enable-http2")
    (bool_of v "enable-api") (int_of v "api-port") (str_of v "agent-image") (str_of v "discovery-image")
    (str_of v "mirror-periodic-interval") (str_of v "mirror-debounce-window") (bool_of v "agent-tls-enabled")
    (mkTLSFlags (str_of v "agent-tls-ca-secret") (str_of v "agent-tls-server-secret") (str_of v "agent-tls-client-secret")
       (str_of v "agent-tls-leaf-validity") (str_of v "agent-tls-renew-before") (bool_of v "agent-tls-cert-manager")).
(* [internal/modes/manager/manager.go:92-148] *)
Definition parseFlags (ParseDuration : string → result Z) (args : list string) : result managerConfig :=
  match flag_Parse ParseDuration manager_flags args (defaults manager_flags) with
  | Ok (v, _) => Ok (manager_variables v)
  | Err err => Err err
  end.

(** ** Lemmas: numbers *)

(** The value of decimal digits behind [n]. *)
Fixpoint uint_value (u : Decimal.uint) (n : Z) : Z :=
  match u with
  | Decimal.Nil => n
  | Decimal.D0 u => uint_value u (n * 10)
  | Decimal.D1 u => uint_value u (n * 10 + 1)
  | Decimal.D2 u => uint_value u (n * 10 + 2)
  | Decimal.D3 u => uint_value u (n * 10 + 3)
  | Decimal.D4 u => uint_value u (n * 10 + 4)
  | Decimal.D5 u => uint_value u (n * 10 + 5)
  | Decimal.D6 u => uint_value u (n * 10 + 6)
  | Decimal.D7 u => uint_value u (n * 10 + 7)
  | Decimal.D8 u => uint_value u (n * 10 + 8)
  | Decimal.D9 u => uint_value u (n * 10 + 9)
  end.
Lemma uint_value_pos u p : uint_value u (Z.pos p) = Z.pos (Pos.of_uint_acc u p).
Proof. revert p. induction u; intros p; cbn [uint_value Pos.of_uint_acc]; rewrite <-?IHu; f_equal; lia. Qed.
Lemma uint_value_of u : uint_value u 0 = Z.of_N (N.of_uint u).
Proof.
  unfold N.of_uint. induction u; cbn [uint_value Pos.of_uint]; [done|exact IHu|..]; exact (uint_value_pos _ _).
Qed.
Lemma uint_value_ge u n : 0 ≤ n → n ≤ uint_value u n.
Proof. revert n. induction u; intros n Hn; cbn [uint_value]; [lia|..]; (etrans; [|apply IHu; lia]; lia). Qed.

Lemma parse_digit c d s n :
  c ≠ "_"%char → digit_value c = Some d → d < 10 → n * 10 + d ≤ max_uint64 →
  parse_digits 10 (String c s) n = parse_digits 10 s (n * 10 + d).
Proof.
  intros Hc Hd Hlt Hn. cbn [parse_digits]. rewrite bool_decide_eq_false_2, Hd by done.
  by rewrite (proj2 (Z.leb_gt _ _)), (proj2 (Z.ltb_ge _ _)) by lia.
Qed.
Lemma parse_digits_uint u n :
  0 ≤ n → uint_value u n ≤ max_uint64 → parse_digits 10 (NilEmpty.string_of_uint u) n = Ok (uint_value u n).
Proof.
  revert n. induction u; intros n Hn Hu; cbn [uint_value NilEmpty.string_of_uint] in *; [done|..];
    match goal with |- context [String ?c _] => let d := eval vm_compute in (byte_val c - 48) in rewrite (parse_digit c d) end;
    first [done | lia | rewrite ?Z.add_0_r; apply IHu; [lia|exact Hu] | idtac];
    (etrans; [|exact Hu]); rewrite ?Z.add_0_r; apply uint_value_ge; lia.
Qed.

(** Printing a number writes no leading zero. *)
Lemma nzhead_head u : match Decimal.nzhead u with Decimal.Nil => True | d => ∀ v, d ≠ Decimal.D0 v end.
Proof. induction u; cbn; done. Qed.
Lemma to_uint_head n : 0 < n → match N.to_uint (Z.to_N n) with Decimal.Nil => False | d => ∀ v, d ≠ Decimal.D0 v end.
Proof.
  intros Hn. pose proof (DecimalN.Unsigned.of_to (Z.to_N n)) as Hof.
  pose proof (DecimalN.Unsigned.to_of (N.to_uint (Z.to_N n))) as Hto. rewrite Hof in Hto.
  unfold Decimal.unorm in Hto. pose proof (nzhead_head (N.to_uint (Z.to_N n))) as Hh.
  destruct (Decimal.nzhead (N.to_uint (Z.to_N n))) eqn:E; try (by rewrite Hto).
  rewrite Hto in Hof. cbn in Hof. lia.
Qed.

Lemma no_underscores u : has_underscore (NilEmpty.string_of_uint u) = false.
Proof. induction u; cbn; done. Qed.

Lemma ParseUint_print n : 0 ≤ n ≤ max_uint64 → ParseUint (NilZero.string_of_uint (N.to_uint (Z.to_N n))) = Ok n.
Proof.
  intros [Hn Hm]. destruct (decide (n = 0)) as [->|Hne]; [done|].
  pose proof (to_uint_head n ltac:(lia)) as Hh. set (u := N.to_uint (Z.to_N n)) in *.
  assert (uint_value u 0 = n) as Hu by (rewrite uint_value_of; unfold u; rewrite DecimalN.Unsigned.of_to; lia).
  pose proof (parse_digits_uint u 0 ltac:(lia) ltac:(lia)) as Hp. rewrite Hu in Hp. pose proof (no_underscores u) as Hno.
  assert (NilZero.string_of_uint u = NilEmpty.string_of_uint u) as -> by (by destruct u).
  unfold ParseUint. destruct u as [|v|v|v|v|v|v|v|v|v|v]; try done; [by destruct (Hh v)|..]; cbn [NilEmpty.string_of_uint] in *;
    by rewrite Hp, Hno.
Qed.

Lemma parse_positive u n : ParseUint (NilZero.string_of_uint u) = Ok n → n < 2 ^ 63 → ParseInt (NilZero.string_of_uint u) = Ok n.
Proof.
  intros Hu Hn. unfold ParseInt. destruct (string_of_uint0_digits u) as [Hd Hne].
  destruct (NilZero.string_of_uint u) as [|c s]; [done|]. apply andb_true_iff in Hd as [Hc _].
  rewrite !bool_decide_eq_false_2 by (intros ->; discriminate Hc). rewrite Hu. cbn.
  by rewrite (proj2 (Z.leb_gt _ _)).
Qed.
Lemma ParseInt_print n : in_int64 n → ParseInt (go_itoa n) = Ok n.
Proof.
  intros [Hlo Hhi]. unfold int64_min, int64_max in *. unfold go_itoa, NilZero.string_of_int.
  pose proof (ParseUint_print (Z.abs n) ltac:(unfold max_uint64; lia)) as Hp. destruct n as [|p|p]; cbn [Z.to_int Z.abs] in *.
  - done.
  - apply (parse_positive _ _ Hp). lia.
  - change (Z.abs (Z.neg p)) with (Z.pos p) in Hp. unfold ParseInt. change (Pos.to_uint p) with (N.to_uint (Z.to_N (Z.pos p))). rewrite !bool_decide_decide.
    destruct (decide ("-"%char = "+"%char)) as [|_]; [done|]. destruct (decide ("-"%char = "-"%char)) as [_|]; [|done]. rewrite Hp. cbn. rewrite (proj2 (Z.ltb_ge _ _)) by lia. done.
Qed.

(** ** Lemmas: flags with their value behind an equals sign *)
Definition set_flag (name value : string) : string := "--" +:+ name +:+ "=" +:+ value.
Fixpoint no_equals (s : string) : bool :=
  match s with EmptyString => true | String c s' => negb (bool_decide (c = "="%char)) && no_equals s' end.
Definition name_ok (name : string) : bool :=
  match name with EmptyString => false | String c s => negb (bool_decide (c = "-"%char)) && no_equals name end.

Lemma split_value_set s v : no_equals s = true → split_value (s +:+ "=" +:+ v) = (s, Some v).
Proof.
  induction s as [|c s IH]; [done|]. change (String c s +:+ "=" +:+ v) with (String c (s +:+ "=" +:+ v)). cbn.
  intros [Hc Hs]%andb_true_iff. apply negb_true_iff in Hc. by rewrite Hc, IH.
Qed.
Lemma flag_arg_set name v : name_ok name = true → flag_arg (set_flag name v) = FlagArg name (Some v).
Proof.
  destruct name as [|c s]; [done|]. cbn [name_ok no_equals]. intros [Hc [He Hs]%andb_true_iff]%andb_true_iff.
  apply negb_true_iff in Hc, He. change (set_flag (String c s) v) with (String "-" (String "-" (String c (s +:+ "=" +:+ v)))).
  unfold flag_arg. rewrite (bool_decide_eq_true_2 ("-"%char = "-"%char)), bool_decide_eq_false_2, Hc, He by done.
  by rewrite split_value_set.
Qed.

Section Sets.
Context (ParseDuration : string → result Z) (fs : FlagSet).
(** A flag, the text of its value and the value. *)
Definition Setting : Type := string * string * FlagVal.
Definition setting_ok (x : Setting) : Prop :=
  name_ok x.1.1 = true ∧ ∃ d, formal fs x.1.1 = Some d ∧ set_value ParseDuration d x.1.1 x.1.2 = Ok x.2.
Definition assign (l : list Setting) (vars : Variables) : Variables := foldl (λ m x, <[x.1.1 := x.2]> m) vars l.
Lemma parse_settings l vars :
  Forall setting_ok l → flag_Parse ParseDuration fs ((λ x, set_flag x.1.1 x.1.2) <$> l) vars = Ok (assign l vars, []).
Proof.
  intros Hl. revert vars. induction Hl as [|[[n v] x] l (Hn & d & Hf & Hs) _ IH]; intros vars; [done|]. cbn in Hn, Hf, Hs.
  cbn [fmap list_fmap fst snd flag_Parse assign foldl]. rewrite flag_arg_set, Hf by done. by destruct d; rewrite Hs; apply IH.
Qed.

(** What is left behind the first argument that is not a flag is not looked at. *)
Lemma parse_stops l arg rest vars :
  Forall setting_ok l → flag_arg arg = NotFlag →
  flag_Parse ParseDuration fs (((λ x, set_flag x.1.1 x.1.2) <$> l) ++ arg :: rest) vars = Ok (assign l vars, arg :: rest).
Proof.
  intros Hl Ha. revert vars. induction Hl as [|[[n v] x] l (Hn & d & Hf & Hs) _ IH]; intros vars; [cbn; by rewrite Ha|]. cbn in Hn, Hf, Hs.
  cbn [fmap list_fmap fst snd flag_Parse app assign foldl]. rewrite flag_arg_set, Hf by done. by destruct d; rewrite Hs; apply IH.
Qed.
End Sets.

(** Arguments that [main] hands to the mode. *)
Definition specific (arg : string) : bool :=
  negb (has_prefix arg "--mode=") && negb (bool_decide (arg = "--mode")) && negb (bool_decide (arg = "--log-level")) &&
  negb (has_prefix arg "--log-level=") && negb (has_prefix arg "--help").
Lemma split_specific args s :
  Forall (λ a, specific a = true) args → split_args args s = mkSplit (modeArg s) (globalArgs s) (modeSpecificArgs s ++ args).
Proof.
  intros Hl. revert s. induction Hl as [|a args Ha _ IH]; intros s; [by destruct s; rewrite app_nil_r|].
  unfold specific in Ha. rewrite !andb_true_iff, !negb_true_iff in Ha. destruct Ha as [[[[H1 H2] H3] H4] H5].
  cbn [split_args]. rewrite H1, H2, H3, H4, H5. cbn. rewrite IH. cbn. by rewrite <-app_assoc.
Qed.
