(* ===== verification/KubectlMain.v ===== *)
(** * kubectl-hsm/cmd/main.go: the kubectl plugin's command line

    The tree of commands that [newRootCmd] and the constructors of kubectl-hsm/pkg/commands
    build, with their flags, arguments and functions, and [main].  The library that
    interprets the tree is an argument, [Execute]; what is documented of it is the class
    [CobraLaws].  Help and usage texts are left out. *)

From Stdlib Require Import Ascii.
From S2P Require Import Prelude GoStd Base64 KubectlClient KubectlCommands KubectlShow Flags.

Local Open Scope go_scope.

(** ** Commands and flags *)

(** A flag has the type of its default.  [fl_Completions] is what the function registered
    for the flag offers to the shell. *)
Inductive FlagValue := StringFlag (s : string) | BoolFlag (b : bool) | StringArrayFlag (l : list string).
Record PFlag := mkPFlag { fl_Name : string; fl_Shorthand : string; fl_Default : FlagValue; fl_Completions : list string }.
Definition StringVar (name value : string) : PFlag := mkPFlag name "" (StringFlag value) [].
Definition StringVarP (name shorthand value : string) : PFlag := mkPFlag name shorthand (StringFlag value) [].
Definition BoolVar (name : string) (value : bool) : PFlag := mkPFlag name "" (BoolFlag value) [].
Definition BoolVarP (name shorthand : string) (value : bool) : PFlag := mkPFlag name shorthand (BoolFlag value) [].
Definition StringArrayVar (name : string) : PFlag := mkPFlag name "" (StringArrayFlag []) [].
Definition RegisterFlagCompletionFunc (name : string) (values : list string) (fs : list PFlag) : list PFlag :=
  (λ f, if bool_decide (fl_Name f = name) then mkPFlag (fl_Name f) (fl_Shorthand f) (fl_Default f) values else f) <$> fs.

(** The variables the flags are bound to, by the flags' names. *)
Abbreviation Values := (gmap string FlagValue).
Definition string_flag (v : Values) (name : string) : string := match v !! name with Some (StringFlag s) => s | _ => "" end.
Definition bool_flag (v : Values) (name : string) : bool := match v !! name with Some (BoolFlag b) => b | _ => false end.
Definition array_flag (v : Values) (name : string) : list string := match v !! name with Some (StringArrayFlag l) => l | _ => [] end.

(** [None] is [cobra.ArbitraryArgs]. *)
Inductive PositionalArgs := ArbitraryArgs | NoArgs | ExactArgs (n : nat) | OnlyValidArgs | MatchAll (l : list PositionalArgs).
Inductive ShellCompDirective := ShellCompDirectiveError | ShellCompDirectiveNoFileComp.

(** What a command prints when it succeeds; for those that write, the model does not say. *)
Inductive Said := Written | Shown (l : list Output) | Printed (l : list string).

(** A command of the library; [RunE] gets the values of the flags, the arguments, the name
    it was called by and the input. *)
Inductive Command (W : Type) := mkCommand {
  Use : string;
  Aliases : list string;
  Args : PositionalArgs;
  ValidArgs : list string;
  Flags : list PFlag;
  ValidArgsFunction : option (Values → list string → ST W (list string * ShellCompDirective));
  RunE : option (Values → list string → string → Input → ST W (result Said));
  Commands : list (Command W);
}.
Arguments mkCommand {W} _ _ _ _ _ _ _ _.
Arguments Use {W} _.
Arguments Aliases {W} _.
Arguments Args {W} _.
Arguments ValidArgs {W} _.
Arguments Flags {W} _.
Arguments ValidArgsFunction {W} _.
Arguments RunE {W} _.
Arguments Commands {W} _.

Definition AddCommand {W} (c : Command W) (subs : list (Command W)) : Command W :=
  mkCommand (Use c) (Aliases c) (Args c) (ValidArgs c) (Flags c) (ValidArgsFunction c) (RunE c) (Commands c ++ subs).
(** A command that only has subcommands. *)
Definition group {W} (use : string) : Command W := mkCommand use [] ArbitraryArgs [] [] None None [].

(** ** The options, from the flags *)
(* [kubectl-hsm/pkg/commands/create.go:85-87 NewCreateCmd] *)
Definition common_options (v : Values) : CommonOptions :=
  mkCommonOptions (string_flag v "namespace") (string_flag v "output") (bool_flag v "verbose").
(* [kubectl-hsm/pkg/commands/create.go:79-87 NewCreateCmd] *)
Definition create_options (v : Values) : CreateOptions :=
  mkCreateOptions (common_options v) (array_flag v "from-literal") (array_flag v "from-file") (bool_flag v "interactive")
    (bool_flag v "replace") (bool_flag v "dry-run") (bool_flag v "diff").
(* [kubectl-hsm/pkg/commands/get.go:66-69 NewGetCmd] *)
Definition get_options (v : Values) : GetOptions := mkGetOptions (common_options v) (string_flag v "key").
(* [kubectl-hsm/pkg/commands/list.go:68-72 NewListCmd] *)
Definition list_options (v : Values) : ListOptions :=
  mkListOptions (common_options v) (bool_flag v "all-namespaces") (bool_flag v "show-devices").
(* [kubectl-hsm/pkg/commands/delete.go:60-63 NewDeleteCmd] *)
Definition delete_options (v : Values) : DeleteOptions := mkDeleteOptions (common_options v) (string_flag v "key") (bool_flag v "force").
(* [kubectl-hsm/pkg/commands/devices.go:69-72 NewDevicesCmd] *)
Definition devices_options (v : Values) : DevicesOptions := mkDevicesOptions (common_options v) (bool_flag v "detailed").
(* [kubectl-hsm/pkg/commands/mirror.go:48-52 newMirrorSyncCmd] *)
Definition mirror_options (v : Values) : MirrorOptions := mkMirrorOptions (common_options v) (bool_flag v "force").

(** Filling in and checking the options of the mirror commands; nothing to do yet. *)
(* [kubectl-hsm/pkg/commands/mirror.go:38-40 Complete] *)
Definition mirror_Complete (o : MirrorOptions) : result MirrorOptions := Ok o.
(* [kubectl-hsm/pkg/commands/mirror.go:43-45 Validate] *)
Definition mirror_Validate (o : MirrorOptions) : result MirrorOptions := Ok o.

(** ** The flags of the commands *)
(* [kubectl-hsm/pkg/commands/create.go:89-92 NewCreateCmd] *)
Definition complete_output : list PFlag → list PFlag := RegisterFlagCompletionFunc "output" ["text"; "json"; "yaml"].
(* [kubectl-hsm/pkg/commands/create.go:85-87 NewCreateCmd] *)
Definition common_flags : list PFlag := [StringVarP "namespace" "n" ""; StringVarP "output" "o" "text"; BoolVarP "verbose" "v" false].
(* [kubectl-hsm/pkg/commands/create.go:79-92 NewCreateCmd] *)
Definition create_flags : list PFlag :=
  complete_output ([StringArrayVar "from-literal"; StringArrayVar "from-file"; BoolVar "interactive" false; BoolVar "replace" false;
                    BoolVar "dry-run" false; BoolVar "diff" false] ++ common_flags).
(* [kubectl-hsm/pkg/commands/rename_key.go:55-62 NewRenameKeyCmd] *)
Definition rename_flags : list PFlag := complete_output common_flags.
(* [kubectl-hsm/pkg/commands/get.go:66-77 NewGetCmd] *)
Definition get_flags : list PFlag := complete_output (StringVar "key" "" :: common_flags).
(* [kubectl-hsm/pkg/commands/list.go:68-77 NewListCmd] *)
Definition list_flags : list PFlag := complete_output ([BoolVar "all-namespaces" false; BoolVar "show-devices" false] ++ common_flags).
(* [kubectl-hsm/pkg/commands/delete.go:60-63 NewDeleteCmd] *)
Definition delete_flags : list PFlag :=
  [StringVar "key" ""; BoolVar "force" false; StringVarP "namespace" "n" ""; BoolVarP "verbose" "v" false].
(* [kubectl-hsm/pkg/commands/rotate_pin.go:67-71 NewRotatePinCmd] *)
Definition rotate_pin_flags : list PFlag :=
  [StringVar "old-pin" ""; StringVar "new-pin" ""; BoolVar "dry-run" false; StringVarP "namespace" "n" ""; BoolVarP "verbose" "v" false].
(* [kubectl-hsm/pkg/commands/health.go:64-66 NewHealthCmd] *)
Definition health_flags : list PFlag := common_flags.
(* [kubectl-hsm/pkg/commands/devices.go:69-77 NewDevicesCmd] *)
Definition devices_flags : list PFlag := complete_output (BoolVar "detailed" false :: common_flags).
(* [kubectl-hsm/pkg/commands/mirror.go:48-52 AddCommonFlags] *)
Definition AddCommonFlags (fs : list PFlag) : list PFlag :=
  fs ++ [StringVarP "namespace" "n" ""; StringVarP "output" "o" ""; BoolVarP "verbose" "v" false].
(* [kubectl-hsm/pkg/commands/mirror.go:108-111 newMirrorSyncCmd] *)
Definition mirror_sync_flags : list PFlag := AddCommonFlags [BoolVar "force" false].
(* [kubectl-hsm/pkg/commands/auth.go:163-164 NewAuthConfigCmd] *)
Definition auth_config_flags : list PFlag := [StringVar "service-account" ""; StringVar "namespace" ""].

(** An argument that is not there. *)
Definition no_argument {W} : ST W (result Said) := st_ret (Err (errorf "runtime error: index out of range")).
Definition saying {W A} (f : A → Said) (m : ST W (result A)) : ST W (result Said) := let* r := m in st_ret (result_map f r).

Inductive Shell := bash | zsh | fish | powershell.
Definition shell_of (s : string) : option Shell :=
  if bool_decide (s = "bash") then Some bash else if bool_decide (s = "zsh") then Some zsh
  else if bool_decide (s = "fish") then Some fish else if bool_decide (s = "powershell") then Some powershell else None.

Section Plugin.
Context {W : Type} (dt : Desktop W) (cl : Cluster W) `{MapOrder} (f : Fmt) (format_time : string → string).
Context `{!Json CachedToken, !Json TokenRequest, !Json TokenResponse, !Json (gmap string any)}.
Context `{!Json APIResponse, !Json any, !Json SecretData, !Json SecretList, !Json CreateSecretRequest, !Json HealthStatus,
          !Json DeviceStatusResponse, !Json DeviceInfoResponse, !Json ChangePINRequest, !Json ChangePINResponse,
          !Json MirrorSyncRequest, !Json MirrorSyncResult}.
Context `{!Encoded SecretData, !Encoded (gmap string any), !Encoded ListOutput, !Encoded DevicesOutput, !Encoded HealthOutput,
          !Encoded MirrorSyncResult}.
(** The version set by the build, and the library's generators of completion scripts, which
    write to the standard output. *)
Context (version : string) (GenCompletion : Shell → ST W (result (list Output))).

(** ** The constructors *)

(** What the shell is offered for a secret's name; a failure of any kind offers nothing. *)
(* [kubectl-hsm/pkg/commands/common.go:479-510] *)
Definition CompletionSecretNames (v : Values) (args : list string) : ST W (list string * ShellCompDirective) :=
  if bool_decide (args ≠ []) then st_ret ([], ShellCompDirectiveNoFileComp)
  else
    let* r := with_client dt cl (string_flag v "namespace") (bool_flag v "verbose") id id
                (st_try (ListSecrets dt 0 0) id (λ secretList, st_ret (Ok (sl_Secrets secretList)))) in
    st_ret (match r with
            | Ok secrets => (secrets, ShellCompDirectiveNoFileComp)
            | Err _ => ([], ShellCompDirectiveError)
            end).

(* [kubectl-hsm/pkg/commands/create.go:39-95] *)
Definition NewCreateCmd : Command W :=
  mkCommand "create SECRET_NAME [flags]" ["update"] (ExactArgs 1) [] create_flags None
    (Some (λ v args calledAs input,
       match args with
       | secretName :: _ => saying (λ _, Written) (RunWithCommandName dt cl (sprint_v f) (create_options v) secretName calledAs input)
       | [] => no_argument
       end)) [].
(* [kubectl-hsm/pkg/commands/rename_key.go:32-65] *)
Definition NewRenameKeyCmd : Command W :=
  mkCommand "rename-key SECRET_NAME OLD_KEY NEW_KEY" [] (ExactArgs 3) [] rename_flags None
    (Some (λ v args _ _,
       match args with
       | secretName :: oldKey :: newKey :: _ => saying (λ _, Written) (rename_Run dt cl (common_options v) secretName oldKey newKey)
       | _ => no_argument
       end)) [].
(* [kubectl-hsm/pkg/commands/get.go:40-80] *)
Definition NewGetCmd : Command W :=
  mkCommand "get SECRET_NAME [flags]" [] (ExactArgs 1) [] get_flags (Some CompletionSecretNames)
    (Some (λ v args _ _,
       match args with secretName :: _ => saying Shown (get_Run dt cl f (get_options v) secretName) | [] => no_argument end)) [].
(* [kubectl-hsm/pkg/commands/list.go:41-80] *)
Definition NewListCmd : Command W :=
  mkCommand "list [flags]" [] NoArgs [] list_flags None (Some (λ v _ _ _, saying Shown (list_Run dt cl (list_options v)))) [].
(* [kubectl-hsm/pkg/commands/delete.go:35-69] *)
Definition NewDeleteCmd : Command W :=
  mkCommand "delete SECRET_NAME [flags]" [] (ExactArgs 1) [] delete_flags (Some CompletionSecretNames)
    (Some (λ v args _ input,
       match args with
       | secretName :: _ => saying (λ _, Written) (delete_Run dt cl (delete_options v) secretName input)
       | [] => no_argument
       end)) [].
(* [kubectl-hsm/pkg/commands/rotate_pin.go:31-74] *)
Definition NewRotatePinCmd : Command W :=
  mkCommand "rotate-pin" [] ArbitraryArgs [] rotate_pin_flags None
    (Some (λ v _ _ input,
       saying (λ _, Written) (runRotatePin dt cl (string_flag v "old-pin") (string_flag v "new-pin") (bool_flag v "dry-run")
                                (string_flag v "namespace") (bool_flag v "verbose") input))) [].
(* [kubectl-hsm/pkg/commands/health.go:38-69] *)
Definition NewHealthCmd : Command W :=
  mkCommand "health [flags]" [] NoArgs [] health_flags None
    (Some (λ v _ _ _, saying Shown (health_Run dt cl format_time (common_options v)))) [].
(* [kubectl-hsm/pkg/commands/devices.go:40-80] *)
Definition NewDevicesCmd : Command W :=
  mkCommand "devices [flags]" [] NoArgs [] devices_flags None (Some (λ v _ _ _, saying Shown (devices_Run dt cl (devices_options v)))) [].
(* [kubectl-hsm/pkg/commands/mirror.go:75-113] *)
Definition newMirrorSyncCmd : Command W :=
  mkCommand "sync [flags]" [] ArbitraryArgs [] mirror_sync_flags None
    (Some (λ v _ _ _,
       match mirror_Complete (mirror_options v) with
       | Err err => st_ret (Err (wrapf "failed to complete options" err))
       | Ok opts =>
           match mirror_Validate opts with
           | Err err => st_ret (Err (wrapf "invalid options" err))
           | Ok opts => saying Shown (runMirrorSync dt cl opts)
           end
       end)) [].
(* [kubectl-hsm/pkg/commands/mirror.go:55-72] *)
Definition NewMirrorCmd : Command W := AddCommand (group "mirror") [newMirrorSyncCmd].
(* [kubectl-hsm/pkg/commands/auth.go:53-94] *)
Definition NewAuthStatusCmd : Command W :=
  mkCommand "status" [] ArbitraryArgs [] [] None (Some (λ _ _ _ _, saying Printed (auth_status_Run dt cl))) [].
(* [kubectl-hsm/pkg/commands/auth.go:97-123] *)
Definition NewAuthClearCmd : Command W :=
  mkCommand "clear" [] ArbitraryArgs [] [] None (Some (λ _ _ _ _, saying Printed (auth_clear_Run dt cl))) [].
(* [kubectl-hsm/pkg/commands/auth.go:126-167] *)
Definition NewAuthConfigCmd : Command W :=
  mkCommand "config" [] ArbitraryArgs [] auth_config_flags None
    (Some (λ v _ _ _, saying Printed (auth_config_Run dt cl (string_flag v "service-account") (string_flag v "namespace")))) [].
(* [kubectl-hsm/pkg/commands/auth.go:30-50] *)
Definition NewAuthCmd : Command W := AddCommand (group "auth") [NewAuthStatusCmd; NewAuthClearCmd; NewAuthConfigCmd].

(* [kubectl-hsm/cmd/main.go:110-121] *)
Definition newVersionCmd : Command W :=
  mkCommand "version" [] ArbitraryArgs [] [] None
    (Some (λ _ _ _ _, st_ret (Ok (Printed ["kubectl-hsm version: " +:+ version; "Compatible with: HSM Secrets Operator v1alpha1";
                                           "Plugin type: kubectl plugin"])))) [].
(* [kubectl-hsm/cmd/main.go:149-171 newCompletionCmd] *)
Definition completion_subcommand (use : string) (shell : Shell) : Command W :=
  mkCommand use [] ArbitraryArgs [] [] None (Some (λ _ _ _ _, saying Shown (GenCompletion shell))) [].
(* [kubectl-hsm/cmd/main.go:123-199] *)
Definition newCompletionCmd : Command W :=
  AddCommand
    (mkCommand "completion [bash|zsh|fish|powershell]" [] (MatchAll [ExactArgs 1; OnlyValidArgs]) ["bash"; "zsh"; "fish"; "powershell"]
       [] None
       (Some (λ _ args _ _,
          match args with
          | [] => no_argument
          | arg :: _ =>
              match shell_of arg with
              | Some shell => saying Shown (GenCompletion shell)
              | None => st_ret (Err (errorf ("unsupported shell type: " +:+ arg)))
              end
          end)) [])
    [completion_subcommand "bash" bash; completion_subcommand "zsh" zsh].

(* [kubectl-hsm/cmd/main.go:38-108] *)
Definition newRootCmd : Command W :=
  AddCommand (group "kubectl-hsm")
    [newVersionCmd; NewCreateCmd; NewRenameKeyCmd; NewGetCmd; NewListCmd; NewDeleteCmd; NewRotatePinCmd; NewHealthCmd; NewDevicesCmd;
     NewMirrorCmd; NewAuthCmd; newCompletionCmd].

(** What goes to standard error and the exit status. *)
(* [kubectl-hsm/cmd/main.go:30-36] *)
Definition main (Execute : Command W → list string → Input → ST W (result Said)) (args : list string) (input : Input) :
    ST W (list string * Z) :=
  let* r := Execute newRootCmd args input in
  st_ret (match r with Ok _ => ([], 0) | Err err => (["Error: " +:+ error_string err], 1) end).
End Plugin.
