(* ===== verification/KubectlMainSpec.v ===== *)
(** * What the command line of the kubectl plugin guarantees

    The documented behaviour of the library that interprets the tree of commands, as laws;
    an interpreter that satisfies them; that every command with every choice of options can
    be given on the command line and is understood; and the command lines of the
    documentation, those that are not understood among them. *)

From Stdlib Require Import Ascii.
From S2P Require Import Prelude GoStd Base64 KubectlClient KubectlCommands KubectlShow Flags KubectlMain.

Local Open Scope go_scope.

(** ** The library's conventions *)

(** A command's name is the first word of its use line. *)
Fixpoint first_word (s : string) : string :=
  match s with
  | EmptyString => ""
  | String c s' => if bool_decide (c = " "%char) then "" else String c (first_word s')
  end.
Definition command_name {W} (c : Command W) : string := first_word (Use c).
Definition called {W} (name : string) (c : Command W) : bool := bool_decide (command_name c = name) || bool_decide (name ∈ Aliases c).
Definition find_command {W} (name : string) (cs : list (Command W)) : option (Command W) := List.find (called name) cs.

(** A word that is no name in a list of them finds no command with names in the list. *)
Lemma find_other {W} (word : string) (names : list string) (cs : list (Command W)) :
  word ∉ names → Forall (λ c, command_name c ∈ names ∧ Aliases c = []) cs → find_command word cs = None.
Proof.
  intros Hw. induction 1 as [|c cs [Hc Ha] _ IH]; [done|]. cbn. unfold called.
  by rewrite Ha, !bool_decide_eq_false_2 by set_solver.
Qed.

(** The validators of arguments. *)
Fixpoint accepts (a : PositionalArgs) (valid args : list string) : bool :=
  match a with
  | ArbitraryArgs => true
  | NoArgs => bool_decide (args = [])
  | ExactArgs n => bool_decide (length args = n)
  | OnlyValidArgs => forallb (λ x, bool_decide (x ∈ valid)) args
  | MatchAll l => forallb (λ a, accepts a valid args) l
  end.

(** A word is positional unless it starts with a dash and goes on. *)
Definition plain (word : string) : bool := match word with String "-" (String _ _) => false | _ => true end.
Definition find_flag (fs : list PFlag) (name : string) : option PFlag := List.find (λ f, bool_decide (fl_Name f = name)) fs.
Definition find_short (fs : list PFlag) (c : ascii) : option PFlag := List.find (λ f, bool_decide (fl_Shorthand f = String c "")) fs.
Definition is_bool (d : FlagValue) : bool := match d with BoolFlag _ => true | _ => false end.
(** [Set] of the value of a flag. *)
Definition flag_set (d : FlagValue) (text : string) : option FlagValue :=
  match d with
  | StringFlag _ => Some (StringFlag text)
  | BoolFlag _ => match ParseBool text with Ok b => Some (BoolFlag b) | Err _ => None end
  | StringArrayFlag _ => Some (StringArrayFlag [text])
  end.
(** A list collects its settings, of another flag the last one counts. *)
Definition Settings : Type := list (string * FlagValue).
Definition set_one (v : Values) (x : string * FlagValue) : Values :=
  <[x.1 := match x.2, v !! x.1 with StringArrayFlag l, Some (StringArrayFlag l0) => StringArrayFlag (l0 ++ l) | d, _ => d end]> v.
Definition set_all (v : Values) (s : Settings) : Values := foldl set_one v s.
Definition flag_defaults (fs : list PFlag) : Values := list_to_map ((λ f, (fl_Name f, fl_Default f)) <$> fs).

(** The forms a flag can be given in, and the words of a command line: what they set and
    which are positional.  Behind two dashes all are. *)
Section Words.
Context (fs : list PFlag).
Inductive Item : list string → Settings → list string → Prop :=
  | item_positional w : plain w = true → Item [w] [] [w]
  | item_equals name text f x : find_flag fs name = Some f → flag_set (fl_Default f) text = Some x →
      Item [set_flag name text] [(name, x)] []
  | item_next name text f x : find_flag fs name = Some f → is_bool (fl_Default f) = false → flag_set (fl_Default f) text = Some x →
      Item ["--" +:+ name; text] [(name, x)] []
  | item_bool name f : find_flag fs name = Some f → is_bool (fl_Default f) = true → Item ["--" +:+ name] [(name, BoolFlag true)] []
  | item_short_next c text f x : find_short fs c = Some f → is_bool (fl_Default f) = false → flag_set (fl_Default f) text = Some x →
      Item [String "-" (String c ""); text] [(fl_Name f, x)] []
  | item_short_bool c f : find_short fs c = Some f → is_bool (fl_Default f) = true →
      Item [String "-" (String c "")] [(fl_Name f, BoolFlag true)] [].
Inductive Words : list string → Settings → list string → Prop :=
  | words_nil : Words [] [] []
  | words_rest pos : Words ("--" :: pos) [] pos
  | words_item ws1 s1 p1 ws2 s2 p2 : Item ws1 s1 p1 → Words ws2 s2 p2 → Words (ws1 ++ ws2) (s1 ++ s2) (p1 ++ p2).
(** Words with a flag there is not, or a value it does not take. *)
Inductive Misspelt : list string → Prop :=
  | misspelt_name name text ws : name_ok name = true → name ≠ "help" → find_flag fs name = None → Misspelt (set_flag name text :: ws)
  | misspelt_value name text ws f : find_flag fs name = Some f → flag_set (fl_Default f) text = None → Misspelt (set_flag name text :: ws)
  | misspelt_later ws1 s1 p1 ws2 : Item ws1 s1 p1 → Misspelt ws2 → Misspelt (ws1 ++ ws2).
End Words.

(** What the library requires of the definition of flags. *)
Definition flag_ok (f : PFlag) : bool :=
  name_ok (fl_Name f) && negb (bool_decide (fl_Name f = "help")) &&
  match fl_Shorthand f with
  | EmptyString => true
  | String c s => bool_decide (s = "") && negb (bool_decide (c = "-"%char)) && negb (bool_decide (c = "h"%char))
  end && match fl_Default f with StringArrayFlag (_ :: _) => false | _ => true end.
Definition flags_ok (fs : list PFlag) : bool := forallb flag_ok fs.

(** Going down the tree by names and aliases: the command and the name it was called by. *)
Inductive Reaches {W} : Command W → list string → Command W → string → Prop :=
  | reaches_one p name c : plain name = true → find_command name (Commands p) = Some c → Reaches p [name] c name
  | reaches_more p name c path c' name' : plain name = true → find_command name (Commands p) = Some c →
      Reaches c path c' name' → Reaches p (name :: path) c' name'.
(** The first positional word does not name a further command. *)
Definition stays_at {W} (c : Command W) (pos : list string) : bool :=
  match pos with [] => true | w :: _ => match find_command w (Commands c) with None => true | Some _ => false end end.

(** The documented behaviour of the library: a command gets its flags and arguments; one
    without a function prints its help; what is not understood is an error before anything
    runs, and so is a word that names no command of the root. *)
Class CobraLaws {W} (Execute : Command W → list string → Input → ST W (result Said)) : Prop := {
  execute_runs : ∀ root path c name ws s pos run input w,
    Reaches root path c name → flags_ok (Flags c) = true → Words (Flags c) ws s pos → stays_at c pos = true →
    RunE c = Some run → accepts (Args c) (ValidArgs c) pos = true →
    Execute root (path ++ ws) input w = run (set_all (flag_defaults (Flags c)) s) pos name input w;
  execute_helps : ∀ root path c name ws s pos input w,
    Reaches root path c name → flags_ok (Flags c) = true → Words (Flags c) ws s pos → stays_at c pos = true →
    RunE c = None → ∃ help, Execute root (path ++ ws) input w = (Ok (Shown help), w);
  execute_wrong_args : ∀ root path c name ws s pos run input w,
    Reaches root path c name → flags_ok (Flags c) = true → Words (Flags c) ws s pos → stays_at c pos = true →
    RunE c = Some run → accepts (Args c) (ValidArgs c) pos = false → ∃ err, Execute root (path ++ ws) input w = (Err err, w);
  execute_misspelt : ∀ root path c name ws input w,
    Reaches root path c name → flags_ok (Flags c) = true → Commands c = [] → Misspelt (Flags c) ws →
    ∃ err, Execute root (path ++ ws) input w = (Err err, w);
  execute_unknown : ∀ root word ws input w,
    Args root = ArbitraryArgs → RunE root = None → Commands root ≠ [] → plain word = true → word ≠ "help" → word ≠ "completion" →
    word ≠ "__complete" → word ≠ "__completeNoDesc" → find_command word (Commands root) = None →
    ∃ err, Execute root (word :: ws) input w = (Err err, w);
}.

(** ** An interpreter *)
Section Parse.
Context (fs : list PFlag).

(** One word: positional, the terminator, or a flag with the value it carries; [None] if the flag
    is not defined. *)
Inductive Token := Positional | Rest | Flag (f : PFlag) (text : option string) | Unknown.
Definition flag_token (found : option PFlag) (text : option string) : Token :=
  match found with Some f => Flag f text | None => Unknown end.
Definition token (word : string) : Token :=
  match word with
  | String "-" (String c rest) =>
      if bool_decide (c = "-"%char) then
        (if bool_decide (rest = "") then Rest else let '(name, text) := split_value rest in flag_token (find_flag fs name) text)
      else if bool_decide (rest = "") then flag_token (find_short fs c) None else Unknown
  | _ => Positional
  end.
(** A boolean flag without a value is true; another takes the next word. *)
Fixpoint parse (ws : list string) : option (Settings * list string) :=
  let set (f : PFlag) (text : string) (ws : list string) (go : option (Settings * list string)) :=
    match flag_set (fl_Default f) text, go with
    | Some x, Some (s, pos) => Some ((fl_Name f, x) :: s, pos)
    | _, _ => None
    end in
  match ws with
  | [] => Some ([], [])
  | w :: ws' =>
      match token w with
      | Positional => match parse ws' with Some (s, pos) => Some (s, w :: pos) | None => None end
      | Rest => Some ([], ws')
      | Unknown => None
      | Flag f (Some text) => set f text ws' (parse ws')
      | Flag f None =>
          if is_bool (fl_Default f) then set f "true" ws' (parse ws')
          else match ws' with [] => None | text :: ws'' => set f text ws'' (parse ws'') end
      end
  end.

Lemma find_flag_name name f : find_flag fs name = Some f → fl_Name f = name.
Proof. intros E%find_some. destruct E as [_ E]. by apply bool_decide_eq_true_1 in E. Qed.
Lemma find_short_name c f : find_short fs c = Some f → fl_Shorthand f = String c "".
Proof. intros E%find_some. destruct E as [_ E]. by apply bool_decide_eq_true_1 in E. Qed.

Context (Hfs : flags_ok fs = true).

Lemma flag_found name f : find_flag fs name = Some f → name_ok name = true.
Proof.
  intros E. pose proof (find_flag_name _ _ E) as <-. apply find_some in E. destruct E as [Hin _].
  unfold flags_ok in Hfs. rewrite forallb_forall in Hfs. specialize (Hfs _ Hin). unfold flag_ok in Hfs.
  by repeat (apply andb_true_iff in Hfs as [Hfs ?]).
Qed.
Lemma short_found c f : find_short fs c = Some f → c ≠ "-"%char.
Proof.
  intros E. pose proof (find_short_name _ _ E) as Hs. apply find_some in E. destruct E as [Hin _].
  unfold flags_ok in Hfs. rewrite forallb_forall in Hfs. specialize (Hfs _ Hin). unfold flag_ok in Hfs. rewrite Hs in Hfs.
  apply andb_true_iff in Hfs as [Hfs _]. apply andb_true_iff in Hfs as [_ Hfs]. apply andb_true_iff in Hfs as [Hfs _].
  apply andb_true_iff in Hfs as [_ Hfs]. apply negb_true_iff, bool_decide_eq_false in Hfs. done.
Qed.

Lemma token_long name text : name_ok name = true → token (set_flag name text) = flag_token (find_flag fs name) (Some text).
Proof.
  destruct name as [|c s]; [done|]. intros [_ Hok]%andb_true_iff.
  change (set_flag (String c s) text) with (String "-" (String "-" (String c s +:+ "=" +:+ text))).
  unfold token. rewrite (bool_decide_eq_true_2 ("-"%char = "-"%char)), bool_decide_eq_false_2 by done. by rewrite split_value_set.
Qed.
Lemma split_value_bare s : no_equals s = true → split_value s = (s, None).
Proof. induction s as [|c s IH]; [done|]. cbn. intros [Hc Hs]%andb_true_iff. apply negb_true_iff in Hc. by rewrite Hc, IH. Qed.
Lemma token_bare name : name_ok name = true → token ("--" +:+ name) = flag_token (find_flag fs name) None.
Proof.
  destruct name as [|c s]; [done|]. intros [_ Hok]%andb_true_iff.
  change ("--" +:+ String c s) with (String "-" (String "-" (String c s))).
  unfold token. rewrite (bool_decide_eq_true_2 ("-"%char = "-"%char)), bool_decide_eq_false_2 by done. by rewrite split_value_bare.
Qed.
Lemma token_short c : c ≠ "-"%char → token (String "-" (String c "")) = flag_token (find_short fs c) None.
Proof. intros Hc. unfold token. by rewrite bool_decide_eq_false_2 by done. Qed.
Lemma token_plain w : plain w = true → token w = Positional.
Proof. destruct w as [|[[] [] [] [] [] [] [] []] [|c w]]; try done. Qed.

(** What the relation [Words] allows is what the parser computes. *)
Lemma parse_item ws1 s1 p1 ws2 s2 p2 :
  Item fs ws1 s1 p1 → parse ws2 = Some (s2, p2) → parse (ws1 ++ ws2) = Some (s1 ++ s2, p1 ++ p2).
Proof.
  intros [w Hw|name text f x Hf Hx|name text f x Hf Hb Hx|name f Hf Hb|c text f x Hf Hb Hx|c f Hf Hb] Hp; cbn [app parse].
  - by rewrite token_plain, Hp.
  - pose proof (flag_found _ _ Hf). pose proof (find_flag_name _ _ Hf) as Hn. rewrite token_long, Hf by done. cbn. by rewrite Hx, Hp, Hn.
  - pose proof (flag_found _ _ Hf). pose proof (find_flag_name _ _ Hf) as Hn. rewrite token_bare, Hf by done. cbn. by rewrite Hb, Hx, Hp, Hn.
  - pose proof (flag_found _ _ Hf). pose proof (find_flag_name _ _ Hf) as Hn. rewrite token_bare, Hf by done. cbn. rewrite Hb, Hp, Hn.
    by destruct (fl_Default f).
  - pose proof (short_found _ _ Hf). rewrite token_short, Hf by done. cbn. by rewrite Hb, Hx, Hp.
  - pose proof (short_found _ _ Hf). rewrite token_short, Hf by done. cbn. rewrite Hb, Hp. by destruct (fl_Default f).
Qed.
Lemma parse_words ws s pos : Words fs ws s pos → parse ws = Some (s, pos).
Proof. induction 1 as [|pos|ws1 s1 p1 ws2 s2 p2 Hi _ IH]; [done|done|]. by apply parse_item. Qed.

(** A misspelt word is not parsed, whatever is before it. *)
Lemma parse_item_none ws1 s1 p1 ws2 : Item fs ws1 s1 p1 → parse ws2 = None → parse (ws1 ++ ws2) = None.
Proof.
  intros [w Hw|name text f x Hf Hx|name text f x Hf Hb Hx|name f Hf Hb|c text f x Hf Hb Hx|c f Hf Hb] Hp; cbn [app parse].
  - by rewrite token_plain, Hp.
  - pose proof (flag_found _ _ Hf). rewrite token_long, Hf by done. cbn. by rewrite Hx, Hp.
  - pose proof (flag_found _ _ Hf). rewrite token_bare, Hf by done. cbn. by rewrite Hb, Hx, Hp.
  - pose proof (flag_found _ _ Hf). rewrite token_bare, Hf by done. cbn. rewrite Hb, Hp. by destruct (flag_set _ _).
  - pose proof (short_found _ _ Hf). rewrite token_short, Hf by done. cbn. by rewrite Hb, Hx, Hp.
  - pose proof (short_found _ _ Hf). rewrite token_short, Hf by done. cbn. rewrite Hb, Hp. by destruct (flag_set _ _).
Qed.
Lemma parse_misspelt ws : Misspelt fs ws → parse ws = None.
Proof.
  induction 1 as [name text ws Hn _ Hf|name text ws f Hf Hx|ws1 s1 p1 ws2 Hi _ IH].
  - cbn. by rewrite token_long, Hf.
  - cbn. pose proof (flag_found _ _ Hf). rewrite token_long, Hf by done. cbn. by rewrite Hx.
  - by apply (parse_item_none _ _ _ _ Hi).
Qed.
End Parse.

(** Conversely, what the parser reads is given in words of these forms. *)
Section Parsed.
Context (fs : list PFlag).
Lemma split_value_inv s name text : split_value s = (name, text) → s = match text with Some t => name +:+ "=" +:+ t | None => name end.
Proof.
  revert name. induction s as [|c s IH]; cbn; intros name; [by intros [= <- <-]|].
  destruct (bool_decide_reflect (c = "="%char)) as [->|]; [by intros [= <- <-]|].
  destruct (split_value s) as [m v]. intros [= <- <-]. rewrite (IH m eq_refl). by destruct v.
Qed.
Lemma token_inv w f text : token fs w = Flag f text →
  (∃ name, find_flag fs name = Some f ∧ w = match text with Some t => set_flag name t | None => "--" +:+ name end) ∨
  (∃ c, find_short fs c = Some f ∧ text = None ∧ w = String "-" (String c "")).
Proof.
  destruct w as [|d [|c rest]]; [done|by destruct d as [[] [] [] [] [] [] [] []]|].
  destruct (decide (d = "-"%char)) as [->|Hd]; [|by destruct d as [[] [] [] [] [] [] [] []]]. unfold token.
  destruct (bool_decide_reflect (c = "-"%char)) as [->|Hc]; case_bool_decide as Hr; [done| | |done].
  - destruct (split_value rest) as [name text'] eqn:Es. unfold flag_token. destruct (find_flag fs name) as [f'|] eqn:Ef; [|done].
    intros [= -> ->]. left. exists name. split; [done|]. rewrite (split_value_inv _ _ _ Es). by destruct text.
  - unfold flag_token. destruct (find_short fs c) as [f'|] eqn:Ef; [|done]. intros [= -> <-]. right. exists c. by subst rest.
Qed.
Lemma token_positional w : token fs w = Positional → plain w = true.
Proof.
  destruct w as [|d [|c rest]]; [done|by destruct d as [[] [] [] [] [] [] [] []]|].
  destruct (decide (d = "-"%char)) as [->|Hd]; [|by destruct d as [[] [] [] [] [] [] [] []]]. unfold token, flag_token.
  repeat case_match; done.
Qed.
Lemma token_rest w : token fs w = Rest → w = "--".
Proof.
  destruct w as [|d [|c rest]]; [done|by destruct d as [[] [] [] [] [] [] [] []]|].
  destruct (decide (d = "-"%char)) as [->|Hd]; [|by destruct d as [[] [] [] [] [] [] [] []]]. unfold token, flag_token.
  destruct (bool_decide_reflect (c = "-"%char)) as [->|Hc]; case_bool_decide as Hr; repeat case_match; try done. by rewrite Hr.
Qed.

Lemma words_cons ws1 x s1 ws2 s2 p2 : Item fs ws1 [x] [] → s1 = x :: s2 → Words fs ws2 s2 p2 → Words fs (ws1 ++ ws2) s1 p2.
Proof. intros Hi -> Hw. exact (words_item fs _ _ _ _ _ _ Hi Hw). Qed.
Lemma parse_sound ws s pos : parse fs ws = Some (s, pos) → Words fs ws s pos.
Proof.
  remember (length ws) as k eqn:Hn. revert ws s pos Hn. induction k as [k IH] using lt_wf_ind. intros [|w ws] s pos Hn; cbn.
  { intros [= <- <-]. constructor. }
  cbn in Hn. destruct (token fs w) as [| |f [text|]|] eqn:Et; [| | | |done].
  - destruct (parse fs ws) as [[s' pos']|] eqn:Ep; [|done]. intros [= <- <-]. apply (IH (length ws)) in Ep; [|lia|done].
    apply (words_item fs [w] [] [w]); [|done]. constructor. by apply token_positional.
  - intros [= <- <-]. rewrite (token_rest _ Et). constructor.
  - destruct (flag_set _ text) as [x|] eqn:Ex, (parse fs ws) as [[s' pos']|] eqn:Ep; try done. intros [= <- <-].
    apply (IH (length ws)) in Ep; [|lia|done]. destruct (token_inv _ _ _ Et) as [(name & Hf & ->)|(c & _ & [=] & _)].
    apply (words_cons [_] (fl_Name f, x) _ ws s'); [|done..]. rewrite (find_flag_name _ _ _ Hf). by apply (item_equals _ _ _ f).
  - destruct (is_bool (fl_Default f)) eqn:Eb.
    + destruct (flag_set _ "true") as [x|] eqn:Ex, (parse fs ws) as [[s' pos']|] eqn:Ep; try done. intros [= <- <-].
      assert (x = BoolFlag true) as -> by (destruct (fl_Default f); [done| |done]; by injection Ex).
      apply (IH (length ws)) in Ep; [|lia|done]. destruct (token_inv _ _ _ Et) as [(name & Hf & ->)|(c & Hf & _ & ->)].
      * apply (words_cons [_] (fl_Name f, BoolFlag true) _ ws s'); [|done..]. rewrite (find_flag_name _ _ _ Hf). by apply (item_bool _ _ f).
      * apply (words_cons [_] (fl_Name f, BoolFlag true) _ ws s'); [|done..]. by apply item_short_bool.
    + destruct ws as [|text ws]; [done|].
      destruct (flag_set _ text) as [x|] eqn:Ex, (parse fs ws) as [[s' pos']|] eqn:Ep; try done. intros [= <- <-].
      apply (IH (length ws)) in Ep; [|cbn in Hn; lia|done]. destruct (token_inv _ _ _ Et) as [(name & Hf & ->)|(c & Hf & _ & ->)].
      * apply (words_cons [_; _] (fl_Name f, x) _ ws s'); [|done..]. rewrite (find_flag_name _ _ _ Hf). by apply (item_next _ _ _ f).
      * apply (words_cons [_; _] (fl_Name f, x) _ ws s'); [|done..]. by apply item_short_next.
Qed.
End Parsed.

(** *** The interpreter and its laws *)
Fixpoint descend {W} (c : Command W) (name : string) (ws : list string) : Command W * string * list string :=
  match ws with
  | [] => (c, name, [])
  | w :: ws' =>
      if plain w then match find_command w (Commands c) with Some c' => descend c' w ws' | None => (c, name, ws) end
      else (c, name, ws)
  end.
Definition interpret {W} (root : Command W) (ws : list string) (input : Input) : ST W (result Said) :=
  let '(c, name, rest) := descend root (command_name root) ws in
  match parse (Flags c) rest with
  | None => st_ret (Err (errorf "unknown flag"))
  | Some (s, pos) =>
      match RunE c with
      | None => if bool_decide (length rest = length ws) && bool_decide (pos ≠ []) then st_ret (Err (errorf "unknown command"))
                else st_ret (Ok (Shown []))
      | Some run => if accepts (Args c) (ValidArgs c) pos then run (set_all (flag_defaults (Flags c)) s) pos name input
                    else st_ret (Err (errorf "arguments"))
      end
  end.

Lemma descend_path {W} (root c : Command W) path name called_by ws :
  Reaches root path c name → descend root called_by (path ++ ws) = descend c name ws.
Proof. intros H. revert called_by. induction H as [p name c Hn Hf|p name c path c' name' Hn Hf _ IH]; intros called_by; cbn; by rewrite Hn, Hf. Qed.
Lemma descend_stays {W} (c : Command W) name ws s pos :
  Words (Flags c) ws s pos → flags_ok (Flags c) = true → stays_at c pos = true → descend c name ws = (c, name, ws).
Proof.
  intros Hw Hok Hs. apply parse_words in Hw; [|done]. destruct ws as [|w ws]; [done|]. cbn. destruct (plain w) eqn:Ep; [|done].
  cbn in Hw. rewrite token_plain in Hw by done. destruct (parse _ ws) as [[s' pos']|]; [|done]. injection Hw as <- <-.
  cbn in Hs. by destruct (find_command w (Commands c)).
Qed.
Lemma reaches_nonempty {W} (root c : Command W) path name : Reaches root path c name → path ≠ [].
Proof. by destruct 1. Qed.

#[local] Instance interpret_laws {W} : CobraLaws (W := W) interpret.
Proof.
  split.
  - intros root path c name ws s pos run input w Hr Hok Hw Hs HR Ha. unfold interpret. rewrite (descend_path root c path name) by done.
    rewrite (descend_stays c name ws s pos) by done. rewrite (parse_words _ Hok _ _ _ Hw), HR, Ha. done.
  - intros root path c name ws s pos input w Hr Hok Hw Hs HR. exists []. unfold interpret. rewrite (descend_path root c path name) by done.
    rewrite (descend_stays c name ws s pos) by done. rewrite (parse_words _ Hok _ _ _ Hw), HR.
    rewrite bool_decide_eq_false_2; [done|]. apply reaches_nonempty in Hr. rewrite length_app. destruct path; [done|cbn; lia].
  - intros root path c name ws s pos run input w Hr Hok Hw Hs HR Ha. eexists. unfold interpret. rewrite (descend_path root c path name) by done.
    rewrite (descend_stays c name ws s pos) by done. rewrite (parse_words _ Hok _ _ _ Hw), HR, Ha. done.
  - intros root path c name ws input w Hr Hok Hc Hm. eexists. unfold interpret. rewrite (descend_path root c path name) by done.
    assert (descend c name ws = (c, name, ws)) as -> by (destruct ws; [done|]; cbn; rewrite Hc; by destruct (plain _)).
    by rewrite (parse_misspelt _ Hok _ Hm).
  - intros root word ws input w Ha HR Hc Hp _ _ _ _ Hf.
    assert (∃ err, interpret root (word :: ws) input = st_ret (Err err)) as [err ->]; [|by exists err].
    unfold interpret. cbn. rewrite Hp, Hf. cbn. rewrite token_plain by done.
    destruct (parse (Flags root) ws) as [[s pos]|]; [|by eexists]. rewrite HR, !bool_decide_eq_true_2 by done. by eexists.
Qed.

(** ** What can be asked for *)

(** A command with its options and arguments. *)
Inductive Invocation :=
  | DoVersion
  | DoCreate (update : bool) (opts : CreateOptions) (secretName : string)
  | DoRenameKey (opts : CommonOptions) (secretName oldKey newKey : string)
  | DoGet (opts : GetOptions) (secretName : string)
  | DoList (opts : ListOptions)
  | DoDelete (opts : DeleteOptions) (secretName : string)
  | DoRotatePin (oldPin newPin : string) (dryRun : bool) (namespace : string) (verbose : bool)
  | DoHealth (opts : CommonOptions)
  | DoDevices (opts : DevicesOptions)
  | DoMirrorSync (opts : MirrorOptions)
  | DoAuthStatus
  | DoAuthClear
  | DoAuthConfig (serviceAccount namespace : string)
  | DoCompletion (shell : Shell).

(** Settings with their text, and a command line in a form that leaves no doubt: every flag with its
    value, then two dashes and the arguments. *)
Definition Setting : Type := string * string * FlagValue.
Definition str (name s : string) : Setting := (name, s, StringFlag s).
Definition boolean (name : string) (b : bool) : Setting := (name, go_bool b, BoolFlag b).
Definition each (name : string) (l : list string) : list Setting := (λ s, (name, s, StringArrayFlag [s])) <$> l.
Definition common_settings (o : CommonOptions) : list Setting :=
  [str "namespace" (co_Namespace o); str "output" (co_Output o); boolean "verbose" (co_Verbose o)].
Definition create_settings (o : CreateOptions) : list Setting :=
  common_settings (cr_Common o) ++
  [boolean "interactive" (cr_Interactive o); boolean "replace" (cr_Replace o); boolean "dry-run" (cr_DryRun o);
   boolean "diff" (cr_ShowDiff o)].
Definition line (path : list string) (l : list Setting) (pos : list string) : list string :=
  path ++ ((λ x, set_flag x.1.1 x.1.2) <$> l) ++ "--" :: pos.
Definition shell_name (s : Shell) : string :=
  match s with bash => "bash" | zsh => "zsh" | fish => "fish" | powershell => "powershell" end.
Definition words_of (i : Invocation) : list string :=
  match i with
  | DoVersion => line ["version"] [] []
  | DoCreate update o s =>
      line [if update then "update" else "create"]
        (create_settings o ++ each "from-literal" (cr_FromLiteral o) ++ each "from-file" (cr_FromFile o)) [s]
  | DoRenameKey o s oldKey newKey => line ["rename-key"] (common_settings o) [s; oldKey; newKey]
  | DoGet o s => line ["get"] (str "key" (go_Key o) :: common_settings (go_Common o)) [s]
  | DoList o =>
      line ["list"] (boolean "all-namespaces" (lo_AllNamespaces o) :: boolean "show-devices" (lo_ShowDevices o) ::
                     common_settings (lo_Common o)) []
  | DoDelete o s =>
      line ["delete"] [str "key" (do_Key o); boolean "force" (do_Force o); str "namespace" (co_Namespace (do_Common o));
                       boolean "verbose" (co_Verbose (do_Common o))] [s]
  | DoRotatePin oldPin newPin dryRun namespace verbose =>
      line ["rotate-pin"] [str "old-pin" oldPin; str "new-pin" newPin; boolean "dry-run" dryRun; str "namespace" namespace;
                           boolean "verbose" verbose] []
  | DoHealth o => line ["health"] (common_settings o) []
  | DoDevices o => line ["devices"] (boolean "detailed" (dv_Detailed o) :: common_settings (dv_Common o)) []
  | DoMirrorSync o => line ["mirror"; "sync"] (boolean "force" (mi_Force o) :: common_settings (mi_Common o)) []
  | DoAuthStatus => line ["auth"; "status"] [] []
  | DoAuthClear => line ["auth"; "clear"] [] []
  | DoAuthConfig serviceAccount namespace =>
      line ["auth"; "config"] [str "service-account" serviceAccount; str "namespace" namespace] []
  | DoCompletion (bash as s) | DoCompletion (zsh as s) => line ["completion"; shell_name s] [] []
  | DoCompletion s => line ["completion"] [] [shell_name s]
  end.

(** ** Lemmas: settings *)
Definition setting_ok (fs : list PFlag) (x : Setting) : Prop :=
  ∃ f, find_flag fs x.1.1 = Some f ∧ flag_set (fl_Default f) x.1.2 = Some x.2.
Lemma settings_words fs (l : list Setting) pos :
  Forall (setting_ok fs) l →
  Words fs (((λ x, set_flag x.1.1 x.1.2) <$> l) ++ "--" :: pos) ((λ x, (x.1.1, x.2)) <$> l) pos.
Proof.
  induction 1 as [|[[n t] x] l (f & Hf & Hx) _ IH]; [apply words_rest|]. cbn in Hf, Hx.
  apply (words_item fs [_] [_] []); [|exact IH]. by apply (item_equals _ _ _ f).
Qed.
Lemma str_ok fs name s f : find_flag fs name = Some f → is_bool (fl_Default f) = false →
  match fl_Default f with StringArrayFlag _ => false | _ => true end = true → setting_ok fs (str name s).
Proof. intros Hf Hb Ha. exists f. split; [done|]. by destruct (fl_Default f). Qed.
Lemma boolean_ok fs name b f : find_flag fs name = Some f → is_bool (fl_Default f) = true → setting_ok fs (boolean name b).
Proof. intros Hf Hb. exists f. split; [done|]. cbn. destruct (fl_Default f); [done| |done]. by destruct b. Qed.
Lemma each_ok fs name l f l0 : find_flag fs name = Some f → fl_Default f = StringArrayFlag l0 → Forall (setting_ok fs) (each name l).
Proof. intros Hf Ha. apply Forall_fmap, Forall_true. intros s. exists f. split; [done|]. cbn. by rewrite Ha. Qed.

Lemma set_all_app v s1 s2 : set_all v (s1 ++ s2) = set_all (set_all v s1) s2.
Proof. apply foldl_app. Qed.
Lemma set_all_each v name l l0 :
  v !! name = Some (StringArrayFlag l0) →
  set_all v ((λ x : Setting, (x.1.1, x.2)) <$> each name l) = <[name := StringArrayFlag (l0 ++ l)]> v.
Proof.
  revert v l0. induction l as [|s l IH]; intros v l0 Hv.
  - rewrite app_nil_r, insert_id by done. done.
  - assert (set_one v (name, StringArrayFlag [s]) = <[name := StringArrayFlag (l0 ++ [s])]> v) as E
      by (unfold set_one; cbn [fst snd]; by rewrite Hv).
    change (set_all (set_one v (name, StringArrayFlag [s])) ((λ x : Setting, (x.1.1, x.2)) <$> each name l) =
            <[name := StringArrayFlag (l0 ++ s :: l)]> v).
    rewrite E, (IH _ (l0 ++ [s])) by (by rewrite lookup_insert_eq). by rewrite insert_insert_eq, <-app_assoc.
Qed.

(** The options of create, whose lists can have any length. *)
Lemma create_options_set (o : CreateOptions) :
  create_options (set_all (flag_defaults create_flags)
    ((λ x : Setting, (x.1.1, x.2)) <$> create_settings o ++ each "from-literal" (cr_FromLiteral o) ++ each "from-file" (cr_FromFile o))) = o.
Proof.
  destruct o as [[] lits files]. rewrite !fmap_app, !set_all_app.
  rewrite (set_all_each _ "from-literal" lits []) by reflexivity.
  rewrite (set_all_each _ "from-file" files []) by reflexivity. reflexivity.
Qed.

(** ** The plugin *)
Section Plugin.
Context {W : Type} (dt : Desktop W) (cl : Cluster W) `{MapOrder} (f : Fmt) (format_time : string → string).
Context `{!Json CachedToken, !Json TokenRequest, !Json TokenResponse, !Json (gmap string any)}.
Context `{!Json APIResponse, !Json any, !Json SecretData, !Json SecretList, !Json CreateSecretRequest, !Json HealthStatus,
          !Json DeviceStatusResponse, !Json DeviceInfoResponse, !Json ChangePINRequest, !Json ChangePINResponse,
          !Json MirrorSyncRequest, !Json MirrorSyncResult}.
Context `{!Encoded SecretData, !Encoded (gmap string any), !Encoded ListOutput, !Encoded DevicesOutput, !Encoded HealthOutput,
          !Encoded MirrorSyncResult}.
Context (version : string) (GenCompletion : Shell → ST W (result (list Output))).
Context (Execute : Command W → list string → Input → ST W (result Said)) `{!CobraLaws Execute}.

Abbreviation root := (newRootCmd dt cl f format_time version GenCompletion).

(** What an invocation means: the function of the command with these options. *)
Definition effect (i : Invocation) (input : Input) : ST W (result Said) :=
  match i with
  | DoVersion => st_ret (Ok (Printed ["kubectl-hsm version: " +:+ version; "Compatible with: HSM Secrets Operator v1alpha1";
                                      "Plugin type: kubectl plugin"]))
  | DoCreate update o s =>
      saying (λ _, Written) (RunWithCommandName dt cl (sprint_v f) o s (if update then "update" else "create") input)
  | DoRenameKey o s oldKey newKey => saying (λ _, Written) (rename_Run dt cl o s oldKey newKey)
  | DoGet o s => saying Shown (get_Run dt cl f o s)
  | DoList o => saying Shown (list_Run dt cl o)
  | DoDelete o s => saying (λ _, Written) (delete_Run dt cl o s input)
  | DoRotatePin oldPin newPin dryRun namespace verbose =>
      saying (λ _, Written) (runRotatePin dt cl oldPin newPin dryRun namespace verbose input)
  | DoHealth o => saying Shown (health_Run dt cl format_time o)
  | DoDevices o => saying Shown (devices_Run dt cl o)
  | DoMirrorSync o => saying Shown (runMirrorSync dt cl o)
  | DoAuthStatus => saying Printed (auth_status_Run dt cl)
  | DoAuthClear => saying Printed (auth_clear_Run dt cl)
  | DoAuthConfig serviceAccount namespace => saying Printed (auth_config_Run dt cl serviceAccount namespace)
  | DoCompletion s => saying Shown (GenCompletion s)
  end.

Lemma runs_line path c name l pos run r input w :
  Reaches root path c name → flags_ok (Flags c) = true → Forall (setting_ok (Flags c)) l → stays_at c pos = true →
  RunE c = Some run → accepts (Args c) (ValidArgs c) pos = true →
  run (set_all (flag_defaults (Flags c)) ((λ x, (x.1.1, x.2)) <$> l)) pos name input = r →
  Execute root (line path l pos) input w = r w.
Proof.
  intros Hr Hok Hl Hs HR Ha <-. unfold line. apply (execute_runs root path c name _ _ pos run); try done. by apply settings_words.
Qed.

Ltac reaches := solve [eapply reaches_one; reflexivity | eapply reaches_more; [reflexivity..|]; eapply reaches_one; reflexivity].
Ltac settings :=
  repeat first [apply Forall_nil; exact I | apply Forall_cons; split | apply Forall_app; split
               | eapply each_ok; reflexivity | eapply str_ok; reflexivity | eapply boolean_ok; reflexivity].
Ltac understood := eapply runs_line; [reaches|reflexivity|settings|reflexivity..].

(** C38. Every command, with every choice of its options and arguments, can be given on the
    command line: whatever the words are that [words_of] makes of it, and whatever is in
    them, the plugin runs exactly that command with exactly these options. *)
Theorem plugin_understands (i : Invocation) (input : Input) (w : W) :
  Execute root (words_of i) input w = effect i input w.
Proof.
  destruct i as [|update o secretName|[]|[[]]|[[]]|[[]]| |[]|[[]]|[[]]| | | |[]]; try understood.
  assert (Forall (setting_ok create_flags) (create_settings o ++ each "from-literal" (cr_FromLiteral o) ++ each "from-file" (cr_FromFile o)))
    by settings.
  destruct update; (eapply runs_line; [reaches|reflexivity|done|reflexivity..|]); cbv beta iota; by rewrite create_options_set.
Qed.

(** ** The command lines of the documentation *)

(** A command line that the parser reads. *)
Lemma runs_parsed path c name ws s pos run r input w :
  Reaches root path c name → flags_ok (Flags c) = true → parse (Flags c) ws = Some (s, pos) → stays_at c pos = true →
  RunE c = Some run → accepts (Args c) (ValidArgs c) pos = true → run (set_all (flag_defaults (Flags c)) s) pos name input = r →
  Execute root (path ++ ws) input w = r w.
Proof.
  intros Hr Hok Hp Hs HR Ha <-. apply (execute_runs root path c name _ _ pos run); try done. by apply parse_sound.
Qed.

(** The examples of the help texts and of kubectl-hsm/README.md, with what they ask for. *)
Definition text_options : CommonOptions := mkCommonOptions "" "text" false.
Definition documented : list (list string * list string * Invocation) := [
  (["version"], [], DoVersion);
  (["create"], ["database-creds"; "--interactive"], DoCreate false (mkCreateOptions text_options [] [] true false false false) "database-creds");
  (["create"], ["database-creds"; "--from-literal"; "username=admin"; "--from-literal"; "password=secret123"],
     DoCreate false (mkCreateOptions text_options ["username=admin"; "password=secret123"] [] false false false false) "database-creds");
  (["create"], ["my-secret"; "--from-literal=password=secret123"],
     DoCreate false (mkCreateOptions text_options ["password=secret123"] [] false false false false) "my-secret");
  (["create"], ["database-creds"; "--from-literal"; "api_key=xyz123"; "--replace"],
     DoCreate false (mkCreateOptions text_options ["api_key=xyz123"] [] false true false false) "database-creds");
  (["create"], ["tls-cert"; "--from-file"; "cert=server.crt"; "--from-file"; "key=server.key"],
     DoCreate false (mkCreateOptions text_options [] ["cert=server.crt"; "key=server.key"] false false false false) "tls-cert");
  (["create"], ["app-config"; "--from-file"; ".env"],
     DoCreate false (mkCreateOptions text_options [] [".env"] false false false false) "app-config");
  (["update"], ["api-config"; "--from-literal"; "timeout=30"],
     DoCreate true (mkCreateOptions text_options ["timeout=30"] [] false false false false) "api-config");
  (["rename-key"], ["api-config"; "old_api_key"; "api_key"; "-n"; "production"],
     DoRenameKey (mkCommonOptions "production" "text" false) "api-config" "old_api_key" "api_key");
  (["get"], ["database-creds"], DoGet (mkGetOptions text_options "") "database-creds");
  (["get"], ["database-creds"; "--key"; "password"; "-o"; "json"],
     DoGet (mkGetOptions (mkCommonOptions "" "json" false) "password") "database-creds");
  (["list"], ["-n"; "hsm-secrets-operator-system"],
     DoList (mkListOptions (mkCommonOptions "hsm-secrets-operator-system" "text" false) false false));
  (["list"], ["--all-namespaces"], DoList (mkListOptions text_options true false));
  (["delete"], ["database-creds"; "--key"; "password"],
     DoDelete (mkDeleteOptions (mkCommonOptions "" "" false) "password" false) "database-creds");
  (["delete"], ["old-credentials"; "--force"], DoDelete (mkDeleteOptions (mkCommonOptions "" "" false) "" true) "old-credentials");
  (["rotate-pin"], [], DoRotatePin "" "" false "" false);
  (["rotate-pin"], ["--old-pin=123456"; "--new-pin=654321"], DoRotatePin "123456" "654321" false "" false);
  (["rotate-pin"], ["--namespace=production"], DoRotatePin "" "" false "production" false);
  (["health"], ["-o"; "json"], DoHealth (mkCommonOptions "" "json" false));
  (["devices"], ["--detailed"], DoDevices (mkDevicesOptions text_options true));
  (["mirror"; "sync"], ["--force"], DoMirrorSync (mkMirrorOptions (mkCommonOptions "" "" false) true));
  (["auth"; "clear"], [], DoAuthClear);
  (["auth"; "config"], ["--service-account=my-sa"; "--namespace=my-ns"], DoAuthConfig "my-sa" "my-ns");
  (["completion"; "bash"], [], DoCompletion bash);
  (["completion"; "zsh"], [], DoCompletion zsh);
  (["completion"], ["fish"], DoCompletion fish)].

Lemma documented_understood : Forall (λ '(path, ws, i), ∀ input w, Execute root (path ++ ws) input w = effect i input w) documented.
Proof.
  repeat apply Forall_cons_2; [intros input w; (eapply runs_parsed; [reaches|reflexivity|vm_compute; reflexivity|reflexivity..])..|].
  by apply Forall_nil_2.
Qed.

(** The import of JSON files that README.md documents does not exist: an error, and nothing is done. *)
Lemma json_file_refused file secretName input w :
  plain secretName = true → ∃ err, Execute root ["create"; secretName; set_flag "from-json-file" file] input w = (Err err, w).
Proof.
  intros Hp. apply (execute_misspelt root ["create"] (NewCreateCmd dt cl f) "create"); [reaches|reflexivity|reflexivity|].
  apply (misspelt_later _ [secretName] [] [secretName]); [by constructor|]. by apply misspelt_name.
Qed.

(** The wrong number of arguments is an error as well; that of rotate-pin does not matter. *)
Lemma get_needs_one_name pos input w : length pos ≠ 1%nat → ∃ err, Execute root ("get" :: "--" :: pos) input w = (Err err, w).
Proof.
  intros Hl. eapply (execute_wrong_args root ["get"] (NewGetCmd dt cl f) "get"); [reaches|reflexivity|apply words_rest| |reflexivity|].
  - by destruct pos.
  - by apply bool_decide_eq_false_2.
Qed.
Lemma rotate_pin_ignores_arguments pos input w :
  Execute root ("rotate-pin" :: "--" :: pos) input w = effect (DoRotatePin "" "" false "" false) input w.
Proof.
  eapply (runs_parsed ["rotate-pin"] _ _ ("--" :: pos)); [reaches|reflexivity|reflexivity|by destruct pos|reflexivity..].
Qed.

(** A command misspelt is an error if it is one of the root, but a subcommand misspelt only
    prints the help of its group, and the plugin exits successfully. *)
Lemma misspelt_command_fails word ws input w :
  plain word = true → word ∉ ["help"; "completion"; "__complete"; "__completeNoDesc"] → find_command word (Commands root) = None →
  ∃ err, main dt cl f format_time version GenCompletion Execute (word :: ws) input w = (["Error: " +:+ error_string err], 1, w).
Proof.
  intros Hp Hn Hf. destruct (execute_unknown root word ws input w) as [err E]; try done; try set_solver.
  exists err. unfold main. by rewrite (st_bind_eq _ _ _ _ _ E).
Qed.
Lemma misspelt_subcommand_succeeds group word input w :
  group ∈ ["mirror"; "auth"] → plain word = true → word ∉ ["sync"; "status"; "clear"; "config"] →
  main dt cl f format_time version GenCompletion Execute [group; word] input w = ([], 0, w).
Proof.
  intros Hg Hp Hn. assert (∃ help, Execute root [group; word] input w = (Ok (Shown help), w)) as [help E].
  { assert (Words [] [word] [] [word]) by (apply (words_item [] [word] [] [word] [] [] []); constructor; done).
    set_unfold in Hg. destruct Hg as [->|[->|[]]].
    - apply (execute_helps root ["mirror"] (NewMirrorCmd dt cl) "mirror" [word] [] [word]); try done; [reaches|].
      unfold stays_at. by rewrite (find_other word _ _ Hn) by (repeat constructor).
    - apply (execute_helps root ["auth"] (NewAuthCmd dt cl) "auth" [word] [] [word]); try done; [reaches|].
      unfold stays_at. by rewrite (find_other word _ _ Hn) by (repeat constructor). }
  unfold main. by rewrite (st_bind_eq _ _ _ _ _ E).
Qed.
End Plugin.

(** ** Witness *)
Module PluginWitness.
#[local] Existing Instance listed_order.
#[local] Instance no_json T : Json T :=
  {| json_Marshal _ := Err (errorf "not used"); json_Unmarshal _ := Err (errorf "not used") |}.
#[local] Instance no_encoded T : Encoded T :=
  {| json_MarshalIndent _ := Err (errorf "not used"); yaml_Marshal _ := Err (errorf "not used") |}.

(** A machine without a cluster that remembers what files were read. *)
Definition dt : Desktop (list string) := mkDesktop
  (λ _ _, Ok ()) (λ _, st_ret (Err (errorf "no network"))) (st_ret 0) (st_ret (Ok "/home/u")) (λ file w, (Ok "A=1", w ++ [file]))
  (λ _, st_ret (Ok ())) (λ _ _, st_ret (Ok ())) (λ _, st_ret (Ok ())) (str_join "/") (λ _ _, st_ret (Err (errorf "not used")))
  (st_ret (Ok ())) (st_ret (Err (errorf "not used"))).
Definition cl : Cluster (list string) := mkCluster
  (λ _, "") (st_ret (Err (errorf "not in a cluster"))) (λ _, st_ret (Ok ())) (st_ret (Err (errorf "no cluster")))
  (λ _, st_ret (Ok [])) (λ _ _, st_ret (Err (errorf "not used"))) (λ _, st_ret (Ok [])) (λ _ _ _ _, st_ret (Ok ())) (st_ret None).
Definition fmt : Fmt := mkFmt (λ _, "value") (λ _, "value") (λ _, "type") errorf.
Definition completion (s : Shell) : ST (list string) (result (list Output)) := st_ret (Ok [Line (shell_name s)]).
Abbreviation root := (newRootCmd dt cl fmt (λ t, t) "dev" completion).

(** Creating a secret whose name looks like a flag, from two files. *)
Definition wanted : Invocation :=
  DoCreate false (mkCreateOptions (mkCommonOptions "prod" "text" true) [] ["--a"; "k=b=c"] false true false false) "--replace=false".
Example plugin_understands_witness :
  words_of wanted =
    ["create"; "--namespace=prod"; "--output=text"; "--verbose=true"; "--interactive=false"; "--replace=true"; "--dry-run=false";
     "--diff=false"; "--from-file=--a"; "--from-file=k=b=c"; "--"; "--replace=false"] ∧
  (interpret root (words_of wanted) [] []).2 = ["--a"; "b=c"] ∧
  interpret root (words_of wanted) [] [] = effect dt cl fmt (λ t, t) "dev" completion wanted [] [].
Proof.
  split; [vm_compute; reflexivity|]. split; [vm_compute; reflexivity|].
  exact (plugin_understands dt cl fmt (λ t, t) "dev" completion interpret wanted [] []).
Defined.

(** The documented JSON import, and a subcommand that does not exist. *)
Example documented_failures :
  (interpret root ["create"; "my-secrets"; "--from-json-file=secrets.json"] [] []).2 = [] ∧
  is_Ok (interpret root ["create"; "my-secrets"; "--from-json-file=secrets.json"] [] []).1 = false ∧
  main dt cl fmt (λ t, t) "dev" completion interpret ["mirror"; "snyc"] [] [] = ([], 0, []) ∧
  (main dt cl fmt (λ t, t) "dev" completion interpret ["lst"] [] []).1.2 = 1.
Proof. split_and!; vm_compute; reflexivity. Qed.
End PluginWitness.
