(* ===== verification/TestProgram.v ===== *)
(** * cmd/test/main.go: the command line tool for trying a token

    The tool starts the daemon, initializes the client, runs one operation and ends: by
    returning from [main], which runs the deferred calls, or by leaving the process in the
    middle, which does not.  The daemon, the client, the console and the files are
    arguments. *)

From Stdlib Require Import Ascii.
From S2P Require Import Prelude GoStd Hsm MockClient EnvConfig PinProvider Provision.

Local Open Scope go_scope.

(** ** How a program ends *)

(** [os.Exit] and [log.Fatal] end the process where they are called. *)
Inductive Ending :=
  | Returned
  | Exit (status : Z)
  | Fatal (message : string).
#[global] Instance Ending_eq_dec : EqDecision Ending.
Proof. solve_decision. Defined.
Definition process_status (e : Ending) : Z := match e with Returned => 0 | Exit status => status | Fatal _ => 1 end.

(** [defer d] around the rest of the function: it runs if the rest returns. *)
Definition deferring {W} (d rest : ST W Ending) : ST W Ending :=
  let* e := rest in match e with Returned => d | _ => st_ret e end.
(** [if err := m; err != nil { log.Fatalf(format, err) }] *)
Definition or_fatal {W A} (m : ST W (result A)) (message : error → string) (k : A → ST W Ending) : ST W Ending :=
  let* r := m in match r with Ok a => k a | Err err => st_ret (Fatal (message err)) end.

(** ** The arguments *)

(** The first sign ends the key; without one there is no key.  A byte that is the sign is
    never part of a longer character, so going through the bytes is going through the
    characters. *)
(* [cmd/test/main.go:110-117 main] *)
Fixpoint key_value (before rest : string) : string * string :=
  match rest with
  | EmptyString => ("", "")
  | String c rest' => if bool_decide (c = "="%char) then (before, rest') else key_value (before +:+ String c "") rest'
  end.

(** The pairs, or the first argument that is none. *)
(* [cmd/test/main.go:109-123 main] *)
Fixpoint parse_pairs (data : SecretData) (args : list string) : SecretData + string :=
  match args with
  | [] => inl data
  | arg :: rest =>
      let '(key, value) := key_value "" arg in
      if bool_decide (key = "") then inr arg else parse_pairs (<[key := value]> data) rest
  end.

(* [cmd/test/main.go:105-127 main] *)
Definition pairs_data (args : list string) : SecretData + string :=
  if bool_decide (args = []) then inl {["data" := ""]} else parse_pairs ∅ args.

(* [cmd/test/main.go:191-205] *)
Definition usage : list string :=
  ["HSM Test Utility"; ""; "Usage:";
   "  test create <pin> <secret-name> [key1=value1] [key2=value2] ...";
   "  test read <pin> <secret-name>";
   "  test delete <pin> <secret-name>";
   "  test list <pin>"; "";
   "Examples:";
   "  test create 648219 my-secret username=admin password=secret123";
   "  test read 648219 my-secret";
   "  test delete 648219 my-secret";
   "  test list 648219"].

(* [cmd/test/main.go:57-62 main] *)
Definition libraryPaths : list string :=
  ["/usr/lib/x86_64-linux-gnu/opensc-pkcs11.so"; "/usr/lib/x86_64-linux-gnu/pkcs11/opensc-pkcs11.so";
   "/usr/lib64/pkcs11/opensc-pkcs11.so"; "/usr/lib/pkcs11/opensc-pkcs11.so"].
(* [cmd/test/main.go:80-85 main] *)
Definition test_config {W} (libraryPath pin : string) : Config W :=
  mkConfig libraryPath 0 true "" 0 0 0 (Some (static_provider (NewStaticPINProvider pin))).

Section Program.
Context {W : Type} `{MapOrder} (dm : Daemon W) (client : Client W) (env : Environment).
Context (os_Stat : string → ST W (result unit)) (Println : string → ST W unit).

Definition print_lines (lines : list string) : ST W unit := st_fold (λ _ line, Println line) lines ().
(* [cmd/test/main.go:191-205] *)
Definition printUsage : ST W unit := print_lines usage.
(** [fmt.Println(message); os.Exit(1)] *)
Definition refuse (message : string) : ST W Ending := do! Println message in st_ret (Exit 1).

(* [cmd/test/main.go:64-70 main] *)
Fixpoint find_library (paths : list string) : ST W (option string) :=
  match paths with
  | [] => st_ret None
  | path :: rest =>
      let* r := os_Stat path in match r with Ok _ => st_ret (Some path) | Err _ => find_library rest end
  end.
(* [cmd/test/main.go:53-74 main] *)
Definition library : ST W (option string) :=
  if bool_decide (Getenv env "PKCS11_LIBRARY" = "") then find_library libraryPaths
  else st_ret (Some (Getenv env "PKCS11_LIBRARY")).

(* [cmd/test/main.go:99-135 main] *)
Definition create_secret (args : list string) : ST W Ending :=
  match args with
  | [] => refuse "Usage: test create <pin> <secret-name> [key1=value1] [key2=value2] ..."
  | secretName :: pairs =>
      match pairs_data pairs with
      | inr arg => refuse ("Invalid argument: " +:+ arg +:+ " (expected key=value)")
      | inl data =>
          do! Println ("Creating secret '" +:+ secretName +:+ "' with " +:+ go_itoa (Z.of_nat (size data)) +:+ " keys...") in
          or_fatal (c_WriteSecret client secretName data None) (λ err, "Failed to write secret: " +:+ error_string err) (λ _,
          do! Println "✅ Successfully created secret!" in st_ret Returned)
      end
  end.

(* [cmd/test/main.go:150-153 main] *)
Definition show_secret (secretName : string) (data : SecretData) : list string :=
  ("✅ Secret '" +:+ secretName +:+ "' has " +:+ go_itoa (Z.of_nat (size data)) +:+ " keys:") ::
  ((λ '(key, value), "  " +:+ key +:+ ": " +:+ value) <$> range data).
(* [cmd/test/main.go:137-153 main] *)
Definition read_secret (args : list string) : ST W Ending :=
  match args with
  | [] => refuse "Usage: test read <pin> <secret-name>"
  | secretName :: _ =>
      do! Println ("Reading secret '" +:+ secretName +:+ "'...") in
      or_fatal (c_ReadSecret client secretName) (λ err, "Failed to read secret: " +:+ error_string err) (λ data,
      do! print_lines (show_secret secretName data) in st_ret Returned)
  end.

(* [cmd/test/main.go:155-166 main] *)
Definition delete_secret (args : list string) : ST W Ending :=
  match args with
  | [] => refuse "Usage: test delete <pin> <secret-name>"
  | secretName :: _ =>
      do! Println ("Deleting secret '" +:+ secretName +:+ "'...") in
      or_fatal (c_DeleteSecret client secretName) (λ err, "Failed to delete secret: " +:+ error_string err) (λ _,
      do! Println "✅ Successfully deleted secret!" in st_ret Returned)
  end.

(* [cmd/test/main.go:175-182 main] *)
Definition show_list (secrets : list string) : list string :=
  if bool_decide (secrets = []) then ["No secrets found"]
  else ("Found " +:+ go_itoa (Z.of_nat (length secrets)) +:+ " secrets:") :: ((λ secret, "  - " +:+ secret) <$> secrets).
(* [cmd/test/main.go:168-182 main] *)
Definition list_secrets : ST W Ending :=
  do! Println "Listing all secrets..." in
  or_fatal (c_ListSecrets client "") (λ err, "Failed to list secrets: " +:+ error_string err) (λ secrets,
  do! print_lines (show_list secrets) in st_ret Returned).

(** [args] are the arguments after the PIN. *)
(* [cmd/test/main.go:98-188 main] *)
Definition execute (operation : string) (args : list string) : ST W Ending :=
  if bool_decide (operation = "create") || bool_decide (operation = "write") then create_secret args
  else if bool_decide (operation = "read") || bool_decide (operation = "get") then read_secret args
  else if bool_decide (operation = "delete") || bool_decide (operation = "remove") then delete_secret args
  else if bool_decide (operation = "list") then list_secrets
  else do! Println ("Unknown operation: " +:+ operation) in do! printUsage in st_ret (Exit 1).

(* [cmd/test/main.go:91-95 main] *)
Definition close_client : ST W Ending :=
  or_fatal (c_Close client) (λ _, "Failed to close client") (λ _, st_ret Returned).
(** The error of [Stop] is only logged. *)
(* [cmd/test/main.go:34-38 main] *)
Definition stop_daemon (pcscdMgr : PCSCDManager) : ST W Ending := do! pcscd_Stop dm pcscdMgr in st_ret Returned.
(** What the first SIGINT or SIGTERM does, at whatever point of [main] it arrives. *)
(* [cmd/test/main.go:44-51 main] *)
Definition on_signal (pcscdMgr : PCSCDManager) : ST W Ending := do! pcscd_Stop dm pcscdMgr in st_ret (Exit 0).

(** With the daemon running. *)
(* [cmd/test/main.go:53-188 main] *)
Definition with_daemon (operation pin : string) (args : list string) : ST W Ending :=
  let* libraryPath := library in
  match libraryPath with
  | None => st_ret (Fatal "Could not find PKCS#11 library. Set PKCS11_LIBRARY environment variable.")
  | Some libraryPath =>
      or_fatal (c_Initialize client (test_config libraryPath pin)) (λ err, "Failed to initialize: " +:+ error_string err) (λ _,
      deferring close_client (execute operation args))
  end.

(** The arguments without the program's name. *)
(* [cmd/test/main.go:16-189] *)
Definition main (args : list string) : ST W Ending :=
  match args with
  | operation :: pin :: args =>
      let* '(r, pcscdMgr) := pcscd_Start dm (NewPCSCDManager true) in
      match r with
      | Err err => st_ret (Fatal ("Failed to start pcscd: " +:+ error_string err))
      | Ok _ => deferring (stop_daemon pcscdMgr) (with_daemon operation pin args)
      end
  | _ => do! printUsage in st_ret (Exit 1)
  end.
End Program.

(** ** The pairs *)
Fixpoint equal_free (s : string) : bool :=
  match s with EmptyString => true | String c s' => negb (bool_decide (c = "="%char)) && equal_free s' end.
Definition key_ok (key : string) : Prop := key ≠ "" ∧ equal_free key = true.
Definition pair_arg (kv : string * string) : string := kv.1 +:+ "=" +:+ kv.2.

Lemma key_value_pair before k v : equal_free k = true → key_value before (k +:+ "=" +:+ v) = (before +:+ k, v).
Proof.
  revert before. induction k as [|c k IH]; intros before; simpl.
  - intros _. by rewrite str_app_nil_r.
  - rewrite andb_true_iff, negb_true_iff, bool_decide_eq_false. intros [Hc Hk].
    rewrite bool_decide_eq_false_2, IH by done. by rewrite str_app_assoc.
Qed.
Lemma parse_pairs_print data pairs :
  Forall key_ok pairs.*1 → parse_pairs data (pair_arg <$> pairs) = inl (fold_left (λ d kv, <[kv.1 := kv.2]> d) pairs data).
Proof.
  revert data. induction pairs as [|[k v] pairs IH]; intros data; [done|]. cbn.
  intros [[Hk Hf] Hp]%Forall_cons. unfold pair_arg at 1. cbn [fst snd].
  rewrite key_value_pair by done. cbn. rewrite bool_decide_eq_false_2 by done. by apply IH.
Qed.
Lemma fold_insert_pairs (data : gmap string string) pairs :
  NoDup pairs.*1 → fold_left (λ d kv, <[kv.1 := kv.2]> d) pairs data = list_to_map pairs ∪ data.
Proof.
  revert data. induction pairs as [|[k v] pairs IH]; intros data; cbn; [by rewrite (left_id_L ∅ (∪))|].
  intros [Hk Hn]%NoDup_cons. rewrite IH by done. rewrite <-insert_union_r; [by rewrite insert_union_l|].
  by apply not_elem_of_list_to_map_1.
Qed.

(** Every secret with keys of the right form can be created: its pairs, in any order, are
    understood as it; without pairs the tool means one empty value. *)
Lemma pairs_data_print (data : SecretData) pairs :
  data ≠ ∅ → map_Forall (λ k _, key_ok k) data → pairs ≡ₚ map_to_list data → pairs_data (pair_arg <$> pairs) = inl data.
Proof.
  intros Hd Hk Hp. assert (pairs ≠ []) as Hn. { intros ->. apply Hd. apply map_to_list_empty_iff, Permutation_nil_r. by symmetry. }
  unfold pairs_data. rewrite bool_decide_eq_false_2 by (by destruct pairs).
  rewrite parse_pairs_print, fold_insert_pairs, (right_id_L ∅ (∪)).
  - f_equal. etrans; [|apply list_to_map_to_list]. apply list_to_map_proper; [|done].
    rewrite Hp. apply NoDup_fst_map_to_list.
  - rewrite Hp. apply NoDup_fst_map_to_list.
  - rewrite Hp. apply Forall_fmap, Forall_forall. intros [k v] Hin%elem_of_map_to_list. by apply (Hk k v).
Qed.

(** ** What the tool does *)

(** What has been printed. *)
Class Console (W : Type) := console : W → list string.

Section Contract.
Context {W : Type} `{!StoreView W, !Console W}.
(** Neither the devices nor the console changed. *)
Definition silent (w w' : W) : Prop := unchanged w w' ∧ console w' = console w.
Definition same_console (w w' : W) : Prop := console w' = console w.
#[global] Instance silent_PreOrder : PreOrder silent.
Proof. split; [by intros w|]. intros w1 w2 w3 [H1 E1] [H2 E2]. split; [by etrans|congruence]. Qed.
#[global] Instance same_console_PreOrder : PreOrder same_console.
Proof. split; [by intros w|]. intros w1 w2 w3. unfold same_console. congruence. Qed.

(** The client is one of the device [s], the console shows what is printed, and what the
    tool does besides concerns neither. *)
Class ToolLaws (s : string) (dm : Daemon W) (client : Client W) (os_Stat : string → ST W (result unit))
    (Println : string → ST W unit) : Prop := {
  tool_client :: ClientLaws s client;
  Println_unchanged line : preserves unchanged (Println line);
  Println_shows line w : console (Println line w).2 = console w ++ [line];
  Initialize_silent cfg : preserves silent (c_Initialize client cfg);
  Close_same : preserves same_console (c_Close client);
  Read_same p : preserves same_console (c_ReadSecret client p);
  Write_same p d md : preserves same_console (c_WriteSecret client p d md);
  Stat_silent path : preserves silent (os_Stat path);
  MkdirAll_silent dir : preserves silent (dm_MkdirAll dm dir);
  Remove_silent file : preserves silent (dm_Remove dm file);
  DStat_silent file : preserves silent (dm_Stat dm file);
  Start_silent cmd args : preserves silent (dm_Start dm cmd args);
  Exited_silent : preserves silent (dm_Exited dm);
  Terminate_silent : preserves silent (dm_Terminate dm);
  Kill_silent : preserves silent (dm_Kill dm);
  Wait_silent : preserves silent (dm_Wait dm);
}.
End Contract.

Section Tool.
Context {W : Type} `{!StoreView W, !Console W, MapOrder}.
Context (s : string) (dm : Daemon W) (client : Client W) (env : Environment).
Context (os_Stat : string → ST W (result unit)) (Println : string → ST W unit).
Context `{!ToolLaws s dm client os_Stat Println}.
#[local] Abbreviation main := (main dm client env os_Stat Println).
#[local] Abbreviation execute := (execute client Println).

#[local] Hint Resolve Initialize_silent Stat_silent MkdirAll_silent Remove_silent DStat_silent Start_silent
  Exited_silent Terminate_silent Kill_silent Wait_silent Println_unchanged : go.
#[local] Ltac quiet := repeat (case_match || apply silent_PreOrder || (first [apply preserves_ret | apply preserves_try | apply preserves_bind]; intros) || eauto with go).

Lemma or_fatal_preserves {A} (R : relation W) `{!PreOrder R} (m : ST W (result A)) f k :
  preserves R m → (∀ a, preserves R (k a)) → preserves R (or_fatal m f k).
Proof. intros Hm Hk. apply preserves_bind; [done|done|]. intros [a|e]; [done|by apply preserves_ret]. Qed.
Lemma deferring_preserves (R : relation W) `{!PreOrder R} (d rest : ST W Ending) :
  preserves R d → preserves R rest → preserves R (deferring d rest).
Proof. intros Hd Hm. apply preserves_bind; [done|done|]. intros []; [done|by apply preserves_ret..]. Qed.

(** The daemon. *)
Lemma any_socket_silent paths : preserves silent (any_socket dm paths).
Proof. induction paths; cbn; quiet. Qed.
Lemma wait_attempts_silent n : preserves silent (wait_attempts dm n).
Proof. induction n; cbn; quiet. Qed.
Lemma Stop_silent p : preserves silent (pcscd_Stop dm p).
Proof. unfold pcscd_Stop. quiet. Qed.
Lemma waitForReady_silent : preserves silent (waitForReady dm).
Proof. apply wait_attempts_silent. Qed.
#[local] Hint Resolve waitForReady_silent Stop_silent : go.
#[local] Opaque waitForReady.
Lemma Start_daemon_silent p : preserves silent (pcscd_Start dm p).
Proof.
  unfold pcscd_Start. destruct (pm_cmd p); [apply (preserves_ret silent)|].
  apply (preserves_bind silent); [|intros; quiet]. apply (preserves_fold silent). intros; quiet.
Qed.
Lemma library_silent : preserves silent (library env os_Stat).
Proof.
  unfold library. case_match; [|apply (preserves_ret silent)]. induction libraryPaths; cbn; quiet.
Qed.
#[local] Transparent waitForReady.

(** The console. *)
Lemma print_unchanged lines : preserves unchanged (print_lines Println lines).
Proof. apply (preserves_fold unchanged). intros. apply Println_unchanged. Qed.
Lemma print_lines_shows lines w : console (print_lines Println lines w).2 = console w ++ lines.
Proof.
  unfold print_lines. revert w. induction lines as [|line lines IH]; intros w; cbn; [by rewrite app_nil_r|].
  unfold st_bind. pose proof (Println_shows line w) as E. destruct (Println line w) as [[] w1]. cbn in E.
  by rewrite IH, E, <-app_assoc.
Qed.
Lemma refuse_unchanged message : preserves unchanged (refuse Println message).
Proof. apply (preserves_bind unchanged); [apply Println_unchanged|intros; apply (preserves_ret unchanged)]. Qed.

(** An operation: what it may change. *)
Lemma print_then {A} (R : relation W) {HRO : PreOrder R} line (k : ST W A) :
  (∀ w w', unchanged w w' → R w w') → preserves R k → preserves R (do! Println line in k).
Proof. intros HR Hk. apply (preserves_bind R); [|done]. intros w. by apply HR, Println_unchanged. Qed.
Lemma print_done (R : relation W) {HRO : PreOrder R} lines : (∀ w w', unchanged w w' → R w w') → preserves R (do! print_lines Println lines in st_ret Returned).
Proof. intros HR. apply (preserves_bind R); [intros w; by apply HR, print_unchanged|]. intros. apply (preserves_ret R). Qed.

Definition writes (operation : string) : bool :=
  bool_decide (operation ∈ ["create"; "write"; "delete"; "remove"]).
Lemma execute_reads operation args : writes operation = false → preserves unchanged (execute operation args).
Proof.
  unfold writes. rewrite bool_decide_eq_false. intros Hn. set_unfold in Hn. unfold TestProgram.execute.
  rewrite (bool_decide_eq_false_2 (operation = "create")), (bool_decide_eq_false_2 (operation = "write")),
    (bool_decide_eq_false_2 (operation = "delete")), (bool_decide_eq_false_2 (operation = "remove")) by tauto. cbn [orb].
  case_match; [|case_match].
  - destruct args as [|name args]; [apply refuse_unchanged|]. apply (print_then unchanged); [done|].
    apply (or_fatal_preserves unchanged); [intros w; apply (ReadSecret_unchanged (c := client))|].
    intros. by apply (print_done unchanged).
  - apply (print_then unchanged); [done|].
    apply (or_fatal_preserves unchanged); [intros w; apply (ListSecrets_unchanged (c := client))|].
    intros. by apply (print_done unchanged).
  - apply (print_then unchanged); [done|]. apply (preserves_bind unchanged); [apply print_unchanged|]. intros. apply (preserves_ret unchanged).
Qed.
Lemma execute_only operation name args : preserves (only_changed s name) (execute operation (name :: args)).
Proof.
  assert (∀ w w', unchanged w w' → only_changed s name w w') as HR by (intros; by apply unchanged_only).
  destruct (writes operation) eqn:Ew; [|intros w; by apply HR, execute_reads].
  unfold TestProgram.execute. case_match; [|case_match; [intros w; apply HR|case_match; [|intros w; apply HR; case_match]]].
  - cbn [create_secret]. destruct (pairs_data args) as [data|arg]; [|intros w; apply HR, refuse_unchanged].
    apply (print_then (only_changed s name)); [done|]. apply (or_fatal_preserves (only_changed s name)); [intros w; apply (WriteSecret_only (c := client))|].
    intros. apply (print_then (only_changed s name)); [done|apply (preserves_ret (only_changed s name))].
  - apply (print_then unchanged); [done|].
    apply (or_fatal_preserves unchanged); [intros v; apply (ReadSecret_unchanged (c := client))|].
    intros. by apply (print_done unchanged).
  - apply (print_then (only_changed s name)); [done|]. apply (or_fatal_preserves (only_changed s name)); [intros w; apply (DeleteSecret_only (c := client))|].
    intros. apply (print_then (only_changed s name)); [done|apply (preserves_ret (only_changed s name))].
  - apply (print_then unchanged); [done|].
    apply (or_fatal_preserves unchanged); [intros v; apply (ListSecrets_unchanged (c := client))|].
    intros. by apply (print_done unchanged).
  - apply (print_then unchanged); [done|]. apply (preserves_bind unchanged); [apply print_unchanged|]. intros. apply (preserves_ret unchanged).
Qed.

(** The rest of the program around it. *)
Lemma main_preserves (R : relation W) `{!PreOrder R} operation pin args :
  (∀ w w', unchanged w w' → R w w') → preserves R (execute operation args) → preserves R (main (operation :: pin :: args)).
Proof.
  intros HR He. assert (∀ A (m : ST W A), preserves silent m → preserves R m) as HS.
  { intros A m Hm w. apply HR, Hm. }
  cbn [TestProgram.main]. apply (preserves_bind R); [apply HS, Start_daemon_silent|]. intros [[[]|e] p]; [|apply (preserves_ret R)].
  apply (deferring_preserves R).
  { apply (preserves_bind R); [apply HS, Stop_silent|intros; apply (preserves_ret R)]. }
  unfold with_daemon. apply (preserves_bind R); [apply HS, library_silent|]. intros [path|]; [|apply (preserves_ret R)].
  apply (or_fatal_preserves R); [apply HS, Initialize_silent|]. intros _. apply (deferring_preserves R); [|done].
  apply (or_fatal_preserves R); [intros w; apply HR, (Close_unchanged (c := client))|]. intros. apply (preserves_ret R).
Qed.

(** Whatever the arguments and however the program ends, it changes at most the secret it
    is given, and nothing at all unless it is told to create or delete it. *)
Lemma tool_isolated operation pin name args :
  preserves (only_changed s name) (main (operation :: pin :: name :: args)) ∧
  (writes operation = false → preserves unchanged (main (operation :: pin :: name :: args))).
Proof.
  split; [|intros Hw]; apply (main_preserves _); try done.
  - intros. by apply unchanged_only.
  - apply execute_only.
  - by apply execute_reads.
Qed.

(** The exit status is 0 only when [main] returns, and 1 otherwise. *)
Definition honest (m : ST W Ending) : Prop := ∀ w, (m w).1 ≠ Returned → process_status (m w).1 = 1.
Lemma honest_ret e : process_status e = 1 ∨ e = Returned → honest (st_ret e).
Proof. intros He w. cbn. naive_solver. Qed.
Lemma honest_bind {A} (m : ST W A) (k : A → ST W Ending) : (∀ a, honest (k a)) → honest (st_bind m k).
Proof. intros Hk w. unfold st_bind. destruct (m w). apply Hk. Qed.
Lemma honest_or_fatal {A} (m : ST W (result A)) f k : (∀ a, honest (k a)) → honest (or_fatal m f k).
Proof. intros Hk. apply honest_bind. intros [a|e]; [done|]. apply honest_ret. by left. Qed.
Lemma honest_deferring d rest : honest d → honest rest → honest (deferring d rest).
Proof.
  intros Hd Hr w. unfold deferring, st_bind. specialize (Hr w). destruct (rest w) as [e w1]. cbn in Hr.
  destruct e; [apply Hd|cbn..]; naive_solver.
Qed.
#[local] Hint Resolve honest_bind honest_or_fatal honest_deferring : go.
#[local] Ltac honesty :=
  repeat (match goal with |- ∀ _, _ => intro end || case_match || (apply honest_ret; by auto) || apply honest_or_fatal || apply honest_deferring || apply honest_bind).
Lemma main_honest args : honest (main args).
Proof.
  destruct args as [|operation [|pin args]]; cbn [TestProgram.main]; [honesty..|].
  apply honest_bind. intros [[[]|e] p]; [|honesty]. apply honest_deferring; [unfold stop_daemon; honesty|].
  unfold with_daemon. apply honest_bind. intros [path|]; [|honesty]. apply honest_or_fatal. intros _.
  apply honest_deferring; [unfold close_client; honesty|].
  unfold TestProgram.execute, create_secret, read_secret, delete_secret, list_secrets, refuse. honesty.
Qed.
Lemma status_0 args w e w' : main args w = (e, w') → process_status e = 0 → e = Returned.
Proof.
  intros E H0. pose proof (main_honest args w) as Hh. rewrite E in Hh. cbn in Hh.
  destruct (decide (e = Returned)); [done|]. rewrite Hh in H0 by done. done.
Qed.

(** A run that succeeds is the operation with nothing before and after it that shows. *)
Lemma main_run operation pin args w e w' :
  main (operation :: pin :: args) w = (e, w') → process_status e = 0 →
  ∃ w1 w2, silent w w1 ∧ execute operation args w1 = (Returned, w2) ∧ silent w2 w'.
Proof.
  intros E H0. assert (e = Returned) as -> by (by eapply status_0). revert E. cbn [TestProgram.main].
  pose proof (Start_daemon_silent (NewPCSCDManager true) w) as S1. unfold st_bind at 1.
  destruct (pcscd_Start dm _ w) as [[[[]|e] p] w1]; [|done]. cbn in S1. unfold deferring, st_bind at 1.
  unfold with_daemon. pose proof (library_silent w1) as S2. unfold st_bind at 1. destruct (library env os_Stat w1) as [[path|] w2]; [|done].
  cbn in S2. unfold or_fatal at 1, st_bind at 1. pose proof (Initialize_silent (test_config path pin) w2) as S3.
  destruct (c_Initialize client _ w2) as [[[]|e] w3]; [|done]. cbn in S3. unfold deferring, st_bind at 1.
  destruct (execute operation args w3) as [[| |] w4] eqn:E4; [|done..].
  unfold close_client, or_fatal, st_bind at 1. pose proof (Close_unchanged (c := client) w4) as U5. pose proof (Close_same w4) as C5.
  destruct (c_Close client w4) as [[[]|e] w5]; [|done]. cbn in U5, C5. unfold stop_daemon, st_bind at 1.
  pose proof (Stop_silent p w5) as S6. unfold st_ret.
  destruct (pcscd_Stop dm p w5) as [r w6]. cbn in S6. intros [= <-].
  exists w3, w4. split; [transitivity w1; [done|by transitivity w2]|]. split; [done|]. transitivity w5; [by split|done].
Qed.

Lemma Println_run line w : ∃ w', Println line w = ((), w') ∧ unchanged w w' ∧ console w' = console w ++ [line].
Proof.
  pose proof (Println_unchanged line w). pose proof (Println_shows line w). destruct (Println line w) as [[] w']. eauto.
Qed.

(** A creation that ends with status 0 left the secret of its arguments on the device, if
    there are any and the device can tell it apart again. *)
Lemma created_is_stored operation pin name pairs w e w' :
  operation ∈ ["create"; "write"] → main (operation :: pin :: name :: pairs) w = (e, w') → process_status e = 0 →
  ∃ data, pairs_data pairs = inl data ∧ (storable name data → data ≠ ∅ → sec_at w' s name = Some data).
Proof.
  intros Ho E H0. destruct (main_run _ _ _ _ _ _ E H0) as (w1 & w2 & _ & Ex & [U2 _]). revert Ex.
  assert (execute operation (name :: pairs) = create_secret client Println (name :: pairs)) as ->
    by (set_unfold in Ho; destruct Ho as [->|[->|[]]]; reflexivity).
  cbn [create_secret]. unfold refuse. destruct (pairs_data pairs) as [data|arg]; [|by unfold st_bind; destruct (Println _ w1)].
  destruct (Println_run ("Creating secret '" +:+ name +:+ "' with " +:+ go_itoa (Z.of_nat (size data)) +:+ " keys...") w1) as (v1 & E1 & _).
  rewrite (st_bind_eq _ _ _ _ _ E1). unfold or_fatal, st_bind at 1.
  pose proof (WriteSecret_Ok (c := client) name data None v1) as Hw. destruct (c_WriteSecret client name data None v1) as [[[]|err] v2]; [|done].
  cbn in Hw. destruct (Println_run "✅ Successfully created secret!" v2) as (v3 & E3 & U3 & _).
  rewrite (st_bind_eq _ _ _ _ _ E3). intros [= ->]. exists data. split; [done|]. intros Hsto Hne.
  destruct (Hw Hsto (or_introl Hne) eq_refl) as [Hs _]. by rewrite (proj1 (U2 s name)), (proj1 (U3 s name)).
Qed.

(** A deletion that ends with status 0 left nothing. *)
Lemma deleted_is_gone operation pin name more w e w' :
  operation ∈ ["delete"; "remove"] → main (operation :: pin :: name :: more) w = (e, w') → process_status e = 0 →
  sec_at w' s name = None.
Proof.
  intros Ho E H0. destruct (main_run _ _ _ _ _ _ E H0) as (w1 & w2 & _ & Ex & [U2 _]). revert Ex.
  assert (execute operation (name :: more) = delete_secret client Println (name :: more)) as ->
    by (set_unfold in Ho; destruct Ho as [->|[->|[]]]; reflexivity).
  cbn [delete_secret]. destruct (Println_run ("Deleting secret '" +:+ name +:+ "'...") w1) as (v1 & E1 & _).
  rewrite (st_bind_eq _ _ _ _ _ E1). unfold or_fatal, st_bind at 1.
  destruct (c_DeleteSecret client name v1) as [[[]|err] v2] eqn:Ed; [|done]. destruct (DeleteSecret_run s client _ _ _ _ _ Ed) as [_ Hd].
  destruct (Println_run "✅ Successfully deleted secret!" v2) as (v3 & E3 & U3 & _).
  rewrite (st_bind_eq _ _ _ _ _ E3). intros [= ->]. by rewrite (proj1 (U2 s name)), (proj1 (U3 s name)), Hd.
Qed.

(** A reading that ends with status 0 printed what the device held. *)
Lemma read_shows operation pin name more w e w' data :
  operation ∈ ["read"; "get"] → main (operation :: pin :: name :: more) w = (e, w') → process_status e = 0 →
  sec_at w s name = Some data →
  console w' = console w ++ ("Reading secret '" +:+ name +:+ "'...") :: show_secret name data.
Proof.
  intros Ho E H0 Hs. destruct (main_run _ _ _ _ _ _ E H0) as (w1 & w2 & [U1 C1] & Ex & [_ C2]). revert Ex.
  assert (execute operation (name :: more) = read_secret client Println (name :: more)) as ->
    by (set_unfold in Ho; destruct Ho as [->|[->|[]]]; reflexivity).
  cbn [read_secret]. destruct (Println_run ("Reading secret '" +:+ name +:+ "'...") w1) as (v1 & E1 & U2 & C3).
  rewrite (st_bind_eq _ _ _ _ _ E1). unfold or_fatal, st_bind at 1.
  pose proof (ReadSecret_Ok (c := client) name v1) as Hr. pose proof (Read_same name v1) as C4.
  destruct (c_ReadSecret client name v1) as [[d|err] v2]; [|done]. cbn in Hr, C4.
  assert (d = data) as ->. { specialize (Hr d eq_refl). rewrite (proj1 (U2 s name)), (proj1 (U1 s name)) in Hr. congruence. }
  pose proof (print_lines_shows (show_secret name data) v2) as C5. unfold st_bind.
  destruct (print_lines Println (show_secret name data) v2) as [[] v3]. cbn [snd] in C5. intros [= <-].
  rewrite C2, C5, C4, C3, C1. by rewrite <-app_assoc.
Qed.

(** Created in one run and read in another, whatever the PINs: what is printed is what was
    given on the command line. *)
Lemma create_then_read create read pin pin' name data pairs w e1 w1 e2 w2 :
  create ∈ ["create"; "write"] → read ∈ ["read"; "get"] →
  data ≠ ∅ → map_Forall (λ k _, key_ok k) data → storable name data → pairs ≡ₚ map_to_list data →
  main (create :: pin :: name :: (pair_arg <$> pairs)) w = (e1, w1) → process_status e1 = 0 →
  main [read; pin'; name] w1 = (e2, w2) → process_status e2 = 0 →
  console w2 = console w1 ++ ("Reading secret '" +:+ name +:+ "'...") :: show_secret name data.
Proof.
  intros Hc Hr Hd Hk Hsto Hp E1 H1 E2 H2. destruct (created_is_stored _ _ _ _ _ _ _ Hc E1 H1) as (d & Hpd & Hs).
  rewrite pairs_data_print with (data := data) in Hpd by done. injection Hpd as <-. eapply read_shows; [done..|]. by apply Hs.
Qed.

(** Once the daemon runs, every failure ends the program without stopping it: the devices'
    session and the daemon are left as they are. *)
Lemma failure_leaves_daemon operation pin args w p w1 e w' :
  pcscd_Start dm (NewPCSCDManager true) w = ((Ok (), p), w1) →
  with_daemon client env os_Stat Println operation pin args w1 = (e, w') → e ≠ Returned →
  main (operation :: pin :: args) w = (e, w').
Proof.
  intros E1 E2 He. cbn [TestProgram.main]. rewrite (st_bind_eq _ _ _ _ _ E1). unfold deferring.
  rewrite (st_bind_eq _ _ _ _ _ E2). by destruct e.
Qed.
End Tool.

(** ** A session *)
Module Session.
#[local] Existing Instance listed_order.
(** The console, whether the daemon runs, and the devices. *)
Definition World : Type := (list string * bool) * Fleet.
#[global] Instance shown : Console World := λ w, w.1.1.
Definition Println (line : string) : ST World unit := λ w, ((), ((w.1.1 ++ [line], w.1.2), w.2)).
Definition set_running (b : bool) : ST World (result unit) := λ w, (Ok (), ((w.1.1, b), w.2)).
Definition daemon : Daemon World := mkDaemon (λ _, st_ret (Ok ())) (λ _, st_ret (Ok ())) (λ _, false) (λ _, st_ret true)
  (λ _ _, set_running true) (st_ret false) (set_running false) (set_running false) (st_ret (Some (Ok ()))).
Definition os_Stat (path : string) : ST World (result unit) :=
  st_ret (if bool_decide (path = "/usr/lib64/pkcs11/opensc-pkcs11.so") then Ok () else Err (errorf "no such file")).
Definition env : Environment := mkEnvironment (λ _, "") (Ok "") (λ _, Err (errorf "no such file")).
Definition connect : ST World (result unit) := λ w,
  let m := fleet_get "A" w.2 in
  (Ok (), (w.1, fleet_put "A" (mkMock true (mc_tokenLost m) (mc_secrets m) (mc_metadata m) (mc_config m)) w.2)).
Definition client : Client World :=
  let c := beside (mock_of "A") in
  mkClient (λ _, connect) (c_Close c) (c_GetInfo c) (c_ReadSecret c) (c_WriteSecret c) (c_ReadMetadata c) (c_DeleteSecret c)
    (c_DeleteSecretKey c) (c_ListSecrets c) (c_GetChecksum c) (c_IsConnected c) (c_ChangePIN c).

#[global] Instance client_laws : ClientLaws "A" client.
Proof. destruct (beside_laws (U := list string * bool) "A" (mock_of "A") (mock_laws "A")). by split. Qed.
Lemma beside_same {A} (m : ST Fleet A) : preserves same_console (lift_st snd (λ v (x : World), (x.1, v)) m).
Proof. intros w. unfold same_console, console, shown, lift_st. cbn. by destruct (m w.2). Qed.
Lemma connect_silent : preserves silent connect.
Proof.
  intros w. split; [|done]. intros t p. unfold connect. cbn [fst snd]. cbn [sec_at md_at snd_view snd].
  rewrite fleet_sec_put, fleet_md_put. destruct (decide ("A" = t)) as [<-|]; [|done]. by rewrite fleet_sec, fleet_md.
Qed.
#[global] Instance tool_laws : ToolLaws "A" daemon client os_Stat Println.
Proof. split; try apply _; try done; intros; [apply connect_silent|apply beside_same..]. Qed.

Definition run (args : list string) (w : World) : Ending * World :=
  main daemon client env os_Stat Println args w.
Definition w0 : World := (([], false), {["A" := Mock.NewMockClient]}).
Definition created : World := (run ["create"; "648219"; "my-secret"; "username=admin"; "password=a=b"] w0).2.
Example session :
  (run ["create"; "648219"; "my-secret"; "username=admin"; "password=a=b"] w0).1 = Returned ∧
  sec_at created "A" "my-secret" = Some {["username" := "admin"; "password" := "a=b"]} ∧
  created.1.2 = false ∧
  (run ["create"; "648219"; "my-secret"; "=x"] w0).1 = Exit 1.
Proof. vm_compute. auto. Qed.
(** Reading what is not there leaves the daemon running; so does a misspelt operation. *)
Example daemon_left :
  (run ["read"; "648219"; "other"] created).2.1.2 = true ∧ (run ["raed"; "648219"; "my-secret"] created).2.1.2 = true.
Proof. vm_compute. auto. Qed.
Example created_then_read :
  console (run ["get"; "648219"; "my-secret"] created).2 =
  console created ++ "Reading secret 'my-secret'..." :: show_secret "my-secret" {["username" := "admin"; "password" := "a=b"]}.
Proof.
  eapply (create_then_read "A" daemon client env os_Stat Println "create" "get" "648219" "648219" "my-secret"
    {["username" := "admin"; "password" := "a=b"]} [("username", "admin"); ("password", "a=b")] w0 Returned created Returned
    (run ["get"; "648219"; "my-secret"] created).2).
  - set_solver.
  - set_solver.
  - done.
  - decide_goal.
  - exact I.
  - by vm_compute.
  - by vm_compute.
  - done.
  - by vm_compute.
  - done.
Qed.
End Session.
