(* ===== verification/PkcsStub.v ===== *)
(** * internal/hsm/pkcs11_stub.go: the build without cgo

    What takes the place of pkcs11_cgo.go in a build without cgo.  The client is the same;
    it never connects, so that an agent that requires hardware does not start. *)

From S2P Require Import Prelude GoStd Hsm EnvConfig PinProvider Pkcs11 Provision TestProgram.

Local Open Scope go_scope.

(** The types of the stub hold nothing. *)
(* [internal/hsm/pkcs11_stub.go:26-26 Session] *)
Definition stub_Session : Type := unit.
(* [internal/hsm/pkcs11_stub.go:27-27 ObjectHandle] *)
Definition stub_ObjectHandle : Type := unit.
Definition requires_cgo : error := errorf "PKCS#11 support requires CGO (set CGO_ENABLED=1 and rebuild)".

Section Stub.
Context {W : Type}.
(** A session that is never made. *)
(* [internal/hsm/pkcs11_stub.go:30-32 initializePKCS11] *)
Definition stub_initializePKCS11 {S} (_ : Config W) (_ : string) : ST W (result (S * Z)) := st_ret (Err requires_cgo).
(* [internal/hsm/pkcs11_stub.go:35-37 closePKCS11] *)
Definition stub_closePKCS11 (_ : option stub_Session) : ST W (result unit) := st_ret (Ok ()).
(* [internal/hsm/pkcs11_stub.go:40-42 isTokenBlankPKCS11] *)
Definition stub_isTokenBlankPKCS11 (_ : Config W) : ST W (result bool) := st_ret (Err requires_cgo).
(* [internal/hsm/pkcs11_stub.go:45-47 getTokenInfoPKCS11] *)
Definition stub_getTokenInfoPKCS11 (_ : option stub_Session) (_ : Z) : ST W (result tokenInfo) := st_ret (Err requires_cgo).
(* [internal/hsm/pkcs11_stub.go:50-52 findObjectsPKCS11] *)
Definition stub_findObjectsPKCS11 (_ : option stub_Session) (_ : string) : ST W (result (list pkcs11Object)) := st_ret (Err requires_cgo).
(* [internal/hsm/pkcs11_stub.go:55-57 createObjectPKCS11] *)
Definition stub_createObjectPKCS11 (_ : option stub_Session) (_ _ : string) : ST W (result stub_ObjectHandle) := st_ret (Err requires_cgo).
(* [internal/hsm/pkcs11_stub.go:60-62 deleteSecretObjectsPKCS11] *)
Definition stub_deleteSecretObjectsPKCS11 (_ : option stub_Session) (_ : string) : ST W (result unit) := st_ret (Err requires_cgo).
(* [internal/hsm/pkcs11_stub.go:65-67 deleteSecretKeyPKCS11] *)
Definition stub_deleteSecretKeyPKCS11 (_ : option stub_Session) (_ : string) : ST W (result unit) := st_ret (Err requires_cgo).
(* [internal/hsm/pkcs11_stub.go:70-72 changePINPKCS11] *)
Definition stub_changePINPKCS11 (_ : option stub_Session) (_ _ : string) : ST W (result unit) := st_ret (Err requires_cgo).
End Stub.
(** What a program of this build prints before its [main]. *)
(* [internal/hsm/pkcs11_stub.go:75-77 init] *)
Definition stub_init {W} (Println : string → ST W unit) : ST W unit :=
  Println "WARNING: PKCS#11 client running in fallback mode (CGO disabled). HSM operations will fail.".

(** ** The client of this build

    Its methods are those of the other build: all of them but [Initialize] look at
    [connected] first, and [stub_methods] says that this is as far as they get.  What
    stands behind them, library and JSON, is of no importance. *)
Section Client.
Context {W : Type} `{MapOrder}.
Context (New : string → ST W (option (Ctx W))).
Context (json_Marshal : SecretMetadata → result string) (json_Unmarshal : string → result SecretMetadata).
Context (provider : option (PINProvider W)).
Definition stub_client : Client (PState W) :=
  let c := pkcs11_client New json_Marshal json_Unmarshal provider in
  mkClient
    (λ cfg, Initialize_with stub_initializePKCS11 (mkConfig (PKCS11LibraryPath cfg) (SlotID cfg) (UseSlotID cfg) (TokenLabel cfg)
       (ConnectionTimeout cfg) (RetryAttempts cfg) (RetryDelay cfg) provider))
    (c_Close c) (c_GetInfo c) (c_ReadSecret c) (c_WriteSecret c) (c_ReadMetadata c) (c_DeleteSecret c) (c_DeleteSecretKey c)
    (c_ListSecrets c) (c_GetChecksum c) (c_IsConnected c) (c_ChangePIN c).

Definition disconnected (v : PState W) : Prop := p_connected v.1 = false.
Definition not_connected : error := errorf "HSM not connected".

(** Initializing always fails and connects nothing. *)
Lemma stub_Initialize_fails cfg v :
  ∃ err, (c_Initialize stub_client cfg v).1 = Err err ∧ (disconnected v → disconnected (c_Initialize stub_client cfg v).2).
Proof.
  destruct v as [c w]. unfold stub_client, Initialize_with, st_try, st_bind, get_client, put_client, on_world, disconnected. cbn.
  destruct (decide (PKCS11LibraryPath cfg = "")) as [E|E]; [rewrite bool_decide_eq_true_2 by done; by eexists|].
  rewrite bool_decide_eq_false_2 by done. destruct provider as [p|]; [|by eexists]. cbn.
  destruct (Hsm.GetPIN p w) as [[pin|err] w1]; by eexists.
Qed.
(** With nothing more than the PIN known to be good, the error is the stub's. *)
Lemma stub_Initialize_error cfg p c w pin w1 :
  provider = Some p → PKCS11LibraryPath cfg ≠ "" → Hsm.GetPIN p w = (Ok pin, w1) →
  (c_Initialize stub_client cfg (c, w)).1 = Err requires_cgo.
Proof.
  intros Hp Hl Hg. unfold stub_client, Initialize_with, st_try, st_bind, get_client, put_client, on_world. cbn.
  rewrite bool_decide_eq_false_2, Hp by done. cbn. by rewrite Hg.
Qed.

(** The other methods say so, and do nothing. *)
Lemma stub_methods v path data md key old new pre :
  disconnected v → let c := stub_client in
  c_GetInfo c v = (Err not_connected, v) ∧ c_ReadSecret c path v = (Err not_connected, v) ∧
  c_WriteSecret c path data md v = (Err not_connected, v) ∧ c_ReadMetadata c path v = (Err not_connected, v) ∧
  c_DeleteSecret c path v = (Err not_connected, v) ∧ c_DeleteSecretKey c path key v = (Err not_connected, v) ∧
  c_ListSecrets c pre v = (Err not_connected, v) ∧ c_ChangePIN c old new v = (Err not_connected, v) ∧
  c_GetChecksum c path v = (Err (wrapf "failed to read secret for checksum" not_connected), v) ∧
  c_IsConnected c v = (false, v) ∧ c_Close c v = (Ok (), v).
Proof.
  destruct v as [c w]. unfold disconnected. cbn. intros Hc.
  unfold GetInfo, ReadSecret, WriteSecret, ReadMetadata, DeleteSecret, DeleteSecretKey, ListSecrets, GetChecksum, ReadSecret,
    ChangePIN, IsConnected, Close, if_connected, st_try, st_bind, get_client. cbn. rewrite Hc. done.
Qed.

(** ** The programs of this build *)

(** An agent whose configuration is valid and that requires hardware, the default, does
    not start, even after provisioning a token. *)
Lemma stub_agent_refuses host dm os_Stat mock pins fl c logLevel namespace v :
  validate_agent (with_flags fl c) = Ok () → fl_requireHardware fl = true →
  ∃ err, (select_client host dm os_Stat stub_client mock pins fl logLevel namespace v).1 = Err err.
Proof.
  intros Hv Hr. destruct (select_client _ _ _ _ _ _ _ _ _ v) as [[[client pcscd]|err] v'] eqn:E; [|by exists err].
  eapply required_hardware_is_served in E as (_ & v1 & E); [|done..].
  destruct (stub_Initialize_fails (hsm_config fl pins) v1) as (err & E' & _). by rewrite E in E'.
Qed.
(** The test tool never ends with status 0. *)
Lemma stub_tool_fails dm env os_Stat Println args v :
  process_status (main dm stub_client env os_Stat Println args v).1 = 1.
Proof.
  pose proof (main_honest dm stub_client env os_Stat Println args v) as Hh.
  destruct (decide ((main dm stub_client env os_Stat Println args v).1 = Returned)) as [E|]; [|by apply Hh]. exfalso. revert E. clear Hh.
  destruct args as [|operation [|pin args]]; cbn [main];
    [unfold st_bind; by destruct (printUsage Println v) as [[] v1]..|].
  unfold st_bind at 1. destruct (pcscd_Start dm _ v) as [[[[]|e] p] v1]; [|done].
  unfold deferring, st_bind at 1, with_daemon. unfold st_bind at 1. destruct (library env os_Stat v1) as [[path|] v2]; [|done].
  unfold or_fatal, st_bind at 1. destruct (stub_Initialize_fails (test_config path pin) v2) as (err & E & _).
  destruct (c_Initialize stub_client _ v2) as [r v3]. cbn in E. by subst r.
Qed.
End Client.
