(* ===== verification/CommandLine.v ===== *)
(** * What the command lines mean to the program

    The arguments the pool agent controller gives an agent, as [main] and the agent
    understand them; that an agent deployed with them never falls back to the mock client;
    and that the flags of the manager can express every configuration. *)

From Stdlib Require Import Ascii.
From S2P Require Import Prelude GoStd Hsm MockClient Api Kube PoolController.
From S2P Require Import EnvConfig Pki Provision Agents PoolAgents Flags.
From S2P Require Usb Discovery.

Local Open Scope go_scope.

(** The agent mode: its flags, then what it does with them. *)
(* [internal/modes/agent/agent.go:53-84 Run] *)
Definition agent_mode {W} (ParseDuration : string → result Z) (run : AgentFlags → string → ST W (result unit))
    (args : list string) (logLevel : string) : ST W (result unit) :=
  match parse_agent_flags ParseDuration args with Err err => st_ret (Err err) | Ok fl => run fl logLevel end.

(** The exit status of a mode. *)
Definition exit_status {W} (m : ST W (result unit)) : ST W Z :=
  let* r := m in st_ret (match r with Ok _ => 0 | Err _ => 1 end).

(** [main] on the arguments of a mode given first, none of which it takes for its own. *)
Lemma main_mode {W} ParseDuration (mr : list string → ST W (result unit)) ar dr mode args :
  Forall (λ a, specific a = true) args →
  main ParseDuration mr ar dr (("--mode=" +:+ mode) :: args) =
    if bool_decide (mode = "") then st_ret 1
    else if bool_decide (mode = "manager") then exit_status (mr args)
    else if bool_decide (mode = "agent") then exit_status (ar args "info")
    else if bool_decide (mode = "discovery") then exit_status (dr args)
    else st_ret 1.
Proof.
  intros Hl. pose proof (flag_arg_set "mode" mode eq_refl) as Hm. change (set_flag "mode" mode) with ("--mode=" +:+ mode) in Hm. unfold main, split. cbn [split_args]. rewrite has_prefix_app, trim_prefix_app. cbn [add_global default].
  rewrite split_specific by done. cbn [globalArgs modeArg modeSpecificArgs add_global app].
  cbn [flag_Parse]. rewrite Hm. cbn. by repeat case_bool_decide.
Qed.

(** ** The arguments of a deployed agent *)

(** What the HSMDevice says about the PKCS#11 library, if it could be read and does. *)
Definition pkcs11_of (g : result HSMDevice) : option DevicePKCS11Config := match g with Ok d => hd_PKCS11 (hd_Spec d) | Err _ => None end.
Definition if_set (name value : string) : list Setting := if bool_decide (value ≠ "") then [(name, value, VString value)] else [].

Section Agent.
Context {W : Type} (k : KubeClient W) (r : HSMPoolAgentReconciler W) (ParseDuration : string → result Z).

(** What they say, as settings of the agent's flags. *)
Definition agent_settings (deviceName : string) (g : result HSMDevice) : list Setting :=
  let file f := (agentTLSMountPath +:+ f, VString (agentTLSMountPath +:+ f)) in
  [("device-name", deviceName, VString deviceName); ("port", go_itoa AgentPort, VInt AgentPort);
   ("health-port", go_itoa AgentHealthPort, VInt AgentHealthPort)] ++
  (if want_tls r then
     [("tls-cert-file", (file "/tls.crt").1, (file "/tls.crt").2); ("tls-key-file", (file "/tls.key").1, (file "/tls.key").2);
      ("tls-client-ca-file", (file "/ca.crt").1, (file "/ca.crt").2)]
   else []) ++
  match pkcs11_of g with
  | None => []
  | Some p =>
      if_set "token-label" (pk_TokenLabel p) ++
      (if 0 <=? pk_SlotId p then [("slot-id", go_itoa (pk_SlotId p), VInt (pk_SlotId p))] else []) ++
      if_set "pkcs11-library" (pk_LibraryPath p)
  end.
Lemma agent_args_settings deviceName g :
  basic_args r deviceName ++ match g with Err _ => [] | Ok hsmDevice => pkcs11_args hsmDevice end =
  ("--mode=" +:+ "agent") :: ((λ x, set_flag x.1.1 x.1.2) <$> agent_settings deviceName g).
Proof.
  unfold basic_args, pkcs11_args, agent_settings, if_set. destruct (want_tls r), g as [d|e]; cbn [pkcs11_of];
    try destruct (hd_PKCS11 (hd_Spec d)) as [p|]; try reflexivity;
    repeat case_bool_decide; destruct (0 <=? pk_SlotId p); reflexivity.
Qed.

(** The flags the agent is meant to run with. *)
Definition deployed_flags (deviceName : string) (g : result HSMDevice) : AgentFlags :=
  let file f := if want_tls r then agentTLSMountPath +:+ f else "" in
  let pkcs11 {A} (f : DevicePKCS11Config → A) (x : A) : A := match pkcs11_of g with Some p => f p | None => x end in
  mkAgentFlags deviceName AgentPort AgentHealthPort (pkcs11 pk_LibraryPath "")
    (pkcs11 (λ p, if 0 <=? pk_SlotId p then pk_SlotId p else -1) (-1)) (pkcs11 pk_TokenLabel "") true
    (file "/tls.crt") (file "/tls.key") (file "/ca.crt").

Definition slot_fits (g : result HSMDevice) : Prop := ∀ p, pkcs11_of g = Some p → - 2 ^ 31 ≤ pk_SlotId p < 2 ^ 31.

Lemma if_set_ok name value :
  name_ok name = true → formal agent_flags name = Some (VString "") → Forall (setting_ok ParseDuration agent_flags) (if_set name value).
Proof.
  intros Hn Hf. unfold if_set. case_bool_decide; [|constructor]. constructor; [|constructor]. split; [done|]. by eexists.
Qed.
Lemma agent_settings_ok deviceName g : slot_fits g → Forall (setting_ok ParseDuration agent_flags) (agent_settings deviceName g).
Proof.
  intros Hs. unfold agent_settings. rewrite !Forall_app. split; [|split].
  - repeat constructor; eexists; split; reflexivity.
  - destruct (want_tls r); repeat constructor; eexists; split; reflexivity.
  - destruct (pkcs11_of g) as [p|] eqn:E; [|constructor]. rewrite !Forall_app. split; [by apply if_set_ok|]. split; [|by apply if_set_ok].
    destruct (0 <=? pk_SlotId p); [|constructor]. constructor; [|constructor]. split; [done|]. exists (VInt (-1)). split; [done|].
    cbn [set_value fst snd]. rewrite ParseInt_print; [done|]. specialize (Hs p E). unfold in_int64, int64_min, int64_max. lia.
Qed.
Lemma agent_settings_specific deviceName g :
  Forall (λ a, specific a = true) ((λ x, set_flag x.1.1 x.1.2) <$> agent_settings deviceName g).
Proof.
  unfold agent_settings, if_set. destruct (want_tls r), (pkcs11_of g) as [p|]; repeat case_bool_decide;
    try destruct (0 <=? pk_SlotId p); cbn; repeat constructor.
Qed.

Lemma agent_settings_mean deviceName g :
  agent_variables (assign (agent_settings deviceName g) (defaults agent_flags)) = deployed_flags deviceName g.
Proof.
  unfold agent_settings, deployed_flags, if_set. destruct (want_tls r), (pkcs11_of g) as [p|]; try reflexivity;
    destruct (decide (pk_TokenLabel p = "")) as [Et|Et], (decide (pk_LibraryPath p = "")) as [El|El];
    rewrite ?Et, ?El, ?(bool_decide_eq_true_2 (pk_TokenLabel p ≠ "") Et), ?(bool_decide_eq_true_2 (pk_LibraryPath p ≠ "") El);
    destruct (0 <=? pk_SlotId p); reflexivity.
Qed.

(** The arguments the controller puts into an agent's pod: whatever the names and paths
    in them, the program run with them runs the agent mode with the default log level, and
    with exactly the flags meant: the device, the ports of the service and the probes, the
    library, label and slot of the HSMDevice where it gives them, the mounted TLS files if
    TLS is on, and hardware required. *)
Theorem agent_args_understood {V} (run : AgentFlags → string → ST V (result unit)) mr dr hsmPool deviceName w args w' :
  let g := (api_Get (HSMDevices k) (pool_ns hsmPool) deviceName w).1 in
  buildAgentArgs k r hsmPool deviceName w = (args, w') → slot_fits g →
  main ParseDuration mr (agent_mode ParseDuration run) dr args = exit_status (run (deployed_flags deviceName g) "info").
Proof.
  intros g. unfold buildAgentArgs, st_bind, st_ret. fold g. subst g. destruct (api_Get _ _ _ w) as [g w1]. cbn [fst].
  intros [<- _]%pair_equal_spec Hs. rewrite agent_args_settings, main_mode by (by try apply agent_settings_specific).
  rewrite !bool_decide_eq_false_2, bool_decide_eq_true_2 by done. unfold agent_mode, parse_agent_flags.
  by rewrite parse_settings, agent_settings_mean by (by apply agent_settings_ok).
Qed.

(** C37. So an agent that was deployed never serves the mock client: it makes no difference what
    the mock client is, nor what serving another client than the PKCS#11 one would do. *)
Theorem deployed_agent_never_mocks {V} (host : Host V) dm env GetConfig NewForConfig os_Stat (pkcs11_client mock mock' : Client V)
    pinProvider serve serve' mr dr hsmPool deviceName w args w' :
  let agent c s := agent_Run host dm env GetConfig NewForConfig os_Stat pkcs11_client c pinProvider s in
  buildAgentArgs k r hsmPool deviceName w = (args, w') → slot_fits (api_Get (HSMDevices k) (pool_ns hsmPool) deviceName w).1 →
  (∀ tls, serve pkcs11_client tls = serve' pkcs11_client tls) →
  ∀ v, main ParseDuration mr (agent_mode ParseDuration (agent mock serve)) dr args v =
       main ParseDuration mr (agent_mode ParseDuration (agent mock' serve')) dr args v.
Proof.
  intros agent. unfold buildAgentArgs, st_bind, st_ret. destruct (api_Get _ _ _ w) as [g w1]. cbn [fst].
  intros [<- _]%pair_equal_spec Hs Hserve v. rewrite agent_args_settings, !main_mode by (by try apply agent_settings_specific).
  rewrite !bool_decide_eq_false_2, bool_decide_eq_true_2 by done. unfold agent_mode, parse_agent_flags.
  rewrite parse_settings, agent_settings_mean by (by apply agent_settings_ok).
  unfold exit_status, st_bind, agent. by rewrite (agent_Run_no_mock _ _ _ _ _ _ _ mock mock' _ serve serve').
Qed.
End Agent.

(** ** The flags of the manager *)

(** A configuration as arguments, a flag for each field. *)
Definition bool_text (b : bool) : string := if b then "true" else "false".
Definition manager_settings (c : managerConfig) : list Setting :=
  let t := tlsFlags c in
  let text n v : Setting := (n, v, VString v) in
  let switch n b : Setting := (n, bool_text b, VBool b) in
  [text "metrics-bind-address" (metricsAddr c); text "metrics-cert-path" (metricsCertPath c); text "metrics-cert-name" (metricsCertName c);
   text "metrics-cert-key" (metricsCertKey c); text "webhook-cert-path" (webhookCertPath c); text "webhook-cert-name" (webhookCertName c);
   text "webhook-cert-key" (webhookCertKey c); switch "leader-elect" (enableLeaderElection c);
   text "health-probe-bind-address" (probeAddr c); switch "metrics-secure" (secureMetrics c); switch "enable-http2" (enableHTTP2 c);
   switch "enable-api" (enableAPI c); ("api-port", go_itoa (apiPort c), VInt (apiPort c)); text "agent-image" (agentImage c);
   text "discovery-image" (discoveryImage c); text "mirror-periodic-interval" (mirrorPeriodicInterval c);
   text "mirror-debounce-window" (mirrorDebounceWindow c); switch "agent-tls-enabled" (agentTLSEnabled c);
   text "agent-tls-ca-secret" (agentTLSCASecret t); text "agent-tls-server-secret" (agentTLSServerSecret t);
   text "agent-tls-client-secret" (agentTLSClientSecret t); text "agent-tls-leaf-validity" (agentTLSLeafValidity t);
   text "agent-tls-renew-before" (agentTLSRenewBefore t); switch "agent-tls-cert-manager" (agentTLSCertManager t)].
Definition manager_args (c : managerConfig) : list string := (λ x, set_flag x.1.1 x.1.2) <$> manager_settings c.

(** The manager mode: its flags, then what it does with them. *)
(* [internal/modes/manager/manager.go:409-413 Run] *)
Definition manager_mode {W} (ParseDuration : string → result Z) (run : managerConfig → ST W (result unit)) (args : list string) :
    ST W (result unit) :=
  match parseFlags ParseDuration args with Err err => st_ret (Err err) | Ok cfg => run cfg end.

(** Every configuration of the manager can be given on the command line, in any of its
    fields any text: [main] hands all of it to the manager mode, which reads it back. *)
Theorem manager_args_roundtrip {W} ParseDuration (run : managerConfig → ST W (result unit)) ar dr cfg :
  in_int64 (apiPort cfg) →
  main ParseDuration (manager_mode ParseDuration run) ar dr ("--mode=manager" :: manager_args cfg) = exit_status (run cfg).
Proof.
  intros Hp. change "--mode=manager" with ("--mode=" +:+ "manager"). rewrite main_mode by (unfold manager_args; cbn; repeat constructor).
  rewrite bool_decide_eq_false_2, bool_decide_eq_true_2 by done. unfold manager_mode, parseFlags, manager_args. rewrite parse_settings.
  - destruct cfg as [? ? ? ? ? ? ? ? ? ? ? ? ? ? ? ? ? ? []]. reflexivity.
  - unfold manager_settings. repeat first [apply Forall_cons; split | apply Forall_nil; done];
      (split; [reflexivity|]); eexists; (split; [reflexivity|]); cbn [set_value fst snd]; rewrite ?ParseInt_print by done; try reflexivity;
      match goal with |- context [bool_text ?b] => by destruct b end.
Qed.

(** ** The discovery mode *)
(* [internal/modes/discovery/discovery.go:82-99 Run] *)
Definition discovery_mode {W} (ParseDuration : string → result Z) (env : Environment) (run : DiscoveryConfig → Z → ST W (result unit))
    (args : list string) : ST W (result unit) :=
  match NewDiscoveryConfigFromEnv env with
  | Err err => st_ret (Err (wrapf "failed to create discovery config" err))
  | Ok discoveryConfig =>
      match parse_discovery_flags ParseDuration args with
      | Err err => st_ret (Err err)
      | Ok syncInterval => run discoveryConfig syncInterval
      end
  end.
(** The agent, and its start with a client of the cluster; it panics, or ends when it is told to. *)
(* [internal/modes/discovery/discovery.go:121-132 Run] *)
Definition discovery_agent (allowlist : Usb.CCIDAllowlist) (c : DiscoveryConfig) : Discovery.DiscoveryAgent :=
  Discovery.mkDiscoveryAgent (dc_NodeName c) (dc_PodName c) (dc_PodNamespace c) (Usb.NewUSBDiscoverer allowlist) false ∅ ∅ ∅ ∅ 0.
(* [internal/modes/discovery/discovery.go:107-137 Run] *)
Definition discovery_run {W} (GetConfigOrDie client_New : ST W (result unit)) (allowlist : Usb.CCIDAllowlist)
    (agent_Run : Z → ST (Discovery.DiscoveryAgent * W) (result unit)) (c : DiscoveryConfig) (syncInterval : Z) : ST W (result unit) :=
  st_try GetConfigOrDie id (λ _,
  st_try client_New id (λ _, λ w,
    let '(r, (_, w)) := agent_Run syncInterval (discovery_agent allowlist c, w) in (r, w))).
(** The arguments of the discovery pods: the interval is the default. *)
Lemma discovery_args_understood {W} ParseDuration env (run : DiscoveryConfig → Z → ST W (result unit)) mr ar c :
  NewDiscoveryConfigFromEnv env = Ok c →
  main ParseDuration mr ar (discovery_mode ParseDuration env run) ["--mode=discovery"] = exit_status (run c (30 * Second)).
Proof.
  intros Hc. change "--mode=discovery" with ("--mode=" +:+ "discovery"). rewrite main_mode by constructor.
  rewrite !bool_decide_eq_false_2, bool_decide_eq_true_2 by done. unfold discovery_mode. by rewrite Hc.
Qed.

(** ** Witnesses *)
Module CommandWitness.
#[local] Existing Instance listed_order.
(** An HSMDevice whose label and library need care, at slot 3, and a pool in its namespace. *)
Definition device : HSMDevice :=
  mkHSMDevice (mkObjectMeta "pico" "hsm" "" 1 ∅ ∅ [] None [] (mkTime 0 0) 1)
    (mkHSMDeviceSpec "PicoHSM" None ∅ (Some (mkDevicePKCS11Config "/lib/a=b.so" 3 None "--help" false)) 1 None).
Definition pool : HSMPool :=
  mkHSMPool (mkObjectMeta "pico-pool" "hsm" "" 1 ∅ ∅ [] None [] (mkTime 0 0) 1) (hp_Spec PoolController.PoolWitness.pool)
    (hp_Status PoolController.PoolWitness.pool).
Definition w0 : Objects := mkObjects ∅ {[("hsm", "pico") := device]} ∅ ∅ ∅ ∅ ∅.
Definition r : HSMPoolAgentReconciler Objects := mkReconciler None false "agent:v1" "sa" true "tls" 0.
Definition args : list string := (buildAgentArgs Mem.kube r pool "pico" w0).1.
Definition no_duration (s : string) : result Z := Err (errorf "not used").
Lemma fits : slot_fits (api_Get (HSMDevices Mem.kube) (pool_ns pool) "pico" w0).1.
Proof. intros p Hp. vm_compute in Hp. injection Hp as <-. vm_compute. split; congruence. Qed.

(** The agent only tells whether its flags are as expected. *)
Definition expected : AgentFlags :=
  mkAgentFlags "pico" 9090 8093 "/lib/a=b.so" 3 "--help" true "/etc/hsm/tls/tls.crt" "/etc/hsm/tls/tls.key" "/etc/hsm/tls/ca.crt".
#[local] Instance AgentFlags_eq_dec : EqDecision AgentFlags.
Proof. solve_decision. Defined.
Definition tell (fl : AgentFlags) (logLevel : string) : ST unit (result unit) :=
  st_ret (if bool_decide (fl = expected) && bool_decide (logLevel = "info") then Ok () else Err (errorf "other flags")).
Definition nothing {W} (args : list string) : ST W (result unit) := st_ret (Err (errorf "another mode")).
Example agent_args_understood_witness :
  args !! 7%nat = Some "--token-label=--help" ∧ main no_duration nothing (agent_mode no_duration tell) nothing args () = (0, ()).
Proof.
  split; [reflexivity|].
  rewrite (agent_args_understood Mem.kube r no_duration tell nothing nothing pool "pico" w0 args
    (buildAgentArgs Mem.kube r pool "pico" w0).2 (surjective_pairing _) fits).
  vm_compute. reflexivity.
Defined.

(** The mock clients are devices B and C; the library exists, and device A answers. *)
Definition env : Environment := mkEnvironment (λ _, "hsm") (Ok "pod") (λ _, Err (errorf "no file")).
Definition agent (mock : Client Fleet) : AgentFlags → string → ST Fleet (result unit) :=
  agent_Run ProvisionWitness.fleet_host ProvisionWitness.daemon env (st_ret (Ok ())) (st_ret (Ok ())) (λ _, st_ret (Ok ()))
    (mock_of "A") mock ProvisionWitness.fleet_pins (λ c _, c_Initialize c mock_config).
Example deployed_agent_never_mocks_witness :
  main no_duration nothing (agent_mode no_duration (agent (mock_of "B"))) nothing args ∅ =
  main no_duration nothing (agent_mode no_duration (agent (mock_of "C"))) nothing args ∅ ∧
  (main no_duration nothing (agent_mode no_duration (agent (mock_of "B"))) nothing args ∅).1 = 0.
Proof.
  split; [|vm_compute; reflexivity].
  apply (deployed_agent_never_mocks Mem.kube r no_duration ProvisionWitness.fleet_host ProvisionWitness.daemon env (st_ret (Ok ()))
    (st_ret (Ok ())) (λ _, st_ret (Ok ())) (mock_of "A") (mock_of "B") (mock_of "C") ProvisionWitness.fleet_pins
    (λ c _, c_Initialize c mock_config) (λ c _, c_Initialize c mock_config) nothing nothing pool "pico" w0 args
    (buildAgentArgs Mem.kube r pool "pico" w0).2 (surjective_pairing _) fits).
  intros tls. reflexivity.
Defined.

Definition cfg : managerConfig := mkManagerConfig "0" "" "tls.crt" "tls.key" "--mode=agent" "=" "-" true ":8081" false true true (-1) "img" "" "5m" "5s" true
  (mkTLSFlags "ca" "srv" "cl" "2160h" "720h" true).
Example manager_args_roundtrip_witness :
  main no_duration (manager_mode no_duration (λ c, st_ret (if bool_decide (webhookCertPath c = "--mode=agent") then Ok () else Err (errorf "lost"))))
    (λ _ _, nothing []) nothing ("--mode=manager" :: manager_args cfg) () = (0, ()).
Proof.
  rewrite (manager_args_roundtrip no_duration _ (λ _ _, nothing []) nothing cfg); [vm_compute; reflexivity|].
  split; cbn; unfold int64_min, int64_max; lia.
Defined.
End CommandWitness.
