(* ===== verification/AgentTls.v ===== *)
(** * How an agent is served: listening, mutual TLS, keepalive, probes

    [Start] of internal/agent/grpc_server.go, the TLS configurations of both ends
    (internal/agent/tls.go), and what comes of them together: an agent that was deployed with
    TLS serves nobody but the manager, and does serve the manager. *)

From S2P Require Import Prelude GoStd Hsm MockClient Api Kube Grpc PoolController.
From S2P Require Import EnvConfig Pki PkiTrust Provision Agents PoolAgents Flags CommandLine.

Local Open Scope go_scope.

(** ** The configurations of both ends *)

(** [tls.ClientAuthType], as far as it is used, and the number of TLS 1.3. *)
Inductive ClientAuthType := NoClientCert | RequireAndVerifyClientCert.
Definition VersionTLS13 : Z := 0x0304.

(** [tls.Config] of a server and of a client: the pair a handshake presents now, the pool for
    the other end, as PEM. *)
(* [internal/agent/grpc_server.go:122-127 buildServerTLSConfig] *)
Record ServerTLSConfig (Pair : Type) := mkServerTLS {
  sv_Certificate : Pair;
  sv_ClientAuth : ClientAuthType;
  sv_ClientCAs : string;
  sv_MinVersion : Z;
}.
Arguments mkServerTLS {Pair}.
Arguments sv_Certificate {Pair}.
Arguments sv_ClientAuth {Pair}.
Arguments sv_ClientCAs {Pair}.
Arguments sv_MinVersion {Pair}.
(* [internal/agent/tls.go:60-67 Config] *)
Record ClientTLSConfig (Pair : Type) := mkClientConfig {
  cl_Certificate : Pair;
  cl_RootCAs : string;
  cl_ServerName : string;
  cl_MinVersion : Z;
}.
Arguments mkClientConfig {Pair}.
Arguments cl_Certificate {Pair}.
Arguments cl_RootCAs {Pair}.
Arguments cl_ServerName {Pair}.
Arguments cl_MinVersion {Pair}.

(* [internal/agent/tls.go:59-68 Config] *)
Definition ClientTLS_Config {Pair} (t : ClientTLS Pair) : ClientTLSConfig Pair :=
  mkClientConfig (tls_leaf t) (tls_rootCAs t) (tls_serverName t) VersionTLS13.

(** The options of the gRPC server besides its interceptors, which are [Grpc.serve]. *)
(* [internal/agent/grpc_server.go:142-169 Start] *)
Record ServerOptions (Pair : Type) := mkServerOptions {
  so_MinTime : Z;
  so_PermitWithoutStream : bool;
  so_Time : Z;
  so_Timeout : Z;
  so_Creds : option (ServerTLSConfig Pair);
}.
Arguments mkServerOptions {Pair}.
Arguments so_MinTime {Pair}.
Arguments so_PermitWithoutStream {Pair}.
Arguments so_Time {Pair}.
Arguments so_Timeout {Pair}.
Arguments so_Creds {Pair}.
(** The options of the connection of a client. *)
(* [internal/agent/grpc_client.go:61-68 NewGRPCClient] *)
Record DialOptions (Pair : Type) := mkDialOptions {
  do_Time : Z;
  do_Timeout : Z;
  do_PermitWithoutStream : bool;
  do_Creds : option (ClientTLSConfig Pair);
}.
Arguments mkDialOptions {Pair}.
Arguments do_Time {Pair}.
Arguments do_Timeout {Pair}.
Arguments do_PermitWithoutStream {Pair}.
Arguments do_Creds {Pair}.
(* [internal/agent/grpc_client.go:54-68 NewGRPCClient] *)
Definition dial_options {Pair} (clientTLS : option (ClientTLS Pair)) : DialOptions Pair :=
  mkDialOptions (30 * Second) (10 * Second) true (ClientTLS_Config <$> clientTLS).

(** ** The server of the agent *)

(** The operating system and the libraries: files, the watcher of a pair of files with the
    pair it has now, the listener, the gRPC server until it stops, and the HTTP server. *)
Record ServerHost (W Pair : Type) := mkServerHost {
  os_ReadFile : string → ST W (result string);
  pool_AppendCertsFromPEM : string → bool;
  watcher_New : string → string → ST W (result Pair);
  net_Listen : string → ST W (result unit);
  http_ListenAndServe : string → (string → option (ST W (Z * string))) → ST W unit;
}.
Arguments mkServerHost {W Pair}.
Arguments os_ReadFile {W Pair}.
Arguments pool_AppendCertsFromPEM {W Pair}.
Arguments watcher_New {W Pair}.
Arguments net_Listen {W Pair}.
Arguments http_ListenAndServe {W Pair}.

Section Server.
Context {W Pair : Type} (host : ServerHost W Pair) (late : ST W bool) (uptime timestamp : string).
(** [grpc_Serve options handler] is [Serve] of a server with the options. *)
Context (grpc_Serve : ServerOptions Pair → GRPCServer W → ST W (result unit)).

(* [internal/agent/grpc_server.go:102-129] *)
Definition buildServerTLSConfig (s : GRPCServer W) : ST W (result (ServerTLSConfig Pair)) :=
  st_try (os_ReadFile host (tlsClientCAFile s)) (wrapf ("reading client CA file " +:+ tlsClientCAFile s)) (λ caPEM,
  if negb (pool_AppendCertsFromPEM host caPEM)
  then st_ret (Err (errorf ("no valid certificates in client CA file " +:+ tlsClientCAFile s)))
  else
    st_try (watcher_New host (tlsCertFile s) (tlsKeyFile s)) (wrapf "creating certificate watcher") (λ pair,
    st_ret (Ok (mkServerTLS pair RequireAndVerifyClientCert caPEM VersionTLS13)))).

(** The handlers of the probes by their path. *)
(* [internal/agent/grpc_server.go:189-191 startHealthServer] *)
Definition health_mux (s : GRPCServer W) (path : string) : option (ST W (Z * string)) :=
  if bool_decide (path = "/healthz") then Some (handleHealthz late s uptime timestamp)
  else if bool_decide (path = "/readyz") then Some (handleReadyz late s)
  else None.
(* [internal/agent/grpc_server.go:188-213] *)
Definition startHealthServer (s : GRPCServer W) : ST W unit :=
  http_ListenAndServe host (":" +:+ go_itoa (healthPort s)) (health_mux s).

(* [internal/agent/grpc_server.go:142-169 Start] *)
Definition server_options (creds : option (ServerTLSConfig Pair)) : ServerOptions Pair :=
  mkServerOptions (15 * Second) true (60 * Second) (10 * Second) creds.

(** The health server runs next to it; it is started first. *)
(* [internal/agent/grpc_server.go:132-185] *)
Definition Start (s : GRPCServer W) : ST W (result unit) :=
  do! startHealthServer s in
  st_try (net_Listen host (":" +:+ go_itoa (port s))) (wrapf ("failed to listen on port " +:+ go_itoa (port s))) (λ _,
  if tlsEnabled s then
    st_try (buildServerTLSConfig s) (wrapf "failed to configure mutual TLS") (λ tlsConfig,
    grpc_Serve (server_options (Some tlsConfig)) s)
  else grpc_Serve (server_options None) s).

(** What the agent does with its client: the TLS files are set if any of them is given. *)
(* [internal/modes/agent/agent.go:270-277 Run] *)
Definition start_agent (fl : AgentFlags) (now : Time) (client : Client W) (tls : option (string * string * string)) : ST W (result unit) :=
  let grpcServer := NewGRPCServer (Some client) (fl_port fl) (fl_healthPort fl) now in
  Start (match tls with Some (certFile, keyFile, clientCAFile) => SetTLSFiles certFile keyFile clientCAFile grpcServer | None => grpcServer end).
End Server.

(** ** A connection *)

(** The handshake: TLS 1.3, each end's certificate accepted now as the other wants it.
    [leaf_of] is the certificate of a pair, as PEM, [x509_Verify] as in [PkiTrust]. *)
Section Handshake.
Context {Pair : Type} (x509_Verify : string → string → string → option string → Z → bool) (leaf_of : Pair → string) (now : Z).
Definition handshake (sc : ServerTLSConfig Pair) (cc : ClientTLSConfig Pair) : bool :=
  (sv_MinVersion sc <=? VersionTLS13) && (cl_MinVersion cc <=? VersionTLS13) &&
  x509_Verify (cl_RootCAs cc) (leaf_of (sv_Certificate sc)) "ServerAuth" (Some (cl_ServerName cc)) now &&
  match sv_ClientAuth sc with
  | NoClientCert => true
  | RequireAndVerifyClientCert => x509_Verify (sv_ClientCAs sc) (leaf_of (cl_Certificate cc)) "ClientAuth" None now
  end.
(** A connection comes about over TLS or in the clear, as both ends have it. *)
Definition connects (so : ServerOptions Pair) (dial : DialOptions Pair) : bool :=
  match so_Creds so, do_Creds dial with
  | Some sc, Some cc => handshake sc cc
  | None, None => true
  | _, _ => false
  end.
End Handshake.

(** The client pings no more often than the server asks for, and without a stream only if
    the server permits it. *)
Definition keepalive_permitted {Pair} (so : ServerOptions Pair) (dial : DialOptions Pair) : Prop :=
  so_MinTime so ≤ do_Time dial ∧ (do_PermitWithoutStream dial = true → so_PermitWithoutStream so = true).

(** ** A deployed agent and the manager *)
Section Deployed.
Context {W Key Pair V : Type} `{!ClusterView W} (crypto : Crypto W Key Pair) (c : KubeClient W) (clockNow : ST W Z).
Context `{!ApiLaws (Secrets c)}.
Context (x509_Verify : string → string → string → option string → Z → bool) (matches : Certificate → Key → Prop) (leaf_of : Pair → string).
(** A pair's certificate is what it was made of; who is accepted under a name is accepted. *)
Hypothesis pair_leaf : ∀ certPEM keyPEM p, X509KeyPair crypto certPEM keyPEM = Ok p →
  (∀ roots use name t, x509_Verify roots (leaf_of p) use name t = x509_Verify roots certPEM use name t) ∧
  ∀ t, valid_at crypto (leaf_of p) t → valid_at crypto certPEM t.
Hypothesis verify_any_name : ∀ roots leaf use name t,
  x509_Verify roots leaf use (Some name) t = true → x509_Verify roots leaf use None t = true.

(** The agent's side: its files under the mount path are the mounted Secret's, if they can be
    read at all, and the watcher's pair is that of its files. *)
Context (host : ServerHost V Pair) (late : ST V bool) (uptime timestamp : string).
Definition mounted (srv : Secret) : Prop := ∀ file v d v',
  os_ReadFile host (agentTLSMountPath +:+ "/" +:+ file) v = (Ok d, v') → d = data_at srv file.
Hypothesis watcher_reads : ∀ certFile keyFile v p v', watcher_New host certFile keyFile v = (Ok p, v') →
  ∃ certPEM keyPEM, X509KeyPair crypto certPEM keyPEM = Ok p ∧
    (∃ v1 v2, os_ReadFile host certFile v1 = (Ok certPEM, v2)) ∧ ∃ v1 v2, os_ReadFile host keyFile v1 = (Ok keyPEM, v2).

(** The agent, in a pod whose arguments are those of the pool agent controller. *)
Context {U : Type} (r : HSMPoolAgentReconciler U).
Definition run_agent (grpc_Serve : ServerOptions Pair → GRPCServer V → ST V (result unit)) (deviceName : string) (g : result HSMDevice)
    (now : Time) (client : Client V) : ST V (result unit) :=
  serve_client (start_agent host late uptime timestamp grpc_Serve (deployed_flags r deviceName g) now) (deployed_flags r deviceName g) client.
Definition agent_server (now : Time) (client : Client V) : GRPCServer V :=
  mkGRPCServer (Some client) AgentPort AgentHealthPort now (agentTLSMountPath +:+ "/" +:+ TLSCertKey)
    (agentTLSMountPath +:+ "/" +:+ TLSPrivateKeyKey) (agentTLSMountPath +:+ "/" +:+ ServiceAccountRootCAKey).

Lemma run_agent_tls deviceName g now client : want_tls r = true →
  ∀ grpc_Serve v, run_agent grpc_Serve deviceName g now client v =
    st_try (Start host late uptime timestamp grpc_Serve (agent_server now client)) id (λ _, do! c_Close client in st_ret (Ok ())) v.
Proof. intros Ht grpc_Serve v. unfold run_agent, serve_client, start_agent, deployed_flags. rewrite Ht. reflexivity. Qed.

Lemma Start_tls s v : tlsEnabled s = true →
  (∃ e v', ∀ grpc_Serve, Start host late uptime timestamp grpc_Serve s v = (Err e, v')) ∨
  ∃ sc v' v1 v2, buildServerTLSConfig host s v1 = (Ok sc, v2) ∧
    ∀ grpc_Serve, Start host late uptime timestamp grpc_Serve s v = grpc_Serve (server_options (Some sc)) s v'.
Proof.
  intros Ht. unfold Start, st_try, st_bind. rewrite Ht. destruct (startHealthServer _ _ _ _ s v) as [[] v1].
  destruct (net_Listen host _ v1) as [[[]|e] v2]; [|left; by eexists _, _].
  destruct (buildServerTLSConfig host s v2) as [[sc|e] v3] eqn:E; [|left; by eexists _, _]. right. by exists sc, v3, v2, v3.
Qed.

Lemma build_reads s v sc v' : buildServerTLSConfig host s v = (Ok sc, v') →
  sv_ClientAuth sc = RequireAndVerifyClientCert ∧ sv_MinVersion sc = VersionTLS13 ∧
  (∃ v1 v2, os_ReadFile host (tlsClientCAFile s) v1 = (Ok (sv_ClientCAs sc), v2)) ∧
  ∃ v1 v2, watcher_New host (tlsCertFile s) (tlsKeyFile s) v1 = (Ok (sv_Certificate sc), v2).
Proof.
  unfold buildServerTLSConfig, st_try, st_bind. destruct (os_ReadFile host _ v) as [[pem|e] v1] eqn:Er; [|done].
  destruct (pool_AppendCertsFromPEM host pem); [|done]. cbn [negb].
  destruct (watcher_New host _ _ v1) as [[p|e] v2] eqn:Ew; [|done]. intros [= <- _]. cbn. repeat split; eauto.
Qed.

(** The configuration such an agent ends up with, of a Secret that fits the manager's material. *)
Lemma deployed_config srv t now client v sc v' :
  mounted srv → data_at srv ServiceAccountRootCAKey = tls_rootCAs t →
  vouches crypto x509_Verify (tls_rootCAs t) (data_at srv TLSCertKey) "ServerAuth" (tls_serverName t) →
  client_trusted crypto x509_Verify (data_at srv ServiceAccountRootCAKey) (tls_leaf t) →
  buildServerTLSConfig host (agent_server now client) v = (Ok sc, v') →
  sv_ClientAuth sc = RequireAndVerifyClientCert ∧ sv_ClientCAs sc = tls_rootCAs t ∧
  ∀ at_, valid_at crypto (tls_rootCAs t) at_ → valid_at crypto (data_at srv TLSCertKey) at_ → valid_at crypto (leaf_of (tls_leaf t)) at_ →
    handshake x509_Verify leaf_of at_ sc (ClientTLS_Config t) = true.
Proof.
  intros Hm Hroot Hsrv (cp & kp & Hpair & Hcl) E. destruct (build_reads _ _ _ _ E) as (Ha & Hv & (v1 & v2 & Hca) & v3 & v4 & Hw).
  apply Hm in Hca. destruct (watcher_reads _ _ _ _ _ Hw) as (certPEM & keyPEM & Hp & (v5 & v6 & Hc) & _). apply Hm in Hc.
  destruct (pair_leaf _ _ _ Hp) as [Hp1 _]. destruct (pair_leaf _ _ _ Hpair) as [Hpair1 Hpair2].
  split; [exact Ha|]. split; [congruence|]. intros at_ Vca Vsrv Vcl. unfold handshake. rewrite Ha, Hv, Hca. cbn [ClientTLS_Config cl_MinVersion cl_RootCAs cl_ServerName cl_Certificate].
  rewrite Hp1, Hpair1, Hc, (Hsrv at_ Vca Vsrv). cbn [andb Z.leb]. rewrite Hroot in *. eapply verify_any_name.
  apply Hcl; [exact Vca|by apply Hpair2].
Qed.

(** What [PkiTrust] needs of the libraries. *)
Hypothesis clock_keeps : preserves same_objects clockNow.
Hypothesis key_keeps : preserves same_objects (GenerateKey crypto).
Hypothesis rand_keeps : ∀ n, preserves same_objects (rand_Int crypto n).
Hypothesis create_keeps : ∀ t p k s, preserves same_objects (CreateCertificate crypto t p k s).
Hypothesis pem_roundtrip : ∀ ty der, ty ∈ [pemTypeCertificate; "EC PRIVATE KEY"] → pem_Decode crypto (pem_Encode crypto ty der) = Some (ty, der).
Hypothesis key_roundtrip : ∀ key der, MarshalECPrivateKey crypto key = Ok der → ParseECPrivateKey crypto der = Ok key.
Hypothesis created_matches : ∀ t p k s w der w', CreateCertificate crypto t p k s w = (Ok der, w') →
  ∃ cert, ParseCertificate crypto der = Ok cert ∧ matches cert k ∧ carries t cert.
Hypothesis signed_verifies : ∀ t parent k s w der w' caPEM use dns now,
  CreateCertificate crypto t parent k s w = (Ok der, w') → certificate_in crypto caPEM parent → matches parent s → may_sign parent →
  use ∈ x_ExtKeyUsage t → dns ∈ x_DNSNames t →
  valid_at crypto caPEM now → valid_at crypto (pem_Encode crypto pemTypeCertificate der) now →
  x509_Verify caPEM (pem_Encode crypto pemTypeCertificate der) use (Some dns) now = true.

(** C33. A deployed agent and the manager find each other, and nobody else does.  Let the
    manager have ensured the PKI, and let the agent, deployed with TLS by the pool agent
    controller, see in its mount the server's Secret of any moment since.  Then the agent either
    fails before it serves anything, or it serves with mutual TLS: the manager's connection,
    made with its material of any other moment, comes about whenever the CA and the two
    leaves are within their dates, its keepalive is one that the agent's options permit, and
    whoever connects shows a certificate that the operator's own CA vouches for as a client
    at the time. *)
Theorem deployed_agent_serves_manager cfg0 w b w0 x y srv deviceName g now client v :
  let cfg := with_defaults cfg0 in
  pc_CertManagerEnabled cfg = false → NoDup (pki_names cfg) → coherent crypto x509_Verify matches cfg w →
  EnsurePKI crypto c clockNow cfg0 w = (Ok b, w0) →
  rtc (rotation crypto c clockNow cfg0) (NewClientTLS b, w0) x → rtc (rotation crypto c clockNow cfg0) (NewClientTLS b, w0) y →
  stored cfg x.2 (pc_ServerSecretName cfg) = Some srv → mounted srv → want_tls r = true →
  (∃ e v', ∀ grpc_Serve, run_agent grpc_Serve deviceName g now client v = (Err e, v')) ∨
  ∃ sc v', let so := server_options (Some sc) in
    (∀ t, valid_at crypto (bd_CACertPEM b) t → valid_at crypto (data_at srv TLSCertKey) t → valid_at crypto (leaf_of (tls_leaf y.1)) t →
       connects x509_Verify leaf_of t so (dial_options (Some y.1)) = true) ∧
    keepalive_permitted so (dial_options (Some y.1)) ∧
    (∀ dial t, connects x509_Verify leaf_of t so dial = true →
       ∃ cc, do_Creds dial = Some cc ∧ x509_Verify (bd_CACertPEM b) (leaf_of (cl_Certificate cc)) "ClientAuth" None t = true) ∧
    ∀ grpc_Serve, run_agent grpc_Serve deviceName g now client v =
      st_try (grpc_Serve so (agent_server now client)) id (λ _, do! c_Close client in st_ret (Ok ())) v'.
Proof.
  intros cfg Hcm Hnd Hco E Hx Hy Hs Hm Ht.
  pose proof (bootstrap_trusts crypto c clockNow clock_keeps key_keeps rand_keeps create_keeps x509_Verify matches
    pem_roundtrip key_roundtrip created_matches signed_verifies cfg0 Hcm Hnd w b w0 Hco E) as H0.
  pose proof (λ z, rotations_trust crypto c clockNow clock_keeps key_keeps rand_keeps create_keeps x509_Verify matches
    pem_roundtrip key_roundtrip created_matches signed_verifies cfg0 Hcm Hnd (NewClientTLS b, w0) z) as Hrun.
  destruct (Hrun x Hx H0) as [Tx Ex]. destruct (Hrun y Hy H0) as [Ty Ey]. cbn in Ex, Ey.
  destruct (trusts_fit crypto x509_Verify matches cfg0 x y srv Tx Ty) as (Hroot & Hsrv & Hcl); [congruence|exact Hs|].
  destruct (Start_tls (agent_server now client) v eq_refl) as [(e & v' & He)|(sc & v' & v1 & v2 & Hb & Hrest)].
  { left. exists e, v'. intros grpc_Serve. rewrite run_agent_tls by done. unfold st_try, st_bind. by rewrite He. }
  right. exists sc, v'. destruct (deployed_config srv y.1 now client _ _ _ Hm Hroot Hsrv Hcl Hb) as (Ha & Hca & Hh). cbv zeta. split_and!.
  - intros t V1 V2 V3. unfold connects. cbn [server_options dial_options so_Creds do_Creds fmap option_fmap option_map].
    apply Hh; [by rewrite Ey|exact V2|exact V3].
  - split; [vm_compute; discriminate|done].
  - intros dial t. unfold connects. cbn [server_options so_Creds]. destruct (do_Creds dial) as [cc|]; [|done].
    unfold handshake. rewrite Ha, !andb_true_iff. intros [_ Hv]. exists cc. by rewrite <-Ey, <-Hca.
  - intros grpc_Serve. rewrite run_agent_tls by done. unfold st_try, st_bind. by rewrite Hrest.
Qed.
End Deployed.

(** With only some of the files the agent announces mutual TLS (agent.go:274) and serves in
    the clear. *)
Lemma partial_files_plaintext {W Pair} (host : ServerHost W Pair) late uptime timestamp grpc_Serve (client : Client W) port healthPort now
    certFile keyFile clientCAFile w w1 w2 :
  certFile = "" ∨ keyFile = "" ∨ clientCAFile = "" →
  let s := SetTLSFiles certFile keyFile clientCAFile (NewGRPCServer (Some client) port healthPort now) in
  startHealthServer host late uptime timestamp s w = ((), w1) → net_Listen host (":" +:+ go_itoa port) w1 = (Ok (), w2) →
  Start host late uptime timestamp grpc_Serve s w = grpc_Serve (server_options None) s w2.
Proof.
  intros Hf s Eh El. unfold Start, st_try, st_bind. rewrite Eh. cbn [s SetTLSFiles NewGRPCServer Grpc.port]. rewrite El.
  assert (tlsEnabled s = false) as -> by (unfold tlsEnabled; cbn; destruct Hf as [ -> | [ -> | -> ] ]; cbn; by rewrite ?andb_false_r). done.
Qed.

(** ** Witness *)
Module AgentTlsWitness.
Import PkiTrustWitness.
#[local] Existing Instance listed_order.
(** The files of a Secret under the mount path; device A of a fleet is served. *)
Definition host_with (srv : Secret) : ServerHost Fleet (string * string) :=
  let read path : result string :=
    if bool_decide (path = "/etc/hsm/tls/tls.crt") then Ok (data_at srv TLSCertKey)
    else if bool_decide (path = "/etc/hsm/tls/tls.key") then Ok (data_at srv TLSPrivateKeyKey)
    else if bool_decide (path = "/etc/hsm/tls/ca.crt") then Ok (data_at srv ServiceAccountRootCAKey)
    else Err (errorf "no such file") in
  mkServerHost (λ path, st_ret (read path)) (λ _, true)
    (λ certFile keyFile, st_ret (match read certFile, read keyFile with Ok cert, Ok key => Ok (cert, key) | _, _ => Err (errorf "no pair") end))
    (λ _, st_ret (Ok ())) (λ _ _, st_ret ()).
Definition srv : Secret := default (newPKISecret "" "" ∅) (stored cfg first.2 "hsm-server").
Definition host : ServerHost Fleet (string * string) := host_with srv.
Definition run (grpc_Serve : ServerOptions (string * string) → GRPCServer Fleet → ST Fleet (result unit)) : result unit :=
  (run_agent host (st_ret false) "" "" CommandWitness.r grpc_Serve "pico" (Err (errorf "none")) (mkTime 0 0) (mock_of "A") ∅).1.

Lemma file_inj file file' : agentTLSMountPath +:+ "/" +:+ file = agentTLSMountPath +:+ "/" +:+ file' → file = file'.
Proof. intros H. by injection H. Qed.
Definition path_of (file : string) : string := agentTLSMountPath +:+ "/" +:+ file.
Lemma read_mounted s file d v v' : os_ReadFile (host_with s) (path_of file) v = (Ok d, v') → d = data_at s file.
Proof.
  cbn [host_with os_ReadFile]. unfold st_ret. intros H%(f_equal fst). cbn [fst] in H. revert H.
  change "/etc/hsm/tls/tls.crt" with (path_of TLSCertKey). change "/etc/hsm/tls/tls.key" with (path_of TLSPrivateKeyKey).
  change "/etc/hsm/tls/ca.crt" with (path_of ServiceAccountRootCAKey).
  do 3 (case_bool_decide as E; [apply file_inj in E as ->; intros [= <-]; reflexivity|clear E]). intros [=].
Qed.
Lemma mounted_files s : mounted (host_with s) s.
Proof. intros file v d v'. apply read_mounted. Qed.
Lemma watcher_pair s certFile keyFile (v : Fleet) p v' : watcher_New (host_with s) certFile keyFile v = (Ok p, v') →
  ∃ certPEM keyPEM, X509KeyPair crypto certPEM keyPEM = Ok p ∧
    (∃ v1 v2, os_ReadFile (host_with s) certFile v1 = (Ok certPEM, v2)) ∧ ∃ v1 v2, os_ReadFile (host_with s) keyFile v1 = (Ok keyPEM, v2).
Proof.
  cbn [host_with watcher_New os_ReadFile]. unfold st_ret. intros H%(f_equal fst). cbn [fst] in H. revert H.
  match goal with |- match ?a with _ => _ end = _ → _ => destruct a as [cert|]; [|done] end.
  match goal with |- match ?a with _ => _ end = _ → _ => destruct a as [key|]; [|done] end. intros [= <-].
  exists cert, key. split; [done|]. split; by exists v, v.
Qed.
Lemma any_name roots leaf use name t : x509_Verify roots leaf use (Some name) t = true → x509_Verify roots leaf use None t = true.
Proof.
  unfold x509_Verify. repeat case_match; try done. rewrite !andb_true_iff. naive_solver.
Qed.

Lemma pair_cert certPEM keyPEM p : X509KeyPair crypto certPEM keyPEM = Ok p →
  (∀ roots use name t, x509_Verify roots p.1 use name t = x509_Verify roots certPEM use name t) ∧
  ∀ t, valid_at crypto p.1 t → valid_at crypto certPEM t.
Proof. intros [= <-]. by split. Qed.
(** Within the dates of a certificate, decided. *)
Lemma within_valid pem t : (if content pem is Some x then within t x else false) = true → valid_at crypto pem t.
Proof.
  intros H. destruct (content pem) as [x|] eqn:E; [|done]. exists (certificate_of x). split; [apply certificate_content; by exists x|].
  revert H. unfold within. rewrite andb_true_iff, !Z.leb_le. done.
Qed.

Example deployed_agent_serves_manager_witness :
  (∃ sc, connects x509_Verify fst (1070 * day) (server_options (Some sc)) (dial_options (Some rotated.1)) = true ∧
         connects x509_Verify fst (1070 * day) (server_options (Some sc)) (dial_options None) = false) ∧
  run (λ so _, st_ret (match so_Creds so with Some _ => Ok () | None => Err (errorf "in the clear") end)) = Ok ().
Proof.
  split; [|vm_compute; reflexivity].
  destruct (deployed_agent_serves_manager crypto Mem.kube clock x509_Verify matches fst pair_cert
    any_name host (st_ret false) "" "" (watcher_pair srv) CommandWitness.r keep_clock keep_key (λ _ w, eq_refl) (λ _ _ _ _ w, eq_refl)
    pem_roundtrip key_roundtrip created_matches signed_verifies cfg empty_world bundle first.2
    (NewClientTLS bundle, first.2) rotated srv "pico" (Err (errorf "none")) (mkTime 0 0) (mock_of "A") ∅ eq_refl distinct empty_coherent
    ensured (rtc_refl _ _) rotates ltac:(vm_compute; reflexivity) (mounted_files srv) eq_refl)
    as [(e & v' & He)|(sc & v' & Hc & _ & Hother & _)].
  - specialize (He (λ _ _, st_ret (Ok ()))). vm_compute in He. discriminate He.
  - exists sc. split; [apply Hc; apply within_valid; vm_compute; reflexivity|].
    apply not_true_is_false. intros (cc & Hcc & _)%Hother. discriminate Hcc.
Defined.
End AgentTlsWitness.
