(* ===== verification/Manager.v ===== *)
(** * internal/modes/manager/manager.go: the manager mode put together

    From the configuration to the components that controller-runtime starts: the options of
    its manager, the PKI, the controllers, the runnables.  controller-runtime is a record of
    operations; the components registered with its manager are kept in order next to the
    world. *)

From S2P Require Import Prelude GoStd Hsm Api Kube.
From S2P Require Import EnvConfig Pki Agents PoolAgents DiscoveryController SecretController Flags.

Local Open Scope go_scope.

(** ** What is registered *)

(** A certificate watcher is the pair of its files. *)
Definition CertWatcher : Type := string * string.

(** The options; of the TLS options only whether HTTP/2 is disabled and whose certificate is
    served. *)
(* [internal/modes/manager/manager.go:194-261 setupManager] *)
Record ManagerOptions := mkOptions {
  op_MetricsBindAddress : string;
  op_MetricsSecureServing : bool;
  op_MetricsAuthentication : bool;
  op_MetricsCertificate : option CertWatcher;
  op_WebhookCertificate : option CertWatcher;
  op_DisableHTTP2 : bool;
  op_HealthProbeBindAddress : string;
  op_LeaderElection : bool;
  op_LeaderElectionID : string;
}.

(** The agent manager with the TLS material it was given. *)
Record OperatorAgents (Pair : Type) := mkOperatorAgents { oa_manager : Manager; oa_clientTLS : option (ClientTLS Pair) }.
Arguments mkOperatorAgents {Pair}.
Arguments oa_manager {Pair}.
Arguments oa_clientTLS {Pair}.

Inductive Component (W Pair : Type) :=
  | HSMPoolController
  | DiscoveryDaemonSetController (r : DiscoveryDaemonSetReconciler)
  | HSMPoolAgentController (agents : OperatorAgents Pair) (r : HSMPoolAgentReconciler W)
  | HSMSecretController (agents : OperatorAgents Pair) (r : HSMSecretReconciler W)
  | CertWatcherRunnable (w : CertWatcher)
  | PKIRunnable (pkiCfg : PKIConfig) (clientTLS : ClientTLS Pair)
  | APIServerRunnable (agents : OperatorAgents Pair) (operatorNamespace : string) (apiPort : Z)
  | MirrorRunnable (agents : OperatorAgents Pair) (operatorNamespace : string) (periodicInterval debounceWindow : Z)
  | HealthCheck (name : string)
  | ReadyCheck (name : string).
Arguments HSMPoolController {W Pair}.
Arguments DiscoveryDaemonSetController {W Pair}.
Arguments HSMPoolAgentController {W Pair}.
Arguments HSMSecretController {W Pair}.
Arguments CertWatcherRunnable {W Pair}.
Arguments PKIRunnable {W Pair}.
Arguments APIServerRunnable {W Pair}.
Arguments MirrorRunnable {W Pair}.
Arguments HealthCheck {W Pair}.
Arguments ReadyCheck {W Pair}.

(** controller-runtime: [mgr_Register] is [SetupWithManager], [Add], [AddHealthzCheck] or
    [AddReadyzCheck], as the component asks for; [mgr_Start] runs what was registered. *)
Record Runtime (W Pair : Type) := mkRuntime {
  ctrl_NewManager : ManagerOptions → ST W (result unit);
  mgr_Register : Component W Pair → ST W (result unit);
  mgr_Start : list (Component W Pair) → ST W (result unit);
  certwatcher_New : string → string → ST W (result CertWatcher);
  kubernetes_NewForConfig : ST W (result unit);
  client_New : ST W (result unit);
  rt_Now : ST W Time;
}.
Arguments mkRuntime {W Pair}.
Arguments ctrl_NewManager {W Pair}.
Arguments mgr_Register {W Pair}.
Arguments mgr_Start {W Pair}.
Arguments certwatcher_New {W Pair}.
Arguments kubernetes_NewForConfig {W Pair}.
Arguments client_New {W Pair}.
Arguments rt_Now {W Pair}.

Section Manager.
Context {W Key Pair : Type} (rt : Runtime W Pair) (env : Environment) (crypto : Crypto W Key Pair) (c : KubeClient W) (clockNow : ST W Z).
Context (ParseDuration : string → result Z) (filepath_Join : list string → string).
Context (agent_interface : OperatorAgents Pair → ManagerInterface W).

(** The registered components next to the world. *)
Definition MState : Type := list (Component W Pair) * W.
Definition outside {A} (m : ST W A) : ST MState A := λ x, let '(a, w) := m x.2 in (a, (x.1, w)).
Definition register (k : Component W Pair) : ST MState (result unit) := λ x,
  let '(r, w) := mgr_Register rt k x.2 in (r, (match r with Ok _ => x.1 ++ [k] | Err _ => x.1 end, w)).
Fixpoint register_all (l : list (Component W Pair)) : ST MState (result unit) :=
  match l with [] => st_ret (Ok ()) | k :: l => st_try (register k) id (λ _, register_all l) end.

(** The watcher of a certificate that is configured. *)
(* [internal/modes/manager/manager.go:175-192 setupManager] *)
Definition cert_watcher (path name key : string) : ST W (result (option CertWatcher)) :=
  if bool_decide (path = "") then st_ret (Ok None)
  else st_try (certwatcher_New rt (filepath_Join [path; name]) (filepath_Join [path; key])) id (λ w, st_ret (Ok (Some w))).

(* [internal/modes/manager/manager.go:151-268] *)
Definition setupManager (cfg : managerConfig) : ST W (result (option CertWatcher * option CertWatcher)) :=
  st_try (cert_watcher (webhookCertPath cfg) (webhookCertName cfg) (webhookCertKey cfg)) id (λ webhook,
  st_try (cert_watcher (metricsCertPath cfg) (metricsCertName cfg) (metricsCertKey cfg)) id (λ metrics,
  st_try (ctrl_NewManager rt (mkOptions (metricsAddr cfg) (secureMetrics cfg) (secureMetrics cfg) metrics webhook
            (negb (enableHTTP2 cfg)) (probeAddr cfg) (enableLeaderElection cfg) "64b68d60.j5t.io")) id (λ _,
  st_ret (Ok (metrics, webhook))))).

(** A hostname that cannot be read counts as empty. *)
(* [internal/modes/manager/manager.go:271-289] *)
Definition setupOperatorComponents : result (string * string) :=
  match GetCurrentNamespace env with
  | Err err => Err err
  | Ok operatorNamespace =>
      let operatorName := Getenv env "OPERATOR_NAME" in
      Ok (operatorNamespace, if bool_decide (operatorName = "") then (match Hostname env with Ok h => h | Err _ => "" end) else operatorName)
  end.

(** The field [AgentImage] of the pool agent reconciler stays empty. *)
(* [internal/modes/manager/manager.go:292-347] *)
Definition setupAllControllers (cfg : managerConfig) (serviceAccountName : string) (agents : OperatorAgents Pair)
    (operatorNamespace operatorName : string) : ST MState (result unit) :=
  st_try (register HSMPoolController) id (λ _,
  st_try (register (DiscoveryDaemonSetController (mkDiscoveryReconciler (discoveryImage cfg) serviceAccountName))) id (λ _,
  st_try (register (HSMPoolAgentController agents
            (mkReconciler (Some (agent_interface agents)) true "" serviceAccountName (agentTLSEnabled cfg)
               (agentTLSServerSecret (tlsFlags cfg)) (10 * Minute)))) id (λ _,
  let* now := outside (rt_Now rt) in
  register (HSMSecretController agents (mkSecretReconciler operatorNamespace operatorName now None))))).

(* [internal/modes/manager/manager.go:350-406] *)
Definition startServices (agents : OperatorAgents Pair) (operatorNamespace : string) (cfg : managerConfig)
    (start : ST MState (result unit)) : ST MState (result unit) :=
  st_try (if enableAPI cfg
          then st_try (outside (kubernetes_NewForConfig rt)) id (λ _, register (APIServerRunnable agents operatorNamespace (apiPort cfg)))
          else st_ret (Ok ())) id (λ _,
  st_try (outside (kubernetes_NewForConfig rt)) id (λ _,
  match ParseDuration (mirrorPeriodicInterval cfg) with
  | Err err => st_ret (Err err)
  | Ok periodicInterval =>
      match ParseDuration (mirrorDebounceWindow cfg) with
      | Err err => st_ret (Err err)
      | Ok debounceWindow =>
          st_try (register (MirrorRunnable agents operatorNamespace periodicInterval debounceWindow)) id (λ _, start)
      end
  end)).

(* [internal/modes/manager/pki_runnable.go:59-69] *)
Definition bootstrapAgentPKI (pkiCfg : PKIConfig) : ST W (result (ClientTLS Pair)) :=
  st_try (client_New rt) (wrapf "creating uncached client for PKI bootstrap") (λ _,
  st_try (EnsurePKI crypto c clockNow pkiCfg) (wrapf "ensuring agent mTLS PKI") (λ bundle, st_ret (Ok (NewClientTLS bundle)))).

(** The PKI, if the agents are to be secured. *)
(* [internal/modes/manager/manager.go:436-453 Run] *)
Definition agent_tls (cfg : managerConfig) (operatorNamespace : string) : ST W (result (option (PKIConfig * ClientTLS Pair))) :=
  if agentTLSEnabled cfg then
    match pkiConfig ParseDuration (tlsFlags cfg) operatorNamespace with
    | Err err => st_ret (Err err)
    | Ok pkiCfg => st_try (bootstrapAgentPKI pkiCfg) id (λ tls, st_ret (Ok (Some (pkiCfg, tls))))
    end
  else st_ret (Ok None).

Definition watcher_components (w : option CertWatcher) : list (Component W Pair) :=
  match w with Some w => [CertWatcherRunnable w] | None => [] end.
Definition pki_components (tls : option (PKIConfig * ClientTLS Pair)) : list (Component W Pair) :=
  match tls with Some (pkiCfg, t) => [PKIRunnable pkiCfg t] | None => [] end.

(** [start] is what starts the manager in the end. *)
(* [internal/modes/manager/manager.go:409-507 Run] *)
Definition Run_with (start : ST MState (result unit)) (cfg : managerConfig) : ST MState (result unit) :=
  st_try (outside (setupManager cfg)) id (λ '(metricsCertWatcher, webhookCertWatcher),
  match setupOperatorComponents with
  | Err err => st_ret (Err err)
  | Ok (operatorNamespace, operatorName) =>
      let sa := Getenv env "SERVICE_ACCOUNT_NAME" in
      let serviceAccountName := if bool_decide (sa = "") then "hsm-secrets-operator-controller-manager" else sa in
      st_try (outside (agent_tls cfg operatorNamespace)) id (λ tls,
      let agents := mkOperatorAgents (NewManager operatorNamespace (agentImage cfg)) (snd <$> tls) in
      st_try (setupAllControllers cfg serviceAccountName agents operatorNamespace operatorName) id (λ _,
      st_try (register_all (watcher_components metricsCertWatcher ++ watcher_components webhookCertWatcher ++ pki_components tls ++
                [HealthCheck "healthz"; ReadyCheck "readyz"])) id (λ _,
      startServices agents operatorNamespace cfg start)))
  end).
(** [mgr.Start] runs what is registered by then. *)
Definition start_all : ST MState (result unit) := λ x, let '(r, w) := mgr_Start rt x.1 x.2 in (r, (x.1, w)).
(* [internal/modes/manager/manager.go:400-403 startServices] *)
Definition Run (cfg : managerConfig) : ST MState (result unit) := Run_with start_all cfg.
End Manager.

(** ** What is started *)
Section Started.
Context {W Key Pair : Type} (rt : Runtime W Pair) (env : Environment) (crypto : Crypto W Key Pair) (c : KubeClient W) (clockNow : ST W Z).
Context (ParseDuration : string → result Z) (filepath_Join : list string → string).
Context (agent_interface : OperatorAgents Pair → ManagerInterface W).

Local Abbreviation Run_with := (Run_with rt env crypto c clockNow ParseDuration filepath_Join agent_interface).

(** The components for a configuration, in order. *)
Definition pool_agent_reconciler (cfg : managerConfig) (sa : string) (agents : OperatorAgents Pair) : HSMPoolAgentReconciler W :=
  mkReconciler (Some (agent_interface agents)) true "" sa (agentTLSEnabled cfg) (agentTLSServerSecret (tlsFlags cfg)) (10 * Minute).
Definition components (cfg : managerConfig) (ns name sa : string) (now : Time) (metrics webhook : option CertWatcher)
    (tls : option (PKIConfig * ClientTLS Pair)) (interval window : Z) : list (Component W Pair) :=
  let agents := mkOperatorAgents (NewManager ns (agentImage cfg)) (snd <$> tls) in
  [HSMPoolController; DiscoveryDaemonSetController (mkDiscoveryReconciler (discoveryImage cfg) sa);
   HSMPoolAgentController agents (pool_agent_reconciler cfg sa agents);
   HSMSecretController agents (mkSecretReconciler ns name now None)] ++
  (watcher_components metrics ++ watcher_components webhook ++ pki_components tls ++ [HealthCheck "healthz"; ReadyCheck "readyz"]) ++
  (if enableAPI cfg then [APIServerRunnable agents ns (apiPort cfg)] else []) ++ [MirrorRunnable agents ns interval window].

(** There is a watcher of a certificate just when its directory is configured, for the files
    of that directory. *)
Definition watcher_made (path name key : string) (w : W) (watcher : option CertWatcher) (w' : W) : Prop :=
  (path = "" ∧ watcher = None ∧ w' = w) ∨
  (path ≠ "" ∧ ∃ cw, watcher = Some cw ∧ certwatcher_New rt (filepath_Join [path; name]) (filepath_Join [path; key]) w = (Ok cw, w')).

(** The options that the manager is to be made with: metrics on the configured address,
    behind authentication and HTTPS if they are to be secure; the certificates of the
    watchers; HTTP/2 only on demand; and the leader election that was asked for. *)
Definition options_for (cfg : managerConfig) (metrics webhook : option CertWatcher) (o : ManagerOptions) : Prop :=
  op_MetricsBindAddress o = metricsAddr cfg ∧ op_MetricsSecureServing o = secureMetrics cfg ∧
  op_MetricsAuthentication o = secureMetrics cfg ∧ op_MetricsCertificate o = metrics ∧ op_WebhookCertificate o = webhook ∧
  (op_DisableHTTP2 o = true ↔ enableHTTP2 cfg = false) ∧ op_HealthProbeBindAddress o = probeAddr cfg ∧
  op_LeaderElection o = enableLeaderElection cfg ∧ op_LeaderElectionID o = "64b68d60.j5t.io".

Definition manager_made (cfg : managerConfig) (metrics webhook : option CertWatcher) (w : W) : Prop :=
  ∃ w1 w2 o w3,
    watcher_made (webhookCertPath cfg) (webhookCertName cfg) (webhookCertKey cfg) w webhook w1 ∧
    watcher_made (metricsCertPath cfg) (metricsCertName cfg) (metricsCertKey cfg) w1 metrics w2 ∧
    options_for cfg metrics webhook o ∧ ctrl_NewManager rt o w2 = (Ok (), w3).

Lemma cert_watcher_made path name key w watcher w' :
  cert_watcher rt filepath_Join path name key w = (Ok watcher, w') → watcher_made path name key w watcher w'.
Proof.
  unfold cert_watcher, st_try, st_bind, st_ret. case_bool_decide as Hp; [intros [= <- <-]; by left|].
  destruct (certwatcher_New rt _ _ w) as [[cw|e] w1] eqn:E; [|done]. intros [= <- <-]. right. split; [done|]. by exists cw.
Qed.

Lemma setupManager_made cfg w metrics webhook w' :
  setupManager rt filepath_Join cfg w = (Ok (metrics, webhook), w') → manager_made cfg metrics webhook w.
Proof.
  unfold setupManager. unfold st_try, st_bind, st_ret.
  destruct (cert_watcher _ _ (webhookCertPath cfg) _ _ w) as [[wh|e] w1] eqn:E1; [|done].
  destruct (cert_watcher _ _ (metricsCertPath cfg) _ _ w1) as [[me|e] w2] eqn:E2; [|done].
  destruct (ctrl_NewManager rt _ w2) as [[[]|e] w3] eqn:E3; [|done]. intros [= <- <- <-].
  apply cert_watcher_made in E1, E2. eexists w1, w2, _, w3. split_and!; [exact E1|exact E2| |exact E3].
  unfold options_for. cbn. split_and!; try done. by destruct (enableHTTP2 cfg).
Qed.

(** The material the manager dials with: that of a PKI that was ensured, or none. *)
Definition tls_as_configured (cfg : managerConfig) (ns : string) (tls : option (PKIConfig * ClientTLS Pair)) : Prop :=
  match tls with
  | None => agentTLSEnabled cfg = false
  | Some (pkiCfg, t) =>
      agentTLSEnabled cfg = true ∧ pkiConfig ParseDuration (tlsFlags cfg) ns = Ok pkiCfg ∧
      ∃ w bundle w', EnsurePKI crypto c clockNow pkiCfg w = (Ok bundle, w') ∧ t = NewClientTLS bundle
  end.

Lemma register_run k l w : ∃ r w', register rt k (l, w) = (r, (match r with Ok _ => l ++ [k] | Err _ => l end, w')).
Proof. unfold register. cbn [fst snd]. destruct (mgr_Register rt k w) as [r w']. by exists r, w'. Qed.
Lemma register_all_run ks l w : ∃ r l' w', register_all rt ks (l, w) = (r, (l', w')) ∧ (r = Ok () → l' = l ++ ks).
Proof.
  revert l w. induction ks as [|k ks IH]; intros l w; [exists (Ok ()), l, w; by rewrite app_nil_r|]. cbn [register_all]. unfold st_try, st_bind.
  destruct (register_run k l w) as ([[]|e] & w1 & ->); [|by exists (Err e), l, w1].
  destruct (IH (l ++ [k]) w1) as (r & l' & w2 & E & Hl). exists r, l', w2. split; [exact E|]. intros Hr. by rewrite (Hl Hr), <-app_assoc.
Qed.
Lemma agent_tls_run cfg ns w : ∃ r w', agent_tls rt crypto c clockNow ParseDuration cfg ns w = (r, w') ∧
  ∀ tls, r = Ok tls → tls_as_configured cfg ns tls.
Proof.
  unfold agent_tls, bootstrapAgentPKI, st_try, st_bind. destruct (agentTLSEnabled cfg) eqn:Ee; [|exists (Ok None), w; by split; [|intros ? [= <-]]].
  destruct (pkiConfig _ _ ns) as [pkiCfg|e] eqn:Ep; [|by exists (Err e), w].
  destruct (client_New rt w) as [[[]|e] w1]; [|by eexists _, w1].
  destruct (EnsurePKI crypto c clockNow pkiCfg w1) as [[b|e] w2] eqn:Eb; [|by eexists _, w2].
  eexists _, w2. split; [done|]. intros tls [= <-]. split_and!; [done|done|]. by exists w1, b, w2.
Qed.

(** The part behind the registration of the controllers. *)
Lemma startServices_run agents ns cfg l w :
  (∃ e x, ∀ start, startServices rt ParseDuration agents ns cfg start (l, w) = (Err e, x)) ∨
  ∃ interval window w', ParseDuration (mirrorPeriodicInterval cfg) = Ok interval ∧ ParseDuration (mirrorDebounceWindow cfg) = Ok window ∧
    ∀ start, startServices rt ParseDuration agents ns cfg start (l, w) =
      start (l ++ (if enableAPI cfg then [APIServerRunnable agents ns (apiPort cfg)] else []) ++ [MirrorRunnable agents ns interval window], w').
Proof.
  unfold startServices. set (api := if enableAPI cfg then _ else _).
  assert (∃ r l' w', api (l, w) = (r, (l', w')) ∧
    (r = Ok () → l' = l ++ (if enableAPI cfg then [APIServerRunnable agents ns (apiPort cfg)] else []))) as (r & l1 & w1 & E1 & H1).
  { unfold api. destruct (enableAPI cfg); [|exists (Ok ()), l, w; by rewrite app_nil_r]. unfold st_try, st_bind, outside. cbn [fst snd].
    destruct (kubernetes_NewForConfig rt w) as [[[]|e] w1]; [|by eexists _, l, w1].
    destruct (register_run (APIServerRunnable agents ns (apiPort cfg)) l w1) as ([[]|e] & w2 & ->);
      eexists _, _, w2; (split; [reflexivity|done]). }
  unfold st_try, st_bind. rewrite E1. destruct r as [[]|e]; [|by left; exists e, (l1, w1)]. rewrite (H1 eq_refl).
  unfold outside. cbn [fst snd]. destruct (kubernetes_NewForConfig rt w1) as [[[]|e] w2]; [|left; by eexists _, _].
  destruct (ParseDuration (mirrorPeriodicInterval cfg)) as [interval|e]; [|left; by eexists _, _].
  destruct (ParseDuration (mirrorDebounceWindow cfg)) as [window|e]; [|left; by eexists _, _].
  match goal with |- context [register rt ?k (?l', w2)] => destruct (register_run k l' w2) as ([[]|e] & w3 & ->) end; [|left; by eexists _, _].
  right. exists interval, window, w3. split_and!; [done..|]. intros start. by rewrite <-app_assoc.
Qed.

(** C40. The manager mode either fails before anything is started, or has made the manager
    of controller-runtime with the configured options and starts exactly the components of
    its configuration: the four controllers, a watcher for each certificate whose directory
    is configured and for no other, the rotation of the PKI if TLS is on, both checks, the
    REST API if it is on and the mirror, all with the one agent manager.  It dials agents
    with material of the PKI that was ensured under the configured names just when TLS is
    on, and the agents it deploys serve TLS in the same case, provided the server's Secret
    has a name. *)
Theorem Run_starts_configured cfg w :
  (∃ e x, ∀ start, Run_with start cfg ([], w) = (Err e, x)) ∨
  ∃ ns name now metrics webhook tls interval window w',
    let sa := if bool_decide (Getenv env "SERVICE_ACCOUNT_NAME" = "") then "hsm-secrets-operator-controller-manager"
              else Getenv env "SERVICE_ACCOUNT_NAME" in
    let agents := mkOperatorAgents (NewManager ns (agentImage cfg)) (snd <$> tls) in
    manager_made cfg metrics webhook w ∧ setupOperatorComponents env = Ok (ns, name) ∧ tls_as_configured cfg ns tls ∧
    ParseDuration (mirrorPeriodicInterval cfg) = Ok interval ∧ ParseDuration (mirrorDebounceWindow cfg) = Ok window ∧
    (agentTLSServerSecret (tlsFlags cfg) ≠ "" →
      want_tls (pool_agent_reconciler cfg sa agents) = bool_decide (is_Some (oa_clientTLS agents))) ∧
    ∀ start, Run_with start cfg ([], w) = start (components cfg ns name sa now metrics webhook tls interval window, w').
Proof.
  unfold Manager.Run_with, st_try, st_bind, outside. cbn [fst snd].
  destruct (setupManager rt filepath_Join cfg w) as [[[metrics webhook]|e] w1] eqn:Em; [|left; by eexists _, _].
  apply setupManager_made in Em.
  destruct (setupOperatorComponents env) as [[ns name]|e]; [|left; by eexists _, _].
  set (sa := if bool_decide _ then _ else _).
  cbn [fst snd]. destruct (agent_tls_run cfg ns w1) as ([tls|e] & w2 & -> & Htls); [|left; by eexists _, _]. specialize (Htls tls eq_refl).
  set (agents := mkOperatorAgents _ (snd <$> tls)). unfold setupAllControllers, st_try, st_bind, outside. cbn [fst snd id].
  destruct (register_run HSMPoolController [] w2) as ([[]|e] & w3 & ->); [|left; by eexists _, _].
  match goal with |- context [register rt ?k (?l', w3)] => destruct (register_run k l' w3) as ([[]|e] & w4 & ->) end; [|left; by eexists _, _].
  match goal with |- context [register rt ?k (?l', w4)] => destruct (register_run k l' w4) as ([[]|e] & w5 & ->) end; [|left; by eexists _, _].
  cbn [fst snd]. destruct (rt_Now rt w5) as [now w6].
  match goal with |- context [register rt ?k (?l', w6)] => destruct (register_run k l' w6) as ([[]|e] & w7 & ->) end; [|left; by eexists _, _].
  match goal with |- context [register_all rt ?ks (?l', w7)] => destruct (register_all_run ks l' w7) as ([[]|e] & l8 & w8 & -> & H8) end;
    [|left; by eexists _, _]. rewrite (H8 eq_refl).
  match goal with |- context [startServices rt ParseDuration agents ns cfg _ (?l', w8)] =>
    destruct (startServices_run agents ns cfg l' w8) as [(e & x & He)|(interval & window & w9 & Hi & Hw & Hs)] end;
    [left; by exists e, x|]. right.
  exists ns, name, now, metrics, webhook, tls, interval, window, w9. cbv zeta. split_and!; [done..| |].
  - intros Hn. unfold want_tls, pool_agent_reconciler, PoolAgents.AgentTLSEnabled, AgentTLSSecretName. rewrite (bool_decide_eq_true_2 (_ ≠ "")) by done.
    rewrite andb_true_r. destruct tls as [[pkiCfg t]|]; [destruct Htls as [Ht _]|]; cbn; by rewrite ?Ht, ?Htls.
  - intros start. by rewrite Hs.
Qed.
End Started.

(** ** Witness *)
Module ManagerWitness.
Definition rt : Runtime Objects (string * string) := mkRuntime (λ _, st_ret (Ok ())) (λ _, st_ret (Ok ())) (λ _, st_ret (Ok ()))
  (λ f g, st_ret (Ok (f, g))) (st_ret (Ok ())) (st_ret (Ok ())) (st_ret (mkTime 1767225600 0)).
Definition env : Environment := mkEnvironment (λ v, if bool_decide (v = "POD_NAMESPACE") then "hsm" else "") (Ok "host") (λ _, Err (errorf "no file")).
Definition ParseDuration (s : string) : result Z :=
  if bool_decide (s = "5m") then Ok (5 * Minute) else if bool_decide (s = "5s") then Ok (5 * Second)
  else if bool_decide (s = "2160h") then Ok (2160 * Hour) else if bool_decide (s = "720h") then Ok (720 * Hour) else Err ErrSyntax.
(** The defaults, with an image for the agents and a certificate for the metrics. *)
Definition cfg : result managerConfig := parseFlags ParseDuration ["--agent-image=agent:v2"; "--metrics-cert-path=/certs"; "-leader-elect"].
Definition join (l : list string) : string := str_join "/" l.
Definition run (cfg : managerConfig) : result unit * MState (W := Objects) (Pair := string * string) :=
  Run rt env PkiWitness.crypto Mem.kube PkiWitness.clock ParseDuration join (λ _, mkManagerInterface (λ _, st_ret (Ok ())) (λ _, st_ret (Ok ())))
    cfg ([], PkiWitness.w0).
Definition describe (k : Component Objects (string * string)) : string :=
  match k with
  | HSMPoolController => "pool"
  | DiscoveryDaemonSetController _ => "discovery"
  | HSMPoolAgentController _ r => "agents with image <" +:+ AgentImage r +:+ ">"
  | HSMSecretController _ _ => "secrets"
  | CertWatcherRunnable w => w.1
  | PKIRunnable pkiCfg _ => pc_ServerSecretName pkiCfg
  | APIServerRunnable _ _ port => go_itoa port
  | MirrorRunnable _ ns _ _ => "mirror in " +:+ ns
  | HealthCheck n | ReadyCheck n => n
  end.
(** The image is not used for the agents. *)
Example manager_starts :
  match cfg with
  | Ok cfg => (run cfg).1 = Ok () ∧ describe <$> (run cfg).2.1 =
      ["pool"; "discovery"; "agents with image <>"; "secrets"; "/certs/tls.crt"; "hsm-agent-server-tls"; "healthz"; "readyz"; "8090"; "mirror in hsm"]
  | Err _ => False
  end.
Proof. vm_compute. split; reflexivity. Qed.
End ManagerWitness.
