(* ===== verification/GoHeap.v ===== *)
(** * Go memory: pointers, slices and maps

    A heap of arrays of typed elements and of maps.  A pointer points to an array of one
    element ([new(T)]), a slice is a window of an array.  [fresh_copy] says of a computation
    that it succeeds, writes nothing that was there, and gives something that lives wholly in
    the cells it has made; its rules follow the code. *)

From stdpp Require Import fin_maps.
From S2P Require Import Prelude GoStd.

Local Open Scope go_scope.

Definition Loc : Type := positive.

(** References, typed by the kind of what they refer to; [None] is nil. *)
Definition Ptr {K : Type} (_ : K) : Type := option Loc.
Record SliceHeader := mkSlice { sl_array : Loc; sl_offset : nat; sl_len : nat }.
Definition Slice {K : Type} (_ : K) : Type := option SliceHeader.
(** A [map[string]string]. *)
Definition StringMap : Type := option Loc.

Section Heap.
Context {K : Type} `{!EqDecision K} (sem : K → Type) (zero : ∀ k, sem k).

Inductive Cell := Array (k : K) (l : list (sem k)) | Map (m : gmap string string).
Local Abbreviation Heap := (gmap Loc Cell).

(** Go's types rule out that a reference refers to something of another kind. *)
Definition as_array (k : K) (c : Cell) : option (list (sem k)) :=
  match c with
  | Array k' l => match decide (k' = k) with left e => Some (eq_rect k' (λ k, list (sem k)) l k e) | right _ => None end
  | Map _ => None
  end.
Definition as_map (c : Cell) : option (gmap string string) := match c with Map m => Some m | Array _ _ => None end.
Definition array_at (k : K) (h : Heap) (l : Loc) : option (list (sem k)) := h !! l ≫= as_array k.
Definition map_at (h : Heap) (l : Loc) : option (gmap string string) := h !! l ≫= as_map.

(** ** Operations *)
Definition alloc (c : Cell) : ST Heap (result Loc) := λ h, let l := fresh (dom h) in (Ok l, <[l := c]> h).
Definition load (k : K) (l : Loc) (i : nat) : ST Heap (result (sem k)) := λ h,
  (match array_at k h l ≫= (.!! i) with Some x => Ok x | None => Err nil_dereference end, h).
Definition store (k : K) (l : Loc) (i : nat) (x : sem k) : ST Heap (result unit) := λ h,
  match array_at k h l with
  | Some xs => (Ok (), <[l := Array k (<[i := x]> xs)]> h)
  | None => (Err nil_dereference, h)
  end.
Definition map_store (l : Loc) (key v : string) : ST Heap (result unit) := λ h,
  match map_at h l with
  | Some m => (Ok (), <[l := Map (<[key := v]> m)]> h)
  | None => (Err nil_dereference, h)
  end.
Definition map_load (l : Loc) : ST Heap (result (gmap string string)) := λ h,
  (match map_at h l with Some m => Ok m | None => Err nil_dereference end, h).

(** ** The copies of a generated function

    [copy] is what is done to an element: its own [DeepCopyInto], or just an assignment. *)
Definition assign {A} (x : A) : ST Heap (result A) := st_ret (Ok x).

(** The loop over the indices of a slice, from [i] on for [n] elements: each element of the
    source is copied into the place of the same index. *)
Fixpoint copy_elements (k : K) (copy : sem k → ST Heap (result (sem k))) (src : Loc) (offset : nat) (dst : Loc) (i n : nat) :
    ST Heap (result unit) :=
  match n with
  | O => st_ret (Ok ())
  | S n =>
      st_try (load k src (offset + i)) id (λ x,
      st_try (copy x) id (λ y,
      st_try (store k dst i y) id (λ _, copy_elements k copy src offset dst (S i) n)))
  end.

(** A slice that is not nil: [make] of the length, then the loop. *)
Definition copy_slice (k : K) (copy : sem k → ST Heap (result (sem k))) (s : Slice k) : ST Heap (result (Slice k)) :=
  match s with
  | None => st_ret (Ok None)
  | Some s =>
      st_try (alloc (Array k (replicate (sl_len s) (zero k)))) id (λ l,
      st_try (copy_elements k copy (sl_array s) (sl_offset s) l 0 (sl_len s)) id (λ _,
      st_ret (Ok (Some (mkSlice l 0 (sl_len s))))))
  end.

(** A pointer that is not nil: [new(T)], then the one element is copied. *)
Definition copy_ptr (k : K) (copy : sem k → ST Heap (result (sem k))) (p : Ptr k) : ST Heap (result (Ptr k)) :=
  match p with
  | None => st_ret (Ok None)
  | Some p =>
      st_try (alloc (Array k [zero k])) id (λ l,
      st_try (copy_elements k copy p 0 l 0 1) id (λ _, st_ret (Ok (Some l))))
  end.

(** A map that is not nil: [make], then an assignment for each entry. *)
Fixpoint store_entries (l : Loc) (kvs : list (string * string)) : ST Heap (result unit) :=
  match kvs with
  | [] => st_ret (Ok ())
  | (key, v) :: kvs => st_try (map_store l key v) id (λ _, store_entries l kvs)
  end.
Definition copy_map `{MapOrder} (p : StringMap) : ST Heap (result StringMap) :=
  match p with
  | None => st_ret (Ok None)
  | Some p =>
      st_try (alloc (Map ∅)) id (λ l,
      st_try (map_load p) id (λ m, st_try (store_entries l (range m)) id (λ _, st_ret (Ok (Some l)))))
  end.

(** ** What a reference stands for

    [rep h x v]: in the heap [h], the element [x] stands for the value [v]. *)
Definition rep_slice {k V} (rep : Heap → sem k → V → Prop) (h : Heap) (s : Slice k) (vs : list V) : Prop :=
  match s with
  | None => vs = []
  | Some s => ∃ xs, array_at k h (sl_array s) = Some xs ∧ (sl_offset s + sl_len s ≤ length xs)%nat ∧
                    Forall2 (rep h) (take (sl_len s) (drop (sl_offset s) xs)) vs
  end.
Definition rep_ptr {k V} (rep : Heap → sem k → V → Prop) (h : Heap) (p : Ptr k) (v : option V) : Prop :=
  match p, v with
  | None, None => True
  | Some l, Some v => ∃ x, array_at k h l = Some [x] ∧ rep h x v
  | _, _ => False
  end.
Definition rep_map (h : Heap) (p : StringMap) (m : gmap string string) : Prop :=
  match p with None => m = ∅ | Some l => map_at h l = Some m end.
Definition rep_base {A} (_ : Heap) (x v : A) : Prop := x = v.

(** What is in a heap is in every greater one. *)
Definition monotone {A V} (rep : Heap → A → V → Prop) : Prop := ∀ h h' x v, h ⊆ h' → rep h x v → rep h' x v.

(** The computation succeeds in [h], with a result of which [Q] holds in the cells it made. *)
Definition fresh_copy {A} (h : Heap) (m : ST Heap (result A)) (Q : Heap → A → Prop) : Prop :=
  ∃ a hn, m h = (Ok a, hn ∪ h) ∧ hn ##ₘ h ∧ Q hn a.
(** A copier: what stands for a value is copied to something that does so by itself. *)
Definition copies {A V} (rep : Heap → A → V → Prop) (copy : A → ST Heap (result A)) : Prop :=
  ∀ h x v, rep h x v → fresh_copy h (copy x) (λ hn y, rep hn y v).

(** ** Rules *)
Lemma as_array_eq k l : as_array k (Array k l) = Some l.
Proof. unfold as_array. destruct (decide (k = k)) as [e|]; [|done]. by rewrite (proof_irrel e eq_refl). Qed.
Lemma array_at_insert k l xs h : array_at k (<[l := Array k xs]> h) l = Some xs.
Proof. unfold array_at. rewrite lookup_insert_eq. apply as_array_eq. Qed.
Lemma array_at_mono k h h' l xs : h ⊆ h' → array_at k h l = Some xs → array_at k h' l = Some xs.
Proof.
  unfold array_at. intros Hs H. apply bind_Some in H as (c & Hc & Hx). by rewrite (lookup_weaken _ _ _ _ Hc Hs).
Qed.
Lemma map_at_mono h h' l m : h ⊆ h' → map_at h l = Some m → map_at h' l = Some m.
Proof. unfold map_at. intros Hs H. apply bind_Some in H as (c & Hc & Hx). by rewrite (lookup_weaken _ _ _ _ Hc Hs). Qed.

Lemma rep_base_mono A : monotone (@rep_base A).
Proof. by intros h h' x v _. Qed.
Lemma rep_slice_mono k V (rep : Heap → sem k → V → Prop) : monotone rep → monotone (rep_slice rep).
Proof.
  intros Hm h h' [s|] vs Hs; [|done]. intros (xs & Hx & Hl & Hf). exists xs. split; [by eapply array_at_mono|]. split; [done|].
  eapply Forall2_impl; [exact Hf|]. intros x v. by apply Hm.
Qed.
Lemma rep_ptr_mono k V (rep : Heap → sem k → V → Prop) : monotone rep → monotone (rep_ptr rep).
Proof.
  intros Hm h h' [l|] [v|] Hs; try done. intros (x & Hx & Hr). exists x. split; [by eapply array_at_mono|by eapply Hm].
Qed.
Lemma rep_map_mono : monotone rep_map.
Proof. intros h h' [l|] m Hs; [|done]. by apply map_at_mono. Qed.

Lemma fresh_copy_ret {A} h (a : A) (Q : Heap → A → Prop) : Q ∅ a → fresh_copy h (st_ret (Ok a)) Q.
Proof. intros HQ. exists a, ∅. rewrite (left_id ∅ (∪)). split; [done|]. split; [apply map_disjoint_empty_l|done]. Qed.
Lemma fresh_copy_bind {A B} h (m : ST Heap (result A)) (k : A → ST Heap (result B)) Q R :
  fresh_copy h m Q →
  (∀ a hn, hn ##ₘ h → Q hn a → fresh_copy (hn ∪ h) (k a) (λ hn' b, hn' ##ₘ hn → R (hn' ∪ hn) b)) →
  fresh_copy h (st_try m id k) R.
Proof.
  intros (a & hn & E & Hd & HQ) Hk. destruct (Hk a hn Hd HQ) as (b & hn' & E' & Hd' & HR).
  apply map_disjoint_union_r in Hd' as [Hd1 Hd2]. exists b, (hn' ∪ hn). unfold st_try, st_bind. rewrite E, E'.
  split; [by rewrite (assoc_L (∪))|]. split; [by apply map_disjoint_union_l|by apply HR].
Qed.
Lemma fresh_copy_mono {A} h (m : ST Heap (result A)) (Q R : Heap → A → Prop) :
  fresh_copy h m Q → (∀ hn a, Q hn a → R hn a) → fresh_copy h m R.
Proof. intros (a & hn & E & Hd & HQ) HQR. exists a, hn. split; [done|]. split; [done|by apply HQR]. Qed.

Lemma assign_copies {A} : copies (@rep_base A) assign.
Proof. intros h x v ->. by apply fresh_copy_ret. Qed.

(** ** The copiers copy *)
Lemma store_at k l i x ys h : store k l i x (<[l := Array k ys]> h) = (Ok (), <[l := Array k (<[i := x]> ys)]> h).
Proof. unfold store. by rewrite array_at_insert, insert_insert_eq. Qed.

(** The loop writes the array [dst] and new cells only; [h] is the heap without [dst]. *)
Lemma copy_elements_spec {V} k copy (rep : Heap → sem k → V → Prop) src off dst xs n : monotone rep → copies rep copy → ∀ i h ys vs,
  h !! dst = None → array_at k h src = Some xs → (off + i + n ≤ length xs)%nat →
  Forall2 (rep h) (take n (drop (off + i) xs)) vs → length ys = (i + n)%nat →
  ∃ hr ys', copy_elements k copy src off dst i n (<[dst := Array k ys]> h) = (Ok (), <[dst := Array k (take i ys ++ ys')]> (hr ∪ h)) ∧
    hr ##ₘ h ∧ hr !! dst = None ∧ Forall2 (rep hr) ys' vs.
Proof.
  intros Hm Hc. induction n as [|n IH]; intros i h ys vs Hd Hsrc Hlen Hf Hys.
  { apply Forall2_nil_inv_l in Hf as ->. exists ∅, []. rewrite app_nil_r, take_ge by lia. rewrite (left_id ∅ (∪)).
    split; [done|]. split; [apply map_disjoint_empty_l|]. split; [apply lookup_empty|constructor]. }
  assert (is_Some (xs !! (off + i)%nat)) as [x Hx] by (apply lookup_lt_is_Some; lia).
  rewrite (drop_S _ _ _ Hx) in Hf. cbn [take] in Hf. apply Forall2_cons_inv_l in Hf as (v & vs' & Hxv & Hf & ->).
  cbn [copy_elements]. unfold st_try. unfold st_bind at 1. unfold load.
  assert (h ⊆ <[dst := Array k ys]> h) as Hsub by by apply insert_subseteq.
  rewrite (array_at_mono _ _ _ _ _ Hsub Hsrc). cbn [mbind option_bind]. rewrite Hx. unfold st_bind at 1.
  destruct (Hc (<[dst := Array k ys]> h) x v (Hm _ _ _ _ Hsub Hxv)) as (y & hn & -> & Hdn & Hy).
  apply map_disjoint_insert_r in Hdn as [Hnd Hdn]. rewrite <-insert_union_r by done. unfold st_bind. rewrite store_at.
  destruct (IH (S i) (hn ∪ h) (<[i := y]> ys) vs') as (hr & ys' & E & Hdr & Hrd & Hf').
  - by apply lookup_union_None.
  - eapply array_at_mono; [|exact Hsrc]. by apply map_union_subseteq_r.
  - lia.
  - rewrite Nat.add_succ_r. eapply Forall2_impl; [exact Hf|]. intros a b. apply Hm. by apply map_union_subseteq_r.
  - rewrite length_insert. lia.
  - apply map_disjoint_union_r in Hdr as [Hd1 Hd2]. exists (hr ∪ hn), (y :: ys'). rewrite E. split; [|split; [|split]].
    + rewrite (assoc_L (∪)). do 2 f_equal. f_equal. rewrite (take_S_r _ i y), <-(assoc_L (++)) by (apply list_lookup_insert_eq; lia).
      by rewrite take_insert_ge by lia.
    + by apply map_disjoint_union_l.
    + by apply lookup_union_None.
    + constructor; [eapply Hm; [|exact Hy]; by apply map_union_subseteq_r|]. eapply Forall2_impl; [exact Hf'|]. intros a b. apply Hm.
      by apply map_union_subseteq_l.
Qed.

Lemma fresh_dom (h : Heap) : h !! fresh (dom h) = None.
Proof. apply not_elem_of_dom. apply is_fresh. Qed.

Lemma copy_array_spec {V} k copy (rep : Heap → sem k → V → Prop) src off n xs h vs :
  monotone rep → copies rep copy → array_at k h src = Some xs → (off + n ≤ length xs)%nat →
  Forall2 (rep h) (take n (drop off xs)) vs →
  let l := fresh (dom h) in
  ∃ hn ys, copy_elements k copy src off l 0 n (<[l := Array k (replicate n (zero k))]> h) = (Ok (), hn ∪ h) ∧ hn ##ₘ h ∧
    array_at k hn l = Some ys ∧ length ys = n ∧ Forall2 (rep hn) ys vs.
Proof.
  intros Hm Hc Hsrc Hlen Hf l. pose proof (fresh_dom h) as Hl. fold l in Hl.
  destruct (copy_elements_spec k copy rep src off l xs n Hm Hc 0 h (replicate n (zero k)) vs) as (hr & ys & E & Hd & Hrl & Hf').
  - done.
  - done.
  - lia.
  - by rewrite Nat.add_0_r.
  - apply length_replicate.
  - exists (<[l := Array k ys]> hr), ys. rewrite E. cbn [take app]. split; [by rewrite insert_union_l|].
    split; [by apply map_disjoint_insert_l|]. split; [apply array_at_insert|]. split.
    + apply Forall2_length in Hf, Hf'. rewrite length_take, length_drop in Hf. lia.
    + eapply Forall2_impl; [exact Hf'|]. intros a b. apply Hm. by apply insert_subseteq.
Qed.

Lemma copy_slice_copies {V} k copy (rep : Heap → sem k → V → Prop) :
  monotone rep → copies rep copy → copies (rep_slice rep) (copy_slice k copy).
Proof.
  intros Hm Hc h [s|] vs; [|intros ->; by apply fresh_copy_ret]. intros (xs & Hx & Hlen & Hf).
  destruct (copy_array_spec k copy rep _ _ _ xs h vs Hm Hc Hx Hlen Hf) as (hn & ys & E & Hd & Hy & Hly & Hf').
  exists (Some (mkSlice (fresh (dom h)) 0 (sl_len s))), hn. split; [|split; [exact Hd|]].
  - cbn [copy_slice]. unfold st_try, st_bind, alloc. by rewrite E.
  - exists ys. cbn [sl_array sl_offset sl_len]. split; [exact Hy|]. split; [lia|]. by rewrite drop_0, take_ge by lia.
Qed.

Lemma copy_ptr_copies {V} k copy (rep : Heap → sem k → V → Prop) :
  monotone rep → copies rep copy → copies (rep_ptr rep) (copy_ptr k copy).
Proof.
  intros Hm Hc h [p|] [v|]; try done; [|intros _; by apply fresh_copy_ret]. intros (x & Hx & Hr).
  destruct (copy_array_spec k copy rep p 0 1 [x] h [v] Hm Hc Hx ltac:(done) ltac:(by repeat constructor)) as (hn & ys & E & Hd & Hy & Hly & Hf').
  exists (Some (fresh (dom h))), hn. split; [|split; [exact Hd|]].
  - cbn [copy_ptr]. unfold st_try, st_bind, alloc. cbn [replicate] in E. by rewrite E.
  - apply Forall2_cons_inv_r in Hf' as (y & ys' & Hry & Hnil%Forall2_nil_inv_r & ->). subst ys'. by exists y.
Qed.

Lemma store_entries_spec l kvs m h : store_entries l kvs (<[l := Map m]> h) = (Ok (), <[l := Map (list_to_map (reverse kvs) ∪ m)]> h).
Proof.
  revert m. induction kvs as [|[key v] kvs IH]; intros m; [change (list_to_map (reverse [])) with (∅ : gmap string string); by rewrite (left_id_L ∅ (∪))|]. cbn [store_entries].
  unfold st_try, st_bind, map_store, map_at. rewrite lookup_insert_eq. cbn [mbind option_bind as_map]. rewrite insert_insert_eq, IH.
  do 3 f_equal. rewrite reverse_cons, list_to_map_app, <-(assoc_L (∪)). f_equal. cbn [list_to_map foldr fst snd]. rewrite insert_empty.
  apply insert_union_singleton_l.
Qed.
Lemma copy_map_copies `{MapOrder} : copies rep_map copy_map.
Proof.
  intros h [p|] m; [|intros ->; by apply fresh_copy_ret]. intros Hp. pose proof (fresh_dom h) as Hl. set (l := fresh (dom h)) in *.
  exists (Some l), {[l := Map m]}. split; [|split].
  - cbn [copy_map]. unfold st_try, st_bind, alloc, map_load. fold l. cbn [id].
    rewrite (map_at_mono h (<[l := Map ∅]> h) p m) by (by try apply insert_subseteq). rewrite store_entries_spec. unfold st_ret.
    do 2 f_equal. rewrite (right_id ∅ (∪)), <-insert_union_singleton_l. do 2 f_equal. rewrite <-(list_to_map_to_list m) at 2.
    apply list_to_map_proper; [|rewrite reverse_Permutation; apply range_perm]. rewrite reverse_Permutation. apply range_keys_NoDup.
  - by apply map_disjoint_singleton_l_2.
  - unfold rep_map, map_at. by rewrite lookup_singleton_eq.
Qed.
End Heap.
