(* ===== verification/DeepCopy.v ===== *)
(** * api/v1alpha1/zz_generated.deepcopy.go: copying API objects

    The API types as Go lays them out in memory ([GoHeap]) and their generated [DeepCopy]
    methods.  apimachinery's own types are abstract: their layout and their [DeepCopyInto] are
    arguments. *)

From S2P Require Import Prelude GoStd Api Kube GoHeap.

Local Open Scope go_scope.

(** What pointers, slices and maps of the API types refer to. *)
Inductive Kind :=
  | KString | KTime | KDuration | KCondition | KObjectReference | KUSBDeviceSpec
  | KDevicePathSpec | KSecretKeySelector | KPodReport | KMirroringSpec | KPKCS11Config | KDiscoverySpec
  | KHSMDeviceSpec | KDiscoveredDevice | KMirroringStatus | KHSMDevice | KHSMDeviceList | KHSMPoolSpec
  | KHSMPoolStatus | KHSMPool | KHSMPoolList | KParentReference | KHSMSecretSpec | KHSMDeviceSync
  | KHSMSecretStatus | KHSMSecret | KHSMSecretList.
#[global] Instance Kind_eq_dec : EqDecision Kind.
Proof. solve_decision. Defined.

(** [metav1.TypeMeta], and the types of apimachinery that hold references. *)
Record TypeMeta := mkTypeMeta { tm_Kind : string; tm_APIVersion : string }.
Class Layout := {
  ObjectMetaM : Type;
  ListMetaM : Type;
  zero_ObjectMeta : ObjectMetaM;
  zero_ListMeta : ListMetaM;
}.

(** ** The structs in memory *)
Section Structs.
Context `{!Layout}.

(* [api/v1alpha1/hsmdevice_types.go:74-98 MirroringSpec] *)
Record MirroringSpecM := mkMirroringSpecM {
  msM_Policy : string;
  msM_SyncInterval : Z;
  msM_TargetNodes : Slice KString;
  msM_PrimaryNode : string;
  msM_AutoFailover : bool;
}.
(* [api/v1alpha1/hsmdevice_types.go:101-127 PKCS11Config] *)
Record PKCS11ConfigM := mkPKCS11ConfigM {
  pkM_LibraryPath : string;
  pkM_SlotId : Z;
  pkM_PinSecret : Ptr KSecretKeySelector;
  pkM_TokenLabel : string;
  pkM_AutoProvision : bool;
}.
(* [api/v1alpha1/hsmdevice_types.go:143-165 DiscoverySpec] *)
Record DiscoverySpecM := mkDiscoverySpecM {
  dsM_USB : Slice KUSBDeviceSpec;
  dsM_DevicePath : Ptr KDevicePathSpec;
  dsM_AutoDiscovery : bool;
}.
(* [api/v1alpha1/hsmdevice_types.go:168-192 HSMDeviceSpec] *)
Record HSMDeviceSpecM := mkHSMDeviceSpecM {
  hdsM_DeviceType : string;
  hdsM_Discovery : Ptr KDiscoverySpec;
  hdsM_NodeSelector : StringMap;
  hdsM_PKCS11 : Ptr KPKCS11Config;
  hdsM_MaxDevices : Z;
  hdsM_Mirroring : Ptr KMirroringSpec;
}.
(* [api/v1alpha1/hsmdevice_types.go:207-247 DiscoveredDevice] *)
Record DiscoveredDeviceM := mkDiscoveredDeviceM {
  ddM_DevicePath : string;
  ddM_SerialNumber : string;
  ddM_NodeName : string;
  ddM_LastSeen : Time;
  ddM_DeviceInfo : StringMap;
  ddM_Available : bool;
  ddM_ResourceName : string;
  ddM_Role : string;
  ddM_MirroredFrom : string;
  ddM_LastSyncTime : Ptr KTime;
  ddM_Health : string;
}.
(* [api/v1alpha1/hsmdevice_types.go:250-272 MirroringStatus] *)
Record MirroringStatusM := mkMirroringStatusM {
  miM_Enabled : bool;
  miM_PrimaryNode : string;
  miM_MirroredNodes : Slice KString;
  miM_LastSyncTime : Ptr KTime;
  miM_FailoverCount : Z;
  miM_SyncErrors : Slice KString;
}.
(* [api/v1alpha1/hsmdevice_types.go:282-287 HSMDevice] *)
Record HSMDeviceM := mkHSMDeviceM {
  hdM_TypeMeta : TypeMeta;
  hdM_ObjectMeta : ObjectMetaM;
  hdM_Spec : HSMDeviceSpecM;
}.
(* [api/v1alpha1/hsmdevice_types.go:292-296 HSMDeviceList] *)
Record HSMDeviceListM := mkHSMDeviceListM {
  hdlM_TypeMeta : TypeMeta;
  hdlM_ListMeta : ListMetaM;
  hdlM_Items : Slice KHSMDevice;
}.
(* [api/v1alpha1/hsmpool_types.go:24-33 HSMPoolSpec] *)
Record HSMPoolSpecM := mkHSMPoolSpecM {
  hpsM_GracePeriod : Ptr KDuration;
  hpsM_Mirroring : Ptr KMirroringSpec;
}.
(* [api/v1alpha1/hsmpool_types.go:36-69 HSMPoolStatus] *)
Record HSMPoolStatusM := mkHSMPoolStatusM {
  psM_AggregatedDevices : Slice KDiscoveredDevice;
  psM_TotalDevices : Z;
  psM_AvailableDevices : Z;
  psM_ReportingPods : Slice KPodReport;
  psM_ExpectedPods : Z;
  psM_LastAggregationTime : Ptr KTime;
  psM_Conditions : Slice KCondition;
  psM_Phase : string;
  psM_Mirroring : Ptr KMirroringStatus;
}.
(* [api/v1alpha1/hsmpool_types.go:123-129 HSMPool] *)
Record HSMPoolM := mkHSMPoolM {
  hpM_TypeMeta : TypeMeta;
  hpM_ObjectMeta : ObjectMetaM;
  hpM_Spec : HSMPoolSpecM;
  hpM_Status : HSMPoolStatusM;
}.
(* [api/v1alpha1/hsmpool_types.go:134-138 HSMPoolList] *)
Record HSMPoolListM := mkHSMPoolListM {
  hplM_TypeMeta : TypeMeta;
  hplM_ListMeta : ListMetaM;
  hplM_Items : Slice KHSMPool;
}.
(* [api/v1alpha1/hsmsecret_types.go:29-50 ParentReference] *)
Record ParentReferenceM := mkParentReferenceM {
  pfM_Name : string;
  pfM_Namespace : Ptr KString;
  pfM_Group : Ptr KString;
  pfM_Kind : Ptr KString;
}.
(* [api/v1alpha1/hsmsecret_types.go:53-79 HSMSecretSpec] *)
Record HSMSecretSpecM := mkHSMSecretSpecM {
  spM_ParentRef : Ptr KParentReference;
  spM_SecretName : string;
  spM_AutoSync : bool;
  spM_SecretType : string;
  spM_SyncInterval : Z;
}.
(* [api/v1alpha1/hsmsecret_types.go:96-124 HSMDeviceSync] *)
Record HSMDeviceSyncM := mkHSMDeviceSyncM {
  syM_DeviceName : string;
  syM_LastSyncTime : Ptr KTime;
  syM_Checksum : string;
  syM_Status : string;
  syM_LastError : string;
  syM_Online : bool;
  syM_Version : Z;
}.
(* [api/v1alpha1/hsmsecret_types.go:127-168 HSMSecretStatus] *)
Record HSMSecretStatusM := mkHSMSecretStatusM {
  ssM_LastSyncTime : Ptr KTime;
  ssM_HSMChecksum : string;
  ssM_SecretChecksum : string;
  ssM_SyncStatus : string;
  ssM_LastError : string;
  ssM_Conditions : Slice KCondition;
  ssM_SecretRef : Ptr KObjectReference;
  ssM_DeviceSyncStatus : Slice KHSMDeviceSync;
  ssM_PrimaryDevice : string;
  ssM_SyncConflict : bool;
}.
(* [api/v1alpha1/hsmsecret_types.go:179-185 HSMSecret] *)
Record HSMSecretM := mkHSMSecretM {
  hsM_TypeMeta : TypeMeta;
  hsM_ObjectMeta : ObjectMetaM;
  hsM_Spec : HSMSecretSpecM;
  hsM_Status : HSMSecretStatusM;
}.
(* [api/v1alpha1/hsmsecret_types.go:190-194 HSMSecretList] *)
Record HSMSecretListM := mkHSMSecretListM {
  hslM_TypeMeta : TypeMeta;
  hslM_ListMeta : ListMetaM;
  hslM_Items : Slice KHSMSecret;
}.

(** The value of a kind, and Go's zero value of it. *)
Definition sem (k : Kind) : Type :=
  match k with
  | KString => string
  | KTime => Time
  | KDuration => Z
  | KCondition => Condition
  | KObjectReference => ObjectReference
  | KUSBDeviceSpec => USBDeviceSpec
  | KDevicePathSpec => DevicePathSpec
  | KSecretKeySelector => SecretKeySelector
  | KPodReport => PodReport
  | KMirroringSpec => MirroringSpecM
  | KPKCS11Config => PKCS11ConfigM
  | KDiscoverySpec => DiscoverySpecM
  | KHSMDeviceSpec => HSMDeviceSpecM
  | KDiscoveredDevice => DiscoveredDeviceM
  | KMirroringStatus => MirroringStatusM
  | KHSMDevice => HSMDeviceM
  | KHSMDeviceList => HSMDeviceListM
  | KHSMPoolSpec => HSMPoolSpecM
  | KHSMPoolStatus => HSMPoolStatusM
  | KHSMPool => HSMPoolM
  | KHSMPoolList => HSMPoolListM
  | KParentReference => ParentReferenceM
  | KHSMSecretSpec => HSMSecretSpecM
  | KHSMDeviceSync => HSMDeviceSyncM
  | KHSMSecretStatus => HSMSecretStatusM
  | KHSMSecret => HSMSecretM
  | KHSMSecretList => HSMSecretListM
  end.
Definition zero_MirroringSpec : MirroringSpecM := mkMirroringSpecM "" 0 None "" false.
Definition zero_PKCS11Config : PKCS11ConfigM := mkPKCS11ConfigM "" 0 None "" false.
Definition zero_DiscoverySpec : DiscoverySpecM := mkDiscoverySpecM None None false.
Definition zero_HSMDeviceSpec : HSMDeviceSpecM := mkHSMDeviceSpecM "" None None None 0 None.
Definition zero_DiscoveredDevice : DiscoveredDeviceM := mkDiscoveredDeviceM "" "" "" zero_time None false "" "" "" None "".
Definition zero_MirroringStatus : MirroringStatusM := mkMirroringStatusM false "" None None 0 None.
Definition zero_HSMDevice : HSMDeviceM := mkHSMDeviceM (mkTypeMeta "" "") zero_ObjectMeta zero_HSMDeviceSpec.
Definition zero_HSMDeviceList : HSMDeviceListM := mkHSMDeviceListM (mkTypeMeta "" "") zero_ListMeta None.
Definition zero_HSMPoolSpec : HSMPoolSpecM := mkHSMPoolSpecM None None.
Definition zero_HSMPoolStatus : HSMPoolStatusM := mkHSMPoolStatusM None 0 0 None 0 None None "" None.
Definition zero_HSMPool : HSMPoolM := mkHSMPoolM (mkTypeMeta "" "") zero_ObjectMeta zero_HSMPoolSpec zero_HSMPoolStatus.
Definition zero_HSMPoolList : HSMPoolListM := mkHSMPoolListM (mkTypeMeta "" "") zero_ListMeta None.
Definition zero_ParentReference : ParentReferenceM := mkParentReferenceM "" None None None.
Definition zero_HSMSecretSpec : HSMSecretSpecM := mkHSMSecretSpecM None "" false "" 0.
Definition zero_HSMDeviceSync : HSMDeviceSyncM := mkHSMDeviceSyncM "" None "" "" "" false 0.
Definition zero_HSMSecretStatus : HSMSecretStatusM := mkHSMSecretStatusM None "" "" "" "" None None None "" false.
Definition zero_HSMSecret : HSMSecretM := mkHSMSecretM (mkTypeMeta "" "") zero_ObjectMeta zero_HSMSecretSpec
    zero_HSMSecretStatus.
Definition zero_HSMSecretList : HSMSecretListM := mkHSMSecretListM (mkTypeMeta "" "") zero_ListMeta None.
Definition zero (k : Kind) : sem k :=
  match k with
  | KString => ""
  | KTime => zero_time
  | KDuration => 0
  | KCondition => mkCondition "" "" zero_time "" ""
  | KObjectReference => mkObjectReference "" "" "" "" ""
  | KUSBDeviceSpec => mkUSBDeviceSpec "" "" ""
  | KDevicePathSpec => mkDevicePathSpec "" ""
  | KSecretKeySelector => mkSecretKeySelector "" "" ""
  | KPodReport => mkPodReport "" "" 0 zero_time "" "" false
  | KMirroringSpec => zero_MirroringSpec
  | KPKCS11Config => zero_PKCS11Config
  | KDiscoverySpec => zero_DiscoverySpec
  | KHSMDeviceSpec => zero_HSMDeviceSpec
  | KDiscoveredDevice => zero_DiscoveredDevice
  | KMirroringStatus => zero_MirroringStatus
  | KHSMDevice => zero_HSMDevice
  | KHSMDeviceList => zero_HSMDeviceList
  | KHSMPoolSpec => zero_HSMPoolSpec
  | KHSMPoolStatus => zero_HSMPoolStatus
  | KHSMPool => zero_HSMPool
  | KHSMPoolList => zero_HSMPoolList
  | KParentReference => zero_ParentReference
  | KHSMSecretSpec => zero_HSMSecretSpec
  | KHSMDeviceSync => zero_HSMDeviceSync
  | KHSMSecretStatus => zero_HSMSecretStatus
  | KHSMSecret => zero_HSMSecret
  | KHSMSecretList => zero_HSMSecretList
  end.
End Structs.
Abbreviation ApiHeap := (gmap Loc (Cell sem)).

(** ** The generated functions *)

(** The [DeepCopyInto] and [DeepCopy] of apimachinery; of a [Time] the first copies the value,
    the second is on pointers. *)
Class Apimachinery `{!Layout} := {
  ObjectMeta_DeepCopyInto : ObjectMetaM → ST ApiHeap (result ObjectMetaM);
  ListMeta_DeepCopyInto : ListMetaM → ST ApiHeap (result ListMetaM);
  Time_DeepCopyInto : Time → ST ApiHeap (result Time);
  Time_DeepCopy : Ptr KTime → ST ApiHeap (result (Ptr KTime));
  Condition_DeepCopyInto : Condition → ST ApiHeap (result Condition);
}.

Section DeepCopy.
Context `{!MapOrder, !Layout, !Apimachinery}.

Local Abbreviation copy_slice := (copy_slice sem zero).
Local Abbreviation copy_ptr := (copy_ptr sem zero).
Local Abbreviation copy_map := (copy_map sem).

(** A pointer to a time that is not nil goes through the method of apimachinery. *)
Definition copy_time (p : Ptr KTime) : ST ApiHeap (result (Ptr KTime)) :=
  match p with Some _ => Time_DeepCopy p | None => st_ret (Ok None) end.

(* [api/v1alpha1/zz_generated.deepcopy.go:587-589 DeepCopyInto] *)
Definition USBDeviceSpec_DeepCopyInto (x : USBDeviceSpec) : ST ApiHeap (result USBDeviceSpec) := st_ret (Ok x).
(* [api/v1alpha1/zz_generated.deepcopy.go:30-32 DeepCopyInto] *)
Definition DevicePathSpec_DeepCopyInto (x : DevicePathSpec) : ST ApiHeap (result DevicePathSpec) := st_ret (Ok x).
(* [api/v1alpha1/zz_generated.deepcopy.go:572-574 DeepCopyInto] *)
Definition SecretKeySelector_DeepCopyInto (x : SecretKeySelector) : ST ApiHeap (result SecretKeySelector) := st_ret (Ok x).
(* [api/v1alpha1/zz_generated.deepcopy.go:556-559 DeepCopyInto] *)
Definition PodReport_DeepCopyInto (x : PodReport) : ST ApiHeap (result PodReport) :=
  st_try (Time_DeepCopyInto (pr_LastReportTime x)) id (λ LastReportTime,
  st_ret (Ok (mkPodReport (pr_PodName x) (pr_NodeName x) (pr_DevicesFound x) LastReportTime (pr_DiscoveryStatus x) (pr_Error
    x) (pr_Fresh x)))).
(* [api/v1alpha1/zz_generated.deepcopy.go:457-464 DeepCopyInto] *)
Definition MirroringSpec_DeepCopyInto (x : MirroringSpecM) : ST ApiHeap (result MirroringSpecM) :=
  st_try (copy_slice KString (assign sem) (msM_TargetNodes x)) id (λ TargetNodes,
  st_ret (Ok (mkMirroringSpecM (msM_Policy x) (msM_SyncInterval x) TargetNodes (msM_PrimaryNode x) (msM_AutoFailover x)))).
(* [api/v1alpha1/zz_generated.deepcopy.go:506-513 DeepCopyInto] *)
Definition PKCS11Config_DeepCopyInto (x : PKCS11ConfigM) : ST ApiHeap (result PKCS11ConfigM) :=
  st_try (copy_ptr KSecretKeySelector (assign sem) (pkM_PinSecret x)) id (λ PinSecret,
  st_ret (Ok (mkPKCS11ConfigM (pkM_LibraryPath x) (pkM_SlotId x) PinSecret (pkM_TokenLabel x) (pkM_AutoProvision x)))).
(* [api/v1alpha1/zz_generated.deepcopy.go:72-84 DeepCopyInto] *)
Definition DiscoverySpec_DeepCopyInto (x : DiscoverySpecM) : ST ApiHeap (result DiscoverySpecM) :=
  st_try (copy_slice KUSBDeviceSpec (assign sem) (dsM_USB x)) id (λ USB,
  st_try (copy_ptr KDevicePathSpec (assign sem) (dsM_DevicePath x)) id (λ DevicePath,
  st_ret (Ok (mkDiscoverySpecM USB DevicePath (dsM_AutoDiscovery x))))).
(* [api/v1alpha1/zz_generated.deepcopy.go:155-179 DeepCopyInto] *)
Definition HSMDeviceSpec_DeepCopyInto (x : HSMDeviceSpecM) : ST ApiHeap (result HSMDeviceSpecM) :=
  st_try (copy_ptr KDiscoverySpec DiscoverySpec_DeepCopyInto (hdsM_Discovery x)) id (λ Discovery,
  st_try (copy_map (hdsM_NodeSelector x)) id (λ NodeSelector,
  st_try (copy_ptr KPKCS11Config PKCS11Config_DeepCopyInto (hdsM_PKCS11 x)) id (λ PKCS11,
  st_try (copy_ptr KMirroringSpec MirroringSpec_DeepCopyInto (hdsM_Mirroring x)) id (λ Mirroring,
  st_ret (Ok (mkHSMDeviceSpecM (hdsM_DeviceType x) Discovery NodeSelector PKCS11 (hdsM_MaxDevices x) Mirroring)))))).
(* [api/v1alpha1/zz_generated.deepcopy.go:45-59 DeepCopyInto] *)
Definition DiscoveredDevice_DeepCopyInto (x : DiscoveredDeviceM) : ST ApiHeap (result DiscoveredDeviceM) :=
  st_try (Time_DeepCopyInto (ddM_LastSeen x)) id (λ LastSeen,
  st_try (copy_map (ddM_DeviceInfo x)) id (λ DeviceInfo,
  st_try (copy_time (ddM_LastSyncTime x)) id (λ LastSyncTime,
  st_ret (Ok (mkDiscoveredDeviceM (ddM_DevicePath x) (ddM_SerialNumber x) (ddM_NodeName x) LastSeen DeviceInfo (ddM_Available
    x) (ddM_ResourceName x) (ddM_Role x) (ddM_MirroredFrom x) LastSyncTime (ddM_Health x)))))).
(* [api/v1alpha1/zz_generated.deepcopy.go:477-493 DeepCopyInto] *)
Definition MirroringStatus_DeepCopyInto (x : MirroringStatusM) : ST ApiHeap (result MirroringStatusM) :=
  st_try (copy_slice KString (assign sem) (miM_MirroredNodes x)) id (λ MirroredNodes,
  st_try (copy_time (miM_LastSyncTime x)) id (λ LastSyncTime,
  st_try (copy_slice KString (assign sem) (miM_SyncErrors x)) id (λ SyncErrors,
  st_ret (Ok (mkMirroringStatusM (miM_Enabled x) (miM_PrimaryNode x) MirroredNodes LastSyncTime (miM_FailoverCount x)
    SyncErrors))))).
(* [api/v1alpha1/zz_generated.deepcopy.go:97-102 DeepCopyInto] *)
Definition HSMDevice_DeepCopyInto (x : HSMDeviceM) : ST ApiHeap (result HSMDeviceM) :=
  st_try (ObjectMeta_DeepCopyInto (hdM_ObjectMeta x)) id (λ ObjectMeta,
  st_try (HSMDeviceSpec_DeepCopyInto (hdM_Spec x)) id (λ Spec,
  st_ret (Ok (mkHSMDeviceM (hdM_TypeMeta x) ObjectMeta Spec)))).
(* [api/v1alpha1/zz_generated.deepcopy.go:123-134 DeepCopyInto] *)
Definition HSMDeviceList_DeepCopyInto (x : HSMDeviceListM) : ST ApiHeap (result HSMDeviceListM) :=
  st_try (ListMeta_DeepCopyInto (hdlM_ListMeta x)) id (λ ListMeta,
  st_try (copy_slice KHSMDevice HSMDevice_DeepCopyInto (hdlM_Items x)) id (λ Items,
  st_ret (Ok (mkHSMDeviceListM (hdlM_TypeMeta x) ListMeta Items)))).
(* [api/v1alpha1/zz_generated.deepcopy.go:270-282 DeepCopyInto] *)
Definition HSMPoolSpec_DeepCopyInto (x : HSMPoolSpecM) : ST ApiHeap (result HSMPoolSpecM) :=
  st_try (copy_ptr KDuration (assign sem) (hpsM_GracePeriod x)) id (λ GracePeriod,
  st_try (copy_ptr KMirroringSpec MirroringSpec_DeepCopyInto (hpsM_Mirroring x)) id (λ Mirroring,
  st_ret (Ok (mkHSMPoolSpecM GracePeriod Mirroring)))).
(* [api/v1alpha1/zz_generated.deepcopy.go:295-327 DeepCopyInto] *)
Definition HSMPoolStatus_DeepCopyInto (x : HSMPoolStatusM) : ST ApiHeap (result HSMPoolStatusM) :=
  st_try (copy_slice KDiscoveredDevice DiscoveredDevice_DeepCopyInto (psM_AggregatedDevices x)) id (λ AggregatedDevices,
  st_try (copy_slice KPodReport PodReport_DeepCopyInto (psM_ReportingPods x)) id (λ ReportingPods,
  st_try (copy_time (psM_LastAggregationTime x)) id (λ LastAggregationTime,
  st_try (copy_slice KCondition Condition_DeepCopyInto (psM_Conditions x)) id (λ Conditions,
  st_try (copy_ptr KMirroringStatus MirroringStatus_DeepCopyInto (psM_Mirroring x)) id (λ Mirroring,
  st_ret (Ok (mkHSMPoolStatusM AggregatedDevices (psM_TotalDevices x) (psM_AvailableDevices x) ReportingPods
    (psM_ExpectedPods x) LastAggregationTime Conditions (psM_Phase x) Mirroring))))))).
(* [api/v1alpha1/zz_generated.deepcopy.go:211-217 DeepCopyInto] *)
Definition HSMPool_DeepCopyInto (x : HSMPoolM) : ST ApiHeap (result HSMPoolM) :=
  st_try (ObjectMeta_DeepCopyInto (hpM_ObjectMeta x)) id (λ ObjectMeta,
  st_try (HSMPoolSpec_DeepCopyInto (hpM_Spec x)) id (λ Spec,
  st_try (HSMPoolStatus_DeepCopyInto (hpM_Status x)) id (λ Status,
  st_ret (Ok (mkHSMPoolM (hpM_TypeMeta x) ObjectMeta Spec Status))))).
(* [api/v1alpha1/zz_generated.deepcopy.go:238-249 DeepCopyInto] *)
Definition HSMPoolList_DeepCopyInto (x : HSMPoolListM) : ST ApiHeap (result HSMPoolListM) :=
  st_try (ListMeta_DeepCopyInto (hplM_ListMeta x)) id (λ ListMeta,
  st_try (copy_slice KHSMPool HSMPool_DeepCopyInto (hplM_Items x)) id (λ Items,
  st_ret (Ok (mkHSMPoolListM (hplM_TypeMeta x) ListMeta Items)))).
(* [api/v1alpha1/zz_generated.deepcopy.go:526-543 DeepCopyInto] *)
Definition ParentReference_DeepCopyInto (x : ParentReferenceM) : ST ApiHeap (result ParentReferenceM) :=
  st_try (copy_ptr KString (assign sem) (pfM_Namespace x)) id (λ Namespace,
  st_try (copy_ptr KString (assign sem) (pfM_Group x)) id (λ Group,
  st_try (copy_ptr KString (assign sem) (pfM_Kind x)) id (λ Kind,
  st_ret (Ok (mkParentReferenceM (pfM_Name x) Namespace Group Kind))))).
(* [api/v1alpha1/zz_generated.deepcopy.go:399-406 DeepCopyInto] *)
Definition HSMSecretSpec_DeepCopyInto (x : HSMSecretSpecM) : ST ApiHeap (result HSMSecretSpecM) :=
  st_try (copy_ptr KParentReference ParentReference_DeepCopyInto (spM_ParentRef x)) id (λ ParentRef,
  st_ret (Ok (mkHSMSecretSpecM ParentRef (spM_SecretName x) (spM_AutoSync x) (spM_SecretType x) (spM_SyncInterval x)))).
(* [api/v1alpha1/zz_generated.deepcopy.go:192-198 DeepCopyInto] *)
Definition HSMDeviceSync_DeepCopyInto (x : HSMDeviceSyncM) : ST ApiHeap (result HSMDeviceSyncM) :=
  st_try (copy_time (syM_LastSyncTime x)) id (λ LastSyncTime,
  st_ret (Ok (mkHSMDeviceSyncM (syM_DeviceName x) LastSyncTime (syM_Checksum x) (syM_Status x) (syM_LastError x) (syM_Online
    x) (syM_Version x)))).
(* [api/v1alpha1/zz_generated.deepcopy.go:419-444 DeepCopyInto] *)
Definition HSMSecretStatus_DeepCopyInto (x : HSMSecretStatusM) : ST ApiHeap (result HSMSecretStatusM) :=
  st_try (copy_time (ssM_LastSyncTime x)) id (λ LastSyncTime,
  st_try (copy_slice KCondition Condition_DeepCopyInto (ssM_Conditions x)) id (λ Conditions,
  st_try (copy_ptr KObjectReference (assign sem) (ssM_SecretRef x)) id (λ SecretRef,
  st_try (copy_slice KHSMDeviceSync HSMDeviceSync_DeepCopyInto (ssM_DeviceSyncStatus x)) id (λ DeviceSyncStatus,
  st_ret (Ok (mkHSMSecretStatusM LastSyncTime (ssM_HSMChecksum x) (ssM_SecretChecksum x) (ssM_SyncStatus x) (ssM_LastError x)
    Conditions SecretRef DeviceSyncStatus (ssM_PrimaryDevice x) (ssM_SyncConflict x))))))).
(* [api/v1alpha1/zz_generated.deepcopy.go:340-346 DeepCopyInto] *)
Definition HSMSecret_DeepCopyInto (x : HSMSecretM) : ST ApiHeap (result HSMSecretM) :=
  st_try (ObjectMeta_DeepCopyInto (hsM_ObjectMeta x)) id (λ ObjectMeta,
  st_try (HSMSecretSpec_DeepCopyInto (hsM_Spec x)) id (λ Spec,
  st_try (HSMSecretStatus_DeepCopyInto (hsM_Status x)) id (λ Status,
  st_ret (Ok (mkHSMSecretM (hsM_TypeMeta x) ObjectMeta Spec Status))))).
(* [api/v1alpha1/zz_generated.deepcopy.go:367-378 DeepCopyInto] *)
Definition HSMSecretList_DeepCopyInto (x : HSMSecretListM) : ST ApiHeap (result HSMSecretListM) :=
  st_try (ListMeta_DeepCopyInto (hslM_ListMeta x)) id (λ ListMeta,
  st_try (copy_slice KHSMSecret HSMSecret_DeepCopyInto (hslM_Items x)) id (λ Items,
  st_ret (Ok (mkHSMSecretListM (hslM_TypeMeta x) ListMeta Items)))).

(** [DeepCopy]: nil for nil, otherwise a new struct that is copied into. *)
(* [api/v1alpha1/zz_generated.deepcopy.go:592-599 DeepCopy] *)
Definition USBDeviceSpec_DeepCopy : Ptr KUSBDeviceSpec → ST ApiHeap (result (Ptr KUSBDeviceSpec)) := copy_ptr KUSBDeviceSpec
    USBDeviceSpec_DeepCopyInto.
(* [api/v1alpha1/zz_generated.deepcopy.go:35-42 DeepCopy] *)
Definition DevicePathSpec_DeepCopy : Ptr KDevicePathSpec → ST ApiHeap (result (Ptr KDevicePathSpec)) := copy_ptr
    KDevicePathSpec DevicePathSpec_DeepCopyInto.
(* [api/v1alpha1/zz_generated.deepcopy.go:577-584 DeepCopy] *)
Definition SecretKeySelector_DeepCopy : Ptr KSecretKeySelector → ST ApiHeap (result (Ptr KSecretKeySelector)) := copy_ptr
    KSecretKeySelector SecretKeySelector_DeepCopyInto.
(* [api/v1alpha1/zz_generated.deepcopy.go:562-569 DeepCopy] *)
Definition PodReport_DeepCopy : Ptr KPodReport → ST ApiHeap (result (Ptr KPodReport)) := copy_ptr KPodReport
    PodReport_DeepCopyInto.
(* [api/v1alpha1/zz_generated.deepcopy.go:467-474 DeepCopy] *)
Definition MirroringSpec_DeepCopy : Ptr KMirroringSpec → ST ApiHeap (result (Ptr KMirroringSpec)) := copy_ptr KMirroringSpec
    MirroringSpec_DeepCopyInto.
(* [api/v1alpha1/zz_generated.deepcopy.go:516-523 DeepCopy] *)
Definition PKCS11Config_DeepCopy : Ptr KPKCS11Config → ST ApiHeap (result (Ptr KPKCS11Config)) := copy_ptr KPKCS11Config
    PKCS11Config_DeepCopyInto.
(* [api/v1alpha1/zz_generated.deepcopy.go:87-94 DeepCopy] *)
Definition DiscoverySpec_DeepCopy : Ptr KDiscoverySpec → ST ApiHeap (result (Ptr KDiscoverySpec)) := copy_ptr KDiscoverySpec
    DiscoverySpec_DeepCopyInto.
(* [api/v1alpha1/zz_generated.deepcopy.go:182-189 DeepCopy] *)
Definition HSMDeviceSpec_DeepCopy : Ptr KHSMDeviceSpec → ST ApiHeap (result (Ptr KHSMDeviceSpec)) := copy_ptr KHSMDeviceSpec
    HSMDeviceSpec_DeepCopyInto.
(* [api/v1alpha1/zz_generated.deepcopy.go:62-69 DeepCopy] *)
Definition DiscoveredDevice_DeepCopy : Ptr KDiscoveredDevice → ST ApiHeap (result (Ptr KDiscoveredDevice)) := copy_ptr
    KDiscoveredDevice DiscoveredDevice_DeepCopyInto.
(* [api/v1alpha1/zz_generated.deepcopy.go:496-503 DeepCopy] *)
Definition MirroringStatus_DeepCopy : Ptr KMirroringStatus → ST ApiHeap (result (Ptr KMirroringStatus)) := copy_ptr
    KMirroringStatus MirroringStatus_DeepCopyInto.
(* [api/v1alpha1/zz_generated.deepcopy.go:105-112 DeepCopy] *)
Definition HSMDevice_DeepCopy : Ptr KHSMDevice → ST ApiHeap (result (Ptr KHSMDevice)) := copy_ptr KHSMDevice
    HSMDevice_DeepCopyInto.
(* [api/v1alpha1/zz_generated.deepcopy.go:137-144 DeepCopy] *)
Definition HSMDeviceList_DeepCopy : Ptr KHSMDeviceList → ST ApiHeap (result (Ptr KHSMDeviceList)) := copy_ptr KHSMDeviceList
    HSMDeviceList_DeepCopyInto.
(* [api/v1alpha1/zz_generated.deepcopy.go:285-292 DeepCopy] *)
Definition HSMPoolSpec_DeepCopy : Ptr KHSMPoolSpec → ST ApiHeap (result (Ptr KHSMPoolSpec)) := copy_ptr KHSMPoolSpec
    HSMPoolSpec_DeepCopyInto.
(* [api/v1alpha1/zz_generated.deepcopy.go:330-337 DeepCopy] *)
Definition HSMPoolStatus_DeepCopy : Ptr KHSMPoolStatus → ST ApiHeap (result (Ptr KHSMPoolStatus)) := copy_ptr KHSMPoolStatus
    HSMPoolStatus_DeepCopyInto.
(* [api/v1alpha1/zz_generated.deepcopy.go:220-227 DeepCopy] *)
Definition HSMPool_DeepCopy : Ptr KHSMPool → ST ApiHeap (result (Ptr KHSMPool)) := copy_ptr KHSMPool HSMPool_DeepCopyInto.
(* [api/v1alpha1/zz_generated.deepcopy.go:252-259 DeepCopy] *)
Definition HSMPoolList_DeepCopy : Ptr KHSMPoolList → ST ApiHeap (result (Ptr KHSMPoolList)) := copy_ptr KHSMPoolList
    HSMPoolList_DeepCopyInto.
(* [api/v1alpha1/zz_generated.deepcopy.go:546-553 DeepCopy] *)
Definition ParentReference_DeepCopy : Ptr KParentReference → ST ApiHeap (result (Ptr KParentReference)) := copy_ptr
    KParentReference ParentReference_DeepCopyInto.
(* [api/v1alpha1/zz_generated.deepcopy.go:409-416 DeepCopy] *)
Definition HSMSecretSpec_DeepCopy : Ptr KHSMSecretSpec → ST ApiHeap (result (Ptr KHSMSecretSpec)) := copy_ptr KHSMSecretSpec
    HSMSecretSpec_DeepCopyInto.
(* [api/v1alpha1/zz_generated.deepcopy.go:201-208 DeepCopy] *)
Definition HSMDeviceSync_DeepCopy : Ptr KHSMDeviceSync → ST ApiHeap (result (Ptr KHSMDeviceSync)) := copy_ptr KHSMDeviceSync
    HSMDeviceSync_DeepCopyInto.
(* [api/v1alpha1/zz_generated.deepcopy.go:447-454 DeepCopy] *)
Definition HSMSecretStatus_DeepCopy : Ptr KHSMSecretStatus → ST ApiHeap (result (Ptr KHSMSecretStatus)) := copy_ptr
    KHSMSecretStatus HSMSecretStatus_DeepCopyInto.
(* [api/v1alpha1/zz_generated.deepcopy.go:349-356 DeepCopy] *)
Definition HSMSecret_DeepCopy : Ptr KHSMSecret → ST ApiHeap (result (Ptr KHSMSecret)) := copy_ptr KHSMSecret
    HSMSecret_DeepCopyInto.
(* [api/v1alpha1/zz_generated.deepcopy.go:381-388 DeepCopy] *)
Definition HSMSecretList_DeepCopy : Ptr KHSMSecretList → ST ApiHeap (result (Ptr KHSMSecretList)) := copy_ptr KHSMSecretList
    HSMSecretList_DeepCopyInto.

(** A [runtime.Object]: the type next to the pointer; the nil interface is [None]. *)
Definition Object : Type := option (Kind * option Loc).
(* [api/v1alpha1/zz_generated.deepcopy.go:115-120 DeepCopyObject] *)
Definition HSMDevice_DeepCopyObject (p : Ptr KHSMDevice) : ST ApiHeap (result Object) :=
  st_try (HSMDevice_DeepCopy p) id (λ c, st_ret (Ok (match c with Some l => Some (KHSMDevice, Some l) | None => None end))).
(* [api/v1alpha1/zz_generated.deepcopy.go:147-152 DeepCopyObject] *)
Definition HSMDeviceList_DeepCopyObject (p : Ptr KHSMDeviceList) : ST ApiHeap (result Object) :=
  st_try (HSMDeviceList_DeepCopy p) id (λ c, st_ret (Ok (match c with Some l => Some (KHSMDeviceList, Some l) | None => None
    end))).
(* [api/v1alpha1/zz_generated.deepcopy.go:230-235 DeepCopyObject] *)
Definition HSMPool_DeepCopyObject (p : Ptr KHSMPool) : ST ApiHeap (result Object) :=
  st_try (HSMPool_DeepCopy p) id (λ c, st_ret (Ok (match c with Some l => Some (KHSMPool, Some l) | None => None end))).
(* [api/v1alpha1/zz_generated.deepcopy.go:262-267 DeepCopyObject] *)
Definition HSMPoolList_DeepCopyObject (p : Ptr KHSMPoolList) : ST ApiHeap (result Object) :=
  st_try (HSMPoolList_DeepCopy p) id (λ c, st_ret (Ok (match c with Some l => Some (KHSMPoolList, Some l) | None => None end))).
(* [api/v1alpha1/zz_generated.deepcopy.go:359-364 DeepCopyObject] *)
Definition HSMSecret_DeepCopyObject (p : Ptr KHSMSecret) : ST ApiHeap (result Object) :=
  st_try (HSMSecret_DeepCopy p) id (λ c, st_ret (Ok (match c with Some l => Some (KHSMSecret, Some l) | None => None end))).
(* [api/v1alpha1/zz_generated.deepcopy.go:391-396 DeepCopyObject] *)
Definition HSMSecretList_DeepCopyObject (p : Ptr KHSMSecretList) : ST ApiHeap (result Object) :=
  st_try (HSMSecretList_DeepCopy p) id (λ c, st_ret (Ok (match c with Some l => Some (KHSMSecretList, Some l) | None => None
    end))).

(** The methods by the kind of the struct. *)
Definition DeepCopyInto (k : Kind) : sem k → ST ApiHeap (result (sem k)) :=
  match k with
  | KString | KDuration | KObjectReference => assign sem
  | KTime => Time_DeepCopyInto
  | KCondition => Condition_DeepCopyInto
  | KUSBDeviceSpec => USBDeviceSpec_DeepCopyInto
  | KDevicePathSpec => DevicePathSpec_DeepCopyInto
  | KSecretKeySelector => SecretKeySelector_DeepCopyInto
  | KPodReport => PodReport_DeepCopyInto
  | KMirroringSpec => MirroringSpec_DeepCopyInto
  | KPKCS11Config => PKCS11Config_DeepCopyInto
  | KDiscoverySpec => DiscoverySpec_DeepCopyInto
  | KHSMDeviceSpec => HSMDeviceSpec_DeepCopyInto
  | KDiscoveredDevice => DiscoveredDevice_DeepCopyInto
  | KMirroringStatus => MirroringStatus_DeepCopyInto
  | KHSMDevice => HSMDevice_DeepCopyInto
  | KHSMDeviceList => HSMDeviceList_DeepCopyInto
  | KHSMPoolSpec => HSMPoolSpec_DeepCopyInto
  | KHSMPoolStatus => HSMPoolStatus_DeepCopyInto
  | KHSMPool => HSMPool_DeepCopyInto
  | KHSMPoolList => HSMPoolList_DeepCopyInto
  | KParentReference => ParentReference_DeepCopyInto
  | KHSMSecretSpec => HSMSecretSpec_DeepCopyInto
  | KHSMDeviceSync => HSMDeviceSync_DeepCopyInto
  | KHSMSecretStatus => HSMSecretStatus_DeepCopyInto
  | KHSMSecret => HSMSecret_DeepCopyInto
  | KHSMSecretList => HSMSecretList_DeepCopyInto
  end.
Definition DeepCopy (k : Kind) : Ptr k → ST ApiHeap (result (Ptr k)) :=
  match k with
  | KUSBDeviceSpec => USBDeviceSpec_DeepCopy
  | KDevicePathSpec => DevicePathSpec_DeepCopy
  | KSecretKeySelector => SecretKeySelector_DeepCopy
  | KPodReport => PodReport_DeepCopy
  | KMirroringSpec => MirroringSpec_DeepCopy
  | KPKCS11Config => PKCS11Config_DeepCopy
  | KDiscoverySpec => DiscoverySpec_DeepCopy
  | KHSMDeviceSpec => HSMDeviceSpec_DeepCopy
  | KDiscoveredDevice => DiscoveredDevice_DeepCopy
  | KMirroringStatus => MirroringStatus_DeepCopy
  | KHSMDevice => HSMDevice_DeepCopy
  | KHSMDeviceList => HSMDeviceList_DeepCopy
  | KHSMPoolSpec => HSMPoolSpec_DeepCopy
  | KHSMPoolStatus => HSMPoolStatus_DeepCopy
  | KHSMPool => HSMPool_DeepCopy
  | KHSMPoolList => HSMPoolList_DeepCopy
  | KParentReference => ParentReference_DeepCopy
  | KHSMSecretSpec => HSMSecretSpec_DeepCopy
  | KHSMDeviceSync => HSMDeviceSync_DeepCopy
  | KHSMSecretStatus => HSMSecretStatus_DeepCopy
  | KHSMSecret => HSMSecret_DeepCopy
  | KHSMSecretList => HSMSecretList_DeepCopy
  | KTime => Time_DeepCopy
  | k => copy_ptr k (DeepCopyInto k)
  end.
Definition DeepCopyObject (k : Kind) : option (Ptr k → ST ApiHeap (result Object)) :=
  match k with
  | KHSMDevice => Some HSMDevice_DeepCopyObject
  | KHSMDeviceList => Some HSMDeviceList_DeepCopyObject
  | KHSMPool => Some HSMPool_DeepCopyObject
  | KHSMPoolList => Some HSMPoolList_DeepCopyObject
  | KHSMSecret => Some HSMSecret_DeepCopyObject
  | KHSMSecretList => Some HSMSecretList_DeepCopyObject
  | _ => None
  end.
End DeepCopy.
