(* ===== verification/DeepCopySpec.v ===== *)
(** * What the generated copies guarantee

    When memory holds an API object, [DeepCopy] succeeds, changes nothing, and gives the same
    object in new cells: whatever is written through the one is not seen through the other. *)

From stdpp Require Import fin_maps.
From S2P Require Import Prelude GoStd Api Kube GoHeap DeepCopy.

Local Open Scope go_scope.

(** ** What memory stands for: the types of [Api] *)

(** What apimachinery's types in memory stand for. *)
Class MetaRep `{!Layout} := {
  ListMeta : Type;
  rep_ObjectMeta : ApiHeap → ObjectMetaM → ObjectMeta → Prop;
  rep_ListMeta : ApiHeap → ListMetaM → ListMeta → Prop;
}.

Section Rep.
Context `{!Layout, !MetaRep}.

(** Types without references stand for themselves. *)
Local Abbreviation base := (rep_base sem).

Definition rep_MirroringSpec (h : ApiHeap) (x : MirroringSpecM) (v : MirroringSpec) : Prop :=
  msM_Policy x = ms_Policy v ∧ msM_SyncInterval x = ms_SyncInterval v ∧
  rep_slice sem (k := KString) base h (msM_TargetNodes x) (ms_TargetNodes v) ∧ msM_PrimaryNode x = ms_PrimaryNode v ∧
  msM_AutoFailover x = ms_AutoFailover v.
Definition rep_PKCS11Config (h : ApiHeap) (x : PKCS11ConfigM) (v : DevicePKCS11Config) : Prop :=
  pkM_LibraryPath x = pk_LibraryPath v ∧ pkM_SlotId x = pk_SlotId v ∧
  rep_ptr sem (k := KSecretKeySelector) base h (pkM_PinSecret x) (pk_PinSecret v) ∧ pkM_TokenLabel x = pk_TokenLabel v ∧
  pkM_AutoProvision x = pk_AutoProvision v.
Definition rep_DiscoverySpec (h : ApiHeap) (x : DiscoverySpecM) (v : DiscoverySpec) : Prop :=
  rep_slice sem (k := KUSBDeviceSpec) base h (dsM_USB x) (ds_USB v) ∧
  rep_ptr sem (k := KDevicePathSpec) base h (dsM_DevicePath x) (ds_DevicePath v) ∧
  dsM_AutoDiscovery x = ds_AutoDiscovery v.
Definition rep_HSMDeviceSpec (h : ApiHeap) (x : HSMDeviceSpecM) (v : HSMDeviceSpec) : Prop :=
  hdsM_DeviceType x = hd_DeviceType v ∧
  rep_ptr sem (k := KDiscoverySpec) rep_DiscoverySpec h (hdsM_Discovery x) (hd_Discovery v) ∧
  rep_map sem h (hdsM_NodeSelector x) (hd_NodeSelector v) ∧
  rep_ptr sem (k := KPKCS11Config) rep_PKCS11Config h (hdsM_PKCS11 x) (hd_PKCS11 v) ∧
  hdsM_MaxDevices x = hd_MaxDevices v ∧
  rep_ptr sem (k := KMirroringSpec) rep_MirroringSpec h (hdsM_Mirroring x) (hd_Mirroring v).
Definition rep_DiscoveredDevice (h : ApiHeap) (x : DiscoveredDeviceM) (v : DiscoveredDevice) : Prop :=
  ddM_DevicePath x = dd_DevicePath v ∧ ddM_SerialNumber x = dd_SerialNumber v ∧ ddM_NodeName x = dd_NodeName v ∧
  base h (ddM_LastSeen x) (dd_LastSeen v) ∧ rep_map sem h (ddM_DeviceInfo x) (dd_DeviceInfo v) ∧
  ddM_Available x = dd_Available v ∧ ddM_ResourceName x = dd_ResourceName v ∧ ddM_Role x = dd_Role v ∧
  ddM_MirroredFrom x = dd_MirroredFrom v ∧ rep_ptr sem (k := KTime) base h (ddM_LastSyncTime x) (dd_LastSyncTime v) ∧
  ddM_Health x = dd_Health v.
Definition rep_MirroringStatus (h : ApiHeap) (x : MirroringStatusM) (v : MirroringStatus) : Prop :=
  miM_Enabled x = mi_Enabled v ∧ miM_PrimaryNode x = mi_PrimaryNode v ∧
  rep_slice sem (k := KString) base h (miM_MirroredNodes x) (mi_MirroredNodes v) ∧
  rep_ptr sem (k := KTime) base h (miM_LastSyncTime x) (mi_LastSyncTime v) ∧ miM_FailoverCount x = mi_FailoverCount v ∧
  rep_slice sem (k := KString) base h (miM_SyncErrors x) (mi_SyncErrors v).
Definition rep_HSMDevice (h : ApiHeap) (x : HSMDeviceM) (v : TypeMeta * HSMDevice) : Prop :=
  hdM_TypeMeta x = v.1 ∧ rep_ObjectMeta h (hdM_ObjectMeta x) (hd_meta v.2) ∧
  rep_HSMDeviceSpec h (hdM_Spec x) (hd_Spec v.2).
Definition rep_HSMDeviceList (h : ApiHeap) (x : HSMDeviceListM) (v : TypeMeta * ListMeta * list (TypeMeta * HSMDevice)) : Prop :=
  hdlM_TypeMeta x = v.1.1 ∧ rep_ListMeta h (hdlM_ListMeta x) v.1.2 ∧
  rep_slice sem (k := KHSMDevice) rep_HSMDevice h (hdlM_Items x) v.2.
Definition rep_HSMPoolSpec (h : ApiHeap) (x : HSMPoolSpecM) (v : HSMPoolSpec) : Prop :=
  rep_ptr sem (k := KDuration) base h (hpsM_GracePeriod x) (hp_GracePeriod v) ∧
  rep_ptr sem (k := KMirroringSpec) rep_MirroringSpec h (hpsM_Mirroring x) (hp_Mirroring v).
Definition rep_HSMPoolStatus (h : ApiHeap) (x : HSMPoolStatusM) (v : HSMPoolStatus) : Prop :=
  rep_slice sem (k := KDiscoveredDevice) rep_DiscoveredDevice h (psM_AggregatedDevices x) (ps_AggregatedDevices v) ∧
  psM_TotalDevices x = ps_TotalDevices v ∧ psM_AvailableDevices x = ps_AvailableDevices v ∧
  rep_slice sem (k := KPodReport) base h (psM_ReportingPods x) (ps_ReportingPods v) ∧
  psM_ExpectedPods x = ps_ExpectedPods v ∧
  rep_ptr sem (k := KTime) base h (psM_LastAggregationTime x) (ps_LastAggregationTime v) ∧
  rep_slice sem (k := KCondition) base h (psM_Conditions x) (ps_Conditions v) ∧ psM_Phase x = ps_Phase v ∧
  rep_ptr sem (k := KMirroringStatus) rep_MirroringStatus h (psM_Mirroring x) (ps_Mirroring v).
Definition rep_HSMPool (h : ApiHeap) (x : HSMPoolM) (v : TypeMeta * HSMPool) : Prop :=
  hpM_TypeMeta x = v.1 ∧ rep_ObjectMeta h (hpM_ObjectMeta x) (hp_meta v.2) ∧
  rep_HSMPoolSpec h (hpM_Spec x) (hp_Spec v.2) ∧ rep_HSMPoolStatus h (hpM_Status x) (hp_Status v.2).
Definition rep_HSMPoolList (h : ApiHeap) (x : HSMPoolListM) (v : TypeMeta * ListMeta * list (TypeMeta * HSMPool)) : Prop :=
  hplM_TypeMeta x = v.1.1 ∧ rep_ListMeta h (hplM_ListMeta x) v.1.2 ∧
  rep_slice sem (k := KHSMPool) rep_HSMPool h (hplM_Items x) v.2.
Definition rep_ParentReference (h : ApiHeap) (x : ParentReferenceM) (v : ParentReference) : Prop :=
  pfM_Name x = pf_Name v ∧ rep_ptr sem (k := KString) base h (pfM_Namespace x) (pf_Namespace v) ∧
  rep_ptr sem (k := KString) base h (pfM_Group x) (pf_Group v) ∧
  rep_ptr sem (k := KString) base h (pfM_Kind x) (pf_Kind v).
Definition rep_HSMSecretSpec (h : ApiHeap) (x : HSMSecretSpecM) (v : HSMSecretSpec) : Prop :=
  rep_ptr sem (k := KParentReference) rep_ParentReference h (spM_ParentRef x) (sp_ParentRef v) ∧
  spM_SecretName x = sp_SecretName v ∧ spM_AutoSync x = sp_AutoSync v ∧ spM_SecretType x = sp_SecretType v ∧
  spM_SyncInterval x = sp_SyncInterval v.
Definition rep_HSMDeviceSync (h : ApiHeap) (x : HSMDeviceSyncM) (v : HSMDeviceSync) : Prop :=
  syM_DeviceName x = sy_DeviceName v ∧ rep_ptr sem (k := KTime) base h (syM_LastSyncTime x) (sy_LastSyncTime v) ∧
  syM_Checksum x = sy_Checksum v ∧ syM_Status x = sy_Status v ∧ syM_LastError x = sy_LastError v ∧
  syM_Online x = sy_Online v ∧ syM_Version x = sy_Version v.
Definition rep_HSMSecretStatus (h : ApiHeap) (x : HSMSecretStatusM) (v : HSMSecretStatus) : Prop :=
  rep_ptr sem (k := KTime) base h (ssM_LastSyncTime x) (ss_LastSyncTime v) ∧ ssM_HSMChecksum x = ss_HSMChecksum v ∧
  ssM_SecretChecksum x = ss_SecretChecksum v ∧ ssM_SyncStatus x = ss_SyncStatus v ∧ ssM_LastError x = ss_LastError v ∧
  rep_slice sem (k := KCondition) base h (ssM_Conditions x) (ss_Conditions v) ∧
  rep_ptr sem (k := KObjectReference) base h (ssM_SecretRef x) (ss_SecretRef v) ∧
  rep_slice sem (k := KHSMDeviceSync) rep_HSMDeviceSync h (ssM_DeviceSyncStatus x) (ss_DeviceSyncStatus v) ∧
  ssM_PrimaryDevice x = ss_PrimaryDevice v ∧ ssM_SyncConflict x = ss_SyncConflict v.
Definition rep_HSMSecret (h : ApiHeap) (x : HSMSecretM) (v : TypeMeta * HSMSecret) : Prop :=
  hsM_TypeMeta x = v.1 ∧ rep_ObjectMeta h (hsM_ObjectMeta x) (hs_meta v.2) ∧
  rep_HSMSecretSpec h (hsM_Spec x) (hs_Spec v.2) ∧ rep_HSMSecretStatus h (hsM_Status x) (hs_Status v.2).
Definition rep_HSMSecretList (h : ApiHeap) (x : HSMSecretListM) (v : TypeMeta * ListMeta * list (TypeMeta * HSMSecret)) : Prop :=
  hslM_TypeMeta x = v.1.1 ∧ rep_ListMeta h (hslM_ListMeta x) v.1.2 ∧
  rep_slice sem (k := KHSMSecret) rep_HSMSecret h (hslM_Items x) v.2.

(** The values of a kind, and what stands for them. *)
Definition val (k : Kind) : Type :=
  match k with
  | KString => string
  | KTime => Time
  | KDuration => Z
  | KCondition => Condition
  | KObjectReference => ObjectReference
  | KUSBDeviceSpec => USBDeviceSpec
  | KDevicePathSpec => DevicePathSpec
  | KSecretKeySelector => SecretKeySelector
  | KPodReport => PodReport
  | KMirroringSpec => MirroringSpec
  | KPKCS11Config => DevicePKCS11Config
  | KDiscoverySpec => DiscoverySpec
  | KHSMDeviceSpec => HSMDeviceSpec
  | KDiscoveredDevice => DiscoveredDevice
  | KMirroringStatus => MirroringStatus
  | KHSMDevice => TypeMeta * HSMDevice
  | KHSMDeviceList => TypeMeta * ListMeta * list (TypeMeta * HSMDevice)
  | KHSMPoolSpec => HSMPoolSpec
  | KHSMPoolStatus => HSMPoolStatus
  | KHSMPool => TypeMeta * HSMPool
  | KHSMPoolList => TypeMeta * ListMeta * list (TypeMeta * HSMPool)
  | KParentReference => ParentReference
  | KHSMSecretSpec => HSMSecretSpec
  | KHSMDeviceSync => HSMDeviceSync
  | KHSMSecretStatus => HSMSecretStatus
  | KHSMSecret => TypeMeta * HSMSecret
  | KHSMSecretList => TypeMeta * ListMeta * list (TypeMeta * HSMSecret)
  end.
Definition rep (k : Kind) : ApiHeap → sem k → val k → Prop :=
  match k with
  | KString => base
  | KTime => base
  | KDuration => base
  | KCondition => base
  | KObjectReference => base
  | KUSBDeviceSpec => base
  | KDevicePathSpec => base
  | KSecretKeySelector => base
  | KPodReport => base
  | KMirroringSpec => rep_MirroringSpec
  | KPKCS11Config => rep_PKCS11Config
  | KDiscoverySpec => rep_DiscoverySpec
  | KHSMDeviceSpec => rep_HSMDeviceSpec
  | KDiscoveredDevice => rep_DiscoveredDevice
  | KMirroringStatus => rep_MirroringStatus
  | KHSMDevice => rep_HSMDevice
  | KHSMDeviceList => rep_HSMDeviceList
  | KHSMPoolSpec => rep_HSMPoolSpec
  | KHSMPoolStatus => rep_HSMPoolStatus
  | KHSMPool => rep_HSMPool
  | KHSMPoolList => rep_HSMPoolList
  | KParentReference => rep_ParentReference
  | KHSMSecretSpec => rep_HSMSecretSpec
  | KHSMDeviceSync => rep_HSMDeviceSync
  | KHSMSecretStatus => rep_HSMSecretStatus
  | KHSMSecret => rep_HSMSecret
  | KHSMSecretList => rep_HSMSecretList
  end.
End Rep.

(** What apimachinery promises: its types do not depend on other cells, and its copies copy. *)
Class ApimachineryLaws `{!Layout, !MetaRep, !Apimachinery} : Prop := {
  ObjectMeta_mono : monotone sem rep_ObjectMeta;
  ListMeta_mono : monotone sem rep_ListMeta;
  ObjectMeta_copies : copies sem rep_ObjectMeta ObjectMeta_DeepCopyInto;
  ListMeta_copies : copies sem rep_ListMeta ListMeta_DeepCopyInto;
  Time_copies : copies sem (rep_base sem) Time_DeepCopyInto;
  Time_ptr_copies : copies sem (rep_ptr sem (rep_base sem)) Time_DeepCopy;
  Condition_copies : copies sem (rep_base sem) Condition_DeepCopyInto;
}.

(** ** Every struct is copied *)
Create HintDb heap.
#[export] Hint Resolve rep_base_mono rep_slice_mono rep_ptr_mono rep_map_mono assign_copies copy_slice_copies copy_ptr_copies
  copy_map_copies ObjectMeta_mono ListMeta_mono ObjectMeta_copies ListMeta_copies Time_copies Time_ptr_copies Condition_copies : heap.

Lemma mono_use `{!Layout} {A V} (P : ApiHeap → A → V → Prop) h h' x v : monotone sem P → h ⊆ h' → P h x v → P h' x v.
Proof. intros Hm. apply Hm. Qed.

(** A part of a union of disjoint heaps. *)
Ltac sub_union :=
  first
    [ assumption
    | reflexivity
    | apply map_union_subseteq_l'; sub_union
    | apply map_union_subseteq_r'; [assumption|sub_union] ].
(** What a field stands for is still so in a greater heap. *)
Ltac carry :=
  match goal with
  | H : ?P ?h ?x ?v |- ?P ?h' ?x ?v => refine (mono_use P h h' x v _ _ H); [solve [eauto with heap]|sub_union]
  end.
(** A generated function: a copy for each field with references, then the struct. *)
Ltac copy_field :=
  match goal with
  | H : ?P _ ?x ?v |- fresh_copy _ _ (st_try (?f ?x) _ _) _ =>
      apply (fresh_copy_bind sem _ _ _ (λ hn y, P hn y v));
      [ refine ((_ : copies sem P f) _ x v _); [solve [eauto with heap]|carry]
      | intros ? ? ? ? ]
  end.
Ltac fields := hnf; repeat match goal with |- _ ∧ _ => split end; first [done|carry].
Tactic Notation "copy_struct" reference(f) :=
  intros ? ? ? Hrep; hnf in Hrep; destruct_and? Hrep; unfold f; repeat copy_field;
  apply fresh_copy_ret; intros; fields.
Ltac mono_struct := intros ? ? ? ? ? Hrep; hnf in Hrep; destruct_and? Hrep; fields.

Section Copies.
Context `{!MapOrder, !Layout, !MetaRep, !Apimachinery, !ApimachineryLaws}.

Lemma copy_time_copies : copies sem (rep_ptr sem (rep_base sem)) copy_time.
Proof. intros h [l|] v Hr; [by apply Time_ptr_copies|]. destruct v; [done|]. by apply fresh_copy_ret. Qed.
Lemma base_copies {A} : copies sem (rep_base sem) (λ x : A, st_ret (Ok x)).
Proof. exact (assign_copies sem). Qed.
Lemma PodReport_copies : copies sem (rep_base sem) PodReport_DeepCopyInto.
Proof.
  intros h x v ->. unfold PodReport_DeepCopyInto. eapply fresh_copy_bind; [by apply (Time_copies h (pr_LastReportTime v) (pr_LastReportTime v))|].
  intros t hn _ ->. apply fresh_copy_ret. intros _. by destruct v.
Qed.
#[local] Hint Resolve copy_time_copies PodReport_copies : heap.
Lemma MirroringSpec_mono : monotone sem rep_MirroringSpec.
Proof. mono_struct. Qed.
#[local] Hint Resolve MirroringSpec_mono : heap.
Lemma MirroringSpec_copies : copies sem rep_MirroringSpec MirroringSpec_DeepCopyInto.
Proof. copy_struct MirroringSpec_DeepCopyInto. Qed.
#[local] Hint Resolve MirroringSpec_copies : heap.
Lemma PKCS11Config_mono : monotone sem rep_PKCS11Config.
Proof. mono_struct. Qed.
#[local] Hint Resolve PKCS11Config_mono : heap.
Lemma PKCS11Config_copies : copies sem rep_PKCS11Config PKCS11Config_DeepCopyInto.
Proof. copy_struct PKCS11Config_DeepCopyInto. Qed.
#[local] Hint Resolve PKCS11Config_copies : heap.
Lemma DiscoverySpec_mono : monotone sem rep_DiscoverySpec.
Proof. mono_struct. Qed.
#[local] Hint Resolve DiscoverySpec_mono : heap.
Lemma DiscoverySpec_copies : copies sem rep_DiscoverySpec DiscoverySpec_DeepCopyInto.
Proof. copy_struct DiscoverySpec_DeepCopyInto. Qed.
#[local] Hint Resolve DiscoverySpec_copies : heap.
Lemma HSMDeviceSpec_mono : monotone sem rep_HSMDeviceSpec.
Proof. mono_struct. Qed.
#[local] Hint Resolve HSMDeviceSpec_mono : heap.
Lemma HSMDeviceSpec_copies : copies sem rep_HSMDeviceSpec HSMDeviceSpec_DeepCopyInto.
Proof. copy_struct HSMDeviceSpec_DeepCopyInto. Qed.
#[local] Hint Resolve HSMDeviceSpec_copies : heap.
Lemma DiscoveredDevice_mono : monotone sem rep_DiscoveredDevice.
Proof. mono_struct. Qed.
#[local] Hint Resolve DiscoveredDevice_mono : heap.
Lemma DiscoveredDevice_copies : copies sem rep_DiscoveredDevice DiscoveredDevice_DeepCopyInto.
Proof. copy_struct DiscoveredDevice_DeepCopyInto. Qed.
#[local] Hint Resolve DiscoveredDevice_copies : heap.
Lemma MirroringStatus_mono : monotone sem rep_MirroringStatus.
Proof. mono_struct. Qed.
#[local] Hint Resolve MirroringStatus_mono : heap.
Lemma MirroringStatus_copies : copies sem rep_MirroringStatus MirroringStatus_DeepCopyInto.
Proof. copy_struct MirroringStatus_DeepCopyInto. Qed.
#[local] Hint Resolve MirroringStatus_copies : heap.
Lemma HSMDevice_mono : monotone sem rep_HSMDevice.
Proof. mono_struct. Qed.
#[local] Hint Resolve HSMDevice_mono : heap.
Lemma HSMDevice_copies : copies sem rep_HSMDevice HSMDevice_DeepCopyInto.
Proof. copy_struct HSMDevice_DeepCopyInto. Qed.
#[local] Hint Resolve HSMDevice_copies : heap.
Lemma HSMDeviceList_mono : monotone sem rep_HSMDeviceList.
Proof. mono_struct. Qed.
#[local] Hint Resolve HSMDeviceList_mono : heap.
Lemma HSMDeviceList_copies : copies sem rep_HSMDeviceList HSMDeviceList_DeepCopyInto.
Proof. copy_struct HSMDeviceList_DeepCopyInto. Qed.
#[local] Hint Resolve HSMDeviceList_copies : heap.
Lemma HSMPoolSpec_mono : monotone sem rep_HSMPoolSpec.
Proof. mono_struct. Qed.
#[local] Hint Resolve HSMPoolSpec_mono : heap.
Lemma HSMPoolSpec_copies : copies sem rep_HSMPoolSpec HSMPoolSpec_DeepCopyInto.
Proof. copy_struct HSMPoolSpec_DeepCopyInto. Qed.
#[local] Hint Resolve HSMPoolSpec_copies : heap.
Lemma HSMPoolStatus_mono : monotone sem rep_HSMPoolStatus.
Proof. mono_struct. Qed.
#[local] Hint Resolve HSMPoolStatus_mono : heap.
Lemma HSMPoolStatus_copies : copies sem rep_HSMPoolStatus HSMPoolStatus_DeepCopyInto.
Proof. copy_struct HSMPoolStatus_DeepCopyInto. Qed.
#[local] Hint Resolve HSMPoolStatus_copies : heap.
Lemma HSMPool_mono : monotone sem rep_HSMPool.
Proof. mono_struct. Qed.
#[local] Hint Resolve HSMPool_mono : heap.
Lemma HSMPool_copies : copies sem rep_HSMPool HSMPool_DeepCopyInto.
Proof. copy_struct HSMPool_DeepCopyInto. Qed.
#[local] Hint Resolve HSMPool_copies : heap.
Lemma HSMPoolList_mono : monotone sem rep_HSMPoolList.
Proof. mono_struct. Qed.
#[local] Hint Resolve HSMPoolList_mono : heap.
Lemma HSMPoolList_copies : copies sem rep_HSMPoolList HSMPoolList_DeepCopyInto.
Proof. copy_struct HSMPoolList_DeepCopyInto. Qed.
#[local] Hint Resolve HSMPoolList_copies : heap.
Lemma ParentReference_mono : monotone sem rep_ParentReference.
Proof. mono_struct. Qed.
#[local] Hint Resolve ParentReference_mono : heap.
Lemma ParentReference_copies : copies sem rep_ParentReference ParentReference_DeepCopyInto.
Proof. copy_struct ParentReference_DeepCopyInto. Qed.
#[local] Hint Resolve ParentReference_copies : heap.
Lemma HSMSecretSpec_mono : monotone sem rep_HSMSecretSpec.
Proof. mono_struct. Qed.
#[local] Hint Resolve HSMSecretSpec_mono : heap.
Lemma HSMSecretSpec_copies : copies sem rep_HSMSecretSpec HSMSecretSpec_DeepCopyInto.
Proof. copy_struct HSMSecretSpec_DeepCopyInto. Qed.
#[local] Hint Resolve HSMSecretSpec_copies : heap.
Lemma HSMDeviceSync_mono : monotone sem rep_HSMDeviceSync.
Proof. mono_struct. Qed.
#[local] Hint Resolve HSMDeviceSync_mono : heap.
Lemma HSMDeviceSync_copies : copies sem rep_HSMDeviceSync HSMDeviceSync_DeepCopyInto.
Proof. copy_struct HSMDeviceSync_DeepCopyInto. Qed.
#[local] Hint Resolve HSMDeviceSync_copies : heap.
Lemma HSMSecretStatus_mono : monotone sem rep_HSMSecretStatus.
Proof. mono_struct. Qed.
#[local] Hint Resolve HSMSecretStatus_mono : heap.
Lemma HSMSecretStatus_copies : copies sem rep_HSMSecretStatus HSMSecretStatus_DeepCopyInto.
Proof. copy_struct HSMSecretStatus_DeepCopyInto. Qed.
#[local] Hint Resolve HSMSecretStatus_copies : heap.
Lemma HSMSecret_mono : monotone sem rep_HSMSecret.
Proof. mono_struct. Qed.
#[local] Hint Resolve HSMSecret_mono : heap.
Lemma HSMSecret_copies : copies sem rep_HSMSecret HSMSecret_DeepCopyInto.
Proof. copy_struct HSMSecret_DeepCopyInto. Qed.
#[local] Hint Resolve HSMSecret_copies : heap.
Lemma HSMSecretList_mono : monotone sem rep_HSMSecretList.
Proof. mono_struct. Qed.
#[local] Hint Resolve HSMSecretList_mono : heap.
Lemma HSMSecretList_copies : copies sem rep_HSMSecretList HSMSecretList_DeepCopyInto.
Proof. copy_struct HSMSecretList_DeepCopyInto. Qed.
#[local] Hint Resolve HSMSecretList_copies : heap.

Lemma rep_mono k : monotone sem (rep k).
Proof. destruct k; cbn [rep]; auto with heap. Qed.
Lemma DeepCopyInto_copies k : copies sem (rep k) (DeepCopyInto k).
Proof. destruct k; cbn [rep DeepCopyInto]; solve [eauto with heap|exact base_copies]. Qed.
Lemma DeepCopy_copies k : copies sem (rep_ptr sem (rep k)) (DeepCopy k).
Proof.
  destruct k; [|exact Time_ptr_copies|..];
    (apply (copy_ptr_copies sem zero); [exact (rep_mono _)|exact (DeepCopyInto_copies _)]).
Qed.

(** C39. Whatever API object a pointer of any kind stands for, nil included, [DeepCopy] does not
    fail, writes no cell that was there, and returns a pointer that stands for the same
    object; and the two are apart: however the cells from before are changed, the copy still
    stands for the object, and however the new cells are changed, the original does.  As a
    [runtime.Object] the copy is nil only for nil. *)
Theorem DeepCopy_isolated k (h : ApiHeap) (p : Ptr k) (v : option (val k)) : rep_ptr sem (rep k) h p v →
  ∃ p' h', DeepCopy k p h = (Ok p', h') ∧ h ⊆ h' ∧ rep_ptr sem (rep k) h' p' v ∧
    (∀ g : ApiHeap, (∀ l, h !! l = None → g !! l = h' !! l) → rep_ptr sem (rep k) g p' v) ∧
    (∀ g : ApiHeap, (∀ l, is_Some (h !! l) → g !! l = h' !! l) → rep_ptr sem (rep k) g p v) ∧
    ∀ f, DeepCopyObject k = Some f → f p h = (Ok ((λ l, (k, Some l)) <$> p'), h').
Proof.
  intros Hr. destruct (DeepCopy_copies k h p v Hr) as (p' & hn & E & Hd & Hr').
  pose proof (rep_ptr_mono sem k (val k) (rep k) (rep_mono k)) as Hm.
  assert (hn ⊆ hn ∪ h) as Hl by apply map_union_subseteq_l. assert (h ⊆ hn ∪ h) as Hh by by apply map_union_subseteq_r.
  exists p', (hn ∪ h). split; [exact E|]. split; [exact Hh|]. split; [exact (Hm _ _ _ _ Hl Hr')|]. split; [|split].
  - intros g Hg. eapply Hm; [|exact Hr']. apply map_subseteq_spec. intros l c Hc.
    rewrite Hg by (by eapply map_disjoint_Some_l). by apply lookup_union_Some_l.
  - intros g Hg. eapply Hm; [|exact Hr]. apply map_subseteq_spec. intros l c Hc. rewrite Hg by done. by eapply lookup_weaken.
  - intros f Hf. destruct k; try discriminate Hf; injection Hf as <-; cbn [DeepCopy] in E;
      cbv delta [HSMDevice_DeepCopyObject HSMDeviceList_DeepCopyObject HSMPool_DeepCopyObject HSMPoolList_DeepCopyObject
        HSMSecret_DeepCopyObject HSMSecretList_DeepCopyObject st_try st_bind]; cbv beta; rewrite E; by destruct p'.
Qed.
End Copies.

(** ** Witness *)
Module DeepCopyWitness.
#[local] Existing Instance listed_order.
(** Of its metadata an object has a name and labels; a list has none. *)
#[local] Instance layout : Layout := {| ObjectMetaM := string * StringMap; ListMetaM := (); zero_ObjectMeta := ("", None); zero_ListMeta := () |}.
Definition meta (name : string) (labels : gmap string string) : ObjectMeta :=
  mkObjectMeta name "" "" 0 labels ∅ [] None [] zero_time 0.
#[local] Instance meta_rep : MetaRep := {|
  ListMeta := ();
  rep_ObjectMeta h x m := ∃ labels, rep_map sem h x.2 labels ∧ m = meta x.1 labels;
  rep_ListMeta _ _ _ := True;
|}.
#[local] Instance apimachinery : Apimachinery := {|
  ObjectMeta_DeepCopyInto x := st_try (copy_map sem x.2) id (λ labels, st_ret (Ok (x.1, labels)));
  ListMeta_DeepCopyInto := assign sem;
  Time_DeepCopyInto := assign sem;
  Time_DeepCopy := copy_ptr sem zero KTime (assign sem);
  Condition_DeepCopyInto := assign sem;
|}.
#[local] Instance apimachinery_laws : ApimachineryLaws.
Proof.
  split; try apply (assign_copies sem).
  - intros h h' x m Hs (labels & Hl & ->). exists labels. split; [by eapply rep_map_mono|done].
  - done.
  - intros h x m (labels & Hl & ->). cbn [ObjectMeta_DeepCopyInto apimachinery].
    eapply fresh_copy_bind; [by apply copy_map_copies|]. intros l hn _ Hl'. apply fresh_copy_ret. intros _.
    exists labels. by rewrite (left_id_L ∅ (∪)).
  - intros h x v _. by apply fresh_copy_ret.
  - apply copy_ptr_copies; [apply rep_base_mono|apply (assign_copies sem)].
Qed.

(** A pool with two devices that share one map of information. *)
Definition info : gmap string string := {["vendor" := "20a0"]}.
Definition devM (serial : string) : DiscoveredDeviceM :=
  mkDiscoveredDeviceM "/dev/a" serial "node" zero_time (Some 1%positive) true "" "" "" None "".
Definition dev (serial : string) : DiscoveredDevice := mkDiscoveredDevice "/dev/a" serial "node" zero_time info true "" "" "" None "".
Definition h0 : ApiHeap :=
  <[1%positive := Map sem info]> (<[2%positive := Array sem KDiscoveredDevice [devM "A"; devM "B"]]> {[3%positive := Array sem KHSMPool
    [mkHSMPoolM (mkTypeMeta "HSMPool" "v1alpha1") ("pool", None) (mkHSMPoolSpecM None None)
       (mkHSMPoolStatusM (Some (mkSlice 2%positive 0 2)) 2 2 None 1 None None "Ready" None)]]}).
Definition pool : TypeMeta * HSMPool := (mkTypeMeta "HSMPool" "v1alpha1",
  mkHSMPool (meta "pool" ∅) (mkHSMPoolSpec None None) (mkHSMPoolStatus [dev "A"; dev "B"] 2 2 [] 1 None [] "Ready" None)).
Lemma pool_there : rep_ptr sem (rep KHSMPool) h0 (Some 3%positive) (Some pool).
Proof.
  eexists. split; [reflexivity|]. split; [reflexivity|]. split; [by exists ∅|]. split; [done|]. hnf. split.
  { eexists. split; [reflexivity|]. split; [cbn; lia|]. by repeat constructor. }
  repeat split.
Qed.

(** After the copy the shared map is cleared: the copy does not notice. *)
Definition after : ApiHeap := (HSMPool_DeepCopy (Some 3%positive) h0).2.
Definition cleared : ApiHeap := <[1%positive := Map sem ∅]> after.
Example DeepCopy_isolated_witness :
  ∃ p', (HSMPool_DeepCopy (Some 3%positive) h0).1 = Ok p' ∧ rep_ptr sem (rep KHSMPool) cleared p' (Some pool) ∧
        ¬ rep_ptr sem (rep KHSMPool) cleared (Some 3%positive) (Some pool).
Proof.
  destruct (DeepCopy_isolated KHSMPool h0 (Some 3%positive) (Some pool) pool_there) as (p' & h' & E & _ & _ & Hg & _).
  assert (h' = after) as -> by (unfold after; change (HSMPool_DeepCopy (Some 3%positive) h0) with (DeepCopy KHSMPool (Some 3%positive) h0); by rewrite E).
  exists p'. split; [exact (f_equal fst E)|]. split.
  - apply Hg. intros l Hl. unfold cleared. apply lookup_insert_ne. intros <-. discriminate Hl.
  - intros (x & Hx & Hr). vm_compute in Hx. injection Hx as <-. destruct Hr as (_ & _ & _ & (xs & Hx & _ & Hf) & _).
    vm_compute in Hx. injection Hx as <-. inversion Hf as [|? ? ? ? Hd]. destruct Hd as (_ & _ & _ & _ & Hinfo & _). vm_compute in Hinfo.
    discriminate Hinfo.
Defined.
End DeepCopyWitness.
